(* ===== verification/_CoqProject ===== *)
-Q . S2P
Prelude.v
Transactions.v
Regex.v
PyStr.v
Sha256.v
PyTime.v
Json.v
JsonParse.v
JsonRead.v
Base64.v
Identifiers.v
Projection.v
Dfs.v
PhysicalPlan.v
PhysicalPlanCodec.v
Graph.v
GraphOps.v
PhysicalPlanner.v
Orchestration.v
RunCodec.v
PlanCodec.v
RunTransition.v
Contract.v
Dispatch.v
RunStorePg.v
Instances.v
RunStorePgSpec.v
RunStorePages.v
Placement.v
PlacementSpec.v
RunStatus.v
Lifecycle.v
LifecycleSpec.v
ReplaySpec.v
LifecycleInstances.v
Shutdown.v
ShutdownSpec.v
SchedulePort.v
Cron.v
CronSpec.v
TriggerCodec.v
ScheduleConsumer.v
ScheduleConsumerSpec.v
ScheduleQueue.v
ScheduleQueueSpec.v
ScheduleInstances.v
HostedSchedule.v
Scheduler.v
SchedulerSpec.v
StatePort.v
LedgerSpec.v
StatePg.v
StatePgSpec.v
StateSqlite.v
StateBigQuery.v
StateBigQuerySpec.v
LeaseGuard.v
StateInstances.v
RunHistory.v
RunHistorySpec.v
Failure.v
Ingestion.v
Traces.v
IngestionSpec.v
Executor.v
ExecutorSpec.v
Superseded.v
ExecutorInstances.v
ObjectStore.v
RunBounds.v
RunStoreS3.v
RunStoreS3Spec.v
RunStoreS3Recovery.v
RunStoreS3Instances.v
GraphStore.v
GraphStoreSpec.v
GraphStoreMemory.v
GraphStorePg.v
GraphStorePgSpec.v
GraphStoreInstances.v
