(* ===== verification/Prelude.v ===== *)
(** * Dander: a verification library for the hosted Control core and the pipeline runtime

    Dander's Control service accepts graph runs over an API and from schedules,
    places each run on an immutable execution plan, stores it durably, dispatches
    attempts to a hosted execution provider and reconciles the runs with the
    provider until they are settled.  What the provider executes is a pipeline:
    under a lease it extracts, writes, commits cursors, builds models and
    publishes metadata, and records one outcome.  This library models both as
    executable functions and proves what makes them correct.

    ** The program and the files that model it (under src/src/dander/)

    Foundations
    - [Prelude], [Regex], [PyStr], [PyTime], [Sha256], [Base64], [Json],
      [JsonParse], [JsonRead]: what the code uses of Python - exceptions as a
      class hierarchy and a [result] type, stateful computations [M W A] whose
      state survives an exception, regular expressions by derivatives, strings,
      [datetime], SHA-256, base64, [json.dumps] and [json.loads].
    - [Transactions]: durable state under transactions, with other clients and a
      connection that may be lost before or after a commit; [ObjectStore]: the
      client interface of a bucket with conditional writes, and its laws;
      [Traces]: reasoning on the calls a computation records.

    Graphs and plans
    - [Identifiers], [Projection] (deployment/projection.py), [Graph] and
      [GraphOps] (pipeline/graph.py, node_config.py, operations.py,
      graph_ops.py, with [Dfs] as the reference of its depth-first search):
      validated names, execution templates, typed graphs, their wiring and
      order.
    - [PhysicalPlan], [PhysicalPlanCodec] (physical_plan.py) and
      [PhysicalPlanner] (control/physical_planner.py): plans of stages and
      exchanges, their canonical encoding and revision, and the static planner.

    Runs and their stores
    - [Orchestration] (control/orchestration.py, data and constructors),
      [RunTransition] ([transition_run]), [RunCodec], [PlanCodec],
      [TriggerCodec] and [RunBounds] (control/orchestration_serialization.py):
      runs, attempts, submissions, plans, triggers, their identities, encodings
      and sizes, and the run state machine.
    - [Contract]: the [RunStore] and [ExecutionBackend] protocols of
      control/orchestration.py as interfaces, with laws on an abstract [view];
      [Dispatch]: claiming and dispatching over them.
    - [RunStorePg], [RunStorePgSpec], [RunStorePages]
      (control/postgresql_run_store.py and the tables of
      postgresql_control_database.py) and [RunStoreS3], [RunStoreS3Spec],
      [RunStoreS3Recovery] (control/s3_run_store.py): two stores, over tables
      and transactions and over the objects of a bucket; both implement the
      interface.

    The lifecycle
    - [Placement], [PlacementSpec] (control/run_lifecycle.py, the plan registry
      and the submission resolver), [RunStatus] (the API responses of
      control/models.py), [Lifecycle], [LifecycleSpec], [ReplaySpec]
      ([ControlRunLifecycle], the API operations and the reconciler),
      [Shutdown], [ShutdownSpec] (its sources, readiness and closing).

    Graphs at rest
    - [GraphStore] (control/graph_store.py: canonical documents, the protocol
      and its in-memory store), [GraphStorePg]
      (control/postgresql_graph_store.py); [GraphStoreSpec] is the contract and
      what a client may conclude from it, [GraphStoreMemory] and
      [GraphStorePgSpec] prove that the two stores keep it.

    Schedules
    - [Cron], [CronSpec] (control/schedule_expression.py); [SchedulePort],
      [ScheduleConsumer], [ScheduleConsumerSpec] (control/schedule_consumer.py);
      [ScheduleQueue], [ScheduleQueueSpec]
      (control/postgresql_schedule_queue.py); [Scheduler], [SchedulerSpec]
      (control/postgresql_scheduler.py); [HostedSchedule]: queue, run store,
      consumer and lifecycle as one process.

    Execution
    - [StatePort], [LedgerSpec]: leases and watermarks as interfaces over an
      abstract ledger; [StatePg], [StatePgSpec] (providers/postgresql/state.py),
      [StateSqlite] and [StateBigQuery], [StateBigQuerySpec] (state/lease.py,
      state/watermark.py, concurrency.py, _bigquery_retry.py): three providers,
      each with its own compare-and-set instead of the inherited one, which is
      two calls ([StatePort], [LedgerSpec]); [LeaseGuard] ([LeaseHeartbeat]).
    - [RunHistory], [RunHistorySpec] (state/run_history.py and the PostgreSQL
      store), [Failure] (state/failure.py), [Ingestion], [IngestionSpec]
      (runtime.py), [Executor], [ExecutorSpec] (executor.py); [Superseded]: both
      under a lease that was overtaken.

    [Instances], [LifecycleInstances], [ScheduleInstances], [StateInstances],
    [ExecutorInstances], [RunStoreS3Instances] and [GraphStoreInstances] hold
    providers, worlds and runs in which the interfaces are inhabited and the theorems apply.

    ** How state and time are modelled

    A Python operation on a store, a queue or a provider is a function
    [W -> result A * W] over an arbitrary world.  The laws of an interface say
    what such an operation may do to the durable view - in [Contract] runs only
    evolve, snapshots and attempts are never lost, one execution per attempt; in
    [StatePort] a ledger moves by its steps; in [SchedulePort] receipts keep
    their meaning - and leave room for every interleaving with other processes:
    between the call and the return other clients may have moved the view
    forward, and an operation that raises may or may not have taken effect.  The
    stores make this concrete: a world of [Transactions] is a set of tables and a
    list of events (another client's transaction, a connection lost before or
    after the commit) that the statements consume; a bucket of [ObjectStore] is
    the history of its objects' versions, and every request may meet other
    clients before and after it and lose its answer.

    ** What is shown

    - Transitions: accepted transitions are monotone, settled runs are final and
      every reachable snapshot is valid ([RunTransition]).
    - Identities: run and attempt identities determine what they name; a
      submission always yields a valid run ([Orchestration]).
    - Encodings: run records of every schema version, attempts, triggers,
      execution and physical plans, page cursors and candidate texts round-trip,
      readers accept only canonical, valid values, and every valid run and
      attempt fits the size its reader accepts ([RunCodec], [TriggerCodec],
      [PlanCodec], [PhysicalPlanCodec], [RunStorePgSpec], [Orchestration],
      [RunBounds]).
    - Graphs and planning: ordering and wiring checks are exact; every plan the
      planner returns satisfies the plan invariants and implements the graph
      ([GraphOps], [PhysicalPlanner]).
    - Dispatch: attempts are recorded before the provider hears of them, retry
      bounds hold, and a redispatch adopts the execution already running
      ([Dispatch]).
    - The stores: both refine the interface under interference and failure;
      PostgreSQL also has compare-and-swap, idempotent claims and complete,
      terminating page walks ([RunStorePgSpec], [RunStorePages]), and S3
      completes a creation that stopped between its two objects
      ([RunStoreS3Spec], [RunStoreS3Recovery]).
    - Graph stores: both keep the contract - the outcome of a keyed mutation is
      booked with its effect, replacing and deleting compare revisions
      ([GraphStoreInstances]); a keyed mutation takes effect once, and its
      key is refused for another ([GraphStoreSpec]).
    - Placement: the registry is exact, the automatic choice optimal and its
      decision says why, a resolved request valid and found again when repeated
      ([PlacementSpec], [ReplaySpec]).
    - Lifecycle: starting answers for the submission, cancellation takes effect,
      a sweep contains every error and is bounded, readiness is an exact function
      of the scan's history ([LifecycleSpec]); closing is orderly and, when
      everything answers, complete ([ShutdownSpec]).
    - Schedules: the parser accepts exactly the five-field grammar and the scan
      finds exactly the due minutes ([CronSpec]); no occurrence is skipped,
      none is inserted twice unless a replaced definition moved the cursor
      backward ([ScheduleInstances] runs that case), a stale cursor catches up,
      and a message has one holder ([ScheduleQueueSpec]); only
      the leader produces ([SchedulerSpec]); a message is acknowledged only after
      its run is durable, and redelivery names the same run
      ([ScheduleConsumerSpec]); the queue refines its port ([HostedSchedule]).
    - Execution state: the three providers keep the contract of leases and
      watermarks ([StateInstances]); a superseded owner fails every
      verification, a verified term excludes other runs ([LeaseGuard]); the run histories agree ([RunHistorySpec]).
    - Pipelines: a cursor is committed last, after its records are written, and is
      the greatest of theirs in the order of texts; nothing follows a failed call
      ([IngestionSpec]); every execution has one recorded outcome and releases
      what it acquired ([ExecutorSpec]); once its lease was overtaken it builds,
      publishes and writes nothing more and records no success ([Superseded]);
      failure summaries quote nothing of an exception ([Failure]).

    ** Bounds

    Recursion that follows no structure takes fuel that is proved sufficient:
    the graph walks take one unit per node and edge ([Dfs], [PhysicalPlan]), the
    JSON reader the length of its input, page walks the number of rows, the scan
    of a schedule the minutes of its interval and one more.  Bounds of the source
    are kept as they are: a sweep of the reconciler, five attempts at a BigQuery
    mutation, eight exceptions of a cause chain, three attempts at reading an
    object that changes.  Integers are unbounded, as in Python; ranges the code
    or a column type checks are checked here.  [printable] bounds integers below
    Python's limit on the digits of [str].

    ** Not modelled

    - Strings are over U+0000-U+00FF; the patterns of the source accept ASCII
      only.  JSON numbers with a fraction or exponent are read as a tag.  Other
      encodings than UTF-8 in [json.loads], and Python's recursion limit, are
      left out; so are ISO timestamps in spellings the writers never produce.
    - Constructor checks on the types of arguments hold by typing.
    - Locks and threads: one process's calls are sequences; other processes are
      the interference of the interfaces.  Logging, telemetry and measured
      durations have no effect on the state.
    - Clocks, random identifiers and the database of time zones are parameters;
      revision tokens and receipts are assumed never to repeat.  A BigQuery
      statement reads the server's time once; SQLite's float times are exact in
      steps of 2^-22 seconds.
    - The session pool and its advisory locks are parameters of [Scheduler].  The
      S3 client is a parameter of [RunStoreS3] whose entity tags identify the
      content; nobody deletes objects.
    - Pydantic's JSON reader of mutation results, the graph store of the planner
      and the input size estimators are parameters with the behaviour their
      protocols state.  The transport model of a graph document (control/models.py
      and its conversion to the domain) is a parameter of [GraphStore]; the
      PostgreSQL store relies on validation seeing no more of a JSON value than
      its canonical bytes.
    - Sources, writers, target fences, the transform runner, the compiler of the
      metadata and the publishers are parameters of [Ingestion] and [Executor];
      an extraction is the stream it yields, already normalized: the
      normalization by a declared schema is not modelled.
    - Schema migrations and the metadata snapshots of the PostgreSQL provider;
      BigQuery tables start empty.
    - The SQS queue, provider clients, the graph stores over files and cloud
      objects, graph compilation, the HTTP layer, authentication, composition,
      deployment, warehouse writers and the command line: see the component
      list. *)

From Stdlib Require Export Ascii String.
From stdpp Require Export base tactics option list numbers sorting gmap strings.
From Stdlib Require Export Lia.

#[export] Set Warnings "-clear-no-such-hyp,-register-all".

Declare Scope py_scope.
Delimit Scope py_scope with py.

(** ** Exceptions

    One constructor per exception class of the modelled files; [exn_parent] is
    the class it derives from, so that an [except C] clause catches exactly the
    classes below [C]. *)

Inductive exn_class : Type :=
  | Exception
  | ValueError
  | RuntimeError
  | AssertionError
  | KeyError
  | TypeError
  | StopIteration
  | RecursionError
  | OverflowError
  | OrchestrationContractError
  | RunTransitionError
  | RunStoreError
  | RunStoreConflictError
  | RunStoreCorruptionError
  | RunStoreIdempotencyConflictError
  | ExecutionBackendError
  | PhysicalPlanError
  | PhysicalPlanningError
  | ExecutionProjectionError
  | ScheduleExpressionError
  | InputSizeEstimationError
  | ControlOperationError
  | ControlOperationUnavailableError
  | ControlOperationDependencyError
  | ControlOperationNotFoundError
  | ControlOperationConflictError
  | ControlOperationIdempotencyConflictError
  | GraphStoreError
  | GraphStoreIdentifierError
  | GraphStoreDocumentError
  | GraphStoreNotFoundError
  | GraphStoreAlreadyExistsError
  | GraphStoreConflictError
  | GraphStoreIdempotencyConflictError
  | GraphStoreCorruptionError
  | GraphValidationError
  | DuplicateNodeIdError
  | DanglingEdgeError
  | SelfLoopError
  | GraphCycleError
  | DuplicateFieldNameError
  | UnknownFieldReferenceError
  | JoinKeyFieldError
  | UnknownOperationFieldError
  | GraphRepairError
  | TransformProjectError
  | LeaseLostError
  | OrchestrationSerializationError
  | ScheduleQueueError
  | ZoneInfoNotFoundError
  | ExecutionPlanCompilationError
  | ControlRunCompositionError
  | StartupBindingError
  | ExecutionResultCollectionError
  | ControlAuthError
  | JWKSResolutionError
  | GraphBodyError
  | GraphRevisionConflictError
  | BadRequest                    (* google.api_core: the service refused a job *)
  | TargetFenceLostError
  | WatermarkConflictError
  | CursorValueError
  | RawSchemaError.

#[export] Instance exn_class_eq_dec : EqDecision exn_class.
Proof. solve_decision. Defined.

Definition exn_parent (c : exn_class) : option exn_class :=
  match c with
  | Exception => None
  | ValueError | RuntimeError | AssertionError | KeyError | TypeError | StopIteration
  | OverflowError => Some Exception
  | RecursionError => Some RuntimeError
  | OrchestrationContractError => Some ValueError
  | RunTransitionError | OrchestrationSerializationError => Some OrchestrationContractError
  | RunStoreError => Some RuntimeError
  | RunStoreConflictError | RunStoreCorruptionError => Some RunStoreError
  | RunStoreIdempotencyConflictError => Some RunStoreConflictError
  | ExecutionBackendError => Some RuntimeError
  | PhysicalPlanError | PhysicalPlanningError => Some ValueError
  | ExecutionProjectionError | ScheduleExpressionError => Some ValueError
  | InputSizeEstimationError => Some RuntimeError
  | ControlOperationError => Some RuntimeError
  | ControlOperationUnavailableError | ControlOperationDependencyError
  | ControlOperationNotFoundError | ControlOperationConflictError => Some ControlOperationError
  | ControlOperationIdempotencyConflictError => Some ControlOperationConflictError
  | GraphStoreError => Some RuntimeError
  | GraphStoreIdentifierError | GraphStoreDocumentError | GraphStoreNotFoundError
  | GraphStoreAlreadyExistsError | GraphStoreConflictError
  | GraphStoreIdempotencyConflictError | GraphStoreCorruptionError => Some GraphStoreError
  | GraphValidationError => Some Exception
  | DuplicateNodeIdError | DanglingEdgeError | SelfLoopError | GraphCycleError
  | DuplicateFieldNameError | UnknownFieldReferenceError | UnknownOperationFieldError =>
      Some GraphValidationError
  | JoinKeyFieldError => Some UnknownFieldReferenceError
  | TransformProjectError | GraphRepairError => Some ValueError
  | LeaseLostError | ScheduleQueueError | ControlAuthError | JWKSResolutionError => Some RuntimeError
  | ZoneInfoNotFoundError => Some KeyError
  | ExecutionPlanCompilationError | ControlRunCompositionError | StartupBindingError
  | ExecutionResultCollectionError | GraphBodyError => Some ValueError
  | GraphRevisionConflictError => Some ControlOperationConflictError
  | BadRequest => Some Exception
  | TargetFenceLostError | WatermarkConflictError => Some RuntimeError
  | CursorValueError | RawSchemaError => Some ValueError
  end.

(** The deepest chain above has five classes, so depth eight is never reached. *)
Fixpoint exn_subclass_at (depth : nat) (c d : exn_class) : bool :=
  bool_decide (c = d) ||
  match depth, exn_parent c with
  | S depth, Some p => exn_subclass_at depth p d
  | _, _ => false
  end.
Definition exn_subclass : exn_class -> exn_class -> bool := exn_subclass_at 8.

(** The class, the message and, for the errors whose constructor takes them, the
    attributes (identifiers only). *)
Record exn : Type := Exn { exn_cls : exn_class; exn_msg : string; exn_args : list string }.

#[export] Instance exn_eq_dec : EqDecision exn.
Proof. solve_decision. Defined.

(** [except C] catches [e]. *)
Definition catches (c : exn_class) (e : exn) : bool := exn_subclass (exn_cls e) c.

(** ** Results and the error monad *)

Inductive result (A : Type) : Type :=
  | Ok (a : A)
  | Raise (e : exn).
Arguments Ok {A} a.
Arguments Raise {A} e.

#[export] Instance result_eq_dec {A} `{EqDecision A} : EqDecision (result A).
Proof. solve_decision. Defined.

#[export] Instance result_ret : MRet result := fun _ a => Ok a.
#[export] Instance result_bind : MBind result := fun A B f m =>
  match m with Ok a => f a | Raise e => Raise e end.
#[export] Instance result_fmap : FMap result := fun A B f m =>
  match m with Ok a => Ok (f a) | Raise e => Raise e end.

Definition is_ok {A} (r : result A) : bool :=
  match r with Ok _ => true | Raise _ => false end.

Definition raise_ {A} (c : exn_class) (m : string) : result A := Raise (Exn c m []).

(** [if b: raise C(m)]. *)
Definition reject_if (b : bool) (c : exn_class) (m : string) : result unit :=
  if b then raise_ c m else Ok tt.

(** [for x in l: check(x)]. *)
Fixpoint for_each {A} (f : A -> result unit) (l : list A) : result unit :=
  match l with
  | [] => Ok tt
  | x :: l => _ ← f x; for_each f l
  end.

(** [value is not None] followed by a check on the value. *)
Definition when_some {A} (o : option A) (f : A -> result unit) : result unit :=
  match o with Some a => f a | None => Ok tt end.

(** ** Stateful computations: the state survives an exception, as it does in
    Python. *)

Definition M (W A : Type) : Type := W -> result A * W.

#[export] Instance M_ret {W} : MRet (M W) := fun _ a w => (Ok a, w).
#[export] Instance M_bind {W} : MBind (M W) := fun A B f m w =>
  match m w with
  | (Ok a, w') => f a w'
  | (Raise e, w') => (Raise e, w')
  end.

Definition lift {W A} (r : result A) : M W A := fun w => (r, w).
Definition raiseM {W A} (c : exn_class) (m : string) : M W A := lift (raise_ c m).
Definition get_state {W} : M W W := fun w => (Ok w, w).
Definition put_state {W} (w : W) : M W unit := fun _ => (Ok tt, w).
Definition modify_state {W} (f : W -> W) : M W unit := fun w => (Ok tt, f w).

(** [try: m except ...: h]; the handler re-raises what it does not catch. *)
Definition try_except {W A} (m : M W A) (h : exn -> M W A) : M W A := fun w =>
  match m w with
  | (Ok a, w') => (Ok a, w')
  | (Raise e, w') => h e w'
  end.

(** [except C as error: raise D(msg) from error], applied to a pure result. *)
Definition map_error {A} (c : exn_class) (to : exn_class) (m : string) (r : result A) : result A :=
  match r with
  | Ok a => Ok a
  | Raise e => if catches c e then Raise (Exn to m []) else Raise e
  end.

Lemma lift_bind {W A B} (r : result A) (f : A -> M W B) w :
  (lift r ≫= f) w = match r with Ok a => f a w | Raise e => (Raise e, w) end.
Proof. by destruct r. Qed.

Definition is_none {A} (o : option A) : bool := match o with None => true | Some _ => false end.
Definition is_some {A} (o : option A) : bool := match o with None => false | Some _ => true end.

(** Python's [a or b] on optional values whose [Some] is truthy. *)
Definition or_else {A} (o : option A) (d : A) : A := match o with Some a => a | None => d end.
Definition or_opt {A} (o p : option A) : option A := match o with Some a => Some a | None => p end.

(** ** Inversion lemmas and tactics *)

Lemma bind_ok {A B} (m : result A) (f : A -> result B) b :
  (m ≫= f) = Ok b <-> exists a, m = Ok a /\ f a = Ok b.
Proof.
  destruct m as [a|e]; cbn; split; [by exists a | by intros (? & [= <-] & ?) | done |].
  by intros (? & ? & ?).
Qed.

Lemma reject_if_ok b c m u : reject_if b c m = Ok u <-> b = false.
Proof. unfold reject_if, raise_. destruct b, u; split; congruence. Qed.

Lemma reject_if_raise b c m e : reject_if b c m = Raise e <-> b = true /\ e = Exn c m [].
Proof. unfold reject_if, raise_. destruct b; split; intros; naive_solver. Qed.

(** Checks in sequence, as an equivalence: the whole passes iff each part does. *)
Lemma seq_ok {A} (m : result unit) (k : unit -> result A) a :
  (m ≫= k) = Ok a <-> m = Ok tt /\ k tt = Ok a.
Proof. rewrite bind_ok. split; [intros ([] & ? & ?); auto | intros []; eauto]. Qed.

Lemma reject_if_tt b c m : reject_if b c m = Ok tt <-> b = false.
Proof. apply reject_if_ok. Qed.

Lemma negb_bool_decide_false (P : Prop) `{Decision P} : negb (bool_decide P) = false <-> P.
Proof. rewrite negb_false_iff. apply bool_decide_eq_true. Qed.

Lemma existsb_false {A} (f : A -> bool) l : existsb f l = false <-> Forall (fun x => f x = false) l.
Proof.
  induction l as [|x l IH]; cbn; [split; [constructor|done]|].
  by rewrite orb_false_iff, Forall_cons, IH.
Qed.

Lemma for_each_ok {A} (f : A -> result unit) l u :
  for_each f l = Ok u <-> Forall (fun x => f x = Ok tt) l.
Proof.
  destruct u; induction l as [|x l IH]; cbn; [done|].
  rewrite Forall_cons; destruct (f x) as [[]|]; cbn; naive_solver.
Qed.

Lemma when_some_ok {A} (o : option A) f u :
  when_some o f = Ok u <-> forall a, o = Some a -> f a = Ok tt.
Proof. destruct o, u; cbn; naive_solver. Qed.

(** [inv_ok] takes apart every hypothesis that says a checked computation
    returned: guards become [b = false], binds become their two halves. *)
Ltac inv_ok :=
  repeat match goal with
  | H : (_ ≫= _) = Ok _ |- _ =>
      apply bind_ok in H; let a := fresh "a" in let H1 := fresh "Hok" in
      let H2 := fresh "Hok" in destruct H as (a & H1 & H2); cbn beta in H2
  | H : reject_if _ _ _ = Ok _ |- _ => apply reject_if_ok in H
  | H : when_some _ _ = Ok _ |- _ => rewrite when_some_ok in H
  | H : Ok _ = Ok _ |- _ => injection H as H; try subst
  | H : mret _ = Ok _ |- _ => injection H as H; try subst
  | H : Raise _ = Ok _ |- _ => discriminate H
  | H : raise_ _ _ = Ok _ |- _ => discriminate H
  | H : (_ || _) = false |- _ => apply orb_false_iff in H; destruct H
  | H : (_ && _) = true |- _ => apply andb_true_iff in H; destruct H
  | H : negb _ = false |- _ => apply negb_false_iff in H
  | H : negb _ = true |- _ => apply negb_true_iff in H
  | u : unit |- _ => destruct u
  end.

(** Boolean tests to propositions. *)
Ltac to_prop :=
  repeat match goal with
  | H : bool_decide _ = true |- _ => apply bool_decide_eq_true in H
  | H : bool_decide _ = false |- _ => apply bool_decide_eq_false in H
  | H : (_ <? _)%Z = true |- _ => apply Z.ltb_lt in H
  | H : (_ <? _)%Z = false |- _ => apply Z.ltb_ge in H
  | H : (_ <=? _)%Z = true |- _ => apply Z.leb_le in H
  | H : (_ <=? _)%Z = false |- _ => apply Z.leb_gt in H
  | H : is_none ?o = true |- _ => destruct o eqn:?; [discriminate H|clear H]
  | H : is_none ?o = false |- _ => destruct o eqn:?; [clear H|discriminate H]
  | H : is_some ?o = false |- _ => destruct o eqn:?; [discriminate H|clear H]
  | H : is_some ?o = true |- _ => destruct o eqn:?; [clear H|discriminate H]
  end.

Create HintDb dander.

(** ** Which errors a computation can raise *)

Definition raises {A} (P : exn -> Prop) (r : result A) : Prop :=
  match r with Ok _ => True | Raise e => P e end.

(** [only c]: every error is caught by [except c]. *)
Abbreviation only c := (raises (fun e => catches c e = true)).

Lemma raises_bind {A B} P (m : result A) (f : A -> result B) :
  raises P m -> (forall a, m = Ok a -> raises P (f a)) -> raises P (m ≫= f).
Proof. destruct m as [a|e]; cbn; auto. Qed.

Lemma raises_impl {A} (P Q : exn -> Prop) (r : result A) :
  (forall e, P e -> Q e) -> raises P r -> raises Q r.
Proof. destruct r; cbn; auto. Qed.

Lemma only_reject b c d m : exn_subclass c d = true -> only d (reject_if b c m).
Proof. unfold reject_if, raise_. by destruct b. Qed.

Lemma only_raise {A} c d m : exn_subclass c d = true -> only d (raise_ (A := A) c m).
Proof. done. Qed.

Lemma raises_for_each {A} P (f : A -> result unit) l :
  (forall x, x ∈ l -> raises P (f x)) -> raises P (for_each f l).
Proof.
  induction l as [|x l IH]; cbn; [done|]. intros H. apply raises_bind; [apply H; left|].
  intros; apply IH. intros; apply H; by right.
Qed.

Lemma raises_when_some {A} P (o : option A) f :
  (forall x, o = Some x -> raises P (f x)) -> raises P (when_some o f).
Proof. destruct o; cbn; auto. Qed.

Lemma map_error_ok {A} c to m (r : result A) a : map_error c to m r = Ok a -> r = Ok a.
Proof. unfold map_error. destruct r as [x|e]; [done|]. by destruct (catches c e). Qed.

(** Every exception is an [Exception]. *)
Lemma catches_exception e : catches Exception e = true.
Proof. by destruct e as [[] m args]. Qed.

Lemma only_map_error {A} c to m (r : result A) :
  only c r -> exn_subclass to to = true -> only to (map_error c to m r).
Proof. destruct r as [a|e]; cbn; [done|]. by intros ->. Qed.

#[export] Hint Resolve only_reject only_raise raises_for_each raises_when_some : dander.
#[export] Hint Extern 1 (raises _ (Ok _)) => exact I : dander.
#[export] Hint Extern 1 (exn_subclass _ _ = true) => reflexivity : dander.

(** [only_tac] walks through a chain of checks. *)
Ltac only_step :=
  lazymatch goal with
  | |- raises _ (_ ≫= _) => apply raises_bind; [|intros ? ?]
  | |- raises _ (Ok _) => exact I
  | |- raises _ (reject_if _ _ _) => apply only_reject; reflexivity
  | |- raises _ (raise_ _ _) => apply only_raise; reflexivity
  | |- raises _ (for_each _ _) => apply raises_for_each; intros ? ?
  | |- raises _ (when_some _ _) => apply raises_when_some; intros ? ?
  end.
Ltac only_tac := repeat only_step.

(** ** Stable sorting, as [sorted(..., key=...)] does it *)

Section Sorting.
Context {A : Type} (leb : A -> A -> bool).

Fixpoint insert_sorted (x : A) (l : list A) : list A :=
  match l with
  | [] => [x]
  | y :: l' => if leb x y then x :: l else y :: insert_sorted x l'
  end.

Definition py_sorted (l : list A) : list A := foldr insert_sorted [] l.

(** [min(l, key=...)]: the first least element. *)
Fixpoint py_min (x : A) (l : list A) : A :=
  match l with
  | [] => x
  | y :: l => py_min (if leb x y then x else y) l
  end.

Lemma insert_sorted_perm x l : insert_sorted x l ≡ₚ x :: l.
Proof.
  induction l as [|y l IH]; cbn; [done|]. destruct (leb x y); [done|].
  rewrite IH. apply Permutation_swap.
Qed.

Lemma py_sorted_perm l : py_sorted l ≡ₚ l.
Proof. induction l as [|x l IH]; cbn; [done|]. by rewrite insert_sorted_perm, IH. Qed.

Context (leb_total : forall x y, leb x y = true \/ leb y x = true).
Context (leb_trans : forall x y z, leb x y = true -> leb y z = true -> leb x z = true).

Lemma py_min_in x l : py_min x l ∈ x :: l.
Proof.
  revert x; induction l as [|y l IH]; intros x; cbn; [set_solver|].
  specialize (IH (if leb x y then x else y)). destruct (leb x y); set_solver.
Qed.

Lemma py_min_le x l y : y ∈ x :: l -> leb (py_min x l) y = true.
Proof.
  revert x y; induction l as [|z l IH]; intros x y Hy; cbn.
  - apply list_elem_of_singleton in Hy as ->. destruct (leb_total x x); done.
  - destruct (leb x z) eqn:E.
    + apply elem_of_cons in Hy as [->|Hy]; [by apply IH; left|].
      apply elem_of_cons in Hy as [->|Hy]; [|by apply IH; right].
      eapply leb_trans; [apply IH; by left|done].
    + assert (leb z x = true) by (destruct (leb_total x z); congruence).
      apply elem_of_cons in Hy as [->|Hy]; [|by apply IH].
      eapply leb_trans; [apply IH; by left|done].
Qed.

(** [min] does not depend on the order when keys determine the items. *)
Lemma py_min_perm x l y k :
  x :: l ≡ₚ y :: k -> (forall a b, a ∈ x :: l -> b ∈ x :: l -> leb a b = true -> leb b a = true -> a = b) ->
  py_min x l = py_min y k.
Proof.
  intros Hp Ha. pose proof (py_min_in x l) as H1. pose proof (py_min_in y k) as H2. rewrite <- Hp in H2.
  apply Ha; [done..| |].
  - by apply py_min_le.
  - apply py_min_le. by rewrite <- Hp.
Qed.

Lemma insert_sorted_sorted x l :
  StronglySorted (fun a b => leb a b = true) l ->
  StronglySorted (fun a b => leb a b = true) (insert_sorted x l).
Proof.
  induction 1 as [|y l Hs IH Hy]; cbn; [repeat constructor|].
  destruct (leb x y) eqn:E.
  - constructor; [by constructor|]. constructor; [done|].
    eapply Forall_impl; [exact Hy|]. intros z; cbn; eauto.
  - constructor; [done|]. rewrite insert_sorted_perm. constructor; [|done].
    destruct (leb_total x y); congruence.
Qed.

Lemma py_sorted_sorted l : StronglySorted (fun a b => leb a b = true) (py_sorted l).
Proof. induction l; cbn; [constructor|]. by apply insert_sorted_sorted. Qed.

(** [tuple(sorted(l)) == l] holds exactly on sorted lists. *)
Lemma py_sorted_id l :
  StronglySorted (fun a b => leb a b = true) l -> py_sorted l = l.
Proof.
  induction 1 as [|x l Hs IH Hx]; [done|].
  change (insert_sorted x (py_sorted l) = x :: l). rewrite IH.
  destruct l as [|y l]; cbn; [done|]. apply Forall_cons in Hx as [-> _]. done.
Qed.
End Sorting.

(** [len(xs) != len(set(xs))]. *)
Fixpoint has_dup {A} `{EqDecision A} (l : list A) : bool :=
  match l with
  | [] => false
  | x :: l => bool_decide (x ∈ l) || has_dup l
  end.

Lemma has_dup_false {A} `{EqDecision A} (l : list A) : has_dup l = false <-> NoDup l.
Proof.
  induction l as [|x l IH]; cbn; [split; [constructor|done]|].
  rewrite orb_false_iff, bool_decide_eq_false, IH, NoDup_cons. done.
Qed.

Lemma forallb_Forall {A} (f : A -> bool) l : forallb f l = true <-> Forall (fun x => f x = true) l.
Proof. rewrite forallb_forall, Forall_forall. setoid_rewrite list_elem_of_In. done. Qed.

(** ** Filters that keep all or nothing *)

Lemma filter_forall_id {A} (P : A -> Prop) `{forall x, Decision (P x)} l : Forall P l -> filter P l = l.
Proof. induction 1 as [|x l Hx _ IH]; [done|]. rewrite filter_cons_True by done. by rewrite IH. Qed.

Lemma filter_forall_nil {A} (P : A -> Prop) `{forall x, Decision (P x)} l : Forall (fun x => ~ P x) l -> filter P l = [].
Proof. induction 1 as [|x l Hx _ IH]; [done|]. by rewrite filter_cons_False. Qed.
