(* ===== verification/Transactions.v ===== *)
(** * Transactions over a connection that may fail

    The durable state of a PostgreSQL adapter, the other clients that write to
    it, and the connection that may be lost before or after a commit. *)

From S2P Require Import Prelude.

Local Open Scope string_scope.
Local Open Scope list_scope.

(** Any error of the driver; the adapter maps it. *)
Definition driver_error : exn := Exn Exception "" [].

Section Transactions.
Context {D : Type}.

(** What happens to the next transaction; other clients may act first. *)
Inductive event : Type :=
  | Foreign (f : D -> D)               (* another client's transaction *)
  | Clear
  | Refused (e : exn)                  (* the server fails it: nothing is committed *)
  | LostAfter.                         (* the commit happens, its answer is lost *)

Record world : Type := World { wd_durable : D; wd_weather : list event }.

Inductive fate : Type := Fine | Undone (e : exn) | Unheard.

Fixpoint settle (d : D) (es : list event) : D * fate * list event :=
  match es with
  | [] => (d, Fine, [])
  | Foreign f :: es => settle (f d) es
  | Clear :: es => (d, Fine, es)
  | Refused e :: es => (d, Undone e, es)
  | LostAfter :: es => (d, Unheard, es)
  end.

Definition driver_reject (b : bool) : result unit := if b then Raise driver_error else Ok tt.

(** [with pool.connection() as connection, connection.transaction()]: the body
    commits when it returns and rolls back when it raises. *)
Definition transact {A} (body : D -> result (A * D)) : M world A := fun w =>
  let '(d, fate, es) := settle (wd_durable w) (wd_weather w) in
  match fate, body d with
  | Undone e, _ => (Raise e, World d es)
  | Fine, Ok (a, d') => (Ok a, World d' es)
  | Unheard, Ok (_, d') => (Raise driver_error, World d' es)
  | _, Raise e => (Raise e, World d es)
  end.
(** A transaction of several statements: it commits when the last one returns. *)
Definition atomically {A} (body : M D A) (d : D) : result (A * D) :=
  match body d with
  | (Ok a, d') => Ok (a, d')
  | (Raise e, _) => Raise e
  end.
Definition query {A} (body : D -> result A) : M world A :=
  transact (fun d => a ← body d; Ok (a, d)).
End Transactions.
Arguments event D : clear implicits.
Arguments world D : clear implicits.

(** The connection fails before the commit. *)
Abbreviation LostBefore := (Refused driver_error).
