(* ===== verification/Regex.v ===== *)
(** * Regular expressions

    The source validates every identifier with [re.compile(...).fullmatch].  A
    pattern is a value of [re]; [fullmatch] decides it by derivatives, and
    [fullmatch_spec] relates it to the language of the pattern. *)

From S2P Require Import Prelude.

Local Open Scope char_scope.

Inductive re : Type :=
  | Void                           (* matches nothing *)
  | Eps                            (* the empty string *)
  | Cls (f : ascii -> bool)        (* one character of a class *)
  | Cat (a b : re)
  | Alt (a b : re)
  | Star (a : re)
  | Upto (a : re) (n : nat).       (* a{0,n} *)

(** ** Meaning *)

Inductive matches : re -> list ascii -> Prop :=
  | matches_eps : matches Eps []
  | matches_cls f c : f c = true -> matches (Cls f) [c]
  | matches_cat a b s t : matches a s -> matches b t -> matches (Cat a b) (s ++ t)
  | matches_altl a b s : matches a s -> matches (Alt a b) s
  | matches_altr a b s : matches b s -> matches (Alt a b) s
  | matches_star_nil a : matches (Star a) []
  | matches_star_cons a s t : matches a s -> matches (Star a) t -> matches (Star a) (s ++ t)
  | matches_upto_nil a n : matches (Upto a n) []
  | matches_upto_cons a n s t : matches a s -> matches (Upto a n) t -> matches (Upto a (S n)) (s ++ t).

(** ** Decision by derivatives *)

Fixpoint nullable (r : re) : bool :=
  match r with
  | Void | Cls _ => false
  | Eps | Star _ | Upto _ _ => true
  | Cat a b => nullable a && nullable b
  | Alt a b => nullable a || nullable b
  end.

Definition cat (a b : re) : re :=
  match a with
  | Void => Void
  | Eps => b
  | _ => Cat a b
  end.

Definition alt (a b : re) : re :=
  match a, b with
  | Void, b => b
  | a, Void => a
  | a, b => Alt a b
  end.

Fixpoint deriv (c : ascii) (r : re) : re :=
  match r with
  | Void | Eps => Void
  | Cls f => if f c then Eps else Void
  | Cat a b => if nullable a then alt (cat (deriv c a) b) (deriv c b) else cat (deriv c a) b
  | Alt a b => alt (deriv c a) (deriv c b)
  | Star a => cat (deriv c a) (Star a)
  | Upto a 0 => Void
  | Upto a (S n) => cat (deriv c a) (Upto a n)
  end.

Fixpoint match_list (r : re) (s : list ascii) : bool :=
  match s with
  | [] => nullable r
  | c :: s => match_list (deriv c r) s
  end.

Definition fullmatch (r : re) (s : string) : bool := match_list r (String.list_ascii_of_string s).

(** ** Building patterns *)

Definition code (c : ascii) : N := N_of_ascii c.
Definition range (lo hi : ascii) (c : ascii) : bool := (code lo <=? code c)%N && (code c <=? code hi)%N.
Definition one_of (s : string) (c : ascii) : bool :=
  existsb (fun d => Ascii.eqb c d) (String.list_ascii_of_string s).
Definition either (f g : ascii -> bool) (c : ascii) : bool := f c || g c.

Definition lower : ascii -> bool := range "a" "z".
Definition upper : ascii -> bool := range "A" "Z".
Definition digit : ascii -> bool := range "0" "9".
Definition alnum : ascii -> bool := either digit (either lower upper).

Fixpoint lit_list (s : list ascii) : re :=
  match s with
  | [] => Eps
  | c :: s => Cat (Cls (Ascii.eqb c)) (lit_list s)
  end.
Definition lit (s : string) : re := lit_list (String.list_ascii_of_string s).

(** [a{n}], [a{n,m}], [a?], [a+]. *)
Fixpoint exactly (n : nat) (a : re) : re :=
  match n with
  | 0 => Eps
  | S n => Cat a (exactly n a)
  end.
Definition between (n m : nat) (a : re) : re := Cat (exactly n a) (Upto a (m - n)).
Definition opt (a : re) : re := Upto a 1.
Definition plus (a : re) : re := Cat a (Star a).

Definition all_chars (f : ascii -> bool) (s : list ascii) : bool := forallb f s.

(** ** Correctness of the decision *)

Lemma matches_cat_inv a b s : matches (Cat a b) s <-> exists t u, s = t ++ u /\ matches a t /\ matches b u.
Proof.
  split; [inversion 1; subst; eauto|].
  intros (t & u & -> & ? & ?). by constructor.
Qed.

Lemma matches_alt_inv a b s : matches (Alt a b) s <-> matches a s \/ matches b s.
Proof. split; [inversion 1; auto|intros [?|?]; [by apply matches_altl | by apply matches_altr]]. Qed.

Lemma matches_void s : ~ matches Void s.
Proof. inversion 1. Qed.

Lemma matches_eps_inv s : matches Eps s <-> s = [].
Proof. split; [by inversion 1 | intros ->; constructor]. Qed.

Lemma matches_cls_inv f s : matches (Cls f) s <-> exists c, s = [c] /\ f c = true.
Proof. split; [inversion 1; eauto | intros (c & -> & ?); by constructor]. Qed.

Lemma matches_cat_smart a b s : matches (cat a b) s <-> matches (Cat a b) s.
Proof.
  destruct a; cbn; try reflexivity; rewrite matches_cat_inv; split.
  - by intros ?%matches_void.
  - by intros (? & ? & _ & ?%matches_void & _).
  - intros H. exists [], s. by repeat constructor.
  - by intros (? & ? & -> & ->%matches_eps_inv & ?).
Qed.

Lemma matches_alt_smart a b s : matches (alt a b) s <-> matches (Alt a b) s.
Proof.
  pose proof (matches_void s).
  destruct a, b; cbn; rewrite ?matches_alt_inv; naive_solver.
Qed.

Lemma nullable_spec r : nullable r = true <-> matches r [].
Proof.
  induction r; cbn.
  - split; [done | intros ?%matches_void; done].
  - split; [constructor|done].
  - rewrite matches_cls_inv. naive_solver.
  - rewrite andb_true_iff, IHr1, IHr2, matches_cat_inv. split.
    + intros [??]. by exists [], [].
    + intros (t & u & E & ? & ?). symmetry in E. by apply app_nil in E as [-> ->].
  - by rewrite orb_true_iff, IHr1, IHr2, matches_alt_inv.
  - split; [constructor|done].
  - split; [constructor|done].
Qed.

(** Taking one non-empty iteration off the front of a repetition. *)
Lemma star_cons_inv a s :
  matches (Star a) s -> forall c s', s = c :: s' ->
  exists t u, s' = t ++ u /\ matches a (c :: t) /\ matches (Star a) u.
Proof.
  intros H. remember (Star a) as r eqn:Hr. induction H; try discriminate Hr; [done|].
  injection Hr as ->. intros c s' E. destruct s as [|d s]; cbn in E.
  - by apply IHmatches2.
  - injection E as -> <-. by exists s, t.
Qed.

Lemma matches_upto_inv a n s :
  matches (Upto a n) s <->
  s = [] \/ exists m t u, n = S m /\ s = t ++ u /\ matches a t /\ matches (Upto a m) u.
Proof.
  split.
  - inversion 1; subst; [by left | right; eauto 10].
  - intros [-> | (m & t & u & -> & -> & ? & ?)]; by constructor.
Qed.

Lemma upto_weaken a n s : matches (Upto a n) s -> matches (Upto a (S n)) s.
Proof.
  revert s; induction n as [|n IH]; intros s;
    rewrite matches_upto_inv; intros [-> | (m & t & u & E & -> & ? & ?)]; try constructor; try done.
  injection E as <-. auto.
Qed.

Lemma upto_cons_inv a n c s :
  matches (Upto a (S n)) (c :: s) ->
  exists t u, s = t ++ u /\ matches a (c :: t) /\ matches (Upto a n) u.
Proof.
  revert c s; induction n as [|n IH]; intros c s;
    rewrite matches_upto_inv; intros [? | (m & t & u & E & Es & Ht & Hu)]; try done;
    injection E as <-; destruct t as [|d t]; cbn in Es.
  - subst. apply matches_upto_inv in Hu as [? | (? & ? & ? & ? & _)]; done.
  - injection Es as -> ->. by exists t, u.
  - subst. apply IH in Hu as (t & u & -> & ? & ?). exists t, u. auto using upto_weaken.
  - injection Es as -> ->. by exists t, u.
Qed.

Lemma deriv_spec c r s : matches (deriv c r) s <-> matches r (c :: s).
Proof.
  revert s; induction r as [| |f|a IHa b IHb|a IHa b IHb|a IHa|a IHa n]; intros s; cbn.
  - split; intros H; by inversion H.
  - split; intros H; by inversion H.
  - rewrite matches_cls_inv. destruct (f c) eqn:E.
    + rewrite matches_eps_inv. split; [intros ->; by exists c | by intros (d & [= <- ->] & _)].
    + split; [by intros ?%matches_void | intros (d & [= <- ->] & ?); congruence].
  - assert (matches (cat (deriv c a) b) s <->
            exists t u, s = t ++ u /\ matches a (c :: t) /\ matches b u) as Hc.
    { rewrite matches_cat_smart, matches_cat_inv. by setoid_rewrite IHa. }
    rewrite matches_cat_inv. destruct (nullable a) eqn:Hn.
    + rewrite matches_alt_smart, matches_alt_inv, Hc, IHb. apply nullable_spec in Hn. split.
      * intros [(t & u & -> & ? & ?)|?]; [by exists (c :: t), u | by exists [], (c :: s)].
      * intros ([|d t] & u & E & ? & ?); cbn in E; subst; [by right|].
        injection E as -> ->. left. by exists t, u.
    + rewrite Hc. split.
      * intros (t & u & -> & ? & ?). by exists (c :: t), u.
      * intros ([|d t] & u & E & Ha & ?); [by apply nullable_spec in Ha; congruence|].
        injection E as -> ->. by exists t, u.
  - by rewrite matches_alt_smart, !matches_alt_inv, IHa, IHb.
  - rewrite matches_cat_smart, matches_cat_inv. setoid_rewrite IHa. split.
    + intros (t & u & -> & ? & ?). by apply (matches_star_cons a (c :: t) u).
    + intros H. by eapply star_cons_inv.
  - destruct n as [|n]; [split; intros H; inversion H|].
    rewrite matches_cat_smart, matches_cat_inv. setoid_rewrite IHa. split.
    + intros (t & u & -> & ? & ?). by apply (matches_upto_cons a n (c :: t) u).
    + apply upto_cons_inv.
Qed.

Lemma match_list_spec r s : match_list r s = true <-> matches r s.
Proof.
  revert r; induction s as [|c s IH]; intros r; cbn; [apply nullable_spec|].
  by rewrite IH, deriv_spec.
Qed.

Lemma fullmatch_spec r s : fullmatch r s = true <-> matches r (String.list_ascii_of_string s).
Proof. apply match_list_spec. Qed.

(** ** The shapes the patterns of the source use *)

Lemma matches_upto_cls f n s :
  matches (Upto (Cls f) n) s <-> length s <= n /\ all_chars f s = true.
Proof.
  revert s; induction n as [|n IH]; intros s.
  - split; [inversion 1; subst; cbn; auto|]. intros [Hl _]. destruct s; [constructor|cbn in Hl; lia].
  - split.
    + rewrite matches_upto_inv. intros [-> | (m & t & u & [= <-] & -> & Ht & Hu)]; cbn; [split; [lia|done]|].
      apply matches_cls_inv in Ht as (c & -> & Hc). apply IH in Hu as [? Hf]. cbn. unfold all_chars in Hf. rewrite Hc, Hf. split; [lia|done].
    + intros [Hl Hf]. destruct s as [|c s]; [constructor|]. cbn in *.
      apply andb_true_iff in Hf as [Hc Hf]. apply (matches_upto_cons _ n [c] s); [by constructor|].
      apply IH; split; [lia|done].
Qed.

Lemma matches_exactly_cls f n s :
  matches (exactly n (Cls f)) s <-> length s = n /\ all_chars f s = true.
Proof.
  revert s; induction n as [|n IH]; intros s; cbn.
  - rewrite matches_eps_inv. destruct s; cbn; naive_solver.
  - rewrite matches_cat_inv. split.
    + intros (t & u & -> & Ht & Hu). apply matches_cls_inv in Ht as (c & -> & Hc).
      apply IH in Hu as [<- Hf]. cbn. unfold all_chars in Hf. by rewrite Hc, Hf.
    + destruct s as [|c s]; cbn; [lia|]. intros [[= <-] Hf]. apply andb_true_iff in Hf as [Hc Hf].
      exists [c], s. repeat split; [by constructor|]. by apply IH.
Qed.

(** [^[h][t]{n,m}$]: one head character, then a bounded tail. *)
Definition head_tail (h t : ascii -> bool) (n m : nat) : re := Cat (Cls h) (between n m (Cls t)).

Lemma all_chars_app f s t : all_chars f (s ++ t) = all_chars f s && all_chars f t.
Proof. apply forallb_app. Qed.

Lemma matches_between_cls f n m s :
  n <= m -> matches (between n m (Cls f)) s <-> n <= length s <= m /\ all_chars f s = true.
Proof.
  intros Hnm. unfold between. rewrite matches_cat_inv.
  setoid_rewrite matches_exactly_cls. setoid_rewrite matches_upto_cls. split.
  - intros (t & u & -> & [? Ht] & [? Hu]). rewrite length_app, all_chars_app, Ht, Hu. split; [lia|done].
  - intros [? Hf]. exists (take n s), (drop n s). rewrite take_drop.
    rewrite <- (take_drop n s), all_chars_app in Hf. apply andb_true_iff in Hf as [??].
    repeat split; auto; [apply length_take_le|rewrite length_drop]; lia.
Qed.

Lemma fullmatch_head_tail h t n m s :
  n <= m ->
  fullmatch (head_tail h t n m) s = true <->
  exists c l, String.list_ascii_of_string s = c :: l /\ h c = true /\ n <= length l <= m /\ all_chars t l = true.
Proof.
  intros Hnm. rewrite fullmatch_spec. unfold head_tail. rewrite matches_cat_inv.
  setoid_rewrite matches_between_cls; [|done]. setoid_rewrite matches_cls_inv. split.
  - intros (a & b & E & (c & -> & Hc) & ?). by exists c, b.
  - intros (c & l & -> & Hc & ?). exists [c], l. naive_solver.
Qed.
