(* ===== verification/PyStr.v ===== *)
(** * Python strings and integers in text

    A [str] is modelled by [string], the code points U+0000 to U+00FF; every
    grammar of the modelled files is ASCII.  The functions below are the [str]
    and [int] methods the source calls, on that range. *)

From S2P Require Import Prelude Regex.

Abbreviation chars := String.list_ascii_of_string.
Abbreviation of_chars := String.string_of_list_ascii.

Local Open Scope string_scope.
Local Open Scope Z_scope.

Lemma chars_of_chars l : chars (of_chars l) = l.
Proof. apply String.list_ascii_of_string_of_list_ascii. Qed.
Lemma of_chars_chars s : of_chars (chars s) = s.
Proof. apply String.string_of_list_ascii_of_string. Qed.
Lemma chars_inj s t : chars s = chars t -> s = t.
Proof. intros H. by rewrite <- (of_chars_chars s), H, of_chars_chars. Qed.
Lemma chars_app s t : chars (s +:+ t) = (chars s ++ chars t)%list.
Proof. induction s as [|c s IH]; [done|]. cbn [chars app]. by rewrite <- IH. Qed.
Lemma length_chars s : length (chars s) = String.length s.
Proof. induction s as [|c s IH]; cbn; [done|by rewrite IH]. Qed.

(** [len(s)]. *)
Definition py_len (s : string) : Z := Z.of_nat (String.length s).

(** [c.isspace()]. *)
Definition is_space (c : ascii) : bool :=
  let n := code c in
  ((9 <=? n) && (n <=? 13) || (28 <=? n) && (n <=? 32) || (n =? 133) || (n =? 160))%N.

Fixpoint lstrip (l : list ascii) : list ascii :=
  match l with
  | [] => []
  | c :: l' => if is_space c then lstrip l' else l
  end.
Definition strip_chars (l : list ascii) : list ascii := rev (lstrip (rev (lstrip l))).

(** [s.strip()], and the test [not s.strip()]. *)
Definition strip (s : string) : string := of_chars (strip_chars (chars s)).
Definition blank (s : string) : bool := forallb is_space (chars s).

Definition newline : ascii := "010"%char.
Definition has_char (c : ascii) (s : string) : bool := existsb (Ascii.eqb c) (chars s).
Definition empty (s : string) : bool := match s with EmptyString => true | _ => false end.

(** [s.startswith(p)]. *)
Definition startswith (p s : string) : bool := String.prefix p s.

(** [s.split(c)] for a one-character separator: never empty. *)
Fixpoint split_chars (c : ascii) (l : list ascii) : list (list ascii) :=
  match l with
  | [] => [[]]
  | d :: l =>
      match split_chars c l with
      | [] => [[d]]
      | p :: ps => if Ascii.eqb c d then [] :: p :: ps else (d :: p) :: ps
      end
  end.
Definition split_on (c : ascii) (s : string) : list string := of_chars <$> split_chars c (chars s).

(** [sep.join(parts)]. *)
Fixpoint join (sep : string) (parts : list string) : string :=
  match parts with
  | [] => ""
  | [p] => p
  | p :: ps => p +:+ sep +:+ join sep ps
  end.

(** [s.casefold()] on U+0000..U+00FF; the micro sign, whose folding is outside
    that range, is left alone. *)
Definition casefold_char (c : ascii) : list ascii :=
  let n := code c in
  if ((65 <=? n) && (n <=? 90) || (192 <=? n) && (n <=? 222) && negb (n =? 215))%N
  then [ascii_of_N (n + 32)]
  else if (n =? 223)%N then ["s"; "s"]%char else [c].
Definition casefold (s : string) : string := of_chars (chars s ≫= casefold_char).

(** [s.lower()] on the same range. *)
Definition lower_char (c : ascii) : ascii :=
  let n := code c in
  if ((65 <=? n) && (n <=? 90) || (192 <=? n) && (n <=? 222) && negb (n =? 215))%N then ascii_of_N (n + 32) else c.
Definition to_lower (s : string) : string := of_chars (map lower_char (chars s)).

(** [s.split()]: the words between runs of white space. *)
Fixpoint words_of (cs word : list ascii) : list (list ascii) :=
  match cs with
  | [] => match word with [] => [] | _ => [rev word] end
  | c :: cs =>
      if is_space c
      then match word with [] => words_of cs [] | _ => rev word :: words_of cs [] end
      else words_of cs (c :: word)
  end.
Definition split_words (s : string) : list string := map of_chars (words_of (chars s) []).

(** [s.upper()] on the same range; U+00B5 and U+00FF, whose upper case is outside
    it and is the upper case of no other character of it, are left alone. *)
Definition upper_char (c : ascii) : list ascii :=
  let n := code c in
  if ((97 <=? n) && (n <=? 122) || (224 <=? n) && (n <=? 254) && negb (n =? 247))%N
  then [ascii_of_N (n - 32)]
  else if (n =? 223)%N then ["S"; "S"]%char else [c].
Definition to_upper (s : string) : string := of_chars (chars s ≫= upper_char).

(** The text after a literal, when the input starts with it. *)
Fixpoint after (p l : list ascii) : option (list ascii) :=
  match p, l with
  | [], _ => Some l
  | c :: p, d :: l => if Ascii.eqb c d then after p l else None
  | _, [] => None
  end.

(** [s.replace(p, r)] for a non-empty [p]: every occurrence, from the left. *)
Fixpoint replace_chars (p r : list ascii) (skip : nat) (l : list ascii) : list ascii :=
  match l, skip with
  | [], _ => []
  | _ :: l, S skip => replace_chars p r skip l
  | c :: l', O =>
      match after p l with
      | Some _ => (r ++ replace_chars p r (length p - 1) l')%list
      | None => c :: replace_chars p r 0 l'
      end
  end.
Definition py_replace (p r s : string) : string := of_chars (replace_chars (chars p) (chars r) 0 (chars s)).

(** [p in s]. *)
Fixpoint contains_chars (p l : list ascii) : bool :=
  is_some (after p l) || match l with [] => false | _ :: l => contains_chars p l end.
Definition contains (p s : string) : bool := contains_chars (chars p) (chars s).

Definition hex_char (n : N) : ascii := ascii_of_N (if (n <? 10)%N then n + 48 else n + 87).
(** [repr(s)]: in single quotes unless only those occur in the text. *)
Definition repr_char (quote c : ascii) : list ascii :=
  let n := code c in
  if Ascii.eqb c quote || (n =? 92)%N then ["\"%char; c]
  else if (n =? 10)%N then chars "\n" else if (n =? 13)%N then chars "\r" else if (n =? 9)%N then chars "\t"
  else if ((n <? 32) || (127 <=? n) && (n <=? 160) || (n =? 173))%N
  then chars "\x" ++ [hex_char (n / 16)%N; hex_char (n mod 16)%N] else [c].
Definition py_repr (s : string) : string :=
  let cs := chars s in
  let quote := if existsb (Ascii.eqb "'") cs && negb (existsb (Ascii.eqb (ascii_of_N 34)) cs) then ascii_of_N 34 else "'"%char in
  of_chars (quote :: (cs ≫= repr_char quote) ++ [quote]).

(** ** Decimal text *)

Definition digit_char (d : Z) : ascii := ascii_of_N (Z.to_N (48 + d)).
Definition digit_value (c : ascii) : Z := Z.of_N (code c) - 48.

Fixpoint dec_digits (fuel : nat) (n : Z) : list Z :=
  match fuel with
  | O => []
  | S fuel => if n <? 10 then [n] else (dec_digits fuel (n / 10) ++ [n mod 10])%list
  end.

Definition dec_chars (n : Z) : list ascii :=
  digit_char <$> dec_digits (S (Z.to_nat (Z.log2 n))) n.

(** [str(n)]. *)
Definition py_str (n : Z) : string :=
  of_chars (if n <? 0 then "-"%char :: dec_chars (- n) else dec_chars n).

Definition digits_value (ds : list Z) : Z := fold_left (fun a d => a * 10 + d) ds 0.

(** The digits of an integer literal: single underscores may separate digits. *)
Fixpoint int_digits (after_digit : bool) (l : list ascii) : option (list Z) :=
  match l with
  | [] => if after_digit then Some [] else None
  | c :: l =>
      if digit c then ds ← int_digits true l; Some (digit_value c :: ds)
      else if Ascii.eqb c "_" && after_digit then int_digits false l
      else None
  end.

(** CPython's bound on the digits of a decimal literal. *)
Definition max_str_digits : nat := 4300.

Lemma max_str_digits_value : Z.of_nat max_str_digits = 4300.
Proof. reflexivity. Qed.

(** Numbers below [2 ^ 4000] have fewer digits than that. *)
Lemma few_digits n : 0 <= n < 2 ^ 4000 -> (S (Z.to_nat (Z.log2 n)) <= max_str_digits)%nat.
Proof.
  intros [Hn Hb]. pose proof max_str_digits_value as Hmax.
  assert (Z.log2 n < 4000) as Hl.
  { destruct (Z.eq_dec n 0) as [->|Hne]; [reflexivity|]. apply Z.log2_lt_pow2; [clear Hb Hmax; lia|exact Hb]. }
  clear Hb. pose proof (Z.log2_nonneg n). lia.
Qed.

Definition int_body (l : list ascii) : option Z :=
  ds ← int_digits false l;
  if (max_str_digits <? length ds)%nat then None else Some (digits_value ds).

(** [int(s)]: [None] is the [ValueError]. *)
Definition py_int (s : string) : option Z :=
  match strip_chars (chars s) with
  | ("+" :: l)%char => int_body l
  | ("-" :: l)%char => n ← int_body l; Some (- n)
  | l => int_body l
  end.

(** ** Orders *)

Fixpoint chars_leb (l m : list ascii) : bool :=
  match l, m with
  | [], _ => true
  | _, [] => false
  | a :: l, b :: m => (code a <? code b)%N || ((code a =? code b)%N && chars_leb l m)
  end.

(** [s <= t]: by code points. *)
Definition str_leb (s t : string) : bool := chars_leb (chars s) (chars t).

(** Total preorders given by a boolean test; sort keys are built from them. *)
Class TotalLeb {A} (leb : A -> A -> bool) : Prop := {
  leb_total x y : leb x y = true \/ leb y x = true;
  leb_trans x y z : leb x y = true -> leb y z = true -> leb x z = true;
}.

(** Keys that are tuples compare lexicographically. *)
Definition lex_leb {A B} (la : A -> A -> bool) (lb : B -> B -> bool) (p q : A * B) : bool :=
  la p.1 q.1 && (negb (la q.1 p.1) || lb p.2 q.2).
Definition key_leb {A K} (key : A -> K) (lk : K -> K -> bool) (x y : A) : bool := lk (key x) (key y).
Definition bool_leb (a b : bool) : bool := negb a || b.

Lemma chars_leb_total l m : chars_leb l m = true \/ chars_leb m l = true.
Proof.
  revert m; induction l as [|a l IH]; intros [|b m]; cbn; auto.
  specialize (IH m). rewrite !orb_true_iff, !andb_true_iff, !N.ltb_lt, !N.eqb_eq.
  destruct (N.lt_trichotomy (code a) (code b)) as [?|[?|?]]; naive_solver.
Qed.

Lemma chars_leb_trans l m n : chars_leb l m = true -> chars_leb m n = true -> chars_leb l n = true.
Proof.
  revert m n; induction l as [|a l IH]; intros [|b m] [|c n]; cbn; try done.
  rewrite !orb_true_iff, !andb_true_iff, !N.ltb_lt, !N.eqb_eq.
  intros [?|[? H1]] [?|[? H2]]; [left; lia|left; lia|left; lia|right; split; [lia|eauto]].
Qed.

Lemma code_inj a b : code a = code b -> a = b.
Proof.
  intros H. rewrite <- (ascii_N_embedding a), <- (ascii_N_embedding b). unfold code in H. by rewrite H.
Qed.

Lemma chars_leb_antisym l m : chars_leb l m = true -> chars_leb m l = true -> l = m.
Proof.
  revert m; induction l as [|a l IH]; intros [|b m]; cbn; try done.
  rewrite !orb_true_iff, !andb_true_iff, !N.ltb_lt, !N.eqb_eq.
  intros [?|[? H1]] [?|[? H2]]; try lia. f_equal; [by apply code_inj|auto].
Qed.

#[export] Instance str_leb_total : TotalLeb str_leb.
Proof. split; unfold str_leb; intros; [apply chars_leb_total|by eapply chars_leb_trans]. Qed.

Lemma str_leb_antisym s t : str_leb s t = true -> str_leb t s = true -> s = t.
Proof. intros. by apply chars_inj, chars_leb_antisym. Qed.

#[export] Instance Z_leb_total : TotalLeb Z.leb.
Proof. split; intros *; rewrite ?Z.leb_le; lia. Qed.

#[export] Instance bool_leb_total : TotalLeb bool_leb.
Proof. split; [intros [] []; auto | intros [] [] []; auto]. Qed.

#[export] Instance lex_leb_total {A B} la lb `{!@TotalLeb A la, !@TotalLeb B lb} : TotalLeb (lex_leb la lb).
Proof.
  unfold lex_leb. split.
  - intros [a b] [a' b']; cbn. pose proof (leb_total a a'). pose proof (leb_total b b').
    destruct (la a a'), (la a' a), (lb b b'), (lb b' b); naive_solver.
  - intros [a b] [a' b'] [a'' b'']; cbn. rewrite !andb_true_iff, !orb_true_iff, !negb_true_iff.
    intros [Ha Hb] [Ha' Hb']. split; [by eapply leb_trans|].
    destruct (la a'' a) eqn:E; [right|by left].
    assert (la a'' a' = true) by (by eapply leb_trans).
    assert (la a' a = true) by (by eapply leb_trans).
    destruct Hb as [?|Hb], Hb' as [?|Hb']; try congruence. by eapply leb_trans.
Qed.

#[export] Instance key_leb_total {A K} (key : A -> K) lk `{!TotalLeb lk} : TotalLeb (key_leb key lk).
Proof. split; unfold key_leb; intros; [apply leb_total|by eapply leb_trans]. Qed.

(** [tuple(sorted(set(l))) == l]: strictly increasing. *)
Definition canonical_strings (l : list string) : bool :=
  bool_decide (py_sorted str_leb l = l) && negb (has_dup l).

(** ** Lemmas on text *)

Lemma split_chars_nonempty c l : split_chars c l <> [].
Proof. destruct l; cbn; [done|]. destruct (split_chars c l); [done|]. by destruct (Ascii.eqb c a). Qed.

Lemma split_chars_none c l : existsb (Ascii.eqb c) l = false -> split_chars c l = [l].
Proof.
  induction l as [|d l IH]; cbn; [done|]. intros [Hd Hl]%orb_false_iff. by rewrite (IH Hl), Hd.
Qed.

Lemma split_chars_app c l m :
  existsb (Ascii.eqb c) l = false -> split_chars c (l ++ c :: m) = l :: split_chars c m.
Proof.
  induction l as [|d l IH]; cbn; intros H.
  - pose proof (split_chars_nonempty c m). destruct (split_chars c m); [done|]. by rewrite Ascii.eqb_refl.
  - apply orb_false_iff in H as [Hd Hl]. by rewrite (IH Hl), Hd.
Qed.

Lemma split_on_join c ps :
  ps <> [] -> Forall (fun p => has_char c p = false) ps ->
  split_on c (join (String c EmptyString) ps) = ps.
Proof.
  intros Hne H. unfold split_on. induction H as [|p ps Hp H IH]; [done|].
  destruct ps as [|q ps]; cbn [join].
  - rewrite split_chars_none by done. cbn. by rewrite of_chars_chars.
  - rewrite chars_app, chars_app. change (chars (String c "")) with [c]. cbn [app].
    rewrite split_chars_app by done. cbn [fmap list_fmap]. rewrite of_chars_chars. f_equal. by apply IH.
Qed.

Lemma digit_char_spec d :
  0 <= d <= 9 -> digit (digit_char d) = true /\ digit_value (digit_char d) = d.
Proof.
  intros H. assert (d = 0 \/ d = 1 \/ d = 2 \/ d = 3 \/ d = 4 \/ d = 5 \/ d = 6 \/ d = 7 \/ d = 8 \/ d = 9) by lia.
  naive_solver.
Qed.

Lemma dec_digits_spec fuel n :
  0 <= n < 2 ^ Z.of_nat fuel -> 
  Forall (fun d => 0 <= d <= 9) (dec_digits fuel n) /\ digits_value (dec_digits fuel n) = n /\
  (length (dec_digits fuel n) <= fuel)%nat.
Proof.
  revert n; induction fuel as [|fuel IH]; intros n Hn; cbn [dec_digits].
  - cbn in *. change (2 ^ 0) with 1 in Hn. split; [constructor|]. split; [cbn; lia|done].
  - destruct (Z.ltb_spec n 10).
    + split_and!; [constructor; [lia|constructor]|cbn; lia|cbn; lia].
    + assert (0 <= n / 10 < 2 ^ Z.of_nat fuel) as Hq.
      { rewrite Nat2Z.inj_succ, Z.pow_succ_r in Hn by lia. split; [apply Z.div_pos; lia|].
        apply Z.div_lt_upper_bound; lia. }
      destruct (IH _ Hq) as (Hd & Hv & Hl). pose proof (Z.mod_pos_bound n 10). split_and!.
      * apply Forall_app. split; [done|]. constructor; [lia|constructor].
      * unfold digits_value in *. rewrite fold_left_app, Hv. cbn. pose proof (Z.div_mod n 10). lia.
      * rewrite length_app. cbn. lia.
Qed.

Lemma dec_digits_nonempty fuel n : dec_digits (S fuel) n <> [].
Proof. cbn. destruct (n <? 10); [done|]. by destruct (dec_digits fuel (n / 10)). Qed.

Lemma log2_fuel n : 0 <= n -> n < 2 ^ Z.of_nat (S (Z.to_nat (Z.log2 n))).
Proof.
  intros H. rewrite Nat2Z.inj_succ, Z2Nat.id by apply Z.log2_nonneg.
  destruct (decide (n = 0)) as [->|]; [done|]. apply Z.log2_spec. lia.
Qed.

Lemma int_digits_all ds b :
  Forall (fun d => 0 <= d <= 9) ds -> (ds <> [] \/ b = true) ->
  int_digits b (digit_char <$> ds) = Some ds.
Proof.
  intros H; revert b; induction H as [|d ds Hd H IH]; intros b Hb; cbn.
  - destruct Hb as [?| ->]; done.
  - destruct (digit_char_spec d Hd) as [-> ->]. rewrite IH by auto. done.
Qed.

Lemma dec_chars_digits n :
  0 <= n -> exists d ds, dec_chars n = digit_char <$> (d :: ds) /\
  Forall (fun d => 0 <= d <= 9) (d :: ds) /\ digits_value (d :: ds) = n /\
  (length (d :: ds) <= S (Z.to_nat (Z.log2 n)))%nat.
Proof.
  intros H. unfold dec_chars.
  destruct (dec_digits_spec _ n (conj H (log2_fuel n H))) as (Hd & Hv & Hl).
  destruct (dec_digits (S (Z.to_nat (Z.log2 n))) n) as [|d ds] eqn:E.
  - by apply dec_digits_nonempty in E.
  - exists d, ds. auto.
Qed.

Lemma digit_not_space d : 0 <= d <= 9 -> is_space (digit_char d) = false.
Proof.
  intros H. assert (d = 0 \/ d = 1 \/ d = 2 \/ d = 3 \/ d = 4 \/ d = 5 \/ d = 6 \/ d = 7 \/ d = 8 \/ d = 9) by lia.
  naive_solver.
Qed.

Lemma lstrip_no_space l : Forall (fun c => is_space c = false) l -> lstrip l = l.
Proof. destruct 1 as [|c l Hc]; cbn; [done|by rewrite Hc]. Qed.

Lemma strip_no_space l : Forall (fun c => is_space c = false) l -> strip_chars l = l.
Proof.
  intros H. unfold strip_chars. rewrite (lstrip_no_space l) by done.
  rewrite lstrip_no_space by by apply Forall_rev. apply rev_involutive.
Qed.

(** [int(str(n)) == n] for the magnitudes the source bounds. *)
Lemma py_int_str n : 0 <= n < 2 ^ 4000 -> py_int (py_str n) = Some n.
Proof.
  intros [Hn Hb]. unfold py_str. destruct (Z.ltb_spec n 0); [lia|].
  unfold py_int. rewrite chars_of_chars.
  destruct (dec_chars_digits n Hn) as (d & ds & E & Hd & Hv & Hl). rewrite E.
  rewrite strip_no_space by (apply Forall_fmap; eapply Forall_impl; [exact Hd|]; intros; by apply digit_not_space).
  assert (int_body (digit_char <$> d :: ds) = Some n) as Hi.
  { unfold int_body. rewrite int_digits_all by auto. cbn [mbind option_bind].
    pose proof (few_digits n (conj Hn Hb)) as Hfew.
    destruct (Nat.ltb_spec max_str_digits (length (d :: ds))) as [Hlt|]; [|by rewrite Hv].
    exfalso. clear - Hlt Hl Hfew. lia. }
  inversion Hd as [|? ? Hd0 _]; subst. destruct (digit_char_spec d Hd0) as [Hdig _].
  cbn [fmap list_fmap] in *. generalize dependent (digit_char d). intros c _ Hi Hdig.
  destruct c as [[] [] [] [] [] [] [] []]; first [exact Hi | discriminate Hdig].
Qed.

(** The characters of a decimal text are digits. *)
Lemma py_str_digits n : 0 <= n -> Forall (fun c => digit c = true) (chars (py_str n)).
Proof.
  intros Hn. unfold py_str. destruct (Z.ltb_spec n 0); [lia|]. rewrite chars_of_chars.
  destruct (dec_chars_digits n Hn) as (d & ds & -> & Hd & _).
  apply Forall_fmap. eapply Forall_impl; [exact Hd|]. intros x Hx. by apply digit_char_spec.
Qed.

Lemma py_str_inj n m : 0 <= n < 2 ^ 4000 -> 0 <= m < 2 ^ 4000 -> py_str n = py_str m -> n = m.
Proof. intros Hn Hm E. apply py_int_str in Hn, Hm. congruence. Qed.

Lemma after_length p l r : after p l = Some r -> length l = (length p + length r)%nat.
Proof.
  revert l; induction p as [|c p IH]; intros l; cbn; [by intros [= ->]|].
  destruct l as [|d l]; [done|]. destruct (Ascii.eqb c d); [|done]. intros H%IH. cbn. lia.
Qed.

(** A prefix without the first character of the pattern is copied. *)
Lemma replace_chars_skip c p r l m :
  Forall (fun d => d <> c) l ->
  replace_chars (c :: p) r 0 (l ++ m)%list = (l ++ replace_chars (c :: p) r 0 m)%list.
Proof.
  induction 1 as [|d l Hd _ IH]; [done|]. cbn [app replace_chars after].
  destruct (Ascii.eqb_spec c d) as [->|]; [done|]. by rewrite IH.
Qed.
