(* ===== verification/Sha256.v ===== *)
(** * SHA-256

    The identities of plans, submissions, runs and attempts are SHA-256 hex
    digests ([hashlib.sha256(...).hexdigest()]).  This is the standard's
    algorithm on lists of bytes, executable; the development relies only on the
    shape of its output ([sha256_hex_shape]). *)

From S2P Require Import Prelude Regex PyStr.

Local Open Scope string_scope.
Local Open Scope Z_scope.

Definition mask32 : Z := 0xffffffff.
Definition add32 (a b : Z) : Z := Z.land (a + b) mask32.
Definition rotr (n x : Z) : Z := Z.lor (Z.shiftr x n) (Z.land (Z.shiftl x (32 - n)) mask32).
Definition not32 (x : Z) : Z := Z.lxor x mask32.

Definition ch (x y z : Z) : Z := Z.lxor (Z.land x y) (Z.land (not32 x) z).
Definition maj (x y z : Z) : Z := Z.lxor (Z.lxor (Z.land x y) (Z.land x z)) (Z.land y z).
Definition bsig0 (x : Z) : Z := Z.lxor (Z.lxor (rotr 2 x) (rotr 13 x)) (rotr 22 x).
Definition bsig1 (x : Z) : Z := Z.lxor (Z.lxor (rotr 6 x) (rotr 11 x)) (rotr 25 x).
Definition ssig0 (x : Z) : Z := Z.lxor (Z.lxor (rotr 7 x) (rotr 18 x)) (Z.shiftr x 3).
Definition ssig1 (x : Z) : Z := Z.lxor (Z.lxor (rotr 17 x) (rotr 19 x)) (Z.shiftr x 10).

(** Decimal, in the order of the standard. *)
Definition round_constants : list Z :=
  [
   1116352408; 1899447441; 3049323471; 3921009573; 961987163; 1508970993; 2453635748; 2870763221;
   3624381080; 310598401; 607225278; 1426881987; 1925078388; 2162078206; 2614888103; 3248222580;
   3835390401; 4022224774; 264347078; 604807628; 770255983; 1249150122; 1555081692; 1996064986;
   2554220882; 2821834349; 2952996808; 3210313671; 3336571891; 3584528711; 113926993; 338241895;
   666307205; 773529912; 1294757372; 1396182291; 1695183700; 1986661051; 2177026350; 2456956037;
   2730485921; 2820302411; 3259730800; 3345764771; 3516065817; 3600352804; 4094571909; 275423344;
   430227734; 506948616; 659060556; 883997877; 958139571; 1322822218; 1537002063; 1747873779;
   1955562222; 2024104815; 2227730452; 2361852424; 2428436474; 2756734187; 3204031479; 3329325298].

Record hstate : Type := HState { ha : Z; hb : Z; hc : Z; hd : Z; he : Z; hf : Z; hg : Z; hh : Z }.

Definition initial_hash : hstate :=
  HState 1779033703 3144134277 1013904242 2773480762 1359893119 2600822924 528734635 1541459225.

Definition round (s : hstate) (k w : Z) : hstate :=
  let t1 := add32 (add32 (add32 (hh s) (bsig1 (he s))) (add32 (ch (he s) (hf s) (hg s)) k)) w in
  let t2 := add32 (bsig0 (ha s)) (maj (ha s) (hb s) (hc s)) in
  HState (add32 t1 t2) (ha s) (hb s) (hc s) (add32 (hd s) t1) (he s) (hf s) (hg s).

(** The schedule window holds the last sixteen words, oldest first. *)
Definition next_word (win : list Z) : Z :=
  add32 (add32 (ssig1 (nth 14 win 0)) (nth 9 win 0)) (add32 (ssig0 (nth 1 win 0)) (nth 0 win 0)).

Fixpoint rounds (ks : list Z) (win : list Z) (s : hstate) : hstate :=
  match ks with
  | [] => s
  | k :: ks => rounds ks (tail win ++ [next_word win]) (round s k (nth 0 win 0))
  end.

Definition compress (s : hstate) (block : list Z) : hstate :=
  let t := rounds round_constants block s in
  HState (add32 (ha s) (ha t)) (add32 (hb s) (hb t)) (add32 (hc s) (hc t)) (add32 (hd s) (hd t))
         (add32 (he s) (he t)) (add32 (hf s) (hf t)) (add32 (hg s) (hg t)) (add32 (hh s) (hh t)).

Fixpoint words (bytes : list Z) : list Z :=
  match bytes with
  | a :: b :: c :: d :: rest => (((a * 256 + b) * 256 + c) * 256 + d) :: words rest
  | _ => []
  end.

Fixpoint be_bytes (n : nat) (x : Z) : list Z :=
  match n with
  | O => []
  | S n => (be_bytes n (Z.shiftr x 8) ++ [Z.land x 255])%list
  end.

Definition pad (bytes : list Z) : list Z :=
  let len := Z.of_nat (length bytes) in
  bytes ++ 128 :: repeat 0 (Z.to_nat ((55 - len) mod 64)) ++ be_bytes 8 (8 * len).

Fixpoint blocks (n : nat) (ws : list Z) (s : hstate) : hstate :=
  match n with
  | O => s
  | S n => blocks n (drop 16 ws) (compress s (take 16 ws))
  end.

Definition sha256_words (bytes : list Z) : list Z :=
  let ws := words (pad bytes) in
  let s := blocks (length ws / 16)%nat ws initial_hash in
  [ha s; hb s; hc s; hd s; he s; hf s; hg s; hh s].

Definition hex_digit (d : Z) : ascii :=
  if d <? 10 then ascii_of_N (Z.to_N (48 + d)) else ascii_of_N (Z.to_N (87 + d)).

Fixpoint hex_word (n : nat) (x : Z) : list ascii :=
  match n with
  | O => []
  | S n => (hex_word n (Z.shiftr x 4) ++ [hex_digit (Z.land x 15)])%list
  end.

(** [hashlib.sha256(bytes).hexdigest()]. *)
Definition sha256_hex (bytes : list Z) : string := of_chars (sha256_words bytes ≫= hex_word 8).

(** [s.encode()]: UTF-8, on code points below 256. *)
Definition utf8_char (c : ascii) : list Z :=
  let n := Z.of_N (code c) in
  if n <? 128 then [n] else [192 + n / 64; 128 + n mod 64].
Definition encode (s : string) : list Z := chars s ≫= utf8_char.

(** [b.decode("utf-8")], on the same range; [None] is the [UnicodeDecodeError]. *)
Fixpoint utf8_decode (l : list Z) : option (list ascii) :=
  match l with
  | [] => Some []
  | a :: l =>
      if a <? 128 then t ← utf8_decode l; Some (ascii_of_N (Z.to_N a) :: t)
      else match l with
           | b :: l =>
               if (194 <=? a) && (a <=? 195) && (128 <=? b) && (b <? 192)
               then t ← utf8_decode l; Some (ascii_of_N (Z.to_N ((a - 192) * 64 + (b - 128))) :: t)
               else None
           | [] => None
           end
  end.
Definition decode (b : list Z) : option string := of_chars <$> utf8_decode b.

(** ** Test vectors *)

Example sha256_empty :
  sha256_hex [] = "e3b0c44298fc1c149afbf4c8996fb92427ae41e4649b934ca495991b7852b855".
Proof. vm_compute. reflexivity. Qed.

Example sha256_abc :
  sha256_hex (encode "abc") = "ba7816bf8f01cfea414140de5dae2223b00361a396177a9cb410ff61f20015ad".
Proof. vm_compute. reflexivity. Qed.

(** ** The digest is sixty-four lower-case hexadecimal digits *)

Definition lower_hex : ascii -> bool := either digit (range "a" "f").

Lemma hex_digit_lower d : 0 <= d <= 15 -> lower_hex (hex_digit d) = true.
Proof.
  intros H. assert (exists n : nat, (n < 16)%nat /\ d = Z.of_nat n) as (n & Hn & ->)
    by (exists (Z.to_nat d); lia).
  do 16 (destruct n as [|n]; [reflexivity|]). lia.
Qed.

Lemma land_15_bound x : 0 <= Z.land x 15 <= 15.
Proof.
  change 15 with (Z.ones 4). rewrite Z.land_ones by lia.
  pose proof (Z.mod_pos_bound x (2 ^ 4)). change (Z.ones 4) with 15. lia.
Qed.

Lemma hex_word_shape n x : length (hex_word n x) = n /\ all_chars lower_hex (hex_word n x) = true.
Proof.
  revert x; induction n as [|n IH]; intros x; [done|]. cbn [hex_word].
  destruct (IH (Z.shiftr x 4)) as [Hl Ha]. rewrite length_app, all_chars_app, Ha, Hl.
  cbn [length all_chars forallb]. rewrite hex_digit_lower by apply land_15_bound. split; [lia|done].
Qed.

Lemma hex_words_shape ws :
  length (ws ≫= hex_word 8) = (8 * length ws)%nat /\ all_chars lower_hex (ws ≫= hex_word 8) = true.
Proof.
  induction ws as [|w ws [Hl Ha]]; [done|]. rewrite bind_cons, length_app, all_chars_app, Hl, Ha.
  destruct (hex_word_shape 8 w) as [-> ->]. cbn [length]. split; [lia|done].
Qed.

Lemma sha256_hex_shape bytes :
  length (chars (sha256_hex bytes)) = 64%nat /\ all_chars lower_hex (chars (sha256_hex bytes)) = true.
Proof. unfold sha256_hex. rewrite chars_of_chars. apply (hex_words_shape (sha256_words bytes)). Qed.

Lemma code_bound c : (code c < 256)%N.
Proof. unfold code. apply N_ascii_bounded. Qed.

Lemma utf8_decode_char c l :
  utf8_decode (utf8_char c ++ l) = (t ← utf8_decode l; Some (c :: t)).
Proof.
  pose proof (code_bound c). unfold utf8_char. set (n := Z.of_N (code c)).
  assert (forall z, z = n -> ascii_of_N (Z.to_N z) = c) as Hc.
  { intros z ->. unfold n. rewrite N2Z.id. apply ascii_N_embedding. }
  assert (0 <= n < 256) as Hn by (unfold n; lia). clearbody n.
  destruct (Z.ltb_spec n 128) as [Hlt|Hge]; cbn.
  - destruct (Z.ltb_spec n 128); [|lia]. by rewrite (Hc n).
  - pose proof (Z.div_mod n 64). pose proof (Z.mod_pos_bound n 64).
    assert (2 <= n / 64 <= 3) by lia.
    destruct (Z.ltb_spec (192 + n / 64) 128); [lia|].
    destruct (Z.leb_spec 194 (192 + n / 64)); [|lia]. destruct (Z.leb_spec (192 + n / 64) 195); [|lia].
    destruct (Z.leb_spec 128 (128 + n mod 64)); [|lia]. destruct (Z.ltb_spec (128 + n mod 64) 192); [|lia].
    cbn [andb]. rewrite (Hc _) by lia. done.
Qed.

(** [s.encode().decode("utf-8") == s]. *)
Lemma decode_encode s : decode (encode s) = Some s.
Proof.
  unfold decode, encode. rewrite <- (of_chars_chars s) at 2. f_equal.
  assert (forall l, utf8_decode (l ≫= utf8_char) = Some l) as ->; [|done].
  intros l. induction l as [|c l IH]; [done|].
  by rewrite bind_cons, utf8_decode_char, IH.
Qed.

Lemma encode_inj s t : encode s = encode t -> s = t.
Proof. intros H. apply (f_equal decode) in H. rewrite !decode_encode in H. congruence. Qed.

#[global] Opaque sha256_hex.
