(* ===== verification/PyTime.v ===== *)
(** * Dates and times

    [datetime.datetime] values: a wall-clock reading in microseconds since
    1970-01-01T00:00:00 of the proleptic Gregorian calendar, and the offset
    from UTC when the value is aware.  Calendar fields are derived. *)

From S2P Require Import Prelude Regex PyStr.

Local Open Scope string_scope.
Local Open Scope Z_scope.

Record datetime : Type := Datetime {
  dt_local : Z;                (* microseconds on the wall clock *)
  dt_offset : option Z;        (* utcoffset() in microseconds; None when naive *)
}.

#[export] Instance datetime_eq_dec : EqDecision datetime.
Proof. solve_decision. Defined.

Definition us_per_second : Z := 1000000.
Definition us_per_minute : Z := 60 * us_per_second.
Definition us_per_day : Z := 86400 * us_per_second.

(** [value.tzinfo is None or value.utcoffset() is None]. *)
Definition is_naive (d : datetime) : bool := is_none (dt_offset d).

(** An aware UTC value. *)
Definition utc (instant : Z) : datetime := Datetime instant (Some 0).
Definition is_utc (d : datetime) : bool := bool_decide (dt_offset d = Some 0).

(** The instant an aware value denotes; comparisons of aware values use it. *)
Definition instant (d : datetime) : Z := dt_local d - or_else (dt_offset d) 0.
Definition dt_ltb (a b : datetime) : bool := instant a <? instant b.

(** [d.astimezone(UTC)] of an aware value. *)
Definition astimezone_utc (d : datetime) : datetime := utc (instant d).

(** ** Calendar fields *)

(** Days since 1970-01-01 to year, month, day. *)
Definition civil_from_days (days : Z) : Z * Z * Z :=
  let z := days + 719468 in
  let era := z / 146097 in
  let doe := z mod 146097 in
  let yoe := (doe - doe / 1460 + doe / 36524 - doe / 146096) / 365 in
  let doy := doe - (365 * yoe + yoe / 4 - yoe / 100) in
  let mp := (5 * doy + 2) / 153 in
  let d := doy - (153 * mp + 2) / 5 + 1 in
  let m := if mp <? 10 then mp + 3 else mp - 9 in
  (yoe + era * 400 + (if m <=? 2 then 1 else 0), m, d).

(** Year, month, day to days since 1970-01-01. *)
Definition days_from_civil (y m d : Z) : Z :=
  let y := if m <=? 2 then y - 1 else y in
  let era := y / 400 in
  let yoe := y mod 400 in
  let doy := (153 * (if 2 <? m then m - 3 else m + 9) + 2) / 5 + d - 1 in
  let doe := yoe * 365 + yoe / 4 - yoe / 100 + doy in
  era * 146097 + doe - 719468.

Definition dt_days (d : datetime) : Z := dt_local d / us_per_day.
Definition dt_in_day (d : datetime) : Z := dt_local d mod us_per_day.
Definition dt_date (d : datetime) : Z * Z * Z := civil_from_days (dt_days d).
Definition dt_month (d : datetime) : Z := (dt_date d).1.2.
Definition dt_day (d : datetime) : Z := (dt_date d).2.
Definition dt_hour (d : datetime) : Z := dt_in_day d / (3600 * us_per_second).
Definition dt_minute (d : datetime) : Z := (dt_in_day d / us_per_minute) mod 60.
Definition dt_second (d : datetime) : Z := (dt_in_day d / us_per_second) mod 60.
Definition dt_microsecond (d : datetime) : Z := dt_in_day d mod us_per_second.

(** [d.weekday()]: Monday is 0; 1970-01-01 was a Thursday. *)
Definition dt_weekday (d : datetime) : Z := (dt_days d + 3) mod 7.

(** ** Text *)

(** [f"{n:0{width}d}"] for a non-negative number. *)
Definition pad_left (width : nat) (n : Z) : string :=
  let s := py_str n in
  of_chars (repeat "0"%char (width - String.length s)) +:+ s.

Definition offset_text (o : option Z) : string :=
  match o with
  | None => ""
  | Some us =>
      let a := Z.abs us in
      (if us <? 0 then "-" else "+") +:+ pad_left 2 (a / (3600 * us_per_second)) +:+ ":" +:+
      pad_left 2 ((a / us_per_minute) mod 60) +:+
      (if a mod us_per_minute =? 0 then ""
       else ":" +:+ pad_left 2 ((a / us_per_second) mod 60) +:+
            (if a mod us_per_second =? 0 then "" else "." +:+ pad_left 6 (a mod us_per_second)))
  end.

(** [date.isoformat()]. *)
Definition date_isoformat (ymd : Z * Z * Z) : string :=
  pad_left 4 ymd.1.1 +:+ "-" +:+ pad_left 2 ymd.1.2 +:+ "-" +:+ pad_left 2 ymd.2.

(** [datetime.isoformat()]. *)
Definition isoformat (d : datetime) : string :=
  date_isoformat (dt_date d) +:+ "T" +:+ pad_left 2 (dt_hour d) +:+ ":" +:+
  pad_left 2 (dt_minute d) +:+ ":" +:+ pad_left 2 (dt_second d) +:+
  (if dt_microsecond d =? 0 then "" else "." +:+ pad_left 6 (dt_microsecond d)) +:+
  offset_text (dt_offset d).

(** [_timestamp(value)]: [value.astimezone(UTC).isoformat().replace("+00:00", "Z")];
    the offset of a UTC value is the only place the text can contain it. *)
Definition utc_timestamp (d : datetime) : string :=
  isoformat (Datetime (instant d) None) +:+ "Z".

Example isoformat_example :
  isoformat (utc (days_from_civil 2026 8 17 * us_per_day + 3723000007)) = "2026-08-17T01:02:03.000007+00:00".
Proof. vm_compute. reflexivity. Qed.

Example weekday_example : dt_weekday (utc (days_from_civil 2026 8 17 * us_per_day)) = 0.
Proof. vm_compute. reflexivity. Qed.

Lemma is_utc_spec d : is_utc d = true <-> d = utc (instant d).
Proof.
  unfold is_utc, instant, utc. rewrite bool_decide_eq_true. destruct d as [l [o|]]; cbn; split; try done.
  - intros [= ->]. by rewrite Z.sub_0_r.
  - by intros [= _ ->].
Qed.

Lemma astimezone_utc_is_utc d : is_utc (astimezone_utc d) = true.
Proof. done. Qed.

Lemma astimezone_utc_id d : is_utc d = true -> astimezone_utc d = d.
Proof. intros H. apply is_utc_spec in H. by unfold astimezone_utc. Qed.

(** ** The calendar *)

Definition is_leap (y : Z) : bool := (y mod 4 =? 0) && (negb (y mod 100 =? 0) || (y mod 400 =? 0)).
Definition days_in_month (y m : Z) : Z :=
  if m =? 2 then (if is_leap y then 29 else 28)
  else if bool_decide (m ∈ [4; 6; 9; 11]) then 30 else 31.

(** The year of the era, counted from March. *)
Lemma yoe_bounds doe : 0 <= doe < 146097 ->
  let yoe := (doe - doe / 1460 + doe / 36524 - doe / 146096) / 365 in
  0 <= yoe < 400 /\ 365 * yoe + yoe / 4 - yoe / 100 <= doe /\
  doe < 365 * (yoe + 1) + (yoe + 1) / 4 - (yoe + 1) / 100 + (yoe + 1) / 400.
Proof.
  intros H yoe.
  assert (0 <= doe / 36524 <= 4) by (split; [apply Z.div_pos|apply Z.lt_succ_r, Z.div_lt_upper_bound]; lia).
  assert (0 <= doe / 146096 <= 1) by (split; [apply Z.div_pos|apply Z.lt_succ_r, Z.div_lt_upper_bound]; lia).
  remember (doe / 36524) as b. remember (doe / 146096) as c.
  assert (b = 0 \/ b = 1 \/ b = 2 \/ b = 3 \/ b = 4) as Hb by lia.
  assert (c = 0 \/ c = 1) as Hc by lia. subst yoe.
  destruct Hb as [->|[->|[->|[->| ->]]]], Hc as [->| ->]; split_and!; Z.div_mod_to_equations; lia.
Qed.

(** The last day of the shifted year exists in leap years only. *)
Lemma yoe_leap yoe era : 0 <= yoe < 400 ->
  365 <= 365 + ((yoe + 1) / 4 - yoe / 4) - ((yoe + 1) / 100 - yoe / 100) + (yoe + 1) / 400 - 1 ->
  is_leap (yoe + era * 400 + 1) = true.
Proof.
  intros H Hl. unfold is_leap.
  assert (yoe mod 4 = 3 /\ (yoe mod 100 <> 99 \/ yoe mod 400 = 399)) as [H4 H100]
    by (Z.div_mod_to_equations; lia).
  rewrite andb_true_iff, orb_true_iff, negb_true_iff, Z.eqb_neq, !Z.eqb_eq.
  split; [|destruct H100; [left|right]]; Z.div_mod_to_equations; lia.
Qed.

(** Month and day from the day of the shifted year. *)
Definition shifted_month (mp : Z) : Z := if mp <? 10 then mp + 3 else mp - 9.

Lemma month_of_doy doy : 0 <= doy <= 365 ->
  let mp := (5 * doy + 2) / 153 in
  let d := doy - (153 * mp + 2) / 5 + 1 in
  0 <= mp <= 11 /\ 1 <= d <= 31 /\
  (mp ∈ [1; 3; 6; 8] -> d <= 30) /\ (mp = 11 -> d <= 29 /\ (d = 29 -> doy = 365)).
Proof.
  intros H mp d.
  assert (0 <= mp <= 11) as Hm by (unfold mp; split; [apply Z.div_pos|apply Z.lt_succ_r, Z.div_lt_upper_bound]; lia).
  assert (153 * mp <= 5 * doy + 2 < 153 * mp + 153) as Hr by (unfold mp; Z.div_mod_to_equations; lia).
  clearbody mp. split; [done|]. subst d.
  assert (mp = 0 \/ mp = 1 \/ mp = 2 \/ mp = 3 \/ mp = 4 \/ mp = 5 \/ mp = 6 \/ mp = 7 \/ mp = 8 \/ mp = 9
          \/ mp = 10 \/ mp = 11) as Hc by lia.
  repeat destruct Hc as [->|Hc]; try subst mp;
    match goal with |- context [?a / 5] => let v := eval vm_compute in (a / 5) in change (a / 5) with v end;
    (split; [lia|split; [|lia]]); rewrite !elem_of_cons, elem_of_nil; lia.
Qed.

Lemma shifted_month_cases mp : 0 <= mp <= 11 ->
  1 <= shifted_month mp <= 12 /\
  (if 2 <? shifted_month mp then shifted_month mp - 3 else shifted_month mp + 9) = mp /\
  (shifted_month mp <=? 2) = (10 <=? mp) /\
  (shifted_month mp = 2 <-> mp = 11) /\ (shifted_month mp ∈ [4; 6; 9; 11] <-> mp ∈ [1; 3; 6; 8]).
Proof.
  intros H. unfold shifted_month. rewrite !elem_of_cons, !elem_of_nil.
  destruct (Z.ltb_spec mp 10), (Z.leb_spec 10 mp); try lia.
  - destruct (Z.ltb_spec 2 (mp + 3)), (Z.leb_spec (mp + 3) 2); split_and!; lia.
  - destruct (Z.ltb_spec 2 (mp - 9)), (Z.leb_spec (mp - 9) 2); split_and!; lia.
Qed.

(** A day number is a date of the calendar, and that date is its day. *)
Lemma civil_roundtrip days y m d :
  civil_from_days days = (y, m, d) ->
  days_from_civil y m d = days /\ 1 <= m <= 12 /\ 1 <= d <= days_in_month y m.
Proof.
  unfold civil_from_days. set (z := days + 719468). set (era := z / 146097). set (doe := z mod 146097).
  assert (0 <= doe < 146097) as Hdoe by (apply Z.mod_pos_bound; lia).
  assert (z = era * 146097 + doe) as Hz by (unfold era, doe; pose proof (Z.div_mod z 146097); lia).
  destruct (yoe_bounds doe Hdoe) as (Hy & Hlo & Hhi). set (yoe := (doe - _ + _ - _) / 365) in *.
  cbn zeta. set (doy := doe - (365 * yoe + yoe / 4 - yoe / 100)).
  assert (0 <= doy <= 365 /\ (doy = 365 -> 365 <= 365 + ((yoe + 1) / 4 - yoe / 4) - ((yoe + 1) / 100 - yoe / 100)
            + (yoe + 1) / 400 - 1)) as [Hdoy Hleap] by (unfold doy; Z.div_mod_to_equations; lia).
  destruct (month_of_doy doy Hdoy) as (Hmp & Hd & H30 & Hfeb). set (mp := (5 * doy + 2) / 153) in *.
  fold (shifted_month mp). destruct (shifted_month_cases mp Hmp) as (Hm & Hback & Hle & H2 & Hshort).
  intros [= <- <- <-]. split_and!; try lia.
  - unfold days_from_civil. rewrite Hback, Hle.
    assert ((if 10 <=? mp then yoe + era * 400 + (if 10 <=? mp then 1 else 0) - 1
             else yoe + era * 400 + (if 10 <=? mp then 1 else 0)) = yoe + era * 400) as -> by (destruct (10 <=? mp); lia).
    rewrite Z.div_add, Z.mod_add, Z.div_small, Z.mod_small by lia. unfold z in Hz. lia.
  - unfold days_in_month. destruct (Z.eqb_spec (shifted_month mp) 2) as [E|E].
    + apply H2 in E. destruct (Hfeb E) as [Hd29 Hlast]. rewrite Hle. destruct (Z.leb_spec 10 mp); [|lia].
      destruct (decide (doy - (153 * mp + 2) / 5 + 1 = 29)) as [E29|]; [|destruct (is_leap _); lia].
      rewrite (yoe_leap yoe era) by auto. lia.
    + case_bool_decide as Hs; [|lia]. by apply H30, Hshort.
Qed.

(** Python's range of dates. *)
Definition min_days : Z := days_from_civil 1 1 1.
Definition max_days : Z := days_from_civil 9999 12 31.

Lemma civil_year days y m d :
  min_days <= days <= max_days -> civil_from_days days = (y, m, d) -> 1 <= y <= 9999.
Proof.
  intros Hr. change min_days with (-719162) in Hr. change max_days with 2932896 in Hr.
  unfold civil_from_days. set (z := days + 719468). set (era := z / 146097). set (doe := z mod 146097).
  assert (0 <= doe < 146097) as Hdoe by (apply Z.mod_pos_bound; lia).
  assert (z = era * 146097 + doe) as Hz by (unfold era, doe; pose proof (Z.div_mod z 146097); lia).
  assert (0 <= era <= 24) as He by (unfold z in Hz; lia).
  destruct (yoe_bounds doe Hdoe) as (Hy & Hlo & Hhi). set (yoe := (doe - _ + _ - _) / 365) in *.
  cbn zeta. set (doy := doe - (365 * yoe + yoe / 4 - yoe / 100)).
  assert (0 <= doy <= 365) as Hdoy by (unfold doy; Z.div_mod_to_equations; lia).
  destruct (month_of_doy doy Hdoy) as (Hmp & _). set (mp := (5 * doy + 2) / 153) in *.
  fold (shifted_month mp). destruct (shifted_month_cases mp Hmp) as (_ & _ & Hle & _). rewrite Hle.
  intros [= <- _ _].
  assert (153 * mp <= 5 * doy + 2 < 153 * mp + 153) as Hmr by (unfold mp; Z.div_mod_to_equations; lia).
  clearbody mp. unfold z in Hz.
  destruct (Z.leb_spec 10 mp); [|split; [destruct (decide (era = 0)); [|lia]|lia]].
  - split; [lia|]. destruct (decide (era = 24 /\ yoe = 399)) as [[-> Hy399]|]; [|lia].
    exfalso. subst doy. rewrite Hy399 in *. change (399 / 4) with 99 in *. change (399 / 100) with 3 in *. lia.
  - destruct (decide (yoe = 0)) as [Hy0|]; [|lia]. exfalso. subst doy. rewrite Hy0 in *.
    change (0 / 4) with 0 in *. change (0 / 100) with 0 in *. lia.
Qed.

(** ** Reading timestamps back

    [datetime.fromisoformat] on the spellings [isoformat] writes for UTC values.
    The standard library accepts more of them; the records that are read here must
    equal their canonical text, so the others are refused either way. *)

Fixpoint number_prefix (k : nat) (acc : Z) (l : list ascii) : option (Z * list ascii) :=
  match k, l with
  | O, _ => Some (acc, l)
  | S k, c :: l => if digit c then number_prefix k (acc * 10 + digit_value c) l else None
  | S _, [] => None
  end.

Definition expect (c : ascii) (l : list ascii) : option (list ascii) :=
  match l with d :: l => if Ascii.eqb c d then Some l else None | [] => None end.

(** [datetime(y, m, d, hh, mm, ss, us, tzinfo=UTC)], with its range checks. *)
Definition make_utc (y m d hh mm ss us : Z) : option datetime :=
  if (1 <=? y) && (y <=? 9999) && (1 <=? m) && (m <=? 12) && (1 <=? d) && (d <=? days_in_month y m)
     && (hh <? 24) && (mm <? 60) && (ss <? 60)
  then Some (utc (days_from_civil y m d * us_per_day + ((hh * 60 + mm) * 60 + ss) * us_per_second + us))
  else None.

(** [datetime.fromisoformat(f"{raw[:-1]}+00:00")] of a text that ends in [Z]. *)
Definition parse_utc (raw : string) : option datetime :=
  '(y, l) ← number_prefix 4 0 (chars raw); l ← expect "-" l;
  '(m, l) ← number_prefix 2 0 l; l ← expect "-" l;
  '(d, l) ← number_prefix 2 0 l; l ← expect "T" l;
  '(hh, l) ← number_prefix 2 0 l; l ← expect ":" l;
  '(mm, l) ← number_prefix 2 0 l; l ← expect ":" l;
  '(ss, l) ← number_prefix 2 0 l;
  '(us, l) ← match expect "." l with
             | Some l => number_prefix 6 0 l
             | None => Some (0, l)
             end;
  match l with ["Z"%char] => make_utc y m d hh mm ss us | _ => None end.

(** The values a [datetime] object can hold. *)
Definition in_range (t : datetime) : Prop := min_days <= dt_days t <= max_days.

Lemma dec_digits_length fuel w n :
  0 <= n < 10 ^ Z.of_nat w -> (0 < w)%nat -> (length (dec_digits fuel n) <= w)%nat.
Proof.
  revert w n; induction fuel as [|fuel IH]; intros w n Hn Hw; cbn [dec_digits length]; [lia|].
  destruct (Z.ltb_spec n 10); [done|]. destruct w as [|[|w]]; [lia|cbn in Hn; lia|].
  rewrite length_app. cbn [length].
  assert (length (dec_digits fuel (n / 10)) <= S w)%nat; [|lia]. apply IH; [|lia].
  rewrite (Nat2Z.inj_succ (S w)), Z.pow_succ_r in Hn by lia. split; [apply Z.div_pos; lia|].
  apply Z.div_lt_upper_bound; lia.
Qed.

Lemma pad_left_digits w n :
  0 <= n < 10 ^ Z.of_nat w -> (0 < w)%nat ->
  exists ds, chars (pad_left w n) = (digit_char <$> ds) /\ length ds = w /\
             Forall (fun d => 0 <= d <= 9) ds /\ digits_value ds = n.
Proof.
  intros Hn Hw.
  assert (exists ds, chars (py_str n) = (digit_char <$> ds) /\ Forall (fun d => 0 <= d <= 9) ds /\
            digits_value ds = n /\ (length ds <= w)%nat) as (ds & E & Hds & Hv & Hl).
  { unfold py_str. destruct (Z.ltb_spec n 0); [lia|]. rewrite chars_of_chars. unfold dec_chars. eexists. split; [done|].
    destruct (dec_digits_spec (S (Z.to_nat (Z.log2 n))) n) as (? & ? & _); [split; [lia|apply log2_fuel; lia]|].
    split_and!; [done..|]. by apply dec_digits_length. }
  exists (repeat 0 (w - length ds) ++ ds)%list. unfold pad_left. rewrite chars_app, chars_of_chars, E.
  rewrite <- length_chars, E, length_fmap, fmap_app. split_and!.
  - f_equal. induction (w - length ds)%nat as [|k IH]; [done|]. cbn. by f_equal.
  - rewrite length_app, repeat_length. lia.
  - apply Forall_app. split; [|done]. induction (w - length ds)%nat; cbn; constructor; [lia|done].
  - rewrite <- Hv. unfold digits_value. rewrite fold_left_app. f_equal.
    induction (w - length ds)%nat as [|k IH]; [done|]. exact IH.
Qed.

Lemma number_prefix_digits ds acc rest :
  Forall (fun d => 0 <= d <= 9) ds ->
  number_prefix (length ds) acc ((digit_char <$> ds) ++ rest)%list
  = Some (fold_left (fun a d => a * 10 + d) ds acc, rest).
Proof.
  intros H; revert acc; induction H as [|d ds Hd H IH]; intros acc; [done|].
  cbn [length number_prefix fmap list_fmap app fold_left]. destruct (digit_char_spec d Hd) as [-> ->]. apply IH.
Qed.

Lemma number_prefix_pad w n rest :
  0 <= n < 10 ^ Z.of_nat w -> (0 < w)%nat ->
  number_prefix w 0 (chars (pad_left w n) ++ rest)%list = Some (n, rest).
Proof.
  intros Hn Hw. destruct (pad_left_digits w n Hn Hw) as (ds & -> & <- & Hds & <-).
  by apply number_prefix_digits.
Qed.

(** The clock reading is its fields. *)
Lemma clock_fields t :
  dt_local t = dt_days t * us_per_day + ((dt_hour t * 60 + dt_minute t) * 60 + dt_second t) * us_per_second
               + dt_microsecond t /\
  0 <= dt_hour t < 24 /\ 0 <= dt_minute t < 60 /\ 0 <= dt_second t < 60 /\ 0 <= dt_microsecond t < us_per_second.
Proof.
  unfold dt_days, dt_hour, dt_minute, dt_second, dt_microsecond, dt_in_day, us_per_minute, us_per_day, us_per_second.
  change (86400 * 1000000) with 86400000000. change (3600 * 1000000) with 3600000000. change (60 * 1000000) with 60000000.
  pose proof (Z.div_mod (dt_local t) 86400000000). pose proof (Z.mod_pos_bound (dt_local t) 86400000000).
  set (r := dt_local t mod 86400000000) in *. clearbody r. Z.div_mod_to_equations. lia.
Qed.

Lemma expect_char c r : expect c (chars (String c "") ++ r)%list = Some r.
Proof. cbn. by rewrite Ascii.eqb_refl. Qed.

(** Timestamps read back: [parse_utc] inverts [utc_timestamp] on UTC values. *)
Lemma parse_utc_timestamp t : is_utc t = true -> in_range t -> parse_utc (utc_timestamp t) = Some t.
Proof.
  intros Hu%is_utc_spec. rewrite Hu. generalize (instant t). clear. intros i Hr. unfold in_range in Hr.
  unfold utc_timestamp. change (instant (utc i)) with (i - 0). rewrite Z.sub_0_r.
  set (n := Datetime i None). change (dt_days (utc i)) with (dt_days n) in Hr.
  destruct (clock_fields n) as (Hi & Hh & Hm & Hs & Hus).
  destruct (dt_date n) as [[y m] d] eqn:Ed. destruct (civil_roundtrip _ _ _ _ Ed) as (Hdays & Hmo & Hda).
  pose proof (civil_year _ _ _ _ Hr Ed) as Hy.
  assert (days_in_month y m <= 31) as Hdim.
  { unfold days_in_month. destruct (m =? 2), (is_leap y); try lia; case_bool_decide; lia. }
  unfold isoformat. rewrite Ed. unfold date_isoformat. cbn [fst snd].
  change (offset_text (dt_offset n)) with "".
  unfold parse_utc. rewrite !chars_app. rewrite <- !app_assoc.
  rewrite number_prefix_pad by (cbn; lia). cbn [mbind option_bind]. rewrite expect_char. cbn [mbind option_bind].
  rewrite number_prefix_pad by (cbn; lia). cbn [mbind option_bind]. rewrite expect_char. cbn [mbind option_bind].
  rewrite number_prefix_pad by (cbn; lia). cbn [mbind option_bind]. rewrite expect_char. cbn [mbind option_bind].
  rewrite number_prefix_pad by (cbn; lia). cbn [mbind option_bind]. rewrite expect_char. cbn [mbind option_bind].
  rewrite number_prefix_pad by (cbn; lia). cbn [mbind option_bind]. rewrite expect_char. cbn [mbind option_bind].
  rewrite number_prefix_pad by (cbn; lia). cbn [mbind option_bind].
  assert (make_utc y m d (dt_hour n) (dt_minute n) (dt_second n) (dt_microsecond n) = Some (utc i)) as Hmk.
  { unfold make_utc.
    rewrite !(proj2 (Z.leb_le _ _)), !(proj2 (Z.ltb_lt _ _)) by lia. cbn [andb]. do 2 f_equal.
    rewrite Hdays. unfold dt_days in Hi. cbn [dt_local n] in Hi. exact (eq_sym Hi). }
  destruct (Z.eqb_spec (dt_microsecond n) 0) as [E0|E0].
  - rewrite E0 in Hmk. exact Hmk.
  - rewrite !chars_app, <- !app_assoc, expect_char.
    rewrite number_prefix_pad by (cbn; unfold us_per_second in *; lia). cbn [mbind option_bind]. exact Hmk.
Qed.

(** ** What reads as a timestamp *)

Lemma year_days y : 0 <= y <= 9999 ->
  -719468 + 365 * y <= y / 400 * 146097 + (y mod 400 * 365 + y mod 400 / 4 - y mod 400 / 100) - 719468 <= 2932591 - 365 * (9999 - y).
Proof.
  intros H. assert (0 <= y / 400 <= 24) by (split; [apply Z.div_pos|apply Z.lt_succ_r, Z.div_lt_upper_bound]; lia).
  pose proof (Z.div_mod y 400 ltac:(lia)) as E. pose proof (Z.mod_pos_bound y 400 ltac:(lia)) as B.
  set (r := y mod 400) in *. set (q := y / 400) in *. clearbody r q. subst y.
  assert (r / 100 <= r / 4 <= r / 100 + 96) as [H1 H2] by (Z.to_euclidean_division_equations; lia). lia.
Qed.
Lemma civil_bounds y m d : 1 <= y <= 9999 -> 1 <= m <= 12 -> 1 <= d <= 31 -> min_days <= days_from_civil y m d <= max_days.
Proof.
  intros Hy Hm Hd. change min_days with (-719162). change max_days with 2932896.
  unfold days_from_civil. destruct (Z.leb_spec m 2), (Z.ltb_spec 2 m); try lia.
  - pose proof (year_days (y - 1) ltac:(lia)). 
    assert (306 <= (153 * (m + 9) + 2) / 5 + d - 1 <= 306 + 61) by (Z.to_euclidean_division_equations; lia). lia.
  - pose proof (year_days y ltac:(lia)). 
    assert (0 <= (153 * (m - 3) + 2) / 5 + d - 1 <= 305) by (Z.to_euclidean_division_equations; lia). lia.
Qed.

Lemma number_prefix_bound k acc l n l' : number_prefix k acc l = Some (n, l') ->
  acc * 10 ^ Z.of_nat k <= n < (acc + 1) * 10 ^ Z.of_nat k.
Proof.
  revert acc l. induction k as [|k IH]; intros acc l; cbn [number_prefix].
  - intros [= <- <-]. cbn. lia.
  - destruct l as [|c l]; [done|]. destruct (digit c) eqn:Hc; [|done]. intros H. apply IH in H.
    rewrite Nat2Z.inj_succ, Z.pow_succ_r by lia.
    assert (0 <= digit_value c <= 9) as Hv. { revert Hc. destruct c as [[] [] [] [] [] [] [] []]; vm_compute; intros [=]; split; discriminate. }
    nia.
Qed.

(** A text that reads as a timestamp is a value a [datetime] can hold. *)
Lemma parse_utc_in_range raw d : parse_utc raw = Some d -> is_utc d = true /\ in_range d.
Proof.
  unfold parse_utc. intros H.
  apply bind_Some in H as ([y l1] & Hy & H). apply bind_Some in H as (? & _ & H).
  apply bind_Some in H as ([m l2] & Hm & H). apply bind_Some in H as (? & _ & H).
  apply bind_Some in H as ([dd l3] & Hdd & H). apply bind_Some in H as (? & _ & H).
  apply bind_Some in H as ([hh l4] & Hhh & H). apply bind_Some in H as (? & _ & H).
  apply bind_Some in H as ([mm l5] & Hmm & H). apply bind_Some in H as (? & _ & H).
  apply bind_Some in H as ([ss l6] & Hss & H). apply bind_Some in H as ([us l7] & Hus & H).
  apply number_prefix_bound in Hhh, Hmm, Hss.
  assert (0 <= us < us_per_second) as Hu.
  { destruct (expect "." l6); [apply number_prefix_bound in Hus; unfold us_per_second; lia|]. injection Hus as <- _. by split. }
  assert (make_utc y m dd hh mm ss us = Some d) as E by (repeat (case_match; try done)). clear H. unfold make_utc in E.
  destruct (_ && _) eqn:B in E; [|done]. injection E as <-. rewrite !andb_true_iff, !Z.leb_le, !Z.ltb_lt in B.
  split; [reflexivity|]. unfold in_range, dt_days, utc. cbn [dt_local].
  assert (days_in_month y m <= 31) by (unfold days_in_month; destruct (m =? 2), (is_leap y); try lia; case_bool_decide; lia).
  pose proof (civil_bounds y m dd ltac:(lia) ltac:(lia) ltac:(lia)) as Hb.
  rewrite <- Z.add_assoc, Z.div_add_l by done. rewrite Z.div_small; [lia|]. unfold us_per_day, us_per_second in *. lia.
Qed.
