(* ===== verification/Json.v ===== *)
(** * JSON values and [json.dumps]

    The digests and the durable records are taken over compact JSON with sorted
    keys.  An object is an association list; [dumps] sorts it by key, as
    [sort_keys=True] does.  Keys of the modelled objects are distinct.  A number
    that is not an integer is kept as its literal: no record of the source has
    one, and every reader refuses it. *)

From S2P Require Import Prelude Regex PyStr Sha256.

Local Open Scope string_scope.
Local Open Scope Z_scope.

Inductive json : Type :=
  | JNull
  | JBool (b : bool)
  | JInt (n : Z)
  | JFloat (literal : string)
  | JStr (s : string)
  | JArr (l : list json)
  | JObj (l : list (string * json)).

(** [dict(pairs)]: a later pair replaces the value of an earlier equal key,
    which keeps its place. *)
Fixpoint dict_set {V} (k : string) (v : V) (d : list (string * V)) : list (string * V) :=
  match d with
  | [] => [(k, v)]
  | (k', v') :: d => if bool_decide (k = k') then (k', v) :: d else (k', v') :: dict_set k v d
  end.
Definition dict_of {V} (pairs : list (string * V)) : list (string * V) :=
  fold_left (fun d p => dict_set p.1 p.2 d) pairs [].

(** [d.get(k)]. *)
Fixpoint assoc {V} (k : string) (d : list (string * V)) : option V :=
  match d with
  | [] => None
  | (k', v) :: d => if bool_decide (k = k') then Some v else assoc k d
  end.

Definition jopt {A} (f : A -> json) (o : option A) : json :=
  match o with Some a => f a | None => JNull end.

(** ** Escapes *)

Definition hex4 (n : Z) : list ascii := hex_word 4 n.

Definition quote_char : ascii := "034"%char.
Definition backslash : ascii := "092"%char.

(** [ensure_ascii] escapes everything outside the printable ASCII range. *)
Definition escape_char (ensure_ascii : bool) (c : ascii) : list ascii :=
  let n := code c in
  if (n =? 34)%N then [backslash; quote_char]
  else if (n =? 92)%N then [backslash; backslash]
  else if (n =? 10)%N then [backslash; "n"%char]
  else if (n =? 13)%N then [backslash; "r"%char]
  else if (n =? 9)%N then [backslash; "t"%char]
  else if (n =? 12)%N then [backslash; "f"%char]
  else if (n =? 8)%N then [backslash; "b"%char]
  else if ((n <? 32) || ensure_ascii && (126 <? n))%N then backslash :: "u"%char :: hex4 (Z.of_N n)
  else [c].

Definition quoted (ensure_ascii : bool) (s : string) : string :=
  of_chars (quote_char :: (chars s ≫= escape_char ensure_ascii) ++ [quote_char]).

(** ** Printing *)

Section Dumps.
Context (ensure_ascii : bool).

Definition pair_leb {V} : string * V -> string * V -> bool := key_leb fst str_leb.

(** [json.dumps(v, sort_keys=True, separators=(",", ":"))]. *)
Fixpoint dumps (v : json) : string :=
  match v with
  | JNull => "null"
  | JBool true => "true"
  | JBool false => "false"
  | JInt n => py_str n
  | JFloat t => t
  | JStr s => quoted ensure_ascii s
  | JArr l => "[" +:+ join "," (map dumps l) +:+ "]"
  | JObj l =>
      "{" +:+
      join ","
        (map (fun kv => quoted ensure_ascii kv.1 +:+ ":" +:+ kv.2)
           (py_sorted pair_leb (map (fun kv => (kv.1, dumps kv.2)) l))) +:+ "}"
  end.
End Dumps.

(** The default of [json.dumps], and [ensure_ascii=False]. *)
Definition dumps_ascii : json -> string := dumps true.
Definition dumps_unicode : json -> string := dumps false.

Example dumps_example :
  dumps_ascii (JObj [("b", JArr [JInt 1; JNull; JBool true]); ("a", JStr ("x" +:+ of_chars [newline]))])
  = of_chars (chars "{" ++ [quote_char; "a"; quote_char; ":"; quote_char; "x"; backslash; "n"; quote_char]%char
      ++ chars "," ++ [quote_char; "b"; quote_char]%char ++ chars ":[1,null,true]}").
Proof. vm_compute. reflexivity. Qed.

(** ** Dictionaries *)

Lemma assoc_some_in {V} k (d : list (string * V)) : is_Some (assoc k d) <-> k ∈ map fst d.
Proof.
  induction d as [|[k' v] d IH]; cbn; [split; [by intros []|set_solver]|].
  case_bool_decide; subst; [split; [left|done]|]. rewrite IH, elem_of_cons. naive_solver.
Qed.

Lemma dict_of_fresh {V} (d pairs : list (string * V)) :
  NoDup (map fst (d ++ pairs)) ->
  fold_left (fun d p => dict_set p.1 p.2 d) pairs d = (d ++ pairs)%list.
Proof.
  revert d; induction pairs as [|[k v] pairs IH]; intros d H; cbn; [by rewrite app_nil_r|].
  assert (dict_set k v d = d ++ [(k, v)])%list as ->.
  { assert (k ∉ map fst d) as Hk.
    { rewrite map_app in H. apply NoDup_app in H as (_ & H & _). intros Hk. apply (H _ Hk). left. }
    clear H IH. induction d as [|[k' v'] d IH]; cbn; [done|]. cbn in Hk. case_bool_decide; [set_solver|].
    f_equal. apply IH. set_solver. }
  rewrite IH; [by rewrite <- app_assoc|]. by rewrite <- app_assoc.
Qed.

Lemma dict_of_nodup {V} (pairs : list (string * V)) : NoDup (map fst pairs) -> dict_of pairs = pairs.
Proof. intros H. unfold dict_of. by rewrite dict_of_fresh. Qed.

Lemma assoc_nodup {V} (d : list (string * V)) k v :
  NoDup (map fst d) -> (k, v) ∈ d -> assoc k d = Some v.
Proof.
  induction d as [|[k' v'] d IH]; cbn; intros Hn H; [set_solver|]. inversion Hn; subst.
  apply elem_of_cons in H as [[= -> ->]|H]; [by rewrite bool_decide_eq_true_2|].
  rewrite bool_decide_eq_false_2; [auto|]. intros ->. apply (list_elem_of_fmap_2 fst) in H. set_solver.
Qed.

Lemma assoc_in {V} (d : list (string * V)) k v : assoc k d = Some v -> (k, v) ∈ d.
Proof.
  induction d as [|[k' v'] d IH]; cbn; [done|]. case_bool_decide; [intros [= ->]; subst; left|].
  intros; right; auto.
Qed.
