(* ===== verification/JsonParse.v ===== *)
(** * [json.loads]

    The standard library's JSON reader as the source uses it: UTF-8 bytes to a
    value, [None] for the errors ([UnicodeDecodeError], [JSONDecodeError] and the
    [ValueError] of an integer literal beyond CPython's digit limit), all of
    which the readers of the source turn into their own error.  Escapes above
    U+00FF are outside the model's strings and read as errors.  The depth limit
    of the interpreter is not modelled. *)

From S2P Require Import Prelude Regex PyStr Sha256 Json.

Local Open Scope string_scope.
Local Open Scope Z_scope.
Local Open Scope list_scope.

(** ** Lexical elements *)

Definition json_space (c : ascii) : bool :=
  let n := code c in ((n =? 32) || (n =? 9) || (n =? 10) || (n =? 13))%N.

Fixpoint skip_ws (l : list ascii) : list ascii :=
  match l with
  | c :: l' => if json_space c then skip_ws l' else l
  | [] => []
  end.

Fixpoint span (f : ascii -> bool) (l : list ascii) : list ascii * list ascii :=
  match l with
  | c :: l' => if f c then let (a, b) := span f l' in (c :: a, b) else ([], l)
  | [] => ([], [])
  end.

Definition hex_value (c : ascii) : option Z :=
  let n := Z.of_N (code c) in
  if digit c then Some (n - 48)
  else if range "a" "f" c then Some (n - 87)
  else if range "A" "F" c then Some (n - 55)
  else None.

(** The short escapes, with the slash [json.dumps] never escapes. *)
Definition unescape (c : ascii) : option ascii :=
  let n := code c in
  if (n =? 34)%N then Some quote_char
  else if (n =? 92)%N then Some backslash
  else if (n =? 47)%N then Some "/"%char
  else if (n =? 98)%N then Some "008"%char
  else if (n =? 102)%N then Some "012"%char
  else if (n =? 110)%N then Some newline
  else if (n =? 114)%N then Some "013"%char
  else if (n =? 116)%N then Some "009"%char
  else None.

(** The characters up to the closing quote; unescaped control characters are
    refused. *)
Fixpoint parse_chars (l : list ascii) : option (list ascii * list ascii) :=
  match l with
  | [] => None
  | c :: l =>
      if Ascii.eqb c quote_char then Some ([], l)
      else if Ascii.eqb c backslash then
        match l with
        | "u"%char :: h1 :: h2 :: h3 :: h4 :: l =>
            a ← hex_value h1; b ← hex_value h2; c ← hex_value h3; d ← hex_value h4;
            if (a =? 0) && (b =? 0) then
              p ← parse_chars l; Some (ascii_of_N (Z.to_N (16 * c + d)) :: p.1, p.2)
            else None
        | e :: l => x ← unescape e; p ← parse_chars l; Some (x :: p.1, p.2)
        | [] => None
        end
      else if (code c <? 32)%N then None
      else p ← parse_chars l; Some (c :: p.1, p.2)
  end.

(** [(\.\d+)?([eE][-+]?\d+)?]: the consumed text. *)
Definition fraction (l : list ascii) : list ascii * list ascii :=
  match l with
  | c :: l' =>
      if Ascii.eqb c "." then match span digit l' with ([], _) => ([], l) | (ds, r) => (c :: ds, r) end
      else ([], l)
  | [] => ([], l)
  end.
Definition exponent (l : list ascii) : list ascii * list ascii :=
  match l with
  | c :: l' =>
      if Ascii.eqb c "e" || Ascii.eqb c "E" then
        let (sign, l'') := match l' with
                           | d :: r => if Ascii.eqb d "+" || Ascii.eqb d "-" then ([d], r) else ([], l')
                           | [] => ([], l')
                           end in
        match span digit l'' with ([], _) => ([], l) | (ds, r) => (c :: sign ++ ds, r) end
      else ([], l)
  | [] => ([], l)
  end.

(** An integer part without leading zeros. *)
Definition integer_part (l : list ascii) : option (list ascii * list ascii) :=
  match l with
  | c :: l' =>
      if Ascii.eqb c "0" then Some ([c], l')
      else if digit c then let (ds, r) := span digit l' in Some (c :: ds, r)
      else None
  | [] => None
  end.

(** A number after its sign. *)
Definition unsigned_number (minus l : list ascii) : option (json * list ascii) :=
  '(ds, l) ← integer_part l;
  let (frac, l) := fraction l in
  let (exp, l) := exponent l in
  match frac ++ exp with
  | [] =>
      if (max_str_digits <? length ds)%nat then None
      else let n := digits_value (digit_value <$> ds) in
           Some (JInt (match minus with [] => n | _ => - n end), l)
  | _ => Some (JFloat (of_chars (minus ++ ds ++ frac ++ exp)), l)
  end.

Definition parse_number (l : list ascii) : option (json * list ascii) :=
  match l with
  | c :: l' => if Ascii.eqb c "-" then unsigned_number [c] l' else unsigned_number [] l
  | [] => None
  end.

(** [null], the booleans, the non-finite numbers and the numbers. *)
Definition parse_scalar (l : list ascii) : option (json * list ascii) :=
  match after (chars "null") l, after (chars "true") l, after (chars "false") l,
        after (chars "NaN") l, after (chars "Infinity") l, after (chars "-Infinity") l with
  | Some r, _, _, _, _, _ => Some (JNull, r)
  | _, Some r, _, _, _, _ => Some (JBool true, r)
  | _, _, Some r, _, _, _ => Some (JBool false, r)
  | _, _, _, Some r, _, _ => Some (JFloat "NaN", r)
  | _, _, _, _, Some r, _ => Some (JFloat "Infinity", r)
  | _, _, _, _, _, Some r => Some (JFloat "-Infinity", r)
  | _, _, _, _, _, _ => parse_number l
  end.

(** ** Values

    Every two levels of fuel consume a character, so the fuel [loads_text] gives
    never runs out ([parse_fuel]). *)
Fixpoint parse_value (fuel : nat) (l : list ascii) : option (json * list ascii) :=
  match fuel, l with
  | S fuel, c :: l' =>
      if Ascii.eqb c quote_char then p ← parse_chars l'; Some (JStr (of_chars p.1), p.2)
      else if Ascii.eqb c "{" then
        match after ["}"%char] (skip_ws l') with
        | Some r => Some (JObj [], r)
        | None => p ← parse_members fuel (skip_ws l'); Some (JObj (dict_of p.1), p.2)
        end
      else if Ascii.eqb c "[" then
        match after ["]"%char] (skip_ws l') with
        | Some r => Some (JArr [], r)
        | None => p ← parse_items fuel (skip_ws l'); Some (JArr p.1, p.2)
        end
      else parse_scalar l
  | _, _ => None
  end
with parse_items (fuel : nat) (l : list ascii) : option (list json * list ascii) :=
  match fuel with
  | O => None
  | S fuel =>
      v ← parse_value fuel l;
      match skip_ws v.2 with
      | c :: r =>
          if Ascii.eqb c "]" then Some ([v.1], r)
          else if Ascii.eqb c "," then p ← parse_items fuel (skip_ws r); Some (v.1 :: p.1, p.2)
          else None
      | [] => None
      end
  end
with parse_members (fuel : nat) (l : list ascii) : option (list (string * json) * list ascii) :=
  match fuel, l with
  | S fuel, q :: l =>
      if negb (Ascii.eqb q quote_char) then None else
      k ← parse_chars l;
      l ← after [":"%char] (skip_ws k.2);
      v ← parse_value fuel (skip_ws l);
      match skip_ws v.2 with
      | c :: r =>
          if Ascii.eqb c "}" then Some ([(of_chars k.1, v.1)], r)
          else if Ascii.eqb c "," then
            p ← parse_members fuel (skip_ws r); Some ((of_chars k.1, v.1) :: p.1, p.2)
          else None
      | [] => None
      end
  | _, _ => None
  end.

Definition loads_text (l : list ascii) : option json :=
  p ← parse_value (S (2 * length l)) (skip_ws l);
  match skip_ws p.2 with [] => Some p.1 | _ => None end.

(** [json.loads(data)]. *)
Definition loads (data : list Z) : option json := l ← utf8_decode data; loads_text l.

#[local] Arguments Ascii.eqb : simpl never.
#[local] Arguments code : simpl never.

(** ** The fuel is enough *)

Lemma skip_ws_length l : (length (skip_ws l) <= length l)%nat.
Proof. induction l as [|c l IH]; cbn; [done|]. destruct (json_space c); cbn; lia. Qed.

Lemma span_length f l : (length (span f l).2 + length (span f l).1 = length l)%nat.
Proof. induction l as [|c l IH]; cbn; [done|]. destruct (f c); [|done]. destruct (span f l); cbn in *. lia. Qed.

Ltac destr_opt :=
  repeat match goal with
  | H : (_ ≫= _) = Some _ |- _ => apply bind_Some in H; destruct H as (? & ? & ?)
  | H : Some _ = Some _ |- _ => injection H as H; try subst
  | p : (_ * _)%type |- _ => destruct p
  end; cbn [fst snd] in *.

Lemma parse_chars_length l p : parse_chars l = Some p -> (length p.2 < length l)%nat.
Proof.
  revert p. induction l as [l IH] using (well_founded_induction (Wf_nat.well_founded_ltof _ (@length ascii))).
  unfold Wf_nat.ltof in IH. intros p. destruct l as [|c l]; [done|]. cbn [parse_chars].
  destruct (Ascii.eqb c quote_char); [intros [= <-]; cbn; lia|].
  assert (forall l' (q : list ascii * list ascii), (length l' < length (c :: l))%nat -> parse_chars l' = Some q ->
            (length q.2 < S (length l))%nat) as Hl.
  { intros l' q Hlt H. apply IH in H; [cbn in Hlt |- *; lia|done]. }
  destruct (Ascii.eqb c backslash).
  - destruct l as [|e l]; [done|]. intros H.
    assert (exists l' q, (length l' <= length l)%nat /\ parse_chars l' = Some q /\ p.2 = q.2) as (l' & q & Hle & Hq & ->).
    { destruct (decide (e = "u"%char)) as [->|Hne].
      - destruct l as [|h1 [|h2 [|h3 [|h4 l]]]]; try (cbn in H; discriminate H).
        repeat (apply bind_Some in H; destruct H as (? & ? & H)). destruct (_ && _); [|done].
        apply bind_Some in H as (q & Hq & [= <-]). exists l, q. cbn. split; [lia|done].
      - assert ((x ← unescape e; q ← parse_chars l; Some (x :: q.1, q.2)) = Some p) as H'.
        { revert H. destruct e as [[] [] [] [] [] [] [] []]; first [exact (fun h => h)|done]. }
        apply bind_Some in H' as (x & _ & H'). apply bind_Some in H' as (q & Hq & [= <-]). by exists l, q. }
    apply (Hl l' q); [cbn; lia|done].
  - destruct (code c <? 32)%N; [done|]. intros (q & Hq & [= <-])%bind_Some. apply (Hl l q); [cbn; lia|done].
Qed.

Lemma fraction_length l : (length (fraction l).2 <= length l)%nat.
Proof.
  unfold fraction. destruct l as [|c l]; [done|]. destruct (Ascii.eqb c "."); [|done].
  pose proof (span_length digit l). destruct (span digit l) as [[|d ds] r]; cbn in *; lia.
Qed.

Lemma exponent_length l : (length (exponent l).2 <= length l)%nat.
Proof.
  unfold exponent. destruct l as [|c l]; [done|]. destruct (_ || _); [|done].
  assert (forall sign l'', (length l'' <= length l)%nat ->
    (length (match span digit l'' with ([], _) => ([], c :: l) | (ds, r) => (c :: sign ++ ds, r) end).2
     <= length (c :: l))%nat) as Hs.
  { intros sign l'' Hl. pose proof (span_length digit l''). destruct (span digit l'') as [[|d ds] r]; cbn in *; lia. }
  destruct l as [|d l]; [by apply Hs|]. destruct (_ || _); apply Hs; cbn; lia.
Qed.

Lemma integer_part_length l p : integer_part l = Some p -> (length p.2 < length l)%nat.
Proof.
  unfold integer_part. destruct l as [|c l]; [done|]. destruct (Ascii.eqb c "0"); [intros [= <-]; cbn; lia|].
  destruct (digit c); [|done]. pose proof (span_length digit l). destruct (span digit l). intros [= <-]. cbn in *. lia.
Qed.

Lemma unsigned_number_length minus l p : unsigned_number minus l = Some p -> (length p.2 < length l)%nat.
Proof.
  unfold unsigned_number. intros ([ds l2] & Hi%integer_part_length & H)%bind_Some.
  pose proof (fraction_length l2). destruct (fraction l2) as [frac l3].
  pose proof (exponent_length l3). destruct (exponent l3) as [ex l4]. cbn [fst snd] in *.
  destruct (frac ++ ex); [destruct (_ <? _)%nat; [done|]|]; injection H as <-; cbn [snd]; lia.
Qed.

Lemma parse_number_length l p : parse_number l = Some p -> (length p.2 < length l)%nat.
Proof.
  unfold parse_number. destruct l as [|c l]; [done|].
  destruct (Ascii.eqb c "-"); intros H%unsigned_number_length; cbn in *; lia.
Qed.

Lemma parse_scalar_length l p : parse_scalar l = Some p -> (length p.2 < length l)%nat.
Proof.
  unfold parse_scalar.
  repeat match goal with
  | |- context [after ?t l] => destruct (after t l) eqn:?
  end;
  try (intros [= <-]; match goal with H : after _ _ = Some _ |- _ => apply after_length in H; cbn in *; lia end).
  apply parse_number_length.
Qed.

Lemma parse_length fuel :
  (forall l p, parse_value fuel l = Some p -> (length p.2 < length l)%nat) /\
  (forall l p, parse_items fuel l = Some p -> (length p.2 < length l)%nat) /\
  (forall l p, parse_members fuel l = Some p -> (length p.2 < length l)%nat).
Proof.
  induction fuel as [|fuel (IHv & IHi & IHm)]; [by split_and!|]. split_and!; intros l p H; cbn in H.
  - destruct l as [|c l]; [done|]. pose proof (skip_ws_length l) as Hs.
    destruct (Ascii.eqb c quote_char).
    { apply bind_Some in H as (q & Hq%parse_chars_length & [= <-]). cbn. lia. }
    destruct (Ascii.eqb c "{").
    { destruct (skip_ws l) as [|d r] eqn:E; [apply bind_Some in H as (q & Hq%IHm & [= <-]); cbn in *; lia|].
      destruct (Ascii.eqb "}" d); [injection H as <-; cbn in *; lia|].
      apply bind_Some in H as (q & Hq%IHm & [= <-]). cbn in *. lia. }
    destruct (Ascii.eqb c "[").
    { destruct (skip_ws l) as [|d r] eqn:E; [apply bind_Some in H as (q & Hq%IHi & [= <-]); cbn in *; lia|].
      destruct (Ascii.eqb "]" d); [injection H as <-; cbn in *; lia|].
      apply bind_Some in H as (q & Hq%IHi & [= <-]). cbn in *. lia. }
    by apply parse_scalar_length.
  - apply bind_Some in H as ([v r] & Hv%IHv & H). cbn [fst snd] in *. pose proof (skip_ws_length r) as Hs.
    destruct (skip_ws r) as [|c r']; [done|]. cbn in Hs. destruct (Ascii.eqb c "]"); [injection H as <-; cbn; lia|].
    destruct (Ascii.eqb c ","); [|done]. apply bind_Some in H as (q & Hq%IHi & [= <-]).
    pose proof (skip_ws_length r'). cbn in *. lia.
  - destruct l as [|q l]; [done|]. destruct (negb _); [done|].
    apply bind_Some in H as ([k lk] & Hk%parse_chars_length & H). cbn [fst snd] in *.
    apply bind_Some in H as (lc & Hc & H). pose proof (skip_ws_length lk).
    assert (length lc < length lk)%nat.
    { destruct (skip_ws lk) as [|d r]; [done|]. destruct (Ascii.eqb ":" d); [|done]. injection Hc as ->. cbn in *. lia. }
    apply bind_Some in H as ([v r] & Hv%IHv & H). cbn [fst snd] in *.
    pose proof (skip_ws_length lc). pose proof (skip_ws_length r).
    destruct (skip_ws r) as [|c r']; [done|]. destruct (Ascii.eqb c "}"); [injection H as <-; cbn in *; lia|].
    destruct (Ascii.eqb c ","); [|done]. apply bind_Some in H as (q' & Hq%IHm & [= <-]).
    pose proof (skip_ws_length r'). cbn in *. lia.
Qed.

(** More fuel than twice the length changes nothing. *)
Lemma parse_fuel f :
  (forall f' l, (2 * length l < f)%nat -> (f <= f')%nat -> parse_value f' l = parse_value f l) /\
  (forall f' l, (2 * length l + 1 < f)%nat -> (f <= f')%nat -> parse_items f' l = parse_items f l) /\
  (forall f' l, (2 * length l < f)%nat -> (f <= f')%nat -> parse_members f' l = parse_members f l).
Proof.
  induction f as [|f (IHv & IHi & IHm)]; [split_and!; intros; lia|].
  split_and!; intros [|f'] l Hl Hf; try lia.
  - destruct l as [|c l]; [done|]. cbn [parse_value length] in *. pose proof (skip_ws_length l) as Hs.
    rewrite (IHm f') by lia. rewrite (IHi f') by lia. done.
  - cbn [parse_items]. rewrite (IHv f') by lia.
    destruct (parse_value f l) as [[v r]|] eqn:E; [|done]. apply (parse_length f) in E. cbn [mbind option_bind fst snd] in *.
    pose proof (skip_ws_length r). destruct (skip_ws r) as [|c r']; [done|]. cbn in H.
    destruct (Ascii.eqb c "]"); [done|]. destruct (Ascii.eqb c ","); [|done].
    pose proof (skip_ws_length r'). rewrite (IHi f') by lia. done.
  - destruct l as [|q l]; [done|]. cbn [parse_members]. destruct (negb _); [done|].
    destruct (parse_chars l) as [[k lk]|] eqn:E; [|done]. apply parse_chars_length in E.
    cbn [mbind option_bind fst snd] in *.
    destruct (after [":"%char] (skip_ws lk)) as [lc|] eqn:Ec; [|done]. cbn [mbind option_bind].
    apply after_length in Ec. pose proof (skip_ws_length lk). pose proof (skip_ws_length lc). cbn [length] in *.
    rewrite (IHv f') by lia. destruct (parse_value f (skip_ws lc)) as [[v r]|] eqn:Ev; [|done].
    apply (parse_length f) in Ev. cbn [mbind option_bind fst snd] in *. pose proof (skip_ws_length r).
    destruct (skip_ws r) as [|c r']; [done|]. cbn [length] in *.
    destruct (Ascii.eqb c "}"); [done|]. destruct (Ascii.eqb c ","); [|done].
    pose proof (skip_ws_length r'). rewrite (IHm f') by lia. done.
Qed.

Lemma parse_value_fuel l f f' :
  (2 * length l < f)%nat -> (2 * length l < f')%nat -> parse_value f l = parse_value f' l.
Proof.
  intros H1 H2. destruct (Nat.le_ge_cases f f').
  - symmetry. by apply (parse_fuel f).
  - by apply (parse_fuel f').
Qed.

(** ** Reading back what [dumps] wrote *)

(** Induction over nested values. *)
Section JsonInd.
Context (P : json -> Prop) (Hnull : P JNull) (Hbool : forall b, P (JBool b)) (Hint : forall n, P (JInt n))
  (Hfloat : forall t, P (JFloat t)) (Hstr : forall s, P (JStr s)) (Harr : forall l, Forall P l -> P (JArr l))
  (Hobj : forall l, Forall (fun kv => P kv.2) l -> P (JObj l)).
Fixpoint json_nested_ind (v : json) : P v :=
  match v with
  | JNull => Hnull
  | JBool b => Hbool b
  | JInt n => Hint n
  | JFloat t => Hfloat t
  | JStr s => Hstr s
  | JArr l => Harr l ((fix go l := match l return Forall P l with
                                   | [] => Forall_nil_2 P
                                   | v :: l => Forall_cons_2 P v l (json_nested_ind v) (go l)
                                   end) l)
  | JObj l => Hobj l ((fix go l := match l return Forall (fun kv => P kv.2) l with
                                   | [] => Forall_nil_2 _
                                   | kv :: l => Forall_cons_2 _ kv l (json_nested_ind kv.2) (go l)
                                   end) l)
  end.
End JsonInd.

(** The values the reader returns unchanged: integers within the digit limit,
    distinct keys, no float. *)
Fixpoint json_ok (v : json) : Prop :=
  match v with
  | JInt n => Z.abs n < 2 ^ 4000
  | JFloat _ => False
  | JArr l => foldr (fun v p => json_ok v /\ p) True l
  | JObj l => NoDup (map fst l) /\ foldr (fun kv p => json_ok kv.2 /\ p) True l
  | _ => True
  end.

(** Objects come back with their keys in order. *)
Fixpoint sorted_json (v : json) : json :=
  match v with
  | JArr l => JArr (map sorted_json l)
  | JObj l => JObj (py_sorted pair_leb (map (fun kv => (kv.1, sorted_json kv.2)) l))
  | v => v
  end.

Lemma foldr_and {A} (P : A -> Prop) l : foldr (fun v p => P v /\ p) True l <-> Forall P l.
Proof. induction l as [|x l IH]; cbn; [split; [constructor|done]|]. by rewrite IH, Forall_cons. Qed.

Lemma parse_escape b c l :
  parse_chars (escape_char b c ++ l) = (p ← parse_chars l; Some (c :: p.1, p.2)).
Proof. destruct b, c as [[] [] [] [] [] [] [] []]; reflexivity. Qed.

Lemma parse_quoted b s rest :
  parse_chars ((chars s ≫= escape_char b) ++ quote_char :: rest) = Some (chars s, rest).
Proof.
  induction (chars s) as [|c l IH]; [reflexivity|].
  rewrite bind_cons, <- app_assoc, parse_escape, IH. done.
Qed.

(** What may follow a value inside a document. *)
Definition stops (l : list ascii) : Prop :=
  match l with [] => True | c :: _ => c = ","%char \/ c = "]"%char \/ c = "}"%char end.

Lemma dec_digits_head fuel n :
  0 < n < 2 ^ Z.of_nat fuel -> exists d ds, dec_digits fuel n = d :: ds /\ 0 < d <= 9.
Proof.
  revert n; induction fuel as [|fuel IH]; intros n Hn.
  - cbn in Hn. change (2 ^ 0) with 1 in Hn. lia.
  - cbn [dec_digits]. destruct (Z.ltb_spec n 10); [exists n, []; split; [done|lia]|].
    destruct (IH (n / 10)) as (d & ds & -> & Hd); [|by exists d, (ds ++ [n mod 10])].
    rewrite Nat2Z.inj_succ, Z.pow_succ_r in Hn by lia. split.
    + apply Z.div_str_pos. lia.
    + apply Z.div_lt_upper_bound; lia.
Qed.

Lemma span_digits ds rest :
  Forall (fun d => 0 <= d <= 9) ds -> match rest with c :: _ => digit c = false | [] => True end ->
  span digit ((digit_char <$> ds) ++ rest) = (digit_char <$> ds, rest).
Proof.
  intros H Hr. induction H as [|d ds Hd H IH]; cbn.
  - destruct rest as [|c rest]; cbn; [done|]. by rewrite Hr.
  - destruct (digit_char_spec d Hd) as [-> _]. cbn in IH. by rewrite IH.
Qed.

Lemma integer_part_dec n rest :
  0 <= n -> match rest with c :: _ => digit c = false | [] => True end ->
  integer_part (dec_chars n ++ rest) = Some (dec_chars n, rest).
Proof.
  intros Hn Hr. unfold dec_chars, integer_part. set (f := S _).
  destruct (decide (n = 0)) as [->|Hz]; [reflexivity|].
  destruct (dec_digits_head f n) as (d & ds & E & Hd); [split; [lia|by apply log2_fuel]|].
  destruct (dec_digits_spec f n (conj Hn (log2_fuel n Hn))) as (Hds & _). rewrite E in *.
  apply Forall_cons in Hds as [Hd9 Hds]. cbn [fmap list_fmap app].
  assert (Ascii.eqb (digit_char d) "0" = false) as ->.
  { assert (d = 1 \/ d = 2 \/ d = 3 \/ d = 4 \/ d = 5 \/ d = 6 \/ d = 7 \/ d = 8 \/ d = 9) as Hc by lia.
    repeat destruct Hc as [->|Hc]; try done. by subst. }
  destruct (digit_char_spec d Hd9) as [-> _].
  change ((fix go l := match l with [] => [] | x :: l => digit_char x :: go l end) ds) with (digit_char <$> ds).
  by rewrite span_digits.
Qed.

Lemma dec_chars_value n :
  0 <= n -> digits_value (digit_value <$> dec_chars n) = n.
Proof.
  intros Hn. destruct (dec_chars_digits n Hn) as (d & ds & -> & Hd & <- & _). f_equal.
  rewrite <- list_fmap_compose. rewrite <- (list_fmap_id (d :: ds)) at 2.
  apply list_fmap_ext. intros i x Hx. apply digit_char_spec.
  rewrite Forall_forall in Hd. apply Hd. by eapply list_elem_of_lookup_2.
Qed.

Lemma dec_chars_length n : 0 <= n < 2 ^ 4000 -> (length (dec_chars n) <= max_str_digits)%nat.
Proof.
  intros [Hn Hb]. destruct (dec_chars_digits n Hn) as (d & ds & -> & _ & _ & Hl). rewrite length_fmap.
  etrans; [exact Hl|]. by apply few_digits.
Qed.

Lemma parse_number_py_str n rest :
  Z.abs n < 2 ^ 4000 -> stops rest -> parse_number (chars (py_str n) ++ rest) = Some (JInt n, rest).
Proof.
  intros Hb Hs.
  assert (match rest with c :: _ => digit c = false | [] => True end) as Hr.
  { destruct rest as [|c rest]; [done|]. by destruct Hs as [->|[->| ->]]. }
  assert (fraction rest = ([], rest) /\ exponent rest = ([], rest)) as [Hf He].
  { destruct rest as [|c rest]; [done|]. by destruct Hs as [->|[->| ->]]. }
  assert (forall minus m, 0 <= m < 2 ^ 4000 -> unsigned_number minus (dec_chars m ++ rest) =
            Some (JInt (match minus with [] => m | _ => - m end), rest)) as Hm.
  { intros minus m Hm. unfold unsigned_number. pose proof (proj1 Hm) as Hm0. rewrite integer_part_dec by done. cbn [mbind option_bind].
    rewrite Hf, He. cbn [app]. pose proof (dec_chars_length m Hm). rewrite (proj2 (Nat.ltb_ge _ _)) by done.
    by rewrite dec_chars_value. }
  assert (0 <= - n -> 0 <= - n < 2 ^ 4000) as Hneg.
  { intros H0. split; [done|]. eapply Z.le_lt_trans; [|exact Hb]. clear. lia. }
  assert (0 <= n -> 0 <= n < 2 ^ 4000) as Hpos.
  { intros H0. split; [done|]. eapply Z.le_lt_trans; [|exact Hb]. clear. lia. }
  clear Hb. unfold parse_number, py_str. destruct (Z.ltb_spec n 0); rewrite chars_of_chars.
  - cbn [app]. change (Ascii.eqb "-" "-") with true. cbv iota. rewrite Hm by (apply Hneg; clear - H; lia). do 3 f_equal. clear. lia.
  - destruct (dec_chars_digits n H) as (d & ds & Hd & Hds & _). rewrite Hd. cbn [fmap list_fmap app].
    apply Forall_cons in Hds as [Hd9 _]. destruct (digit_char_spec d Hd9) as [Hdig _].
    assert (Ascii.eqb (digit_char d) "-" = false) as ->.
    { by destruct (digit_char d) as [[] [] [] [] [] [] [] []]. }
    specialize (Hm [] n (Hpos H)). by rewrite Hd in Hm.
Qed.

(** ** Whole values *)

Lemma chars_join_cons sep t ts :
  chars (join sep (t :: ts)) = chars t ++ match ts with [] => [] | _ => chars sep ++ chars (join sep ts) end.
Proof. destruct ts; [by rewrite app_nil_r|]. cbn [join]. by rewrite !chars_app. Qed.

(** Sorting looks at the keys only. *)
Lemma py_sorted_values {V V'} (g : V -> V') (l : list (string * V)) :
  py_sorted pair_leb (map (fun kv => (kv.1, g kv.2)) l) = map (fun kv => (kv.1, g kv.2)) (py_sorted pair_leb l).
Proof.
  assert (forall x (m : list (string * V)), insert_sorted pair_leb (x.1, g x.2) (map (fun kv => (kv.1, g kv.2)) m) =
            map (fun kv => (kv.1, g kv.2)) (insert_sorted pair_leb x m)) as Hi.
  { intros x m. induction m as [|y m IH]; [done|]. cbn [map insert_sorted]. unfold pair_leb, key_leb in *. cbn [fst].
    destruct (str_leb x.1 y.1); [done|]. cbn [map]. by rewrite IH. }
  induction l as [|x l IH]; [done|].
  change (insert_sorted pair_leb (x.1, g x.2) (py_sorted pair_leb (map (fun kv => (kv.1, g kv.2)) l)) =
          map (fun kv => (kv.1, g kv.2)) (insert_sorted pair_leb x (py_sorted pair_leb l))).
  by rewrite IH, Hi.
Qed.

Definition member_text (b : bool) (kv : string * json) : string := quoted b kv.1 +:+ ":" +:+ dumps b kv.2.

Lemma dumps_obj b l :
  dumps b (JObj l) = "{" +:+ join "," (map (member_text b) (py_sorted pair_leb l)) +:+ "}".
Proof. cbn [dumps]. do 3 f_equal. by rewrite (py_sorted_values (dumps b)), map_map. Qed.

Lemma sorted_json_obj l :
  sorted_json (JObj l) = JObj (map (fun kv => (kv.1, sorted_json kv.2)) (py_sorted pair_leb l)).
Proof. cbn [sorted_json]. by rewrite py_sorted_values. Qed.

Lemma dec_chars_head n : 0 <= n -> exists c t, dec_chars n = c :: t /\ digit c = true.
Proof.
  intros Hn. destruct (dec_chars_digits n Hn) as (d & ds & -> & Hds & _). eexists _, _. split; [done|].
  apply Forall_cons in Hds as [Hd _]. by apply digit_char_spec.
Qed.

(** A value starts with neither a blank nor a closing bracket. *)
Lemma dumps_head b v : json_ok v ->
  exists c t, chars (dumps b v) = c :: t /\ json_space c = false /\ Ascii.eqb "]" c = false /\ Ascii.eqb "}" c = false.
Proof.
  assert (forall c, digit c = true \/ c = "-"%char ->
    json_space c = false /\ Ascii.eqb "]" c = false /\ Ascii.eqb "}" c = false) as Hd.
  { intros [[] [] [] [] [] [] [] []] [H|H]; first [discriminate H|split_and!; reflexivity]. }
  intros Hv. destruct v as [|[]|n|t|s|l|l]; cbn [json_ok] in Hv; try done;
    try (eexists _, _; split; [reflexivity|split_and!; reflexivity]).
  cbn [dumps]. unfold py_str. destruct (Z.ltb_spec n 0); rewrite chars_of_chars.
  - eexists _, _. split; [done|]. apply Hd. by right.
  - destruct (dec_chars_head n H) as (c & t & -> & Hc). eexists _, _. split; [done|]. apply Hd. by left.
Qed.

Definition reads (b : bool) (v : json) : Prop :=
  forall f rest, stops rest -> (2 * length (chars (dumps b v) ++ rest) < f)%nat ->
  parse_value f (chars (dumps b v) ++ rest) = Some (sorted_json v, rest).

Lemma skip_ws_head c l : json_space c = false -> skip_ws (c :: l) = c :: l.
Proof. intros H. cbn. by rewrite H. Qed.

Lemma parse_items_dumps b l :
  Forall (fun v => json_ok v /\ reads b v) l -> l <> [] ->
  forall f rest, (2 * length (chars (join "," (map (dumps b) l)) ++ "]"%char :: rest) + 1 < f)%nat ->
  parse_items f (chars (join "," (map (dumps b) l)) ++ "]"%char :: rest) = Some (map sorted_json l, rest).
Proof.
  induction 1 as [|v l [Hok Hv] Hl IH]; [done|]. intros _ [|f] rest Hf; [lia|].
  cbn [map] in *. rewrite chars_join_cons, <- app_assoc in *. cbn [parse_items].
  rewrite Hv; [|destruct l; cbn; auto|rewrite length_app in *; lia]. cbn [mbind option_bind fst snd].
  destruct (dumps_head b v Hok) as (cv & tv & Ev & _).
  destruct l as [|v2 l]; [reflexivity|].
  assert (exists c t, chars (join "," (map (dumps b) (v2 :: l))) = c :: t /\ json_space c = false) as (c & t & Et & Hc).
  { apply Forall_cons in Hl as [[Hok2 _] _]. destruct (dumps_head b v2 Hok2) as (c & t & E2 & Hc & _).
    cbn [map]. rewrite chars_join_cons, E2. by eexists _, _. }
  cbn [map] in *. cbn [chars app] in *. rewrite Ev in Hf. cbn [skip_ws length app] in *.
  change (json_space ",") with false. cbv iota. change (Ascii.eqb "," "]") with false.
  change (Ascii.eqb "," ",") with true. cbv iota. rewrite Et in *. cbn [app] in *. rewrite skip_ws_head by done.
  rewrite IH; [done..|]. rewrite length_app in Hf. cbn [length] in *. lia.
Qed.

Lemma quoted_chars b s : chars (quoted b s) = quote_char :: (chars s ≫= escape_char b) ++ [quote_char].
Proof. unfold quoted. by rewrite chars_of_chars. Qed.

Lemma member_chars b kv rest :
  chars (member_text b kv) ++ rest =
  quote_char :: (chars kv.1 ≫= escape_char b) ++ quote_char :: ":"%char :: chars (dumps b kv.2) ++ rest.
Proof.
  unfold member_text. rewrite !chars_app, quoted_chars. cbn [chars app]. rewrite <- !app_assoc. done.
Qed.

Lemma parse_members_dumps b l :
  Forall (fun kv => json_ok kv.2 /\ reads b kv.2) l -> l <> [] ->
  forall f rest, (2 * length (chars (join "," (map (member_text b) l)) ++ "}"%char :: rest) < f)%nat ->
  parse_members f (chars (join "," (map (member_text b) l)) ++ "}"%char :: rest)
  = Some (map (fun kv => (kv.1, sorted_json kv.2)) l, rest).
Proof.
  induction 1 as [|[k v] l [Hok Hv] Hl IH]; [done|]. intros _ [|f] rest Hf; [lia|].
  cbn [fst snd] in Hok, Hv. cbn [map] in *. rewrite chars_join_cons, <- app_assoc, member_chars in *. cbn [fst snd] in *.
  cbn [parse_members]. change (Ascii.eqb quote_char quote_char) with true. cbn [negb].
  rewrite parse_quoted. cbn [mbind option_bind fst snd].
  rewrite (skip_ws_head ":") by reflexivity. cbn [after].
  change (Ascii.eqb ":" ":") with true. cbv iota. cbn [mbind option_bind].
  destruct (dumps_head b v Hok) as (cv & tv & Ev & Hcv & _).
  assert (forall r, skip_ws (chars (dumps b v) ++ r) = chars (dumps b v) ++ r) as Hskip.
  { intros r. rewrite Ev. by apply skip_ws_head. }
  assert (forall r, stops r -> (length (chars (dumps b v) ++ r) <= length (chars (dumps b v) ++ match map (member_text b) l with [] => [] | _ => chars "," ++ chars (join "," (map (member_text b) l)) end ++ "}"%char :: rest))%nat -> parse_value f (chars (dumps b v) ++ r) = Some (sorted_json v, r)) as Hread.
  { intros r Hs Hlen. apply Hv; [done|]. cbn [length] in Hf. rewrite length_app in Hf. cbn [length] in Hf. lia. }
  rewrite Hskip.
  destruct l as [|kv2 l].
  { cbn [map app] in *. rewrite Hread by (cbn; auto). rewrite of_chars_chars. reflexivity. }
  cbn [map] in *. rewrite Hread; [|cbn; auto|done]. rewrite of_chars_chars. cbn [mbind option_bind fst snd chars app].
  rewrite (skip_ws_head ",") by reflexivity. change (Ascii.eqb "," "}") with false.
  change (Ascii.eqb "," ",") with true. cbv iota.
  assert (exists t, chars (join "," (member_text b kv2 :: map (member_text b) l)) = quote_char :: t) as [t Et].
  { rewrite chars_join_cons, member_chars. by eexists. }
  rewrite Et in *. cbn [app chars] in *. rewrite (skip_ws_head quote_char) by reflexivity.
  rewrite IH; [done..|]. cbn [length] in *. rewrite !length_app in Hf. cbn [length] in *. rewrite length_app in Hf.
  cbn [length] in *. lia.
Qed.

Lemma py_sorted_keys {V} (l : list (string * V)) : map fst (py_sorted pair_leb l) ≡ₚ map fst l.
Proof. apply (fmap_Permutation fst). apply py_sorted_perm. Qed.

Lemma reads_ok b v : json_ok v -> reads b v.
Proof.
  induction v as [|x|n|t|s|l IH|l IH] using json_nested_ind; intros Hok f rest Hs Hf;
    (destruct f as [|f]; [lia|]).
  - reflexivity.
  - by destruct x.
  - cbn [dumps sorted_json] in *. cbn [json_ok] in Hok.
    assert (exists c t, chars (py_str n) = c :: t /\ (digit c = true \/ c = "-"%char /\
              exists d u, t = d :: u /\ digit d = true)) as (c & t & E & Hc).
    { unfold py_str. destruct (Z.ltb_spec n 0); rewrite chars_of_chars.
      - destruct (dec_chars_head (- n)) as (d & u & -> & Hd); [lia|]. eexists _, _. split; [done|]. right. eauto.
      - destruct (dec_chars_head n) as (d & u & -> & Hd); [lia|]. eauto. }
    assert (parse_value (S f) (chars (py_str n) ++ rest) = parse_number (chars (py_str n) ++ rest)) as ->;
      [|by apply parse_number_py_str].
    rewrite E. cbn [app parse_value].
    destruct Hc as [Hc|(-> & d & u & -> & Hd)].
    + by destruct c as [[] [] [] [] [] [] [] []].
    + by destruct d as [[] [] [] [] [] [] [] []].
  - done.
  - cbn [dumps]. rewrite quoted_chars, <- app_comm_cons, <- app_assoc. cbn [app parse_value].
    change (Ascii.eqb quote_char quote_char) with true. cbv iota. rewrite parse_quoted. cbn.
    by rewrite of_chars_chars.
  - cbn [json_ok] in Hok. apply foldr_and in Hok.
    assert (Forall (fun v => json_ok v /\ reads b v) l) as Hl.
    { apply Forall_forall. intros v Hv. rewrite Forall_forall in IH, Hok. auto. }
    cbn [dumps] in *. rewrite !chars_app, <- !app_assoc in *. cbn [chars app parse_value] in *.
    change (Ascii.eqb "[" quote_char) with false. change (Ascii.eqb "[" "{") with false.
    change (Ascii.eqb "[" "[") with true. cbv iota.
    destruct l as [|v l]; [reflexivity|].
    assert (exists c t, chars (join "," (map (dumps b) (v :: l))) = c :: t /\ json_space c = false /\
              Ascii.eqb "]" c = false) as (c & t & E & Hc & Hb).
    { apply Forall_cons in Hok as [Hv _]. destruct (dumps_head b v Hv) as (c & t & E & Hc & Hb & _).
      cbn [map]. rewrite chars_join_cons, E. by eexists _, _. }
    assert (skip_ws (chars (join "," (map (dumps b) (v :: l))) ++ "]"%char :: rest) =
            chars (join "," (map (dumps b) (v :: l))) ++ "]"%char :: rest) as ->.
    { rewrite E. by apply skip_ws_head. }
    assert (after ["]"%char] (chars (join "," (map (dumps b) (v :: l))) ++ "]"%char :: rest) = None) as ->.
    { rewrite E. cbn. by rewrite Hb. }
    rewrite parse_items_dumps; [done..|]. cbn [length] in Hf. lia.
  - cbn [json_ok] in Hok. destruct Hok as [Hn Hok]. rewrite (foldr_and (fun kv : string * json => json_ok kv.2)) in Hok.
    rewrite dumps_obj, sorted_json_obj in *. set (sl := py_sorted pair_leb l) in *.
    assert (Forall (fun kv => json_ok kv.2 /\ reads b kv.2) sl) as Hl.
    { unfold sl. rewrite py_sorted_perm. apply Forall_forall. intros v Hv. rewrite Forall_forall in IH, Hok. auto. }
    assert (NoDup (map fst sl)) as Hns by (unfold sl; by rewrite py_sorted_keys).
    rewrite !chars_app, <- !app_assoc in *. cbn [chars app parse_value] in *.
    change (Ascii.eqb "{" quote_char) with false. change (Ascii.eqb "{" "{") with true. cbv iota.
    clearbody sl. destruct sl as [|kv sl]; [reflexivity|].
    assert (exists t, chars (join "," (map (member_text b) (kv :: sl))) = quote_char :: t) as [t E].
    { cbn [map]. rewrite chars_join_cons, member_chars. by eexists. }
    assert (skip_ws (chars (join "," (map (member_text b) (kv :: sl))) ++ "}"%char :: rest) =
            chars (join "," (map (member_text b) (kv :: sl))) ++ "}"%char :: rest) as ->.
    { rewrite E. by apply skip_ws_head. }
    assert (after ["}"%char] (chars (join "," (map (member_text b) (kv :: sl))) ++ "}"%char :: rest) = None) as ->.
    { by rewrite E. }
    rewrite parse_members_dumps; [|done|done|cbn [length] in Hf; lia]. cbn [mbind option_bind fst snd].
    rewrite dict_of_nodup; [done|]. rewrite map_map. cbn [fst]. done.
Qed.

Lemma loads_dumps b v : json_ok v -> loads (encode (dumps b v)) = Some (sorted_json v).
Proof.
  intros H. unfold loads.
  assert (utf8_decode (encode (dumps b v)) = Some (chars (dumps b v))) as ->.
  { pose proof (decode_encode (dumps b v)) as E. unfold decode in E.
    destruct (utf8_decode _) as [l|]; [|done]. injection E as <-. by rewrite chars_of_chars. }
  cbn [mbind option_bind]. unfold loads_text.
  assert (skip_ws (chars (dumps b v)) = chars (dumps b v)) as ->.
  { destruct (dumps_head b v H) as (c & t & -> & Hc & _). by apply skip_ws_head. }
  pose proof (reads_ok b v H (S (2 * length (chars (dumps b v)))) [] I) as R. rewrite !app_nil_r in R.
  rewrite R by lia. done.
Qed.
