(* ===== verification/JsonRead.v ===== *)
(** * Reading typed values out of JSON

    The helpers [_mapping], [_string], [_integer], ... that the codecs of
    [physical_plan.py] and [control/orchestration_serialization.py] share in
    spelling and differ in the error class they raise, here a parameter; and the
    lemmas that a value printed canonically is read back field by field. *)

From S2P Require Import Prelude Regex PyStr Sha256 PyTime Json JsonParse.

Local Open Scope string_scope.
Local Open Scope Z_scope.
Local Open Scope list_scope.

(** [values[k]]. *)
Definition field (k : string) (values : list (string * json)) : result json :=
  match assoc k values with Some v => Ok v | None => raise_ KeyError k end.

(** [envelope.get("schema") in schemas]; another type is never a member. *)
Definition schema_in (schemas : list string) (envelope : list (string * json)) : bool :=
  match assoc "schema" envelope with Some (JStr s) => bool_decide (s ∈ schemas) | _ => false end.

(** The bytes a reader gets: [json.loads]. *)
Definition json_loads (data : list Z) : result json :=
  match loads data with Some v => Ok v | None => raise_ ValueError "" end.

Section Readers.
Context (c : exn_class).

Definition mapping (v : json) (label : string) : result (list (string * json)) :=
  match v with JObj l => Ok l | _ => raise_ c (label +:+ " must be an object") end.
Definition sequence (v : json) (label : string) : result (list json) :=
  match v with JArr l => Ok l | _ => raise_ c (label +:+ " must be a list") end.
Definition string_ (v : json) (label : string) : result string :=
  match v with JStr s => Ok s | _ => raise_ c (label +:+ " must be a string") end.
Definition integer (v : json) (label : string) : result Z :=
  match v with JInt n => Ok n | _ => raise_ c (label +:+ " must be an integer") end.
Definition boolean (v : json) (label : string) : result bool :=
  match v with JBool b => Ok b | _ => raise_ c (label +:+ " must be a boolean") end.
Definition optional {A} (read : json -> string -> result A) (v : json) (label : string) : result (option A) :=
  match v with JNull => Ok None | _ => a ← read v label; Ok (Some a) end.
Definition optional_string : json -> string -> result (option string) := optional string_.
Definition optional_integer : json -> string -> result (option Z) := optional integer.

(** [tuple(f(x) for x in l)]. *)
Fixpoint read_all {A B} (f : A -> result B) (l : list A) : result (list B) :=
  match l with
  | [] => Ok []
  | x :: l => y ← f x; ys ← read_all f l; Ok (y :: ys)
  end.

Definition string_tuple (v : json) (label : string) : result (list string) :=
  l ← sequence v label; read_all (fun x => string_ x label) l.

(** [enum_type(_string(value, label))]: the member with that value; [wrong] is
    the message of another value. *)
Definition enum_or {A} (wrong : string) (members : list A) (value : A -> string) (v : json) (label : string) : result A :=
  match s ← string_ v label;
        (match find (fun m => bool_decide (value m = s)) members with
         | Some m => Ok m
         | None => raise_ ValueError s
         end) with
  | Ok m => Ok m
  | Raise e => if catches ValueError e then raise_ c (label +:+ wrong) else Raise e
  end.
Definition enum {A} : list A -> (A -> string) -> json -> string -> result A := enum_or " is unsupported".
End Readers.

(** [except Own: raise] and [except (KeyError, TypeError, ValueError): raise Own(m)]. *)
Definition reading {A} (own : exn_class) (m : string) (r : result A) : result A :=
  match r with
  | Ok a => Ok a
  | Raise e =>
      if catches own e then Raise e
      else if catches KeyError e || catches TypeError e || catches ValueError e then raise_ own m
      else Raise e
  end.

(** ** Canonical values are read back *)

(** The pairs of a canonical object after a round trip. *)
Definition sorted_fields (l : list (string * json)) : list (string * json) :=
  map (fun kv => (kv.1, sorted_json kv.2)) (py_sorted pair_leb l).

Lemma field_sorted l k v :
  has_dup (map fst l) = false -> assoc k l = Some v -> field k (sorted_fields l) = Ok (sorted_json v).
Proof.
  intros Hn%has_dup_false Hv. unfold field, sorted_fields.
  assert (assoc k (map (fun kv => (kv.1, sorted_json kv.2)) (py_sorted pair_leb l)) = Some (sorted_json v)) as ->; [|done].
  apply assoc_nodup.
  - rewrite map_map. cbn [fst]. rewrite (py_sorted_keys l). done.
  - apply (list_elem_of_fmap_2 (fun kv : string * json => (kv.1, sorted_json kv.2)) _ (k, v)).
    rewrite py_sorted_perm. by apply assoc_in.
Qed.

Lemma mapping_sorted c l label : mapping c (sorted_json (JObj l)) label = Ok (sorted_fields l).
Proof. by rewrite sorted_json_obj. Qed.

(** An absent key stays absent. *)
Lemma assoc_sorted_none l k : assoc k l = None -> assoc k (sorted_fields l) = None.
Proof.
  intros H. destruct (assoc k (sorted_fields l)) as [v|] eqn:E; [|done]. exfalso.
  assert (is_Some (assoc k (sorted_fields l))) as Hs%assoc_some_in by by eexists.
  unfold sorted_fields in Hs. rewrite map_map in Hs. cbn [fst] in Hs. rewrite (py_sorted_keys l) in Hs.
  apply assoc_some_in in Hs as [w Hw]. congruence.
Qed.

Lemma sorted_jopt {A} (f : A -> json) (o : option A) :
  sorted_json (jopt f o) = jopt (fun a => sorted_json (f a)) o.
Proof. by destruct o. Qed.

Lemma optional_jopt {A} (read : json -> string -> result A) (f : A -> json) (o : option A) label :
  (forall a, o = Some a -> f a <> JNull /\ read (f a) label = Ok a) ->
  optional read (jopt f o) label = Ok o.
Proof.
  destruct o as [a|]; [|done]. intros H. destruct (H a eq_refl) as [Hn Hr]. cbn [jopt].
  unfold optional. destruct (f a); try done; by rewrite Hr.
Qed.

Lemma optional_string_jopt c o label : optional_string c (jopt JStr o) label = Ok o.
Proof. by apply optional_jopt. Qed.
Lemma optional_integer_jopt c o label : optional_integer c (jopt JInt o) label = Ok o.
Proof. by apply optional_jopt. Qed.

Lemma enum_or_member {A} c wrong (members : list A) (value : A -> string) m label :
  m ∈ members -> (forall x y, value x = value y -> x = y) -> enum_or c wrong members value (JStr (value m)) label = Ok m.
Proof.
  intros Hm Hi. unfold enum_or. cbn [string_ mbind result_bind].
  assert (find (fun x => bool_decide (value x = value m)) members = Some m) as ->; [|done].
  induction members as [|x l IH]; [set_solver|]. cbn. case_bool_decide as E; [by rewrite (Hi _ _ E)|].
  apply IH. set_solver.
Qed.
Lemma enum_member {A} c (members : list A) (value : A -> string) m label :
  m ∈ members -> (forall x y, value x = value y -> x = y) -> enum c members value (JStr (value m)) label = Ok m.
Proof. apply enum_or_member. Qed.

Lemma read_all_map {A B C} (f : B -> result C) (g : A -> B) (h : A -> C) l :
  (forall x, x ∈ l -> f (g x) = Ok (h x)) -> read_all f (map g l) = Ok (map h l).
Proof.
  induction l as [|x l IH]; [done|]. intros H. cbn. rewrite H by left. cbn. rewrite IH; [done|]. set_solver.
Qed.

Lemma read_all_length {A B} (f : A -> result B) l ys : read_all f l = Ok ys -> length ys = length l.
Proof.
  revert ys; induction l as [|x l IH]; cbn; intros ys H.
  - by injection H as <-.
  - apply bind_ok in H as (y & _ & H). apply bind_ok in H as (zs & Hz & [= <-]). cbn. by rewrite (IH zs Hz).
Qed.

Lemma read_all_forall {A B} (f : A -> result B) (P : B -> Prop) l ys :
  (forall x y, f x = Ok y -> P y) -> read_all f l = Ok ys -> Forall P ys.
Proof.
  intros HP. revert ys; induction l as [|x l IH]; cbn; intros ys H; [injection H as <-; constructor|].
  apply bind_ok in H as (y & Hy & H). apply bind_ok in H as (ys' & Hys & [= <-]). constructor; eauto.
Qed.

Lemma string_tuple_strings c l label : string_tuple c (JArr (map sorted_json (JStr <$> l))) label = Ok l.
Proof.
  unfold string_tuple. cbn [sequence mbind result_bind].
  induction l as [|s l IH]; [done|]. cbn in *. by rewrite IH.
Qed.

Lemma reading_ok {A} own m (r : result A) a : r = Ok a -> reading own m r = Ok a.
Proof. by intros ->. Qed.
Lemma reading_ok_inv {A} own m (r : result A) a : reading own m r = Ok a -> r = Ok a.
Proof.
  destruct r as [x|e]; [done|]. unfold reading, raise_. destruct (catches own e); [done|]. by destruct (_ || _).
Qed.

(** Printing forgets the order of the fields. *)
Lemma dumps_sorted b v : json_ok v -> dumps b (sorted_json v) = dumps b v.
Proof.
  induction v as [|x|n|t|s|l IH|l IH] using json_nested_ind; intros Hok; try done; cbn [json_ok] in Hok.
  - cbn [dumps sorted_json]. do 3 f_equal. apply foldr_and in Hok. rewrite map_map. apply map_ext_in.
    intros v Hv%list_elem_of_In. rewrite Forall_forall in IH, Hok. auto.
  - destruct Hok as [Hn Hok]. rewrite (foldr_and (fun kv : string * json => json_ok kv.2)) in Hok.
    rewrite sorted_json_obj, !dumps_obj. do 3 f_equal.
    rewrite py_sorted_values, (py_sorted_id _ (py_sorted pair_leb l)).
    2:{ apply py_sorted_sorted; intros *; unfold pair_leb, key_leb; [apply leb_total|apply leb_trans]. }
    rewrite map_map. apply map_ext_in. intros [k v] Hv%list_elem_of_In. unfold member_text. cbn [fst snd].
    rewrite Forall_forall in IH, Hok. rewrite py_sorted_perm in Hv.
    by rewrite (IH (k, v) Hv (Hok (k, v) Hv) : dumps b (sorted_json v) = dumps b v).
Qed.

Lemma json_ok_sorted v : json_ok v -> json_ok (sorted_json v).
Proof.
  induction v as [|x|n|t|s|l IH|l IH] using json_nested_ind; intros Hok; try done.
  - cbn [sorted_json json_ok] in *. rewrite (foldr_and json_ok) in *. apply Forall_fmap.
    rewrite Forall_forall in IH, Hok |- *. intros v Hv. apply IH; auto.
  - rewrite sorted_json_obj. cbn [json_ok] in *. destruct Hok as [Hn Hok]. split.
    { rewrite map_map. cbn [fst]. by rewrite (py_sorted_keys l). }
    rewrite (foldr_and (fun kv : string * json => json_ok kv.2)) in *. apply Forall_fmap.
    rewrite py_sorted_perm. rewrite Forall_forall in IH, Hok |- *. intros kv Hkv. apply IH; auto.
Qed.

Lemma sorted_sorted v : sorted_json (sorted_json v) = sorted_json v.
Proof.
  induction v as [|x|n|t|s|l IH|l IH] using json_nested_ind; try done.
  - cbn [sorted_json]. f_equal. rewrite map_map. apply map_ext_in. intros v Hv. apply list_elem_of_In in Hv.
    rewrite Forall_forall in IH. auto.
  - rewrite !sorted_json_obj. f_equal. rewrite py_sorted_values.
    rewrite (py_sorted_id _ (py_sorted pair_leb l)).
    2:{ apply py_sorted_sorted; intros *; unfold pair_leb, key_leb; [apply leb_total|apply leb_trans]. }
    rewrite map_map. apply map_ext_in. intros [k v] Hv. apply list_elem_of_In in Hv. rewrite py_sorted_perm in Hv.
    cbn [fst snd]. f_equal. rewrite Forall_forall in IH. exact (IH (k, v) Hv).
Qed.

(** One step of a reader. *)
Lemma bind_get {A B} (m : result A) (f : A -> result B) a r : m = Ok a -> f a = r -> (m ≫= f) = r.
Proof. by intros ->. Qed.

(** Reads the next field of a canonical object. *)
Ltac read_field :=
  first [rewrite mapping_sorted | erewrite field_sorted; [|vm_compute; reflexivity|reflexivity]
        | rewrite string_tuple_strings | rewrite sorted_jopt | rewrite optional_string_jopt
        | rewrite optional_integer_jopt];
  cbn [mbind result_bind sorted_json string_ integer boolean sequence].

(** Values built from the printers' own constructors are [json_ok]. *)
Lemma json_ok_obj l :
  has_dup (map fst l) = false -> Forall (fun kv => json_ok kv.2) l -> json_ok (JObj l).
Proof.
  intros Hd H. cbn [json_ok]. split; [by apply has_dup_false|]. by apply (foldr_and (fun kv : string * json => json_ok kv.2)).
Qed.
Lemma json_ok_arr l : Forall json_ok l -> json_ok (JArr l).
Proof. intros H. by apply foldr_and. Qed.
Lemma json_ok_strings l : json_ok (JArr (JStr <$> l)).
Proof. apply json_ok_arr. induction l; constructor; done. Qed.
Lemma json_ok_jopt {A} (f : A -> json) o : (forall a, o = Some a -> json_ok (f a)) -> json_ok (jopt f o).
Proof. destruct o; cbn; auto. Qed.
Lemma json_ok_bounded n : 0 <= n <= 9223372036854775807 -> json_ok (JInt n).
Proof. intros H. cbn. eapply Z.le_lt_trans; [|apply (Z.pow_lt_mono_r 2 64 4000); lia]. lia. Qed.

Lemma json_loads_canonical v : json_ok v -> json_loads (encode (dumps_unicode v)) = Ok (sorted_json v).
Proof. intros H. unfold json_loads, dumps_unicode. by rewrite loads_dumps. Qed.

Lemma encode_nonempty c s : encode (String c s) <> [].
Proof. unfold encode. cbn. unfold utf8_char. by destruct (_ <? _). Qed.

(** The schema field of a canonical envelope. *)
Lemma schema_in_sorted schemas l s :
  has_dup (map fst l) = false -> assoc "schema" l = Some (JStr s) -> s ∈ schemas ->
  schema_in schemas (sorted_fields l) = true.
Proof.
  intros Hd Hs Hin. pose proof (field_sorted l "schema" _ Hd Hs) as H. unfold field in H. unfold schema_in.
  destruct (assoc "schema" (sorted_fields l)); [|done]. injection H as ->. cbn. by apply bool_decide_eq_true.
Qed.

Ltac json_ok_fields :=
  apply json_ok_obj; [vm_compute; reflexivity|]; repeat (apply Forall_cons; split); cbn [snd];
  try apply Forall_nil_2; try exact I; try apply json_ok_strings.

(** ** How long a canonical text is, at most *)

Lemma escape_length b c : (length (escape_char b c) <= 6)%nat.
Proof. destruct b, c as [[] [] [] [] [] [] [] []]; vm_compute; lia. Qed.

Lemma quoted_length b s : (length (chars (quoted b s)) <= 2 + 6 * String.length s)%nat.
Proof.
  rewrite quoted_chars. cbn [length]. rewrite length_app. cbn [length]. rewrite <- length_chars.
  induction (chars s) as [|c l IH]; [done|]. rewrite bind_cons, length_app. cbn [length].
  pose proof (escape_length b c). lia.
Qed.

Lemma encode_length s : (length (encode s) <= 2 * length (chars s))%nat.
Proof.
  unfold encode. induction (chars s) as [|c l IH]; [done|]. rewrite bind_cons, length_app. cbn [length].
  assert (length (utf8_char c) <= 2)%nat by (unfold utf8_char; destruct (_ <? _); cbn; lia). lia.
Qed.

Definition total (l : list nat) : nat := foldr Nat.add O l.

#[export] Instance total_perm : Proper ((≡ₚ) ==> eq) total.
Proof. unfold total. induction 1; cbn in *; lia. Qed.

Lemma join_length sep ts :
  (length (chars (join sep ts)) <= total (map (fun t => length (chars t) + String.length sep)%nat ts))%nat.
Proof.
  induction ts as [|t ts IH]; [done|]. rewrite chars_join_cons, length_app. cbn [map total foldr].
  destruct ts; [cbn; lia|]. rewrite length_app, (length_chars sep). unfold total in IH. lia.
Qed.

Lemma dumps_obj_length b l :
  (length (chars (dumps b (JObj l))) <= 2 + total (map (fun kv => length (chars (member_text b kv)) + 1) l))%nat.
Proof.
  rewrite dumps_obj, !chars_app, !length_app. cbn [chars length].
  pose proof (join_length "," (map (member_text b) (py_sorted pair_leb l))) as H.
  rewrite map_map in H. cbn [String.length] in H.
  rewrite <- (fmap_Permutation (fun kv => length (chars (member_text b kv)) + 1)%nat _ _ (py_sorted_perm pair_leb l)).
  unfold fmap, list_fmap in *.
  etrans; [|apply Nat.add_le_mono_l; exact H]. lia.
Qed.

Lemma member_length b k v :
  (length (chars (member_text b (k, v))) <= 3 + 6 * String.length k + length (chars (dumps b v)))%nat.
Proof.
  unfold member_text. rewrite !chars_app, !length_app. cbn [fst snd chars length].
  pose proof (quoted_length b k). lia.
Qed.

Lemma int_length n : 0 <= n <= 9223372036854775807 -> (length (chars (py_str n)) <= 19)%nat.
Proof.
  intros H. unfold py_str. destruct (Z.ltb_spec n 0); [lia|]. rewrite chars_of_chars. unfold dec_chars.
  rewrite length_fmap. apply dec_digits_length; [|lia]. cbn. lia.
Qed.
