(* ===== verification/Base64.v ===== *)
(** * URL-safe base 64 ([base64.urlsafe_b64encode], and the decodings of page
    cursors)

    [b64_decode] reads canonical texts only, for the cursors the source re-encodes
    after decoding, where the laxer texts the standard decoder accepts make no
    difference; [b64_decode_any] is the standard decoder in full. *)

From S2P Require Import Prelude Regex PyStr Sha256.

Local Open Scope Z_scope.
Local Open Scope list_scope.

Definition b64_alphabet : list ascii :=
  chars "ABCDEFGHIJKLMNOPQRSTUVWXYZabcdefghijklmnopqrstuvwxyz0123456789-_".

Definition b64_char (n : Z) : ascii := default "="%char (b64_alphabet !! Z.to_nat n).

Fixpoint index_of (c : ascii) (l : list ascii) (k : Z) : option Z :=
  match l with [] => None | d :: l => if Ascii.eqb c d then Some k else index_of c l (k + 1) end.
Definition b64_value (c : ascii) : option Z := index_of c b64_alphabet 0.

Fixpoint b64_encode (l : list Z) : list ascii :=
  match l with
  | a :: b :: c :: l =>
      b64_char (a / 4) :: b64_char (a mod 4 * 16 + b / 16) :: b64_char (b mod 16 * 4 + c / 64) ::
      b64_char (c mod 64) :: b64_encode l
  | [a; b] => [b64_char (a / 4); b64_char (a mod 4 * 16 + b / 16); b64_char (b mod 16 * 4); "="%char]
  | [a] => [b64_char (a / 4); b64_char (a mod 4 * 16); "="%char; "="%char]
  | [] => []
  end.

Fixpoint b64_decode (l : list ascii) : option (list Z) :=
  match l with
  | [] => Some []
  | p :: q :: r :: s :: l =>
      a ← b64_value p; b ← b64_value q;
      match b64_value r, b64_value s with
      | Some c, Some d =>
          t ← b64_decode l; Some (a * 4 + b / 16 :: b mod 16 * 16 + c / 4 :: c mod 4 * 64 + d :: t)
      | Some c, None =>
          if Ascii.eqb s "=" && bool_decide (l = []) then Some [a * 4 + b / 16; b mod 16 * 16 + c / 4] else None
      | None, None =>
          if Ascii.eqb r "=" && Ascii.eqb s "=" && bool_decide (l = []) then Some [a * 4 + b / 16] else None
      | None, Some _ => None
      end
  | _ => None
  end.

(** [base64.b64decode(cursor, altchars=b"-_", validate=True)]: both alphabets are
    accepted and the unused bits of the last character are dropped.  The
    arguments of [a2b] are the position in the group of four, the bits left
    over, the padding characters counted, and whether padding has begun. *)
Definition b64_any_value (c : ascii) : option Z :=
  if Ascii.eqb c "+" then Some 62 else if Ascii.eqb c "/" then Some 63 else b64_value c.

Fixpoint a2b (quad : nat) (left : Z) (pads : nat) (padded : bool) (l : list ascii) : option (list Z) :=
  match l with
  | [] => match quad with O => Some [] | _ => None end
  | c :: l =>
      if Ascii.eqb c "=" then
        if (2 <=? quad)%nat && (4 <=? quad + S pads)%nat then match l with [] => Some [] | _ => None end
        else a2b quad left (if (2 <=? quad)%nat then S pads else pads) true l
      else
        v ← b64_any_value c;
        if padded then None
        else match quad with
             | O => a2b 1 v 0 false l
             | 1%nat => t ← a2b 2 (v mod 16) 0 false l; Some (left * 4 + v / 16 :: t)
             | 2%nat => t ← a2b 3 (v mod 4) 0 false l; Some (left * 16 + v / 4 :: t)
             | _ => t ← a2b 0 0 0 false l; Some (left * 64 + v :: t)
             end
  end.
Definition b64_decode_any (l : list ascii) : option (list Z) :=
  match l with
  | c :: _ => if Ascii.eqb c "=" then None else a2b 0 0 0 false l
  | [] => Some []
  end.

Lemma b64_value_char n : 0 <= n < 64 -> b64_value (b64_char n) = Some n.
Proof.
  intros H. rewrite <- (Z2Nat.id n) by lia. assert (Z.to_nat n < 64)%nat as Hn by lia.
  generalize dependent (Z.to_nat n). clear. intros n Hn. do 64 (destruct n as [|n]; [reflexivity|]). lia.
Qed.

Lemma b64_decode_encode l : Forall (fun a => 0 <= a < 256) l -> b64_decode (b64_encode l) = Some l.
Proof.
  induction l as [l IH] using (well_founded_induction (Wf_nat.well_founded_ltof _ (@length Z))).
  unfold Wf_nat.ltof in IH. intros Hl. destruct l as [|a [|b [|c l]]]; [done|..]; cbn [b64_encode b64_decode].
  - apply Forall_cons in Hl as [Ha _]. rewrite !b64_value_char by (Z.div_mod_to_equations; lia).
    cbn [mbind option_bind]. change (b64_value "=") with (@None Z). cbn. do 2 f_equal. Z.div_mod_to_equations; lia.
  - apply Forall_cons in Hl as [Ha Hl]. apply Forall_cons in Hl as [Hb _].
    rewrite !b64_value_char by (Z.div_mod_to_equations; lia).
    cbn [mbind option_bind]. change (b64_value "=") with (@None Z). cbn.
    do 2 f_equal; [Z.div_mod_to_equations; lia|f_equal; Z.div_mod_to_equations; lia].
  - apply Forall_cons in Hl as [Ha Hl]. apply Forall_cons in Hl as [Hb Hl]. apply Forall_cons in Hl as [Hc Hl].
    rewrite !b64_value_char by (Z.div_mod_to_equations; lia). cbn [mbind option_bind].
    rewrite IH; [|cbn; lia|done]. cbn [mbind option_bind].
    do 2 f_equal; [Z.div_mod_to_equations; lia|f_equal; [Z.div_mod_to_equations; lia|f_equal; Z.div_mod_to_equations; lia]].
Qed.
