(* ===== verification/Identifiers.v ===== *)
(** * Identifier grammars

    The patterns [control/orchestration.py] declares (and the other Control
    modules repeat), with the facts the rest of the development uses: digests
    have the digest shape, and no identifier contains a separator. *)

From S2P Require Import Prelude Regex PyStr Sha256.

Local Open Scope char_scope.

Definition lower_digit : ascii -> bool := either lower digit.

(** [^[a-z0-9][a-z0-9_-]{0,62}$] *)
Definition PORTABLE_ID : re := head_tail lower_digit (either lower_digit (one_of "_-")) 0 62.
(** [^[A-Za-z0-9][A-Za-z0-9._:-]{0,127}$] *)
Definition OPAQUE_ID : re := head_tail alnum (either alnum (one_of "._:-")) 0 127.
(** [^[A-Za-z0-9][A-Za-z0-9._:-]{7,127}$] *)
Definition IDEMPOTENCY_KEY : re := head_tail alnum (either alnum (one_of "._:-")) 7 127.
(** [^[0-9a-f]{64}$] *)
Definition SHA256 : re := exactly 64 (Cls lower_hex).

Definition portable_id (s : string) : bool := fullmatch PORTABLE_ID s.
Definition opaque_id (s : string) : bool := fullmatch OPAQUE_ID s.
Definition idempotency_key (s : string) : bool := fullmatch IDEMPOTENCY_KEY s.
Definition is_sha256 (s : string) : bool := fullmatch SHA256 s.

(** ** What the grammars accept *)

Lemma is_sha256_spec s :
  is_sha256 s = true <-> length (chars s) = 64 /\ all_chars lower_hex (chars s) = true.
Proof. unfold is_sha256. rewrite fullmatch_spec. apply matches_exactly_cls. Qed.

Lemma sha256_hex_is_sha256 b : is_sha256 (sha256_hex b) = true.
Proof. apply is_sha256_spec, sha256_hex_shape. Qed.

Lemma portable_id_spec s :
  portable_id s = true <->
  exists c l, chars s = c :: l /\ lower_digit c = true /\ length l <= 62 /\
              all_chars (either lower_digit (one_of "_-")) l = true.
Proof.
  unfold portable_id, PORTABLE_ID. rewrite fullmatch_head_tail by lia.
  split; intros (c & l & ? & ? & ? & ?); exists c, l; split_and!; auto; lia.
Qed.

Lemma opaque_id_spec s :
  opaque_id s = true <->
  exists c l, chars s = c :: l /\ alnum c = true /\ length l <= 127 /\
              all_chars (either alnum (one_of "._:-")) l = true.
Proof.
  unfold opaque_id, OPAQUE_ID. rewrite fullmatch_head_tail by lia.
  split; intros (c & l & ? & ? & ? & ?); exists c, l; split_and!; auto; lia.
Qed.

(** A class that excludes a separator excludes it from the whole word. *)
Lemma all_chars_excludes f sep l :
  f sep = false -> all_chars f l = true -> existsb (Ascii.eqb sep) l = false.
Proof.
  intros Hs. induction l as [|c l IH]; cbn; [done|].
  intros [Hc Hl]%andb_true_iff. apply orb_false_iff. split; [|by apply IH].
  apply Ascii.eqb_neq. intros <-. congruence.
Qed.

Lemma all_chars_impl (f g : ascii -> bool) l :
  (forall c, f c = true -> g c = true) -> all_chars f l = true -> all_chars g l = true.
Proof.
  intros H. unfold all_chars. rewrite !forallb_Forall. intros Hl. by eapply Forall_impl.
Qed.

Lemma either_l f g c : f c = true -> either f g c = true.
Proof. unfold either. by intros ->. Qed.

Lemma either_r f g c : g c = true -> either f g c = true.
Proof. unfold either. intros ->. apply orb_true_r. Qed.

Lemma portable_id_chars s :
  portable_id s = true -> all_chars (either lower_digit (one_of "_-")) (chars s) = true.
Proof.
  intros (c & l & -> & Hc & _ & Hl)%portable_id_spec. cbn.
  apply andb_true_iff. split; [by apply either_l|done].
Qed.

Lemma portable_id_no_comma s : portable_id s = true -> has_char "," s = false.
Proof. intros ?%portable_id_chars. unfold has_char. by eapply all_chars_excludes; [|eassumption]. Qed.

Lemma portable_id_no_colon s : portable_id s = true -> has_char ":" s = false.
Proof. intros ?%portable_id_chars. unfold has_char. by eapply all_chars_excludes; [|eassumption]. Qed.

Lemma sha256_no_comma s : is_sha256 s = true -> has_char "," s = false.
Proof. intros [_ ?]%is_sha256_spec. unfold has_char. by eapply all_chars_excludes; [|eassumption]. Qed.

Lemma sha256_no_colon s : is_sha256 s = true -> has_char ":" s = false.
Proof. intros [_ ?]%is_sha256_spec. unfold has_char. by eapply all_chars_excludes; [|eassumption]. Qed.

Lemma lower_hex_alnum c : lower_hex c = true -> alnum c = true.
Proof.
  unfold lower_hex, alnum, either, range. rewrite !orb_true_iff, !andb_true_iff, !N.leb_le.
  change (code "0") with 48%N. change (code "9") with 57%N. change (code "a") with 97%N.
  change (code "f") with 102%N. unfold lower, upper, digit, range. rewrite !andb_true_iff, !N.leb_le.
  change (code "0") with 48%N. change (code "9") with 57%N. change (code "a") with 97%N.
  change (code "z") with 122%N. lia.
Qed.

#[export] Hint Resolve sha256_hex_is_sha256 portable_id_no_comma portable_id_no_colon
  sha256_no_comma sha256_no_colon : dander.
