(* ===== verification/Projection.v ===== *)
(** * Execution templates ([deployment/projection.py])

    The immutable launcher input an execution plan embeds, its construction
    checks and the launcher capability check. *)

From S2P Require Import Prelude Regex PyStr Sha256 Json Identifiers.

Local Open Scope string_scope.
Local Open Scope Z_scope.

Definition EXECUTION_PROJECTION_SCHEMA : string := "io.dander.execution/v1".
Definition RUNTIME_CONTRACT : string := "io.dander.runtime/v1".

(** ** Patterns *)

Definition image_host : ascii -> bool := either lower_digit (one_of ".-").
Definition image_path : ascii -> bool := either alnum (one_of "._/-").
Definition IMMUTABLE_IMAGE : re :=
  Cat (plus (Cls image_host))
    (Cat (opt (Cat (lit ":") (between 1 5 (Cls digit))))
      (Cat (lit "/") (Cat (plus (Cls image_path)) (Cat (lit "@sha256:") (exactly 64 (Cls lower_hex)))))).
Definition PROFILE : re := head_tail lower (either lower_digit (one_of "_-")) 0 62.
Definition ENVIRONMENT_NAME : re := Cat (Cls upper) (Star (Cls (either upper (either digit (one_of "_"))))).
Definition GCP_PROJECT : re :=
  Cat (Cls lower) (Cat (between 4 28 (Cls (either lower_digit (one_of "-")))) (Cls lower_digit)).
Definition GCP_SECRET_REFERENCE : re :=
  Cat (lit "gcp-sm://projects/") (Cat GCP_PROJECT
    (Cat (lit "/secrets/") (Cat (head_tail (either lower upper) (either alnum (one_of "_-")) 0 254)
      (Cat (lit "/versions/")
        (Alt (lit "latest") (Cat (Cls (range "1" "9")) (Star (Cls digit)))))))).
Definition REFERENCE : re := head_tail alnum (either alnum (one_of "._:/@+=-")) 0 1023.

Definition SECRET_SCHEMES : list (string * string) :=
  [("environment", "env://"); ("gcp_secret_manager", "gcp-sm://"); ("aws_secret_manager", "aws-sm://");
   ("azure_key_vault", "azure-kv://"); ("oci_vault", "oci-vault://")].

(** ** Data *)

Record SecretReference : Type := { sr_provider : string; sr_reference : string }.
#[export] Instance SecretReference_eq_dec : EqDecision SecretReference.
Proof. solve_decision. Defined.

Definition SecretReference_post_init (s : SecretReference) : result unit :=
  let scheme := assoc (sr_provider s) SECRET_SCHEMES in
  _ ← reject_if
        (match scheme with None => true | Some p => negb (startswith p (sr_reference s)) end
         || negb (fullmatch REFERENCE (sr_reference s)))
        ExecutionProjectionError "invalid secret reference";
  reject_if
    (bool_decide (sr_provider s = "gcp_secret_manager")
     && negb (fullmatch GCP_SECRET_REFERENCE (sr_reference s)))
    ExecutionProjectionError "invalid GCP Secret Manager reference".

Record ResourceProjection : Type := {
  rp_cpu_millis : Z;
  rp_memory_mib : Z;
  rp_ephemeral_storage_mib : option Z;
  rp_deadline_seconds : Z;
  rp_runtime_retry_count : Z;
  rp_launcher_retry_count : Z;
}.
#[export] Instance ResourceProjection_eq_dec : EqDecision ResourceProjection.
Proof. solve_decision. Defined.

Definition ResourceProjection_post_init (r : ResourceProjection) : result unit :=
  _ ← when_some (rp_ephemeral_storage_mib r) (fun v =>
        reject_if (v <? 1) ExecutionProjectionError "ephemeral storage must be a positive MiB quantity");
  _ ← reject_if (Z.min (rp_cpu_millis r) (Z.min (rp_memory_mib r) (rp_deadline_seconds r)) <? 1)
        ExecutionProjectionError "CPU, memory, and deadline must be positive";
  reject_if (Z.min (rp_runtime_retry_count r) (rp_launcher_retry_count r) <? 0)
    ExecutionProjectionError "retry counts must not be negative".

Record ScheduleProjection : Type := {
  sp_task_count : Z;
  sp_maximum_parallelism : Z;
  sp_expression : option string;
  sp_time_zone : option string;
  sp_paused : bool;
}.
#[export] Instance ScheduleProjection_eq_dec : EqDecision ScheduleProjection.
Proof. solve_decision. Defined.

Definition ScheduleProjection_post_init (s : ScheduleProjection) : result unit :=
  _ ← reject_if
        ((sp_task_count s <? 1) || (sp_maximum_parallelism s <? 1)
         || (sp_task_count s <? sp_maximum_parallelism s))
        ExecutionProjectionError "task count and parallelism are inconsistent";
  _ ← reject_if (negb (Bool.eqb (is_none (sp_expression s)) (is_none (sp_time_zone s))))
        ExecutionProjectionError "schedule and time zone must be supplied together";
  when_some (sp_expression s) (fun e =>
    reject_if
      (blank e || match sp_time_zone s with None => true | Some z => empty z || blank z end)
      ExecutionProjectionError "schedule and time zone must not be blank").

(** [_validate_pairs]: the keys are strictly increasing and none is empty. *)
Definition validate_pairs {V} (values : list (string * V)) (label : string) : result (list string) :=
  let keys := map fst values in
  _ ← reject_if (negb (canonical_strings keys) || existsb empty keys)
        ExecutionProjectionError (label +:+ " names must be unique and sorted");
  Ok keys.

Record NetworkPlacement : Type := {
  np_placement : option string;
  np_extensions : list (string * string);
}.
#[export] Instance NetworkPlacement_eq_dec : EqDecision NetworkPlacement.
Proof. solve_decision. Defined.

Definition NetworkPlacement_post_init (n : NetworkPlacement) : result unit :=
  _ ← validate_pairs (np_extensions n) "network extension"; Ok tt.

Record ObservabilityProjection : Type := {
  op_log_destination : string;
  op_metric_namespace : string;
  op_alert_target : option string;
  op_retention_days : option Z;
}.
#[export] Instance ObservabilityProjection_eq_dec : EqDecision ObservabilityProjection.
Proof. solve_decision. Defined.

Definition ObservabilityProjection_post_init (o : ObservabilityProjection) : result unit :=
  _ ← reject_if (blank (op_log_destination o) || blank (op_metric_namespace o))
        ExecutionProjectionError "log and metric destinations must not be blank";
  when_some (op_retention_days o) (fun d =>
    reject_if (d <? 1) ExecutionProjectionError "log retention must be a positive day count").

Record ExecutionTemplate : Type := {
  et_schema : string;
  et_contract : string;
  et_pipeline_id : string;
  et_profile_id : string;
  et_launcher : string;
  et_image : string;
  et_command : list string;
  et_configuration_reference : string;
  et_environment : list (string * string);
  et_secret_bindings : list (string * SecretReference);
  et_workload_identity : string;
  et_resources : ResourceProjection;
  et_schedule : ScheduleProjection;
  et_network : NetworkPlacement;
  et_labels : list (string * string);
  et_observability : ObservabilityProjection;
  et_extensions : list (string * string);
}.
#[export] Instance ExecutionTemplate_eq_dec : EqDecision ExecutionTemplate.
Proof. solve_decision. Defined.

Definition expected_command (t : ExecutionTemplate) : list string :=
  ["runtime"; "execute"; "--contract"; et_contract t; "--pipeline"; et_pipeline_id t;
   "--platform"; et_profile_id t].

Definition ExecutionTemplate_post_init (t : ExecutionTemplate) : result unit :=
  let fail := ExecutionProjectionError in
  _ ← reject_if (negb (bool_decide (et_schema t = EXECUTION_PROJECTION_SCHEMA))
                 || negb (bool_decide (et_contract t = RUNTIME_CONTRACT)))
        fail "unsupported execution projection contract";
  _ ← reject_if (negb (opaque_id (et_pipeline_id t)) || negb (fullmatch PROFILE (et_profile_id t)))
        fail "invalid pipeline or profile identifier";
  _ ← reject_if (negb (fullmatch PROFILE (et_launcher t))) fail "invalid launcher identifier";
  _ ← reject_if (negb (fullmatch IMMUTABLE_IMAGE (et_image t)))
        fail "execution image must use an immutable sha256 digest";
  _ ← reject_if (match et_command t with [] => true | c => existsb empty c end)
        fail "execution command must not be empty";
  _ ← reject_if (negb (bool_decide (take (length (expected_command t)) (et_command t) = expected_command t)))
        fail "execution command does not match projection identity";
  _ ← reject_if
        (negb (startswith "/" (et_configuration_reference t)
               || existsb (fun p => startswith p (et_configuration_reference t))
                    ["gs://"; "s3://"; "az://"; "oci://"]))
        fail "configuration reference must be a path or object URI";
  _ ← reject_if (blank (et_workload_identity t) || (512 <? py_len (et_workload_identity t)))
        fail "workload identity must not be blank";
  environment_names ← validate_pairs (et_environment t) "environment";
  secret_names ← validate_pairs (et_secret_bindings t) "secret binding";
  _ ← reject_if (existsb (fun n => negb (fullmatch ENVIRONMENT_NAME n)) (environment_names ++ secret_names))
        fail "environment names must use uppercase shell syntax";
  _ ← reject_if (existsb (fun n => bool_decide (n ∈ secret_names)) environment_names)
        fail "secret and non-secret environment names overlap";
  _ ← validate_pairs (et_labels t) "label";
  _ ← validate_pairs (et_extensions t) "extension";
  Ok tt.

(** ** [as_dict] *)

Definition json_pairs (l : list (string * string)) : json := JObj (dict_of (prod_map id JStr <$> l)).

Definition SecretReference_dict (s : SecretReference) : json :=
  JObj [("provider", JStr (sr_provider s)); ("reference", JStr (sr_reference s))].

Definition ResourceProjection_dict (r : ResourceProjection) : json :=
  JObj [("cpu_millis", JInt (rp_cpu_millis r));
        ("memory_mib", JInt (rp_memory_mib r));
        ("ephemeral_storage_mib", jopt JInt (rp_ephemeral_storage_mib r));
        ("deadline_seconds", JInt (rp_deadline_seconds r));
        ("runtime_retry_count", JInt (rp_runtime_retry_count r));
        ("launcher_retry_count", JInt (rp_launcher_retry_count r))].

Definition ScheduleProjection_dict (s : ScheduleProjection) : json :=
  JObj [("task_count", JInt (sp_task_count s));
        ("maximum_parallelism", JInt (sp_maximum_parallelism s));
        ("expression", jopt JStr (sp_expression s));
        ("time_zone", jopt JStr (sp_time_zone s));
        ("paused", JBool (sp_paused s))].

Definition ObservabilityProjection_dict (o : ObservabilityProjection) : json :=
  JObj [("log_destination", JStr (op_log_destination o));
        ("metric_namespace", JStr (op_metric_namespace o));
        ("alert_target", jopt JStr (op_alert_target o));
        ("retention_days", jopt JInt (op_retention_days o))].

Definition as_dict (t : ExecutionTemplate) : json :=
  JObj [("schema", JStr (et_schema t));
        ("contract", JStr (et_contract t));
        ("pipeline_id", JStr (et_pipeline_id t));
        ("profile_id", JStr (et_profile_id t));
        ("launcher", JStr (et_launcher t));
        ("image", JStr (et_image t));
        ("command", JArr (JStr <$> et_command t));
        ("configuration_reference", JStr (et_configuration_reference t));
        ("environment", json_pairs (et_environment t));
        ("secret_bindings", JObj (dict_of (prod_map id SecretReference_dict <$> et_secret_bindings t)));
        ("workload_identity", JStr (et_workload_identity t));
        ("resources", ResourceProjection_dict (et_resources t));
        ("schedule", ScheduleProjection_dict (et_schedule t));
        ("network", JObj [("placement", jopt JStr (np_placement (et_network t)));
                          ("extensions", json_pairs (np_extensions (et_network t)))]);
        ("labels", json_pairs (et_labels t));
        ("observability", ObservabilityProjection_dict (et_observability t));
        ("extensions", json_pairs (et_extensions t))].

(** ** Launcher limits *)

Record LauncherCapabilities : Type := {
  lc_launcher : string;
  lc_cpu_millis : list Z;
  lc_minimum_memory_mib : Z;
  lc_maximum_memory_mib : Z;
  lc_maximum_deadline_seconds : Z;
  lc_maximum_launcher_retries : Z;
  lc_maximum_task_count : Z;
  lc_maximum_parallelism : Z;
  lc_supports_ephemeral_storage : bool;
  lc_supports_schedules : bool;
  lc_supports_time_zones : bool;
  lc_supports_network_placement : bool;
  lc_extension_names : list string;
}.

Definition CLOUD_RUN_CAPABILITIES : LauncherCapabilities := {|
  lc_launcher := "cloud_run"; lc_cpu_millis := [1000; 2000; 4000; 6000; 8000];
  lc_minimum_memory_mib := 128; lc_maximum_memory_mib := 32768;
  lc_maximum_deadline_seconds := 86400; lc_maximum_launcher_retries := 10;
  lc_maximum_task_count := 1; lc_maximum_parallelism := 1;
  lc_supports_ephemeral_storage := false; lc_supports_schedules := true;
  lc_supports_time_zones := true; lc_supports_network_placement := false;
  lc_extension_names := [] |}.

Definition FARGATE_CAPABILITIES : LauncherCapabilities := {|
  lc_launcher := "fargate"; lc_cpu_millis := [1000; 2000; 4000; 8000; 16000];
  lc_minimum_memory_mib := 512; lc_maximum_memory_mib := 122880;
  lc_maximum_deadline_seconds := 86400; lc_maximum_launcher_retries := 10;
  lc_maximum_task_count := 1; lc_maximum_parallelism := 1;
  lc_supports_ephemeral_storage := true; lc_supports_schedules := true;
  lc_supports_time_zones := true; lc_supports_network_placement := true;
  lc_extension_names := ["fargate_architecture"; "fargate_assign_public_ip"; "fargate_security_group_ids";
                         "fargate_stop_timeout_seconds"; "fargate_subnet_ids"] |}.

Definition KUBERNETES_CAPABILITIES : LauncherCapabilities := {|
  lc_launcher := "kubernetes"; lc_cpu_millis := [1000; 2000; 4000; 6000; 8000];
  lc_minimum_memory_mib := 128; lc_maximum_memory_mib := 1048576;
  lc_maximum_deadline_seconds := 86400; lc_maximum_launcher_retries := 10;
  lc_maximum_task_count := 1; lc_maximum_parallelism := 1;
  lc_supports_ephemeral_storage := true; lc_supports_schedules := true;
  lc_supports_time_zones := true; lc_supports_network_placement := false;
  lc_extension_names := [] |}.

Definition AZURE_CONTAINER_APPS_CAPABILITIES : LauncherCapabilities := {|
  lc_launcher := "azure_container_apps"; lc_cpu_millis := [1000; 2000];
  lc_minimum_memory_mib := 2048; lc_maximum_memory_mib := 4096;
  lc_maximum_deadline_seconds := 86400; lc_maximum_launcher_retries := 10;
  lc_maximum_task_count := 1; lc_maximum_parallelism := 1;
  lc_supports_ephemeral_storage := false; lc_supports_schedules := true;
  lc_supports_time_zones := true; lc_supports_network_placement := true;
  lc_extension_names := ["azure_acr_login_server"; "azure_key_vault_uri"; "azure_managed_identity_client_id"] |}.

Definition OCI_CONTAINER_INSTANCES_CAPABILITIES : LauncherCapabilities := {|
  lc_launcher := "oci_container_instances"; lc_cpu_millis := [1000; 2000; 4000; 6000; 8000];
  lc_minimum_memory_mib := 1024; lc_maximum_memory_mib := 1540096;
  lc_maximum_deadline_seconds := 3300; lc_maximum_launcher_retries := 10;
  lc_maximum_task_count := 1; lc_maximum_parallelism := 1;
  lc_supports_ephemeral_storage := false; lc_supports_schedules := true;
  lc_supports_time_zones := true; lc_supports_network_placement := true;
  lc_extension_names := ["oci_assign_public_ip"; "oci_availability_domain"; "oci_compartment_id";
                         "oci_graceful_shutdown_seconds"; "oci_registry_endpoint"; "oci_restart_policy";
                         "oci_shape"; "oci_tenancy_id"; "oci_vault_id"] |}.

Definition validate_launcher_projection (t : ExecutionTemplate) (c : LauncherCapabilities) : result unit :=
  let fail := ExecutionProjectionError in
  let resources := et_resources t in
  let schedule := et_schedule t in
  _ ← reject_if (negb (bool_decide (et_launcher t = lc_launcher c)))
        fail "projection launcher does not match its capabilities";
  _ ← reject_if (negb (bool_decide (rp_cpu_millis resources ∈ lc_cpu_millis c)))
        fail "launcher does not support the requested CPU";
  _ ← reject_if (negb ((lc_minimum_memory_mib c <=? rp_memory_mib resources)
                       && (rp_memory_mib resources <=? lc_maximum_memory_mib c)))
        fail "launcher does not support the requested memory";
  _ ← reject_if (lc_maximum_deadline_seconds c <? rp_deadline_seconds resources)
        fail "launcher does not support the requested deadline";
  _ ← reject_if (lc_maximum_launcher_retries c <? rp_launcher_retry_count resources)
        fail "launcher does not support the requested retry count";
  _ ← reject_if (is_some (rp_ephemeral_storage_mib resources) && negb (lc_supports_ephemeral_storage c))
        fail "launcher cannot configure ephemeral storage";
  _ ← reject_if (lc_maximum_task_count c <? sp_task_count schedule)
        fail "launcher does not support the requested task count";
  _ ← reject_if (lc_maximum_parallelism c <? sp_maximum_parallelism schedule)
        fail "launcher does not support the requested parallelism";
  _ ← reject_if (is_some (sp_expression schedule) && negb (lc_supports_schedules c))
        fail "launcher does not support schedules";
  _ ← reject_if (is_some (sp_time_zone schedule) && negb (lc_supports_time_zones c))
        fail "launcher does not support schedule time zones";
  _ ← reject_if (is_some (np_placement (et_network t)) && negb (lc_supports_network_placement c))
        fail "launcher cannot configure network placement";
  let extension_names := (map fst (et_extensions t) ++ map fst (np_extensions (et_network t)))%list in
  match py_sorted str_leb
          (filter (fun n => n ∉ lc_extension_names c) extension_names) with
  | [] => Ok tt
  | unknown :: _ => Raise (Exn fail "launcher does not support projection extension" [unknown])
  end.
