(* ===== verification/Dfs.v ===== *)
(** * Depth-first search with three colours

    Three modules of the source order or check a dependency graph by a recursive
    [visit] with the same discipline: an unvisited node becomes grey and goes on
    a path, its successors are visited in order, and it becomes black and joins
    the output when they are done; meeting a grey node is a cycle.  [visit] is
    that routine; the components instantiate it or are related to it.

    Recursion depth is bounded by fuel; [visit_spec] shows that one more than
    the number of nodes is always enough. *)

From S2P Require Import Prelude.

Inductive mark : Type := Grey | Black.
#[export] Instance mark_eq_dec : EqDecision mark.
Proof. solve_decision. Defined.

Record dfs : Type := Dfs {
  df_state : gmap string mark;         (* absent: not yet visited *)
  df_stack : list string;              (* the current path, deepest node last *)
  df_order : list string;              (* finished nodes, in order of completion *)
}.

Definition dfs_start : dfs := Dfs ∅ [] [].

(** [stack[stack.index(name):]]. *)
Fixpoint from_index (name : string) (stack : list string) : list string :=
  match stack with
  | [] => []
  | x :: l => if bool_decide (x = name) then stack else from_index name l
  end.

Definition out_of_fuel : exn := Exn RecursionError "maximum recursion depth exceeded" [].

(** ** Orders, paths and cycles of a successor function *)

Section Order.
Context (succ : string -> list string).

(** Every element comes after all its successors, and no element twice. *)
Inductive topo : list string -> Prop :=
  | topo_nil : topo []
  | topo_snoc l x : topo l -> x ∉ l -> (forall y, y ∈ succ x -> y ∈ l) -> topo (l ++ [x]).

(** Each element is followed by one of its successors. *)
Inductive chain : list string -> Prop :=
  | chain_nil : chain []
  | chain_one x : chain [x]
  | chain_cons x y l : y ∈ succ x -> chain (y :: l) -> chain (x :: y :: l).

Definition is_cycle (c : list string) : Prop := exists x p, c = x :: p ++ [x] /\ chain c.

Inductive reach : string -> string -> Prop :=
  | reach_refl x : reach x x
  | reach_step x y z : y ∈ succ x -> reach y z -> reach x z.

Lemma reach_trans x y z : reach x y -> reach y z -> reach x z.
Proof. induction 1; [done|]. intros. eapply reach_step; eauto. Qed.

Lemma topo_nodup l : topo l -> NoDup l.
Proof.
  induction 1 as [|l x _ IH Hx _]; [constructor|]. rewrite NoDup_app. split_and!; [done| |apply NoDup_singleton].
  set_solver.
Qed.

Lemma topo_closed l x y : topo l -> x ∈ l -> y ∈ succ x -> y ∈ l.
Proof. induction 1 as [|l z _ IH Hz Hs]; set_solver. Qed.

Lemma topo_closed_reach l x y : topo l -> x ∈ l -> reach x y -> y ∈ l.
Proof. intros Ht Hx Hr. induction Hr; eauto using topo_closed. Qed.

(** In a topological order the successors of an element come strictly before it. *)
Lemma topo_before l : topo l ->
  forall l1 x l2, l = l1 ++ x :: l2 -> forall y, y ∈ succ x -> y ∈ l1.
Proof.
  induction 1 as [|l z Ht IH Hz Hs]; intros l1 x l2 E y Hy; [by destruct l1|].
  destruct l2 as [|w l2 _] using rev_ind.
  - apply app_inj_tail in E as [<- <-]. auto.
  - rewrite (app_assoc l1 (x :: l2) [w] : l1 ++ x :: l2 ++ [w] = _) in E.
    apply app_inj_tail in E as [-> _]. by eapply IH.
Qed.

Lemma topo_prefix l m : topo (l ++ m) -> topo l.
Proof.
  induction m as [|x m IH] using rev_ind; [by rewrite app_nil_r|].
  rewrite app_assoc. intros H. apply IH. inversion H as [E|l' x' Ht _ _ E].
  - by destruct (l ++ m).
  - by apply app_inj_tail in E as [<- _].
Qed.

(** A set that has a topological order has no cycle. *)
Lemma topo_no_cycle l x p : topo l -> x ∈ l -> chain (x :: p ++ [x]) -> False.
Proof.
  assert (forall z c, chain (z :: c) -> forall w, w ∈ c -> exists u, u ∈ succ z /\ (u = w \/ reach u w)) as Hc.
  { intros z c; revert z; induction c as [|u c IH]; intros z H w Hw; [set_solver|].
    inversion H; subst. exists u. split; [done|]. apply elem_of_cons in Hw as [->|Hw]; [by left|right].
    destruct (IH u ltac:(done) w Hw) as (v & Hv & [->|?]); eapply reach_step; eauto using reach_refl. }
  intros Ht Hx Hch. apply list_elem_of_split in Hx as (l1 & l2 & ->).
  destruct (Hc x (p ++ [x]) Hch x ltac:(set_solver)) as (u & Hu & Hr).
  assert (u ∈ l1) by (eapply topo_before; eauto).
  pose proof (topo_prefix _ _ Ht) as Ht1. apply topo_nodup, NoDup_app in Ht as (_ & Hd & _).
  assert (x ∈ l1) by (destruct Hr as [->|?]; [done|by eapply topo_closed_reach]).
  by eapply (Hd x); [|left].
Qed.

Lemma chain_snoc l x y : chain (l ++ [x]) -> y ∈ succ x -> chain (l ++ [x; y]).
Proof.
  induction l as [|z l IH]; cbn; intros H Hy; [by repeat constructor|].
  destruct l as [|w l]; cbn in *; inversion H; subst; constructor; auto.
Qed.

Lemma chain_app_r l m : chain (l ++ m) -> chain m.
Proof.
  induction l as [|x l IH]; cbn; [done|]. intros H. apply IH. inversion H; subst; [constructor|done].
Qed.

(** Non-empty paths, as a transitive closure. *)
Lemma chain_tc x y : (exists p, chain (x :: p ++ [y])) <-> tc (fun a b => b ∈ succ a) x y.
Proof.
  split.
  - intros [p H]. revert x H; induction p as [|z p IH]; intros x H; cbn in H; inversion H; subst.
    + by apply tc_once.
    + eapply tc_l; eauto.
  - induction 1 as [x y H|x y z H _ [p IH]].
    + exists []. by repeat constructor.
    + exists (y :: p). by constructor.
Qed.
End Order.

Lemma from_index_spec name l :
  name ∈ l -> exists l1 l2, l = l1 ++ name :: l2 /\ from_index name l = name :: l2.
Proof.
  induction l as [|x l IH]; intros H; [set_solver|]. cbn. case_bool_decide as E.
  - subst. by exists [], l.
  - apply elem_of_cons in H as [->|H]; [done|]. destruct (IH H) as (l1 & l2 & -> & ->).
    by exists (x :: l1), l2.
Qed.

(** ** The search *)

Section Dfs.
Context (succ : string -> list string) (on_cycle : list string -> exn).
Abbreviation topo := (topo succ).
Abbreviation chain := (chain succ).
Abbreviation is_cycle := (is_cycle succ).
Abbreviation reach := (reach succ).

Fixpoint visit_all (f : string -> dfs -> result dfs) (names : list string) (s : dfs) : result dfs :=
  match names with
  | [] => Ok s
  | x :: names => s ← f x s; visit_all f names s
  end.

Fixpoint visit (fuel : nat) (name : string) (s : dfs) : result dfs :=
  match fuel with
  | O => Raise out_of_fuel
  | S fuel =>
      match df_state s !! name with
      | Some Black => Ok s
      | Some Grey => Raise (on_cycle (from_index name (df_stack s) ++ [name]))
      | None =>
          s' ← visit_all (visit fuel) (succ name)
                 (Dfs (<[name := Grey]> (df_state s)) (df_stack s ++ [name]) (df_order s));
          Ok (Dfs (<[name := Black]> (df_state s')) (removelast (df_stack s'))
                  (df_order s' ++ [name]))
      end
  end.

(** ** What a run of the search establishes *)

Record inv (nodes : list string) (s : dfs) : Prop := {
  inv_grey x : df_state s !! x = Some Grey <-> x ∈ df_stack s;
  inv_black x : df_state s !! x = Some Black <-> x ∈ df_order s;
  inv_path : chain (df_stack s);
  inv_nodup : NoDup (df_stack s);
  inv_nodes : forall x, x ∈ df_stack s -> x ∈ nodes;
  inv_topo : topo (df_order s);
}.

(** The state after a successful visit of names reachable from [P]. *)
Record grown (P : string -> Prop) (s s' : dfs) : Prop := {
  gr_stack : df_stack s' = df_stack s;
  gr_order : exists ext, df_order s' = df_order s ++ ext;
  gr_reach : forall x, x ∈ df_order s' -> x ∈ df_order s \/ exists y, P y /\ reach y x;
}.

Definition found_cycle (e : exn) : Prop := exists c, e = on_cycle c /\ is_cycle c.

(** Appending to the path a successor of its last node. *)
Definition extends (s : dfs) (name : string) : Prop :=
  df_stack s = [] \/ exists l x, df_stack s = l ++ [x] /\ name ∈ succ x.

Lemma extends_chain s name : chain (df_stack s) -> extends s name -> chain (df_stack s ++ [name]).
Proof.
  intros Hc [->|(l & x & E & Hn)]; [constructor|]. rewrite E in *.
  rewrite <- app_assoc. by apply chain_snoc.
Qed.

Lemma grey_cycle nodes s name :
  inv nodes s -> extends s name -> df_state s !! name = Some Grey ->
  is_cycle (from_index name (df_stack s) ++ [name]).
Proof.
  intros Hi He Hg. apply (inv_grey _ _ Hi) in Hg.
  pose proof (extends_chain s name (inv_path _ _ Hi) He) as Hc.
  destruct (from_index_spec _ _ Hg) as (l1 & l2 & E & ->). exists name, l2. split; [done|].
  rewrite E, <- app_assoc in Hc. by apply chain_app_r in Hc.
Qed.

Lemma inv_push nodes s name :
  inv nodes s -> extends s name -> name ∈ nodes -> df_state s !! name = None ->
  inv nodes (Dfs (<[name := Grey]> (df_state s)) (df_stack s ++ [name]) (df_order s)).
Proof.
  intros Hi He Hn Hw. split; cbn.
  - intros x. rewrite elem_of_app, list_elem_of_singleton, <- (inv_grey _ _ Hi), lookup_insert.
    case_decide; naive_solver.
  - intros x. rewrite <- (inv_black _ _ Hi), lookup_insert. case_decide; naive_solver.
  - by apply extends_chain, He; apply (inv_path _ _ Hi).
  - apply NoDup_app. split_and!; [apply (inv_nodup _ _ Hi)| |apply NoDup_singleton].
    intros x Hx. rewrite list_elem_of_singleton. intros ->. apply (inv_grey _ _ Hi) in Hx. congruence.
  - intros x. rewrite elem_of_app, list_elem_of_singleton. intros [?| ->]; [by apply (inv_nodes _ _ Hi)|done].
  - apply (inv_topo _ _ Hi).
Qed.

Lemma inv_finish nodes l s name :
  inv nodes s -> df_stack s = l ++ [name] -> (forall y, y ∈ succ name -> y ∈ df_order s) ->
  inv nodes (Dfs (<[name := Black]> (df_state s)) l (df_order s ++ [name])).
Proof.
  intros Hi Hs Hsucc. pose proof (inv_nodup _ _ Hi) as Hnd. rewrite Hs in Hnd.
  apply NoDup_app in Hnd as (Hnd & Hdis & _).
  assert (df_state s !! name = Some Grey) as Hg by (apply (inv_grey _ _ Hi); rewrite Hs; set_solver).
  split; cbn.
  - intros x. rewrite lookup_insert. case_decide as E; [subst; split; [done|]|].
    + intros Hx. exfalso. eapply Hdis; [exact Hx|left].
    + rewrite (inv_grey _ _ Hi), Hs. set_solver.
  - intros x. rewrite lookup_insert, elem_of_app, list_elem_of_singleton. case_decide; [naive_solver|].
    rewrite (inv_black _ _ Hi). naive_solver.
  - pose proof (inv_path _ _ Hi) as Hp. rewrite Hs in Hp. clear -Hp.
    induction l as [|x l IH]; [constructor|]. destruct l; cbn in *; [constructor|].
    inversion Hp; subst. constructor; auto.
  - done.
  - intros x Hx. apply (inv_nodes _ _ Hi). rewrite Hs. set_solver.
  - constructor; [apply (inv_topo _ _ Hi)| |done]. rewrite <- (inv_black _ _ Hi). congruence.
Qed.

Lemma grown_refl P s : grown P s s.
Proof. split; [done|exists []; by rewrite app_nil_r|auto]. Qed.

Lemma grown_trans (P Q : string -> Prop) s1 s2 s3 :
  (forall x, P x -> Q x) -> grown P s1 s2 -> grown Q s2 s3 -> grown Q s1 s3.
Proof.
  intros HPQ [E1 [m1 F1] R1] [E2 [m2 F2] R2]. split; [congruence| |].
  - exists (m1 ++ m2). by rewrite F2, F1, app_assoc.
  - intros x [Hx|?]%R2; [|auto]. destruct (R1 x Hx) as [?|(y & ? & ?)]; eauto.
Qed.

Lemma grown_in P s s' x : grown P s s' -> x ∈ df_order s -> x ∈ df_order s'.
Proof. intros [_ [m ->] _]. set_solver. Qed.

Context (nodes : list string).
Context (nodes_closed : forall x y, x ∈ nodes -> y ∈ succ x -> y ∈ nodes).

Definition visit_post (s : dfs) (names : list string) (r : result dfs) : Prop :=
  match r with
  | Ok s' => inv nodes s' /\ grown (.∈ names) s s' /\ forall x, x ∈ names -> x ∈ df_order s'
  | Raise e => found_cycle e
  end.

Lemma visit_all_spec f s names :
  inv nodes s -> (forall x, x ∈ names -> extends s x /\ x ∈ nodes) ->
  (forall s' x, inv nodes s' -> df_stack s' = df_stack s -> extends s' x -> x ∈ nodes ->
     visit_post s' [x] (f x s')) ->
  visit_post s names (visit_all f names s).
Proof.
  intros Hi Hn Hf. revert s Hi Hn Hf. induction names as [|x names IH]; intros s Hi Hn Hf.
  { split_and!; [done|apply grown_refl|set_solver]. }
  cbn. destruct (Hn x ltac:(left)) as [Hx Hxn]. pose proof (Hf s x Hi eq_refl Hx Hxn) as H1.
  destruct (f x s) as [s1|e]; cbn; [|done]. destruct H1 as (Hi1 & Hg1 & Hd1).
  assert (df_stack s1 = df_stack s) as Hst by apply Hg1.
  specialize (IH s1 Hi1). unfold extends in *. rewrite Hst in IH.
  specialize (IH (fun y Hy => Hn y (list_elem_of_further _ _ _ Hy)) Hf).
  destruct (visit_all f names s1) as [s2|e]; [|done]. destruct IH as (Hi2 & Hg2 & Hd2).
  split_and!; [done| |].
  - eapply (grown_trans (.∈ [x])); [set_solver|exact Hg1|].
    destruct Hg2 as [? ? Hr]. split; [done..|]. intros y [?|(z & ? & ?)]%Hr; [by left|right].
    exists z. split; [by right|done].
  - intros y [->|?]%elem_of_cons; [|auto]. eapply grown_in; [exact Hg2|]. apply Hd1. left.
Qed.

Lemma NoDup_le (l : list string) : NoDup l -> (forall x, x ∈ l -> x ∈ nodes) -> length l <= length nodes.
Proof. intros Hl H. apply submseteq_length, NoDup_submseteq; auto. Qed.

Theorem visit_spec fuel s name :
  inv nodes s -> extends s name -> name ∈ nodes ->
  length nodes < fuel + length (df_stack s) ->
  visit_post s [name] (visit fuel name s).
Proof.
  revert s name; induction fuel as [|fuel IH]; intros s name Hi He Hn Hf.
  { exfalso. pose proof (NoDup_le _ (inv_nodup _ _ Hi) (inv_nodes _ _ Hi)). lia. }
  cbn. destruct (df_state s !! name) as [[]|] eqn:Hc.
  - exists (from_index name (df_stack s) ++ [name]). split; [done|]. by eapply grey_cycle.
  - split_and!; [done|apply grown_refl|]. intros x ->%list_elem_of_singleton. by apply (inv_black _ _ Hi).
  - set (s0 := Dfs (<[name := Grey]> (df_state s)) (df_stack s ++ [name]) (df_order s)).
    assert (inv nodes s0) as Hi0 by by apply inv_push.
    assert (visit_post s0 (succ name) (visit_all (visit fuel) (succ name) s0)) as Hall.
    { apply visit_all_spec; [done| |].
      - intros x Hx. split; [right; by exists (df_stack s), name|eauto].
      - intros s' x Hi' Hst He' Hx. apply IH; auto. rewrite Hst. cbn. rewrite length_app. cbn. lia. }
    destruct (visit_all (visit fuel) (succ name) s0) as [s1|e]; [|done]. cbn.
    destruct Hall as (Hi1 & Hg1 & Hd1).
    assert (df_stack s1 = df_stack s ++ [name]) as Hst by apply Hg1.
    rewrite Hst, removelast_last. split_and!.
    + by eapply inv_finish.
    + destruct Hg1 as [_ [ext Hext] Hr]. split; cbn in *.
      * done.
      * exists (ext ++ [name]). by rewrite Hext, app_assoc.
      * intros x [[?|(y & Hy & ?)]%Hr| ->%list_elem_of_singleton]%elem_of_app; [by left| |];
          right; exists name; (split; [left|]); [by eapply reach_step|constructor].
    + intros x ->%list_elem_of_singleton. cbn. set_solver.
Qed.

(** The top-level loop over the roots. *)
Definition search (roots : list string) : result dfs :=
  visit_all (visit (S (length nodes))) roots dfs_start.

Lemma inv_start : inv nodes dfs_start.
Proof.
  split; cbn; try (intros; rewrite lookup_empty; split; [done|set_solver]);
    try constructor; set_solver.
Qed.

Theorem search_spec roots :
  (forall x, x ∈ roots -> x ∈ nodes) ->
  match search roots with
  | Ok s => topo (df_order s) /\ (forall x, x ∈ df_order s <-> exists y, y ∈ roots /\ reach y x)
  | Raise e => found_cycle e
  end.
Proof.
  intros Hr. unfold search.
  assert (visit_post dfs_start roots (visit_all (visit (S (length nodes))) roots dfs_start)) as H.
  { apply visit_all_spec; [apply inv_start| |].
    - intros x Hx. split; [by left|auto].
    - intros s x Hi Hst He Hx. apply visit_spec; auto. lia. }
  destruct (visit_all _ _ _) as [s|e]; [|done]. destruct H as (Hi & Hg & Hd).
  split; [apply (inv_topo _ _ Hi)|]. intros x. split.
  - intros [Hx|?]%(gr_reach _ _ _ Hg); [cbn in Hx; set_solver|done].
  - intros (y & Hy & Hyx). eapply topo_closed_reach; [apply (inv_topo _ _ Hi)| |exact Hyx]. auto.
Qed.
End Dfs.
