(* ===== verification/PhysicalPlan.v ===== *)
(** * Physical plans ([physical_plan.py])

    The static stage graph of one execution: its data, the checks every
    constructor runs, the canonical text and the revision digest. *)

From S2P Require Import Prelude Regex PyStr Sha256 Json Identifiers Dfs.

Local Open Scope string_scope.
Local Open Scope Z_scope.

Definition PHYSICAL_PLAN_SCHEMA : string := "io.dander.physical-plan/v1".
Definition MAX_STAGES : nat := 100.
Definition MAX_EXCHANGES : nat := 200.
Definition MAX_PARTITIONS : Z := 10000.
Definition MAX_OPERATORS : Z := 10000.

Inductive PhysicalExecutionMode : Type := FUSED_CONTAINER | DISTRIBUTED.
Inductive PartitioningStrategy : Type := SINGLE | HASH | ROUND_ROBIN.
Inductive ExchangeTransport : Type := MEMORY | OBJECT_STORE.

#[export] Instance PhysicalExecutionMode_eq_dec : EqDecision PhysicalExecutionMode.
Proof. solve_decision. Defined.
#[export] Instance PartitioningStrategy_eq_dec : EqDecision PartitioningStrategy.
Proof. solve_decision. Defined.
#[export] Instance ExchangeTransport_eq_dec : EqDecision ExchangeTransport.
Proof. solve_decision. Defined.

Definition execution_mode_value (m : PhysicalExecutionMode) : string :=
  match m with FUSED_CONTAINER => "fused_container" | DISTRIBUTED => "distributed" end.
Definition partitioning_value (p : PartitioningStrategy) : string :=
  match p with SINGLE => "single" | HASH => "hash" | ROUND_ROBIN => "round_robin" end.
Definition transport_value (t : ExchangeTransport) : string :=
  match t with MEMORY => "memory" | OBJECT_STORE => "object_store" end.

Definition fail_plan {A} (m : string) : result A := raise_ PhysicalPlanError m.
Definition plan_reject (b : bool) (m : string) : result unit := reject_if b PhysicalPlanError m.

Definition require_portable_id (value label : string) : result unit :=
  plan_reject (negb (portable_id value)) (label +:+ " id is invalid").

(** ** Stages and exchanges *)

Record PhysicalStage : Type := {
  ps_stage_id : string;
  ps_operators : list string;
  ps_partition_count : Z;
  ps_depends_on : list string;
}.
#[export] Instance PhysicalStage_eq_dec : EqDecision PhysicalStage.
Proof. solve_decision. Defined.

Definition PhysicalStage_post_init (s : PhysicalStage) : result unit :=
  _ ← require_portable_id (ps_stage_id s) "stage";
  _ ← plan_reject
        (bool_decide (ps_operators s = [])
         || (MAX_OPERATORS <? Z.of_nat (length (ps_operators s)))
         || negb (canonical_strings (ps_operators s))
         || existsb (fun o => negb (opaque_id o)) (ps_operators s))
        "stage operators must be unique canonical identifiers";
  _ ← plan_reject (negb ((1 <=? ps_partition_count s) && (ps_partition_count s <=? MAX_PARTITIONS)))
        "stage partition count is invalid";
  plan_reject
    (negb (canonical_strings (ps_depends_on s))
     || existsb (fun d => negb (portable_id d)) (ps_depends_on s)
     || bool_decide (ps_stage_id s ∈ ps_depends_on s))
    "stage dependencies must be unique canonical stage ids".

Record PhysicalExchange : Type := {
  pe_exchange_id : string;
  pe_producer_stage_id : string;
  pe_consumer_stage_id : string;
  pe_transport : ExchangeTransport;
  pe_partitioning : PartitioningStrategy;
  pe_partition_count : Z;
  pe_partition_keys : list string;
}.
#[export] Instance PhysicalExchange_eq_dec : EqDecision PhysicalExchange.
Proof. solve_decision. Defined.

Definition PhysicalExchange_post_init (e : PhysicalExchange) : result unit :=
  _ ← require_portable_id (pe_exchange_id e) "exchange";
  _ ← require_portable_id (pe_producer_stage_id e) "producer stage";
  _ ← require_portable_id (pe_consumer_stage_id e) "consumer stage";
  _ ← plan_reject (bool_decide (pe_producer_stage_id e = pe_consumer_stage_id e))
        "an exchange cannot connect a stage to itself";
  _ ← plan_reject (negb ((1 <=? pe_partition_count e) && (pe_partition_count e <=? MAX_PARTITIONS)))
        "exchange partition count is invalid";
  _ ← plan_reject
        (negb (canonical_strings (pe_partition_keys e))
         || existsb (fun k => negb (opaque_id k)) (pe_partition_keys e))
        "exchange partition keys must be unique canonical identifiers";
  match pe_partitioning e with
  | SINGLE =>
      plan_reject (negb (pe_partition_count e =? 1) || negb (bool_decide (pe_partition_keys e = [])))
        "single partitioning requires one partition and no keys"
  | HASH =>
      plan_reject (bool_decide (pe_partition_keys e = [])) "hash partitioning requires at least one key"
  | ROUND_ROBIN =>
      plan_reject (negb (bool_decide (pe_partition_keys e = [])))
        "round-robin partitioning cannot declare keys"
  end.

(** ** [_require_acyclic] *)

Definition stage_dict : Type := list (string * PhysicalStage).

Record walk : Type := Walk { w_visited : gset string; w_active : gset string }.

Fixpoint walk_all (f : string -> walk -> result walk) (ids : list string) (w : walk) : result walk :=
  match ids with
  | [] => Ok w
  | x :: ids => w ← f x w; walk_all f ids w
  end.

Fixpoint acyclic_visit (fuel : nat) (stages : stage_dict) (stage_id : string) (w : walk) : result walk :=
  match fuel with
  | O => Raise out_of_fuel
  | S fuel =>
      if bool_decide (stage_id ∈ w_active w)
      then fail_plan "physical-plan stage dependencies contain a cycle"
      else if bool_decide (stage_id ∈ w_visited w) then Ok w
      else
        match assoc stage_id stages with
        | None => raise_ KeyError stage_id
        | Some stage =>
            w' ← walk_all (acyclic_visit fuel stages) (ps_depends_on stage)
                   (Walk (w_visited w) (w_active w ∪ {[stage_id]}));
            Ok (Walk (w_visited w' ∪ {[stage_id]}) (w_active w' ∖ {[stage_id]}))
        end
  end.

Definition require_acyclic (stages : stage_dict) : result unit :=
  _ ← walk_all (acyclic_visit (S (length stages)) stages) (map fst stages) (Walk ∅ ∅);
  Ok tt.

(** ** Plans *)

Record PhysicalPlan : Type := {
  pp_pipeline_id : string;
  pp_execution_mode : PhysicalExecutionMode;
  pp_stages : list PhysicalStage;
  pp_exchanges : list PhysicalExchange;
  pp_maximum_parallelism : Z;
  pp_schema : string;
}.
#[export] Instance PhysicalPlan_eq_dec : EqDecision PhysicalPlan.
Proof. solve_decision. Defined.

Definition sum_partitions (stages : list PhysicalStage) : Z :=
  foldr (fun s acc => ps_partition_count s + acc) 0 stages.
Definition partition_count (p : PhysicalPlan) : Z := sum_partitions (pp_stages p).

Definition dependency_edges (stages : list PhysicalStage) : gset (string * string) :=
  list_to_set (stages ≫= fun s => (fun d => (d, ps_stage_id s)) <$> ps_depends_on s).
Definition exchange_edge (e : PhysicalExchange) : string * string :=
  (pe_producer_stage_id e, pe_consumer_stage_id e).
Definition exchange_edges (exchanges : list PhysicalExchange) : gset (string * string) :=
  list_to_set (map exchange_edge exchanges).

Definition by_id (stages : list PhysicalStage) : stage_dict :=
  dict_of (map (fun s => (ps_stage_id s, s)) stages).

Definition check_exchange (stages : stage_dict) (e : PhysicalExchange) : result unit :=
  match assoc (pe_consumer_stage_id e) stages, assoc (pe_producer_stage_id e) stages with
  | Some consumer, Some _ =>
      plan_reject (negb (pe_partition_count e =? ps_partition_count consumer))
        "exchange partition count must match its consumer stage"
  | _, _ => fail_plan "physical-plan exchange references an unknown stage"
  end.

Definition PhysicalPlan_post_init (p : PhysicalPlan) : result unit :=
  let stages := pp_stages p in
  let exchanges := pp_exchanges p in
  _ ← plan_reject (negb (bool_decide (pp_schema p = PHYSICAL_PLAN_SCHEMA)))
        "unsupported physical-plan contract";
  _ ← plan_reject (negb (opaque_id (pp_pipeline_id p))) "physical-plan pipeline id is invalid";
  _ ← plan_reject
        (bool_decide (stages = []) || (MAX_STAGES <? length stages)%nat
         || negb (bool_decide (py_sorted (key_leb ps_stage_id str_leb) stages = stages))
         || has_dup (map ps_stage_id stages))
        "physical-plan stages must be unique and canonically ordered";
  _ ← plan_reject
        ((MAX_EXCHANGES <? length exchanges)%nat
         || negb (bool_decide (py_sorted (key_leb pe_exchange_id str_leb) exchanges = exchanges))
         || has_dup (map pe_exchange_id exchanges))
        "physical-plan exchanges must be unique and canonically ordered";
  let total_partitions := sum_partitions stages in
  _ ← plan_reject (MAX_PARTITIONS <? total_partitions)
        "physical-plan stage partitions exceed the static bound";
  _ ← plan_reject
        (negb ((1 <=? pp_maximum_parallelism p) && (pp_maximum_parallelism p <=? total_partitions)))
        "physical-plan maximum parallelism is invalid";
  let operators := stages ≫= ps_operators in
  _ ← plan_reject (has_dup operators || (MAX_OPERATORS <? Z.of_nat (length operators)))
        "physical-plan operators must belong to exactly one stage";
  _ ← plan_reject
        (existsb (fun s => existsb (fun d => is_none (assoc d (by_id stages))) (ps_depends_on s)) stages)
        "physical-plan stage dependency is unknown";
  _ ← plan_reject
        (has_dup (map exchange_edge exchanges)
         || negb (bool_decide (exchange_edges exchanges = dependency_edges stages)))
        "each stage dependency requires exactly one exchange";
  _ ← for_each (check_exchange (by_id stages)) exchanges;
  _ ← require_acyclic (by_id stages);
  match pp_execution_mode p with
  | FUSED_CONTAINER =>
      _ ← plan_reject
            (negb (pp_maximum_parallelism p =? 1)
             || existsb (fun s => negb (ps_partition_count s =? 1)) stages)
            "fused-container plans require one partition per stage and parallelism one";
      plan_reject
        (existsb (fun e => negb (bool_decide (pe_transport e = MEMORY))
                           || negb (bool_decide (pe_partitioning e = SINGLE))) exchanges)
        "fused-container exchanges must use single in-memory handoffs"
  | DISTRIBUTED => Ok tt
  end.

(** ** Construction: a dataclass value exists once [__post_init__] has returned. *)

Definition new_stage (s : PhysicalStage) : result PhysicalStage := _ ← PhysicalStage_post_init s; Ok s.
Definition new_exchange (e : PhysicalExchange) : result PhysicalExchange :=
  _ ← PhysicalExchange_post_init e; Ok e.
Definition new_plan (p : PhysicalPlan) : result PhysicalPlan := _ ← PhysicalPlan_post_init p; Ok p.

Definition fused_container_physical_plan
    (pipeline_id : string) (stages : option (list PhysicalStage)) (exchanges : list PhysicalExchange)
    : result PhysicalPlan :=
  selected ←
    match stages with
    | Some (s :: l) => Ok (s :: l)
    | _ =>
        s ← new_stage {| ps_stage_id := "pipeline"; ps_operators := [pipeline_id];
                         ps_partition_count := 1; ps_depends_on := [] |};
        Ok [s]
    end;
  new_plan {| pp_pipeline_id := pipeline_id; pp_execution_mode := FUSED_CONTAINER;
              pp_stages := selected; pp_exchanges := exchanges; pp_maximum_parallelism := 1;
              pp_schema := PHYSICAL_PLAN_SCHEMA |}.

(** ** Canonical text *)

Definition stage_payload (s : PhysicalStage) : json :=
  JObj [("stage_id", JStr (ps_stage_id s));
        ("operators", JArr (JStr <$> ps_operators s));
        ("partition_count", JInt (ps_partition_count s));
        ("depends_on", JArr (JStr <$> ps_depends_on s))].

Definition exchange_payload (e : PhysicalExchange) : json :=
  JObj [("exchange_id", JStr (pe_exchange_id e));
        ("producer_stage_id", JStr (pe_producer_stage_id e));
        ("consumer_stage_id", JStr (pe_consumer_stage_id e));
        ("transport", JStr (transport_value (pe_transport e)));
        ("partitioning", JStr (partitioning_value (pe_partitioning e)));
        ("partition_count", JInt (pe_partition_count e));
        ("partition_keys", JArr (JStr <$> pe_partition_keys e))].

Definition physical_plan_payload (p : PhysicalPlan) : json :=
  JObj [("pipeline_id", JStr (pp_pipeline_id p));
        ("execution_mode", JStr (execution_mode_value (pp_execution_mode p)));
        ("stages", JArr (stage_payload <$> pp_stages p));
        ("exchanges", JArr (exchange_payload <$> pp_exchanges p));
        ("maximum_parallelism", JInt (pp_maximum_parallelism p))].

Definition canonical_json (v : json) : list Z := encode (dumps_unicode v).

Definition canonical_physical_plan_contents (p : PhysicalPlan) : list Z :=
  canonical_json (JObj [("schema", JStr PHYSICAL_PLAN_SCHEMA); ("plan", physical_plan_payload p)]).

Definition physical_plan_revision (p : PhysicalPlan) : string :=
  sha256_hex (canonical_physical_plan_contents p).

Definition serialized_json (p : PhysicalPlan) : json :=
  JObj [("schema", JStr PHYSICAL_PLAN_SCHEMA);
        ("revision", JStr (physical_plan_revision p));
        ("plan", physical_plan_payload p)].
Definition serialize_physical_plan (p : PhysicalPlan) : list Z := canonical_json (serialized_json p).

(** [serialize_physical_plan(p).decode("utf-8")]. *)
Definition serialized_text (p : PhysicalPlan) : result string :=
  match decode (serialize_physical_plan p) with Some s => Ok s | None => raise_ ValueError "invalid utf-8" end.

(** ** [_require_acyclic] is the three-colour search *)

Section Acyclic.
Context (stages : stage_dict).

Definition depends (x : string) : list string :=
  match assoc x stages with Some s => ps_depends_on s | None => [] end.

Definition cycle_error (_ : list string) : exn :=
  Exn PhysicalPlanError "physical-plan stage dependencies contain a cycle" [].

Definition known (x : string) : Prop := is_Some (assoc x stages).

Record same_walk (w : walk) (s : dfs) : Prop := {
  sw_active x : x ∈ w_active w <-> df_state s !! x = Some Grey;
  sw_visited x : x ∈ w_visited w <-> df_state s !! x = Some Black;
}.

Definition same_outcome (r : result walk) (q : result dfs) : Prop :=
  match r, q with
  | Ok w, Ok s => same_walk w s
  | Raise e, Raise e' => e = e'
  | _, _ => False
  end.

Lemma walk_all_same f g names w s :
  (forall x w s, x ∈ names -> same_walk w s -> same_outcome (f x w) (g x s)) ->
  same_walk w s -> same_outcome (walk_all f names w) (visit_all g names s).
Proof.
  revert w s; induction names as [|x names IH]; intros w s Hf Hs; cbn; [done|].
  pose proof (Hf x w s ltac:(left) Hs) as H1.
  destruct (f x w), (g x s); cbn in *; try done. apply IH; [|done]. intros. apply Hf; [by right|done].
Qed.

Context (closed : forall x s y, assoc x stages = Some s -> y ∈ ps_depends_on s -> known y).

Lemma acyclic_visit_same fuel x w s :
  known x -> same_walk w s ->
  same_outcome (acyclic_visit fuel stages x w) (visit depends cycle_error fuel x s).
Proof.
  revert x w s; induction fuel as [|fuel IH]; intros x w s [st Hx] Hs; [done|]. cbn.
  destruct (df_state s !! x) as [[]|] eqn:E.
  - rewrite bool_decide_eq_true_2 by by apply (sw_active _ _ Hs). done.
  - rewrite bool_decide_eq_false_2 by (rewrite (sw_active _ _ Hs); congruence).
    by rewrite bool_decide_eq_true_2 by by apply (sw_visited _ _ Hs).
  - rewrite bool_decide_eq_false_2 by (rewrite (sw_active _ _ Hs); congruence).
    rewrite bool_decide_eq_false_2 by (rewrite (sw_visited _ _ Hs); congruence).
    rewrite Hx. unfold depends at 2. rewrite Hx.
    assert (same_walk (Walk (w_visited w) (w_active w ∪ {[x]}))
              (Dfs (<[x := Grey]> (df_state s)) (df_stack s ++ [x]) (df_order s))) as Hs1.
    { split; cbn; intros y; rewrite lookup_insert, ?elem_of_union, ?elem_of_singleton,
        ?(sw_active _ _ Hs), ?(sw_visited _ _ Hs); case_decide; naive_solver. }
    pose proof (walk_all_same (acyclic_visit fuel stages) (visit depends cycle_error fuel)
      (ps_depends_on st) _ _ (fun y w s Hy => IH y w s (closed _ _ _ Hx Hy)) Hs1) as H2.
    destruct (walk_all _ _ _) as [w2|], (visit_all _ _ _) as [s2|]; cbn in *; try done.
    split; cbn; intros y; rewrite lookup_insert, ?elem_of_difference, ?elem_of_union,
      ?elem_of_singleton, ?(sw_active _ _ H2), ?(sw_visited _ _ H2); case_decide; naive_solver.
Qed.

Lemma depends_closed x y : x ∈ map fst stages -> y ∈ depends x -> y ∈ map fst stages.
Proof.
  intros Hx Hy. apply assoc_some_in in Hx as [s Hx]. apply assoc_some_in.
  unfold depends in Hy. rewrite Hx in Hy. by eapply closed.
Qed.

(** The whole loop follows the search, so it ends in an order or in a cycle. *)
Lemma require_acyclic_outcome :
  match require_acyclic stages with
  | Ok _ => forall x p, known x -> ~ chain depends (x :: p ++ [x])
  | Raise e => found_cycle depends cycle_error e
  end.
Proof.
  set (nodes := map fst stages).
  pose proof (search_spec depends cycle_error nodes depends_closed nodes (fun x H => H)) as Hsearch.
  assert (same_outcome (walk_all (acyclic_visit (S (length stages)) stages) nodes (Walk ∅ ∅))
            (search depends cycle_error nodes nodes)) as Hsame.
  { unfold search, nodes at 2. rewrite length_map. apply walk_all_same.
    - intros x w s Hx. apply acyclic_visit_same. by apply assoc_some_in.
    - split; cbn; intros x; rewrite lookup_empty; split; [set_solver|done|set_solver|done]. }
  unfold require_acyclic. fold nodes.
  destruct (walk_all _ _ _) as [w|e], (search _ _ _ _) as [s|e']; cbn in *; try done; [|by subst].
  intros x p Hx Hp. destruct Hsearch as [Ht Hr].
  eapply topo_no_cycle; [exact Ht| |exact Hp]. apply Hr. exists x. split; [by apply assoc_some_in|constructor].
Qed.

(** The check passes exactly when no stage reaches itself. *)
Lemma require_acyclic_spec :
  require_acyclic stages = Ok tt <-> forall x p, known x -> ~ chain depends (x :: p ++ [x]).
Proof.
  pose proof require_acyclic_outcome as H. destruct (require_acyclic stages) as [[]|e]; [done|].
  split; [done|]. intros Hno. destruct H as (c & _ & x & p & -> & Hp). exfalso.
  apply (Hno x p); [|done].
  destruct (p ++ [x])%list as [|y l] eqn:E; [by destruct p|]. inversion Hp as [| |? ? ? Hy]; subst.
  unfold depends in Hy. destruct (assoc x stages) eqn:Ex; [by eexists|set_solver].
Qed.
End Acyclic.

(** ** What an accepted plan satisfies *)

(** The checks of [PhysicalPlan.__post_init__], declaratively. *)
Record plan_ok (p : PhysicalPlan) : Prop := {
  ok_schema : pp_schema p = PHYSICAL_PLAN_SCHEMA;
  ok_pipeline : opaque_id (pp_pipeline_id p) = true;
  ok_stages : pp_stages p <> [] /\ (length (pp_stages p) <= MAX_STAGES)%nat;
  ok_stage_order : py_sorted (key_leb ps_stage_id str_leb) (pp_stages p) = pp_stages p;
  ok_stage_ids : NoDup (map ps_stage_id (pp_stages p));
  ok_exchanges : (length (pp_exchanges p) <= MAX_EXCHANGES)%nat;
  ok_exchange_order : py_sorted (key_leb pe_exchange_id str_leb) (pp_exchanges p) = pp_exchanges p;
  ok_exchange_ids : NoDup (map pe_exchange_id (pp_exchanges p));
  ok_partitions : partition_count p <= MAX_PARTITIONS;
  ok_parallelism : 1 <= pp_maximum_parallelism p <= partition_count p;
  ok_operators : NoDup (pp_stages p ≫= ps_operators)
                 /\ Z.of_nat (length (pp_stages p ≫= ps_operators)) <= MAX_OPERATORS;
  ok_known : forall s d, s ∈ pp_stages p -> d ∈ ps_depends_on s -> d ∈ map ps_stage_id (pp_stages p);
  ok_one_exchange : NoDup (map exchange_edge (pp_exchanges p));
  ok_edges : forall a b, (a, b) ∈ map exchange_edge (pp_exchanges p) <->
               exists s, s ∈ pp_stages p /\ ps_stage_id s = b /\ a ∈ ps_depends_on s;
  ok_counts : forall e s, e ∈ pp_exchanges p -> s ∈ pp_stages p ->
                pe_consumer_stage_id e = ps_stage_id s -> pe_partition_count e = ps_partition_count s;
  ok_acyclic : forall x q, x ∈ map ps_stage_id (pp_stages p) ->
                 ~ chain (depends (by_id (pp_stages p))) (x :: q ++ [x]);
  ok_fused : pp_execution_mode p = FUSED_CONTAINER ->
    pp_maximum_parallelism p = 1
    /\ Forall (fun s => ps_partition_count s = 1) (pp_stages p)
    /\ Forall (fun e => pe_transport e = MEMORY /\ pe_partitioning e = SINGLE) (pp_exchanges p);
}.

Section Stages.
Context (stages : list PhysicalStage) (Hn : NoDup (map ps_stage_id stages)).

Lemma by_id_map : by_id stages = map (fun s => (ps_stage_id s, s)) stages.
Proof. apply dict_of_nodup. by rewrite map_map. Qed.

Lemma by_id_lookup x s : assoc x (by_id stages) = Some s <-> s ∈ stages /\ ps_stage_id s = x.
Proof.
  rewrite by_id_map. split.
  - intros H%assoc_in. apply list_elem_of_fmap in H as (s' & [= -> ->] & ?). done.
  - intros [Hs <-]. apply assoc_nodup; [by rewrite map_map|].
    apply list_elem_of_fmap. by exists s.
Qed.

Lemma by_id_known x : known (by_id stages) x <-> x ∈ map ps_stage_id stages.
Proof. unfold known. rewrite assoc_some_in, by_id_map, map_map. reflexivity. Qed.

Lemma dependencies_known :
  existsb (fun s => existsb (fun d => is_none (assoc d (by_id stages))) (ps_depends_on s)) stages = false
  <-> forall s d, s ∈ stages -> d ∈ ps_depends_on s -> d ∈ map ps_stage_id stages.
Proof.
  rewrite existsb_false, Forall_forall. setoid_rewrite existsb_false. setoid_rewrite Forall_forall.
  setoid_rewrite <- by_id_known. unfold known.
  split; intros H s; [intros d Hs Hd; specialize (H s Hs d Hd)|intros Hs d Hd; specialize (H s d Hs Hd)].
  - by destruct (assoc d (by_id stages)).
  - by destruct H as [? ->].
Qed.

Lemma acyclic_check :
  (forall s d, s ∈ stages -> d ∈ ps_depends_on s -> d ∈ map ps_stage_id stages) ->
  require_acyclic (by_id stages) = Ok tt <->
  forall x q, x ∈ map ps_stage_id stages -> ~ chain (depends (by_id stages)) (x :: q ++ [x]).
Proof.
  intros Hk. rewrite require_acyclic_spec.
  - by setoid_rewrite by_id_known.
  - intros x s y [Hs _]%by_id_lookup Hy. apply by_id_known. eauto.
Qed.

Lemma edges_check exchanges :
  exchange_edges exchanges = dependency_edges stages <->
  forall a b, (a, b) ∈ map exchange_edge exchanges <->
    exists s, s ∈ stages /\ ps_stage_id s = b /\ a ∈ ps_depends_on s.
Proof.
  assert (forall a b, (a, b) ∈ dependency_edges stages <->
    exists s, s ∈ stages /\ ps_stage_id s = b /\ a ∈ ps_depends_on s) as Hd.
  { intros a b. unfold dependency_edges. rewrite elem_of_list_to_set, list_elem_of_bind. split.
    - intros (s & H & Hs). apply list_elem_of_fmap in H as (a' & [= <- ->] & ?). eauto.
    - intros (s & Hs & <- & Ha). exists s. split; [|done]. apply list_elem_of_fmap. eauto. }
  unfold exchange_edges. split.
  - intros E a b. rewrite <- Hd, <- E. by rewrite elem_of_list_to_set.
  - intros H. apply set_eq. intros [a b]. rewrite Hd, <- H. by rewrite elem_of_list_to_set.
Qed.

Lemma exchanges_check exchanges :
  (forall a b, (a, b) ∈ map exchange_edge exchanges <->
     exists s, s ∈ stages /\ ps_stage_id s = b /\ a ∈ ps_depends_on s) ->
  (forall s d, s ∈ stages -> d ∈ ps_depends_on s -> d ∈ map ps_stage_id stages) ->
  for_each (check_exchange (by_id stages)) exchanges = Ok tt <->
  forall e s, e ∈ exchanges -> s ∈ stages ->
    pe_consumer_stage_id e = ps_stage_id s -> pe_partition_count e = ps_partition_count s.
Proof.
  intros He Hk. rewrite for_each_ok, Forall_forall.
  assert (forall e, e ∈ exchanges -> exists c q,
    assoc (pe_consumer_stage_id e) (by_id stages) = Some c /\
    assoc (pe_producer_stage_id e) (by_id stages) = Some q) as Hboth.
  { intros e Hin. assert (exchange_edge e ∈ map exchange_edge exchanges) as H by (apply list_elem_of_fmap; eauto).
    apply He in H as (s & Hs & Hid & Hd). exists s. apply (Hk _ _ Hs) in Hd.
    apply by_id_known in Hd as [q Hq]. exists q. split; [by apply by_id_lookup|done]. }
  unfold check_exchange, plan_reject. split; intros H e.
  - intros s Hin Hs Hc. destruct (Hboth e Hin) as (c & q & Ec & Eq). specialize (H e Hin).
    rewrite Ec, Eq in H. apply reject_if_ok, negb_false_iff, Z.eqb_eq in H.
    assert (assoc (pe_consumer_stage_id e) (by_id stages) = Some s) by by apply by_id_lookup. congruence.
  - intros Hin. destruct (Hboth e Hin) as (c & q & Ec & ->). rewrite Ec.
    apply by_id_lookup in Ec as [Hc Eid]. apply reject_if_ok, negb_false_iff, Z.eqb_eq. eauto.
Qed.
End Stages.

Lemma bounded_false a x b : negb ((a <=? x) && (x <=? b)) = false <-> a <= x <= b.
Proof. rewrite negb_false_iff, andb_true_iff, !Z.leb_le. done. Qed.

Lemma fused_check p :
  (_ ← plan_reject
         (negb (pp_maximum_parallelism p =? 1)
          || existsb (fun s => negb (ps_partition_count s =? 1)) (pp_stages p))
         "fused-container plans require one partition per stage and parallelism one";
   plan_reject
     (existsb (fun e => negb (bool_decide (pe_transport e = MEMORY))
                        || negb (bool_decide (pe_partitioning e = SINGLE))) (pp_exchanges p))
     "fused-container exchanges must use single in-memory handoffs") = Ok tt <->
  pp_maximum_parallelism p = 1
  /\ Forall (fun s => ps_partition_count s = 1) (pp_stages p)
  /\ Forall (fun e => pe_transport e = MEMORY /\ pe_partitioning e = SINGLE) (pp_exchanges p).
Proof.
  unfold plan_reject. rewrite seq_ok, !reject_if_tt, orb_false_iff, !existsb_false, negb_false_iff, Z.eqb_eq.
  setoid_rewrite orb_false_iff. setoid_rewrite negb_false_iff. setoid_rewrite Z.eqb_eq.
  setoid_rewrite bool_decide_eq_true. tauto.
Qed.

Lemma plan_post_init_iff p : PhysicalPlan_post_init p = Ok tt <-> plan_ok p.
Proof.
  unfold PhysicalPlan_post_init, plan_reject.
  rewrite !seq_ok, !reject_if_tt, !orb_false_iff, !negb_bool_decide_false, !bool_decide_eq_false,
    !has_dup_false, !bounded_false, !Z.ltb_ge, !Nat.ltb_ge, negb_false_iff.
  split.
  - intros (? & ? & (((? & ?) & ?) & Hn) & ((? & ?) & ?) & ? & ? & (? & ?) & Hk & (? & He) & Hc & Ha & Hf).
    rewrite dependencies_known in Hk by done. rewrite edges_check in He.
    rewrite exchanges_check in Hc by done. rewrite acyclic_check in Ha by done.
    split; try done. intros Hm. rewrite Hm in Hf. by apply fused_check.
  - intros [? ? [? ?] ? Hn ? ? ? ? ? [? ?] Hk ? He Hc Ha Hf].
    rewrite dependencies_known by done. rewrite edges_check.
    rewrite (exchanges_check _ Hn _ He Hk), (acyclic_check _ Hn Hk).
    split_and!; try done; [by destruct ok_parallelism0..|].
    destruct (pp_execution_mode p); [|done]. apply fused_check. by apply Hf.
Qed.

(** Every rejected plan is a [PhysicalPlanError]. *)
Lemma plan_post_init_only p : only PhysicalPlanError (PhysicalPlan_post_init p).
Proof.
  unfold PhysicalPlan_post_init, plan_reject. only_tac.
  - unfold check_exchange, fail_plan, plan_reject. repeat case_match; only_tac.
  - inv_ok. assert (NoDup (map ps_stage_id (pp_stages p))) as Hn by by apply has_dup_false.
    pose proof (proj1 (dependencies_known _ Hn) ltac:(eassumption)) as Hk.
    pose proof (require_acyclic_outcome (by_id (pp_stages p))) as Hout.
    destruct (require_acyclic _) as [|e]; [done|]. cbn. destruct Hout as (c & -> & _); [|done].
    intros x s y [Hs _]%by_id_lookup Hy; [|done]. apply by_id_known; eauto.
  - destruct (pp_execution_mode p); only_tac.
Qed.
