(* ===== verification/PhysicalPlanCodec.v ===== *)
(** * Reading physical plans back ([physical_plan.py], [deserialize_physical_plan])

    The reader accepts exactly the canonical bytes of a valid plan. *)

From S2P Require Import Prelude Regex PyStr Sha256 PyTime Json JsonParse JsonRead Identifiers Dfs PhysicalPlan.

Local Open Scope string_scope.
Local Open Scope Z_scope.
Local Open Scope list_scope.

Definition MAX_PLAN_BYTES : Z := 64 * 1024.

(** [_string_tuple] and [_enum], whose messages are this module's own. *)
Definition physical_strings (v : json) (label : string) : result (list string) :=
  items ← sequence PhysicalPlanError v label;
  read_all (fun item => match item with
                        | JStr s => Ok s
                        | _ => raise_ PhysicalPlanError (label +:+ " must contain strings")
                        end) items.
Definition physical_enum {A} : list A -> (A -> string) -> json -> string -> result A :=
  enum_or PhysicalPlanError " is invalid".

Definition physical_stage (value : json) : result PhysicalStage :=
  values ← mapping PhysicalPlanError value "physical stage";
  stage_id ← (v ← field "stage_id" values; string_ PhysicalPlanError v "stage_id");
  operators ← (v ← field "operators" values; physical_strings v "operators");
  partition_count ← (v ← field "partition_count" values; integer PhysicalPlanError v "partition_count");
  depends_on ← (v ← field "depends_on" values; physical_strings v "depends_on");
  new_stage {| ps_stage_id := stage_id; ps_operators := operators; ps_partition_count := partition_count;
               ps_depends_on := depends_on |}.

Definition physical_exchange (value : json) : result PhysicalExchange :=
  values ← mapping PhysicalPlanError value "physical exchange";
  exchange_id ← (v ← field "exchange_id" values; string_ PhysicalPlanError v "exchange_id");
  producer ← (v ← field "producer_stage_id" values; string_ PhysicalPlanError v "producer_stage_id");
  consumer ← (v ← field "consumer_stage_id" values; string_ PhysicalPlanError v "consumer_stage_id");
  transport ← (v ← field "transport" values;
               physical_enum [MEMORY; OBJECT_STORE] transport_value v "exchange transport");
  partitioning ← (v ← field "partitioning" values;
                  physical_enum [SINGLE; HASH; ROUND_ROBIN] partitioning_value v "partitioning strategy");
  partition_count ← (v ← field "partition_count" values; integer PhysicalPlanError v "partition_count");
  partition_keys ← (v ← field "partition_keys" values; physical_strings v "partition_keys");
  new_exchange {| pe_exchange_id := exchange_id; pe_producer_stage_id := producer; pe_consumer_stage_id := consumer;
                  pe_transport := transport; pe_partitioning := partitioning; pe_partition_count := partition_count;
                  pe_partition_keys := partition_keys |}.

Definition deserialize_physical_plan (data : list Z) : result PhysicalPlan :=
  _ ← plan_reject (bool_decide (data = []) || (MAX_PLAN_BYTES <? Z.of_nat (length data)))
        "physical-plan size is invalid";
  reading PhysicalPlanError "physical-plan record is invalid" (
    raw ← json_loads data;
    envelope ← mapping PhysicalPlanError raw "physical-plan envelope";
    _ ← plan_reject (negb (schema_in [PHYSICAL_PLAN_SCHEMA] envelope))
          "unsupported physical-plan schema";
    values ← (v ← field "plan" envelope; mapping PhysicalPlanError v "physical plan");
    stages ← (v ← field "stages" values; l ← sequence PhysicalPlanError v "stages"; read_all physical_stage l);
    exchanges ← (v ← field "exchanges" values; l ← sequence PhysicalPlanError v "exchanges";
                 read_all physical_exchange l);
    pipeline_id ← (v ← field "pipeline_id" values; string_ PhysicalPlanError v "pipeline_id");
    execution_mode ← (v ← field "execution_mode" values;
                      physical_enum [FUSED_CONTAINER; DISTRIBUTED] execution_mode_value v "execution mode");
    maximum_parallelism ← (v ← field "maximum_parallelism" values;
                           integer PhysicalPlanError v "maximum_parallelism");
    plan ← new_plan {| pp_pipeline_id := pipeline_id; pp_execution_mode := execution_mode; pp_stages := stages;
                       pp_exchanges := exchanges; pp_maximum_parallelism := maximum_parallelism;
                       pp_schema := PHYSICAL_PLAN_SCHEMA |};
    revision ← (v ← field "revision" envelope; string_ PhysicalPlanError v "revision");
    _ ← plan_reject (negb (bool_decide (revision = physical_plan_revision plan)))
          "physical-plan revision does not match its contents";
    _ ← plan_reject (negb (bool_decide (data = serialize_physical_plan plan)))
          "physical-plan record is not canonical";
    Ok plan).

(** A [PhysicalPlan] object: it and its parts passed their constructors. *)
Record physical_plan_value (p : PhysicalPlan) : Prop := {
  pv_plan : PhysicalPlan_post_init p = Ok tt;
  pv_stages : Forall (fun s => PhysicalStage_post_init s = Ok tt) (pp_stages p);
  pv_exchanges : Forall (fun e => PhysicalExchange_post_init e = Ok tt) (pp_exchanges p);
}.

#[local] Arguments PhysicalStage_post_init : simpl never.
#[local] Arguments PhysicalExchange_post_init : simpl never.
#[local] Arguments PhysicalPlan_post_init : simpl never.
#[local] Arguments physical_plan_revision : simpl never.
#[local] Arguments serialize_physical_plan : simpl never.

Lemma physical_strings_strings l label : physical_strings (JArr (map sorted_json (JStr <$> l))) label = Ok l.
Proof. unfold physical_strings. cbn [sequence mbind result_bind]. induction l as [|s l IH]; [done|]. cbn in *. by rewrite IH. Qed.

Lemma physical_enum_member {A} (members : list A) (value : A -> string) m label :
  m ∈ members -> (forall x y, value x = value y -> x = y) -> physical_enum members value (JStr (value m)) label = Ok m.
Proof. apply enum_or_member. Qed.

Ltac read_physical := first [read_field | rewrite physical_strings_strings; cbn [mbind result_bind]].

Lemma physical_stage_read s :
  PhysicalStage_post_init s = Ok tt -> physical_stage (sorted_json (stage_payload s)) = Ok s.
Proof.
  intros H. unfold physical_stage, stage_payload. repeat read_physical.
  unfold new_stage. destruct s; cbn in *. by rewrite H.
Qed.

Lemma physical_exchange_read e :
  PhysicalExchange_post_init e = Ok tt -> physical_exchange (sorted_json (exchange_payload e)) = Ok e.
Proof.
  intros H. unfold physical_exchange, exchange_payload. repeat read_physical.
  rewrite (physical_enum_member _ transport_value); [|by destruct (pe_transport e); repeat constructor|by intros [] []]. cbn [mbind result_bind].
  repeat read_physical.
  rewrite (physical_enum_member _ partitioning_value); [|by destruct (pe_partitioning e); repeat constructor|by intros [] []]. cbn [mbind result_bind].
  repeat read_physical. unfold new_exchange. destruct e; cbn in *. by rewrite H.
Qed.

Lemma plan_sizes p : physical_plan_value p ->
  1 <= pp_maximum_parallelism p <= MAX_PARTITIONS /\ pp_schema p = PHYSICAL_PLAN_SCHEMA.
Proof.
  intros [H _ _]. unfold PhysicalPlan_post_init, plan_reject in H. inv_ok. to_prop.
  split; [lia|done].
Qed.

Lemma physical_plan_json_ok p : physical_plan_value p -> json_ok (serialized_json p).
Proof.
  intros Hp. destruct (plan_sizes p Hp) as [Hm _]. destruct Hp as [_ Hs He].
  unfold serialized_json, physical_plan_payload. json_ok_fields.
  json_ok_fields.
  - apply json_ok_arr, Forall_fmap. eapply Forall_impl; [exact Hs|]. intros s H. unfold PhysicalStage_post_init, plan_reject in H.
    inv_ok. to_prop. unfold MAX_PARTITIONS in *. change (json_ok (stage_payload s)). json_ok_fields. apply json_ok_bounded. lia.
  - apply json_ok_arr, Forall_fmap. eapply Forall_impl; [exact He|]. intros e H. unfold PhysicalExchange_post_init, plan_reject in H.
    inv_ok. to_prop. unfold MAX_PARTITIONS in *. change (json_ok (exchange_payload e)). json_ok_fields. apply json_ok_bounded. lia.
  - apply json_ok_bounded. unfold MAX_PARTITIONS in *. lia.
Qed.

Lemma serialize_loads p : physical_plan_value p -> json_loads (serialize_physical_plan p) = Ok (sorted_json (serialized_json p)).
Proof. intros Hp. apply json_loads_canonical. by apply physical_plan_json_ok. Qed.

Lemma serialize_nonempty p : serialize_physical_plan p <> [].
Proof. unfold serialize_physical_plan, canonical_json, dumps_unicode, serialized_json. rewrite dumps_obj. apply encode_nonempty. Qed.

Local Opaque physical_plan_revision serialize_physical_plan.

(** The last checks, stated over the digest and the bytes as variables. *)
Lemma plan_tail envelope p data rev :
  field "revision" envelope = Ok (JStr rev) -> rev = physical_plan_revision p -> data = serialize_physical_plan p ->
  (revision ← (v ← field "revision" envelope; string_ PhysicalPlanError v "revision");
   _ ← plan_reject (negb (bool_decide (revision = physical_plan_revision p)))
         "physical-plan revision does not match its contents";
   _ ← plan_reject (negb (bool_decide (data = serialize_physical_plan p)))
         "physical-plan record is not canonical";
   Ok p) = Ok p.
Proof.
  intros -> Hr Hd. cbn [mbind result_bind string_].
  rewrite (bool_decide_true (rev = _)) by exact Hr. cbn [negb plan_reject reject_if mbind result_bind].
  rewrite (bool_decide_true (data = _)) by exact Hd. done.
Qed.

Lemma physical_plan_read p : physical_plan_value p ->
  Z.of_nat (length (serialize_physical_plan p)) <= MAX_PLAN_BYTES ->
  deserialize_physical_plan (serialize_physical_plan p) = Ok p.
Proof.
  intros Hp Hlen. pose proof (plan_sizes p Hp) as [_ Hschema]. unfold deserialize_physical_plan.
  rewrite bool_decide_false by apply serialize_nonempty.
  rewrite (proj2 (Z.ltb_ge _ _)) by done. cbn [orb]. unfold plan_reject at 1. cbn [reject_if mbind result_bind].
  apply reading_ok.
  assert (json_loads (serialize_physical_plan p) = Ok (sorted_json (serialized_json p))) as -> by by apply serialize_loads.
  cbn [mbind result_bind]. rewrite (mapping_sorted _ _ _ : mapping _ (sorted_json (serialized_json p)) _ = _). cbn [mbind result_bind].
  rewrite (schema_in_sorted _ _ PHYSICAL_PLAN_SCHEMA); [|vm_compute; reflexivity|reflexivity|set_solver].
  unfold plan_reject at 1. cbn [negb reject_if mbind result_bind].
  erewrite (field_sorted _ "plan"); [|vm_compute; reflexivity|reflexivity]. cbn [mbind result_bind].
  rewrite (mapping_sorted _ _ _ : mapping _ (sorted_json (physical_plan_payload p)) _ = _). cbn [mbind result_bind].
  destruct Hp as [Hplan Hs He].
  erewrite (field_sorted _ "stages"); [|vm_compute; reflexivity|reflexivity]. cbn [mbind result_bind sorted_json sequence].
  rewrite map_map, (read_all_map physical_stage _ id).
  2:{ intros x Hx. apply physical_stage_read. rewrite Forall_forall in Hs. auto. }
  cbn [mbind result_bind].
  erewrite (field_sorted _ "exchanges"); [|vm_compute; reflexivity|reflexivity]. cbn [mbind result_bind sorted_json sequence].
  rewrite map_map, (read_all_map physical_exchange _ id).
  2:{ intros x Hx. apply physical_exchange_read. rewrite Forall_forall in He. auto. }
  cbn [mbind result_bind]. rewrite !map_id.
  erewrite (field_sorted _ "pipeline_id"); [|vm_compute; reflexivity|reflexivity]. cbn [mbind result_bind sorted_json string_].
  erewrite (field_sorted _ "execution_mode"); [|vm_compute; reflexivity|reflexivity]. cbn [mbind result_bind sorted_json].
  rewrite (physical_enum_member _ execution_mode_value);
    [|by destruct (pp_execution_mode p); repeat constructor|by intros [] []].
  cbn [mbind result_bind].
  erewrite (field_sorted _ "maximum_parallelism"); [|vm_compute; reflexivity|reflexivity].
  cbn [mbind result_bind sorted_json integer].
  assert ({| pp_pipeline_id := pp_pipeline_id p; pp_execution_mode := pp_execution_mode p; pp_stages := pp_stages p;
             pp_exchanges := pp_exchanges p; pp_maximum_parallelism := pp_maximum_parallelism p;
             pp_schema := PHYSICAL_PLAN_SCHEMA |} = p) as -> by (rewrite <- Hschema; by destruct p).
  unfold new_plan. rewrite Hplan. cbn [mbind result_bind].
  apply plan_tail with (rev := physical_plan_revision p); [|done..]. by rewrite (field_sorted _ "revision" (JStr (physical_plan_revision p))).
Qed.

(** The reader of physical plans accepts exactly the canonical bytes of
    valid plans, within the size bound: whatever it returns passed every
    constructor and re-serializes to the very bytes that were read, so no two
    byte strings read as the same plan and a tampered revision is refused; and
    every valid plan of an admissible size is read back unchanged. *)
Theorem physical_plan_codec data p :
  deserialize_physical_plan data = Ok p <->
  physical_plan_value p /\ data = serialize_physical_plan p /\ Z.of_nat (length data) <= MAX_PLAN_BYTES.
Proof.
  split; [|intros (Hp & -> & Hlen); by apply physical_plan_read].
  unfold deserialize_physical_plan, plan_reject. intros [Hsize H]%seq_ok. apply reject_if_tt in Hsize.
  apply reading_ok_inv in H. inv_ok. to_prop.
  match goal with H : new_plan _ = Ok p |- _ => apply seq_ok in H as [Hpost [= <-]] end.
  split; [|done]. split; [done|..]; cbn [pp_stages pp_exchanges].
  - eapply read_all_forall; [|eassumption]. intros v s Hv. unfold physical_stage in Hv. inv_ok.
    match goal with H : new_stage _ = Ok s |- _ => by apply seq_ok in H as [Hs [= <-]] end.
  - eapply read_all_forall; [|eassumption]. intros v e Hv. unfold physical_exchange in Hv. inv_ok.
    match goal with H : new_exchange _ = Ok e |- _ => by apply seq_ok in H as [Hs [= <-]] end.
Qed.
