(* ===== verification/Graph.v ===== *)
(** * Pipeline graphs ([pipeline/graph.py], [pipeline/operations.py],
    [pipeline/node_config.py])

    The document model and the validators its models run on construction.  A
    validator raises [ValueError]; pydantic reports it as its own subclass.
    Free-form members ([metadata], an unmodelled [config], a request spec, the
    presentation blocks) are opaque JSON: no modelled code looks inside them. *)

From S2P Require Import Prelude Regex PyStr PyTime Json.

Local Open Scope string_scope.
Local Open Scope Z_scope.

(** A model value exists once its validators have returned. *)
Definition model_error {A} (m : string) : result A := raise_ ValueError m.
Definition forbid (b : bool) (m : string) : result unit := reject_if b ValueError m.

(** ** Fields and transformations *)

Record NodeField : Type := {
  nf_name : string;
  nf_type : string;
  nf_cast_to : option string;
  nf_nullable : bool;
  nf_description : option string;
  nf_tests : list json;
  nf_extensions : list json;
  nf_metadata : json;
}.

Inductive TransformationKind : Type := DIRECT | EXPRESSION | CONSTANT | CUSTOM_CODE.
#[export] Instance TransformationKind_eq_dec : EqDecision TransformationKind.
Proof. solve_decision. Defined.

Definition identifier_head : ascii -> bool := either (either lower upper) (one_of "_").
Definition identifier_tail : ascii -> bool := either identifier_head digit.
Definition IDENTIFIER : re := Cat (Cls identifier_head) (Star (Cls identifier_tail)).
Definition FUNCTION_KEY : re := Cat IDENTIFIER (Star (Cat (lit ".") IDENTIFIER)).

(** [tr_constant_set] is ['constant' in model_fields_set]. *)
Record Transformation : Type := {
  tr_kind : TransformationKind;
  tr_expression : option string;
  tr_constant : json;
  tr_constant_set : bool;
  tr_function : option string;
  tr_arguments : list (string * json);
  tr_inputs : list string;
  tr_metadata : json;
}.

Definition is_null (v : json) : bool := match v with JNull => true | _ => false end.
Definition missing_text (o : option string) : bool := match o with None => true | Some s => blank s end.

Definition check_function_shape (f : option string) : result unit :=
  when_some f (fun value =>
    let stripped := strip value in
    forbid (empty stripped || negb (fullmatch FUNCTION_KEY stripped))
      "Transformation.function must be a dotted registry-key identifier").

Definition check_kind_payload (t : Transformation) : result unit :=
  let sets_arguments := match tr_arguments t with [] => false | _ => true end in
  match tr_kind t with
  | EXPRESSION =>
      _ ← forbid (missing_text (tr_expression t)) "Transformation(kind=expression) requires a non-empty 'expression'.";
      _ ← forbid (negb (is_null (tr_constant t))) "Transformation(kind=expression) must not set 'constant'.";
      _ ← forbid (is_some (tr_function t)) "Transformation(kind=expression) must not set 'function'.";
      forbid sets_arguments "Transformation(kind=expression) must not set 'arguments'."
  | CONSTANT =>
      _ ← forbid (negb (tr_constant_set t)) "Transformation(kind=constant) requires a 'constant' literal to be set.";
      _ ← forbid (is_some (tr_expression t)) "Transformation(kind=constant) must not set 'expression'.";
      _ ← forbid (is_some (tr_function t)) "Transformation(kind=constant) must not set 'function'.";
      forbid sets_arguments "Transformation(kind=constant) must not set 'arguments'."
  | CUSTOM_CODE =>
      _ ← forbid (missing_text (tr_function t))
            "Transformation(kind=custom_code) requires a non-empty 'function' registry key.";
      _ ← forbid (is_some (tr_expression t)) "Transformation(kind=custom_code) must not set 'expression'.";
      forbid (negb (is_null (tr_constant t))) "Transformation(kind=custom_code) must not set 'constant'."
  | DIRECT =>
      _ ← forbid (is_some (tr_expression t)) "Transformation(kind=direct) must not set 'expression'.";
      _ ← forbid (negb (is_null (tr_constant t))) "Transformation(kind=direct) must not set 'constant'.";
      _ ← forbid (is_some (tr_function t)) "Transformation(kind=direct) must not set 'function'.";
      forbid sets_arguments "Transformation(kind=direct) must not set 'arguments'."
  end.

Definition new_transformation (t : Transformation) : result Transformation :=
  _ ← check_function_shape (tr_function t);
  _ ← check_kind_payload t;
  Ok t.

(** ** Edges *)

Record FieldMapping : Type := {
  fm_source : option string;
  fm_target : string;
  fm_transformation : option Transformation;
  fm_metadata : json;
}.

Definition new_mapping (m : FieldMapping) : result FieldMapping :=
  _ ← forbid
        (is_none (fm_source m)
         && match fm_transformation m with
            | None => true
            | Some t => negb (bool_decide (tr_kind t ∈ [EXPRESSION; CONSTANT; CUSTOM_CODE]))
            end)
        "FieldMapping with source=None (a derived field) requires a transformation";
  Ok m.

Inductive JoinType : Type := INNER | LEFT | RIGHT | FULL.
#[export] Instance JoinType_eq_dec : EqDecision JoinType.
Proof. solve_decision. Defined.

Record JoinKeyPair : Type := { jk_left : string; jk_right : string }.
Record JoinSpec : Type := { js_type : JoinType; js_keys : list JoinKeyPair; js_metadata : json }.

Definition new_join (j : JoinSpec) : result JoinSpec :=
  _ ← forbid (match js_keys j with [] => true | _ => false end) "List should have at least 1 item"; Ok j.

Record Edge : Type := {
  ed_source : string;
  ed_target : string;
  ed_metadata : json;
  ed_mappings : list FieldMapping;
  ed_join : option JoinSpec;
}.

(** ** Operations *)

Inductive OperationKind : Type := TRUNCATE_STRING | TRIM_WHITESPACE | DEFAULT_VALUE | FILTER_ROWS.
Inductive ComparisonOperator : Type := EQ | NE | GT | GTE | LT | LTE | IN | NOT_IN | IS_NULL | IS_NOT_NULL.
Inductive MatchLogic : Type := ALL | ANY.
#[export] Instance ComparisonOperator_eq_dec : EqDecision ComparisonOperator.
Proof. solve_decision. Defined.

Definition operation_kind_value (k : OperationKind) : string :=
  match k with
  | TRUNCATE_STRING => "truncate_string"
  | TRIM_WHITESPACE => "trim_whitespace"
  | DEFAULT_VALUE => "default_value"
  | FILTER_ROWS => "filter_rows"
  end.

(** [OperationScalar | list[OperationScalar] | None]. *)
Inductive condition_value : Type :=
  | NoValue
  | Scalar (v : json)
  | Scalars (l : list json).

Record FieldCondition : Type := { fc_field : string; fc_op : ComparisonOperator; fc_value : condition_value }.

Definition new_condition (c : FieldCondition) : result FieldCondition :=
  _ ← forbid (negb (fullmatch IDENTIFIER (fc_field c))) "String should match pattern";
  _ ← (match fc_op c, fc_value c with
       | (IS_NULL | IS_NOT_NULL), v =>
           forbid (match v with NoValue => false | _ => true end) "Filter operator must not set 'value'"
       | (IN | NOT_IN), v =>
           forbid (match v with Scalars (_ :: _) => false | _ => true end)
             "Filter operator requires a non-empty list"
       | _, v =>
           forbid (match v with Scalar _ => false | _ => true end) "Filter operator requires one scalar value"
       end);
  Ok c.

Inductive OperationParams : Type :=
  | TruncateStringParams (field : string) (max_length : Z)
  | TrimWhitespaceParams (field : string)
  | DefaultValueParams (field : string) (default : json)
  | FilterRowsParams (conditions : list FieldCondition) (logic : MatchLogic).

(** [_PARAM_TYPES] routes each kind to its parameter model. *)
Record OperationSpec : Type := { os_kind : OperationKind; os_params : OperationParams; os_metadata : json }.

Definition check_params (k : OperationKind) (p : OperationParams) : result unit :=
  match k, p with
  | TRUNCATE_STRING, TruncateStringParams f n =>
      _ ← forbid (negb (fullmatch IDENTIFIER f)) "String should match pattern";
      forbid (n <? 0) "Input should be greater than or equal to 0"
  | TRIM_WHITESPACE, TrimWhitespaceParams f => forbid (negb (fullmatch IDENTIFIER f)) "String should match pattern"
  | DEFAULT_VALUE, DefaultValueParams f _ => forbid (negb (fullmatch IDENTIFIER f)) "String should match pattern"
  | FILTER_ROWS, FilterRowsParams cs _ =>
      _ ← forbid (match cs with [] => true | _ => false end) "List should have at least 1 item";
      for_each (fun c => _ ← new_condition c; Ok tt) cs
  | _, _ => model_error "operation parameters do not match their kind"
  end.

Definition new_operation (o : OperationSpec) : result OperationSpec :=
  _ ← check_params (os_kind o) (os_params o); Ok o.

Definition referenced_fields (o : OperationSpec) : list string :=
  match os_params o with
  | FilterRowsParams cs _ => map fc_field cs
  | TruncateStringParams f _ | TrimWhitespaceParams f | DefaultValueParams f _ => [f]
  end.

(** ** Node configuration *)

Record ExecutableJoinKey : Type := { xk_left : string; xk_right : string }.
Record TransformJoinConfig : Type := {
  tj_left_input : string;
  tj_right_input : string;
  tj_type : JoinType;
  tj_keys : list ExecutableJoinKey;
}.

Definition new_transform_join (j : TransformJoinConfig) : result TransformJoinConfig :=
  _ ← forbid (empty (tj_left_input j) || empty (tj_right_input j)) "String should have at least 1 character";
  _ ← forbid (match tj_keys j with [] => true | _ => false end) "List should have at least 1 item";
  _ ← forbid (existsb (fun k => empty (xk_left k) || empty (xk_right k)) (tj_keys j))
        "String should have at least 1 character";
  _ ← forbid (bool_decide (tj_left_input j = tj_right_input j))
        "TransformJoinConfig requires distinct left and right inputs";
  Ok j.

Inductive WriteMode : Type := SCD1 | SCD2 | SNAPSHOT | INCREMENTAL | REPLACE.
Inductive SchemaEvolution : Type := STRICT | ADDITIVE.
Inductive WriteTransport : Type := LOAD_JOB | STORAGE_WRITE | COPY | DIRECT_TRANSPORT.
Inductive PartitioningType : Type := HOUR | DAY | MONTH | YEAR.
#[export] Instance WriteMode_eq_dec : EqDecision WriteMode.
Proof. solve_decision. Defined.
#[export] Instance WriteTransport_eq_dec : EqDecision WriteTransport.
Proof. solve_decision. Defined.

Record PartitioningSpec : Type := {
  pt_field : option string;
  pt_granularity : PartitioningType;
  pt_require_partition_filter : bool;
}.
Record DestinationSpec : Type := {
  de_project : option string;
  de_dataset : string;
  de_table : string;
  de_business_key : list string;
}.
Record WriterConfig : Type := {
  wc_write_mode : WriteMode;
  wc_destination : DestinationSpec;
  wc_cursor_field : option string;
  wc_partitioning : option PartitioningSpec;
  wc_clustering : list string;
  wc_max_batch_rows : Z;
  wc_schema_evolution : SchemaEvolution;
  wc_transport : WriteTransport;
}.

Definition check_mode_requirements (w : WriterConfig) : result unit :=
  _ ← forbid
        (bool_decide (wc_write_mode w ∈ [SCD1; SCD2; INCREMENTAL])
         && bool_decide (de_business_key (wc_destination w) = []))
        "WriterConfig requires a non-empty 'destination.business_key'.";
  _ ← forbid (bool_decide (wc_write_mode w = INCREMENTAL) && missing_text (wc_cursor_field w))
        "WriterConfig(write_mode=incremental) requires a non-empty 'cursor_field'.";
  _ ← forbid (has_dup (wc_clustering w)) "WriterConfig.clustering must not contain duplicate column names.";
  _ ← forbid
        (bool_decide (wc_transport w = STORAGE_WRITE)
         && negb (bool_decide (wc_write_mode w ∈ [SCD1; INCREMENTAL])))
        "WriterConfig(transport=storage_write) supports only scd1 or incremental mode.";
  forbid (bool_decide (wc_transport w = DIRECT_TRANSPORT))
    "WriterConfig(transport=direct) is provider-selected and cannot be authored.".

Definition new_writer (w : WriterConfig) : result WriterConfig :=
  _ ← forbid (empty (de_dataset (wc_destination w)) || empty (de_table (wc_destination w)))
        "String should have at least 1 character";
  _ ← forbid (4 <? Z.of_nat (length (wc_clustering w))) "List should have at most 4 items";
  _ ← forbid (negb ((0 <? wc_max_batch_rows w) && (wc_max_batch_rows w <=? 100000))) "Input is out of range";
  _ ← check_mode_requirements w;
  Ok w.

(** [SourceNodeConfig], [TransformNodeConfig], [TargetNodeConfig] or, for an
    unmodelled node type, the free-form dictionary. *)
Inductive NodeConfig : Type :=
  | SourceNodeConfig (connector endpoint : option string) (request extra : json)
  | TransformNodeConfig (join : option TransformJoinConfig) (operations : list OperationSpec) (extra : json)
  | TargetNodeConfig (writer : option WriterConfig) (extra : json)
  | FreeConfig (config : json).

Record Node : Type := {
  nd_id : string;
  nd_type : string;
  nd_name : string;
  nd_config : NodeConfig;
  nd_fields : list NodeField;
  nd_trigger : json;
  nd_cursor : json;
  nd_visual : json;
}.

(** [resolve_node_config] on an already typed configuration. *)
Definition new_node (n : Node) : result Node :=
  let ok :=
    match nd_config n with
    | SourceNodeConfig _ _ _ _ => bool_decide (nd_type n = "source")
    | TransformNodeConfig _ _ _ => bool_decide (nd_type n = "transform")
    | TargetNodeConfig _ _ => bool_decide (nd_type n = "target")
    | FreeConfig _ => negb (bool_decide (nd_type n ∈ ["source"; "transform"; "target"]))
    end in
  _ ← forbid (negb ok) "node config does not match its type"; Ok n.

Record PipelineGraph : Type := {
  pg_name : string;
  pg_nodes : list Node;
  pg_edges : list Edge;
  pg_trigger : json;
}.

Definition node_ids (g : PipelineGraph) : list string := map nd_id (pg_nodes g).

(** [repair.py]: the date window, as days since the epoch. *)
Record GraphRepairWindow : Type := { rw_start_date : Z; rw_end_date : Z }.
#[export] Instance GraphRepairWindow_eq_dec : EqDecision GraphRepairWindow.
Proof. solve_decision. Defined.

Definition new_repair_window (w : GraphRepairWindow) : result GraphRepairWindow :=
  _ ← forbid (rw_end_date w <=? rw_start_date w) "Repair end_date must be after start_date (exclusive)";
  Ok w.

(** [window.model_dump(mode="json")]. *)
Definition repair_window_dump (w : GraphRepairWindow) : json :=
  JObj [("start_date", JStr (date_isoformat (civil_from_days (rw_start_date w))));
        ("end_date", JStr (date_isoformat (civil_from_days (rw_end_date w))))].

(** A derived mapping always carries logic, and that logic is of one kind only. *)
Lemma new_mapping_derived m m' :
  new_mapping m = Ok m' -> fm_source m = None ->
  exists t, fm_transformation m = Some t /\ tr_kind t <> DIRECT.
Proof.
  unfold new_mapping, forbid. intros [H _]%seq_ok Hs. apply reject_if_tt in H. rewrite Hs in H. cbn in H.
  destruct (fm_transformation m) as [t|]; [|done]. exists t. split; [done|].
  apply negb_false_iff, bool_decide_eq_true in H. intros E. rewrite E in H. set_solver.
Qed.
