(* ===== verification/GraphOps.v ===== *)
(** * Graph validation and ordering ([pipeline/graph_ops.py], [pipeline/repair.py])

    Structural validation, the adjacency index, the depth-first topological
    order and the field-wiring checks.  The errors carry the attributes their
    classes declare in [exn_args]. *)

From S2P Require Import Prelude Regex PyStr PyTime Json Dfs Graph.

Local Open Scope string_scope.
Local Open Scope list_scope.

(** ** [AdjacencyIndex] *)

Record AdjacencyIndex : Type := {
  ai_successors : gmap string (list string);
  ai_predecessors : gmap string (list string);
}.

(** [index.setdefault(k, []).append(v)]. *)
Definition append_at (k v : string) (m : gmap string (list string)) : gmap string (list string) :=
  <[k := default [] (m !! k) ++ [v]]> m.

Definition AdjacencyIndex_from_graph (g : PipelineGraph) : AdjacencyIndex :=
  let empty_lists := list_to_map (map (fun i => (i, [])) (node_ids g)) in
  fold_left
    (fun a e => {| ai_successors := append_at (ed_source e) (ed_target e) (ai_successors a);
                   ai_predecessors := append_at (ed_target e) (ed_source e) (ai_predecessors a) |})
    (pg_edges g) {| ai_successors := empty_lists; ai_predecessors := empty_lists |}.

Definition successors (a : AdjacencyIndex) (node_id : string) : list string :=
  default [] (ai_successors a !! node_id).
Definition predecessors (a : AdjacencyIndex) (node_id : string) : list string :=
  default [] (ai_predecessors a !! node_id).

(** ** Structural checks *)

(** The first element already seen, if any, is reported by [err]. *)
Fixpoint check_unique (err : string -> exn) (seen : gset string) (l : list string) : result unit :=
  match l with
  | [] => Ok tt
  | x :: l => if bool_decide (x ∈ seen) then Raise (err x) else check_unique err (seen ∪ {[x]}) l
  end.

Definition duplicate_node_id (i : string) : exn :=
  Exn DuplicateNodeIdError "Duplicate node id appears more than once in the graph." [i].
Definition dangling_edge (e : Edge) (missing : string) : exn :=
  Exn DanglingEdgeError "Dangling edge: node id does not exist." [ed_source e; ed_target e; missing].
Definition self_loop (i : string) : exn := Exn SelfLoopError "Self-loop detected." [i].
Definition graph_cycle (cycle : list string) : exn := Exn GraphCycleError "Cycle detected in graph" cycle.

Definition check_duplicate_node_ids (g : PipelineGraph) : result unit :=
  check_unique duplicate_node_id ∅ (node_ids g).

Definition check_dangling_edges (g : PipelineGraph) : result unit :=
  for_each (fun e =>
    if bool_decide (ed_source e ∉ node_ids g) then Raise (dangling_edge e (ed_source e))
    else if bool_decide (ed_target e ∉ node_ids g) then Raise (dangling_edge e (ed_target e))
    else Ok tt) (pg_edges g).

Definition check_self_loops (g : PipelineGraph) : result unit :=
  for_each (fun e => if bool_decide (ed_source e = ed_target e) then Raise (self_loop (ed_source e)) else Ok tt)
    (pg_edges g).

(** ** [_dfs_topological_order] *)

Inductive color : Type := WHITE | GREY | BLACK.
#[export] Instance color_eq_dec : EqDecision color.
Proof. solve_decision. Defined.

Record marks : Type := Marks {
  mk_color : gmap string color;
  mk_order : list string;
  mk_stack_path : list string;
}.

(** The loop over the neighbours; [descend] is the recursive [visit]. *)
Fixpoint visit_neighbors (descend : string -> marks -> result marks) (l : list string) (s : marks)
    : result marks :=
  match l with
  | [] => Ok s
  | neighbor :: l =>
      s' ← match mk_color s !! neighbor with
           | None => raise_ KeyError neighbor
           | Some WHITE => descend neighbor s
           | Some GREY => Raise (graph_cycle (from_index neighbor (mk_stack_path s) ++ [neighbor]))
           | Some BLACK => Ok s
           end;
      visit_neighbors descend l s'
  end.

Fixpoint visit_node (fuel : nat) (a : AdjacencyIndex) (node_id : string) (s : marks) : result marks :=
  match fuel with
  | O => Raise out_of_fuel
  | S fuel =>
      s' ← visit_neighbors (visit_node fuel a) (successors a node_id)
             (Marks (<[node_id := GREY]> (mk_color s)) (mk_order s) (mk_stack_path s ++ [node_id]));
      Ok (Marks (<[node_id := BLACK]> (mk_color s')) (mk_order s' ++ [node_id])
                (removelast (mk_stack_path s')))
  end.

Fixpoint visit_roots (visit : string -> marks -> result marks) (ids : list string) (s : marks)
    : result marks :=
  match ids with
  | [] => Ok s
  | node_id :: ids =>
      s' ← match mk_color s !! node_id with
           | None => raise_ KeyError node_id
           | Some WHITE => visit node_id s
           | Some _ => Ok s
           end;
      visit_roots visit ids s'
  end.

Definition white_marks (ids : list string) : marks :=
  Marks (list_to_map (map (fun i => (i, WHITE)) ids)) [] [].

(** One more than the number of nodes bounds the depth of the recursion. *)
Definition dfs_topological_order (ids : list string) (a : AdjacencyIndex) : result (list string) :=
  s ← visit_roots (visit_node (S (length ids)) a) ids (white_marks ids);
  Ok (reverse (mk_order s)).

Definition check_acyclic (g : PipelineGraph) : result unit :=
  _ ← dfs_topological_order (node_ids g) (AdjacencyIndex_from_graph g); Ok tt.

Definition validate (g : PipelineGraph) : result unit :=
  _ ← check_duplicate_node_ids g;
  _ ← check_dangling_edges g;
  _ ← check_self_loops g;
  check_acyclic g.

Definition topological_order (g : PipelineGraph) : result (list string) :=
  _ ← validate g;
  dfs_topological_order (node_ids g) (AdjacencyIndex_from_graph g).

(** ** Field wiring *)

Abbreviation FieldIndex := (gmap string (gset string)).

Definition FieldIndex_from_graph (g : PipelineGraph) : FieldIndex :=
  fold_left (fun m n => <[nd_id n := list_to_set (map nf_name (nd_fields n))]> m) (pg_nodes g) ∅.

Definition has (index : FieldIndex) (node_id field_name : string) : bool :=
  bool_decide (field_name ∈ default ∅ (index !! node_id)).

Definition unknown_field (cls : exn_class) (node_id field_name : string) (e : Edge) (kind : string)
    (extra : list string) : exn :=
  Exn cls "field reference is not declared"
    ([node_id; field_name; ed_source e; ed_target e; kind] ++ extra).

(** Raise [err] unless the node declares the field. *)
Definition require_field (index : FieldIndex) (node_id field_name : string) (err : exn) : result unit :=
  if has index node_id field_name then Ok tt else Raise err.

Definition duplicate_field (node_id field_name : string) : exn :=
  Exn DuplicateFieldNameError "Duplicate field name on node" [node_id; field_name].

Definition check_duplicate_field_names (g : PipelineGraph) : result unit :=
  for_each (fun n => check_unique (duplicate_field (nd_id n)) ∅ (map nf_name (nd_fields n))) (pg_nodes g).

Definition check_mapping_fields (g : PipelineGraph) (index : FieldIndex) : result unit :=
  for_each (fun e =>
    for_each (fun m =>
      _ ← when_some (fm_source m) (fun f =>
            require_field index (ed_source e) f
              (unknown_field UnknownFieldReferenceError (ed_source e) f e "mapping_source" []));
      require_field index (ed_target e) (fm_target m)
        (unknown_field UnknownFieldReferenceError (ed_target e) (fm_target m) e "mapping_target" []))
      (ed_mappings e))
    (pg_edges g).

Definition check_transformation_fields (g : PipelineGraph) (index : FieldIndex) : result unit :=
  for_each (fun e =>
    for_each (fun m =>
      when_some (fm_transformation m) (fun t =>
        for_each (fun f =>
          require_field index (ed_source e) f
            (unknown_field UnknownFieldReferenceError (ed_source e) f e "transformation_input" []))
          (tr_inputs t)))
      (ed_mappings e))
    (pg_edges g).

Definition check_join_fields (g : PipelineGraph) (index : FieldIndex) : result unit :=
  for_each (fun e =>
    when_some (ed_join e) (fun j =>
      for_each (fun ik =>
        let key_index := py_str (Z.of_nat ik.1) in
        _ ← require_field index (ed_source e) (jk_left ik.2)
              (unknown_field JoinKeyFieldError (ed_source e) (jk_left ik.2) e "join_left" [key_index]);
        require_field index (ed_target e) (jk_right ik.2)
          (unknown_field JoinKeyFieldError (ed_target e) (jk_right ik.2) e "join_right" [key_index]))
        (imap pair (js_keys j))))
    (pg_edges g).

Definition check_operation_fields (g : PipelineGraph) (index : FieldIndex) : result unit :=
  for_each (fun n =>
    match nd_config n with
    | TransformNodeConfig _ operations _ =>
        for_each (fun io =>
          for_each (fun f =>
            require_field index (nd_id n) f
              (Exn UnknownOperationFieldError "operation references undeclared output field"
                 [nd_id n; f; operation_kind_value (os_kind io.2); py_str (Z.of_nat io.1)]))
            (referenced_fields io.2))
          (imap pair operations)
    | _ => Ok tt
    end)
    (pg_nodes g).

Definition validate_field_wiring (g : PipelineGraph) : result unit :=
  _ ← validate g;
  _ ← check_duplicate_field_names g;
  let index := FieldIndex_from_graph g in
  _ ← check_mapping_fields g index;
  _ ← check_transformation_fields g index;
  _ ← check_join_fields g index;
  check_operation_fields g index.

(** ** The adjacency index holds exactly the edges *)

Definition edge_to (g : PipelineGraph) (x y : string) : Prop :=
  exists e, e ∈ pg_edges g /\ ed_source e = x /\ ed_target e = y.

Lemma append_at_lookup k v m x y :
  y ∈ default [] (append_at k v m !! x) <-> y ∈ default [] (m !! x) \/ (x = k /\ y = v).
Proof.
  unfold append_at. rewrite lookup_insert. case_decide; cbn; [|naive_solver].
  subst. rewrite elem_of_app, list_elem_of_singleton. naive_solver.
Qed.

Lemma init_lists_empty ids x y :
  y ∉ default [] ((list_to_map (map (fun i => (i, [])) ids) : gmap string (list string)) !! x).
Proof.
  destruct (_ !! x) as [l|] eqn:E; cbn; [|set_solver].
  apply elem_of_list_to_map_2, list_elem_of_fmap in E as (i & [= -> ->] & _). set_solver.
Qed.

Lemma successors_spec g x y : y ∈ successors (AdjacencyIndex_from_graph g) x <-> edge_to g x y.
Proof.
  unfold successors, AdjacencyIndex_from_graph, edge_to.
  set (a0 := {| ai_successors := _ |}). pose proof (init_lists_empty (node_ids g) x y) as H0.
  assert (y ∈ default [] (ai_successors a0 !! x) <-> False) as Ha by (split; [intros H; by apply H0 in H|done]).
  clearbody a0. clear H0.
  enough (forall es a P, (y ∈ default [] (ai_successors a !! x) <-> P) ->
    (y ∈ default [] (ai_successors (fold_left
      (fun a e => {| ai_successors := append_at (ed_source e) (ed_target e) (ai_successors a);
         ai_predecessors := append_at (ed_target e) (ed_source e) (ai_predecessors a) |}) es a) !! x)
     <-> P \/ exists e, e ∈ es /\ ed_source e = x /\ ed_target e = y)) as H
    by (rewrite (H _ _ _ Ha); naive_solver).
  clear a0 Ha. intros es; induction es as [|e es IH]; intros a P HP; cbn.
  - rewrite HP. set_solver.
  - rewrite (IH _ (P \/ (x = ed_source e /\ y = ed_target e))).
    + setoid_rewrite elem_of_cons. naive_solver.
    + cbn. by rewrite append_at_lookup, HP.
Qed.

(** ** [_dfs_topological_order] is the three-colour search *)

Section Simulation.
Context (a : AdjacencyIndex) (ids : list string).
Context (closed : forall x y, x ∈ ids -> y ∈ successors a x -> y ∈ ids).

Definition mark_color (o : option mark) : color :=
  match o with None => WHITE | Some Grey => GREY | Some Black => BLACK end.

Record same_marks (m : marks) (s : dfs) : Prop := {
  sm_color x : x ∈ ids -> mk_color m !! x = Some (mark_color (df_state s !! x));
  sm_order : mk_order m = df_order s;
  sm_stack : mk_stack_path m = df_stack s;
}.

Definition follows (r : result marks) (q : result dfs) : Prop :=
  match r, q with
  | Ok m, Ok s => same_marks m s
  | Raise e, Raise e' => e = e'
  | _, _ => False
  end.

Abbreviation search_visit := (visit (successors a) graph_cycle).

Lemma visit_neighbors_follows fuel l m s :
  (forall x m s, x ∈ ids -> df_state s !! x = None -> same_marks m s ->
     search_visit fuel x s <> Raise out_of_fuel ->
     follows (visit_node fuel a x m) (search_visit fuel x s)) ->
  (forall x, x ∈ l -> x ∈ ids) -> same_marks m s ->
  visit_all (search_visit fuel) l s <> Raise out_of_fuel ->
  follows (visit_neighbors (visit_node fuel a) l m) (visit_all (search_visit fuel) l s).
Proof.
  intros Hf. revert m s; induction l as [|x l IH]; intros m s Hl Hs Hfuel; [done|].
  cbn in *. assert (x ∈ ids) as Hx by (apply Hl; left). rewrite (sm_color _ _ Hs x Hx).
  destruct (df_state s !! x) as [[]|] eqn:E; cbn.
  - destruct fuel as [|fuel]; [done|]. cbn in *. rewrite E in *. cbn in *. by rewrite (sm_stack _ _ Hs).
  - destruct fuel as [|fuel]; [done|]. cbn in Hfuel |- *. rewrite E in *. cbn in *. apply IH; auto.
    intros; apply Hl; by right.
  - pose proof (Hf x m s Hx E Hs) as H1. destruct (search_visit fuel x s) as [s1|e]; cbn in *.
    + destruct (visit_node fuel a x m) as [m1|]; cbn in *; [|by exfalso; apply H1].
      apply IH; auto. intros; apply Hl; by right.
    + specialize (H1 Hfuel). destruct (visit_node fuel a x m); done.
Qed.

Lemma visit_node_follows fuel x m s :
  x ∈ ids -> df_state s !! x = None -> same_marks m s ->
  search_visit fuel x s <> Raise out_of_fuel ->
  follows (visit_node fuel a x m) (search_visit fuel x s).
Proof.
  revert x m s; induction fuel as [|fuel IH]; intros x m s Hx E Hs Hfuel; [done|].
  cbn in *. rewrite E in *.
  set (s0 := Dfs _ _ _) in *. set (m0 := Marks _ _ _).
  assert (same_marks m0 s0) as Hs0.
  { split; cbn; [|apply (sm_order _ _ Hs)|by rewrite (sm_stack _ _ Hs)].
    intros y Hy. rewrite !lookup_insert. case_decide; [done|]. by apply (sm_color _ _ Hs). }
  pose proof (visit_neighbors_follows fuel (successors a x) m0 s0 IH (fun y => closed x y Hx) Hs0) as H.
  destruct (visit_all (search_visit fuel) (successors a x) s0) as [s1|e]; cbn in *.
  - specialize (H ltac:(done)). destruct (visit_neighbors _ _ m0) as [m1|]; [|done]. cbn in *.
    split; cbn; [|by rewrite (sm_order _ _ H)|by rewrite (sm_stack _ _ H)].
    intros y Hy. rewrite !lookup_insert. case_decide; [done|]. by apply (sm_color _ _ H).
  - specialize (H Hfuel). destruct (visit_neighbors _ _ m0); done.
Qed.

Lemma cycle_not_fuel e : found_cycle (successors a) graph_cycle e -> e <> out_of_fuel.
Proof. by intros (c & -> & _). Qed.

Lemma visit_roots_follows l m s :
  (forall x, x ∈ l -> x ∈ ids) -> same_marks m s ->
  inv (successors a) ids s -> df_stack s = [] ->
  follows (visit_roots (visit_node (S (length ids)) a) l m) (visit_all (search_visit (S (length ids))) l s).
Proof.
  revert m s; induction l as [|x l IH]; intros m s Hl Hs Hi Hst; [done|].
  cbn [visit_roots visit_all]. assert (x ∈ ids) as Hx by (apply Hl; left).
  pose proof (visit_spec _ graph_cycle ids closed (S (length ids)) s x Hi (or_introl Hst) Hx ltac:(lia)) as Hv.
  rewrite (sm_color _ _ Hs x Hx). destruct (df_state s !! x) as [[]|] eqn:E; cbn [mark_color].
  - apply (inv_grey _ _ _ Hi) in E. rewrite Hst in E. set_solver.
  - cbn [visit] in *. rewrite E in *. cbn. apply IH; auto. intros; apply Hl; by right.
  - pose proof (visit_node_follows (S (length ids)) x m s Hx E Hs) as H1.
    destruct (search_visit _ x s) as [s1|e]; cbn [visit_post] in Hv.
    + destruct Hv as (Hi1 & Hg1 & _). specialize (H1 ltac:(done)).
      destruct (visit_node _ a x m) as [m1|]; [|done]. cbn in *. apply IH; auto.
      * intros; apply Hl; by right.
      * by rewrite (gr_stack _ _ _ _ Hg1).
    + apply cycle_not_fuel in Hv. specialize (H1 ltac:(congruence)). by destruct (visit_node _ a x m).
Qed.

Lemma same_marks_start : same_marks (white_marks ids) dfs_start.
Proof.
  split; [|done..]. intros x Hx. cbn. rewrite lookup_empty. cbn.
  destruct (_ !! x) as [c|] eqn:E.
  - apply elem_of_list_to_map_2, list_elem_of_fmap in E as (i & [= -> ->] & _). done.
  - apply not_elem_of_list_to_map in E. destruct E. rewrite map_map. cbn. by rewrite map_id.
Qed.

Lemma dfs_topological_order_spec :
  match dfs_topological_order ids a with
  | Ok l => topo (successors a) (reverse l) /\ forall x, x ∈ l <-> x ∈ ids
  | Raise e => exists c, e = graph_cycle c /\ is_cycle (successors a) c
  end.
Proof.
  pose proof (visit_roots_follows ids _ _ (fun x H => H) same_marks_start (inv_start _ ids closed) eq_refl) as Hf.
  pose proof (search_spec _ graph_cycle ids closed ids (fun x H => H)) as Hs. unfold search in Hs.
  unfold dfs_topological_order. destruct (visit_all _ _ _) as [s|e], (visit_roots _ _ _) as [m|e']; cbn in *; try done.
  - destruct Hs as [Ht Hr]. rewrite (sm_order _ _ Hf), reverse_involutive. split; [done|].
    intros x. rewrite elem_of_reverse, Hr. split.
    + intros (y & Hy & Hyx). clear -closed Hy Hyx. induction Hyx; eauto.
    + intros Hx. exists x. split; [done|constructor].
  - by subst.
Qed.
End Simulation.

(** ** Specification *)

Record well_formed (g : PipelineGraph) : Prop := {
  wf_ids : NoDup (node_ids g);
  wf_known : forall x y, edge_to g x y -> x ∈ node_ids g /\ y ∈ node_ids g;
  wf_acyclic : forall x, ~ tc (edge_to g) x x;
}.

(** What each structural error says about the graph. *)
Inductive defect (g : PipelineGraph) : exn -> Prop :=
  | defect_duplicate i l1 l2 l3 : node_ids g = l1 ++ i :: l2 ++ i :: l3 -> defect g (duplicate_node_id i)
  | defect_dangling e m : e ∈ pg_edges g -> m ∈ [ed_source e; ed_target e] -> m ∉ node_ids g ->
      defect g (dangling_edge e m)
  | defect_loop x : edge_to g x x -> defect g (self_loop x)
  | defect_cycle x p : chain (successors (AdjacencyIndex_from_graph g)) (x :: p ++ [x]) ->
      defect g (graph_cycle (x :: p ++ [x])).

Lemma check_unique_spec err seen l :
  match check_unique err seen l with
  | Ok _ => NoDup l /\ forall x, x ∈ l -> x ∉ seen
  | Raise e => exists x, e = err x /\
      ((x ∈ seen /\ x ∈ l) \/ exists l1 l2 l3, l = l1 ++ x :: l2 ++ x :: l3)
  end.
Proof.
  revert seen; induction l as [|y l IH]; intros seen; cbn; [split; [constructor|set_solver]|].
  case_bool_decide as Hy; [exists y; split; [done|left; set_solver]|].
  specialize (IH (seen ∪ {[y]})). destruct (check_unique _ _ l) as [[]|e].
  - destruct IH as [Hn Hl]. split; [constructor; [set_solver|done]|set_solver].
  - destruct IH as (x & -> & [[Hx Hl]|(l1 & l2 & l3 & ->)]); exists x; (split; [done|]).
    + apply elem_of_union in Hx as [?| ->%elem_of_singleton]; [left; set_solver|right].
      apply list_elem_of_split in Hl as (l1 & l2 & ->). by exists [], l1, l2.
    + right. by exists (y :: l1), l2, l3.
Qed.

Lemma for_each_raise {A} (f : A -> result unit) l e :
  for_each f l = Raise e -> exists x, x ∈ l /\ f x = Raise e.
Proof.
  induction l as [|x l IH]; cbn; [done|]. destruct (f x) as [[]|e'] eqn:E; cbn.
  - intros (y & ? & ?)%IH. exists y. split; [by right|done].
  - intros [= ->]. exists x. split; [left|done].
Qed.

Lemma check_duplicate_node_ids_spec g :
  match check_duplicate_node_ids g with Ok _ => NoDup (node_ids g) | Raise e => defect g e end.
Proof.
  unfold check_duplicate_node_ids. pose proof (check_unique_spec duplicate_node_id ∅ (node_ids g)) as H.
  destruct (check_unique _ _ _) as [[]|e]; [by destruct H|].
  destruct H as (x & -> & [[? _]|(l1 & l2 & l3 & ?)]); [set_solver|]. by eapply defect_duplicate.
Qed.

Lemma check_dangling_edges_spec g :
  match check_dangling_edges g with
  | Ok _ => forall x y, edge_to g x y -> x ∈ node_ids g /\ y ∈ node_ids g
  | Raise e => defect g e
  end.
Proof.
  unfold check_dangling_edges. destruct (for_each _ _) as [u|e] eqn:H.
  - rewrite for_each_ok, Forall_forall in H. intros x y (e & He & <- & <-). specialize (H e He). cbn in H.
    repeat case_bool_decide; naive_solver eauto using dec_stable.
  - apply for_each_raise in H as (ed & Hed & H). repeat case_bool_decide; simplify_eq.
    + apply defect_dangling; [done|left|done].
    + apply defect_dangling; [done|right; left|done].
Qed.

Lemma check_self_loops_spec g :
  match check_self_loops g with Ok _ => forall x, ~ edge_to g x x | Raise e => defect g e end.
Proof.
  unfold check_self_loops. destruct (for_each _ _) as [u|e] eqn:H.
  - rewrite for_each_ok, Forall_forall in H. intros x (e & He & <- & Ht). specialize (H e He). cbn in H.
    case_bool_decide; congruence.
  - apply for_each_raise in H as (ed & Hed & H). case_bool_decide as E; simplify_eq.
    apply defect_loop. exists ed. by split_and!.
Qed.

Lemma edge_tc g x y :
  tc (fun a b => b ∈ successors (AdjacencyIndex_from_graph g) a) x y <-> tc (edge_to g) x y.
Proof.
  split; induction 1 as [? ? H|? ? ? H _ IH]; [apply successors_spec in H..| |];
    [by apply tc_once|by eapply tc_l| |].
  - by apply tc_once, successors_spec.
  - eapply tc_l; [|exact IH]. by apply successors_spec.
Qed.

Lemma closed_edges g :
  (forall x y, edge_to g x y -> x ∈ node_ids g /\ y ∈ node_ids g) ->
  forall x y, x ∈ node_ids g -> y ∈ successors (AdjacencyIndex_from_graph g) x -> y ∈ node_ids g.
Proof. intros H x y _ Hy%successors_spec. by apply (H x y). Qed.

Lemma topo_order_acyclic g l :
  topo (successors (AdjacencyIndex_from_graph g)) l ->
  (forall x y, edge_to g x y -> x ∈ l) -> forall x, ~ tc (edge_to g) x x.
Proof.
  intros Ht Hl x Hx. apply edge_tc, chain_tc in Hx as [p Hp].
  eapply (topo_no_cycle _ l x p); [done| |done].
  destruct (p ++ [x]) as [|y q] eqn:E; [by destruct p|]. inversion Hp; subst.
  by eapply Hl, successors_spec.
Qed.

Lemma check_acyclic_spec g :
  (forall x y, edge_to g x y -> x ∈ node_ids g /\ y ∈ node_ids g) ->
  match check_acyclic g with Ok _ => forall x, ~ tc (edge_to g) x x | Raise e => defect g e end.
Proof.
  intros Hk. unfold check_acyclic.
  pose proof (dfs_topological_order_spec _ _ (closed_edges g Hk)) as H.
  destruct (dfs_topological_order _ _) as [l|e]; cbn.
  - destruct H as [Ht Hl]. apply (topo_order_acyclic g _ Ht). intros x y Hxy.
    apply elem_of_reverse, Hl. by apply (Hk x y).
  - destruct H as (c & -> & x & p & -> & Hp). by apply defect_cycle.
Qed.

Lemma validate_spec g :
  match validate g with Ok _ => well_formed g | Raise e => defect g e end.
Proof.
  unfold validate.
  pose proof (check_duplicate_node_ids_spec g) as H1. destruct (check_duplicate_node_ids g); [|done]. cbn.
  pose proof (check_dangling_edges_spec g) as H2. destruct (check_dangling_edges g); [|done]. cbn.
  pose proof (check_self_loops_spec g) as H3. destruct (check_self_loops g); [|done]. cbn.
  pose proof (check_acyclic_spec g H2) as H4. destruct (check_acyclic g); [|done]. by split.
Qed.

Lemma well_formed_no_defect g e : well_formed g -> ~ defect g e.
Proof.
  intros [Hn Hk Ha] Hd. destruct Hd as [i l1 l2 l3 E|e m He Hm Hi|x Hx|x p Hp].
  - rewrite E in Hn. apply NoDup_app in Hn as (_ & _ & Hn). apply NoDup_cons in Hn. set_solver.
  - destruct (Hk (ed_source e) (ed_target e)) as [? ?]; [by exists e|]. set_solver.
  - eapply Ha, tc_once, Hx.
  - eapply Ha, edge_tc, chain_tc. by exists p.
Qed.

Lemma validate_iff g : validate g = Ok tt <-> well_formed g.
Proof.
  pose proof (validate_spec g) as H. destruct (validate g) as [[]|e]; [done|].
  split; [done|]. intros Hw. by destruct (well_formed_no_defect g e Hw).
Qed.

(** C4: [topological_order] is total on the graphs [validate] accepts, and those
    are exactly the well-formed ones (unique node ids, known endpoints, no
    directed cycle): it returns a permutation of the node ids in which every
    edge goes forward. On any other graph it raises a structural error that
    describes an actual defect of the graph (for a cycle, the reported path is
    one). *)
Theorem topological_order_correct g :
  match topological_order g with
  | Ok order =>
      well_formed g /\ order ≡ₚ node_ids g /\
      forall x y, edge_to g x y -> exists l1 l2 l3, order = l1 ++ x :: l2 ++ y :: l3
  | Raise e => ~ well_formed g /\ defect g e
  end.
Proof.
  unfold topological_order. pose proof (validate_spec g) as Hv.
  destruct (validate g) as [u|e]; cbn.
  - destruct Hv as [Hn Hk Ha].
    pose proof (dfs_topological_order_spec _ _ (closed_edges g Hk)) as H.
    destruct (dfs_topological_order _ _) as [l|e].
    + destruct H as [Ht Hl]. split; [done|]. split.
      * apply NoDup_Permutation; [|done|done]. apply topo_nodup in Ht. by rewrite <- (reverse_Permutation l).
      * intros x y Hxy. assert (x ∈ l) as Hx by by apply Hl, (Hk x y).
        apply list_elem_of_split in Hx as (l1 & l2 & ->).
        rewrite reverse_app, reverse_cons, <- app_assoc in Ht.
        assert (y ∈ reverse l2) as Hy by (eapply (topo_before _ _ Ht); [reflexivity|by apply successors_spec]).
        apply elem_of_reverse, list_elem_of_split in Hy as (l3 & l4 & ->). by exists l1, l3, l4.
    + destruct H as (c & -> & x & p & -> & Hp). exfalso. eapply Ha, edge_tc, chain_tc. by exists p.
  - split; [|done]. intros Hw. by eapply well_formed_no_defect.
Qed.

(** ** Field wiring *)

Definition declares (g : PipelineGraph) (i f : string) : Prop :=
  exists n, n ∈ pg_nodes g /\ nd_id n = i /\ f ∈ map nf_name (nd_fields n).

(** Every reference of an edge or an operation resolves. *)
Record mapping_wired (g : PipelineGraph) (e : Edge) (m : FieldMapping) : Prop := {
  mw_source f : fm_source m = Some f -> declares g (ed_source e) f;
  mw_target : declares g (ed_target e) (fm_target m);
  mw_inputs t f : fm_transformation m = Some t -> f ∈ tr_inputs t -> declares g (ed_source e) f;
}.

Record wired (g : PipelineGraph) : Prop := {
  wi_structure : well_formed g;
  wi_fields n : n ∈ pg_nodes g -> NoDup (map nf_name (nd_fields n));
  wi_mappings e m : e ∈ pg_edges g -> m ∈ ed_mappings e -> mapping_wired g e m;
  wi_joins e j k : e ∈ pg_edges g -> ed_join e = Some j -> k ∈ js_keys j ->
    declares g (ed_source e) (jk_left k) /\ declares g (ed_target e) (jk_right k);
  wi_operations n j ops x o f : n ∈ pg_nodes g -> nd_config n = TransformNodeConfig j ops x -> o ∈ ops ->
    f ∈ referenced_fields o -> declares g (nd_id n) f;
}.

Lemma field_index_lookup g i f :
  NoDup (node_ids g) -> has (FieldIndex_from_graph g) i f = true <-> declares g i f.
Proof.
  unfold has, FieldIndex_from_graph, declares, node_ids. rewrite bool_decide_eq_true.
  enough (forall ns (m : FieldIndex), NoDup (map nd_id ns) -> (forall n, n ∈ ns -> m !! nd_id n = None) ->
    (f ∈ default ∅ (fold_left (fun m n => <[nd_id n := list_to_set (map nf_name (nd_fields n))]> m) ns m !! i)
     <-> f ∈ default ∅ (m !! i) \/ exists n, n ∈ ns /\ nd_id n = i /\ f ∈ map nf_name (nd_fields n))) as H.
  { intros Hn. rewrite H; [rewrite lookup_empty; set_solver|done|intros; apply lookup_empty]. }
  induction ns as [|n ns IH]; intros m Hn Hm; cbn; [set_solver|]. inversion Hn as [|? ? Hni Hns]; subst.
  rewrite IH; [|done|].
  - rewrite lookup_insert. setoid_rewrite elem_of_cons. case_decide as E; cbn.
    + rewrite elem_of_list_to_set, <- E, Hm by left. cbn. set_solver.
    + naive_solver.
  - intros n' Hn'. rewrite lookup_insert_ne; [apply Hm; by right|]. intros E. rewrite E in Hni.
    apply Hni. apply list_elem_of_fmap. eauto.
Qed.

Lemma require_field_ok g i f err :
  NoDup (node_ids g) -> require_field (FieldIndex_from_graph g) i f err = Ok tt <-> declares g i f.
Proof. intros H. unfold require_field. rewrite <- (field_index_lookup g i f H). by destruct (has _ _ _). Qed.

Lemma elem_of_imap_pair {A} (l : list A) x : (exists i, (i, x) ∈ imap pair l) <-> x ∈ l.
Proof.
  setoid_rewrite elem_of_lookup_imap. rewrite list_elem_of_lookup. naive_solver.
Qed.

Section Wiring.
Context (g : PipelineGraph) (Hids : NoDup (node_ids g)).
Abbreviation index := (FieldIndex_from_graph g).

Lemma check_duplicate_field_names_ok :
  check_duplicate_field_names g = Ok tt <-> forall n, n ∈ pg_nodes g -> NoDup (map nf_name (nd_fields n)).
Proof.
  unfold check_duplicate_field_names. rewrite for_each_ok, Forall_forall.
  enough (forall n, check_unique (duplicate_field (nd_id n)) ∅ (map nf_name (nd_fields n)) = Ok tt <->
            NoDup (map nf_name (nd_fields n))) as H by (split; intros H' n Hn; apply H; auto).
  intros n. pose proof (check_unique_spec (duplicate_field (nd_id n)) ∅ (map nf_name (nd_fields n))) as H.
  destruct (check_unique _ _ _) as [[]|e]; [by split; [destruct H|]|].
  split; [done|]. destruct H as (x & _ & [[? _]|(l1 & l2 & l3 & ->)]); [set_solver|].
  intros (_ & _ & Hn)%NoDup_app. apply NoDup_cons in Hn. set_solver.
Qed.

Lemma check_mapping_fields_ok :
  check_mapping_fields g index = Ok tt <->
  forall e m, e ∈ pg_edges g -> m ∈ ed_mappings e ->
    (forall f, fm_source m = Some f -> declares g (ed_source e) f) /\ declares g (ed_target e) (fm_target m).
Proof.
  unfold check_mapping_fields. rewrite for_each_ok, Forall_forall. setoid_rewrite for_each_ok.
  setoid_rewrite Forall_forall. setoid_rewrite seq_ok. setoid_rewrite when_some_ok.
  setoid_rewrite require_field_ok; [|done..]. naive_solver.
Qed.

Lemma check_transformation_fields_ok :
  check_transformation_fields g index = Ok tt <->
  forall e m t f, e ∈ pg_edges g -> m ∈ ed_mappings e -> fm_transformation m = Some t ->
    f ∈ tr_inputs t -> declares g (ed_source e) f.
Proof.
  unfold check_transformation_fields. rewrite for_each_ok, Forall_forall. setoid_rewrite for_each_ok.
  setoid_rewrite Forall_forall. setoid_rewrite when_some_ok. setoid_rewrite for_each_ok.
  setoid_rewrite Forall_forall. setoid_rewrite require_field_ok; [|done..]. naive_solver.
Qed.

Lemma check_join_fields_ok :
  check_join_fields g index = Ok tt <->
  forall e j k, e ∈ pg_edges g -> ed_join e = Some j -> k ∈ js_keys j ->
    declares g (ed_source e) (jk_left k) /\ declares g (ed_target e) (jk_right k).
Proof.
  unfold check_join_fields. rewrite for_each_ok, Forall_forall. setoid_rewrite when_some_ok.
  setoid_rewrite for_each_ok. setoid_rewrite Forall_forall. setoid_rewrite seq_ok.
  setoid_rewrite require_field_ok; [|done..]. split.
  - intros H e j k He Hj [i Hk]%elem_of_imap_pair. apply (H e He j Hj (i, k) Hk).
  - intros H e He j Hj [i k] Hk. apply (H e j k He Hj). apply elem_of_imap_pair. by exists i.
Qed.

Lemma check_operation_fields_ok :
  check_operation_fields g index = Ok tt <->
  forall n j ops x o f, n ∈ pg_nodes g -> nd_config n = TransformNodeConfig j ops x -> o ∈ ops ->
    f ∈ referenced_fields o -> declares g (nd_id n) f.
Proof.
  unfold check_operation_fields. rewrite for_each_ok, Forall_forall. split.
  - intros H n j ops x o f Hn Hc [i Ho]%elem_of_imap_pair Hf. specialize (H n Hn). rewrite Hc in H.
    rewrite for_each_ok, Forall_forall in H. specialize (H _ Ho). cbn in H.
    rewrite for_each_ok, Forall_forall in H. specialize (H f Hf). by apply require_field_ok in H.
  - intros H n Hn. destruct (nd_config n) as [| j ops x | |] eqn:Hc; try done.
    apply for_each_ok, Forall_forall. intros [i o] Ho. apply for_each_ok, Forall_forall. intros f Hf.
    apply require_field_ok; [done|]. eapply H; eauto. apply elem_of_imap_pair. by exists i.
Qed.
End Wiring.

(** C5: [validate_field_wiring] accepts a graph exactly when its structure is
    well-formed, field names are unique within each node, and every mapping
    source and target, transformation input, join key and operation field names
    a field declared by the node the convention assigns it to. *)
Theorem validate_field_wiring_iff g : validate_field_wiring g = Ok tt <-> wired g.
Proof.
  unfold validate_field_wiring. rewrite !seq_ok, validate_iff. split.
  - intros (Hw & Hf & Hm & Ht & Hj & Ho). pose proof (wf_ids _ Hw) as Hn.
    rewrite check_duplicate_field_names_ok in Hf by done. rewrite check_mapping_fields_ok in Hm by done.
    rewrite check_transformation_fields_ok in Ht by done. rewrite check_join_fields_ok in Hj by done.
    rewrite check_operation_fields_ok in Ho by done.
    split; [done|done| |exact Hj|exact Ho].
    intros e m He Hem. destruct (Hm e m He Hem) as [? ?]. split; [done|done|]. intros t f. by apply Ht.
  - intros [Hw Hf Hm Hj Ho]. pose proof (wf_ids _ Hw) as Hn. split; [done|].
    rewrite check_duplicate_field_names_ok, check_mapping_fields_ok, check_transformation_fields_ok,
      check_join_fields_ok, check_operation_fields_ok by done.
    split; [exact Hf|]. split; [|split; [|split; [exact Hj|exact Ho]]].
    + intros e m He Hem. destruct (Hm e m He Hem) as [? ? _]. done.
    + intros e m t f He Hem Et Hf'. by eapply (mw_inputs _ _ _ (Hm e m He Hem)).
Qed.
