(* ===== verification/PhysicalPlanner.v ===== *)
(** * Graph to physical plan ([control/physical_planner.py])

    [StaticPhysicalPlanner.plan] with its three distributed shapes, and
    [bind_physical_plan].  A [PipelineGraphDocument] is its domain graph: the
    dump/reload inside [to_domain] is the identity on a validated document, and
    the wiring check it repeats is modelled. *)

From S2P Require Import Prelude Regex PyStr Sha256 Json Identifiers Projection Dfs PhysicalPlan Graph GraphOps.

Local Open Scope string_scope.
Local Open Scope Z_scope.
Local Open Scope list_scope.

Definition DEFAULT_DISTRIBUTED_PARTITIONS : Z := 2.
Definition MAX_DISTRIBUTED_PARTITIONS : Z := 2000.
Definition KNOWN_NODE_TYPES : list string := ["source"; "transform"; "target"].

Definition cannot_plan {A} (m : string) : result A := raise_ PhysicalPlanningError m.
Definition planning_reject (b : bool) (m : string) : result unit := reject_if b PhysicalPlanningError m.

Definition to_domain (document : PipelineGraph) : result PipelineGraph :=
  _ ← validate_field_wiring document; Ok document.

Definition has_edge_join (g : PipelineGraph) : bool := existsb (fun e => is_some (ed_join e)) (pg_edges g).
Definition edge_pair (e : Edge) : string * string := (ed_source e, ed_target e).
Definition edge_set (g : PipelineGraph) : gset (string * string) := list_to_set (map edge_pair (pg_edges g)).
Definition pair_str_leb : string * string -> string * string -> bool := lex_leb str_leb str_leb.

Definition nodes_of_type (g : PipelineGraph) (node_type : string) : list Node :=
  py_sorted (key_leb nd_id str_leb) (filter (fun n => nd_type n = node_type) (pg_nodes g)).

(** [isinstance(config, TransformNodeConfig)] and its two members. *)
Definition transform_config (n : Node) : option (option TransformJoinConfig * list OperationSpec) :=
  match nd_config n with TransformNodeConfig j ops _ => Some (j, ops) | _ => None end.
Definition has_config_join (n : Node) : bool :=
  match transform_config n with Some (Some _, _) => true | _ => false end.

Definition stage_of (id : string) (operators : list string) (partitions : Z) (deps : list string)
    : result PhysicalStage :=
  new_stage {| ps_stage_id := id; ps_operators := operators; ps_partition_count := partitions;
               ps_depends_on := deps |}.
Definition exchange_of (id producer consumer : string) (p : PartitioningStrategy) (partitions : Z)
    (keys : list string) : result PhysicalExchange :=
  new_exchange {| pe_exchange_id := id; pe_producer_stage_id := producer; pe_consumer_stage_id := consumer;
                  pe_transport := OBJECT_STORE; pe_partitioning := p; pe_partition_count := partitions;
                  pe_partition_keys := keys |}.
Definition distributed (pipeline_id : string) (stages : list PhysicalStage)
    (exchanges : list PhysicalExchange) (partitions : Z) : result PhysicalPlan :=
  new_plan {| pp_pipeline_id := pipeline_id; pp_execution_mode := DISTRIBUTED; pp_stages := stages;
              pp_exchanges := exchanges; pp_maximum_parallelism := partitions;
              pp_schema := PHYSICAL_PLAN_SCHEMA |}.

Definition fused_plan (g : PipelineGraph) (pipeline_id : string) : result PhysicalPlan :=
  s ← stage_of "pipeline" (py_sorted str_leb (node_ids g)) 1 [];
  new_plan {| pp_pipeline_id := pipeline_id; pp_execution_mode := FUSED_CONTAINER; pp_stages := [s];
              pp_exchanges := []; pp_maximum_parallelism := 1; pp_schema := PHYSICAL_PLAN_SCHEMA |}.

Definition field_types (n : Node) : list (string * string) :=
  dict_of (map (fun f => (nf_name f, to_upper (nf_type f))) (nd_fields n)).

Definition keyed_join_plan (g : PipelineGraph) (pipeline_id : string) (partition_count : Z)
    (sources : list Node) (transform target : Node) : result PhysicalPlan :=
  match transform_config transform with
  | Some (Some join, operations) =>
      _ ← planning_reject
            (negb (bool_decide (tj_type join = INNER)) || negb (length (tj_keys join) =? 1)%nat
             || match operations with [] => false | _ => true end || has_edge_join g)
            "Distributed join planning supports one inner equality key without operations.";
      let by_id := dict_of (map (fun s => (nd_id s, s)) sources) in
      _ ← planning_reject
            (negb (bool_decide
                     (list_to_set (map fst by_id) =@{gset string} {[tj_left_input join; tj_right_input join]})))
            "Distributed join inputs must match the graph's two source nodes.";
      _ ← planning_reject
            (negb (bool_decide
                     (edge_set g = {[(tj_left_input join, nd_id transform); (tj_right_input join, nd_id transform);
                                     (nd_id transform, nd_id target)]})))
            "Distributed join planning supports only two sources feeding one join target.";
      match tj_keys join, assoc (tj_left_input join) by_id, assoc (tj_right_input join) by_id with
      | key :: _, Some left_source, Some right_source =>
          _ ← planning_reject
                (match assoc (xk_left key) (field_types left_source), assoc (xk_right key) (field_types right_source) with
                 | Some l, Some r => negb (bool_decide (l = r))
                 | _, _ => true
                 end)
                "Distributed join keys must exist and have the same declared type.";
          s1 ← stage_of "extract-left" [tj_left_input join] partition_count [];
          s2 ← stage_of "extract-right" [tj_right_input join] partition_count [];
          s3 ← stage_of "join" (py_sorted str_leb [nd_id transform; nd_id target]) partition_count
                 ["extract-left"; "extract-right"];
          e1 ← exchange_of "left-join" "extract-left" "join" HASH partition_count [xk_left key];
          e2 ← exchange_of "right-join" "extract-right" "join" HASH partition_count [xk_right key];
          distributed pipeline_id [s1; s2; s3] [e1; e2] partition_count
      | _, _, _ => raise_ KeyError "join input"
      end
  | _ => cannot_plan "Distributed join planning requires one explicit transform join."
  end.

(** The first ordering of the two transforms whose chain is the edge set. *)
Fixpoint linear_order (edges : gset (string * string)) (source target : Node) (all candidates : list Node)
    : result (option (Node * Node)) :=
  match candidates with
  | [] => Ok None
  | first :: candidates =>
      match filter (fun t => nd_id t <> nd_id first) all with
      | [] => raise_ StopIteration ""
      | second :: _ =>
          if bool_decide
               (edges = {[(nd_id source, nd_id first); (nd_id first, nd_id second); (nd_id second, nd_id target)]})
          then Ok (Some (first, second))
          else linear_order edges source target all candidates
      end
  end.

Definition multistage_linear_plan (g : PipelineGraph) (pipeline_id : string) (partition_count : Z)
    (source : Node) (transforms : list Node) (target : Node) : result PhysicalPlan :=
  ordered ← linear_order (edge_set g) source target transforms transforms;
  match ordered with
  | None => cannot_plan "Distributed multistage planning supports only a two-transform linear chain."
  | Some (first, second) =>
      _ ← planning_reject
            (has_edge_join g || is_none (transform_config first) || is_none (transform_config second)
             || has_config_join first || has_config_join second)
            "Distributed multistage planning does not support joins.";
      s1 ← stage_of "extract" [nd_id source] partition_count [];
      s2 ← stage_of "transform-a" [nd_id first] partition_count ["extract"];
      s3 ← stage_of "transform-b" (py_sorted str_leb [nd_id second; nd_id target]) partition_count
             ["transform-a"];
      e1 ← exchange_of "extract-transform-a" "extract" "transform-a" ROUND_ROBIN partition_count [];
      e2 ← exchange_of "transform-a-transform-b" "transform-a" "transform-b" ROUND_ROBIN partition_count [];
      distributed pipeline_id [s1; s2; s3] [e1; e2] partition_count
  end.

Definition linear_plan (g : PipelineGraph) (pipeline_id : string) (partition_count : Z)
    (source transform target : Node) : result PhysicalPlan :=
  let expected := [(nd_id source, nd_id transform); (nd_id transform, nd_id target)] in
  _ ← planning_reject
        (negb (bool_decide (py_sorted pair_str_leb (map edge_pair (pg_edges g)) = py_sorted pair_str_leb expected)))
        "Distributed planning supports only a source-to-transform-to-target chain.";
  _ ← planning_reject (has_edge_join g || is_none (transform_config transform))
        "Distributed planning does not support joins yet.";
  _ ← planning_reject (has_config_join transform) "Distributed planning does not support joins yet.";
  s1 ← stage_of "extract" [nd_id source] partition_count [];
  s2 ← stage_of "transform" (py_sorted str_leb [nd_id transform; nd_id target]) partition_count ["extract"];
  e1 ← exchange_of "extract-transform" "extract" "transform" ROUND_ROBIN partition_count [];
  distributed pipeline_id [s1; s2] [e1] partition_count.

Definition distributed_plan (g : PipelineGraph) (pipeline_id : string) (partition_count : Z)
    : result PhysicalPlan :=
  match nodes_of_type g "source", nodes_of_type g "transform", nodes_of_type g "target" with
  | [_; _] as sources, [transform], [target] =>
      keyed_join_plan g pipeline_id partition_count sources transform target
  | [source], [_; _] as transforms, [target] =>
      multistage_linear_plan g pipeline_id partition_count source transforms target
  | [source], [transform], [target] => linear_plan g pipeline_id partition_count source transform target
  | _, _, _ =>
      cannot_plan "Distributed planning supports exactly one source and target, with one or two transform nodes."
  end.

Definition plan (document : PipelineGraph) (pipeline_id : string) (execution_mode : PhysicalExecutionMode)
    (distributed_partitions : option Z) : result PhysicalPlan :=
  graph ← map_error GraphValidationError PhysicalPlanningError
            "The pipeline graph is not valid for physical planning." (to_domain document);
  _ ← planning_reject (bool_decide (node_ids graph = [])) "Physical planning requires at least one graph node.";
  _ ← planning_reject (existsb (fun n => negb (bool_decide (nd_type n ∈ KNOWN_NODE_TYPES))) (pg_nodes graph))
        "Physical planning does not support this graph node type.";
  _ ← when_some distributed_partitions (fun n =>
        planning_reject (negb ((2 <=? n) && (n <=? MAX_DISTRIBUTED_PARTITIONS)))
          "Distributed partition count is outside its static bound.");
  map_error PhysicalPlanError PhysicalPlanningError
    "The pipeline identifiers cannot be represented in a physical plan."
    (match execution_mode with
     | FUSED_CONTAINER =>
         _ ← planning_reject (is_some distributed_partitions)
               "Fused planning does not accept a distributed partition count.";
         fused_plan graph pipeline_id
     | DISTRIBUTED =>
         distributed_plan graph pipeline_id (or_else distributed_partitions DEFAULT_DISTRIBUTED_PARTITIONS)
     end).

(** [replace] re-runs the template's own checks. *)
Definition with_command (t : ExecutionTemplate) (command : list string) : ExecutionTemplate :=
  {| et_schema := et_schema t; et_contract := et_contract t; et_pipeline_id := et_pipeline_id t;
     et_profile_id := et_profile_id t; et_launcher := et_launcher t; et_image := et_image t;
     et_command := command; et_configuration_reference := et_configuration_reference t;
     et_environment := et_environment t; et_secret_bindings := et_secret_bindings t;
     et_workload_identity := et_workload_identity t; et_resources := et_resources t;
     et_schedule := et_schedule t; et_network := et_network t; et_labels := et_labels t;
     et_observability := et_observability t; et_extensions := et_extensions t |}.

Definition bind_physical_plan (t : ExecutionTemplate) (p : PhysicalPlan) : result ExecutionTemplate :=
  _ ← planning_reject (negb (bool_decide (et_pipeline_id t = pp_pipeline_id p)))
        "The physical plan pipeline does not match the execution template.";
  _ ← planning_reject (bool_decide ("--physical-plan" ∈ et_command t))
        "The execution template already contains a physical plan.";
  _ ← planning_reject (sp_maximum_parallelism (et_schedule t) <? pp_maximum_parallelism p)
        "The execution template cannot satisfy the planned maximum parallelism.";
  text ← serialized_text p;
  let t' := with_command t (et_command t ++ ["--physical-plan"; text]) in
  _ ← ExecutionTemplate_post_init t';
  Ok t'.

(** ** What a produced plan means *)

(** Data moves from [x] to [y] inside one stage or across a declared exchange. *)
Definition carries (p : PhysicalPlan) (x y : string) : Prop :=
  exists s t, s ∈ pp_stages p /\ t ∈ pp_stages p /\ x ∈ ps_operators s /\ y ∈ ps_operators t /\
    (s = t \/ (ps_stage_id s, ps_stage_id t) ∈ map exchange_edge (pp_exchanges p)).

Record implements (g : PipelineGraph) (p : PhysicalPlan) : Prop := {
  im_operators : pp_stages p ≫= ps_operators ≡ₚ node_ids g;
  im_edges x y : edge_to g x y -> carries p x y;
}.

Lemma nodes_by_type g :
  Forall (fun n => nd_type n ∈ KNOWN_NODE_TYPES) (pg_nodes g) ->
  pg_nodes g ≡ₚ nodes_of_type g "source" ++ nodes_of_type g "transform" ++ nodes_of_type g "target".
Proof.
  intros H. unfold nodes_of_type. rewrite !py_sorted_perm.
  induction H as [|n l Hn _ IH]; [done|]. rewrite !filter_cons.
  unfold KNOWN_NODE_TYPES in Hn. rewrite !elem_of_cons in Hn.
  repeat case_decide; try congruence.
  - by rewrite IH at 1.
  - rewrite IH at 1. apply Permutation_middle.
  - rewrite IH at 1. rewrite !app_assoc. apply Permutation_middle.
  - set_solver.
Qed.

Lemma in_edge_set g x y : (x, y) ∈ edge_set g <-> edge_to g x y.
Proof.
  unfold edge_set, edge_to, edge_pair. rewrite elem_of_list_to_set, list_elem_of_fmap. naive_solver.
Qed.

Lemma in_sorted2 a b x : x ∈ py_sorted str_leb [a; b] <-> x = a \/ x = b.
Proof. rewrite py_sorted_perm. set_solver. Qed.

Lemma stage_of_ok i o n d s :
  stage_of i o n d = Ok s ->
  s = {| ps_stage_id := i; ps_operators := o; ps_partition_count := n; ps_depends_on := d |}.
Proof. unfold stage_of, new_stage. intros [_ ?]%seq_ok. congruence. Qed.

Lemma exchange_of_ok i a b p n k e :
  exchange_of i a b p n k = Ok e ->
  e = {| pe_exchange_id := i; pe_producer_stage_id := a; pe_consumer_stage_id := b;
         pe_transport := OBJECT_STORE; pe_partitioning := p; pe_partition_count := n; pe_partition_keys := k |}.
Proof. unfold exchange_of, new_exchange. intros [_ ?]%seq_ok. congruence. Qed.

Lemma distributed_ok pid ss es n p :
  distributed pid ss es n = Ok p ->
  plan_ok p /\ p = {| pp_pipeline_id := pid; pp_execution_mode := DISTRIBUTED; pp_stages := ss;
                      pp_exchanges := es; pp_maximum_parallelism := n; pp_schema := PHYSICAL_PLAN_SCHEMA |}.
Proof. unfold distributed, new_plan. intros [H ?]%seq_ok. apply plan_post_init_iff in H. split; congruence. Qed.

Ltac inv_plan :=
  repeat match goal with
  | H : (_ ≫= _) = Ok _ |- _ => apply bind_ok in H as (?st & ? & H); cbn beta in H
  | H : planning_reject _ _ = Ok _ |- _ => apply reject_if_ok in H
  | H : stage_of _ _ _ _ = Ok _ |- _ => apply stage_of_ok in H as ->
  | H : exchange_of _ _ _ _ _ _ = Ok _ |- _ => apply exchange_of_ok in H as ->
  | H : distributed _ _ _ _ = Ok _ |- _ => apply distributed_ok in H as [? ->]
  | H : cannot_plan _ = Ok _ |- _ => discriminate H
  | H : (_ || _) = false |- _ => apply orb_false_iff in H as [? H]
  | H : negb _ = false |- _ => apply negb_false_iff in H
  | H : bool_decide _ = true |- _ => apply bool_decide_eq_true in H
  end.

Lemma pair_set (a b l r : string) :
  a <> b -> ({[a]} ∪ ({[b]} ∪ ∅) : gset string) = {[l; r]} -> [l; r] ≡ₚ [a; b].
Proof.
  intros Hab E. assert (forall x, x = a \/ x = b <-> x = l \/ x = r) as H.
  { intros x. rewrite set_eq in E. specialize (E x). rewrite !elem_of_union, !elem_of_singleton, elem_of_empty in E. tauto. }
  pose proof (proj1 (H a)). pose proof (proj1 (H b)). naive_solver eauto using Permutation_swap.
Qed.

#[local] Arguments py_sorted : simpl never.

Lemma carries_at p i j s t x y :
  pp_stages p !! i = Some s -> pp_stages p !! j = Some t -> x ∈ ps_operators s -> y ∈ ps_operators t ->
  i = j \/ (ps_stage_id s, ps_stage_id t) ∈ map exchange_edge (pp_exchanges p) -> carries p x y.
Proof.
  intros Hs Ht Hx Hy Hij. exists s, t. split_and!; eauto using list_elem_of_lookup_2.
  destruct Hij as [->|?]; [left; congruence|by right].
Qed.

(** [carried i j] closes a [carries] goal with the plan's [i]th and [j]th stages. *)
Ltac carried i j :=
  eapply (carries_at _ i j); [reflexivity|reflexivity|..]; cbn;
  rewrite ?in_sorted2, ?elem_of_cons, ?elem_of_nil; eauto 6.

(** The graph split into the three groups the planner distinguishes. *)
Definition split_as (g : PipelineGraph) (sources transforms targets : list Node) : Prop :=
  node_ids g ≡ₚ map nd_id (sources ++ transforms ++ targets).

(** What the three distributed shapes establish. *)
Definition distributes (g : PipelineGraph) (pid : string) (n : Z) (p : PhysicalPlan) : Prop :=
  plan_ok p /\ implements g p /\ pp_pipeline_id p = pid /\ pp_execution_mode p = DISTRIBUTED
  /\ pp_maximum_parallelism p = n.

Lemma keyed_join_plan_ok g pid n a b transform target p :
  NoDup (node_ids g) -> split_as g [a; b] [transform] [target] ->
  keyed_join_plan g pid n [a; b] transform target = Ok p -> distributes g pid n p.
Proof.
  unfold keyed_join_plan, split_as. cbn [app map]. intros Hn Hs H.
  assert (nd_id a <> nd_id b) as Hab.
  { rewrite Hs in Hn. apply NoDup_cons in Hn as [Hn _]. set_solver. }
  rewrite dict_of_nodup in H by (cbn; rewrite NoDup_cons, list_elem_of_singleton; auto using NoDup_singleton).
  destruct (transform_config transform) as [[[join|] ops]|]; [|done..].
  apply seq_ok in H as [_ H]. apply seq_ok in H as [Hin H]. apply seq_ok in H as [Hedges H].
  destruct (tj_keys join) as [|key keys]; [done|].
  destruct (assoc _ _) as [ls|]; [|done]. destruct (assoc _ _) as [rs|]; [|done].
  inv_plan. unfold distributes. cbn in *. split_and!; try done. split; cbn.
  - rewrite Hs, app_nil_r, py_sorted_perm.
    apply (Permutation_app_tail [nd_id transform; nd_id target] (l := [_; _]) (l' := [_; _])).
    by apply pair_set.
  - intros x y Hxy%in_edge_set. rewrite Hedges in Hxy.
    rewrite !elem_of_union, !elem_of_singleton in Hxy.
    destruct Hxy as [[[= -> ->]|[= -> ->]]|[= -> ->]]; [carried 0%nat 2%nat|carried 1%nat 2%nat|carried 2%nat 2%nat].
Qed.

Lemma linear_order_ok edges source target all candidates f s :
  linear_order edges source target all candidates = Ok (Some (f, s)) ->
  f ∈ candidates /\ s ∈ all /\ nd_id s <> nd_id f /\
  edges = {[(nd_id source, nd_id f); (nd_id f, nd_id s); (nd_id s, nd_id target)]}.
Proof.
  induction candidates as [|c cs IH]; cbn; [done|]. destruct (filter _ all) as [|t ts] eqn:E; [done|].
  assert (t ∈ filter (fun t => nd_id t <> nd_id c) all) as Ht by (rewrite E; left).
  apply list_elem_of_filter in Ht as [Hne Ht]. case_bool_decide as Hb.
  - intros [= <- <-]. split_and!; auto. left.
  - intros (? & ? & ? & ?)%IH. split_and!; auto. by right.
Qed.

Lemma multistage_linear_plan_ok g pid n source a b target p :
  split_as g [source] [a; b] [target] ->
  multistage_linear_plan g pid n source [a; b] target = Ok p -> distributes g pid n p.
Proof.
  unfold multistage_linear_plan, split_as. cbn [app map]. intros Hs H.
  apply bind_ok in H as ([[f s]|] & Hord & H); [|done].
  apply linear_order_ok in Hord as (Hf & Hsec & Hne & Hedges). inv_plan.
  unfold distributes. cbn in *. split_and!; try done. split; cbn.
  - rewrite Hs, app_nil_r, py_sorted_perm. apply perm_skip.
    apply elem_of_cons in Hf as [->|Hf%list_elem_of_singleton];
      apply elem_of_cons in Hsec as [->|Hsec%list_elem_of_singleton]; subst; try done. apply Permutation_swap.
  - intros x y Hxy%in_edge_set. rewrite Hedges in Hxy.
    rewrite !elem_of_union, !elem_of_singleton in Hxy.
    destruct Hxy as [[[= -> ->]|[= -> ->]]|[= -> ->]]; [carried 0%nat 1%nat|carried 1%nat 2%nat|carried 2%nat 2%nat].
Qed.

Lemma linear_plan_ok g pid n source transform target p :
  split_as g [source] [transform] [target] ->
  linear_plan g pid n source transform target = Ok p -> distributes g pid n p.
Proof.
  unfold linear_plan, split_as. cbn [app map]. intros Hs H.
  apply seq_ok in H as [Hedges H]. inv_plan. unfold distributes. cbn in *. split_and!; try done. split; cbn.
  - by rewrite Hs, app_nil_r, py_sorted_perm.
  - intros x y (e & He & <- & <-). assert (edge_pair e ∈ map edge_pair (pg_edges g)) as Hxy
      by (apply list_elem_of_fmap; eauto).
    rewrite <- (py_sorted_perm pair_str_leb), Hedges, py_sorted_perm in Hxy. unfold edge_pair in Hxy.
    rewrite !elem_of_cons, elem_of_nil in Hxy.
    destruct Hxy as [[= -> ->]|[[= -> ->]|[]]]; [carried 0%nat 1%nat|carried 1%nat 1%nat].
Qed.

(** ** Failures are planning errors *)

Lemma stage_of_only i o n d : only PhysicalPlanError (stage_of i o n d).
Proof. unfold stage_of, new_stage, PhysicalStage_post_init, require_portable_id, plan_reject. only_tac. Qed.

Lemma exchange_of_only i a b p n k : only PhysicalPlanError (exchange_of i a b p n k).
Proof.
  unfold exchange_of, new_exchange, PhysicalExchange_post_init, require_portable_id, plan_reject.
  only_tac. destruct (pe_partitioning _); only_tac.
Qed.

Lemma distributed_only pid ss es n : only PhysicalPlanError (distributed pid ss es n).
Proof. unfold distributed, new_plan. only_step; [apply plan_post_init_only|done]. Qed.

#[local] Hint Resolve stage_of_only exchange_of_only distributed_only plan_post_init_only : dander.

Lemma validate_field_wiring_only g : only GraphValidationError (validate_field_wiring g).
Proof.
  unfold validate_field_wiring. apply raises_bind; [|intros _ _; apply raises_bind; [|intros _ _; cbn zeta]].
  - pose proof (validate_spec g) as H. destruct (validate g) as [|e]; [done|]. by destruct H.
  - unfold check_duplicate_field_names. only_tac.
    match goal with |- raises _ (check_unique ?f ?s ?l) => pose proof (check_unique_spec f s l) as Hu end.
    destruct (check_unique _ _ _) as [|e]; [done|]. by destruct Hu as (? & -> & _).
  - unfold check_mapping_fields, check_transformation_fields, check_join_fields, check_operation_fields,
      require_field. repeat first [only_step | done | case_match].
Qed.

(** Planning failures before the outer [except PhysicalPlanError]. *)
Definition planning_failure (e : exn) : Prop :=
  catches PhysicalPlanError e = true \/ exn_cls e = PhysicalPlanningError.

Lemma plan_error_failure {A} (r : result A) : only PhysicalPlanError r -> raises planning_failure r.
Proof. apply raises_impl. by left. Qed.

Lemma planning_reject_failure b m : raises planning_failure (planning_reject b m).
Proof. unfold planning_reject, reject_if. destruct b; [by right|done]. Qed.

#[local] Hint Resolve plan_error_failure planning_reject_failure : dander.

Ltac failures :=
  repeat first
    [ only_step
    | apply planning_reject_failure
    | apply plan_error_failure; solve [auto with dander] ].

Lemma linear_order_total edges source target all candidates :
  (forall c, c ∈ candidates -> exists t, t ∈ all /\ nd_id t <> nd_id c) ->
  raises planning_failure (linear_order edges source target all candidates).
Proof.
  induction candidates as [|c cs IH]; cbn; intros H; [done|].
  destruct (H c ltac:(left)) as (t & Ht & Hne).
  destruct (filter _ all) as [|u us] eqn:E.
  - exfalso. assert (t ∈ filter (fun t => nd_id t <> nd_id c) all) as Hf by by apply list_elem_of_filter.
    rewrite E in Hf. set_solver.
  - case_bool_decide; [done|]. apply IH. intros; apply H; by right.
Qed.

Section Shapes.
Context (g : PipelineGraph) (Hn : NoDup (node_ids g)).
Context (Hknown : Forall (fun n => nd_type n ∈ KNOWN_NODE_TYPES) (pg_nodes g)).

Lemma split_groups :
  split_as g (nodes_of_type g "source") (nodes_of_type g "transform") (nodes_of_type g "target").
Proof. unfold split_as, node_ids. by rewrite <- (nodes_by_type g Hknown). Qed.

Lemma distributed_plan_ok pid n p : distributed_plan g pid n = Ok p -> distributes g pid n p.
Proof.
  pose proof split_groups as Hs. unfold distributed_plan.
  destruct (nodes_of_type g "source") as [|a [|b [|? ?]]], (nodes_of_type g "transform") as [|t [|u [|? ?]]],
    (nodes_of_type g "target") as [|z [|? ?]]; try done.
  - by apply linear_plan_ok.
  - by apply multistage_linear_plan_ok.
  - by apply keyed_join_plan_ok.
Qed.

Lemma group_ids_differ l1 a l2 b l3 l4 :
  l1 ++ a :: l2 ++ b :: l3 ++ l4 ≡ₚ pg_nodes g -> nd_id a <> nd_id b.
Proof.
  intros Hp. unfold node_ids in Hn. rewrite <- Hp in Hn.
  rewrite map_app in Hn. apply NoDup_app in Hn as (_ & _ & H). cbn in H.
  apply NoDup_cons in H as [H _]. rewrite map_app in H. cbn in H. set_solver.
Qed.

Lemma distributed_plan_failure pid n : raises planning_failure (distributed_plan g pid n).
Proof.
  pose proof (nodes_by_type g Hknown) as Hs. unfold distributed_plan.
  destruct (nodes_of_type g "source") as [|a [|b [|? ?]]], (nodes_of_type g "transform") as [|t [|u [|? ?]]],
    (nodes_of_type g "target") as [|z [|? ?]]; try (by right).
  - unfold linear_plan. failures.
  - assert (nd_id t <> nd_id u) as Htu by (apply (group_ids_differ [a] t [] u [z] []); by rewrite Hs).
    unfold multistage_linear_plan. apply raises_bind.
    + apply linear_order_total. intros c Hc. apply elem_of_cons in Hc as [->|Hc%list_elem_of_singleton].
      * exists u. split; [set_solver|done].
      * subst c. exists t. split; [set_solver|done].
    + intros [[f s]|] _; [failures|by right].
  - assert (nd_id a <> nd_id b) as Hab by (apply (group_ids_differ [] a [] b [t; z] []); by rewrite Hs).
    unfold keyed_join_plan. destruct (transform_config t) as [[[join|] ops]|]; try by right.
    apply raises_bind; [apply planning_reject_failure|intros [] Hone].
    apply raises_bind; [apply planning_reject_failure|intros [] Hin].
    inv_plan. rewrite dict_of_nodup in *
      by (cbn; rewrite NoDup_cons, list_elem_of_singleton; auto using NoDup_singleton). cbn in Hin.
    apply (pair_set _ _ _ _ Hab) in Hin.
    assert (forall x, x ∈ [tj_left_input join; tj_right_input join] ->
      is_Some (assoc x (map (fun s => (nd_id s, s)) [a; b]))) as Hassoc.
    { intros x Hx. apply assoc_some_in. cbn. by rewrite <- Hin. }
    destruct (Hassoc (tj_left_input join)) as [ls Hls]; [by left|].
    destruct (Hassoc (tj_right_input join)) as [rs Hrs]; [by right; left|]. rewrite Hls, Hrs.
    destruct (tj_keys join) as [|key keys]; [|failures].
    match goal with H : (length [] =? 1)%nat = true |- _ => discriminate H end.
Qed.
End Shapes.

(** What a successful call of the planner promises about its result. *)
Record planned (g : PipelineGraph) (pid : string) (mode : PhysicalExecutionMode) (partitions : option Z)
    (p : PhysicalPlan) : Prop := {
  pl_wired : wired g;
  pl_ok : plan_ok p;
  pl_implements : implements g p;
  pl_pipeline : pp_pipeline_id p = pid;
  pl_mode : pp_execution_mode p = mode;
  pl_parallelism :
    pp_maximum_parallelism p =
      match mode with FUSED_CONTAINER => 1 | DISTRIBUTED => or_else partitions 2 end;
}.

Lemma fused_plan_ok g pid p :
  well_formed g -> fused_plan g pid = Ok p ->
  plan_ok p /\ implements g p /\ pp_pipeline_id p = pid /\ pp_execution_mode p = FUSED_CONTAINER
  /\ pp_maximum_parallelism p = 1.
Proof.
  unfold fused_plan, new_plan. intros Hw H. apply bind_ok in H as (s & Hs & H).
  apply stage_of_ok in Hs as ->. apply seq_ok in H as [H [= <-]]. apply plan_post_init_iff in H.
  split_and!; try done. split; cbn.
  - by rewrite app_nil_r, py_sorted_perm.
  - intros x y [Hx Hy]%(wf_known _ Hw). eapply (carries_at _ 0%nat 0%nat); [reflexivity|reflexivity|..]; cbn;
      rewrite ?py_sorted_perm; auto.
Qed.

(** C3: [StaticPhysicalPlanner.plan] is sound: a plan it returns satisfies every
    invariant of [PhysicalPlan] (unique ordered acyclic stages, one exchange per
    dependency, bounded partitions), assigns each node of the graph to exactly one
    stage, lets every graph edge stay inside a stage or cross a declared exchange,
    and has the requested pipeline, mode and parallelism; the only error the
    planner raises is [PhysicalPlanningError]. *)
Theorem plan_sound g pid mode partitions :
  match plan g pid mode partitions with
  | Ok p => planned g pid mode partitions p
  | Raise e => exn_cls e = PhysicalPlanningError
  end.
Proof.
  unfold plan. pose proof (validate_field_wiring_only g) as Herr. unfold to_domain.
  destruct (validate_field_wiring g) as [[]|e] eqn:Hv; cbn.
  2: { cbn in Herr. by rewrite Herr. }
  apply validate_field_wiring_iff in Hv. pose proof (wi_structure _ Hv) as Hw.
  destruct (bool_decide (node_ids g = [])); cbn; [done|].
  destruct (existsb _ (pg_nodes g)) eqn:Hk; cbn; [done|].
  assert (Forall (fun n => nd_type n ∈ KNOWN_NODE_TYPES) (pg_nodes g)) as Hknown.
  { apply existsb_false in Hk. eapply Forall_impl; [exact Hk|]. intros n. cbn. apply negb_bool_decide_false. }
  assert (forall r : result PhysicalPlan, raises planning_failure r ->
    (forall p, r = Ok p -> planned g pid mode partitions p) ->
    match map_error PhysicalPlanError PhysicalPlanningError
            "The pipeline identifiers cannot be represented in a physical plan." r with
    | Ok p => planned g pid mode partitions p
    | Raise e => exn_cls e = PhysicalPlanningError
    end) as Hfinish.
  { intros [p|e] He Hp; unfold map_error; [by apply Hp|]. destruct (catches PhysicalPlanError e) eqn:Ec; [done|].
    destruct He; [congruence|done]. }
  destruct (when_some _ _) as [[]|e] eqn:Hb; cbn.
  2: { destruct partitions as [n|]; cbn in Hb; [|done]. apply reject_if_raise in Hb as [_ ->]. done. }
  apply Hfinish.
  - destruct mode; [|by apply distributed_plan_failure; [apply Hw|]].
    unfold fused_plan, new_plan. failures.
  - intros p Hp. destruct mode.
    + apply seq_ok in Hp as [_ Hp]. apply (fused_plan_ok _ _ _ Hw) in Hp as (? & ? & ? & ? & ?). by split.
    + apply distributed_plan_ok in Hp as (? & ? & ? & ? & ?); [|apply Hw|done]. by split.
Qed.

(** ** Completeness of fused planning *)

Lemma canonical_sorted l : NoDup l -> canonical_strings (py_sorted str_leb l) = true.
Proof.
  intros H. unfold canonical_strings. apply andb_true_iff. split.
  - apply bool_decide_eq_true, py_sorted_id, py_sorted_sorted.
    + intros. apply leb_total.
    + intros x y z. apply leb_trans.
  - apply negb_true_iff, has_dup_false. by rewrite py_sorted_perm.
Qed.

Lemma fused_plan_total g pid :
  NoDup (node_ids g) -> node_ids g <> [] -> Forall (fun i => opaque_id i = true) (node_ids g) ->
  Z.of_nat (length (node_ids g)) <= MAX_OPERATORS -> opaque_id pid = true ->
  exists p, fused_plan g pid = Ok p.
Proof.
  intros Hn Hne Hid Hlen Hpid. unfold fused_plan, stage_of, new_stage, new_plan.
  set (ids := py_sorted str_leb (node_ids g)).
  assert (length ids = length (node_ids g)) as Hl by by apply Permutation_length, py_sorted_perm.
  assert (NoDup ids) as Hni by by unfold ids; rewrite py_sorted_perm.
  assert (ids <> []) as Hin by (intros E; apply Hne, length_zero_iff_nil; by rewrite <- Hl, E).
  assert (canonical_strings ids = true) as Hcan by by apply canonical_sorted.
  set (s := {| ps_stage_id := "pipeline" |}).
  assert (PhysicalStage_post_init s = Ok tt) as ->.
  { unfold PhysicalStage_post_init, require_portable_id, plan_reject. cbn [ps_operators ps_partition_count ps_stage_id ps_depends_on s].
    rewrite !seq_ok, !reject_if_tt, !orb_false_iff, bool_decide_eq_false, negb_false_iff, Hcan, Hl,
      Z.ltb_ge, existsb_false.
    split_and!; try done. unfold ids. rewrite py_sorted_perm. eapply Forall_impl; [exact Hid|].
    intros i ->. done. }
  cbn [mbind result_bind]. set (p := {| pp_pipeline_id := pid |}). exists p.
  assert (plan_ok p) as Hok.
  { split; cbn; try done; try (by repeat constructor); try (by cbv; lia).
    - apply NoDup_singleton.
    - rewrite app_nil_r. split; [done|]. by rewrite Hl.
    - intros s' d ->%list_elem_of_singleton Hd. cbn in Hd. set_solver.
    - intros a b. split; [set_solver|]. intros (s' & ->%list_elem_of_singleton & _ & Ha). cbn in Ha. set_solver.
    - set_solver.
    - intros x q _ Hc. assert (exists y, y ∈ depends (by_id [s]) x) as [y Hy].
      { destruct (q ++ [x]) as [|y l] eqn:E; [by destruct q|]. inversion Hc; subst. eauto. }
      unfold depends, by_id in Hy. cbn in Hy. case_bool_decide; cbn in Hy; set_solver. }
  apply plan_post_init_iff in Hok. by rewrite Hok.
Qed.

(** Fused planning is complete: every wired graph whose nodes have known
    types and representable identifiers has a fused plan, and that plan is the
    single stage [pipeline] over the sorted node ids. *)
Theorem fused_planning_complete g pid
    (Hw : wired g) (Hne : node_ids g <> [])
    (Hknown : Forall (fun n => nd_type n ∈ KNOWN_NODE_TYPES) (pg_nodes g))
    (Hid : Forall (fun i => opaque_id i = true) (node_ids g))
    (Hlen : Z.of_nat (length (node_ids g)) <= MAX_OPERATORS) (Hpid : opaque_id pid = true) :
  exists p, plan g pid FUSED_CONTAINER None = Ok p /\
    map ps_operators (pp_stages p) = [py_sorted str_leb (node_ids g)].
Proof.
  destruct (fused_plan_total g pid) as [p Hp]; [apply Hw|done..|]. exists p. split.
  - unfold plan, to_domain. rewrite (proj2 (validate_field_wiring_iff g) Hw). cbn.
    unfold planning_reject. rewrite bool_decide_eq_false_2 by done. cbn.
    assert (existsb (fun n => negb (bool_decide (nd_type n ∈ KNOWN_NODE_TYPES))) (pg_nodes g) = false) as ->.
    { apply existsb_false. eapply Forall_impl; [exact Hknown|]. intros n. cbn. by rewrite negb_bool_decide_false. }
    cbn. by rewrite Hp.
  - unfold fused_plan, new_plan in Hp. apply bind_ok in Hp as (s & Hs & Hp).
    apply stage_of_ok in Hs as ->. apply seq_ok in Hp as [_ [= <-]]. done.
Qed.

(** A source feeding a transform feeding a target. *)
Definition sample_node (i ty : string) (c : NodeConfig) : Node :=
  {| nd_id := i; nd_type := ty; nd_name := i; nd_config := c; nd_fields := []; nd_trigger := JNull;
     nd_cursor := JNull; nd_visual := JNull |}.
Definition sample_edge (a b : string) : Edge :=
  {| ed_source := a; ed_target := b; ed_metadata := JNull; ed_mappings := []; ed_join := None |}.
Definition sample_graph : PipelineGraph :=
  {| pg_name := "orders";
     pg_nodes := [sample_node "load" "target" (TargetNodeConfig None JNull);
                  sample_node "clean" "transform" (TransformNodeConfig None [] JNull);
                  sample_node "orders" "source" (SourceNodeConfig None None JNull JNull)];
     pg_edges := [sample_edge "orders" "clean"; sample_edge "clean" "load"]; pg_trigger := JNull |}.

Example sample_order : topological_order sample_graph = Ok ["orders"; "clean"; "load"].
Proof. vm_compute. reflexivity. Qed.

Example sample_cycle :
  topological_order {| pg_name := "c"; pg_nodes := pg_nodes sample_graph;
    pg_edges := sample_edge "load" "orders" :: pg_edges sample_graph; pg_trigger := JNull |}
  = Raise (graph_cycle ["load"; "orders"; "clean"; "load"]).
Proof. vm_compute. reflexivity. Qed.

Example sample_distributed :
  pp_stages <$> plan sample_graph "orders" DISTRIBUTED None
  = Ok [{| ps_stage_id := "extract"; ps_operators := ["orders"]; ps_partition_count := 2; ps_depends_on := [] |};
        {| ps_stage_id := "transform"; ps_operators := ["clean"; "load"]; ps_partition_count := 2;
           ps_depends_on := ["extract"] |}].
Proof. vm_compute. reflexivity. Qed.

Lemma fused_planning_complete_witness :
  exists p, plan sample_graph "orders" FUSED_CONTAINER None = Ok p /\
    map ps_operators (pp_stages p) = [["clean"; "load"; "orders"]].
Proof.
  apply (fused_planning_complete sample_graph "orders").
  - apply validate_field_wiring_iff. vm_compute. reflexivity.
  - discriminate.
  - repeat constructor; set_solver.
  - repeat constructor.
  - vm_compute. discriminate.
  - reflexivity.
Defined.
