(* ===== verification/Orchestration.v ===== *)
(** * Orchestration contracts ([control/orchestration.py])

    The value types of hosted runs with the checks of their constructors, the
    deterministic identities, the compact candidate syntax and the plan
    revision.  A record of a type [T] that the code can hold is one that
    [T_post_init] accepts; [new_...] is the constructor call. *)

From S2P Require Import Prelude Regex PyStr Sha256 PyTime Json Identifiers Projection Dfs PhysicalPlan Graph GraphOps PhysicalPlanner.

Local Open Scope string_scope.
Local Open Scope Z_scope.
Local Open Scope list_scope.

Definition ORCHESTRATION_SCHEMA : string := "io.dander.control.orchestration/v1".
Definition EXECUTION_PLAN_SCHEMA_V1 : string := "io.dander.control.execution-plan/v1".
Definition EXECUTION_PLAN_SCHEMA : string := "io.dander.control.execution-plan/v2".
Definition EXECUTION_RESULT_SUMMARY_SCHEMA : string := "io.dander.control.execution-result-summary/v1".
Definition PLACEMENT_DECISION_SCHEMA : string := "io.dander.control.placement-decision/v1".
Definition SIZE_CLASS_DECISION_SCHEMA : string := "io.dander.control.size-class-decision/v2".
Definition MAX_OPAQUE_VALUE : Z := 1024.
Definition MAX_RESULT_INTEGER : Z := 9223372036854775807.

(** ** Enumerations *)

Inductive TriggerKind : Type := API | MANUAL | SCHEDULE | DEPENDENCY.
Inductive HostedRunState : Type := QUEUED | RUNNING | RETRYING | CANCELING | TERMINAL.
Inductive RunOutcome : Type := SUCCEEDED | FAILED | CANCELED | UNKNOWN.
Inductive ResultsState : Type := RESULTS_PENDING | AVAILABLE | UNAVAILABLE.
Inductive CleanupState : Type := CLEANUP_PENDING | CONFIRMED | UNCERTAIN.
Inductive BackendExecutionState : Type := BACKEND_SUBMITTED | BACKEND_RUNNING | BACKEND_TERMINAL | BACKEND_UNKNOWN.
Inductive PlacementMode : Type := AUTOMATIC | MANUAL_OVERRIDE | CONFIGURED_DEFAULT | SCHEDULED | REPLAY.
Inductive SizeClassMode : Type :=
  AUTOMATIC_INPUT | SIZE_MANUAL_OVERRIDE | SIZE_CONFIGURED_DEFAULT | SIZE_SCHEDULED | SIZE_REPLAY.

#[export] Instance TriggerKind_eq_dec : EqDecision TriggerKind.
Proof. solve_decision. Defined.
#[export] Instance HostedRunState_eq_dec : EqDecision HostedRunState.
Proof. solve_decision. Defined.
#[export] Instance RunOutcome_eq_dec : EqDecision RunOutcome.
Proof. solve_decision. Defined.
#[export] Instance ResultsState_eq_dec : EqDecision ResultsState.
Proof. solve_decision. Defined.
#[export] Instance CleanupState_eq_dec : EqDecision CleanupState.
Proof. solve_decision. Defined.
#[export] Instance BackendExecutionState_eq_dec : EqDecision BackendExecutionState.
Proof. solve_decision. Defined.
#[export] Instance PlacementMode_eq_dec : EqDecision PlacementMode.
Proof. solve_decision. Defined.
#[export] Instance SizeClassMode_eq_dec : EqDecision SizeClassMode.
Proof. solve_decision. Defined.

Definition trigger_kind_value (k : TriggerKind) : string :=
  match k with API => "api" | MANUAL => "manual" | SCHEDULE => "schedule" | DEPENDENCY => "dependency" end.
Definition run_state_value (s : HostedRunState) : string :=
  match s with
  | QUEUED => "queued" | RUNNING => "running" | RETRYING => "retrying" | CANCELING => "canceling"
  | TERMINAL => "terminal"
  end.

(** ** [_require_...] *)

Definition contract_reject (b : bool) (m : string) : result unit := reject_if b OrchestrationContractError m.

Definition require_portable (value label : string) : result unit :=
  contract_reject (negb (portable_id value)) (label +:+ " identifier is malformed").
Definition require_opaque (value label : string) : result unit :=
  contract_reject (negb (opaque_id value)) (label +:+ " identifier is malformed").
Definition require_opaque_value (value : option string) (label : string) : result unit :=
  contract_reject
    (match value with
     | None => true
     | Some v => blank v || (MAX_OPAQUE_VALUE <? py_len v) || has_char newline v
     end) (label +:+ " value is missing or malformed").
Definition require_utc (value : datetime) (label : string) : result unit :=
  contract_reject (negb (is_utc value)) (label +:+ " must be an aware UTC datetime").
Definition require_optional_summary (value : option string) (label : string) : result unit :=
  when_some value (fun v =>
    contract_reject (blank v || (128 <? py_len v) || has_char newline v) (label +:+ " is malformed")).
Definition require_sha256 (value message : string) : result unit :=
  contract_reject (negb (is_sha256 value)) message.

(** [not 0 <= value <= _MAX_RESULT_INTEGER]. *)
Definition out_of_range (value : Z) : bool := negb ((0 <=? value) && (value <=? MAX_RESULT_INTEGER)).

(** ** Candidates *)

Record PlacementCandidate : Type := {
  pc_plan_revision : string;
  pc_locality : string;
  pc_estimated_cost_microusd : Z;
}.
#[export] Instance PlacementCandidate_eq_dec : EqDecision PlacementCandidate.
Proof. solve_decision. Defined.

Definition PlacementCandidate_post_init (c : PlacementCandidate) : result unit :=
  _ ← require_sha256 (pc_plan_revision c) "placement candidate plan revision must be a lowercase SHA-256";
  _ ← require_portable (pc_locality c) "placement locality";
  contract_reject (out_of_range (pc_estimated_cost_microusd c))
    "placement estimated cost must be bounded non-negative micro-USD".

Record SizeClassCandidate : Type := {
  sc_plan_revision : string;
  sc_size_class : string;
  sc_max_input_bytes : Z;
}.
#[export] Instance SizeClassCandidate_eq_dec : EqDecision SizeClassCandidate.
Proof. solve_decision. Defined.

Definition SizeClassCandidate_post_init (c : SizeClassCandidate) : result unit :=
  _ ← require_sha256 (sc_plan_revision c) "size-class candidate plan revision must be a lowercase SHA-256";
  _ ← require_portable (sc_size_class c) "size class";
  contract_reject (out_of_range (sc_max_input_bytes c))
    "size-class maximum input must be bounded non-negative bytes".

(** ** Decisions *)

Record SizeClassDecision : Type := {
  sd_mode : SizeClassMode;
  sd_selected_size_class : string;
  sd_estimated_input_bytes : option Z;
  sd_max_input_bytes : Z;
  sd_cpu_millis : Z;
  sd_memory_mib : Z;
  sd_ephemeral_storage_mib : option Z;
  sd_eligible_plan_count : Z;
  sd_estimate_source : option string;
  sd_estimate_observed_at : option datetime;
  sd_schema : string;
}.
#[export] Instance SizeClassDecision_eq_dec : EqDecision SizeClassDecision.
Proof. solve_decision. Defined.

Definition SizeClassDecision_post_init (d : SizeClassDecision) : result unit :=
  _ ← contract_reject (negb (bool_decide (sd_schema d = SIZE_CLASS_DECISION_SCHEMA)))
        "unsupported size-class decision contract";
  _ ← require_portable (sd_selected_size_class d) "selected size class";
  _ ← when_some (sd_estimated_input_bytes d) (fun v =>
        contract_reject (out_of_range v) "estimated input must be bounded non-negative bytes");
  _ ← contract_reject (negb (Bool.eqb (is_none (sd_estimate_source d)) (is_none (sd_estimate_observed_at d))))
        "size-class estimate source and observation time must be supplied together";
  _ ← when_some (sd_estimate_source d) (fun source =>
        _ ← require_portable source "size-class estimate source";
        _ ← contract_reject (is_none (sd_estimated_input_bytes d))
              "size-class estimate provenance requires estimated input bytes";
        match sd_estimate_observed_at d with
        | None => raise_ AssertionError ""
        | Some at_ => require_utc at_ "size-class estimate observation time"
        end);
  _ ← contract_reject (out_of_range (sd_max_input_bytes d))
        "size-class maximum input must be bounded non-negative bytes";
  _ ← when_some (sd_estimated_input_bytes d) (fun v =>
        contract_reject (sd_max_input_bytes d <? v) "selected size class cannot fit estimated input");
  _ ← for_each (fun lv : string * Z =>
        contract_reject (lv.2 <? 1) ("size-class " +:+ lv.1 +:+ " must be a positive integer"))
        [("cpu", sd_cpu_millis d); ("memory", sd_memory_mib d)];
  _ ← when_some (sd_ephemeral_storage_mib d) (fun v =>
        contract_reject (v <? 1) "size-class ephemeral storage must be a positive integer");
  contract_reject (negb ((1 <=? sd_eligible_plan_count d) && (sd_eligible_plan_count d <=? 100)))
    "size-class eligible plan count is invalid".

Record PlacementDecision : Type := {
  pd_mode : PlacementMode;
  pd_selected_environment : string;
  pd_selected_locality : option string;
  pd_estimated_cost_microusd : option Z;
  pd_preferred_locality : option string;
  pd_max_cost_microusd : option Z;
  pd_eligible_plan_count : Z;
  pd_schema : string;
}.
#[export] Instance PlacementDecision_eq_dec : EqDecision PlacementDecision.
Proof. solve_decision. Defined.

Definition PlacementDecision_post_init (d : PlacementDecision) : result unit :=
  _ ← contract_reject (negb (bool_decide (pd_schema d = PLACEMENT_DECISION_SCHEMA)))
        "unsupported placement-decision contract";
  _ ← require_portable (pd_selected_environment d) "selected environment";
  _ ← when_some (pd_selected_locality d) (fun v => require_portable v "selected locality");
  _ ← when_some (pd_preferred_locality d) (fun v => require_portable v "preferred locality");
  _ ← for_each (fun lv : string * option Z =>
        when_some lv.2 (fun v =>
          contract_reject (out_of_range v)
            ("placement " +:+ lv.1 +:+ " must be bounded non-negative micro-USD")))
        [("estimated cost", pd_estimated_cost_microusd d); ("maximum cost", pd_max_cost_microusd d)];
  _ ← contract_reject
        (negb (Bool.eqb (is_none (pd_selected_locality d)) (is_none (pd_estimated_cost_microusd d))))
        "placement selection locality and cost must be supplied together";
  _ ← contract_reject (negb ((1 <=? pd_eligible_plan_count d) && (pd_eligible_plan_count d <=? 100)))
        "placement eligible plan count is invalid";
  match pd_mode d with
  | AUTOMATIC =>
      match pd_selected_locality d, pd_preferred_locality d, pd_max_cost_microusd d with
      | Some _, Some _, Some maximum =>
          match pd_estimated_cost_microusd d with
          | None => raise_ AssertionError ""
          | Some cost =>
              contract_reject (maximum <? cost) "automatic placement exceeds its maximum estimated cost"
          end
      | _, _, _ =>
          contract_reject true "automatic placement requires locality, cost, and budget evidence"
      end
  | _ => Ok tt
  end.

Record ExecutionResultSummary : Type := {
  rs_endpoints : Z; rs_extracted_rows : Z; rs_affected_rows : Z; rs_models : Z; rs_assertions : Z;
  rs_assets : Z; rs_duration_ms : Z; rs_operation_count : Z; rs_retry_count : Z; rs_rows_read : Z;
  rs_rows_written : Z; rs_rows_affected : Z; rs_bytes_read : Z; rs_bytes_written : Z;
  rs_bytes_processed : Z; rs_bytes_billed : Z; rs_queue_duration_ms : Z; rs_execution_duration_ms : Z;
  rs_spill_bytes : Z; rs_skipped : bool; rs_schema : string;
}.
#[export] Instance ExecutionResultSummary_eq_dec : EqDecision ExecutionResultSummary.
Proof. solve_decision. Defined.

Definition summary_counts (s : ExecutionResultSummary) : list (string * Z) :=
  [("endpoints", rs_endpoints s); ("extracted_rows", rs_extracted_rows s);
   ("affected_rows", rs_affected_rows s); ("models", rs_models s); ("assertions", rs_assertions s);
   ("assets", rs_assets s); ("duration_ms", rs_duration_ms s); ("operation_count", rs_operation_count s);
   ("retry_count", rs_retry_count s); ("rows_read", rs_rows_read s); ("rows_written", rs_rows_written s);
   ("rows_affected", rs_rows_affected s); ("bytes_read", rs_bytes_read s);
   ("bytes_written", rs_bytes_written s); ("bytes_processed", rs_bytes_processed s);
   ("bytes_billed", rs_bytes_billed s); ("queue_duration_ms", rs_queue_duration_ms s);
   ("execution_duration_ms", rs_execution_duration_ms s); ("spill_bytes", rs_spill_bytes s)].

Definition ExecutionResultSummary_post_init (s : ExecutionResultSummary) : result unit :=
  _ ← contract_reject (negb (bool_decide (rs_schema s = EXECUTION_RESULT_SUMMARY_SCHEMA)))
        "unsupported execution-result summary contract";
  for_each (fun lv : string * Z =>
    contract_reject (out_of_range lv.2)
      ("execution-result " +:+ lv.1 +:+ " must be a bounded non-negative integer")) (summary_counts s).

(** ** Execution plans *)

Record RetryPolicy : Type := { rt_max_attempts : Z; rt_retryable_exit_codes : list Z }.
#[export] Instance RetryPolicy_eq_dec : EqDecision RetryPolicy.
Proof. solve_decision. Defined.

Definition RetryPolicy_post_init (r : RetryPolicy) : result unit :=
  _ ← contract_reject (rt_max_attempts r <? 1) "max_attempts must be a positive integer";
  contract_reject
    (bool_decide (rt_retryable_exit_codes r = [])
     || has_dup (rt_retryable_exit_codes r)
     || negb (bool_decide (py_sorted Z.leb (rt_retryable_exit_codes r) = rt_retryable_exit_codes r))
     || existsb (fun code => negb ((0 <=? code) && (code <=? 255))) (rt_retryable_exit_codes r))
    "retryable exit codes must be unique, sorted process exit codes".

Record ExecutionPlan : Type := {
  ep_plan_id : string;
  ep_environment : string;
  ep_project : string;
  ep_graph : string;
  ep_graph_revision : string;
  ep_graph_content_sha256 : string;
  ep_backend_id : string;
  ep_profile_id : string;
  ep_image : string;
  ep_execution_template : ExecutionTemplate;
  ep_deadline_seconds : Z;
  ep_retry_policy : RetryPolicy;
  ep_physical_plan : option PhysicalPlan;
  ep_schema : string;
}.
#[export] Instance ExecutionPlan_eq_dec : EqDecision ExecutionPlan.
Proof. solve_decision. Defined.

(** The positions of [--physical-plan] in a command. *)
Definition physical_arguments (command : list string) : list nat :=
  map fst (filter (fun iv : nat * string => iv.2 = "--physical-plan") (imap pair command)).

Definition check_physical_plan (backend_id : string) (template : ExecutionTemplate)
    (physical_plan : option PhysicalPlan) : result unit :=
  let command := et_command template in
  _ ← match physical_plan with
      | None =>
          contract_reject (negb (bool_decide (physical_arguments command = [])))
            "execution command cannot select an unregistered physical plan"
      | Some p =>
          _ ← contract_reject (negb (bool_decide (pp_pipeline_id p = et_pipeline_id template)))
                "physical plan pipeline does not match its execution template";
          _ ← contract_reject
                (bool_decide (backend_id ∈ ["fargate"; "cloud_run"])
                 && negb (bool_decide (pp_execution_mode p = FUSED_CONTAINER)))
                "existing container backends require fused physical execution";
          expected ← serialized_text p;
          contract_reject
            (match physical_arguments command with
             | [i] => negb (Z.of_nat i =? Z.of_nat (length command) - 2)
                      || negb (bool_decide (last command = Some expected))
             | _ => true
             end)
            "execution command must end with the exact canonical physical plan"
      end;
  contract_reject
    (bool_decide (backend_id = "dataproc_serverless")
     && match physical_plan with
        | None => true
        | Some p => negb (bool_decide (pp_execution_mode p = DISTRIBUTED))
        end)
    "Managed Spark execution requires distributed physical execution".

Definition ExecutionPlan_post_init (p : ExecutionPlan) : result unit :=
  let template := ep_execution_template p in
  _ ← contract_reject (negb (bool_decide (ep_schema p = ORCHESTRATION_SCHEMA))) "unsupported orchestration contract";
  _ ← for_each (fun lv : string * string => require_portable lv.2 lv.1)
        [("plan", ep_plan_id p); ("environment", ep_environment p); ("project", ep_project p);
         ("graph", ep_graph p)];
  _ ← require_opaque (ep_backend_id p) "backend";
  _ ← contract_reject (empty (ep_graph_revision p) || (512 <? py_len (ep_graph_revision p)))
        "graph revision is missing or oversized";
  _ ← require_sha256 (ep_graph_content_sha256 p) "graph content identity must be a lowercase SHA-256";
  _ ← contract_reject (ep_deadline_seconds p <? 1) "plan deadline must be a positive integer";
  _ ← contract_reject (negb (bool_decide (ep_backend_id p = et_launcher template)))
        "plan backend does not match its execution template";
  _ ← contract_reject (negb (bool_decide (ep_profile_id p = et_profile_id template)))
        "plan profile does not match its execution template";
  _ ← contract_reject (negb (bool_decide (ep_image p = et_image template)))
        "plan image does not match its execution template";
  _ ← contract_reject (negb (ep_deadline_seconds p =? rp_deadline_seconds (et_resources template)))
        "plan deadline does not match its execution template";
  _ ← contract_reject
        (negb (rt_max_attempts (ep_retry_policy p) =? rp_launcher_retry_count (et_resources template) + 1))
        "plan retry policy does not match its execution template";
  _ ← contract_reject
        (is_some (sp_expression (et_schedule template)) || is_some (sp_time_zone (et_schedule template)))
        "execution plans must not embed schedule or time-zone selection";
  check_physical_plan (ep_backend_id p) template (ep_physical_plan p).

Definition new_execution_plan (p : ExecutionPlan) : result ExecutionPlan := _ ← ExecutionPlan_post_init p; Ok p.

(** [canonical_execution_plan_contents]; [json.loads] of the serialized physical
    plan is the value it was printed from. *)
Definition execution_plan_payload (p : ExecutionPlan) : list (string * json) :=
  [("plan_id", JStr (ep_plan_id p)); ("environment", JStr (ep_environment p));
   ("project", JStr (ep_project p)); ("graph", JStr (ep_graph p));
   ("graph_revision", JStr (ep_graph_revision p));
   ("graph_content_sha256", JStr (ep_graph_content_sha256 p));
   ("backend_id", JStr (ep_backend_id p)); ("profile_id", JStr (ep_profile_id p));
   ("image", JStr (ep_image p)); ("execution_template", as_dict (ep_execution_template p));
   ("deadline_seconds", JInt (ep_deadline_seconds p));
   ("retry_policy",
     JObj [("max_attempts", JInt (rt_max_attempts (ep_retry_policy p)));
           ("retryable_exit_codes", JArr (JInt <$> rt_retryable_exit_codes (ep_retry_policy p)))]);
   ("orchestration_schema", JStr (ep_schema p))].

Definition canonical_execution_plan_contents (p : ExecutionPlan) : list Z :=
  let payload :=
    match ep_physical_plan p with
    | None => JObj [("schema", JStr EXECUTION_PLAN_SCHEMA_V1); ("plan", JObj (execution_plan_payload p))]
    | Some physical =>
        JObj [("schema", JStr EXECUTION_PLAN_SCHEMA);
              ("plan", JObj (execution_plan_payload p ++ [("physical_plan", serialized_json physical)]))]
    end in
  encode (dumps_unicode payload).

Definition revision (p : ExecutionPlan) : string := sha256_hex (canonical_execution_plan_contents p).

(** ** Triggers *)

Record TriggerSpec : Type := {
  ts_trigger_id : string;
  ts_kind : TriggerKind;
  ts_plan_id : string;
  ts_plan_revision : string;
  ts_enabled : bool;
  ts_schedule : option string;
  ts_time_zone : option string;
  ts_dependency : option string;
}.
#[export] Instance TriggerSpec_eq_dec : EqDecision TriggerSpec.
Proof. solve_decision. Defined.

(** [not value] of an optional string. *)
Definition falsy (o : option string) : bool := match o with None => true | Some s => empty s end.

Definition TriggerSpec_post_init (t : TriggerSpec) : result unit :=
  _ ← require_portable (ts_trigger_id t) "trigger";
  _ ← require_portable (ts_plan_id t) "plan";
  _ ← require_sha256 (ts_plan_revision t) "trigger plan revision must be a lowercase SHA-256";
  match ts_kind t with
  | SCHEDULE =>
      _ ← contract_reject
            (match ts_schedule t with None => true | Some e => empty e || blank e end || falsy (ts_time_zone t))
            "scheduled triggers require an expression and time zone";
      contract_reject (is_some (ts_dependency t)) "scheduled triggers cannot name a dependency"
  | kind =>
      _ ← contract_reject (is_some (ts_schedule t) || is_some (ts_time_zone t))
            "only scheduled triggers may carry schedule fields";
      match kind with
      | DEPENDENCY => require_opaque_value (ts_dependency t) "dependency"
      | _ => contract_reject (is_some (ts_dependency t)) "only dependency triggers may name a dependency"
      end
  end.

Record ScheduleWakeup : Type := {
  sw_trigger_id : string;
  sw_plan_revision : string;
  sw_scheduled_occurrence : datetime;
}.

Definition ScheduleWakeup_post_init (w : ScheduleWakeup) : result unit :=
  _ ← require_portable (sw_trigger_id w) "trigger";
  _ ← require_sha256 (sw_plan_revision w) "wakeup plan revision must be a lowercase SHA-256";
  require_utc (sw_scheduled_occurrence w) "scheduled occurrence".

Record RunTrigger : Type := {
  tg_kind : TriggerKind;
  tg_trigger_id : string;
  tg_scheduled_occurrence : option datetime;
  tg_replay_of_run_id : option string;
  tg_repair_window : option GraphRepairWindow;
}.
#[export] Instance RunTrigger_eq_dec : EqDecision RunTrigger.
Proof. solve_decision. Defined.

Definition RunTrigger_post_init (t : RunTrigger) : result unit :=
  _ ← require_portable (tg_trigger_id t) "trigger";
  _ ← match tg_kind t, tg_scheduled_occurrence t with
      | SCHEDULE, None => contract_reject true "scheduled run triggers require their scheduled occurrence"
      | SCHEDULE, Some o => require_utc o "scheduled occurrence"
      | _, o => contract_reject (is_some o) "only scheduled run triggers may carry a scheduled occurrence"
      end;
  _ ← when_some (tg_replay_of_run_id t) (fun r => require_opaque r "replayed run");
  when_some (tg_repair_window t) (fun _ =>
    contract_reject (negb (bool_decide (tg_kind t ∈ [API; MANUAL])))
      "date repair requires an explicit run trigger").

(** ** Submissions *)

(** [graph_store.GraphRecord]. *)
Record GraphRecord : Type := {
  gr_project : string;
  gr_graph : string;
  gr_document : PipelineGraph;
  gr_revision : string;
  gr_content_sha256 : string;
  gr_created_at : string;
  gr_updated_at : string;
}.

Record RunSubmission : Type := {
  sb_environment : string;
  sb_project : string;
  sb_graph : GraphRecord;
  sb_plan_id : string;
  sb_plan_revision : string;
  sb_trigger : RunTrigger;
  sb_idempotency_key : string;
  sb_requested_at : datetime;
  sb_requested_deadline_seconds : option Z;
  sb_placement_decision : option PlacementDecision;
  sb_size_class_decision : option SizeClassDecision;
}.

Definition RunSubmission_post_init (s : RunSubmission) : result unit :=
  _ ← require_portable (sb_environment s) "environment";
  _ ← require_portable (sb_project s) "project";
  _ ← require_portable (sb_plan_id s) "plan";
  _ ← contract_reject (negb (bool_decide (gr_project (sb_graph s) = sb_project s)))
        "submission project does not match its graph";
  _ ← require_sha256 (sb_plan_revision s) "submission plan revision must be a lowercase SHA-256";
  _ ← when_some (sb_placement_decision s) (fun d =>
        contract_reject (negb (bool_decide (pd_selected_environment d = sb_environment s)))
          "submission placement decision selects a different environment");
  _ ← contract_reject (negb (idempotency_key (sb_idempotency_key s)))
        "submission idempotency key is malformed";
  _ ← require_utc (sb_requested_at s) "requested_at";
  when_some (sb_requested_deadline_seconds s) (fun d =>
    contract_reject (d <? 1) "requested deadline must be a positive integer").

Definition new_submission (s : RunSubmission) : result RunSubmission := _ ← RunSubmission_post_init s; Ok s.

Definition trigger_payload (t : RunTrigger) : json :=
  JObj ([("kind", JStr (trigger_kind_value (tg_kind t))); ("trigger_id", JStr (tg_trigger_id t));
         ("scheduled_occurrence", jopt (fun o => JStr (isoformat o)) (tg_scheduled_occurrence t));
         ("replay_of_run_id", jopt JStr (tg_replay_of_run_id t))]
        ++ match tg_repair_window t with
           | None => []
           | Some w => [("repair_window", repair_window_dump w)]
           end).

Definition fingerprint_payload (s : RunSubmission) : json :=
  JObj [("environment", JStr (sb_environment s)); ("project", JStr (sb_project s));
        ("graph", JStr (gr_graph (sb_graph s))); ("graph_revision", JStr (gr_revision (sb_graph s)));
        ("graph_content_sha256", JStr (gr_content_sha256 (sb_graph s)));
        ("plan_id", JStr (sb_plan_id s)); ("plan_revision", JStr (sb_plan_revision s));
        ("trigger", trigger_payload (sb_trigger s));
        ("requested_deadline_seconds", jopt JInt (sb_requested_deadline_seconds s))].

Definition fingerprint (s : RunSubmission) : string := sha256_hex (encode (dumps_ascii (fingerprint_payload s))).
Definition idempotency_key_sha256 (s : RunSubmission) : string := sha256_hex (encode (sb_idempotency_key s)).

(** ** Backend values *)

Record BackendHandle : Type := { bh_backend_id : string; bh_execution_id : string }.
#[export] Instance BackendHandle_eq_dec : EqDecision BackendHandle.
Proof. solve_decision. Defined.

Definition BackendHandle_post_init (h : BackendHandle) : result unit :=
  _ ← require_opaque (bh_backend_id h) "backend";
  require_opaque_value (Some (bh_execution_id h)) "provider execution".

Record BackendObservation : Type := {
  bo_execution_state : BackendExecutionState;
  bo_outcome : RunOutcome;
  bo_results_state : ResultsState;
  bo_cleanup_state : CleanupState;
  bo_observed_at : datetime;
  bo_stage : option string;
  bo_failure_code : option string;
  bo_result_summary : option ExecutionResultSummary;
}.
#[export] Instance BackendObservation_eq_dec : EqDecision BackendObservation.
Proof. solve_decision. Defined.

Definition BackendObservation_post_init (o : BackendObservation) : result unit :=
  _ ← require_utc (bo_observed_at o) "observed_at";
  _ ← require_optional_summary (bo_stage o) "stage";
  _ ← require_optional_summary (bo_failure_code o) "failure code";
  _ ← contract_reject
        (negb (bool_decide (bo_execution_state o = BACKEND_TERMINAL))
         && (negb (bool_decide (bo_outcome o = UNKNOWN))
             || negb (bool_decide (bo_results_state o = RESULTS_PENDING))
             || negb (bool_decide (bo_cleanup_state o = CLEANUP_PENDING))
             || is_some (bo_result_summary o)))
        "non-terminal backend observations cannot report terminal reconciliation";
  _ ← contract_reject
        (negb (Bool.eqb (bool_decide (bo_results_state o = AVAILABLE)) (is_some (bo_result_summary o))))
        "available backend results require exactly one execution-result summary";
  contract_reject (is_some (bo_result_summary o) && negb (bool_decide (bo_outcome o = SUCCEEDED)))
    "only successful backend observations may report an execution-result summary".

Record BackendLogRecord : Type := { bl_occurred_at : datetime; bl_message : string; bl_level : option string }.
#[export] Instance BackendLogRecord_eq_dec : EqDecision BackendLogRecord.
Proof. solve_decision. Defined.

Definition BackendLogRecord_post_init (l : BackendLogRecord) : result unit :=
  _ ← require_utc (bl_occurred_at l) "log timestamp";
  _ ← contract_reject (empty (bl_message l) || (16384 <? py_len (bl_message l)))
        "log message is missing or oversized";
  require_optional_summary (bl_level l) "log level".

Record BackendLogPage : Type := { lp_records : list BackendLogRecord; lp_next_cursor : option string }.

Definition BackendLogPage_post_init (p : BackendLogPage) : result unit :=
  _ ← contract_reject (500 <? Z.of_nat (length (lp_records p))) "backend log page exceeds the Control limit";
  when_some (lp_next_cursor p) (fun c => require_opaque_value (Some c) "log cursor").

(** ** Identities *)

(** [digest[:n]]. *)
Definition first_chars (n : nat) (s : string) : string := of_chars (take n (chars s)).

(** The texts the two identities hash. *)
Definition run_identity_text (environment project key_sha256 : string) : string :=
  join ":" [environment; project; key_sha256].
Definition attempt_identity_text (run_id : string) (attempt_number : Z) : string :=
  run_id +:+ ":" +:+ py_str attempt_number.

Definition logical_run_identity (s : RunSubmission) : string :=
  "run-" +:+ first_chars 24
    (sha256_hex (encode (run_identity_text (sb_environment s) (sb_project s) (idempotency_key_sha256 s)))).

Definition attempt_identity (run_id : string) (attempt_number : Z) : result string :=
  _ ← contract_reject (attempt_number <? 1) "attempt number must be a positive integer";
  _ ← require_opaque run_id "run";
  let digest := first_chars 20 (sha256_hex (encode (attempt_identity_text run_id attempt_number))) in
  Ok ("attempt-" +:+ py_str attempt_number +:+ "-" +:+ digest).

(** ** Durable records *)

Record RunRecord : Type := {
  rr_run_id : string;
  rr_environment : string;
  rr_project : string;
  rr_graph : string;
  rr_graph_revision : string;
  rr_graph_content_sha256 : string;
  rr_plan_id : string;
  rr_plan_revision : string;
  rr_trigger : RunTrigger;
  rr_idempotency_key_sha256 : string;
  rr_submission_sha256 : string;
  rr_requested_at : datetime;
  rr_requested_deadline_seconds : option Z;
  rr_run_state : HostedRunState;
  rr_outcome : RunOutcome;
  rr_results_state : ResultsState;
  rr_cleanup_state : CleanupState;
  rr_created_at : datetime;
  rr_updated_at : datetime;
  rr_terminal_at : option datetime;
  rr_stage : option string;
  rr_attempt_count : Z;
  rr_current_attempt_id : option string;
  rr_backend_handle : option BackendHandle;
  rr_result_summary : option ExecutionResultSummary;
  rr_placement_decision : option PlacementDecision;
  rr_size_class_decision : option SizeClassDecision;
}.
#[export] Instance RunRecord_eq_dec : EqDecision RunRecord.
Proof. solve_decision. Defined.

Definition validate_run_dimensions (r : RunRecord) : result unit :=
  _ ← match rr_run_state r with
      | TERMINAL => contract_reject (is_none (rr_terminal_at r)) "terminal runs require a terminal time"
      | _ =>
          _ ← contract_reject (negb (bool_decide (rr_outcome r = UNKNOWN)))
                "non-terminal runs cannot have a terminal outcome";
          _ ← contract_reject (negb (bool_decide (rr_results_state r = RESULTS_PENDING)))
                "non-terminal runs cannot have reconciled results";
          _ ← contract_reject (negb (bool_decide (rr_cleanup_state r = CLEANUP_PENDING)))
                "non-terminal runs cannot have reconciled cleanup";
          contract_reject (is_some (rr_terminal_at r)) "non-terminal runs cannot have a terminal time"
      end;
  contract_reject (bool_decide (rr_run_state r = RUNNING) && is_none (rr_backend_handle r))
    "running runs require a backend handle".

Definition RunRecord_post_init (r : RunRecord) : result unit :=
  _ ← require_opaque (rr_run_id r) "run";
  _ ← for_each (fun lv : string * string => require_portable lv.2 lv.1)
        [("environment", rr_environment r); ("project", rr_project r); ("graph", rr_graph r);
         ("plan", rr_plan_id r)];
  _ ← for_each (fun lv : string * string =>
        require_sha256 lv.2 (lv.1 +:+ " identity must be a lowercase SHA-256"))
        [("graph content", rr_graph_content_sha256 r); ("plan revision", rr_plan_revision r);
         ("idempotency key", rr_idempotency_key_sha256 r); ("submission", rr_submission_sha256 r)];
  _ ← contract_reject (empty (rr_graph_revision r) || (512 <? py_len (rr_graph_revision r)))
        "run graph revision is missing or oversized";
  _ ← for_each (fun lv : string * datetime => require_utc lv.2 lv.1)
        [("requested_at", rr_requested_at r); ("created_at", rr_created_at r);
         ("updated_at", rr_updated_at r)];
  _ ← when_some (rr_terminal_at r) (fun t => require_utc t "terminal_at");
  _ ← contract_reject (dt_ltb (rr_updated_at r) (rr_created_at r)) "run update time predates creation";
  _ ← contract_reject (rr_attempt_count r <? 0) "run attempt count must not be negative";
  _ ← when_some (rr_requested_deadline_seconds r) (fun d =>
        contract_reject (d <? 1) "run requested deadline must be a positive integer");
  _ ← contract_reject (negb (Bool.eqb (rr_attempt_count r =? 0) (is_none (rr_current_attempt_id r))))
        "run attempt identity does not match its count";
  _ ← when_some (rr_current_attempt_id r) (fun current =>
        expected ← attempt_identity (rr_run_id r) (rr_attempt_count r);
        contract_reject (negb (bool_decide (current = expected)))
          "run current attempt identity is not deterministic");
  _ ← when_some (rr_backend_handle r) (fun h =>
        contract_reject (bool_decide (bh_backend_id h = "")) "run backend handle is malformed");
  _ ← require_optional_summary (rr_stage r) "stage";
  _ ← when_some (rr_result_summary r) (fun _ =>
        contract_reject
          (negb (bool_decide (rr_run_state r = TERMINAL)) || negb (bool_decide (rr_outcome r = SUCCEEDED))
           || negb (bool_decide (rr_results_state r = AVAILABLE)))
          "execution-result summaries require available successful terminal results");
  _ ← when_some (rr_placement_decision r) (fun d =>
        contract_reject (negb (bool_decide (pd_selected_environment d = rr_environment r)))
          "run placement decision selects a different environment");
  validate_run_dimensions r.

Definition new_run_record (r : RunRecord) : result RunRecord := _ ← RunRecord_post_init r; Ok r.

Record AttemptRecord : Type := {
  ar_run_id : string;
  ar_attempt_id : string;
  ar_attempt_number : Z;
  ar_plan_id : string;
  ar_plan_revision : string;
  ar_backend_id : string;
  ar_trigger : RunTrigger;
  ar_created_at : datetime;
}.
#[export] Instance AttemptRecord_eq_dec : EqDecision AttemptRecord.
Proof. solve_decision. Defined.

Definition AttemptRecord_post_init (a : AttemptRecord) : result unit :=
  _ ← require_opaque (ar_run_id a) "run";
  _ ← require_opaque (ar_attempt_id a) "attempt";
  _ ← require_portable (ar_plan_id a) "plan";
  _ ← require_opaque (ar_backend_id a) "backend";
  _ ← require_sha256 (ar_plan_revision a) "attempt plan revision must be a lowercase SHA-256";
  _ ← contract_reject (ar_attempt_number a <? 1) "attempt number must be a positive integer";
  expected ← attempt_identity (ar_run_id a) (ar_attempt_number a);
  _ ← contract_reject (negb (bool_decide (ar_attempt_id a = expected))) "attempt identity is not deterministic";
  require_utc (ar_created_at a) "attempt created_at".

Definition new_attempt_record (a : AttemptRecord) : result AttemptRecord := _ ← AttemptRecord_post_init a; Ok a.

Record StoredRun : Type := { st_record : RunRecord; st_revision : string }.
#[export] Instance StoredRun_eq_dec : EqDecision StoredRun.
Proof. solve_decision. Defined.

Definition StoredRun_post_init (s : StoredRun) : result unit :=
  require_opaque_value (Some (st_revision s)) "run revision".
Definition new_stored_run (s : StoredRun) : result StoredRun := _ ← StoredRun_post_init s; Ok s.

Record RunClaim : Type := { rc_stored : StoredRun; rc_created : bool }.
Record StoredRunPage : Type := { pg_items : list StoredRun; pg_next_cursor : option string }.

Definition StoredRunPage_post_init (p : StoredRunPage) : result unit :=
  _ ← contract_reject (100 <? Z.of_nat (length (pg_items p))) "run page exceeds the Control limit";
  when_some (pg_next_cursor p) (fun c => require_opaque_value (Some c) "run cursor").

(** ** Operations *)

(** The fields a snapshot update must preserve. *)
Definition run_identity (r : RunRecord) :=
  (rr_run_id r, rr_environment r, rr_project r, rr_graph r, rr_graph_revision r, rr_graph_content_sha256 r,
   rr_plan_id r, rr_plan_revision r, rr_trigger r, rr_idempotency_key_sha256 r, rr_submission_sha256 r,
   rr_requested_at r, rr_requested_deadline_seconds r, rr_created_at r).

Definition same_run_identity (first second : RunRecord) : bool :=
  bool_decide (run_identity first = run_identity second).

Definition run_needs_reconciliation (r : RunRecord) : bool :=
  negb (bool_decide (rr_run_state r = TERMINAL))
  || bool_decide (rr_outcome r = UNKNOWN)
  || bool_decide (rr_results_state r = RESULTS_PENDING)
  || negb (bool_decide (rr_cleanup_state r = CONFIRMED)).

Definition queued_record (s : RunSubmission) : RunRecord :=
  {| rr_run_id := logical_run_identity s; rr_environment := sb_environment s; rr_project := sb_project s;
     rr_graph := gr_graph (sb_graph s); rr_graph_revision := gr_revision (sb_graph s);
     rr_graph_content_sha256 := gr_content_sha256 (sb_graph s); rr_plan_id := sb_plan_id s;
     rr_plan_revision := sb_plan_revision s; rr_trigger := sb_trigger s;
     rr_idempotency_key_sha256 := idempotency_key_sha256 s; rr_submission_sha256 := fingerprint s;
     rr_requested_at := sb_requested_at s;
     rr_requested_deadline_seconds := sb_requested_deadline_seconds s;
     rr_run_state := QUEUED; rr_outcome := UNKNOWN; rr_results_state := RESULTS_PENDING;
     rr_cleanup_state := CLEANUP_PENDING; rr_created_at := sb_requested_at s;
     rr_updated_at := sb_requested_at s; rr_terminal_at := None; rr_stage := None; rr_attempt_count := 0;
     rr_current_attempt_id := None; rr_backend_handle := None; rr_result_summary := None;
     rr_placement_decision := sb_placement_decision s; rr_size_class_decision := sb_size_class_decision s |}.

Definition create_run_record (s : RunSubmission) : result RunRecord := new_run_record (queued_record s).

Definition format_placement_candidate_spec (c : PlacementCandidate) : string :=
  join "," [pc_plan_revision c; pc_locality c; py_str (pc_estimated_cost_microusd c)].

Definition parse_placement_candidate_spec (value : string) : result PlacementCandidate :=
  match split_on "," value with
  | [revision; locality; cost] =>
      match py_int cost with
      | None => raise_ OrchestrationContractError "placement candidate estimated cost must be an integer"
      | Some n =>
          let c := {| pc_plan_revision := revision; pc_locality := locality; pc_estimated_cost_microusd := n |} in
          _ ← PlacementCandidate_post_init c;
          _ ← contract_reject (negb (bool_decide (format_placement_candidate_spec c = value)))
                "placement candidate syntax is not canonical";
          Ok c
      end
  | _ =>
      raise_ OrchestrationContractError
        "placement candidate must use revision,locality,estimated-cost-microusd syntax"
  end.

Definition format_size_class_candidate_spec (c : SizeClassCandidate) : string :=
  join "," [sc_plan_revision c; sc_size_class c; py_str (sc_max_input_bytes c)].

Definition parse_size_class_candidate_spec (value : string) : result SizeClassCandidate :=
  match split_on "," value with
  | [revision; size_class; maximum] =>
      match py_int maximum with
      | None => raise_ OrchestrationContractError "size-class candidate maximum input must be an integer"
      | Some n =>
          let c := {| sc_plan_revision := revision; sc_size_class := size_class; sc_max_input_bytes := n |} in
          _ ← SizeClassCandidate_post_init c;
          _ ← contract_reject (negb (bool_decide (format_size_class_candidate_spec c = value)))
                "size-class candidate syntax is not canonical";
          Ok c
      end
  | _ =>
      raise_ OrchestrationContractError "size-class candidate must use revision,size-class,max-input-bytes syntax"
  end.

(** What a submission, a durable run and a plan must agree on. *)
Definition submission_selection (s : RunSubmission) :=
  (sb_environment s, sb_project s, gr_graph (sb_graph s), gr_revision (sb_graph s),
   gr_content_sha256 (sb_graph s), sb_plan_id s, sb_plan_revision s).
Definition record_selection (r : RunRecord) :=
  (rr_environment r, rr_project r, rr_graph r, rr_graph_revision r, rr_graph_content_sha256 r,
   rr_plan_id r, rr_plan_revision r).
Definition plan_selection (p : ExecutionPlan) :=
  (ep_environment p, ep_project p, ep_graph p, ep_graph_revision p, ep_graph_content_sha256 p,
   ep_plan_id p, revision p).

Definition validate_submission_plan (s : RunSubmission) (p : ExecutionPlan) : result unit :=
  _ ← contract_reject
        (is_some (tg_repair_window (sb_trigger s))
         && (negb (bool_decide (ep_backend_id p = "cloud_run"))
             || negb (sp_task_count (et_schedule (ep_execution_template p)) =? 1)))
        "date repair requires a single-task Cloud Run plan";
  _ ← contract_reject (negb (bool_decide (submission_selection s = plan_selection p)))
        "submission does not select the exact execution plan";
  when_some (sb_requested_deadline_seconds s) (fun d =>
    contract_reject (ep_deadline_seconds p <? d) "requested deadline exceeds the execution plan limit").

(** ** Candidate specs round-trip *)

Lemma digits_no_comma n : 0 <= n -> has_char "," (py_str n) = false.
Proof.
  intros H. unfold has_char. apply (all_chars_excludes digit); [done|].
  unfold all_chars. apply forallb_Forall, py_str_digits, H.
Qed.

Lemma out_of_range_false v : out_of_range v = false <-> 0 <= v <= MAX_RESULT_INTEGER.
Proof. unfold out_of_range. rewrite negb_false_iff, andb_true_iff, !Z.leb_le. done. Qed.

Lemma range_small v : 0 <= v <= MAX_RESULT_INTEGER -> 0 <= v < 2 ^ 4000.
Proof.
  intros [? H]. split; [done|]. eapply Z.le_lt_trans; [exact H|].
  apply (Z.lt_le_trans _ (2 ^ 63)); [reflexivity|]. apply Z.pow_le_mono_r; lia.
Qed.

Lemma split_spec a b n :
  has_char "," a = false -> has_char "," b = false -> 0 <= n ->
  split_on "," (join "," [a; b; py_str n]) = [a; b; py_str n].
Proof.
  intros Ha Hb Hn. apply (split_on_join ","%char); [done|].
  repeat constructor; auto using digits_no_comma.
Qed.

(** The compact placement syntax: [parse] accepts exactly the texts [format]
    produces for valid candidates, and the two are inverse to each other (leading
    zeros, signs, blanks and underscores in the cost are rejected as not
    canonical). *)
Theorem placement_spec_roundtrip value c :
  parse_placement_candidate_spec value = Ok c <->
  PlacementCandidate_post_init c = Ok tt /\ value = format_placement_candidate_spec c.
Proof.
  split.
  - unfold parse_placement_candidate_spec. intros H.
    destruct (split_on _ _) as [|r [|l [|n [|? ?]]]]; try done. destruct (py_int n) as [z|]; [|done].
    apply seq_ok in H as [Hp H]. apply seq_ok in H as [Hf [= <-]].
    apply reject_if_tt, negb_bool_decide_false in Hf. split; [done|congruence].
  - intros [Hp ->]. unfold parse_placement_candidate_spec, format_placement_candidate_spec at 1.
    destruct c as [r l n]. cbn [pc_plan_revision pc_locality pc_estimated_cost_microusd]. pose proof Hp as Hc.
    unfold PlacementCandidate_post_init, require_sha256, require_portable, contract_reject in Hc.
    rewrite !seq_ok, !reject_if_tt, !negb_false_iff, out_of_range_false in Hc. cbn in Hc.
    destruct Hc as (Hr & Hl & Hn).
    rewrite split_spec by (auto with dander; lia). rewrite py_int_str by by apply range_small.
    rewrite Hp. cbn. by rewrite bool_decide_eq_true_2.
Qed.

Lemma placement_spec_roundtrip_witness :
  let c := {| pc_plan_revision := sha256_hex []; pc_locality := "us-east1"; pc_estimated_cost_microusd := 1250 |} in
  parse_placement_candidate_spec (format_placement_candidate_spec c) = Ok c.
Proof.
  apply placement_spec_roundtrip. split; [|reflexivity].
  unfold PlacementCandidate_post_init, require_sha256. cbn [pc_plan_revision]. rewrite sha256_hex_is_sha256.
  vm_compute. reflexivity.
Defined.

(** The size-class syntax: [parse] and [format] are inverse on valid
    candidates, and [parse] accepts nothing else. *)
Theorem size_class_spec_roundtrip value c :
  parse_size_class_candidate_spec value = Ok c <->
  SizeClassCandidate_post_init c = Ok tt /\ value = format_size_class_candidate_spec c.
Proof.
  split.
  - unfold parse_size_class_candidate_spec. intros H.
    destruct (split_on _ _) as [|r [|l [|n [|? ?]]]]; try done. destruct (py_int n) as [z|]; [|done].
    apply seq_ok in H as [Hp H]. apply seq_ok in H as [Hf [= <-]].
    apply reject_if_tt, negb_bool_decide_false in Hf. split; [done|congruence].
  - intros [Hp ->]. unfold parse_size_class_candidate_spec, format_size_class_candidate_spec at 1.
    destruct c as [r l n]. cbn [sc_plan_revision sc_size_class sc_max_input_bytes]. pose proof Hp as Hc.
    unfold SizeClassCandidate_post_init, require_sha256, require_portable, contract_reject in Hc.
    rewrite !seq_ok, !reject_if_tt, !negb_false_iff, out_of_range_false in Hc. cbn in Hc.
    destruct Hc as (Hr & Hl & Hn).
    rewrite split_spec by (auto with dander; lia). rewrite py_int_str by by apply range_small.
    rewrite Hp. cbn. by rewrite bool_decide_eq_true_2.
Qed.

(** ** Identities *)

Lemma first_chars_hex n b :
  (n <= 64)%nat ->
  length (chars (first_chars n (sha256_hex b))) = n /\
  all_chars lower_hex (chars (first_chars n (sha256_hex b))) = true.
Proof.
  intros Hn. unfold first_chars. rewrite chars_of_chars.
  destruct (proj1 (is_sha256_spec _) (sha256_hex_is_sha256 b)) as [Hl Hc]. split.
  - rewrite length_take, Hl. lia.
  - unfold all_chars in *. rewrite forallb_Forall in *. by apply Forall_take.
Qed.

Lemma hex_tail_opaque l : all_chars lower_hex l = true -> all_chars (either alnum (one_of "._:-")) l = true.
Proof. apply all_chars_impl. intros c Hc. by apply either_l, lower_hex_alnum. Qed.


Lemma run_identity_opaque s : opaque_id (logical_run_identity s) = true.
Proof.
  apply opaque_id_spec. unfold logical_run_identity. set (b := encode _).
  destruct (first_chars_hex 24 b) as [Hl Hc]; [lia|].
  exists "r"%char, ("u" :: "n" :: "-" :: chars (first_chars 24 (sha256_hex b)))%char.
  split_and!; [by rewrite chars_app|done| |].
  - cbn [length]. rewrite Hl. lia.
  - cbn. by apply hex_tail_opaque.
Qed.

Lemma digits_no_char c n : digit c = false -> 0 <= n -> has_char c (py_str n) = false.
Proof.
  intros Hc H. unfold has_char. apply (all_chars_excludes digit); [done|].
  unfold all_chars. apply forallb_Forall, py_str_digits, H.
Qed.

Lemma attempt_identity_ok run_id n a :
  attempt_identity run_id n = Ok a <->
  1 <= n /\ opaque_id run_id = true /\
  a = join "-" ["attempt"; py_str n; first_chars 20 (sha256_hex (encode (attempt_identity_text run_id n)))].
Proof.
  unfold attempt_identity, require_opaque, contract_reject. rewrite !seq_ok, !reject_if_tt, Z.ltb_ge, negb_false_iff.
  cbn [join]. split; intros (? & ? & H); (split; [done|]); (split; [done|]).
  - injection H as <-. reflexivity.
  - subst a. reflexivity.
Qed.

(** Two texts split at their first separator. *)
Lemma first_separator sep l m l' m' :
  existsb (Ascii.eqb sep) l = false -> existsb (Ascii.eqb sep) m = false ->
  l ++ sep :: l' = m ++ sep :: m' -> l = m /\ l' = m'.
Proof.
  revert m; induction l as [|c l IH]; intros [|d q]; cbn; intros Hl Hm E; simplify_eq/=.
  - done.
  - by rewrite Ascii.eqb_refl in Hm.
  - by rewrite Ascii.eqb_refl in Hl.
  - apply orb_false_iff in Hl as [_ Hl], Hm as [_ Hm]. edestruct (IH q Hl Hm) as [-> ->]; done.
Qed.

Lemma rev_no_char c n : digit c = false -> 0 <= n -> existsb (Ascii.eqb c) (rev (chars (py_str n))) = false.
Proof.
  intros Hc Hn. apply not_true_is_false. intros (d & Hd & Hx)%existsb_exists.
  pose proof (digits_no_char c n Hc Hn) as H. apply not_true_iff_false in H. apply H, existsb_exists.
  exists d. split; [by apply in_rev|done].
Qed.

Lemma attempt_text_inj r r' n m :
  0 <= n < 2 ^ 4000 -> 0 <= m < 2 ^ 4000 ->
  attempt_identity_text r n = attempt_identity_text r' m -> r = r' /\ n = m.
Proof.
  intros Hn Hm E. unfold attempt_identity_text in E. apply (f_equal (fun s => rev (chars s))) in E.
  rewrite !chars_app, !rev_app_distr in E. change (chars ":") with [":"%char] in E. cbn [rev app] in E.
  rewrite <- !app_assoc in E.
  apply first_separator in E as [E1 E2]; [|apply rev_no_char; [done|apply Hn]|apply rev_no_char; [done|apply Hm]].
  apply (f_equal (@rev ascii)) in E1, E2. rewrite !rev_involutive in E1, E2.
  split; [by apply chars_inj|]. by apply py_str_inj; [..|apply chars_inj].
Qed.

Lemma attempt_parts run_id n a :
  attempt_identity run_id n = Ok a -> split_on "-" a !! 1%nat = Some (py_str n).
Proof.
  intros (Hn & _ & ->)%attempt_identity_ok. rewrite (split_on_join "-"%char); [done..|].
  repeat constructor; [apply digits_no_char; [done|lia]|].
  unfold has_char. apply (all_chars_excludes lower_hex); [done|]. apply first_chars_hex. lia.
Qed.

(** An attempt identity determines its attempt number (for numbers of up to
    1,200 digits), and the text it hashes determines the run as well: two attempts
    with the same hashed text are the same attempt of the same run. *)
Theorem attempt_identity_injective run_id run_id' n m a a'
    (Ha : attempt_identity run_id n = Ok a) (Ha' : attempt_identity run_id' m = Ok a')
    (Hn : n < 2 ^ 4000) (Hm : m < 2 ^ 4000) :
  (a = a' -> n = m) /\
  (attempt_identity_text run_id n = attempt_identity_text run_id' m -> run_id = run_id' /\ n = m).
Proof.
  assert (0 <= n) as Hn0 by (apply attempt_identity_ok in Ha as [? _]; clear Hn Hm; lia).
  assert (0 <= m) as Hm0 by (apply attempt_identity_ok in Ha' as [? _]; clear Hn Hm; lia).
  split; [|by apply attempt_text_inj].
  intros <-. apply attempt_parts in Ha, Ha'. apply py_str_inj; [done..|congruence].
Qed.

Lemma attempt_identity_injective_witness :
  exists a a', attempt_identity "run-1" 1 = Ok a /\ attempt_identity "run-1" 2 = Ok a' /\ a <> a'.
Proof.
  eexists _, _. split; [reflexivity|]. split; [reflexivity|]. intros E.
  pose proof (proj1 (attempt_identity_injective "run-1" "run-1" 1 2 _ _ eq_refl eq_refl
    (eq_refl : 1 < 2 ^ 4000) (eq_refl : 2 < 2 ^ 4000)) E) as H.
  discriminate H.
Defined.

(** ** Creating a run *)

(** What the graph store guarantees of the record a submission embeds. *)
Definition graph_record_ok (g : GraphRecord) : Prop :=
  portable_id (gr_graph g) = true /\ empty (gr_revision g) = false /\ py_len (gr_revision g) <= 512 /\
  is_sha256 (gr_content_sha256 g) = true.

Ltac unfold_requires :=
  unfold require_portable, require_opaque, require_sha256, require_utc, require_optional_summary,
    require_opaque_value, contract_reject in *.

Lemma attempt_identity_only r n : only OrchestrationContractError (attempt_identity r n).
Proof. unfold attempt_identity. unfold_requires. only_tac. Qed.

Lemma run_post_init_only r : only OrchestrationContractError (RunRecord_post_init r).
Proof.
  unfold RunRecord_post_init, validate_run_dimensions. unfold_requires. only_tac.
  - apply attempt_identity_only.
  - destruct (rr_run_state r); only_tac.
Qed.

#[local] Arguments logical_run_identity : simpl never.
#[local] Arguments fingerprint : simpl never.
#[local] Arguments idempotency_key_sha256 : simpl never.
#[local] Arguments portable_id : simpl never.
#[local] Arguments opaque_id : simpl never.
#[local] Arguments is_sha256 : simpl never.
#[local] Arguments is_utc : simpl never.
#[local] Arguments dt_ltb : simpl never.
#[local] Arguments py_len : simpl never.

(** Every valid submission of a stored graph yields a valid queued run: the
    constructor checks of [RunRecord] all pass, the run is due for
    reconciliation, it selects the submission's plan, and validating a plan for
    the submission validates it for the run. *)
Theorem create_run_record_total s
    (Hs : RunSubmission_post_init s = Ok tt) (Hg : graph_record_ok (sb_graph s)) :
  create_run_record s = Ok (queued_record s) /\
  run_needs_reconciliation (queued_record s) = true /\
  (forall p, validate_submission_plan s p = Ok tt -> record_selection (queued_record s) = plan_selection p).
Proof.
  destruct Hg as (Hg1 & Hg2 & Hg3 & Hg4). split_and!; [|done|].
  - unfold create_run_record, new_run_record. apply seq_ok. split; [|done].
    unfold RunSubmission_post_init in Hs. unfold RunRecord_post_init, validate_run_dimensions. unfold_requires.
    rewrite !seq_ok, !reject_if_tt, !negb_false_iff, !when_some_ok in Hs.
    destruct Hs as (He & Hp & Hpl & _ & Hrev & Hpd & _ & Hreq & Hdl). cbn.
    rewrite run_identity_opaque, He, Hp, Hg1, Hpl, Hg4, Hrev, Hg2, Hreq. cbn.
    unfold idempotency_key_sha256, fingerprint. rewrite !sha256_hex_is_sha256. cbn.
    assert ((512 <? py_len (gr_revision (sb_graph s))) = false) as -> by by apply Z.ltb_ge.
    assert (dt_ltb (sb_requested_at s) (sb_requested_at s) = false) as -> by apply Z.ltb_irrefl. cbn.
    assert (forall d, sb_requested_deadline_seconds s = Some d -> (d <? 1) = false) as Hd
      by (intros d E; by apply Hdl, reject_if_tt in E).
    assert (forall d, sb_placement_decision s = Some d ->
      negb (bool_decide (pd_selected_environment d = sb_environment s)) = false) as Hp'
      by (intros d E; by apply Hpd, reject_if_tt in E).
    destruct (sb_requested_deadline_seconds s) as [d|]; cbn; [rewrite Hd by done; cbn|];
      (destruct (sb_placement_decision s) as [pd|]; cbn; [rewrite Hp' by done|]; reflexivity).
  - intros p Hv. unfold validate_submission_plan, contract_reject in Hv.
    rewrite !seq_ok, !reject_if_tt, negb_bool_decide_false in Hv. apply Hv.
Qed.

(** Two valid submissions hash the same text into their run identity exactly
    when they have the same environment, project and idempotency-key digest, so
    run identities are scoped and reusing a key in its scope finds the same run. *)
Theorem run_identity_scope s t
    (Hs : RunSubmission_post_init s = Ok tt) (Ht : RunSubmission_post_init t = Ok tt) :
  let text u := run_identity_text (sb_environment u) (sb_project u) (idempotency_key_sha256 u) in
  text s = text t <->
  sb_environment s = sb_environment t /\ sb_project s = sb_project t /\
  idempotency_key_sha256 s = idempotency_key_sha256 t.
Proof.
  assert (forall u, RunSubmission_post_init u = Ok tt ->
    split_on ":" (run_identity_text (sb_environment u) (sb_project u) (idempotency_key_sha256 u))
    = [sb_environment u; sb_project u; idempotency_key_sha256 u]) as Hsplit.
  { intros u Hu. unfold RunSubmission_post_init in Hu. unfold_requires.
    rewrite !seq_ok, !reject_if_tt, !negb_false_iff in Hu. destruct Hu as (He & Hp & _).
    apply (split_on_join ":"%char); [done|]. unfold idempotency_key_sha256.
    repeat constructor; auto with dander. }
  cbn zeta. split.
  - intros E. apply (f_equal (split_on ":")) in E. rewrite !Hsplit in E by done.
    split; [exact (f_equal (fun l => nth 0 l "") E)|].
    split; [exact (f_equal (fun l => nth 1 l "") E)|exact (f_equal (fun l => nth 2 l "") E)].
  - intros (-> & -> & ->). done.
Qed.

(** A submission used by the examples. *)
Definition zero_sha256 : string := of_chars (repeat "0"%char 64).
Definition sample_record : GraphRecord :=
  {| gr_project := "shop"; gr_graph := "orders"; gr_document := sample_graph; gr_revision := "1";
     gr_content_sha256 := zero_sha256; gr_created_at := "2026-01-01"; gr_updated_at := "2026-01-01" |}.
Definition sample_submission : RunSubmission :=
  {| sb_environment := "prod"; sb_project := "shop"; sb_graph := sample_record; sb_plan_id := "nightly";
     sb_plan_revision := zero_sha256;
     sb_trigger := {| tg_kind := API; tg_trigger_id := "api"; tg_scheduled_occurrence := None;
                      tg_replay_of_run_id := None; tg_repair_window := None |};
     sb_idempotency_key := "key-00000001"; sb_requested_at := utc 0; sb_requested_deadline_seconds := None;
     sb_placement_decision := None; sb_size_class_decision := None |}.

Lemma create_run_record_total_witness :
  create_run_record sample_submission = Ok (queued_record sample_submission).
Proof.
  assert (RunSubmission_post_init sample_submission = Ok tt) as Hs by (vm_compute; reflexivity).
  assert (graph_record_ok sample_record) as Hg.
  { split; [vm_compute; reflexivity|]. split; [reflexivity|]. split; [vm_compute; discriminate|].
    vm_compute. reflexivity. }
  exact (proj1 (create_run_record_total sample_submission Hs Hg)).
Defined.

Lemma run_identity_scope_witness :
  RunSubmission_post_init sample_submission = Ok tt /\
  (run_identity_text "prod" "shop" (idempotency_key_sha256 sample_submission)
   = run_identity_text "prod" "shop" (idempotency_key_sha256 sample_submission) <->
   "prod" = "prod" /\ "shop" = "shop" /\
   idempotency_key_sha256 sample_submission = idempotency_key_sha256 sample_submission).
Proof.
  assert (RunSubmission_post_init sample_submission = Ok tt) as H by (vm_compute; reflexivity).
  split; [exact H|]. exact (run_identity_scope sample_submission sample_submission H H).
Defined.

(** ** Physical plans inside execution plans *)

Lemma physical_arguments_spec command i :
  i ∈ physical_arguments command <-> command !! i = Some "--physical-plan".
Proof.
  unfold physical_arguments. rewrite list_elem_of_fmap. split.
  - intros ([j v] & -> & H). apply list_elem_of_filter in H as [Hv H]. cbn in *. subst v.
    apply elem_of_lookup_imap in H as (k & w & [= -> ->] & H). done.
  - intros H. exists (i, "--physical-plan"). split; [done|]. apply list_elem_of_filter. split; [done|].
    apply elem_of_lookup_imap. eauto.
Qed.

Lemma physical_arguments_absent command : "--physical-plan" ∉ command -> physical_arguments command = [].
Proof.
  intros H. destruct (physical_arguments command) as [|i l] eqn:E; [done|].
  assert (i ∈ physical_arguments command) as Hi by (rewrite E; left).
  apply physical_arguments_spec, list_elem_of_lookup_2 in Hi. done.
Qed.

Lemma physical_arguments_bound command text :
  "--physical-plan" ∉ command -> text <> "--physical-plan" ->
  physical_arguments (command ++ ["--physical-plan"; text]) = [length command].
Proof.
  intros Hc Ht. unfold physical_arguments. rewrite imap_app, filter_app, map_app.
  fold (physical_arguments command). rewrite physical_arguments_absent by done. cbn.
  destruct (decide (text = "--physical-plan")); [done|]. destruct (decide _); [|done].
  cbn. by rewrite Nat.add_0_r.
Qed.

Lemma serialized_text_eq p : serialized_text p = Ok (dumps_unicode (serialized_json p)).
Proof.
  unfold serialized_text, serialize_physical_plan, canonical_json. by rewrite decode_encode.
Qed.

Lemma dumps_obj_head l : exists t, dumps_unicode (JObj l) = "{" +:+ t.
Proof. unfold dumps_unicode. cbn [dumps]. eexists. reflexivity. Qed.

Lemma serialized_text_not_flag p : dumps_unicode (serialized_json p) <> "--physical-plan".
Proof. destruct (dumps_obj_head [("schema", JStr PHYSICAL_PLAN_SCHEMA);
         ("revision", JStr (physical_plan_revision p)); ("plan", physical_plan_payload p)]) as [t Ht].
  unfold serialized_json. rewrite Ht. discriminate. Qed.

(** Binding a physical plan to an execution template produces a template that
    the constructor of [ExecutionPlan] accepts with exactly that plan, on every
    backend whose execution mode fits; the template is otherwise unchanged, and
    binding a second time is rejected. *)
Theorem bind_physical_plan_selects t p t' backend
    (Hbind : bind_physical_plan t p = Ok t')
    (Hfused : backend ∈ ["fargate"; "cloud_run"] -> pp_execution_mode p = FUSED_CONTAINER)
    (Hspark : backend = "dataproc_serverless" -> pp_execution_mode p = DISTRIBUTED) :
  check_physical_plan backend t' (Some p) = Ok tt /\
  ExecutionTemplate_post_init t' = Ok tt /\
  with_command t' (et_command t) = t /\
  (forall q, exists e, bind_physical_plan t' q = Raise e /\ exn_cls e = PhysicalPlanningError).
Proof.
  unfold bind_physical_plan, planning_reject in Hbind. rewrite serialized_text_eq in Hbind.
  rewrite !seq_ok, !reject_if_tt, negb_bool_decide_false, bool_decide_eq_false in Hbind.
  destruct Hbind as (Hid & Hflag & _ & Hbind). cbn in Hbind.
  apply seq_ok in Hbind as [Hpost [= <-]]. split_and!; [|done|by destruct t|].
  - unfold check_physical_plan, contract_reject. rewrite serialized_text_eq. cbn [et_command with_command et_pipeline_id].
    rewrite physical_arguments_bound by (done || apply serialized_text_not_flag).
    rewrite (bool_decide_eq_true_2 (pp_pipeline_id p = et_pipeline_id t)) by done. cbn.
    assert (bool_decide (backend ∈ ["fargate"; "cloud_run"])
            && negb (bool_decide (pp_execution_mode p = FUSED_CONTAINER)) = false) as ->.
    { case_bool_decide; [|done]. rewrite Hfused by done. done. }
    cbn. rewrite length_app, last_app. cbn.
    replace (Z.of_nat (length (et_command t)) =? Z.of_nat (length (et_command t) + 2) - 2) with true
      by (symmetry; apply Z.eqb_eq; lia).
    rewrite (bool_decide_eq_true_2 (Some _ = Some _)) by done. cbn.
    assert (bool_decide (backend = "dataproc_serverless")
            && negb (bool_decide (pp_execution_mode p = DISTRIBUTED)) = false) as ->; [|done].
    case_bool_decide; [|done]. rewrite Hspark by done. done.
  - intros q. unfold bind_physical_plan, planning_reject. cbn [et_command with_command et_pipeline_id].
    destruct (bool_decide (et_pipeline_id t = pp_pipeline_id q)); cbn; [|by eexists].
    rewrite bool_decide_eq_true_2 by set_solver. by eexists.
Qed.

(** A valid template and its fused plan. *)
Definition sample_template : ExecutionTemplate :=
  {| et_schema := EXECUTION_PROJECTION_SCHEMA; et_contract := RUNTIME_CONTRACT; et_pipeline_id := "orders";
     et_profile_id := "small"; et_launcher := "cloud_run";
     et_image := "registry.example/app@sha256:" +:+ zero_sha256;
     et_command := ["runtime"; "execute"; "--contract"; RUNTIME_CONTRACT; "--pipeline"; "orders";
                    "--platform"; "small"];
     et_configuration_reference := "/etc/dander.yaml"; et_environment := []; et_secret_bindings := [];
     et_workload_identity := "runner";
     et_resources := {| rp_cpu_millis := 1000; rp_memory_mib := 512; rp_ephemeral_storage_mib := None;
                        rp_deadline_seconds := 600; rp_runtime_retry_count := 0; rp_launcher_retry_count := 1 |};
     et_schedule := {| sp_task_count := 1; sp_maximum_parallelism := 1; sp_expression := None;
                       sp_time_zone := None; sp_paused := false |};
     et_network := {| np_placement := None; np_extensions := [] |}; et_labels := [];
     et_observability := {| op_log_destination := "logs"; op_metric_namespace := "metrics";
                            op_alert_target := None; op_retention_days := None |};
     et_extensions := [] |}.
Definition sample_physical_plan : PhysicalPlan :=
  {| pp_pipeline_id := "orders"; pp_execution_mode := FUSED_CONTAINER;
     pp_stages := [{| ps_stage_id := "pipeline"; ps_operators := ["clean"; "load"; "orders"];
                      ps_partition_count := 1; ps_depends_on := [] |}];
     pp_exchanges := []; pp_maximum_parallelism := 1; pp_schema := PHYSICAL_PLAN_SCHEMA |}.

Example sample_physical_plan_planned :
  plan sample_graph "orders" FUSED_CONTAINER None = Ok sample_physical_plan.
Proof. vm_compute. reflexivity. Qed.

Example sample_template_ok : ExecutionTemplate_post_init sample_template = Ok tt.
Proof. vm_compute. reflexivity. Qed.

Lemma bind_physical_plan_selects_witness :
  exists t', bind_physical_plan sample_template sample_physical_plan = Ok t' /\
    check_physical_plan "cloud_run" t' (Some sample_physical_plan) = Ok tt.
Proof.
  destruct (bind_physical_plan sample_template sample_physical_plan) as [t'|e] eqn:E.
  - exists t'. split; [reflexivity|].
    refine (proj1 (bind_physical_plan_selects _ _ t' "cloud_run" E _ _)).
    + intros _. reflexivity.
    + discriminate.
  - exfalso. apply (f_equal is_ok) in E. vm_compute in E. discriminate E.
Defined.

(** An execution plan without a physical plan, and the submission that selects it. *)
Definition sample_plan : ExecutionPlan :=
  {| ep_plan_id := "nightly"; ep_environment := "prod"; ep_project := "shop"; ep_graph := "orders";
     ep_graph_revision := "1"; ep_graph_content_sha256 := zero_sha256; ep_backend_id := "cloud_run";
     ep_profile_id := "small"; ep_image := et_image sample_template; ep_execution_template := sample_template;
     ep_deadline_seconds := 600; ep_retry_policy := {| rt_max_attempts := 2; rt_retryable_exit_codes := [75] |};
     ep_physical_plan := None; ep_schema := ORCHESTRATION_SCHEMA |}.

Example sample_plan_ok : ExecutionPlan_post_init sample_plan = Ok tt.
Proof. vm_compute. reflexivity. Qed.
