(* ===== verification/RunCodec.v ===== *)
(** * Durable records as canonical JSON ([control/orchestration_serialization.py])

    Run, attempt, trigger and wakeup records to bytes and back.  A run record is
    read in any of its five versions and written in the last. *)

From S2P Require Import Prelude Regex PyStr Sha256 PyTime Json JsonParse JsonRead Identifiers Projection Dfs PhysicalPlan Graph Orchestration.

Local Open Scope string_scope.
Local Open Scope Z_scope.
Local Open Scope list_scope.

Definition RUN_RECORD_SCHEMA_V1 : string := "io.dander.control.run-record/v1".
Definition RUN_RECORD_SCHEMA_V2 : string := "io.dander.control.run-record/v2".
Definition RUN_RECORD_SCHEMA_V3 : string := "io.dander.control.run-record/v3".
Definition RUN_RECORD_SCHEMA_V4 : string := "io.dander.control.run-record/v4".
Definition RUN_RECORD_SCHEMA : string := "io.dander.control.run-record/v5".
Definition ATTEMPT_RECORD_SCHEMA : string := "io.dander.control.attempt-record/v1".
Definition TRIGGER_SPEC_SCHEMA : string := "io.dander.control.trigger-spec/v1".
Definition SCHEDULE_WAKEUP_SCHEMA : string := "io.dander.control.schedule-wakeup/v1".
Definition SCHEDULED_TIME_TOKEN : string := "<aws.scheduler.scheduled-time>".
Definition SIZE_CLASS_DECISION_SCHEMA_V1 : string := "io.dander.control.size-class-decision/v1".

Definition MAX_RUN_BYTES : Z := 256 * 1024.
Definition MAX_RESULT_SUMMARY_BYTES : Z := 16 * 1024.
Definition MAX_ATTEMPT_BYTES : Z := 128 * 1024.
Definition MAX_TRIGGER_BYTES : Z := 64 * 1024.
Definition MAX_WAKEUP_BYTES : Z := 8 * 1024.

(** ** Helpers *)

Abbreviation SerErr := OrchestrationSerializationError.
Definition ser_reject (b : bool) (m : string) : result unit := reject_if b SerErr m.

Definition load_any_envelope (data : list Z) (schemas : list string) (max_bytes : Z)
    : result (list (string * json)) :=
  _ ← ser_reject (bool_decide (data = []) || (max_bytes <? Z.of_nat (length data)))
        "orchestration record size is invalid";
  value ← map_error ValueError SerErr "orchestration record is not valid JSON" (json_loads data);
  envelope ← mapping SerErr value "orchestration envelope";
  _ ← ser_reject (negb (schema_in schemas envelope)) "unsupported orchestration record schema";
  Ok envelope.

Definition require_canonical (received expected : list Z) : result unit :=
  ser_reject (negb (bool_decide (received = expected))) "orchestration record is not canonical".

(** [value.isoformat().replace("+00:00", "Z")]. *)
Definition timestamp (d : datetime) : string := py_replace "+00:00" "Z" (isoformat d).

Definition endswith_z (s : string) : bool :=
  match rev (chars s) with c :: _ => Ascii.eqb c "Z" | [] => false end.

Definition read_datetime (v : json) (label : string) : result datetime :=
  raw ← string_ SerErr v label;
  _ ← ser_reject (negb (endswith_z raw)) (label +:+ " must use canonical UTC notation");
  match parse_utc raw with Some d => Ok d | None => raise_ SerErr (label +:+ " is invalid") end.
Definition optional_datetime : json -> string -> result (option datetime) := optional read_datetime.

(** Reads of one key. *)
Definition get_string (k : string) (values : list (string * json)) : result string :=
  v ← field k values; string_ SerErr v k.
Definition get_integer (k : string) (values : list (string * json)) : result Z :=
  v ← field k values; integer SerErr v k.
Definition get_boolean (k : string) (values : list (string * json)) : result bool :=
  v ← field k values; boolean SerErr v k.
Definition get_optional_string (k : string) (values : list (string * json)) : result (option string) :=
  v ← field k values; optional_string SerErr v k.
Definition get_optional_integer (k : string) (values : list (string * json)) : result (option Z) :=
  v ← field k values; optional_integer SerErr v k.
Definition get_datetime (k : string) (values : list (string * json)) : result datetime :=
  v ← field k values; read_datetime v k.
Definition get_optional_datetime (k : string) (values : list (string * json)) : result (option datetime) :=
  v ← field k values; optional_datetime v k.
Definition get_enum {A} (members : list A) (value : A -> string) (k label : string) (values : list (string * json))
    : result A :=
  v ← field k values; enum SerErr members value v label.
Definition get_schema (label : string) (values : list (string * json)) : result string :=
  v ← field "schema" values; string_ SerErr v label.

(** ** Enumerations as text *)

Definition outcome_value (o : RunOutcome) : string :=
  match o with SUCCEEDED => "succeeded" | FAILED => "failed" | CANCELED => "canceled" | UNKNOWN => "unknown" end.
Definition results_state_value (s : ResultsState) : string :=
  match s with RESULTS_PENDING => "pending" | AVAILABLE => "available" | UNAVAILABLE => "unavailable" end.
Definition cleanup_state_value (s : CleanupState) : string :=
  match s with CLEANUP_PENDING => "pending" | CONFIRMED => "confirmed" | UNCERTAIN => "uncertain" end.
Definition placement_mode_value (m : PlacementMode) : string :=
  match m with
  | AUTOMATIC => "automatic" | MANUAL_OVERRIDE => "manual_override" | CONFIGURED_DEFAULT => "configured_default"
  | SCHEDULED => "scheduled" | REPLAY => "replay"
  end.
Definition size_class_mode_value (m : SizeClassMode) : string :=
  match m with
  | AUTOMATIC_INPUT => "automatic_input" | SIZE_MANUAL_OVERRIDE => "manual_override"
  | SIZE_CONFIGURED_DEFAULT => "configured_default" | SIZE_SCHEDULED => "scheduled" | SIZE_REPLAY => "replay"
  end.

Definition all_trigger_kinds : list TriggerKind := [API; MANUAL; SCHEDULE; DEPENDENCY].
Definition all_run_states : list HostedRunState := [QUEUED; RUNNING; RETRYING; CANCELING; TERMINAL].
Definition all_outcomes : list RunOutcome := [SUCCEEDED; FAILED; CANCELED; UNKNOWN].
Definition all_results_states : list ResultsState := [RESULTS_PENDING; AVAILABLE; UNAVAILABLE].
Definition all_cleanup_states : list CleanupState := [CLEANUP_PENDING; CONFIRMED; UNCERTAIN].
Definition all_placement_modes : list PlacementMode := [AUTOMATIC; MANUAL_OVERRIDE; CONFIGURED_DEFAULT; SCHEDULED; REPLAY].
Definition all_size_class_modes : list SizeClassMode :=
  [AUTOMATIC_INPUT; SIZE_MANUAL_OVERRIDE; SIZE_CONFIGURED_DEFAULT; SIZE_SCHEDULED; SIZE_REPLAY].

(** ** Result summaries *)

Definition execution_result_summary_payload (s : ExecutionResultSummary) : json :=
  JObj ((prod_map id JInt <$> summary_counts s) ++ [("skipped", JBool (rs_skipped s))]).

Definition execution_result_summary (value : json) : result ExecutionResultSummary :=
  values ← mapping SerErr value "execution-result summary";
  endpoints ← get_integer "endpoints" values; extracted_rows ← get_integer "extracted_rows" values;
  affected_rows ← get_integer "affected_rows" values; models ← get_integer "models" values;
  assertions ← get_integer "assertions" values; assets ← get_integer "assets" values;
  duration_ms ← get_integer "duration_ms" values; operation_count ← get_integer "operation_count" values;
  retry_count ← get_integer "retry_count" values; rows_read ← get_integer "rows_read" values;
  rows_written ← get_integer "rows_written" values; rows_affected ← get_integer "rows_affected" values;
  bytes_read ← get_integer "bytes_read" values; bytes_written ← get_integer "bytes_written" values;
  bytes_processed ← get_integer "bytes_processed" values; bytes_billed ← get_integer "bytes_billed" values;
  queue_duration_ms ← get_integer "queue_duration_ms" values;
  execution_duration_ms ← get_integer "execution_duration_ms" values;
  spill_bytes ← get_integer "spill_bytes" values; skipped ← get_boolean "skipped" values;
  let s := {| rs_endpoints := endpoints; rs_extracted_rows := extracted_rows; rs_affected_rows := affected_rows;
              rs_models := models; rs_assertions := assertions; rs_assets := assets; rs_duration_ms := duration_ms;
              rs_operation_count := operation_count; rs_retry_count := retry_count; rs_rows_read := rows_read;
              rs_rows_written := rows_written; rs_rows_affected := rows_affected; rs_bytes_read := bytes_read;
              rs_bytes_written := bytes_written; rs_bytes_processed := bytes_processed;
              rs_bytes_billed := bytes_billed; rs_queue_duration_ms := queue_duration_ms;
              rs_execution_duration_ms := execution_duration_ms; rs_spill_bytes := spill_bytes;
              rs_skipped := skipped; rs_schema := EXECUTION_RESULT_SUMMARY_SCHEMA |} in
  _ ← ExecutionResultSummary_post_init s; Ok s.

Definition summary_json (s : ExecutionResultSummary) : json :=
  JObj [("schema", JStr EXECUTION_RESULT_SUMMARY_SCHEMA); ("summary", execution_result_summary_payload s)].
Definition serialize_execution_result_summary (s : ExecutionResultSummary) : list Z := canonical_json (summary_json s).

Definition deserialize_execution_result_summary (data : list Z) : result ExecutionResultSummary :=
  reading SerErr "execution-result summary is invalid" (
    envelope ← load_any_envelope data [EXECUTION_RESULT_SUMMARY_SCHEMA] MAX_RESULT_SUMMARY_BYTES;
    v ← field "summary" envelope;
    summary ← execution_result_summary v;
    _ ← require_canonical data (serialize_execution_result_summary summary);
    Ok summary).

Definition deserialize_execution_result_summary_value (value : json) : result ExecutionResultSummary :=
  deserialize_execution_result_summary (canonical_json value).

(** ** Triggers *)

(** [GraphRepairWindow.model_validate] of a JSON value: dates spelled YYYY-MM-DD,
    no other key. Its error is a [ValueError]. *)
Definition parse_date (v : json) : result Z :=
  match v with
  | JStr s =>
      match '(y, l) ← number_prefix 4 0 (chars s); l ← expect "-" l;
            '(m, l) ← number_prefix 2 0 l; l ← expect "-" l;
            '(d, l) ← number_prefix 2 0 l;
            match l with
            | [] => if (1 <=? y) && (1 <=? m) && (m <=? 12) && (1 <=? d) && (d <=? days_in_month y m)
                    then Some (days_from_civil y m d) else None
            | _ => None
            end with
      | Some days => Ok days
      | None => raise_ ValueError "Repair dates must use YYYY-MM-DD"
      end
  | _ => raise_ ValueError "Repair dates must use YYYY-MM-DD"
  end.

Definition repair_window_validate (v : json) : result GraphRepairWindow :=
  values ← mapping ValueError v "repair window";
  start_date ← map_error KeyError ValueError "Field required" (field "start_date" values);
  end_date ← map_error KeyError ValueError "Field required" (field "end_date" values);
  _ ← reject_if (existsb (fun kv : string * json => negb (bool_decide (kv.1 ∈ ["start_date"; "end_date"]))) values)
        ValueError "Extra inputs are not permitted";
  start_date ← parse_date start_date;
  end_date ← parse_date end_date;
  new_repair_window {| rw_start_date := start_date; rw_end_date := end_date |}.

Definition codec_trigger_payload (t : RunTrigger) : json :=
  JObj ([("kind", JStr (trigger_kind_value (tg_kind t))); ("trigger_id", JStr (tg_trigger_id t));
         ("scheduled_occurrence", jopt (fun o => JStr (timestamp o)) (tg_scheduled_occurrence t));
         ("replay_of_run_id", jopt JStr (tg_replay_of_run_id t))]
        ++ match tg_repair_window t with
           | None => []
           | Some w => [("repair_window", repair_window_dump w)]
           end).

Definition read_trigger (value : json) : result RunTrigger :=
  values ← mapping SerErr value "trigger";
  kind ← get_enum all_trigger_kinds trigger_kind_value "kind" "trigger kind" values;
  trigger_id ← get_string "trigger_id" values;
  scheduled_occurrence ← get_optional_datetime "scheduled_occurrence" values;
  replay_of_run_id ← get_optional_string "replay_of_run_id" values;
  repair_window ← match assoc "repair_window" values with
                  | Some v => w ← repair_window_validate v; Ok (Some w)
                  | None => Ok None
                  end;
  let t := {| tg_kind := kind; tg_trigger_id := trigger_id; tg_scheduled_occurrence := scheduled_occurrence;
              tg_replay_of_run_id := replay_of_run_id; tg_repair_window := repair_window |} in
  _ ← RunTrigger_post_init t; Ok t.

(** ** Handles and decisions *)

Definition handle_payload (h : BackendHandle) : json :=
  JObj [("backend_id", JStr (bh_backend_id h)); ("execution_id", JStr (bh_execution_id h))].

Definition read_backend_handle (value : json) (label : string) : result BackendHandle :=
  values ← mapping SerErr value label;
  backend_id ← get_string "backend_id" values;
  execution_id ← get_string "execution_id" values;
  let h := {| bh_backend_id := backend_id; bh_execution_id := execution_id |} in
  _ ← BackendHandle_post_init h; Ok h.

Definition placement_decision_payload (d : PlacementDecision) : json :=
  JObj [("schema", JStr (pd_schema d)); ("mode", JStr (placement_mode_value (pd_mode d)));
        ("selected_environment", JStr (pd_selected_environment d));
        ("selected_locality", jopt JStr (pd_selected_locality d));
        ("estimated_cost_microusd", jopt JInt (pd_estimated_cost_microusd d));
        ("preferred_locality", jopt JStr (pd_preferred_locality d));
        ("max_cost_microusd", jopt JInt (pd_max_cost_microusd d));
        ("eligible_plan_count", JInt (pd_eligible_plan_count d))].

Definition read_placement_decision (value : json) : result PlacementDecision :=
  values ← mapping SerErr value "placement decision";
  schema ← get_schema "placement schema" values;
  mode ← get_enum all_placement_modes placement_mode_value "mode" "placement mode" values;
  selected_environment ← get_string "selected_environment" values;
  selected_locality ← get_optional_string "selected_locality" values;
  estimated_cost_microusd ← get_optional_integer "estimated_cost_microusd" values;
  preferred_locality ← get_optional_string "preferred_locality" values;
  max_cost_microusd ← get_optional_integer "max_cost_microusd" values;
  eligible_plan_count ← get_integer "eligible_plan_count" values;
  let d := {| pd_mode := mode; pd_selected_environment := selected_environment;
              pd_selected_locality := selected_locality; pd_estimated_cost_microusd := estimated_cost_microusd;
              pd_preferred_locality := preferred_locality; pd_max_cost_microusd := max_cost_microusd;
              pd_eligible_plan_count := eligible_plan_count; pd_schema := schema |} in
  _ ← PlacementDecision_post_init d; Ok d.

(** The v2 payload, and its v1 form without the provenance of the estimate. *)
Definition size_class_decision_fields (schema : string) (provenance : bool) (d : SizeClassDecision)
    : list (string * json) :=
  [("schema", JStr schema); ("mode", JStr (size_class_mode_value (sd_mode d)));
   ("selected_size_class", JStr (sd_selected_size_class d));
   ("estimated_input_bytes", jopt JInt (sd_estimated_input_bytes d))]
  ++ (if provenance
      then [("estimate_source", jopt JStr (sd_estimate_source d));
            ("estimate_observed_at", jopt (fun t => JStr (timestamp t)) (sd_estimate_observed_at d))]
      else [])
  ++ [("max_input_bytes", JInt (sd_max_input_bytes d)); ("cpu_millis", JInt (sd_cpu_millis d));
      ("memory_mib", JInt (sd_memory_mib d));
      ("ephemeral_storage_mib", jopt JInt (sd_ephemeral_storage_mib d));
      ("eligible_plan_count", JInt (sd_eligible_plan_count d))].
Definition size_class_decision_payload (d : SizeClassDecision) : json :=
  JObj (size_class_decision_fields (sd_schema d) true d).
Definition size_class_decision_payload_v1 (d : SizeClassDecision) : json :=
  JObj (size_class_decision_fields SIZE_CLASS_DECISION_SCHEMA_V1 false d).

Definition read_size_class_decision_with (v1 : bool) (value : json) : result SizeClassDecision :=
  values ← mapping SerErr value "size-class decision";
  schema ← get_schema "size-class schema" values;
  _ ← ser_reject (v1 && negb (bool_decide (schema = SIZE_CLASS_DECISION_SCHEMA_V1))) "size-class schema is unsupported";
  mode ← get_enum all_size_class_modes size_class_mode_value "mode" "size-class mode" values;
  selected_size_class ← get_string "selected_size_class" values;
  estimated_input_bytes ← get_optional_integer "estimated_input_bytes" values;
  estimate_source ← (if v1 then Ok None else get_optional_string "estimate_source" values);
  estimate_observed_at ← (if v1 then Ok None else get_optional_datetime "estimate_observed_at" values);
  max_input_bytes ← get_integer "max_input_bytes" values;
  cpu_millis ← get_integer "cpu_millis" values;
  memory_mib ← get_integer "memory_mib" values;
  ephemeral_storage_mib ← get_optional_integer "ephemeral_storage_mib" values;
  eligible_plan_count ← get_integer "eligible_plan_count" values;
  let d := {| sd_mode := mode; sd_selected_size_class := selected_size_class;
              sd_estimated_input_bytes := estimated_input_bytes; sd_max_input_bytes := max_input_bytes;
              sd_cpu_millis := cpu_millis; sd_memory_mib := memory_mib;
              sd_ephemeral_storage_mib := ephemeral_storage_mib; sd_eligible_plan_count := eligible_plan_count;
              sd_estimate_source := estimate_source; sd_estimate_observed_at := estimate_observed_at;
              sd_schema := (if v1 then SIZE_CLASS_DECISION_SCHEMA else schema) |} in
  _ ← SizeClassDecision_post_init d; Ok d.
Definition read_size_class_decision : json -> result SizeClassDecision := read_size_class_decision_with false.
Definition read_size_class_decision_v1 : json -> result SizeClassDecision := read_size_class_decision_with true.

(** ** Run records *)

Inductive run_version : Type := V1 | V2 | V3 | V4 | V5.
Definition run_schema (v : run_version) : string :=
  match v with
  | V1 => RUN_RECORD_SCHEMA_V1 | V2 => RUN_RECORD_SCHEMA_V2 | V3 => RUN_RECORD_SCHEMA_V3
  | V4 => RUN_RECORD_SCHEMA_V4 | V5 => RUN_RECORD_SCHEMA
  end.
Definition run_versions : list run_version := [V1; V2; V3; V4; V5].

(** Which optional parts a version carries. *)
Definition has_summary (v : run_version) : bool := match v with V1 => false | _ => true end.
Definition has_placement (v : run_version) : bool := match v with V1 | V2 => false | _ => true end.
Definition has_size_class (v : run_version) : bool := match v with V4 | V5 => true | _ => false end.

(** [json.loads(serialize_execution_result_summary(s))]. *)
Definition summary_value (o : option ExecutionResultSummary) : result json :=
  match o with
  | Some s => json_loads (serialize_execution_result_summary s)
  | None => Ok JNull
  end.

(** [_run_record_payload], with the v1 size-class payload [_serialize_run_record_v4]
    puts in place of the current one. *)
Definition run_record_fields (v : run_version) (r : RunRecord) (summary : json) : list (string * json) :=
  [("run_id", JStr (rr_run_id r)); ("environment", JStr (rr_environment r)); ("project", JStr (rr_project r));
   ("graph", JStr (rr_graph r)); ("graph_revision", JStr (rr_graph_revision r));
   ("graph_content_sha256", JStr (rr_graph_content_sha256 r)); ("plan_id", JStr (rr_plan_id r));
   ("plan_revision", JStr (rr_plan_revision r)); ("trigger", codec_trigger_payload (rr_trigger r));
   ("idempotency_key_sha256", JStr (rr_idempotency_key_sha256 r));
   ("submission_sha256", JStr (rr_submission_sha256 r)); ("requested_at", JStr (timestamp (rr_requested_at r)));
   ("requested_deadline_seconds", jopt JInt (rr_requested_deadline_seconds r));
   ("run_state", JStr (run_state_value (rr_run_state r))); ("outcome", JStr (outcome_value (rr_outcome r)));
   ("results_state", JStr (results_state_value (rr_results_state r)));
   ("cleanup_state", JStr (cleanup_state_value (rr_cleanup_state r)));
   ("created_at", JStr (timestamp (rr_created_at r))); ("updated_at", JStr (timestamp (rr_updated_at r)));
   ("terminal_at", jopt (fun t => JStr (timestamp t)) (rr_terminal_at r)); ("stage", jopt JStr (rr_stage r));
   ("attempt_count", JInt (rr_attempt_count r)); ("current_attempt_id", jopt JStr (rr_current_attempt_id r));
   ("backend_handle", jopt handle_payload (rr_backend_handle r))]
  ++ (if has_summary v then [("result_summary", summary)] else [])
  ++ (if has_placement v then [("placement_decision", jopt placement_decision_payload (rr_placement_decision r))] else [])
  ++ (if has_size_class v
      then [("size_class_decision",
              jopt (match v with V4 => size_class_decision_payload_v1 | _ => size_class_decision_payload end)
                (rr_size_class_decision r))]
      else []).

Definition run_record_json (v : run_version) (r : RunRecord) (summary : json) : json :=
  JObj [("schema", JStr (run_schema v)); ("record", JObj (run_record_fields v r summary))].

Definition serialize_run_record_as (v : run_version) (r : RunRecord) : result (list Z) :=
  summary ← (if has_summary v then summary_value (rr_result_summary r) else Ok JNull);
  Ok (canonical_json (run_record_json v r summary)).
Definition serialize_run_record : RunRecord -> result (list Z) := serialize_run_record_as V5.

(** [read(values[k]) if included and values[k] is not None else None]. *)
Definition included {A} (b : bool) (k : string) (read : json -> result A) (values : list (string * json))
    : result (option A) :=
  if b then v ← field k values; optional (fun v _ => read v) v k else Ok None.

Definition read_run_record (v : run_version) (values : list (string * json)) : result RunRecord :=
  run_id ← get_string "run_id" values; environment ← get_string "environment" values;
  project ← get_string "project" values; graph ← get_string "graph" values;
  graph_revision ← get_string "graph_revision" values;
  graph_content_sha256 ← get_string "graph_content_sha256" values;
  plan_id ← get_string "plan_id" values; plan_revision ← get_string "plan_revision" values;
  trigger ← (t ← field "trigger" values; read_trigger t);
  idempotency_key_sha256 ← get_string "idempotency_key_sha256" values;
  submission_sha256 ← get_string "submission_sha256" values;
  requested_at ← get_datetime "requested_at" values;
  requested_deadline_seconds ← get_optional_integer "requested_deadline_seconds" values;
  run_state ← get_enum all_run_states run_state_value "run_state" "run_state" values;
  outcome ← get_enum all_outcomes outcome_value "outcome" "outcome" values;
  results_state ← get_enum all_results_states results_state_value "results_state" "results_state" values;
  cleanup_state ← get_enum all_cleanup_states cleanup_state_value "cleanup_state" "cleanup_state" values;
  created_at ← get_datetime "created_at" values; updated_at ← get_datetime "updated_at" values;
  terminal_at ← get_optional_datetime "terminal_at" values; stage ← get_optional_string "stage" values;
  attempt_count ← get_integer "attempt_count" values;
  current_attempt_id ← get_optional_string "current_attempt_id" values;
  backend_handle ← (h ← field "backend_handle" values; optional read_backend_handle h "backend_handle");
  result_summary ← included (has_summary v) "result_summary" deserialize_execution_result_summary_value values;
  placement_decision ← included (has_placement v) "placement_decision" read_placement_decision values;
  size_class_decision ← included (has_size_class v) "size_class_decision"
                          (match v with V4 => read_size_class_decision_v1 | _ => read_size_class_decision end) values;
  new_run_record
    {| rr_run_id := run_id; rr_environment := environment; rr_project := project; rr_graph := graph;
       rr_graph_revision := graph_revision; rr_graph_content_sha256 := graph_content_sha256; rr_plan_id := plan_id;
       rr_plan_revision := plan_revision; rr_trigger := trigger; rr_idempotency_key_sha256 := idempotency_key_sha256;
       rr_submission_sha256 := submission_sha256; rr_requested_at := requested_at;
       rr_requested_deadline_seconds := requested_deadline_seconds; rr_run_state := run_state; rr_outcome := outcome;
       rr_results_state := results_state; rr_cleanup_state := cleanup_state; rr_created_at := created_at;
       rr_updated_at := updated_at; rr_terminal_at := terminal_at; rr_stage := stage;
       rr_attempt_count := attempt_count; rr_current_attempt_id := current_attempt_id;
       rr_backend_handle := backend_handle; rr_result_summary := result_summary;
       rr_placement_decision := placement_decision; rr_size_class_decision := size_class_decision |}.

Definition version_of (schema : string) : result run_version :=
  match find (fun v => bool_decide (run_schema v = schema)) run_versions with
  | Some v => Ok v
  | None => raise_ KeyError schema
  end.

Definition deserialize_run_record (data : list Z) : result RunRecord :=
  reading SerErr "run record is invalid" (
    envelope ← load_any_envelope data (run_schema <$> run_versions) MAX_RUN_BYTES;
    schema ← get_schema "run record schema" envelope;
    values ← (v ← field "record" envelope; mapping SerErr v "run record");
    version ← version_of schema;
    record ← read_run_record version values;
    expected ← serialize_run_record_as version record;
    _ ← require_canonical data expected;
    Ok record).

(** ** Attempts, triggers and wakeups *)

Definition attempt_record_json (a : AttemptRecord) : json :=
  JObj [("schema", JStr ATTEMPT_RECORD_SCHEMA);
        ("record",
          JObj [("run_id", JStr (ar_run_id a)); ("attempt_id", JStr (ar_attempt_id a));
                ("attempt_number", JInt (ar_attempt_number a)); ("plan_id", JStr (ar_plan_id a));
                ("plan_revision", JStr (ar_plan_revision a)); ("backend_id", JStr (ar_backend_id a));
                ("trigger", codec_trigger_payload (ar_trigger a)); ("created_at", JStr (timestamp (ar_created_at a)))])].
Definition serialize_attempt_record (a : AttemptRecord) : list Z := canonical_json (attempt_record_json a).

Definition deserialize_attempt_record (data : list Z) : result AttemptRecord :=
  reading SerErr "attempt record is invalid" (
    envelope ← load_any_envelope data [ATTEMPT_RECORD_SCHEMA] MAX_ATTEMPT_BYTES;
    values ← (v ← field "record" envelope; mapping SerErr v "attempt record");
    run_id ← get_string "run_id" values; attempt_id ← get_string "attempt_id" values;
    attempt_number ← get_integer "attempt_number" values; plan_id ← get_string "plan_id" values;
    plan_revision ← get_string "plan_revision" values; backend_id ← get_string "backend_id" values;
    trigger ← (t ← field "trigger" values; read_trigger t);
    created_at ← get_datetime "created_at" values;
    record ← new_attempt_record
      {| ar_run_id := run_id; ar_attempt_id := attempt_id; ar_attempt_number := attempt_number;
         ar_plan_id := plan_id; ar_plan_revision := plan_revision; ar_backend_id := backend_id;
         ar_trigger := trigger; ar_created_at := created_at |};
    _ ← require_canonical data (serialize_attempt_record record);
    Ok record).

Definition trigger_spec_json (t : TriggerSpec) : json :=
  JObj [("schema", JStr TRIGGER_SPEC_SCHEMA);
        ("trigger",
          JObj [("trigger_id", JStr (ts_trigger_id t)); ("kind", JStr (trigger_kind_value (ts_kind t)));
                ("plan_id", JStr (ts_plan_id t)); ("plan_revision", JStr (ts_plan_revision t));
                ("enabled", JBool (ts_enabled t)); ("schedule", jopt JStr (ts_schedule t));
                ("time_zone", jopt JStr (ts_time_zone t)); ("dependency", jopt JStr (ts_dependency t))])].
Definition serialize_trigger_spec (t : TriggerSpec) : list Z := canonical_json (trigger_spec_json t).

Definition deserialize_trigger_spec (data : list Z) : result TriggerSpec :=
  reading SerErr "trigger-spec record is invalid" (
    envelope ← load_any_envelope data [TRIGGER_SPEC_SCHEMA] MAX_TRIGGER_BYTES;
    values ← (v ← field "trigger" envelope; mapping SerErr v "trigger spec");
    trigger_id ← get_string "trigger_id" values;
    kind ← get_enum all_trigger_kinds trigger_kind_value "kind" "trigger kind" values;
    plan_id ← get_string "plan_id" values; plan_revision ← get_string "plan_revision" values;
    enabled ← get_boolean "enabled" values; schedule ← get_optional_string "schedule" values;
    time_zone ← get_optional_string "time_zone" values; dependency ← get_optional_string "dependency" values;
    let spec := {| ts_trigger_id := trigger_id; ts_kind := kind; ts_plan_id := plan_id;
                   ts_plan_revision := plan_revision; ts_enabled := enabled; ts_schedule := schedule;
                   ts_time_zone := time_zone; ts_dependency := dependency |} in
    _ ← TriggerSpec_post_init spec;
    _ ← require_canonical data (serialize_trigger_spec spec);
    Ok spec).

(** The queue body of one occurrence; [occurrence] is its text. *)
Definition wakeup_json (trigger_id plan_revision occurrence : string) : json :=
  JObj [("schema", JStr SCHEDULE_WAKEUP_SCHEMA); ("trigger_id", JStr trigger_id);
        ("plan_revision", JStr plan_revision); ("scheduled_occurrence", JStr occurrence)].
Definition serialize_schedule_wakeup (w : ScheduleWakeup) : list Z :=
  canonical_json (wakeup_json (sw_trigger_id w) (sw_plan_revision w) (timestamp (sw_scheduled_occurrence w))).

Definition deserialize_schedule_wakeup (data : list Z) : result ScheduleWakeup :=
  reading SerErr "schedule-wakeup record is invalid" (
    envelope ← load_any_envelope data [SCHEDULE_WAKEUP_SCHEMA] MAX_WAKEUP_BYTES;
    trigger_id ← get_string "trigger_id" envelope; plan_revision ← get_string "plan_revision" envelope;
    scheduled_occurrence ← get_datetime "scheduled_occurrence" envelope;
    let w := {| sw_trigger_id := trigger_id; sw_plan_revision := plan_revision;
                sw_scheduled_occurrence := scheduled_occurrence |} in
    _ ← ScheduleWakeup_post_init w;
    _ ← require_canonical data (serialize_schedule_wakeup w);
    Ok w).

(** [schedule_consumer.schedule_occurrence_idempotency_key]. *)
Definition schedule_occurrence_idempotency_key (wakeup : ScheduleWakeup) : string :=
  "schedule:" +:+ sha256_hex (serialize_schedule_wakeup wakeup).

Definition render_schedule_wakeup_template (t : TriggerSpec) : result string :=
  _ ← ser_reject (negb (bool_decide (ts_kind t = SCHEDULE))) "only scheduled triggers can render wakeups";
  Ok (dumps_unicode (wakeup_json (ts_trigger_id t) (ts_plan_revision t) SCHEDULED_TIME_TOKEN)).

(** ** Timestamps *)

Lemma pad_left_no_plus w n : 0 <= n < 10 ^ Z.of_nat w -> (0 < w)%nat ->
  Forall (fun c => c <> "+"%char) (chars (pad_left w n)).
Proof.
  intros Hn Hw. destruct (pad_left_digits w n Hn Hw) as (ds & -> & _ & Hds & _). apply Forall_fmap.
  eapply Forall_impl; [exact Hds|]. intros d Hd E. apply digit_char_spec in Hd as [Hd _]. cbn in E. by rewrite E in Hd.
Qed.

Lemma isoformat_no_plus t : dt_offset t = None -> in_range t -> Forall (fun c => c <> "+"%char) (chars (isoformat t)).
Proof.
  intros Ho Hr. destruct (clock_fields t) as (_ & Hh & Hm & Hs & Hus).
  destruct (dt_date t) as [[y m] d] eqn:Ed. destruct (civil_roundtrip _ _ _ _ Ed) as (_ & Hmo & Hda).
  pose proof (civil_year _ _ _ _ Hr Ed) as Hy.
  assert (days_in_month y m <= 31) as Hdim.
  { unfold days_in_month. destruct (m =? 2), (is_leap y); try lia; case_bool_decide; lia. }
  unfold isoformat, date_isoformat. rewrite Ed, Ho. cbn [fst snd offset_text].
  rewrite !chars_app. unfold us_per_second in Hus.
  repeat (apply Forall_app; split); try (apply pad_left_no_plus; cbn; lia);
    try (repeat constructor; discriminate).
  destruct (_ =? 0); [constructor|]. rewrite chars_app. apply Forall_app. split; [apply Forall_cons; split; [discriminate|constructor]|].
  apply pad_left_no_plus; cbn; lia.
Qed.

Lemma timestamp_utc d : is_utc d = true -> in_range d -> timestamp d = utc_timestamp d.
Proof.
  intros Hu%is_utc_spec. rewrite Hu. generalize (instant d). clear. intros i Hr.
  unfold timestamp, utc_timestamp, py_replace.
  assert (isoformat (utc i) = isoformat (Datetime (instant (utc i)) None) +:+ "+00:00") as ->.
  { unfold instant. cbn [utc dt_local dt_offset or_else]. rewrite Z.sub_0_r. unfold isoformat. cbn [dt_offset utc].
    change (offset_text (Some 0)) with "+00:00". change (offset_text None) with "".
    apply chars_inj. rewrite !chars_app. cbn [chars]. rewrite app_nil_r, <- !app_assoc. done. }
  assert (in_range (Datetime (instant (utc i)) None)) as Hr'.
  { change (instant (utc i)) with (i - 0). rewrite Z.sub_0_r. exact Hr. }
  pose proof (isoformat_no_plus (Datetime (instant (utc i)) None) eq_refl Hr') as Hp.
  rewrite chars_app. apply chars_inj. rewrite chars_of_chars, chars_app.
  change (chars "+00:00") with ("+"%char :: chars "00:00") at 1. rewrite replace_chars_skip by done. done.
Qed.

(** A UTC [datetime] object. *)
Definition utc_value (d : datetime) : Prop := is_utc d = true /\ in_range d.

Lemma endswith_z_app s : endswith_z (s +:+ "Z") = true.
Proof. unfold endswith_z. rewrite chars_app, rev_app_distr. done. Qed.

Lemma read_datetime_timestamp d label : utc_value d -> read_datetime (JStr (timestamp d)) label = Ok d.
Proof.
  intros [Hu Hr]. rewrite timestamp_utc by done. unfold read_datetime. cbn [string_ mbind result_bind].
  assert (endswith_z (utc_timestamp d) = true) as -> by apply endswith_z_app.
  cbn [negb ser_reject reject_if mbind result_bind]. by rewrite parse_utc_timestamp.
Qed.

(** A repair window, and what [parse_date] reads. *)
Definition window_value (w : GraphRepairWindow) : Prop :=
  min_days <= rw_start_date w /\ rw_start_date w < rw_end_date w /\ rw_end_date w <= max_days.

Lemma parse_date_dump days : min_days <= days <= max_days ->
  parse_date (JStr (date_isoformat (civil_from_days days))) = Ok days.
Proof.
  intros Hr. destruct (civil_from_days days) as [[y m] d] eqn:Ed.
  destruct (civil_roundtrip _ _ _ _ Ed) as (Hdays & Hm & Hd). pose proof (civil_year _ _ _ _ Hr Ed) as Hy.
  assert (days_in_month y m <= 31) as Hdim.
  { unfold days_in_month. destruct (m =? 2), (is_leap y); try lia; case_bool_decide; lia. }
  unfold parse_date, date_isoformat. cbn [fst snd]. rewrite !chars_app.
  rewrite number_prefix_pad by (cbn; lia). cbn [mbind option_bind]. rewrite expect_char. cbn [mbind option_bind].
  rewrite number_prefix_pad by (cbn; lia). cbn [mbind option_bind]. rewrite expect_char. cbn [mbind option_bind].
  rewrite <- (app_nil_r (chars (pad_left 2 d))), number_prefix_pad by (cbn; lia). cbn [mbind option_bind].
  rewrite !(proj2 (Z.leb_le _ _)) by lia. cbn [andb]. by rewrite Hdays.
Qed.

Lemma repair_window_read w : window_value w -> repair_window_validate (sorted_json (repair_window_dump w)) = Ok w.
Proof.
  intros (H1 & H2 & H3). unfold repair_window_validate, repair_window_dump. rewrite mapping_sorted.
  cbn [mbind result_bind].
  erewrite (field_sorted _ "start_date"); [|vm_compute; reflexivity|reflexivity].
  erewrite (field_sorted _ "end_date"); [|vm_compute; reflexivity|reflexivity].
  cbn [mbind result_bind map_error sorted_json].
  change (existsb _ _) with false. cbn [reject_if mbind result_bind].
  rewrite !parse_date_dump by lia. cbn [mbind result_bind]. unfold new_repair_window, forbid.
  cbn [rw_start_date rw_end_date]. rewrite (proj2 (Z.leb_gt _ _)) by lia. by destruct w.
Qed.

(** ** Reading canonical fields *)

Section Get.
Context (l : list (string * json)) (k : string) (Hd : has_dup (map fst l) = false).
Lemma get_string_sorted s : assoc k l = Some (JStr s) -> get_string k (sorted_fields l) = Ok s.
Proof. intros H. unfold get_string. by rewrite (field_sorted _ _ _ Hd H). Qed.
Lemma get_integer_sorted n : assoc k l = Some (JInt n) -> get_integer k (sorted_fields l) = Ok n.
Proof. intros H. unfold get_integer. by rewrite (field_sorted _ _ _ Hd H). Qed.
Lemma get_boolean_sorted b : assoc k l = Some (JBool b) -> get_boolean k (sorted_fields l) = Ok b.
Proof. intros H. unfold get_boolean. by rewrite (field_sorted _ _ _ Hd H). Qed.
Lemma get_optional_string_sorted o : assoc k l = Some (jopt JStr o) -> get_optional_string k (sorted_fields l) = Ok o.
Proof. intros H. unfold get_optional_string. rewrite (field_sorted _ _ _ Hd H). by destruct o. Qed.
Lemma get_optional_integer_sorted o : assoc k l = Some (jopt JInt o) -> get_optional_integer k (sorted_fields l) = Ok o.
Proof. intros H. unfold get_optional_integer. rewrite (field_sorted _ _ _ Hd H). by destruct o. Qed.
Lemma get_datetime_sorted d :
  assoc k l = Some (JStr (timestamp d)) -> utc_value d -> get_datetime k (sorted_fields l) = Ok d.
Proof. intros H Hv. unfold get_datetime. rewrite (field_sorted _ _ _ Hd H). by apply read_datetime_timestamp. Qed.
Lemma get_optional_datetime_sorted o :
  assoc k l = Some (jopt (fun t => JStr (timestamp t)) o) -> (forall d, o = Some d -> utc_value d) ->
  get_optional_datetime k (sorted_fields l) = Ok o.
Proof.
  intros H Hv. unfold get_optional_datetime. rewrite (field_sorted _ _ _ Hd H). destruct o as [d|]; [|done].
  cbn [jopt sorted_json mbind result_bind]. unfold optional_datetime, optional.
  by rewrite read_datetime_timestamp by auto.
Qed.
Lemma get_enum_sorted {A} (members : list A) (value : A -> string) label m :
  assoc k l = Some (JStr (value m)) -> m ∈ members -> (forall x y, value x = value y -> x = y) ->
  get_enum members value k label (sorted_fields l) = Ok m.
Proof. intros H Hm Hi. unfold get_enum. rewrite (field_sorted _ _ _ Hd H). by apply enum_member. Qed.
Lemma get_object_sorted {A} v (read : json -> result A) a :
  assoc k l = Some v -> read (sorted_json v) = Ok a -> (v ← field k (sorted_fields l); read v) = Ok a.
Proof. intros H Hr. by rewrite (field_sorted _ _ _ Hd H). Qed.
Lemma optional_read {A} (f : A -> json) (o : option A) (read : json -> string -> result A) label :
  (forall a, o = Some a -> sorted_json (f a) <> JNull /\ read (sorted_json (f a)) label = Ok a) ->
  optional read (sorted_json (jopt f o)) label = Ok o.
Proof. intros H. rewrite sorted_jopt. by apply optional_jopt. Qed.
Lemma included_sorted {A} (f : A -> json) (o : option A) (read : json -> result A) :
  assoc k l = Some (jopt f o) ->
  (forall a, o = Some a -> sorted_json (f a) <> JNull /\ read (sorted_json (f a)) = Ok a) ->
  included true k read (sorted_fields l) = Ok o.
Proof. intros H Hr. unfold included. rewrite (field_sorted _ _ _ Hd H). by apply optional_read. Qed.
End Get.

Lemma get_schema_sorted l label s :
  has_dup (map fst l) = false -> assoc "schema" l = Some (JStr s) -> get_schema label (sorted_fields l) = Ok s.
Proof. intros Hd H. unfold get_schema. by rewrite (field_sorted _ _ _ Hd H). Qed.

(** Reads one key of a canonical object. *)
Ltac get lem := eapply bind_get; [eapply lem; [vm_compute; reflexivity|reflexivity|..]|cbv beta].
Ltac get_member x := eapply bind_get;
  [eapply get_enum_sorted; [vm_compute; reflexivity|reflexivity|by destruct x; repeat constructor|by intros [] []]|cbv beta].

(** ** Well-formed values: what the constructors of the source admit, with the
    calendar range of [datetime] and integers that can be printed. *)

Definition printable (n : Z) : Prop := Z.abs n < 2 ^ 4000.

Record trigger_value (t : RunTrigger) : Prop := {
  tv_post : RunTrigger_post_init t = Ok tt;
  tv_occurrence d : tg_scheduled_occurrence t = Some d -> in_range d;
  tv_window w : tg_repair_window t = Some w -> window_value w;
}.

Record size_value (d : SizeClassDecision) : Prop := {
  zv_post : SizeClassDecision_post_init d = Ok tt;
  zv_observed t : sd_estimate_observed_at d = Some t -> in_range t;
  zv_cpu : printable (sd_cpu_millis d);
  zv_memory : printable (sd_memory_mib d);
  zv_storage n : sd_ephemeral_storage_mib d = Some n -> printable n;
}.

Record run_value (r : RunRecord) : Prop := {
  rv_post : RunRecord_post_init r = Ok tt;
  rv_trigger : trigger_value (rr_trigger r);
  rv_times : in_range (rr_requested_at r) /\ in_range (rr_created_at r) /\ in_range (rr_updated_at r);
  rv_terminal t : rr_terminal_at r = Some t -> in_range t;
  rv_deadline n : rr_requested_deadline_seconds r = Some n -> printable n;
  rv_attempts : printable (rr_attempt_count r);
  rv_handle h : rr_backend_handle r = Some h -> BackendHandle_post_init h = Ok tt;
  rv_summary s : rr_result_summary r = Some s -> ExecutionResultSummary_post_init s = Ok tt;
  rv_placement d : rr_placement_decision r = Some d -> PlacementDecision_post_init d = Ok tt;
  rv_size d : rr_size_class_decision r = Some d -> size_value d;
}.

Record submission_value (s : RunSubmission) : Prop := {
  mv_trigger : trigger_value (sb_trigger s);
  mv_requested : in_range (sb_requested_at s);
  mv_deadline n : sb_requested_deadline_seconds s = Some n -> printable n;
  mv_placement d : sb_placement_decision s = Some d -> PlacementDecision_post_init d = Ok tt;
  mv_size d : sb_size_class_decision s = Some d -> size_value d;
}.

Lemma queued_value s : submission_value s -> RunRecord_post_init (queued_record s) = Ok tt -> run_value (queued_record s).
Proof. intros [] H. by split. Qed.

Record attempt_value (a : AttemptRecord) : Prop := {
  av_post : AttemptRecord_post_init a = Ok tt;
  av_trigger : trigger_value (ar_trigger a);
  av_number : printable (ar_attempt_number a);
  av_created : in_range (ar_created_at a);
}.

#[local] Arguments ExecutionResultSummary_post_init : simpl never.
#[local] Arguments RunTrigger_post_init : simpl never.
#[local] Arguments PlacementDecision_post_init : simpl never.
#[local] Arguments SizeClassDecision_post_init : simpl never.
#[local] Arguments RunRecord_post_init : simpl never.
#[local] Arguments AttemptRecord_post_init : simpl never.
#[local] Arguments BackendHandle_post_init : simpl never.

Lemma summary_bounds s : ExecutionResultSummary_post_init s = Ok tt ->
  rs_schema s = EXECUTION_RESULT_SUMMARY_SCHEMA /\
  Forall (fun lv : string * Z => 0 <= lv.2 <= MAX_RESULT_INTEGER) (summary_counts s).
Proof.
  unfold ExecutionResultSummary_post_init, contract_reject. rewrite seq_ok, reject_if_tt, negb_bool_decide_false, for_each_ok.
  intros [Hs H]. split; [done|]. eapply Forall_impl; [exact H|]. intros lv Hlv. cbn in Hlv.
  by apply reject_if_tt, out_of_range_false in Hlv.
Qed.

Lemma summary_read s :
  ExecutionResultSummary_post_init s = Ok tt ->
  execution_result_summary (sorted_json (execution_result_summary_payload s)) = Ok s.
Proof.
  intros H. pose proof (summary_bounds s H) as [Hs _]. unfold execution_result_summary, execution_result_summary_payload.
  rewrite mapping_sorted. eapply bind_get; [reflexivity|cbv beta].
  do 19 (get get_integer_sorted). get get_boolean_sorted. cbv zeta.
  assert (forall s', s' = s -> (_ ← ExecutionResultSummary_post_init s'; Ok s') = Ok s) as Hend.
  { intros s' ->. by rewrite H. }
  apply Hend. rewrite <- Hs. by destruct s.
Qed.

Lemma summary_json_ok s : ExecutionResultSummary_post_init s = Ok tt -> json_ok (summary_json s).
Proof.
  intros H. pose proof (summary_bounds s H) as [_ Hc]. unfold summary_json. json_ok_fields.
  unfold execution_result_summary_payload. apply json_ok_obj; [vm_compute; reflexivity|].
  apply Forall_app. split; [|by repeat constructor]. apply Forall_fmap. eapply Forall_impl; [exact Hc|].
  intros lv Hlv. by apply json_ok_bounded.
Qed.

(** The canonical bytes of a value are not empty and load. *)
Lemma envelope_sorted l schema schemas max_bytes :
  json_ok (JObj l) -> has_dup (map fst l) = false -> assoc "schema" l = Some (JStr schema) -> schema ∈ schemas ->
  Z.of_nat (length (canonical_json (JObj l))) <= max_bytes ->
  load_any_envelope (canonical_json (JObj l)) schemas max_bytes = Ok (sorted_fields l).
Proof.
  intros Hok Hd Hs Hin Hlen. unfold load_any_envelope.
  rewrite bool_decide_false by (unfold canonical_json, dumps_unicode; rewrite dumps_obj; apply encode_nonempty).
  rewrite (proj2 (Z.ltb_ge _ _)) by done. cbn [orb ser_reject reject_if mbind result_bind].
  unfold canonical_json. rewrite json_loads_canonical by done. cbn [map_error mbind result_bind].
  rewrite mapping_sorted. cbn [mbind result_bind]. by rewrite (schema_in_sorted _ _ schema).
Qed.

Lemma require_canonical_ok received expected u :
  require_canonical received expected = Ok u <-> received = expected.
Proof. unfold require_canonical, ser_reject. destruct u. by rewrite reject_if_tt, negb_bool_decide_false. Qed.

Lemma summary_deserialize s data :
  ExecutionResultSummary_post_init s = Ok tt -> data = serialize_execution_result_summary s ->
  Z.of_nat (length data) <= MAX_RESULT_SUMMARY_BYTES ->
  deserialize_execution_result_summary data = Ok s.
Proof.
  intros H Hdata Hlen. unfold deserialize_execution_result_summary. apply reading_ok.
  eapply bind_get.
  { rewrite Hdata. unfold serialize_execution_result_summary, summary_json.
    apply (envelope_sorted _ EXECUTION_RESULT_SUMMARY_SCHEMA);
      [by apply summary_json_ok|vm_compute; reflexivity|reflexivity|by left|].
    by rewrite Hdata in Hlen. }
  cbv beta. eapply bind_get; [eapply field_sorted; [vm_compute; reflexivity|reflexivity]|cbv beta].
  eapply bind_get; [by apply summary_read|cbv beta].
  eapply (bind_get _ _ tt); [by apply require_canonical_ok|done].
Qed.

(** The summary of the largest numbers fits its bound. *)
Lemma summary_fits s : ExecutionResultSummary_post_init s = Ok tt ->
  Z.of_nat (length (serialize_execution_result_summary s)) <= MAX_RESULT_SUMMARY_BYTES.
Proof.
  intros H. pose proof (summary_bounds s H) as [_ Hc].
  unfold serialize_execution_result_summary, canonical_json, dumps_unicode.
  pose proof (encode_length (dumps false (summary_json s))) as H1. unfold summary_json in *.
  pose proof (dumps_obj_length false [("schema", JStr EXECUTION_RESULT_SUMMARY_SCHEMA); ("summary", execution_result_summary_payload s)]) as H2.
  pose proof (member_length false "schema" (JStr EXECUTION_RESULT_SUMMARY_SCHEMA)) as H3.
  pose proof (member_length false "summary" (execution_result_summary_payload s)) as H4.
  pose proof (dumps_obj_length false ((prod_map id JInt <$> summary_counts s) ++ [("skipped", JBool (rs_skipped s))])) as H5.
  assert (total (map (fun kv => length (chars (member_text false kv)) + 1)
            ((prod_map id JInt <$> summary_counts s) ++ [("skipped", JBool (rs_skipped s))]))%nat <= 20 * 160)%nat as H6.
  { assert (forall l, Forall (fun kv => length (chars (member_text false kv)) + 1 <= 160)%nat l ->
              (total (map (fun kv => length (chars (member_text false kv)) + 1)%nat l) <= length l * 160)%nat) as Ht.
    { induction 1 as [|kv l Hkv Hl IH]; [done|]. cbn [map total foldr length] in *. unfold total in IH. lia. }
    etrans; [apply Ht|rewrite length_app, length_fmap; cbn; lia].
    apply Forall_app. split.
    - apply Forall_fmap. unfold summary_counts in *.
      repeat (apply Forall_cons in Hc as [Hn Hc]; apply Forall_cons; split;
        [eapply Nat.le_trans; [apply Nat.add_le_mono_r, member_length|];
         cbn [snd id dumps] in Hn |- *; apply int_length in Hn; cbn [fst id String.length]; lia|clear Hn]).
      constructor.
    - apply Forall_cons. split; [|constructor]. destruct (rs_skipped s); vm_compute; lia. }
  cbn [map total foldr] in H2. unfold execution_result_summary_payload in *.
  assert (length (chars (dumps false (JStr EXECUTION_RESULT_SUMMARY_SCHEMA))) <= 300)%nat by (vm_compute; lia).
  cbn [String.length] in *. unfold MAX_RESULT_SUMMARY_BYTES. lia.
Qed.

(** ** Each part is read back *)

Lemma last_check {A} (check : A -> result unit) (x y : A) :
  check y = Ok tt -> x = y -> (_ ← check x; Ok x) = Ok y.
Proof. intros H ->. by rewrite H. Qed.

Lemma trigger_occurrence t d : RunTrigger_post_init t = Ok tt -> tg_scheduled_occurrence t = Some d -> is_utc d = true.
Proof.
  unfold RunTrigger_post_init, require_portable, require_opaque, require_utc, contract_reject. intros H Ho. rewrite Ho in H. inv_ok.
  destruct (tg_kind t); cbn in *; inv_ok; try done. all: repeat match goal with H : reject_if _ _ _ = Ok _ |- _ => apply reject_if_ok in H end; by apply negb_false_iff.
Qed.

Lemma trigger_read t : trigger_value t -> read_trigger (sorted_json (codec_trigger_payload t)) = Ok t.
Proof.
  intros [Hp Ho Hw]. unfold read_trigger, codec_trigger_payload. rewrite mapping_sorted.
  eapply bind_get; [reflexivity|cbv beta].
  assert (forall d, tg_scheduled_occurrence t = Some d -> utc_value d) as Hu.
  { intros d E. split; [by eapply trigger_occurrence|auto]. }
  assert (forall w, window_value w -> repair_window_validate (sorted_json (repair_window_dump w)) = Ok w) as Hwin by exact repair_window_read.
  destruct (tg_repair_window t) as [w|] eqn:Ew; cbn [app].
  - get_member (tg_kind t). get get_string_sorted. get get_optional_datetime_sorted; [exact Hu|].
    get get_optional_string_sorted.
    eapply bind_get.
    { set (l := [_; _; _; _; _]).
      assert (assoc "repair_window" (sorted_fields l) = Some (sorted_json (repair_window_dump w))) as ->.
      { pose proof (field_sorted l "repair_window" (repair_window_dump w) ltac:(vm_compute; reflexivity) eq_refl) as H.
        unfold field in H. by destruct (assoc _ _); [injection H as ->|]. }
      rewrite Hwin by auto. reflexivity. }
    cbv beta. cbv zeta. apply last_check; [done|]. rewrite <- Ew. by destruct t.
  - get_member (tg_kind t). get get_string_sorted. get get_optional_datetime_sorted; [exact Hu|].
    get get_optional_string_sorted.
    eapply bind_get.
    { by rewrite assoc_sorted_none. }
    cbv beta. cbv zeta. apply last_check; [done|]. rewrite <- Ew. by destruct t.
Qed.

Lemma handle_read h label : BackendHandle_post_init h = Ok tt ->
  read_backend_handle (sorted_json (handle_payload h)) label = Ok h.
Proof.
  intros H. unfold read_backend_handle, handle_payload. rewrite mapping_sorted.
  eapply bind_get; [reflexivity|cbv beta]. do 2 (get get_string_sorted). cbv zeta.
  apply last_check; [done|]. by destruct h.
Qed.

Lemma placement_read d : PlacementDecision_post_init d = Ok tt ->
  read_placement_decision (sorted_json (placement_decision_payload d)) = Ok d.
Proof.
  intros H. unfold read_placement_decision, placement_decision_payload. rewrite mapping_sorted.
  eapply bind_get; [reflexivity|cbv beta]. get get_schema_sorted. get_member (pd_mode d).
  get get_string_sorted. get get_optional_string_sorted. get get_optional_integer_sorted.
  get get_optional_string_sorted. get get_optional_integer_sorted. get get_integer_sorted.
  cbv zeta. apply last_check; [done|]. by destruct d.
Qed.

Lemma size_class_schema d : SizeClassDecision_post_init d = Ok tt ->
  sd_schema d = SIZE_CLASS_DECISION_SCHEMA /\
  (forall t, sd_estimate_observed_at d = Some t -> is_utc t = true) /\
  (forall n, sd_estimated_input_bytes d = Some n -> 0 <= n <= MAX_RESULT_INTEGER) /\
  0 <= sd_max_input_bytes d <= MAX_RESULT_INTEGER /\ 1 <= sd_eligible_plan_count d <= 100.
Proof.
  unfold SizeClassDecision_post_init, require_portable, require_utc, contract_reject. intros H. inv_ok. to_prop.
  repeat match goal with H : out_of_range _ = false |- _ => apply out_of_range_false in H end.
  split_and!; try done; try lia.
  - intros t Ht. rewrite Ht in *. cbn [is_none] in *.
    destruct (sd_estimate_source d) as [src|] eqn:Es; [|done].
    match goal with H : forall a, Some src = Some a -> _ |- _ => specialize (H src eq_refl) end.
    inv_ok. done.
  - intros n Hn. match goal with H : forall a, sd_estimated_input_bytes d = Some a -> reject_if (out_of_range _) _ _ = _ |- _ =>
      specialize (H n Hn); by apply reject_if_tt, out_of_range_false in H end.
Qed.

Lemma size_class_read d : size_value d ->
  read_size_class_decision (sorted_json (size_class_decision_payload d)) = Ok d.
Proof.
  intros [H Ho _ _ _]. destruct (size_class_schema d H) as (Hs & Hu & _).
  assert (forall t, sd_estimate_observed_at d = Some t -> utc_value t) as Hv by (intros t Ht; split; auto).
  unfold read_size_class_decision, read_size_class_decision_with, size_class_decision_payload. rewrite mapping_sorted.
  eapply bind_get; [reflexivity|cbv beta]. get get_schema_sorted. eapply (bind_get _ _ tt); [reflexivity|cbv beta].
  get_member (sd_mode d). get get_string_sorted. get get_optional_integer_sorted. cbv iota.
  get get_optional_string_sorted. get get_optional_datetime_sorted; [exact Hv|].
  do 3 (get get_integer_sorted). get get_optional_integer_sorted. get get_integer_sorted.
  cbv zeta. apply last_check; [done|]. by destruct d.
Qed.

Lemma size_class_read_v1 d : size_value d -> sd_estimate_source d = None ->
  read_size_class_decision_v1 (sorted_json (size_class_decision_payload_v1 d)) = Ok d.
Proof.
  intros [H _ _ _ _] Hsrc. destruct (size_class_schema d H) as (Hs & _).
  assert (sd_estimate_observed_at d = None) as Hobs.
  { unfold SizeClassDecision_post_init, contract_reject in H. inv_ok. rewrite Hsrc in *. cbn [is_none] in *.
    destruct (sd_estimate_observed_at d); [done|done]. }
  unfold read_size_class_decision_v1, read_size_class_decision_with, size_class_decision_payload_v1. rewrite mapping_sorted.
  eapply bind_get; [reflexivity|cbv beta]. get get_schema_sorted. eapply (bind_get _ _ tt); [reflexivity|cbv beta].
  get_member (sd_mode d). get get_string_sorted. get get_optional_integer_sorted. cbv iota.
  eapply bind_get; [reflexivity|cbv beta]. eapply bind_get; [reflexivity|cbv beta].
  do 3 (get get_integer_sorted). get get_optional_integer_sorted. get get_integer_sorted.
  cbv zeta. apply last_check; [done|]. destruct d; cbn in *. by subst.
Qed.

(** What a version can carry. *)
Record compatible (v : run_version) (r : RunRecord) : Prop := {
  cp_summary : has_summary v = false -> rr_result_summary r = None;
  cp_placement : has_placement v = false -> rr_placement_decision r = None;
  cp_size : has_size_class v = false -> rr_size_class_decision r = None;
  cp_provenance d : v = V4 -> rr_size_class_decision r = Some d -> sd_estimate_source d = None;
}.

Lemma run_times r : RunRecord_post_init r = Ok tt ->
  is_utc (rr_requested_at r) = true /\ is_utc (rr_created_at r) = true /\ is_utc (rr_updated_at r) = true /\
  (forall t, rr_terminal_at r = Some t -> is_utc t = true).
Proof.
  unfold RunRecord_post_init, require_utc, contract_reject. intros H. inv_ok.
  match goal with H : for_each _ [("requested_at", _); _; _] = Ok _ |- _ => apply for_each_ok in H as Ht end.
  repeat (apply Forall_cons in Ht as [? Ht]). cbn [snd fst] in *.
  repeat match goal with H : reject_if (negb (is_utc _)) _ _ = Ok _ |- _ => apply reject_if_ok, negb_false_iff in H end.
  split_and!; try done. intros t Hr.
  match goal with H : forall a, rr_terminal_at r = Some a -> _ |- _ => specialize (H t Hr); by apply reject_if_ok, negb_false_iff in H end.
Qed.

(** The summary as it sits in the run's payload. *)
Definition summary_payload (v : run_version) (r : RunRecord) : json :=
  if has_summary v then jopt (fun s => sorted_json (summary_json s)) (rr_result_summary r) else JNull.

Lemma summary_value_ok v r : run_value r ->
  (if has_summary v then summary_value (rr_result_summary r) else Ok JNull) = Ok (summary_payload v r).
Proof.
  intros Hr. unfold summary_payload, summary_value. destruct (has_summary v); [|done].
  destruct (rr_result_summary r) as [s|] eqn:E; [|done].
  unfold serialize_execution_result_summary, canonical_json. cbn [jopt].
  apply json_loads_canonical, summary_json_ok. by apply (rv_summary r Hr).
Qed.

Lemma serialize_as_ok v r : run_value r ->
  serialize_run_record_as v r = Ok (canonical_json (run_record_json v r (summary_payload v r))).
Proof. intros Hr. unfold serialize_run_record_as. by rewrite summary_value_ok. Qed.

Lemma summary_value_read s : ExecutionResultSummary_post_init s = Ok tt ->
  deserialize_execution_result_summary_value (sorted_json (sorted_json (summary_json s))) = Ok s.
Proof.
  intros H. unfold deserialize_execution_result_summary_value. rewrite sorted_sorted.
  apply summary_deserialize; [done| |].
  - unfold canonical_json, serialize_execution_result_summary, dumps_unicode, canonical_json, dumps_unicode.
    by rewrite dumps_sorted by by apply summary_json_ok.
  - unfold canonical_json, dumps_unicode. rewrite dumps_sorted by by apply summary_json_ok.
    apply (summary_fits s H).
Qed.

Lemma run_fields_distinct v r s : has_dup (map fst (run_record_fields v r s)) = false.
Proof. destruct v; vm_compute; reflexivity. Qed.

Section RunRead.
Context (v : run_version) (r : RunRecord) (Hr : run_value r) (Hc : compatible v r).
Let fields := run_record_fields v r (summary_payload v r).

Lemma read_summary :
  included (has_summary v) "result_summary" deserialize_execution_result_summary_value (sorted_fields fields)
  = Ok (rr_result_summary r).
Proof.
  destruct (has_summary v) eqn:E; [|by rewrite (cp_summary _ _ Hc)].
  eapply (included_sorted _ _ (run_fields_distinct _ _ _) (fun s => sorted_json (summary_json s))).
  - unfold fields, summary_payload. rewrite E. by destruct v.
  - intros s Hs. split; [done|]. by apply summary_value_read, (rv_summary _ Hr).
Qed.

Lemma read_placement :
  included (has_placement v) "placement_decision" read_placement_decision (sorted_fields fields)
  = Ok (rr_placement_decision r).
Proof.
  destruct (has_placement v) eqn:E; [|by rewrite (cp_placement _ _ Hc)].
  eapply (included_sorted _ _ (run_fields_distinct _ _ _) placement_decision_payload).
  - unfold fields. by destruct v.
  - intros d Hd. split; [done|]. by apply placement_read, (rv_placement _ Hr).
Qed.

Lemma read_size :
  included (has_size_class v) "size_class_decision"
    (match v with V4 => read_size_class_decision_v1 | _ => read_size_class_decision end) (sorted_fields fields)
  = Ok (rr_size_class_decision r).
Proof.
  destruct (has_size_class v) eqn:E; [|by rewrite (cp_size _ _ Hc)].
  eapply (included_sorted _ _ (run_fields_distinct _ _ _)
            (match v with V4 => size_class_decision_payload_v1 | _ => size_class_decision_payload end)).
  - unfold fields. by destruct v.
  - intros d Hd. pose proof (rv_size _ Hr d Hd) as Hz. destruct v; try done; (split; [done|]).
    + apply size_class_read_v1; [done|]. by apply (cp_provenance _ _ Hc).
    + by apply size_class_read.
Qed.

(** One field of the record at a time. *)
Ltac get_in Hd lem := eapply bind_get; [eapply lem; [exact Hd|reflexivity|..]|cbv beta].
Ltac get_member_in Hd x := eapply bind_get;
  [eapply get_enum_sorted; [exact Hd|reflexivity|by destruct x; repeat constructor|by intros [] []]|cbv beta].

Lemma run_read : read_run_record v (sorted_fields fields) = Ok r.
Proof.
  destruct (run_times r (rv_post _ Hr)) as (Hu1 & Hu2 & Hu3 & Hu4).
  destruct (rv_times _ Hr) as (Hi1 & Hi2 & Hi3).
  pose proof (run_fields_distinct v r (summary_payload v r) : has_dup (map fst fields) = false) as Hd.
  unfold read_run_record.
  do 8 (get_in Hd get_string_sorted).
  eapply bind_get; [eapply get_object_sorted; [exact Hd|reflexivity|apply trigger_read, Hr]|cbv beta].
  do 2 (get_in Hd get_string_sorted).
  get_in Hd get_datetime_sorted; [by split|]. get_in Hd get_optional_integer_sorted.
  get_member_in Hd (rr_run_state r). get_member_in Hd (rr_outcome r).
  get_member_in Hd (rr_results_state r). get_member_in Hd (rr_cleanup_state r).
  do 2 (get_in Hd get_datetime_sorted; [by split|]).
  get_in Hd get_optional_datetime_sorted; [intros d E; split; [by apply Hu4|by apply (rv_terminal _ Hr)]|].
  get_in Hd get_optional_string_sorted. get_in Hd get_integer_sorted. get_in Hd get_optional_string_sorted.
  eapply bind_get.
  { eapply bind_get; [eapply field_sorted; [exact Hd|reflexivity]|cbv beta]. apply optional_read.
    intros h Hh. split; [done|]. by apply handle_read, (rv_handle _ Hr). }
  cbv beta. eapply bind_get; [exact read_summary|cbv beta]. eapply bind_get; [exact read_placement|cbv beta].
  eapply bind_get; [exact read_size|cbv beta].
  unfold new_run_record. apply last_check; [apply Hr|]. by destruct r.
Qed.
End RunRead.

(** ** The payloads are canonical JSON *)

Lemma jopt_int_ok o : (forall n, o = Some n -> printable n) -> json_ok (jopt JInt o).
Proof. intros H. apply json_ok_jopt. intros n Hn. exact (H n Hn). Qed.

Lemma bounded_printable n : 0 <= n <= MAX_RESULT_INTEGER -> printable n.
Proof. apply json_ok_bounded. Qed.

Lemma jopt_str_ok {A} (f : A -> string) (o : option A) : json_ok (jopt (fun a => JStr (f a)) o).
Proof. by apply json_ok_jopt. Qed.

Lemma trigger_json_ok t : json_ok (codec_trigger_payload t).
Proof.
  unfold codec_trigger_payload. destruct (tg_repair_window t) as [w|]; cbn [app];
    json_ok_fields; try apply jopt_str_ok; try (apply (jopt_str_ok id)).
  unfold repair_window_dump. json_ok_fields.
Qed.

Lemma placement_json_ok d : PlacementDecision_post_init d = Ok tt -> json_ok (placement_decision_payload d).
Proof.
  unfold PlacementDecision_post_init, require_portable, contract_reject. intros H. inv_ok. to_prop.
  match goal with H : for_each _ [("estimated cost", _); _] = Ok _ |- _ => apply for_each_ok in H as Hb end.
  repeat (apply Forall_cons in Hb as [? Hb]). cbn [snd fst] in *.
  repeat match goal with H : when_some _ _ = Ok _ |- _ => rewrite when_some_ok in H end.
  unfold placement_decision_payload. json_ok_fields; try apply (jopt_str_ok id); try apply jopt_int_ok.
  1, 2: intros n Hn; match goal with H : forall a, _ = Some a -> reject_if (out_of_range _) _ _ = _ |- _ =>
      specialize (H n Hn); apply reject_if_tt, out_of_range_false in H; by apply bounded_printable end.
  apply json_ok_bounded. lia.
Qed.

Lemma size_json_ok v d : size_value d ->
  json_ok ((match v with V4 => size_class_decision_payload_v1 | _ => size_class_decision_payload end) d).
Proof.
  intros [H _ Hcpu Hmem Hst]. destruct (size_class_schema d H) as (_ & _ & He & Hm & Hc).
  assert (json_ok (size_class_decision_payload d) /\ json_ok (size_class_decision_payload_v1 d)) as [H1 H2]; [|by destruct v].
  unfold size_class_decision_payload, size_class_decision_payload_v1, size_class_decision_fields. cbn [app].
  split; json_ok_fields; try apply jopt_str_ok; try apply (jopt_str_ok id); try apply jopt_int_ok; try done;
    try (intros n Hn; by apply bounded_printable, He); apply json_ok_bounded; unfold MAX_RESULT_INTEGER in *; lia.
Qed.

Lemma run_fields_ok v r : run_value r ->
  Forall (fun kv => json_ok kv.2) (run_record_fields v r (summary_payload v r)).
Proof.
  intros Hr. unfold run_record_fields. apply Forall_app. split; [|apply Forall_app; split; [|apply Forall_app; split]].
  - repeat (apply Forall_cons; split); cbn [snd];
      lazymatch goal with
      | |- json_ok (JStr _) => exact I
      | |- json_ok (codec_trigger_payload _) => apply trigger_json_ok
      | |- json_ok (jopt JInt _) => apply jopt_int_ok, (rv_deadline r Hr)
      | |- json_ok (jopt handle_payload _) =>
          apply json_ok_jopt; intros h _; unfold handle_payload; json_ok_fields
      | |- json_ok (jopt JStr _) => apply (jopt_str_ok id)
      | |- json_ok (jopt _ _) => apply jopt_str_ok
      | |- json_ok (JInt _) => exact (rv_attempts r Hr)
      | |- Forall _ [] => constructor
      end.
  - unfold summary_payload. destruct (has_summary v); [|constructor].
    apply Forall_cons; split; [|constructor]. apply json_ok_jopt. intros s Hs.
    by apply json_ok_sorted, summary_json_ok, (rv_summary _ Hr).
  - destruct (has_placement v); [|constructor]. apply Forall_cons; split; [|constructor]. apply json_ok_jopt.
    intros d Hd. by apply placement_json_ok, (rv_placement _ Hr).
  - destruct (has_size_class v); [|constructor]. apply Forall_cons; split; [|constructor]. apply json_ok_jopt.
    intros d Hd. by apply size_json_ok, (rv_size _ Hr).
Qed.

Lemma run_json_ok v r : run_value r -> json_ok (run_record_json v r (summary_payload v r)).
Proof.
  intros Hr. unfold run_record_json. apply json_ok_obj; [vm_compute; reflexivity|].
  apply Forall_cons; split; [exact I|]. apply Forall_cons; split; [|constructor]. cbn [snd].
  apply json_ok_obj; [apply run_fields_distinct|by apply run_fields_ok].
Qed.

Lemma version_of_schema v : version_of (run_schema v) = Ok v.
Proof. destruct v; vm_compute; reflexivity. Qed.

Lemma run_record_reads v r data
    (Hr : run_value r) (Hc : compatible v r) (Hs : serialize_run_record_as v r = Ok data)
    (Hlen : Z.of_nat (length data) <= MAX_RUN_BYTES) :
  deserialize_run_record data = Ok r.
Proof.
  pose proof (serialize_as_ok v r Hr) as Hdata. rewrite Hs in Hdata. injection Hdata as Hdata.
  unfold deserialize_run_record. apply reading_ok.
  eapply bind_get.
  { rewrite Hdata. unfold run_record_json. apply (envelope_sorted _ (run_schema v)).
    - exact (run_json_ok v r Hr).
    - vm_compute; reflexivity.
    - reflexivity.
    - destruct v; repeat constructor.
    - by rewrite Hdata in Hlen. }
  cbv beta. eapply bind_get; [eapply get_schema_sorted; [vm_compute; reflexivity|reflexivity]|cbv beta].
  eapply bind_get.
  { eapply bind_get; [eapply field_sorted; [vm_compute; reflexivity|reflexivity]|cbv beta]. apply mapping_sorted. }
  cbv beta. eapply bind_get; [apply version_of_schema|cbv beta].
  eapply bind_get; [by apply run_read|cbv beta]. eapply bind_get; [exact Hs|cbv beta].
  eapply (bind_get _ _ tt); [by apply require_canonical_ok|done].
Qed.

(** C7: durable run snapshots round-trip in every supported version: writing a
    run in a version that can carry its parts (v1 has no result summary, placement
    or size-class decision, v2 no decisions, v3 no size-class decision, v4 no
    provenance of the size estimate) and reading the bytes gives the run back,
    field by field, whenever the bytes are within the reader's bound. *)
Theorem run_record_roundtrip v r data
    (Hr : run_value r) (Hc : compatible v r) (Hs : serialize_run_record_as v r = Ok data)
    (Hlen : Z.of_nat (length data) <= MAX_RUN_BYTES) :
  deserialize_run_record data = Ok r.
Proof. by apply (run_record_reads v). Qed.

Lemma sample_value : run_value (queued_record sample_submission).
Proof.
  apply queued_value; [|vm_compute; reflexivity]. split; intros; try discriminate.
  - split; [vm_compute; reflexivity|intros; discriminate..].
  - vm_compute. split; discriminate.
Qed.

Definition sample_bytes : list Z :=
  match serialize_run_record_as V4 (queued_record sample_submission) with Ok data => data | Raise _ => [] end.

Lemma run_record_roundtrip_witness :
  serialize_run_record_as V4 (queued_record sample_submission) = Ok sample_bytes /\
  deserialize_run_record sample_bytes = Ok (queued_record sample_submission).
Proof.
  split; [vm_compute; reflexivity|].
  refine (run_record_roundtrip V4 (queued_record sample_submission) sample_bytes sample_value _ _ _).
  - split; intros; try reflexivity; discriminate.
  - vm_compute. reflexivity.
  - vm_compute. discriminate.
Defined.

(** ** What reading can return, and what it can raise *)

(** The errors the readers translate. *)
Definition caught (e : exn) : Prop := (catches KeyError e || catches TypeError e || catches ValueError e) = true.

Lemma contract_caught {A} (r : result A) : only OrchestrationContractError r -> raises caught r.
Proof.
  apply raises_impl. intros [c m a]. unfold caught, catches. cbn [exn_cls]. destruct c; vm_compute; done.
Qed.

Lemma reading_raises {A} m (r : result A) : raises caught r -> only SerErr (reading SerErr m r).
Proof.
  destruct r as [a|e]; [done|]. unfold reading, caught, raises. intros H.
  destruct (catches SerErr e) eqn:E; [exact E|]. rewrite H. reflexivity.
Qed.

Lemma field_caught k l : raises caught (field k l).
Proof. unfold field. by destruct (assoc k l). Qed.
Lemma string_caught v label : raises caught (string_ SerErr v label).
Proof. by destruct v. Qed.
Lemma integer_caught v label : raises caught (integer SerErr v label).
Proof. by destruct v. Qed.
Lemma boolean_caught v label : raises caught (boolean SerErr v label).
Proof. by destruct v. Qed.
Lemma mapping_caught v label : raises caught (mapping SerErr v label).
Proof. by destruct v. Qed.
Lemma optional_caught {A} (read : json -> string -> result A) v label :
  raises caught (read v label) -> raises caught (optional read v label).
Proof. intros H. unfold optional. destruct v; try exact I; by apply raises_bind. Qed.
Lemma enum_caught {A} (members : list A) value v label : raises caught (enum SerErr members value v label).
Proof.
  unfold enum, enum_or. destruct v; try done. cbn. destruct (find _ members); done.
Qed.
Lemma read_datetime_caught v label : raises caught (read_datetime v label).
Proof.
  unfold read_datetime, ser_reject. apply raises_bind; [apply string_caught|intros raw _].
  apply raises_bind; [by destruct (negb _)|intros _ _]. by destruct (parse_utc raw).
Qed.
Lemma reject_caught b m : raises caught (ser_reject b m).
Proof. by destruct b. Qed.
Lemma json_loads_caught data : raises caught (json_loads data).
Proof. unfold json_loads. by destruct (loads data). Qed.

Ltac caught_step :=
  lazymatch goal with
  | |- raises _ (_ ≫= _) => apply raises_bind; [|intros ? ?]
  | |- raises _ (Ok _) => exact I
  | |- raises _ (field _ _) => apply field_caught
  | |- raises _ (mapping _ _ _) => apply mapping_caught
  | |- raises _ (string_ _ _ _) => apply string_caught
  | |- raises _ (integer _ _ _) => apply integer_caught
  | |- raises _ (boolean _ _ _) => apply boolean_caught
  | |- raises _ (optional _ _ _) => apply optional_caught
  | |- raises _ (enum _ _ _ _ _) => apply enum_caught
  | |- raises _ (read_datetime _ _) => apply read_datetime_caught
  | |- raises _ (ser_reject _ _) => apply reject_caught
  | |- raises _ (require_canonical _ _) => apply reject_caught
  | |- raises _ (json_loads _) => apply json_loads_caught
  | |- raises _ (if ?b then _ else _) => destruct b
  | |- raises _ (match ?v with _ => _ end) => destruct v
  end.
Ltac caught_tac :=
  unfold get_string, get_integer, get_boolean, get_optional_string, get_optional_integer, get_datetime,
    get_optional_datetime, get_enum, get_schema, optional_string, optional_integer, optional_datetime;
  repeat caught_step.

Lemma summary_post_init_only s : only OrchestrationContractError (ExecutionResultSummary_post_init s).
Proof. unfold ExecutionResultSummary_post_init. unfold_requires. only_tac. Qed.

Lemma trigger_post_init_only t : only OrchestrationContractError (RunTrigger_post_init t).
Proof. unfold RunTrigger_post_init. unfold_requires. only_tac. destruct (tg_kind t), (tg_scheduled_occurrence t); only_tac. Qed.

Lemma handle_post_init_only h : only OrchestrationContractError (BackendHandle_post_init h).
Proof. unfold BackendHandle_post_init. unfold_requires. only_tac. Qed.

Lemma placement_post_init_only d : only OrchestrationContractError (PlacementDecision_post_init d).
Proof.
  unfold PlacementDecision_post_init. unfold_requires. only_tac.
  destruct (pd_mode d); try exact I.
  destruct (pd_selected_locality d), (pd_preferred_locality d), (pd_max_cost_microusd d); only_tac.
  destruct (pd_estimated_cost_microusd d); [only_tac|]. inv_ok. cbn in *. discriminate.
Qed.

Lemma size_post_init_only d : only OrchestrationContractError (SizeClassDecision_post_init d).
Proof.
  unfold SizeClassDecision_post_init. unfold_requires. only_tac.
  destruct (sd_estimate_observed_at d); [only_tac|]. inv_ok.
  destruct (sd_estimate_source d); [discriminate|discriminate].
Qed.

Lemma load_envelope_caught data schemas n : raises caught (load_any_envelope data schemas n).
Proof.
  unfold load_any_envelope. caught_tac. unfold map_error, json_loads. by destruct (loads data).
Qed.

Lemma serror_caught {A} (r : result A) : only SerErr r -> raises caught r.
Proof.
  apply raises_impl. intros [c m a]. unfold caught, catches. cbn [exn_cls]. destruct c; vm_compute; done.
Qed.

Lemma summary_caught v : raises caught (deserialize_execution_result_summary_value v).
Proof.
  apply serror_caught. apply reading_raises. apply raises_bind; [apply load_envelope_caught|intros l _].
  unfold execution_result_summary. caught_tac. apply contract_caught, summary_post_init_only.
Qed.

Lemma window_caught v : raises caught (repair_window_validate v).
Proof.
  unfold repair_window_validate, new_repair_window, forbid. apply raises_bind; [by destruct v|intros l _].
  apply raises_bind; [unfold field; by destruct (assoc _ l)|intros a _].
  apply raises_bind; [unfold field; by destruct (assoc _ l)|intros b _].
  apply raises_bind; [by destruct (existsb _ _)|intros _ _].
  assert (forall u, raises caught (parse_date u)) as Hd.
  { intros u. unfold parse_date. destruct u; try done. by destruct (_ ≫= _). }
  apply raises_bind; [apply Hd|intros x _]. apply raises_bind; [apply Hd|intros y _].
  apply raises_bind; [by destruct (_ <=? _)|done].
Qed.

Lemma trigger_caught v : raises caught (read_trigger v).
Proof.
  unfold read_trigger. caught_tac. all: first [apply window_caught | apply contract_caught, trigger_post_init_only].
Qed.

Lemma handle_caught v label : raises caught (read_backend_handle v label).
Proof. unfold read_backend_handle. caught_tac. apply contract_caught, handle_post_init_only. Qed.

Lemma placement_caught v : raises caught (read_placement_decision v).
Proof. unfold read_placement_decision. caught_tac. apply contract_caught, placement_post_init_only. Qed.

Lemma size_caught b v : raises caught (read_size_class_decision_with b v).
Proof. unfold read_size_class_decision_with. caught_tac. all: apply contract_caught, size_post_init_only. Qed.

Lemma run_caught v l : raises caught (read_run_record v l).
Proof.
  destruct v; unfold read_run_record, included, new_run_record; cbn [has_summary has_placement has_size_class]; caught_tac.
  all: cbv beta; first [apply trigger_caught | apply handle_caught | apply summary_caught | apply placement_caught
             | apply size_caught | apply contract_caught, run_post_init_only].
Qed.

(** What the parts of a record that was read have passed. *)
Record run_parts_checked (r : RunRecord) : Prop := {
  rp_post : RunRecord_post_init r = Ok tt;
  rp_trigger : RunTrigger_post_init (rr_trigger r) = Ok tt;
  rp_handle h : rr_backend_handle r = Some h -> BackendHandle_post_init h = Ok tt;
  rp_summary s : rr_result_summary r = Some s -> ExecutionResultSummary_post_init s = Ok tt;
  rp_placement d : rr_placement_decision r = Some d -> PlacementDecision_post_init d = Ok tt;
  rp_size d : rr_size_class_decision r = Some d -> SizeClassDecision_post_init d = Ok tt;
}.

Lemma optional_some {A} (read : json -> string -> result A) v label a :
  optional read v label = Ok (Some a) -> read v label = Ok a.
Proof. unfold optional. destruct v; try done; intros (x & Hx & [= <-])%bind_ok; done. Qed.

Lemma included_some {A} b k (read : json -> result A) l a :
  included b k read l = Ok (Some a) -> exists v, read v = Ok a.
Proof. unfold included. destruct b; [|done]. intros (v & _ & H%optional_some)%bind_ok. by exists v. Qed.

Lemma included_none {A} b k (read : json -> result A) l o :
  included b k read l = Ok o -> b = false -> o = None.
Proof. intros H ->. by injection H as <-. Qed.

Lemma last_check_inv {A} (check : A -> result unit) (x y : A) : (_ ← check x; Ok x) = Ok y -> check y = Ok tt.
Proof. intros [H [= <-]]%seq_ok. done. Qed.

Ltac to_last_check H :=
  repeat (apply bind_ok in H; destruct H as (? & ? & H)); injection H as <-;
  match goal with u : unit |- _ => destruct u; eassumption end.

Lemma trigger_checked v t : read_trigger v = Ok t -> RunTrigger_post_init t = Ok tt.
Proof. unfold read_trigger. intros H. to_last_check H. Qed.
Lemma handle_checked v label h : read_backend_handle v label = Ok h -> BackendHandle_post_init h = Ok tt.
Proof. unfold read_backend_handle. intros H. to_last_check H. Qed.
Lemma placement_checked v d : read_placement_decision v = Ok d -> PlacementDecision_post_init d = Ok tt.
Proof. unfold read_placement_decision. intros H. to_last_check H. Qed.
Lemma size_checked b v d : read_size_class_decision_with b v = Ok d ->
  SizeClassDecision_post_init d = Ok tt /\ (b = true -> sd_estimate_source d = None).
Proof.
  unfold read_size_class_decision_with. intros H.
  repeat (apply bind_ok in H; destruct H as (? & ? & H)). injection H as <-. split.
  - match goal with H : SizeClassDecision_post_init _ = Ok ?u |- _ => by destruct u end.
  - intros ->. cbn [sd_estimate_source]. match goal with H : Ok None = Ok ?o |- _ = None => by injection H as <- end.
Qed.
Lemma summary_checked v s : deserialize_execution_result_summary_value v = Ok s -> ExecutionResultSummary_post_init s = Ok tt.
Proof.
  unfold deserialize_execution_result_summary_value, deserialize_execution_result_summary. intros H%reading_ok_inv.
  apply bind_ok in H as (l & _ & H). apply bind_ok in H as (w & _ & H). apply bind_ok in H as (s' & Hs & H).
  apply seq_ok in H as [_ [= <-]]. unfold execution_result_summary in Hs. to_last_check Hs.
Qed.

Lemma run_read_checked v l r : read_run_record v l = Ok r -> run_parts_checked r /\ compatible v r.
Proof.
  unfold read_run_record. intros H.
  repeat (apply bind_ok in H; destruct H as (? & ? & H)). injection H as <-.
  match goal with u : unit |- _ => destruct u end.
  repeat match goal with
  | H : (t ← field "trigger" l; read_trigger t) = _ |- _ => apply bind_ok in H as (? & _ & H); apply trigger_checked in H
  | H : (h ← field "backend_handle" l; _) = _ |- _ => apply bind_ok in H as (? & _ & H)
  end.
  split; split; cbn [rr_trigger rr_backend_handle rr_result_summary rr_placement_decision rr_size_class_decision]; try done.
  all: intros *; try (by eapply included_none; eassumption); intros Hx; try intros Hy; subst;
    repeat match goal with
    | H : optional _ _ _ = Ok (Some _) |- _ => apply optional_some in H
    | H : included _ _ _ _ = Ok (Some _) |- _ => apply included_some in H as [? H]
    end.
  - by eapply handle_checked.
  - by eapply summary_checked.
  - by eapply placement_checked.
  - destruct v; by eapply (size_checked _ _ _).
  - by eapply (size_checked true _ _).
Qed.

Lemma load_envelope_size data schemas n l :
  load_any_envelope data schemas n = Ok l -> data <> [] /\ Z.of_nat (length data) <= n.
Proof.
  unfold load_any_envelope, ser_reject. intros [H _]%seq_ok. apply reject_if_tt in H.
  apply orb_false_iff in H as [H1 H2]. to_prop. done.
Qed.

Lemma serialize_as_caught v r : raises caught (serialize_run_record_as v r).
Proof.
  unfold serialize_run_record_as, summary_value. apply raises_bind; [|done].
  destruct (has_summary v); [|done]. destruct (rr_result_summary r); [apply json_loads_caught|done].
Qed.

Lemma run_record_raises data : only SerErr (deserialize_run_record data).
Proof.
  unfold deserialize_run_record. apply reading_raises. apply raises_bind; [apply load_envelope_caught|intros l _].
  caught_tac.
  - unfold version_of. by destruct (find _ _).
  - apply run_caught.
  - apply serialize_as_caught.
Qed.

(** C8: the reader of run snapshots accepts canonical bytes only: what it returns
    passed the constructors of the record and of all its parts, and is written
    back, in the version it was read in, to the very bytes that were read; every
    other input raises [OrchestrationSerializationError]. *)
Theorem run_record_reader data :
  match deserialize_run_record data with
  | Ok r => run_parts_checked r /\
      exists v, compatible v r /\ serialize_run_record_as v r = Ok data /\
                data <> [] /\ Z.of_nat (length data) <= MAX_RUN_BYTES
  | Raise e => catches OrchestrationSerializationError e = true
  end.
Proof.
  destruct (deserialize_run_record data) as [r|e] eqn:E.
  - unfold deserialize_run_record in E. apply reading_ok_inv in E.
    repeat (apply bind_ok in E; destruct E as (? & ? & E)). injection E as <-.
    match goal with H : read_run_record ?v _ = _ |- _ => apply run_read_checked in H as [Hp Hc]; split; [done|exists v] end.
    match goal with H : require_canonical _ _ = _ |- _ => apply require_canonical_ok in H; subst end.
    match goal with H : load_any_envelope _ _ _ = _ |- _ => apply load_envelope_size in H end. done.
  - pose proof (run_record_raises data) as H. by rewrite E in H.
Qed.

(** ** Attempts *)

Lemma attempt_created_utc a : AttemptRecord_post_init a = Ok tt -> is_utc (ar_created_at a) = true.
Proof. unfold AttemptRecord_post_init, require_utc, contract_reject. intros H. inv_ok. done. Qed.

Lemma attempt_json_ok a : attempt_value a -> json_ok (attempt_record_json a).
Proof.
  intros Ha. unfold attempt_record_json. apply json_ok_obj; [vm_compute; reflexivity|].
  apply Forall_cons; split; [exact I|]. apply Forall_cons; split; [|constructor]. cbn [snd].
  apply json_ok_obj; [vm_compute; reflexivity|].
  repeat (apply Forall_cons; split); cbn [snd];
    lazymatch goal with
    | |- json_ok (JStr _) => exact I
    | |- json_ok (codec_trigger_payload _) => apply trigger_json_ok
    | |- json_ok (JInt _) => exact (av_number a Ha)
    | |- Forall _ [] => constructor
    end.
Qed.

Lemma attempt_record_reads a :
  attempt_value a -> Z.of_nat (length (serialize_attempt_record a)) <= MAX_ATTEMPT_BYTES ->
  deserialize_attempt_record (serialize_attempt_record a) = Ok a.
Proof.
  intros Ha Hlen. set (data := serialize_attempt_record a) in *.
  assert (data = serialize_attempt_record a) as Hdata by done. clearbody data.
  unfold deserialize_attempt_record. apply reading_ok.
  eapply bind_get.
  { rewrite Hdata in Hlen |- *. unfold serialize_attempt_record, attempt_record_json in *.
    apply (envelope_sorted _ ATTEMPT_RECORD_SCHEMA);
      [exact (attempt_json_ok a Ha)|vm_compute; reflexivity|reflexivity|by left|exact Hlen]. }
  cbv beta. eapply bind_get.
  { eapply bind_get; [eapply field_sorted; [vm_compute; reflexivity|reflexivity]|cbv beta]. apply mapping_sorted. }
  cbv beta. do 2 (get get_string_sorted). get get_integer_sorted. do 3 (get get_string_sorted).
  eapply bind_get; [eapply get_object_sorted; [vm_compute; reflexivity|reflexivity|apply trigger_read, (av_trigger a Ha)]|cbv beta].
  get get_datetime_sorted; [split; [apply attempt_created_utc, (av_post a Ha)|exact (av_created a Ha)]|].
  eapply bind_get.
  { unfold new_attempt_record. apply (last_check _ _ a); [exact (av_post a Ha)|by destruct a]. }
  cbv beta. eapply (bind_get _ _ tt); [by apply require_canonical_ok|done].
Qed.

Lemma attempt_record_raises data : only SerErr (deserialize_attempt_record data).
Proof.
  unfold deserialize_attempt_record, new_attempt_record. apply reading_raises.
  apply raises_bind; [apply load_envelope_caught|intros l _]. caught_tac.
  - apply trigger_caught.
  - apply contract_caught. unfold AttemptRecord_post_init. unfold_requires. only_tac. apply attempt_identity_only.
Qed.

(** Attempt records round-trip, and the reader accepts their canonical bytes
    only: reading what was written gives the attempt back; whatever else is read
    successfully is the canonical text of an attempt that passed its constructor;
    every other input raises [OrchestrationSerializationError]. *)
Theorem attempt_record_codec :
  (forall a, attempt_value a -> Z.of_nat (length (serialize_attempt_record a)) <= MAX_ATTEMPT_BYTES ->
     deserialize_attempt_record (serialize_attempt_record a) = Ok a) /\
  (forall data, match deserialize_attempt_record data with
                | Ok a => AttemptRecord_post_init a = Ok tt /\ RunTrigger_post_init (ar_trigger a) = Ok tt /\
                          data = serialize_attempt_record a /\ Z.of_nat (length data) <= MAX_ATTEMPT_BYTES
                | Raise e => catches OrchestrationSerializationError e = true
                end).
Proof.
  split.
  - exact attempt_record_reads.
  - intros data. destruct (deserialize_attempt_record data) as [a|e] eqn:E.
    + unfold deserialize_attempt_record in E. apply reading_ok_inv in E.
      repeat (apply bind_ok in E; destruct E as (? & ? & E)). injection E as <-.
      match goal with H : load_any_envelope _ _ _ = _ |- _ => apply load_envelope_size in H as [_ ?] end.
      match goal with H : require_canonical _ _ = _ |- _ => apply require_canonical_ok in H end.
      match goal with H : new_attempt_record _ = _ |- _ => apply seq_ok in H as [Hp [= <-]] end.
      split_and!; try done. cbn [ar_trigger].
      match goal with H : (t ← field "trigger" _; read_trigger t) = _ |- _ =>
        apply bind_ok in H as (? & _ & H); by apply trigger_checked in H end.
    + pose proof (attempt_record_raises data) as H. by rewrite E in H.
Qed.
