(* ===== verification/PlanCodec.v ===== *)
(** * Execution plans as canonical JSON ([control/orchestration_serialization.py])

    [serialize_execution_plan] and [deserialize_execution_plan], with the
    execution template, the retry policy and the physical plan they embed.  A
    stored plan carries its revision, the digest of its contents, and is read
    only if the two agree. *)

From S2P Require Import Prelude Regex PyStr Sha256 PyTime Json JsonParse JsonRead Identifiers Projection PhysicalPlan PhysicalPlanCodec Graph PhysicalPlanner Orchestration RunCodec.

Local Open Scope string_scope.
Local Open Scope Z_scope.
Local Open Scope list_scope.

Definition MAX_EXECUTION_PLAN_BYTES : Z := 1024 * 1024.

(** ** Writing *)

Definition serialize_execution_plan (p : ExecutionPlan) : result (list Z) :=
  contents ← (v ← json_loads (canonical_execution_plan_contents p); mapping SerErr v "plan contents");
  schema ← field "schema" contents;
  plan ← field "plan" contents;
  Ok (canonical_json (JObj [("schema", schema); ("revision", JStr (revision p)); ("plan", plan)])).

(** ** Reading *)

Definition pair_text_leb : string * string -> string * string -> bool := lex_leb str_leb str_leb.

(** Keys are strings as JSON has no others. *)
Definition string_pairs (v : json) (label : string) : result (list (string * string)) :=
  values ← mapping SerErr v label;
  pairs ← read_all (fun kv : string * json => item ← string_ SerErr kv.2 label; Ok (kv.1, item)) values;
  Ok (py_sorted pair_text_leb pairs).

Definition checked {A} (post_init : A -> result unit) (a : A) : result A := _ ← post_init a; Ok a.

Definition read_secret_reference (reference : json) : result SecretReference :=
  provider ← (values ← mapping SerErr reference "secret reference"; get_string "provider" values);
  text ← (values ← mapping SerErr reference "secret reference"; get_string "reference" values);
  checked SecretReference_post_init {| sr_provider := provider; sr_reference := text |}.

(** [sorted(secrets.items())]: the names differ, so values are never compared. *)
Definition read_secret_bindings (secrets : list (string * json)) : result (list (string * SecretReference)) :=
  bindings ← read_all (fun kv : string * json => reference ← read_secret_reference kv.2; Ok (kv.1, reference))
               (py_sorted pair_leb secrets);
  _ ← ser_reject (negb (Nat.eqb (length bindings) (length secrets))) "secret binding names must be strings";
  Ok bindings.

Definition read_resources (resources : list (string * json)) : result ResourceProjection :=
  cpu_millis ← get_integer "cpu_millis" resources; memory_mib ← get_integer "memory_mib" resources;
  ephemeral_storage_mib ← get_optional_integer "ephemeral_storage_mib" resources;
  deadline_seconds ← get_integer "deadline_seconds" resources;
  runtime_retry_count ← get_integer "runtime_retry_count" resources;
  launcher_retry_count ← get_integer "launcher_retry_count" resources;
  checked ResourceProjection_post_init
    {| rp_cpu_millis := cpu_millis; rp_memory_mib := memory_mib; rp_ephemeral_storage_mib := ephemeral_storage_mib;
       rp_deadline_seconds := deadline_seconds; rp_runtime_retry_count := runtime_retry_count;
       rp_launcher_retry_count := launcher_retry_count |}.

Definition read_schedule (schedule : list (string * json)) : result ScheduleProjection :=
  task_count ← get_integer "task_count" schedule; maximum_parallelism ← get_integer "maximum_parallelism" schedule;
  expression ← get_optional_string "expression" schedule; time_zone ← get_optional_string "time_zone" schedule;
  paused ← get_boolean "paused" schedule;
  checked ScheduleProjection_post_init
    {| sp_task_count := task_count; sp_maximum_parallelism := maximum_parallelism; sp_expression := expression;
       sp_time_zone := time_zone; sp_paused := paused |}.

Definition read_network (network : list (string * json)) : result NetworkPlacement :=
  placement ← get_optional_string "placement" network;
  extensions ← (v ← field "extensions" network; string_pairs v "network extensions");
  checked NetworkPlacement_post_init {| np_placement := placement; np_extensions := extensions |}.

Definition read_observability (observability : list (string * json)) : result ObservabilityProjection :=
  log_destination ← get_string "log_destination" observability;
  metric_namespace ← get_string "metric_namespace" observability;
  alert_target ← get_optional_string "alert_target" observability;
  retention_days ← get_optional_integer "retention_days" observability;
  checked ObservabilityProjection_post_init
    {| op_log_destination := log_destination; op_metric_namespace := metric_namespace;
       op_alert_target := alert_target; op_retention_days := retention_days |}.

(** [_string(values[key], label)] with a label that is not the key. *)
Definition labelled_string (k label : string) (values : list (string * json)) : result string :=
  v ← field k values; string_ SerErr v label.
Definition sub_object (k : string) (values : list (string * json)) : result (list (string * json)) :=
  v ← field k values; mapping SerErr v k.

Definition execution_template (value : json) : result ExecutionTemplate :=
  values ← mapping SerErr value "execution_template";
  resources ← sub_object "resources" values; schedule ← sub_object "schedule" values;
  network ← sub_object "network" values; observability ← sub_object "observability" values;
  secrets ← sub_object "secret_bindings" values;
  secret_bindings ← read_secret_bindings secrets;
  schema ← labelled_string "schema" "template schema" values;
  contract ← labelled_string "contract" "runtime contract" values;
  pipeline_id ← get_string "pipeline_id" values; profile_id ← get_string "profile_id" values;
  launcher ← get_string "launcher" values; image ← get_string "image" values;
  command ← (v ← field "command" values; string_tuple SerErr v "command");
  configuration_reference ← get_string "configuration_reference" values;
  environment ← (v ← field "environment" values; string_pairs v "environment");
  workload_identity ← get_string "workload_identity" values;
  resources ← read_resources resources; schedule ← read_schedule schedule; network ← read_network network;
  labels ← (v ← field "labels" values; string_pairs v "labels");
  observability ← read_observability observability;
  extensions ← (v ← field "extensions" values; string_pairs v "extensions");
  checked ExecutionTemplate_post_init
    {| et_schema := schema; et_contract := contract; et_pipeline_id := pipeline_id; et_profile_id := profile_id;
       et_launcher := launcher; et_image := image; et_command := command;
       et_configuration_reference := configuration_reference; et_environment := environment;
       et_secret_bindings := secret_bindings; et_workload_identity := workload_identity; et_resources := resources;
       et_schedule := schedule; et_network := network; et_labels := labels; et_observability := observability;
       et_extensions := extensions |}.

Definition retry_policy (value : json) : result RetryPolicy :=
  values ← mapping SerErr value "retry_policy";
  codes ← field "retryable_exit_codes" values;
  codes ← (match codes with JArr l => Ok l | _ => raise_ SerErr "retryable_exit_codes must be a list" end);
  max_attempts ← get_integer "max_attempts" values;
  retryable_exit_codes ← read_all (fun code => integer SerErr code "retryable_exit_code") codes;
  checked RetryPolicy_post_init {| rt_max_attempts := max_attempts; rt_retryable_exit_codes := retryable_exit_codes |}.

Definition read_physical_plan (schema : string) (values : list (string * json)) : result (option PhysicalPlan) :=
  if bool_decide (schema = EXECUTION_PLAN_SCHEMA) then
    v ← field "physical_plan" values;
    p ← deserialize_physical_plan (canonical_json v); Ok (Some p)
  else Ok None.

Definition read_execution_plan (schema : string) (values : list (string * json)) : result ExecutionPlan :=
  plan_id ← get_string "plan_id" values; environment ← get_string "environment" values;
  project ← get_string "project" values; graph ← get_string "graph" values;
  graph_revision ← get_string "graph_revision" values;
  graph_content_sha256 ← get_string "graph_content_sha256" values;
  backend_id ← get_string "backend_id" values; profile_id ← get_string "profile_id" values;
  image ← get_string "image" values;
  template ← (v ← field "execution_template" values; execution_template v);
  deadline_seconds ← get_integer "deadline_seconds" values;
  policy ← (v ← field "retry_policy" values; retry_policy v);
  physical_plan ← read_physical_plan schema values;
  orchestration_schema ← get_string "orchestration_schema" values;
  checked ExecutionPlan_post_init
    {| ep_plan_id := plan_id; ep_environment := environment; ep_project := project; ep_graph := graph;
       ep_graph_revision := graph_revision; ep_graph_content_sha256 := graph_content_sha256;
       ep_backend_id := backend_id; ep_profile_id := profile_id; ep_image := image;
       ep_execution_template := template; ep_deadline_seconds := deadline_seconds; ep_retry_policy := policy;
       ep_physical_plan := physical_plan; ep_schema := orchestration_schema |}.

Definition deserialize_execution_plan (data : list Z) : result ExecutionPlan :=
  reading SerErr "execution-plan record is invalid" (
    envelope ← load_any_envelope data [EXECUTION_PLAN_SCHEMA_V1; EXECUTION_PLAN_SCHEMA] MAX_EXECUTION_PLAN_BYTES;
    plan_schema ← get_schema "execution plan schema" envelope;
    values ← (v ← field "plan" envelope; mapping SerErr v "execution plan");
    plan ← read_execution_plan plan_schema values;
    stored_revision ← get_string "revision" envelope;
    _ ← ser_reject (negb (bool_decide (stored_revision = revision plan)))
          "execution-plan revision does not match its canonical contents";
    expected ← serialize_execution_plan plan;
    _ ← require_canonical data expected;
    Ok plan).

(** ** Plans as values: what the constructors admit, with integers that can be printed *)

Record template_value (t : ExecutionTemplate) : Prop := {
  tp_post : ExecutionTemplate_post_init t = Ok tt;
  tp_secrets : Forall (fun b : string * SecretReference => SecretReference_post_init b.2 = Ok tt) (et_secret_bindings t);
  tp_resources : ResourceProjection_post_init (et_resources t) = Ok tt;
  tp_schedule : ScheduleProjection_post_init (et_schedule t) = Ok tt;
  tp_network : NetworkPlacement_post_init (et_network t) = Ok tt;
  tp_observability : ObservabilityProjection_post_init (et_observability t) = Ok tt;
}.

Record template_printable (t : ExecutionTemplate) : Prop := {
  tn_cpu : printable (rp_cpu_millis (et_resources t));
  tn_memory : printable (rp_memory_mib (et_resources t));
  tn_storage n : rp_ephemeral_storage_mib (et_resources t) = Some n -> printable n;
  tn_deadline : printable (rp_deadline_seconds (et_resources t));
  tn_runtime : printable (rp_runtime_retry_count (et_resources t));
  tn_launcher : printable (rp_launcher_retry_count (et_resources t));
  tn_tasks : printable (sp_task_count (et_schedule t));
  tn_parallelism : printable (sp_maximum_parallelism (et_schedule t));
  tn_retention n : op_retention_days (et_observability t) = Some n -> printable n;
}.

Record plan_value (p : ExecutionPlan) : Prop := {
  pl_post : ExecutionPlan_post_init p = Ok tt;
  pl_template : template_value (ep_execution_template p);
  pl_retry : RetryPolicy_post_init (ep_retry_policy p) = Ok tt;
  pl_physical q : ep_physical_plan p = Some q -> physical_plan_value q /\
    Z.of_nat (length (serialize_physical_plan q)) <= MAX_PLAN_BYTES;
}.

Record plan_printable (p : ExecutionPlan) : Prop := {
  pn_template : template_printable (ep_execution_template p);
  pn_deadline : printable (ep_deadline_seconds p);
  pn_attempts : printable (rt_max_attempts (ep_retry_policy p));
}.

#[local] Arguments SecretReference_post_init : simpl never.
#[local] Arguments ResourceProjection_post_init : simpl never.
#[local] Arguments ScheduleProjection_post_init : simpl never.
#[local] Arguments NetworkPlacement_post_init : simpl never.
#[local] Arguments ObservabilityProjection_post_init : simpl never.
#[local] Arguments ExecutionTemplate_post_init : simpl never.
#[local] Arguments RetryPolicy_post_init : simpl never.
#[local] Arguments ExecutionPlan_post_init : simpl never.

Lemma checked_ok {A} (post_init : A -> result unit) a b : post_init a = Ok tt -> a = b -> checked post_init a = Ok b.
Proof. intros H <-. unfold checked. by rewrite H. Qed.
Lemma checked_inv {A} (post_init : A -> result unit) a b : checked post_init a = Ok b -> post_init b = Ok tt.
Proof. unfold checked. by intros [H [= <-]]%seq_ok. Qed.

(** ** Named pairs *)

Abbreviation in_order leb := (StronglySorted (fun a b => leb a b = true)).

Lemma validate_pairs_sorted {V} (l : list (string * V)) label names :
  validate_pairs l label = Ok names -> in_order str_leb (map fst l) /\ NoDup (map fst l).
Proof.
  unfold validate_pairs, canonical_strings. intros [H _]%seq_ok. apply reject_if_tt in H.
  apply orb_false_iff in H as [H _]. apply negb_false_iff, andb_true_iff in H as [H1 H2].
  to_prop. split; [|by apply has_dup_false, negb_true_iff]. rewrite <- H1. apply py_sorted_sorted; intros *; [apply leb_total|apply leb_trans].
Qed.

(** Pairs compared by their names, or by their names first. *)
Lemma names_in_order {V} (leb : string * V -> string * V -> bool) (l : list (string * V)) :
  (forall a b, str_leb a.1 b.1 = true -> a.1 <> b.1 -> leb a b = true) ->
  in_order str_leb (map fst l) -> NoDup (map fst l) -> in_order leb l.
Proof.
  intros Hleb. induction l as [|a l IH]; cbn; [constructor|]. intros [Hs Ha]%StronglySorted_inv [Hn Hd]%NoDup_cons.
  constructor; [auto|]. rewrite Forall_forall. intros b Hb. apply Hleb.
  - rewrite Forall_forall in Ha. by apply Ha, list_elem_of_fmap_2.
  - intros E. apply Hn. rewrite E. by apply list_elem_of_fmap_2.
Qed.

Section Pairs.
Context {V : Type} (g : V -> json).

Definition named (l : list (string * V)) : list (string * json) := map (fun kv => (kv.1, sorted_json (g kv.2))) l.

Lemma named_keys l : map fst (named l) = map fst l.
Proof. unfold named. by rewrite map_map. Qed.

Lemma value_keys (l : list (string * V)) : map fst (prod_map id g <$> l) = map fst l.
Proof. induction l as [|[k v] l IH]; [done|]. cbn in *. by rewrite IH. Qed.

(** The object of such pairs, as it is read back. *)
Lemma pairs_object (l : list (string * V)) label names :
  validate_pairs l label = Ok names ->
  sorted_json (JObj (dict_of (prod_map id g <$> l))) = JObj (named l) /\ py_sorted pair_leb (named l) = named l.
Proof.
  intros [Hs Hn]%validate_pairs_sorted.
  pose proof (value_keys l) as Hk.
  assert (forall V' (m : list (string * V')), map fst m = map fst l -> py_sorted pair_leb m = m) as Hid.
  { intros V' m Hm. apply py_sorted_id. rewrite <- Hm in Hs, Hn. by apply names_in_order. }
  split; [|apply Hid, named_keys]. rewrite dict_of_nodup by by rewrite Hk.
  rewrite sorted_json_obj, Hid by done. f_equal. clear. induction l as [|[k v] l IH]; [done|]. cbn in *. by rewrite IH.
Qed.

Lemma named_read (read : string * json -> result (string * V)) l :
  (forall kv, kv ∈ l -> read (kv.1, sorted_json (g kv.2)) = Ok kv) -> read_all read (named l) = Ok l.
Proof.
  intros H. unfold named. rewrite (read_all_map read _ id); [by rewrite map_id|]. intros kv Hkv. by apply H.
Qed.

Lemma pairs_json_ok (l : list (string * V)) label names :
  validate_pairs l label = Ok names -> (forall v, json_ok (g v)) -> json_ok (JObj (dict_of (prod_map id g <$> l))).
Proof.
  intros [_ Hn]%validate_pairs_sorted Hg.
  pose proof (value_keys l) as Hk.
  rewrite dict_of_nodup by by rewrite Hk. apply json_ok_obj; [by rewrite Hk; apply has_dup_false|].
  apply Forall_fmap, Forall_forall. intros kv _. apply Hg.
Qed.
End Pairs.

Lemma string_pairs_read l label wanted names :
  validate_pairs l label = Ok names -> string_pairs (sorted_json (json_pairs l)) wanted = Ok l.
Proof.
  intros H. unfold json_pairs. destruct (pairs_object JStr l label names H) as [-> _]. unfold string_pairs. cbn [mapping mbind result_bind].
  rewrite (named_read JStr); [|by intros [k v] _]. cbn [mbind result_bind].
  apply validate_pairs_sorted in H as [Hs Hn]. rewrite py_sorted_id; [done|]. apply names_in_order; [|done..].
  intros a b Hab Hne. unfold pair_text_leb, lex_leb. rewrite Hab. cbn.
  destruct (str_leb b.1 a.1) eqn:E; [|done]. destruct Hne. by apply str_leb_antisym.
Qed.

Lemma secret_reference_read r :
  SecretReference_post_init r = Ok tt -> read_secret_reference (sorted_json (SecretReference_dict r)) = Ok r.
Proof.
  intros H. unfold read_secret_reference, SecretReference_dict. rewrite !mapping_sorted. cbn [mbind result_bind].
  do 2 (get get_string_sorted). by destruct r; apply checked_ok.
Qed.

Lemma secret_bindings_read l label names :
  validate_pairs l label = Ok names ->
  Forall (fun b : string * SecretReference => SecretReference_post_init b.2 = Ok tt) l ->
  read_secret_bindings (sorted_fields (dict_of (prod_map id SecretReference_dict <$> l))) = Ok l.
Proof.
  intros H Hl. destruct (pairs_object SecretReference_dict l label names H) as [Hj Hs].
  rewrite sorted_json_obj in Hj. unfold sorted_fields. injection Hj as ->.
  unfold read_secret_bindings. rewrite Hs, (named_read SecretReference_dict).
  - cbn [mbind result_bind]. unfold named. by rewrite length_map, Nat.eqb_refl.
  - intros kv Hk. rewrite Forall_forall in Hl. cbn [fst snd]. rewrite secret_reference_read by by apply Hl.
    by destruct kv.
Qed.

(** ** Templates *)

Record template_names (t : ExecutionTemplate) : Prop := {
  ta_environment : exists l n, validate_pairs (et_environment t) l = Ok n;
  ta_secrets : exists l n, validate_pairs (et_secret_bindings t) l = Ok n;
  ta_labels : exists l n, validate_pairs (et_labels t) l = Ok n;
  ta_extensions : exists l n, validate_pairs (et_extensions t) l = Ok n;
  ta_network : exists l n, validate_pairs (np_extensions (et_network t)) l = Ok n;
}.

Lemma template_value_names t : template_value t -> template_names t.
Proof.
  intros [Hp _ _ _ Hn _]. unfold ExecutionTemplate_post_init in Hp. unfold NetworkPlacement_post_init in Hn.
  repeat (apply bind_ok in Hp; destruct Hp as (? & ? & Hp)). apply bind_ok in Hn as (? & ? & _).
  split; do 2 eexists; eassumption.
Qed.

Lemma sub_object_sorted l k m :
  has_dup (map fst l) = false -> assoc k l = Some (JObj m) -> sub_object k (sorted_fields l) = Ok (sorted_fields m).
Proof. intros Hd H. unfold sub_object. rewrite (field_sorted _ _ _ Hd H). apply mapping_sorted. Qed.
Lemma labelled_string_sorted l k label s :
  has_dup (map fst l) = false -> assoc k l = Some (JStr s) -> labelled_string k label (sorted_fields l) = Ok s.
Proof. intros Hd H. unfold labelled_string. by rewrite (field_sorted _ _ _ Hd H). Qed.

(** The fields of an object, for [get]. *)
Definition object_fields (v : json) : list (string * json) := match v with JObj l => l | _ => [] end.

Lemma resources_read r : ResourceProjection_post_init r = Ok tt ->
  read_resources (sorted_fields (object_fields (ResourceProjection_dict r))) = Ok r.
Proof.
  intros H. unfold read_resources. cbn [object_fields ResourceProjection_dict].
  do 2 (get get_integer_sorted). get get_optional_integer_sorted. do 3 (get get_integer_sorted). by destruct r; apply checked_ok.
Qed.

Lemma schedule_read s : ScheduleProjection_post_init s = Ok tt ->
  read_schedule (sorted_fields (object_fields (ScheduleProjection_dict s))) = Ok s.
Proof.
  intros H. unfold read_schedule. cbn [object_fields ScheduleProjection_dict].
  do 2 (get get_integer_sorted). do 2 (get get_optional_string_sorted). get get_boolean_sorted. by destruct s; apply checked_ok.
Qed.

Lemma observability_read o : ObservabilityProjection_post_init o = Ok tt ->
  read_observability (sorted_fields (object_fields (ObservabilityProjection_dict o))) = Ok o.
Proof.
  intros H. unfold read_observability. cbn [object_fields ObservabilityProjection_dict].
  do 2 (get get_string_sorted). get get_optional_string_sorted. get get_optional_integer_sorted. by destruct o; apply checked_ok.
Qed.

(** Reads one key that holds pairs. *)
Ltac get_pairs H := eapply bind_get;
  [eapply get_object_sorted; [vm_compute; reflexivity|reflexivity|];
   destruct H as (? & ? & H); eapply string_pairs_read; exact H|cbv beta].

Lemma network_read n l names : NetworkPlacement_post_init n = Ok tt -> validate_pairs (np_extensions n) l = Ok names ->
  read_network (sorted_fields [("placement", jopt JStr (np_placement n)); ("extensions", json_pairs (np_extensions n))]) = Ok n.
Proof.
  intros H Hn. unfold read_network. get get_optional_string_sorted.
  eapply bind_get; [eapply get_object_sorted; [vm_compute; reflexivity|reflexivity|by eapply string_pairs_read]|cbv beta].
  by destruct n; apply checked_ok.
Qed.

Lemma template_read t : template_value t -> execution_template (sorted_json (as_dict t)) = Ok t.
Proof.
  intros Ht. destruct (template_value_names t Ht) as [He Hs Hl Hx Hn], Ht as [Hp Hsec Hr Hsch Hnet Hobs].
  unfold execution_template, as_dict. rewrite mapping_sorted. eapply bind_get; [reflexivity|cbv beta].
  do 5 (get sub_object_sorted).
  eapply bind_get; [destruct Hs as (? & ? & Hs); by eapply secret_bindings_read|cbv beta].
  do 2 (get labelled_string_sorted). do 4 (get get_string_sorted).
  eapply bind_get; [eapply get_object_sorted; [vm_compute; reflexivity|reflexivity|apply string_tuple_strings]|cbv beta].
  get get_string_sorted. get_pairs He. get get_string_sorted.
  eapply bind_get; [by apply resources_read|cbv beta]. eapply bind_get; [by apply schedule_read|cbv beta].
  eapply bind_get; [destruct Hn as (? & ? & Hn); by eapply network_read|cbv beta].
  get_pairs Hl. eapply bind_get; [by apply observability_read|cbv beta]. get_pairs Hx.
  by destruct t; apply checked_ok.
Qed.

Lemma pairs_ok l label names : validate_pairs l label = Ok names -> json_ok (json_pairs l).
Proof. intros H. by eapply (pairs_json_ok JStr). Qed.

Lemma optional_printed o : (forall n, o = Some n -> printable n) -> json_ok (jopt JInt o).
Proof. intros H. apply json_ok_jopt. exact H. Qed.

Lemma optional_text o : json_ok (jopt JStr o).
Proof. by apply json_ok_jopt. Qed.

(** The members of a concrete object, one by one. *)
Ltac json_members :=
  apply json_ok_obj; [vm_compute; reflexivity|]; repeat (apply Forall_cons; split); cbn [snd]; try apply Forall_nil_2;
  try exact I; try apply json_ok_strings; try apply optional_text; try assumption; try (apply optional_printed; assumption).

Lemma template_json_ok t : template_value t -> template_printable t -> json_ok (as_dict t).
Proof.
  intros Ht Hp. destruct (template_value_names t Ht) as [(? & ? & He) (? & ? & Hs) (? & ? & Hl) (? & ? & Hx) (? & ? & Hn)], Hp.
  unfold as_dict. json_members; try (by eapply pairs_ok).
  - eapply pairs_json_ok; [exact Hs|]. intros s. unfold SecretReference_dict. json_members.
  - unfold ResourceProjection_dict. json_members.
  - unfold ScheduleProjection_dict. json_members.
  - json_members. by eapply pairs_ok.
  - unfold ObservabilityProjection_dict. json_members.
Qed.

(** ** The plan *)

Definition plan_schema (p : ExecutionPlan) : string :=
  if ep_physical_plan p is Some _ then EXECUTION_PLAN_SCHEMA else EXECUTION_PLAN_SCHEMA_V1.
Definition plan_fields (p : ExecutionPlan) : list (string * json) :=
  execution_plan_payload p ++ match ep_physical_plan p with Some q => [("physical_plan", serialized_json q)] | None => [] end.
Definition plan_contents (p : ExecutionPlan) : list (string * json) :=
  [("schema", JStr (plan_schema p)); ("plan", JObj (plan_fields p))].
Definition plan_envelope (p : ExecutionPlan) : list (string * json) :=
  [("schema", JStr (plan_schema p)); ("revision", JStr (revision p)); ("plan", JObj (plan_fields p))].

Lemma contents_text p : canonical_execution_plan_contents p = encode (dumps_unicode (JObj (plan_contents p))).
Proof.
  unfold canonical_execution_plan_contents, plan_contents, plan_schema, plan_fields.
  destruct (ep_physical_plan p); [done|by rewrite app_nil_r].
Qed.

Lemma plan_fields_distinct p : has_dup (map fst (plan_fields p)) = false.
Proof. unfold plan_fields. destruct (ep_physical_plan p); vm_compute; reflexivity. Qed.

Lemma retry_codes_printable r : RetryPolicy_post_init r = Ok tt -> Forall (fun n => 0 <= n <= 255) (rt_retryable_exit_codes r).
Proof.
  unfold RetryPolicy_post_init, contract_reject. intros [_ H]%seq_ok. apply reject_if_tt in H.
  apply orb_false_iff in H as [_ H]. rewrite Forall_forall. intros n Hn.
  destruct (decide (0 <= n <= 255)); [done|]. exfalso. apply not_true_iff_false in H. apply H, existsb_exists. exists n.
  split; [by apply list_elem_of_In|]. apply negb_true_iff, andb_false_iff. rewrite !Z.leb_gt. lia.
Qed.

Lemma plan_fields_ok p : plan_value p -> plan_printable p -> json_ok (JObj (plan_fields p)).
Proof.
  intros [Hp Ht Hr Hq] [Hpt Hd Ha]. apply json_ok_obj; [apply plan_fields_distinct|]. apply Forall_app. split.
  - unfold execution_plan_payload. repeat (apply Forall_cons; split); cbn [snd]; try exact I; [by apply template_json_ok|done| |by constructor].
    json_members. apply json_ok_arr, Forall_fmap. eapply Forall_impl; [by apply retry_codes_printable|].
    intros n [? ?]. apply json_ok_bounded. lia.
  - destruct (ep_physical_plan p) as [q|]; [|constructor]. apply Forall_singleton. apply physical_plan_json_ok. by apply Hq.
Qed.

(** Canonical text does not depend on how a nested value is ordered. *)
Lemma canonical_nested l : json_ok (JObj l) ->
  canonical_json (JObj (map (fun kv => (kv.1, sorted_json kv.2)) l)) = canonical_json (JObj l).
Proof.
  intros [_ H]. rewrite (foldr_and (fun kv : string * json => json_ok kv.2)) in H.
  unfold canonical_json, dumps_unicode. rewrite !dumps_obj, py_sorted_values, map_map. do 4 f_equal.
  apply map_ext_in. intros [k v] Hv%list_elem_of_In. rewrite py_sorted_perm in Hv. rewrite Forall_forall in H.
  unfold member_text. cbn [fst snd]. by rewrite (dumps_sorted false v (H (k, v) Hv)).
Qed.

Local Opaque revision.

Lemma plan_envelope_ok p : plan_value p -> plan_printable p -> json_ok (JObj (plan_envelope p)).
Proof. intros Hp Hn. pose proof (plan_fields_ok p Hp Hn). unfold plan_envelope. json_members. Qed.

Lemma serialize_plan_ok p : plan_value p -> plan_printable p ->
  serialize_execution_plan p = Ok (canonical_json (JObj (plan_envelope p))).
Proof.
  intros Hp Hn. pose proof (plan_fields_ok p Hp Hn) as Hf. unfold serialize_execution_plan.
  rewrite contents_text, json_loads_canonical.
  2:{ unfold plan_contents. json_members. }
  cbn [mbind result_bind]. rewrite mapping_sorted. cbn [mbind result_bind]. unfold plan_contents at 1 2.
  do 2 (erewrite field_sorted; [|vm_compute; reflexivity|reflexivity]; cbn [mbind result_bind]). f_equal.
  exact (canonical_nested (plan_envelope p) (plan_envelope_ok p Hp Hn)).
Qed.

Lemma retry_read r : RetryPolicy_post_init r = Ok tt ->
  retry_policy (sorted_json (JObj [("max_attempts", JInt (rt_max_attempts r));
    ("retryable_exit_codes", JArr (JInt <$> rt_retryable_exit_codes r))])) = Ok r.
Proof.
  intros H. unfold retry_policy. rewrite mapping_sorted. eapply bind_get; [reflexivity|cbv beta].
  get field_sorted. eapply bind_get; [reflexivity|cbv beta]. get get_integer_sorted.
  eapply (bind_get _ _ (rt_retryable_exit_codes r)); [|cbv beta; destruct r; by apply checked_ok].
  induction (rt_retryable_exit_codes r) as [|n l IH]; [done|]. cbn in *. by rewrite IH.
Qed.

Lemma physical_field_read q : physical_plan_value q -> Z.of_nat (length (serialize_physical_plan q)) <= MAX_PLAN_BYTES ->
  deserialize_physical_plan (canonical_json (sorted_json (serialized_json q))) = Ok q.
Proof.
  intros Hq Hlen. unfold canonical_json, dumps_unicode. rewrite dumps_sorted by by apply physical_plan_json_ok.
  by apply physical_plan_read.
Qed.

Lemma read_physical_sorted p : plan_value p ->
  read_physical_plan (plan_schema p) (sorted_fields (plan_fields p)) = Ok (ep_physical_plan p).
Proof.
  intros [_ _ _ Hq]. unfold read_physical_plan, plan_schema, plan_fields. destruct (ep_physical_plan p) as [q|]; [|done].
  rewrite bool_decide_true by done. get field_sorted. destruct (Hq q eq_refl).
  eapply bind_get; [by apply physical_field_read|done].
Qed.

(** Reads one key of a plan. *)
Ltac get_plan lem := eapply bind_get;
  [eapply lem; [apply plan_fields_distinct|unfold plan_fields; destruct (ep_physical_plan _); reflexivity|..]|cbv beta].

Lemma plan_read p : plan_value p -> read_execution_plan (plan_schema p) (sorted_fields (plan_fields p)) = Ok p.
Proof.
  intros Hp. pose proof (read_physical_sorted p Hp) as Hphys. destruct Hp as [Hp Ht Hr _]. unfold read_execution_plan.
  do 9 (get_plan get_string_sorted). get_plan get_object_sorted; [by apply template_read|].
  get_plan get_integer_sorted. get_plan get_object_sorted; [by apply retry_read|].
  eapply bind_get; [exact Hphys|cbv beta]. get_plan get_string_sorted. apply checked_ok; by destruct p.
Qed.

Lemma plan_reads p data : plan_value p -> plan_printable p -> serialize_execution_plan p = Ok data ->
  Z.of_nat (length data) <= MAX_EXECUTION_PLAN_BYTES -> deserialize_execution_plan data = Ok p.
Proof.
  intros Hp Hn Hs Hlen. pose proof (serialize_plan_ok p Hp Hn) as Hdata. rewrite Hs in Hdata. injection Hdata as Hdata.
  unfold deserialize_execution_plan. apply reading_ok. eapply bind_get.
  { rewrite Hdata. apply (envelope_sorted _ (plan_schema p)).
    - exact (plan_envelope_ok p Hp Hn).
    - vm_compute; reflexivity.
    - reflexivity.
    - unfold plan_schema. destruct (ep_physical_plan p); repeat constructor.
    - by rewrite Hdata in Hlen. }
  cbv beta. eapply bind_get; [eapply get_schema_sorted; [vm_compute; reflexivity|reflexivity]|cbv beta].
  eapply bind_get.
  { eapply bind_get; [eapply field_sorted; [vm_compute; reflexivity|reflexivity]|cbv beta]. apply mapping_sorted. }
  cbv beta. eapply bind_get; [by apply plan_read|cbv beta]. get get_string_sorted.
  rewrite bool_decide_true by done. eapply (bind_get _ _ tt); [done|cbv beta].
  eapply bind_get; [exact Hs|cbv beta]. eapply (bind_get _ _ tt); [by apply require_canonical_ok|done].
Qed.

(** ** What reading can return, and what it can raise *)

Lemma value_caught {A} c (r : result A) : exn_subclass c ValueError = true -> only c r -> raises caught r.
Proof.
  intros Hc. apply raises_impl. intros [d m a]. unfold caught, catches. cbn [exn_cls]. intros H.
  assert (exn_subclass d ValueError = true) as ->; [|by rewrite orb_true_r].
  destruct c; try discriminate Hc; destruct d; vm_compute in H |- *; congruence.
Qed.

Ltac projection_tac := apply (value_caught ExecutionProjectionError); [reflexivity|]; unfold validate_pairs; only_tac.

Lemma secret_post_caught s : raises caught (SecretReference_post_init s).
Proof. unfold SecretReference_post_init. projection_tac. Qed.
Lemma resources_post_caught r : raises caught (ResourceProjection_post_init r).
Proof. unfold ResourceProjection_post_init. projection_tac. Qed.
Lemma schedule_post_caught s : raises caught (ScheduleProjection_post_init s).
Proof. unfold ScheduleProjection_post_init. projection_tac. Qed.
Lemma network_post_caught n : raises caught (NetworkPlacement_post_init n).
Proof. unfold NetworkPlacement_post_init. projection_tac. Qed.
Lemma observability_post_caught o : raises caught (ObservabilityProjection_post_init o).
Proof. unfold ObservabilityProjection_post_init. projection_tac. Qed.
Lemma template_post_caught t : raises caught (ExecutionTemplate_post_init t).
Proof. unfold ExecutionTemplate_post_init. projection_tac. Qed.
Lemma retry_post_caught r : raises caught (RetryPolicy_post_init r).
Proof. apply contract_caught. unfold RetryPolicy_post_init. unfold_requires. only_tac. Qed.
Lemma plan_post_caught p : raises caught (ExecutionPlan_post_init p).
Proof.
  apply contract_caught. unfold ExecutionPlan_post_init, check_physical_plan. unfold_requires. only_tac.
  destruct (ep_physical_plan p) as [q|]; only_tac. by rewrite serialized_text_eq.
Qed.

Lemma checked_caught {A} (post_init : A -> result unit) a : raises caught (post_init a) -> raises caught (checked post_init a).
Proof. intros H. by apply raises_bind. Qed.
Lemma read_all_caught {A B} (f : A -> result B) l : (forall x, raises caught (f x)) -> raises caught (read_all f l).
Proof. intros H. induction l as [|x l IH]; [done|]. cbn. apply raises_bind; [done|intros y _]. by apply raises_bind. Qed.
Lemma sequence_caught v label : raises caught (sequence SerErr v label).
Proof. by destruct v. Qed.

#[local] Hint Resolve checked_caught read_all_caught secret_post_caught resources_post_caught schedule_post_caught network_post_caught
  observability_post_caught template_post_caught retry_post_caught plan_post_caught sequence_caught : core.

Lemma string_pairs_caught v label : raises caught (string_pairs v label).
Proof. unfold string_pairs. caught_tac. apply read_all_caught. intros x. caught_tac. Qed.

Lemma secret_bindings_caught l : raises caught (read_secret_bindings l).
Proof.
  unfold read_secret_bindings. caught_tac. apply read_all_caught. intros x. unfold read_secret_reference. caught_tac. auto.
Qed.

#[local] Hint Resolve string_pairs_caught secret_bindings_caught : core.

Lemma template_caught v : raises caught (execution_template v).
Proof.
  unfold execution_template, sub_object, labelled_string, string_tuple, read_resources, read_schedule, read_network, read_observability.
  caught_tac; auto. apply read_all_caught. intros x. caught_tac.
Qed.

Lemma retry_caught v : raises caught (retry_policy v).
Proof. unfold retry_policy. caught_tac; try done; auto. apply read_all_caught. intros x. caught_tac. Qed.

(** The same for the physical plan, whose reader raises its own class. *)
Ltac physical_step :=
  lazymatch goal with
  | |- raises _ (plan_reject ?b _) => by destruct b
  | |- raises _ (mapping PhysicalPlanError ?v _) => by destruct v
  | |- raises _ (string_ PhysicalPlanError ?v _) => by destruct v
  | |- raises _ (integer PhysicalPlanError ?v _) => by destruct v
  | |- raises _ (sequence PhysicalPlanError ?v _) => by destruct v
  | |- raises _ (read_all _ _) => apply read_all_caught; intros ?
  | |- raises _ (physical_strings _ _) => unfold physical_strings
  | |- raises _ (new_stage _) => apply checked_caught, (value_caught PhysicalPlanError); [reflexivity|]
  | |- raises _ (new_exchange _) => apply checked_caught, (value_caught PhysicalPlanError); [reflexivity|]
  | |- raises _ (new_plan _) => apply checked_caught, (value_caught PhysicalPlanError), plan_post_init_only; reflexivity
  | |- _ => caught_step
  end.

Lemma physical_enum_caught {A} (members : list A) value v label : raises caught (physical_enum members value v label).
Proof. unfold physical_enum, enum_or. destruct v; try done. cbn. by destruct (find _ members). Qed.

Lemma physical_stage_caught v : raises caught (physical_stage v).
Proof. unfold physical_stage. repeat physical_step. all: try done. all: unfold PhysicalStage_post_init, require_portable_id, plan_reject; only_tac. Qed.

Lemma physical_exchange_caught v : raises caught (physical_exchange v).
Proof.
  unfold physical_exchange. repeat (first [apply physical_enum_caught | physical_step]). all: try done.
  all: unfold PhysicalExchange_post_init, require_portable_id, plan_reject; only_tac.
  all: destruct (pe_partitioning _); only_tac.
Qed.

Lemma physical_plan_caught data : raises caught (deserialize_physical_plan data).
Proof.
  unfold deserialize_physical_plan. apply raises_bind; [by destruct (_ || _)|intros _ _].
  match goal with |- raises _ (reading _ _ ?r) => assert (raises caught r) as H end.
  { repeat (first [apply physical_enum_caught | apply physical_stage_caught | apply physical_exchange_caught | physical_step]). }
  destruct (_ ≫= _) as [|e] in H |- *; [done|]. unfold reading. destruct (catches PhysicalPlanError e); [done|].
  unfold caught, raises in H. by rewrite H.
Qed.

Lemma plan_fields_caught schema l : raises caught (read_execution_plan schema l).
Proof.
  unfold read_execution_plan, read_physical_plan.
  caught_tac; auto using template_caught, retry_caught, physical_plan_caught.
Qed.

Lemma serialize_plan_caught p : raises caught (serialize_execution_plan p).
Proof. unfold serialize_execution_plan. caught_tac. Qed.

Lemma execution_plan_raises data : only SerErr (deserialize_execution_plan data).
Proof.
  unfold deserialize_execution_plan. apply reading_raises. apply raises_bind; [apply load_envelope_caught|intros l _].
  caught_tac; auto using plan_fields_caught, serialize_plan_caught.
Qed.

(** What a plan that was read has passed. *)
Lemma checked_is {A} (post_init : A -> result unit) a b : checked post_init a = Ok b -> post_init b = Ok tt /\ b = a.
Proof. unfold checked. by intros [H [= <-]]%seq_ok. Qed.
Local Opaque checked.

Ltac to_checked H := repeat (apply bind_ok in H; destruct H as (? & ? & H)).

Lemma resources_checked l r : read_resources l = Ok r -> ResourceProjection_post_init r = Ok tt.
Proof. unfold read_resources. intros H. to_checked H. by apply checked_inv in H. Qed.
Lemma schedule_checked l s : read_schedule l = Ok s -> ScheduleProjection_post_init s = Ok tt.
Proof. unfold read_schedule. intros H. to_checked H. by apply checked_inv in H. Qed.
Lemma network_checked l n : read_network l = Ok n -> NetworkPlacement_post_init n = Ok tt.
Proof. unfold read_network. intros H. to_checked H. by apply checked_inv in H. Qed.
Lemma observability_checked l o : read_observability l = Ok o -> ObservabilityProjection_post_init o = Ok tt.
Proof. unfold read_observability. intros H. to_checked H. by apply checked_inv in H. Qed.
Lemma retry_checked v r : retry_policy v = Ok r -> RetryPolicy_post_init r = Ok tt.
Proof. unfold retry_policy. intros H. to_checked H. by apply checked_inv in H. Qed.
Lemma secrets_checked l bs : read_secret_bindings l = Ok bs ->
  Forall (fun b : string * SecretReference => SecretReference_post_init b.2 = Ok tt) bs.
Proof.
  unfold read_secret_bindings. intros (bs' & Hb & H)%bind_ok. apply seq_ok in H as [_ [= <-]].
  eapply read_all_forall; [|exact Hb]. intros kv b (r & Hr & [= <-])%bind_ok. cbn. unfold read_secret_reference in Hr.
  to_checked Hr. by apply checked_inv in Hr.
Qed.

Lemma template_checked v t : execution_template v = Ok t -> template_value t.
Proof.
  unfold execution_template. intros H. to_checked H. apply checked_is in H as [Hp ->].
  split; cbn [et_secret_bindings et_resources et_schedule et_network et_observability]; try done;
    eauto using secrets_checked, resources_checked, schedule_checked, network_checked, observability_checked.
Qed.

Lemma physical_checked schema l q : read_physical_plan schema l = Ok (Some q) ->
  physical_plan_value q /\ Z.of_nat (length (serialize_physical_plan q)) <= MAX_PLAN_BYTES.
Proof.
  unfold read_physical_plan. destruct (bool_decide _); [|done]. intros (v & _ & H)%bind_ok. apply bind_ok in H as (q' & H & [= <-]).
  apply physical_plan_codec in H as (Hq & <- & Hlen). done.
Qed.

Lemma plan_checked schema l p : read_execution_plan schema l = Ok p -> plan_value p.
Proof.
  unfold read_execution_plan. intros H. to_checked H. apply checked_is in H as [Hp ->].
  split; cbn [ep_execution_template ep_retry_policy ep_physical_plan]; try done.
  - match goal with H : (v ← field "execution_template" l; _) = _ |- _ => apply bind_ok in H as (? & _ & H) end.
    by eapply template_checked.
  - match goal with H : (v ← field "retry_policy" l; _) = _ |- _ => apply bind_ok in H as (? & _ & H) end.
    by eapply retry_checked.
  - intros q ->. by eapply physical_checked.
Qed.

(** C10: the stored form of execution plans is exact.  A valid plan of an
    admissible size reads back as itself, template, retry policy and physical
    plan included; whatever the reader accepts passed every constructor, carries
    the revision of its contents and is the canonical text of the plan it
    returns, so a changed plan or a changed revision is refused; and every
    refusal is an [OrchestrationSerializationError]. *)
Theorem execution_plan_codec :
  (forall p data, plan_value p -> plan_printable p -> serialize_execution_plan p = Ok data ->
     Z.of_nat (length data) <= MAX_EXECUTION_PLAN_BYTES -> deserialize_execution_plan data = Ok p) /\
  (forall data, match deserialize_execution_plan data with
                | Ok p => plan_value p /\ serialize_execution_plan p = Ok data /\
                          Z.of_nat (length data) <= MAX_EXECUTION_PLAN_BYTES
                | Raise e => catches OrchestrationSerializationError e = true
                end).
Proof.
  split; [intros p data; apply plan_reads|]. intros data. pose proof (execution_plan_raises data) as He.
  destruct (deserialize_execution_plan data) as [p|e] eqn:E; [|exact He].
  unfold deserialize_execution_plan in E. apply reading_ok_inv in E.
  apply bind_ok in E as (l & Hl & E). apply load_envelope_size in Hl as [_ Hl].
  do 7 (apply bind_ok in E; destruct E as (? & ? & E)). injection E as <-.
  match goal with H : require_canonical _ _ = _ |- _ => apply require_canonical_ok in H as -> end.
  split_and!; [by eapply plan_checked|done..].
Qed.

(** The sample plan bound to its physical plan. *)
Definition bound_template : ExecutionTemplate :=
  match bind_physical_plan sample_template sample_physical_plan with Ok t => t | Raise _ => sample_template end.
Definition bound_plan : ExecutionPlan :=
  {| ep_plan_id := "nightly"; ep_environment := "prod"; ep_project := "shop"; ep_graph := "orders";
     ep_graph_revision := "1"; ep_graph_content_sha256 := zero_sha256; ep_backend_id := "cloud_run";
     ep_profile_id := "small"; ep_image := et_image sample_template; ep_execution_template := bound_template;
     ep_deadline_seconds := 600; ep_retry_policy := {| rt_max_attempts := 2; rt_retryable_exit_codes := [75] |};
     ep_physical_plan := Some sample_physical_plan; ep_schema := ORCHESTRATION_SCHEMA |}.
Definition bound_bytes : list Z := match serialize_execution_plan bound_plan with Ok data => data | Raise _ => [] end.

Lemma bound_plan_value : plan_value bound_plan.
Proof.
  split; [vm_compute; reflexivity| |vm_compute; reflexivity|].
  - split; [vm_compute; reflexivity|constructor|vm_compute; reflexivity..].
  - intros q [= <-]. split; [|vm_compute; discriminate]. split; [vm_compute; reflexivity| |constructor].
    constructor; [vm_compute; reflexivity|constructor].
Qed.

Lemma bound_plan_printable : plan_printable bound_plan.
Proof.
  split; [split|..]; lazymatch goal with
  | |- forall n, _ -> _ => intros n Hn; vm_compute in Hn; discriminate Hn
  | |- printable _ => vm_compute; reflexivity
  end.
Qed.

Lemma execution_plan_codec_witness :
  serialize_execution_plan bound_plan = Ok bound_bytes /\ deserialize_execution_plan bound_bytes = Ok bound_plan.
Proof.
  split; [vm_compute; reflexivity|].
  refine (proj1 execution_plan_codec bound_plan bound_bytes bound_plan_value bound_plan_printable _ _).
  - vm_compute. reflexivity.
  - vm_compute. discriminate.
Defined.
