(* ===== verification/RunTransition.v ===== *)
(** * Run transitions ([control/orchestration.py], [transition_run])

    The one function that changes a run snapshot, the preorder its results
    respect, and what that preorder rules out over whole histories. *)

From S2P Require Import Prelude Regex PyStr Sha256 PyTime Json Identifiers Projection Dfs PhysicalPlan Graph GraphOps PhysicalPlanner Orchestration RunCodec.

Local Open Scope string_scope.
Local Open Scope Z_scope.
Local Open Scope list_scope.

(** The table of [transition_run]. *)
Definition allowed (s : HostedRunState) : list HostedRunState :=
  match s with
  | QUEUED => [QUEUED; RUNNING; CANCELING; TERMINAL]
  | RUNNING => [RUNNING; RETRYING; CANCELING; TERMINAL]
  | RETRYING => [RETRYING; RUNNING; CANCELING; TERMINAL]
  | CANCELING => [CANCELING; TERMINAL]
  | TERMINAL => [TERMINAL]
  end.

Definition transition_error (b : bool) (m : string) : result unit := reject_if b RunTransitionError m.

Definition require_monotonic_outcome (previous current : RunOutcome) : result unit :=
  transition_error (negb (bool_decide (previous = UNKNOWN)) && negb (bool_decide (current = previous)))
    "run outcome cannot change after it is established".

Definition require_monotonic_results (previous current : ResultsState) : result unit :=
  transition_error (negb (bool_decide (previous = RESULTS_PENDING)) && negb (bool_decide (current = previous)))
    "run results state cannot regress or change terminal value".

Definition allowed_cleanup (s : CleanupState) : list CleanupState :=
  match s with
  | CLEANUP_PENDING => [CLEANUP_PENDING; CONFIRMED; UNCERTAIN]
  | UNCERTAIN => [UNCERTAIN; CONFIRMED]
  | CONFIRMED => [CONFIRMED]
  end.

Definition require_monotonic_cleanup (previous current : CleanupState) : result unit :=
  transition_error (negb (bool_decide (current ∈ allowed_cleanup previous))) "run cleanup state cannot regress".

(** The keyword arguments; [None] is an argument left out. *)
Record changes : Type := {
  ch_outcome : option RunOutcome;
  ch_results_state : option ResultsState;
  ch_cleanup_state : option CleanupState;
  ch_stage : option string;
  ch_attempt_count : option Z;
  ch_current_attempt_id : option string;
  ch_backend_handle : option BackendHandle;
  ch_result_summary : option ExecutionResultSummary;
}.
Definition no_changes : changes :=
  {| ch_outcome := None; ch_results_state := None; ch_cleanup_state := None; ch_stage := None;
     ch_attempt_count := None; ch_current_attempt_id := None; ch_backend_handle := None;
     ch_result_summary := None |}.

(** The snapshot [replace] builds; enum members, handles and summaries are
    truthy, so [a or b] takes [a] whenever it was given. *)
Definition updated (r : RunRecord) (run_state : HostedRunState) (now : datetime) (c : changes) : RunRecord :=
  {| rr_run_id := rr_run_id r; rr_environment := rr_environment r; rr_project := rr_project r;
     rr_graph := rr_graph r; rr_graph_revision := rr_graph_revision r;
     rr_graph_content_sha256 := rr_graph_content_sha256 r; rr_plan_id := rr_plan_id r;
     rr_plan_revision := rr_plan_revision r; rr_trigger := rr_trigger r;
     rr_idempotency_key_sha256 := rr_idempotency_key_sha256 r;
     rr_submission_sha256 := rr_submission_sha256 r; rr_requested_at := rr_requested_at r;
     rr_requested_deadline_seconds := rr_requested_deadline_seconds r;
     rr_run_state := run_state;
     rr_outcome := or_else (ch_outcome c) (rr_outcome r);
     rr_results_state := or_else (ch_results_state c) (rr_results_state r);
     rr_cleanup_state := or_else (ch_cleanup_state c) (rr_cleanup_state r);
     rr_created_at := rr_created_at r;
     rr_updated_at := now;
     rr_terminal_at :=
       (if bool_decide (run_state = TERMINAL) && is_none (rr_terminal_at r) then Some now else rr_terminal_at r);
     rr_stage := or_opt (ch_stage c) (rr_stage r);
     rr_attempt_count := or_else (ch_attempt_count c) (rr_attempt_count r);
     rr_current_attempt_id := or_opt (ch_current_attempt_id c) (rr_current_attempt_id r);
     rr_backend_handle := or_opt (ch_backend_handle c) (rr_backend_handle r);
     rr_result_summary := or_opt (ch_result_summary c) (rr_result_summary r);
     rr_placement_decision := rr_placement_decision r;
     rr_size_class_decision := rr_size_class_decision r |}.

Definition transition_run (r : RunRecord) (run_state : HostedRunState) (now : datetime) (c : changes)
    : result RunRecord :=
  _ ← require_utc now "transition time";
  _ ← transition_error (negb (bool_decide (run_state ∈ allowed (rr_run_state r))))
        ("run state cannot move from " +:+ run_state_value (rr_run_state r) +:+ " to " +:+ run_state_value run_state);
  let next_outcome := or_else (ch_outcome c) (rr_outcome r) in
  let next_results := or_else (ch_results_state c) (rr_results_state r) in
  let next_cleanup := or_else (ch_cleanup_state c) (rr_cleanup_state r) in
  let next_summary := or_opt (ch_result_summary c) (rr_result_summary r) in
  _ ← require_monotonic_outcome (rr_outcome r) next_outcome;
  _ ← require_monotonic_results (rr_results_state r) next_results;
  _ ← require_monotonic_cleanup (rr_cleanup_state r) next_cleanup;
  _ ← transition_error
        (is_some (rr_result_summary r) && negb (bool_decide (next_summary = rr_result_summary r)))
        "run execution-result summary cannot change after it is set";
  _ ← transition_error (bool_decide (next_results = AVAILABLE) && is_none next_summary)
        "available run results require an execution-result summary";
  new_run_record (updated r run_state now c).

(** ** The order on snapshots *)

Definition state_rank (s : HostedRunState) : nat :=
  match s with QUEUED => 0 | RUNNING | RETRYING => 1 | CANCELING => 2 | TERMINAL => 3 end.

(** [r'] is a later snapshot of the run of [r]: same identity, no regression in
    any of the independent dimensions. *)
Record evolves (r r' : RunRecord) : Prop := {
  ev_identity : run_identity r = run_identity r';
  ev_placement : rr_placement_decision r = rr_placement_decision r';
  ev_size : rr_size_class_decision r = rr_size_class_decision r';
  ev_state : (state_rank (rr_run_state r) <= state_rank (rr_run_state r'))%nat;
  ev_outcome : rr_outcome r <> UNKNOWN -> rr_outcome r' = rr_outcome r;
  ev_results : rr_results_state r <> RESULTS_PENDING -> rr_results_state r' = rr_results_state r;
  ev_cleanup : rr_cleanup_state r' ∈ allowed_cleanup (rr_cleanup_state r);
  ev_summary : rr_result_summary r <> None -> rr_result_summary r' = rr_result_summary r;
  ev_terminal_at : rr_terminal_at r <> None -> rr_terminal_at r' = rr_terminal_at r;
  ev_handle : rr_backend_handle r <> None -> rr_backend_handle r' <> None;
}.

Lemma allowed_cleanup_trans a b c : b ∈ allowed_cleanup a -> c ∈ allowed_cleanup b -> c ∈ allowed_cleanup a.
Proof. destruct a, b; cbn; set_solver. Qed.

#[export] Instance evolves_preorder : PreOrder evolves.
Proof.
  split.
  - intros r. split; try done. destruct (rr_cleanup_state r); cbn; set_solver.
  - intros r1 r2 r3 [] [].
    split; [congruence..|lia| | | | | |]; eauto using allowed_cleanup_trans;
      match goal with
      | H : ?a <> ?x -> ?b = ?a, H' : ?b <> ?x -> ?c = ?b |- ?a <> ?x -> ?c = ?a =>
          let h := fresh in intros h; rewrite H' by (rewrite H; auto); auto
      end.
Qed.

Lemma allowed_rank s t : t ∈ allowed s -> (state_rank s <= state_rank t)%nat.
Proof. destruct s, t; cbn; set_solver by lia. Qed.

Lemma kept_false {A} `{EqDecision A} (p c u : A) :
  negb (bool_decide (p = u)) && negb (bool_decide (c = p)) = false <-> (p <> u -> c = p).
Proof. repeat case_bool_decide; cbn; naive_solver. Qed.

(** When a transition is accepted, and what it returns. *)
Record transition_ok (r : RunRecord) (s : HostedRunState) (now : datetime) (c : changes) : Prop := {
  tk_utc : is_utc now = true;
  tk_state : s ∈ allowed (rr_run_state r);
  tk_outcome : rr_outcome r <> UNKNOWN -> rr_outcome (updated r s now c) = rr_outcome r;
  tk_results : rr_results_state r <> RESULTS_PENDING -> rr_results_state (updated r s now c) = rr_results_state r;
  tk_cleanup : rr_cleanup_state (updated r s now c) ∈ allowed_cleanup (rr_cleanup_state r);
  tk_summary : rr_result_summary r <> None -> rr_result_summary (updated r s now c) = rr_result_summary r;
  tk_available : rr_results_state (updated r s now c) = AVAILABLE -> rr_result_summary (updated r s now c) <> None;
  tk_valid : RunRecord_post_init (updated r s now c) = Ok tt;
}.

Lemma transition_run_iff r s now c r' :
  transition_run r s now c = Ok r' <-> transition_ok r s now c /\ r' = updated r s now c.
Proof.
  unfold transition_run, new_run_record, require_utc, contract_reject, transition_error, require_monotonic_outcome,
    require_monotonic_results, require_monotonic_cleanup, transition_error.
  rewrite !seq_ok, !reject_if_tt, !kept_false, !negb_bool_decide_false, negb_false_iff.
  assert (forall (x : option ExecutionResultSummary), is_some (rr_result_summary r) && negb (bool_decide
     (x = rr_result_summary r)) = false <-> (rr_result_summary r <> None -> x = rr_result_summary r)) as ->.
  { intros x. destruct (rr_result_summary r); cbn; [|naive_solver]. case_bool_decide; naive_solver. }
  assert (forall x (y : option ExecutionResultSummary), bool_decide (x = AVAILABLE) && is_none y = false
     <-> (x = AVAILABLE -> y <> None)) as ->.
  { intros x [y|]; case_bool_decide; cbn; naive_solver. }
  split.
  - intros (? & ? & ? & ? & ? & ? & ? & ? & [= <-]). split; [by split|done].
  - intros [[] ->]. by split_and!.
Qed.

Lemma updated_evolves r s now c : transition_ok r s now c -> evolves r (updated r s now c).
Proof.
  intros []. split; try done.
  - by apply allowed_rank.
  - cbn. intros H. destruct (rr_terminal_at r); [|done]. by rewrite andb_false_r.
  - cbn. destruct (ch_backend_handle c); cbn; [done|auto].
Qed.

(** A transition to well-formed values yields a well-formed record. *)
Record changes_value (c : changes) : Prop := {
  cv_attempts n : ch_attempt_count c = Some n -> printable n;
  cv_handle h : ch_backend_handle c = Some h -> BackendHandle_post_init h = Ok tt;
  cv_summary s : ch_result_summary c = Some s -> ExecutionResultSummary_post_init s = Ok tt;
}.

Lemma no_changes_value : changes_value no_changes.
Proof. by split. Qed.

Lemma updated_value r s now c :
  run_value r -> in_range now -> changes_value c -> RunRecord_post_init (updated r s now c) = Ok tt ->
  run_value (updated r s now c).
Proof.
  intros [Hp Ht (Hi1 & Hi2 & Hi3) Hterm Hd Ha Hh Hs Hpl Hz] Hnow [Ca Ch Cs] Hpost. split; try done.
  - intros t. cbn. destruct (_ && _); [by intros [= <-]|apply Hterm].
  - cbn. destruct (ch_attempt_count c); cbn; auto.
  - intros h. cbn. destruct (ch_backend_handle c); cbn; auto.
  - intros x. cbn. destruct (ch_result_summary c); cbn; auto.
Qed.

Lemma transition_run_only r s now c : only OrchestrationContractError (transition_run r s now c).
Proof.
  unfold transition_run, require_monotonic_outcome, require_monotonic_results, require_monotonic_cleanup,
    transition_error, new_run_record. unfold_requires. only_tac. apply run_post_init_only.
Qed.

(** An accepted transition of a well-formed run, in one step. *)
Lemma transition_value r s now c r' :
  run_value r -> in_range now -> changes_value c -> transition_run r s now c = Ok r' -> evolves r r' /\ run_value r'.
Proof.
  intros Hr Hn Hc [Hk ->]%transition_run_iff. split; [by apply updated_evolves|]. by apply updated_value; [..|apply Hk].
Qed.

(** C1: [transition_run] is monotone and keeps records valid: an accepted
    transition returns a record that [RunRecord] accepts, with the same
    submission identity, a state that does not move backwards, and an outcome,
    results state, summary, cleanup state and terminal time that never change
    once they are established. A rejected one raises [OrchestrationContractError]
    or its subclass [RunTransitionError]. *)
Theorem transition_run_monotone r s now c :
  match transition_run r s now c with
  | Ok r' => RunRecord_post_init r' = Ok tt /\ evolves r r'
  | Raise e => catches OrchestrationContractError e = true
  end.
Proof.
  destruct (transition_run r s now c) as [r'|e] eqn:E.
  - apply transition_run_iff in E as [H ->]. split; [apply H|by apply updated_evolves].
  - pose proof (transition_run_only r s now c) as H. by rewrite E in H.
Qed.

(** ** Histories *)

Definition step (r r' : RunRecord) : Prop := exists s now c, transition_run r s now c = Ok r'.

(** Snapshots a run can have, from the queued candidate of a submission on. *)
Inductive reachable : RunRecord -> Prop :=
  | reachable_queued sub r : create_run_record sub = Ok r -> reachable r
  | reachable_step r r' : reachable r -> step r r' -> reachable r'.

Lemma step_evolves r r' : step r r' -> evolves r r'.
Proof. intros (s & now & c & [H ->]%transition_run_iff). by apply updated_evolves. Qed.

Lemma history_evolves r r' : rtc step r r' -> evolves r r'.
Proof. induction 1 as [|r r1 r' H _ IH]; [done|]. etrans; [by apply step_evolves|done]. Qed.

Lemma reachable_history r r' : reachable r -> rtc step r r' -> reachable r'.
Proof. intros Hr. induction 1; eauto using reachable_step. Qed.

(** What validity says about the dimensions of a run. *)
Record dimensions (r : RunRecord) : Prop := {
  dm_terminal : rr_run_state r = TERMINAL <-> rr_terminal_at r <> None;
  dm_pending : rr_run_state r <> TERMINAL ->
    rr_outcome r = UNKNOWN /\ rr_results_state r = RESULTS_PENDING /\ rr_cleanup_state r = CLEANUP_PENDING;
  dm_running : rr_run_state r = RUNNING -> rr_backend_handle r <> None;
  dm_summary : rr_result_summary r <> None ->
    rr_run_state r = TERMINAL /\ rr_outcome r = SUCCEEDED /\ rr_results_state r = AVAILABLE;
  dm_attempts : 0 <= rr_attempt_count r /\ (rr_attempt_count r = 0 <-> rr_current_attempt_id r = None);
  dm_attempt_id a : rr_current_attempt_id r = Some a -> attempt_identity (rr_run_id r) (rr_attempt_count r) = Ok a;
  dm_times : instant (rr_created_at r) <= instant (rr_updated_at r);
}.

Lemma is_none_false {A} (o : option A) : is_none o = false <-> o <> None.
Proof. by destruct o. Qed.
Lemma is_some_false {A} (o : option A) : is_some o = false <-> o = None.
Proof. by destruct o. Qed.

Lemma post_init_dimensions r : RunRecord_post_init r = Ok tt -> dimensions r.
Proof.
  unfold RunRecord_post_init, contract_reject. rewrite !seq_ok, !reject_if_tt.
  intros (_ & _ & _ & _ & _ & _ & Hup & Hat & _ & Hcount & Hid & _ & _ & Hsum & _ & Hdim).
  unfold validate_run_dimensions, contract_reject in Hdim. rewrite seq_ok, reject_if_tt in Hdim.
  destruct Hdim as [Hdim Hrun].
  assert ((rr_run_state r = TERMINAL <-> rr_terminal_at r <> None) /\
    (rr_run_state r <> TERMINAL -> rr_outcome r = UNKNOWN /\ rr_results_state r = RESULTS_PENDING /\
       rr_cleanup_state r = CLEANUP_PENDING)) as [Ht Hp].
  { destruct (rr_run_state r);
      rewrite ?seq_ok, ?reject_if_tt, ?negb_bool_decide_false, ?is_none_false, ?is_some_false in Hdim; naive_solver. }
  split; try done.
  - intros Hr. rewrite Hr, bool_decide_eq_true_2 in Hrun by done. by apply is_none_false.
  - intros Hs. rewrite when_some_ok in Hsum. destruct (rr_result_summary r) as [s|]; [|done].
    specialize (Hsum s eq_refl). rewrite reject_if_tt, !orb_false_iff, !negb_bool_decide_false in Hsum. naive_solver.
  - apply Z.ltb_ge in Hat. split; [done|]. apply negb_false_iff, eqb_prop in Hcount.
    rewrite <- Z.eqb_eq, Hcount. by destruct (rr_current_attempt_id r).
  - intros a Ha. rewrite when_some_ok in Hid. specialize (Hid a Ha). apply bind_ok in Hid as (b & Hb & H).
    apply reject_if_tt, negb_bool_decide_false in H. congruence.
  - by apply Z.ltb_ge in Hup.
Qed.

Lemma reachable_facts r :
  reachable r ->
  RunRecord_post_init r = Ok tt /\ (rr_results_state r = AVAILABLE -> rr_result_summary r <> None).
Proof.
  intros [sub q H|q q' _ (s & now & c & [H ->]%transition_run_iff)].
  - unfold create_run_record, new_run_record in H. apply seq_ok in H as [H [= <-]]. by split.
  - split; apply H.
Qed.

(** C2: every snapshot a run can reach, from its creation through any sequence
    of accepted transitions, is a valid record; it has a terminal time exactly
    when it is terminal, no outcome, results or cleanup before that, a backend
    handle while running, a result summary exactly when results are available,
    and a current attempt identity that is the deterministic one for its count. *)
Theorem reachable_invariant r (Hr : reachable r) :
  RunRecord_post_init r = Ok tt /\ dimensions r /\
  (rr_results_state r = AVAILABLE <-> rr_result_summary r <> None).
Proof.
  destruct (reachable_facts r Hr) as [Hv Ha].
  pose proof (post_init_dimensions r Hv) as Hd. split_and!; [done|done|].
  split; [done|]. intros Hs. by apply (dm_summary _ Hd).
Qed.

Lemma needs_false r :
  run_needs_reconciliation r = false <->
  rr_run_state r = TERMINAL /\ rr_outcome r <> UNKNOWN /\ rr_results_state r <> RESULTS_PENDING /\
  rr_cleanup_state r = CONFIRMED.
Proof.
  unfold run_needs_reconciliation. rewrite !orb_false_iff, !negb_bool_decide_false, !bool_decide_eq_false. tauto.
Qed.

(** The truth a settled run holds. *)
Definition verdict (r : RunRecord) :=
  (rr_run_state r, rr_outcome r, rr_results_state r, rr_cleanup_state r, rr_result_summary r, rr_terminal_at r).

(** A settled run is final: once a reachable run no longer needs
    reconciliation, no sequence of transitions changes its state, outcome,
    results, cleanup, summary or terminal time, so it never needs reconciliation
    again. *)
Theorem settled_run_final r r' (Hr : reachable r) (Hn : run_needs_reconciliation r = false)
    (Hh : rtc step r r') :
  verdict r' = verdict r /\ run_needs_reconciliation r' = false.
Proof.
  pose proof (history_evolves _ _ Hh) as He.
  destruct (reachable_facts r Hr) as [Hd%post_init_dimensions Ha].
  destruct (reachable_facts r' (reachable_history _ _ Hr Hh)) as [Hd'%post_init_dimensions _].
  apply needs_false in Hn as (Hs & Ho & Hres & Hc).
  pose proof (ev_outcome _ _ He Ho) as Eo. pose proof (ev_results _ _ He Hres) as Er.
  pose proof (ev_cleanup _ _ He) as Ec. rewrite Hc in Ec. apply list_elem_of_singleton in Ec.
  pose proof (ev_state _ _ He) as Es. rewrite Hs in Es.
  assert (rr_run_state r' = TERMINAL) as Es' by (destruct (rr_run_state r'); cbn in Es; lia || done).
  assert (rr_terminal_at r' = rr_terminal_at r) as Et by by apply (ev_terminal_at _ _ He), (dm_terminal _ Hd).
  assert (rr_result_summary r' = rr_result_summary r) as Esum.
  { destruct (rr_result_summary r) as [s|] eqn:E; [by rewrite (ev_summary _ _ He) by by rewrite E|].
    destruct (rr_result_summary r') as [s'|] eqn:E'; [|done]. exfalso.
    destruct (dm_summary _ Hd') as (_ & _ & Hav); [by rewrite E'|]. apply Ha; [congruence|done]. }
  split; [unfold verdict; congruence|]. apply needs_false. split_and!; congruence.
Qed.

(** ** A run canceled before it started *)

Definition sample_run : RunRecord := queued_record sample_submission.
Definition cancel_changes : changes :=
  {| ch_outcome := Some CANCELED; ch_results_state := Some UNAVAILABLE; ch_cleanup_state := Some CONFIRMED;
     ch_stage := Some "canceled"; ch_attempt_count := None; ch_current_attempt_id := None;
     ch_backend_handle := None; ch_result_summary := None |}.
Definition sample_settled : RunRecord := updated sample_run TERMINAL (utc 1) cancel_changes.

Lemma sample_run_created : create_run_record sample_submission = Ok sample_run.
Proof. vm_compute. reflexivity. Qed.

Lemma sample_settled_step : transition_run sample_run TERMINAL (utc 1) cancel_changes = Ok sample_settled.
Proof. vm_compute. reflexivity. Qed.

Lemma sample_settled_reachable : reachable sample_settled.
Proof.
  eapply reachable_step; [eapply reachable_queued, sample_run_created|]. eexists _, _, _. apply sample_settled_step.
Qed.

Lemma reachable_invariant_witness : RunRecord_post_init sample_settled = Ok tt.
Proof. exact (proj1 (reachable_invariant sample_settled sample_settled_reachable)). Defined.

Lemma settled_run_final_witness :
  verdict (updated sample_settled TERMINAL (utc 2) no_changes) = verdict sample_settled.
Proof.
  assert (run_needs_reconciliation sample_settled = false) as Hn by (vm_compute; reflexivity).
  assert (transition_run sample_settled TERMINAL (utc 2) no_changes
          = Ok (updated sample_settled TERMINAL (utc 2) no_changes)) as Hs by (vm_compute; reflexivity).
  exact (proj1 (settled_run_final _ _ sample_settled_reachable Hn
    (rtc_once _ _ (ex_intro _ _ (ex_intro _ _ (ex_intro _ _ Hs)))))).
Defined.
