(* ===== verification/Contract.v ===== *)
(** * The durable store and the backends ([control/orchestration.py], the
    [RunStore] and [ExecutionBackend] protocols)

    The operations Control calls, as an interface over an arbitrary world [W],
    and what they promise about it.  The promise is stated on an abstract
    [view] of the world and allows for interference: between the call and the
    return of an operation other Control processes may have run, as long as
    they keep the same promises, and an operation that raises may or may not
    have taken effect.  Clients are verified against this interface. *)

From S2P Require Import Prelude Regex PyStr Sha256 PyTime Json Identifiers Projection PhysicalPlan Graph Orchestration RunCodec RunTransition.

Local Open Scope string_scope.
Local Open Scope Z_scope.
Local Open Scope list_scope.

(** ** Operations *)

(** [RunStore], with the extensions [PendingRunStore] (optional, hence the
    option) and [DurableMutationClaimStore] (required by the lifecycle). *)
Class RunStore (W : Type) : Type := {
  claim : RunRecord -> M W RunClaim;
  get : string -> M W (option StoredRun);
  find_idempotency : string -> string -> string -> M W (option StoredRun);
  save : StoredRun -> RunRecord -> M W StoredRun;
  append_attempt : AttemptRecord -> M W unit;
  list_runs : option string -> Z -> M W StoredRunPage;
  list_pending : option (option string -> Z -> M W StoredRunPage);
  claim_mutation : string -> string -> string -> list Z -> M W (list Z);
  close_store : M W unit;
}.

Record ExecutionBackend (W : Type) : Type := {
  submit_or_adopt : ExecutionPlan -> string -> string -> RunTrigger -> M W BackendHandle;
  observe : ExecutionPlan -> BackendHandle -> M W BackendObservation;
  logs : ExecutionPlan -> BackendHandle -> option string -> Z -> M W BackendLogPage;
  cancel_execution : ExecutionPlan -> BackendHandle -> M W unit;
  close_backend : M W unit;
}.
Arguments submit_or_adopt {W}.
Arguments observe {W}.
Arguments logs {W}.
Arguments cancel_execution {W}.
Arguments close_backend {W}.

(** ** The abstract view *)

Record view : Type := View {
  v_runs : gmap string RunRecord;                          (* the current snapshot of each run *)
  v_snapshots : list StoredRun;                            (* every snapshot ever committed *)
  v_attempts : gmap (string * string) AttemptRecord;       (* by run and attempt identity *)
  v_executions : gmap (string * string) BackendHandle;     (* provider executions, by the same key *)
  v_deliveries : gmap string (list Z);                     (* schedule messages ever delivered, by receipt *)
  v_acknowledged : list (list Z);                          (* schedule messages ever acknowledged *)
}.

(** [s] submits the scheduled occurrence that the message [body] announces. *)
Record announces (body : list Z) (w : ScheduleWakeup) (s : RunSubmission) : Prop := {
  an_body : deserialize_schedule_wakeup body = Ok w;
  an_plan : sb_plan_revision s = sw_plan_revision w;
  an_trigger : sb_trigger s = {| tg_kind := SCHEDULE; tg_trigger_id := sw_trigger_id w;
                                 tg_scheduled_occurrence := Some (sw_scheduled_occurrence w);
                                 tg_replay_of_run_id := None; tg_repair_window := None |};
  an_key : sb_idempotency_key s = schedule_occurrence_idempotency_key w;
}.

(** The occurrence has its durable run: the one such a submission identifies,
    with the fingerprint of that submission. *)
Definition handed_over (v : view) (body : list Z) : Prop :=
  exists w s r, announces body w s /\ v_runs v !! logical_run_identity s = Some r /\ rr_submission_sha256 r = fingerprint s.

(** Later views: runs evolve, snapshots and attempts are never lost or changed,
    a provider execution keeps its handle. *)
Record view_le (v v' : view) : Prop := {
  vl_runs i r : v_runs v !! i = Some r -> exists r', v_runs v' !! i = Some r' /\ evolves r r';
  vl_snapshots st : st ∈ v_snapshots v -> st ∈ v_snapshots v';
  vl_attempts : v_attempts v ⊆ v_attempts v';
  vl_executions : v_executions v ⊆ v_executions v';
  vl_deliveries : v_deliveries v ⊆ v_deliveries v';
  vl_acknowledged b : b ∈ v_acknowledged v -> b ∈ v_acknowledged v';
}.

#[export] Instance view_le_preorder : PreOrder view_le.
Proof.
  split.
  - intros v. split; try done. intros i r H. exists r. done.
  - intros v1 v2 v3 [R1 S1 A1 E1 D1 K1] [R2 S2 A2 E2 D2 K2]. split; [|auto|by etrans|by etrans|by etrans|auto].
    intros i r (r1 & H1 & L1)%R1. destruct (R2 i r1 H1) as (r2 & H2 & L2). exists r2. split; [done|by etrans].
Qed.

(** An attempt within the bounded policy of the plan it names. *)
Definition attempt_permitted (a : AttemptRecord) : Prop :=
  attempt_value a /\
  exists p, revision p = ar_plan_revision a /\ ar_attempt_number a <= rt_max_attempts (ep_retry_policy p).

Record view_ok (v : view) : Prop := {
  vo_runs i r : v_runs v !! i = Some r -> rr_run_id r = i /\ run_value r;
  vo_snapshots st : st ∈ v_snapshots v ->
    run_value (st_record st) /\
    exists r, v_runs v !! rr_run_id (st_record st) = Some r /\ evolves (st_record st) r;
  vo_attempts k a : v_attempts v !! k = Some a -> k = (ar_run_id a, ar_attempt_id a) /\ attempt_permitted a;
  vo_executions k : is_Some (v_executions v !! k) -> is_Some (v_attempts v !! k);
  vo_acknowledged b : b ∈ v_acknowledged v -> handed_over v b;
}.

(** ** Promises *)

Definition store_error (e : exn) : Prop :=
  catches RunStoreError e = true \/ catches OrchestrationContractError e = true.
(** Reads and the operations that build no run snapshot raise the store's own
    errors only. *)
Definition read_error (e : exn) : Prop := catches RunStoreError e = true.
Definition backend_error (e : exn) : Prop := catches ExecutionBackendError e = true.

(** The world keeps a good view that only moves forward; [Q] holds of a result
    and [E] of an exception. *)
Definition keeps {W A} (inv : W -> Prop) (view_of : W -> view) (w : W) (m : M W A)
    (Q : A -> W -> Prop) (E : exn -> Prop) : Prop :=
  inv w /\ view_ok (view_of w) ->
  match m w with
  | (r, w') =>
      (inv w' /\ view_ok (view_of w')) /\ view_le (view_of w) (view_of w') /\
      match r with Ok a => Q a w' | Raise e => E e end
  end.

Definition genuine (v : view) (st : StoredRun) : Prop := st ∈ v_snapshots v.

Class StoreLaws (W : Type) {HS : RunStore W} : Type := {
  inv : W -> Prop;
  view_of : W -> view;
  claim_law w r :
    run_value r ->
    keeps inv view_of w (claim r)
      (fun c w' => genuine (view_of w') (rc_stored c) /\
         (rc_created c = true -> evolves r (st_record (rc_stored c))) /\
         rr_run_id (st_record (rc_stored c)) = rr_run_id r /\
         rr_environment (st_record (rc_stored c)) = rr_environment r /\
         rr_project (st_record (rc_stored c)) = rr_project r) store_error;
  get_law w i :
    keeps inv view_of w (get i)
      (fun o w' => forall st, o = Some st -> genuine (view_of w') st /\ rr_run_id (st_record st) = i) read_error;
  find_law w e p k :
    keeps inv view_of w (find_idempotency e p k)
      (fun o w' => forall st, o = Some st -> genuine (view_of w') st /\
         rr_environment (st_record st) = e /\ rr_project (st_record st) = p /\
         rr_idempotency_key_sha256 (st_record st) = k) read_error;
  save_law w st r :
    genuine (view_of w) st -> evolves (st_record st) r -> run_value r ->
    keeps inv view_of w (save st r)
      (fun st' w' => genuine (view_of w') st' /\ st_record st' = r) store_error;
  append_law w a :
    attempt_permitted a ->
    keeps inv view_of w (append_attempt a)
      (fun _ w' => v_attempts (view_of w') !! (ar_run_id a, ar_attempt_id a) = Some a) read_error;
  list_law w c n :
    keeps inv view_of w (list_runs c n)
      (fun p w' => Z.of_nat (length (pg_items p)) <= n /\ forall st, st ∈ pg_items p -> genuine (view_of w') st) read_error;
  pending_law w lp c n :
    list_pending = Some lp ->
    keeps inv view_of w (lp c n)
      (fun p w' => Z.of_nat (length (pg_items p)) <= n /\ forall st, st ∈ pg_items p -> genuine (view_of w') st) read_error;
  mutation_law w k o i b :
    keeps inv view_of w (claim_mutation k o i b) (fun _ _ => True) read_error;
  close_store_law w : keeps inv view_of w close_store (fun _ _ => True) read_error;
}.

(** An observation as the constructors of the source admit it. *)
Record observation_value (o : BackendObservation) : Prop := {
  ov_post : BackendObservation_post_init o = Ok tt;
  ov_observed : in_range (bo_observed_at o);
  ov_summary s : bo_result_summary o = Some s -> ExecutionResultSummary_post_init s = Ok tt;
}.

(** A backend turns repeated submissions of one attempt into one execution: the
    execution belongs to a recorded attempt and keeps its handle ([view_le]). *)
Record lawful {W} {HS : RunStore W} {HL : StoreLaws W} (b : ExecutionBackend W) : Prop := {
  submit_law w p i a t :
    is_Some (v_attempts (view_of w) !! (i, a)) ->
    keeps inv view_of w (submit_or_adopt b p i a t)
      (fun h w' => v_executions (view_of w') !! (i, a) = Some h /\ BackendHandle_post_init h = Ok tt) backend_error;
  observe_law w p h :
    keeps inv view_of w (observe b p h) (fun o _ => observation_value o) backend_error;
  logs_law w p h c n : keeps inv view_of w (logs b p h c n) (fun _ _ => True) backend_error;
  cancel_law w p h : keeps inv view_of w (cancel_execution b p h) (fun _ _ => True) backend_error;
  close_backend_law w : keeps inv view_of w (close_backend b) (fun _ _ => True) backend_error;
}.

(** ** Reasoning about programs over the interface *)

Section Triples.
Context {W : Type} {HS : RunStore W} {HL : StoreLaws W}.

(** From a world where [P] holds; [P] and [Q] speak of the view. *)
Definition triple {A} (P : view -> Prop) (m : M W A) (Q : A -> view -> Prop) (E : exn -> Prop) : Prop :=
  forall w, P (view_of w) -> keeps inv view_of w m (fun a w' => Q a (view_of w')) E.

(** Facts that survive interference. *)
Class Stable (P : view -> Prop) : Prop := stable v v' : view_le v v' -> P v -> P v'.

#[export] Instance genuine_stable st : Stable (fun v => genuine v st).
Proof. intros v v' L. apply (vl_snapshots _ _ L). Qed.
#[export] Instance attempt_stable k a : Stable (fun v => v_attempts v !! k = Some a).
Proof. intros v v' L Ha. eapply lookup_weaken; [exact Ha|]. apply (vl_attempts _ _ L). Qed.
#[export] Instance attempted_stable k : Stable (fun v => is_Some (v_attempts v !! k)).
Proof. intros v v' L [a Ha]. exists a. eapply lookup_weaken; [exact Ha|]. apply (vl_attempts _ _ L). Qed.
#[export] Instance execution_stable k h : Stable (fun v => v_executions v !! k = Some h).
Proof. intros v v' L Ha. eapply lookup_weaken; [exact Ha|]. apply (vl_executions _ _ L). Qed.
#[export] Instance delivered_stable h b : Stable (fun v => v_deliveries v !! h = Some b).
Proof. intros v v' L Ha. eapply lookup_weaken; [exact Ha|]. apply (vl_deliveries _ _ L). Qed.
#[export] Instance acknowledged_stable b : Stable (fun v => b ∈ v_acknowledged v).
Proof. intros v v' L. apply (vl_acknowledged _ _ L). Qed.
#[export] Instance handed_over_stable b : Stable (fun v => handed_over v b).
Proof.
  intros v v' L (w & s & r & A & Hr & Hf). destruct (vl_runs _ _ L _ _ Hr) as (r' & Hr' & Hev).
  exists w, s, r'. split_and!; [done|done|]. rewrite <- Hf.
  pose proof (ev_identity _ _ Hev) as E. unfold run_identity in E. congruence.
Qed.
#[export] Instance pure_stable (P : Prop) : Stable (fun _ => P).
Proof. intros v v' _ HP. exact HP. Qed.
#[export] Instance and_stable P Q : Stable P -> Stable Q -> Stable (fun v => P v /\ Q v).
Proof. intros SP SQ v v' L [H1 H2]. split; by eapply stable. Qed.
#[export] Instance later_stable v0 : Stable (fun v => view_le v0 v).
Proof. intros v v' L L0. by etrans. Qed.
#[export] Instance forall_stable {A} (P : A -> view -> Prop) : (forall a, Stable (P a)) -> Stable (fun v => forall a, P a v).
Proof. intros SP v v' L HP a. eapply stable; [exact L|apply HP]. Qed.
#[export] Instance impl_stable (P : Prop) Q : Stable Q -> Stable (fun v => P -> Q v).
Proof. intros SQ v v' L HP p. eapply stable; [exact L|by apply HP]. Qed.

Lemma triple_conseq {A} (P P' : view -> Prop) (m : M W A) (Q Q' : A -> view -> Prop) (E E' : exn -> Prop) :
  triple P m Q E -> (forall v, P' v -> P v) -> (forall a v, Q a v -> Q' a v) -> (forall e, E e -> E' e) ->
  triple P' m Q' E'.
Proof.
  intros T HP HQ HE w Hw Hg. specialize (T w (HP _ Hw) Hg). destruct (m w) as [[a|e] w'];
    destruct T as (G & L & R); eauto.
Qed.

Lemma triple_lift {A} (P : view -> Prop) (r : result A) (Q : A -> view -> Prop) (E : exn -> Prop) :
  (forall a v, r = Ok a -> P v -> Q a v) -> raises E r -> triple P (lift r) Q E.
Proof. intros HQ HE w Hw Hg. unfold lift. split; [exact Hg|split; [reflexivity|]]. destruct r; eauto. Qed.

Lemma triple_ret {A} (P : view -> Prop) (a : A) (Q : A -> view -> Prop) E :
  (forall v, P v -> Q a v) -> triple P (mret a) Q E.
Proof. intros HQ. apply (triple_lift P (Ok a)); cbn; [|done]. by intros ? v [= <-]; auto. Qed.

Lemma triple_bind {A B} (P : view -> Prop) (m : M W A) (Q : A -> view -> Prop) (f : A -> M W B)
    (R : B -> view -> Prop) (E : exn -> Prop) :
  triple P m Q E -> (forall a, triple (Q a) (f a) R E) -> triple P (m ≫= f) R E.
Proof.
  intros Tm Tf w Hw Hg. specialize (Tm w Hw Hg). unfold mbind, M_bind.
  destruct (m w) as [[a|e] w']; [|done]. destruct Tm as (G & L & Ha). specialize (Tf a w' Ha G).
  destruct (f a w') as [r w'']. destruct Tf as (G' & L' & R'). split; [done|split; [by etrans|done]].
Qed.

(** What held before and is stable holds after, whatever the operation does. *)
Lemma triple_frame {A} (F P : view -> Prop) (m : M W A) (Q : A -> view -> Prop) (E : exn -> Prop) :
  Stable F -> triple P m Q E -> triple (fun v => F v /\ P v) m (fun a v => F v /\ Q a v) E.
Proof.
  intros SF T w [HF HP] Hg. specialize (T w HP Hg). destruct (m w) as [[a|e] w']; destruct T as (G & L & R);
    (split; [done|split; [done|]]); eauto.
Qed.

Lemma triple_try {A} (P : view -> Prop) (m : M W A) (Q : A -> view -> Prop) (h : exn -> M W A) (E E' : exn -> Prop) :
  Stable P -> triple P m Q E' -> (forall e, E' e -> triple P (h e) Q E) -> triple P (try_except m h) Q E.
Proof.
  intros SP Tm Th w Hw Hg. specialize (Tm w Hw Hg). unfold try_except.
  destruct (m w) as [[a|e] w']; destruct Tm as (G & L & R); [done|].
  specialize (Th e R w' (SP _ _ L Hw) G).
  destruct (h e w') as [r w'']. destruct Th as (G' & L' & R'). split; [done|split; [by etrans|done]].
Qed.

(** The bind that a straight-line proof uses: the step's precondition follows
    from what is known, and what is known is kept. *)
Lemma triple_step {A B} (F P : view -> Prop) (m : M W A) (Q : A -> view -> Prop) (f : A -> M W B)
    (R : B -> view -> Prop) (E : exn -> Prop) :
  Stable F -> triple P m Q E -> (forall v, F v -> P v) ->
  (forall a, triple (fun v => F v /\ Q a v) (f a) R E) -> triple F (m ≫= f) R E.
Proof.
  intros SF Tm HP Tf. eapply triple_bind; [|exact Tf].
  eapply triple_conseq; [exact (triple_frame F P m Q E SF Tm)|..]; cbn; auto.
Qed.

(** A pure step whose result is remembered as an equation. *)
Lemma triple_pure {A B} (F : view -> Prop) (r : result A) (f : A -> M W B) (R : B -> view -> Prop) (E : exn -> Prop) :
  raises E r -> (forall a, r = Ok a -> triple F (f a) R E) -> triple F (lift r ≫= f) R E.
Proof.
  intros Hr Hf. eapply (triple_bind F (lift r) (fun a v => r = Ok a /\ F v)); [by apply triple_lift|].
  intros a w [Ha HF]. by apply (Hf a Ha).
Qed.

(** A consequence of the view being well-formed may be used throughout. *)
Lemma triple_known {A} (F : Prop) (P : view -> Prop) (m : M W A) (Q : A -> view -> Prop) (E : exn -> Prop) :
  (forall v, view_ok v -> P v -> F) -> (F -> triple P m Q E) -> triple P m Q E.
Proof. intros HF HT w Hw Hg. apply (HT (HF _ (proj2 Hg) Hw) w Hw Hg). Qed.

Lemma genuine_value st v : view_ok v -> genuine v st -> run_value (st_record st).
Proof. intros Hv Hg. apply (vo_snapshots v Hv st Hg). Qed.

Lemma read_store_error e : read_error e -> store_error e.
Proof. by left. Qed.

(** The laws, as triples. *)
Lemma claim_triple r :
  run_value r ->
  triple (fun _ => True) (claim r)
    (fun c v => genuine v (rc_stored c) /\ (rc_created c = true -> evolves r (st_record (rc_stored c))) /\
       rr_run_id (st_record (rc_stored c)) = rr_run_id r /\
       rr_environment (st_record (rc_stored c)) = rr_environment r /\
       rr_project (st_record (rc_stored c)) = rr_project r) store_error.
Proof. intros Hr w _. by apply (claim_law w). Qed.
Lemma get_triple i :
  triple (fun _ => True) (get i)
    (fun o v => forall st, o = Some st -> genuine v st /\ rr_run_id (st_record st) = i) read_error.
Proof. intros w _. apply (get_law w). Qed.
Lemma find_triple e p k :
  triple (fun _ => True) (find_idempotency e p k)
    (fun o v => forall st, o = Some st -> genuine v st /\ rr_environment (st_record st) = e /\
       rr_project (st_record st) = p /\ rr_idempotency_key_sha256 (st_record st) = k) read_error.
Proof. intros w _. apply (find_law w). Qed.
Lemma save_triple st r :
  evolves (st_record st) r -> run_value r ->
  triple (fun v => genuine v st) (save st r) (fun st' v => genuine v st' /\ st_record st' = r) store_error.
Proof. intros He Hr w Hw. by apply (save_law w). Qed.
Lemma append_triple a :
  attempt_permitted a ->
  triple (fun _ => True) (append_attempt a)
    (fun _ v => v_attempts v !! (ar_run_id a, ar_attempt_id a) = Some a) read_error.
Proof. intros Ha w _. by apply (append_law w). Qed.
Lemma list_triple c n :
  triple (fun _ => True) (list_runs c n) (fun p v => Z.of_nat (length (pg_items p)) <= n /\ forall st, st ∈ pg_items p -> genuine v st) read_error.
Proof. intros w _. apply (list_law w). Qed.
Lemma pending_triple lp c n :
  list_pending = Some lp ->
  triple (fun _ => True) (lp c n) (fun p v => Z.of_nat (length (pg_items p)) <= n /\ forall st, st ∈ pg_items p -> genuine v st) read_error.
Proof. intros Hl w _. by apply (pending_law w). Qed.
Lemma mutation_triple k o i b : triple (fun _ => True) (claim_mutation k o i b) (fun _ _ => True) read_error.
Proof. intros w _. apply (mutation_law w). Qed.
Lemma submit_triple b p i a t :
  lawful b ->
  triple (fun v => is_Some (v_attempts v !! (i, a))) (submit_or_adopt b p i a t)
    (fun h v => v_executions v !! (i, a) = Some h /\ BackendHandle_post_init h = Ok tt) backend_error.
Proof. intros Hb w Hw. by apply (submit_law _ Hb w). Qed.

(** A triple whose errors are weaker. *)
Lemma triple_errors {A} (P : view -> Prop) (m : M W A) (Q : A -> view -> Prop) (E E' : exn -> Prop) :
  triple P m Q E -> (forall e, E e -> E' e) -> triple P m Q E'.
Proof. intros T HE. eapply triple_conseq; eauto. Qed.
End Triples.

