(* ===== verification/Dispatch.v ===== *)
(** * Dispatch ([control/orchestration.py], [dispatch_run_attempt] and
    [dispatch_stored_run_attempt])

    Claiming a run, recording its next attempt, submitting it and saving the
    handle, over the interface of [Contract].  Safety covers interference by
    other processes and a crash between any two operations: the attempt record
    is durable before the provider hears of the attempt, and every dispatcher
    that gets through returns the provider's one execution of that attempt. *)

From S2P Require Import Prelude Regex PyStr Sha256 PyTime Json Identifiers Projection PhysicalPlan Graph Orchestration RunCodec RunTransition Contract.

Local Open Scope string_scope.
Local Open Scope Z_scope.
Local Open Scope list_scope.

#[local] Arguments attempt_identity : simpl never.
#[local] Arguments revision : simpl never.
#[local] Arguments fingerprint : simpl never.
#[local] Arguments logical_run_identity : simpl never.
#[local] Arguments transition_run : simpl never.

Section Dispatch.
Context {W : Type} {HS : RunStore W}.

(** The record of the next attempt of [r] under [plan]. *)
Definition attempt_of (r : RunRecord) (plan : ExecutionPlan) (n : Z) (attempt_id : string) : AttemptRecord :=
  {| ar_run_id := rr_run_id r; ar_attempt_id := attempt_id; ar_attempt_number := n;
     ar_plan_id := ep_plan_id plan; ar_plan_revision := revision plan; ar_backend_id := ep_backend_id plan;
     ar_trigger := rr_trigger r; ar_created_at := rr_updated_at r |}.

Definition submitted (n : Z) (attempt_id : string) (h : BackendHandle) : changes :=
  {| ch_outcome := None; ch_results_state := None; ch_cleanup_state := None; ch_stage := Some "submitted";
     ch_attempt_count := Some n; ch_current_attempt_id := Some attempt_id; ch_backend_handle := Some h;
     ch_result_summary := None |}.

(** The checks on a durable run before anything is dispatched. *)
Definition check_stored_run (r : RunRecord) (plan : ExecutionPlan) : result unit :=
  _ ← contract_reject (negb (bool_decide (record_selection r = plan_selection plan)))
        "durable run does not select the exact execution plan";
  when_some (rr_requested_deadline_seconds r) (fun d =>
    contract_reject (ep_deadline_seconds plan <? d) "durable run deadline exceeds the execution plan limit").

Definition dispatch_stored_run_attempt (backend : ExecutionBackend W) (stored : StoredRun)
    (plan : ExecutionPlan) (now : datetime) : M W StoredRun :=
  _ ← lift (require_utc now "dispatch time");
  let r := st_record stored in
  _ ← lift (check_stored_run r plan);
  if negb (bool_decide (rr_run_state r ∈ [QUEUED; RETRYING])) then mret stored
  else
    let n := rr_attempt_count r + 1 in
    _ ← lift (contract_reject (rt_max_attempts (ep_retry_policy plan) <? n)
                "run has exhausted its bounded attempt policy");
    attempt_id ← lift (attempt_identity (rr_run_id r) n);
    attempt ← lift (new_attempt_record (attempt_of r plan n attempt_id));
    _ ← append_attempt attempt;
    handle ← submit_or_adopt backend plan (rr_run_id r) attempt_id (rr_trigger r);
    _ ← lift (contract_reject (negb (bool_decide (bh_backend_id handle = ep_backend_id plan)))
                "backend returned a handle for a different backend");
    next ← lift (transition_run r RUNNING now (submitted n attempt_id handle));
    save stored next.

Definition dispatch_run_attempt (backend : ExecutionBackend W) (submission : RunSubmission)
    (plan : ExecutionPlan) (now : datetime) : M W StoredRun :=
  _ ← lift (require_utc now "dispatch time");
  _ ← lift (validate_submission_plan submission plan);
  candidate ← lift (create_run_record submission);
  c ← claim candidate;
  let stored := rc_stored c in
  _ ← lift (reject_if (negb (bool_decide (rr_submission_sha256 (st_record stored) = rr_submission_sha256 candidate)))
              RunStoreIdempotencyConflictError "the idempotency key belongs to a different logical submission");
  dispatch_stored_run_attempt backend stored plan now.

(** ** What dispatch promises *)

(** Every error a dispatcher can see. *)
Definition dispatch_error (e : exn) : Prop := store_error e \/ backend_error e.

(** [st'] is the snapshot of a running attempt of the run [st] describes: the
    next attempt number, within the plan's bound, whose record and provider
    execution are on file, with the execution's handle. *)
Record dispatched (plan : ExecutionPlan) (st st' : StoredRun) (a : string) (v : view) : Prop := {
  dp_identity : attempt_identity (rr_run_id (st_record st)) (rr_attempt_count (st_record st) + 1) = Ok a;
  dp_bound : rr_attempt_count (st_record st) + 1 <= rt_max_attempts (ep_retry_policy plan);
  dp_evolves : evolves (st_record st) (st_record st');
  dp_state : rr_run_state (st_record st') = RUNNING;
  dp_count : rr_attempt_count (st_record st') = rr_attempt_count (st_record st) + 1;
  dp_current : rr_current_attempt_id (st_record st') = Some a;
  dp_attempt : v_attempts v !! (rr_run_id (st_record st), a) =
                 Some (attempt_of (st_record st) plan (rr_attempt_count (st_record st) + 1) a);
  dp_handle : exists h, rr_backend_handle (st_record st') = Some h /\ bh_backend_id h = ep_backend_id plan /\
                v_executions v !! (rr_run_id (st_record st), a) = Some h;
}.

Definition dispatches (plan : ExecutionPlan) (st : StoredRun) (st' : StoredRun) (v : view) : Prop :=
  record_selection (st_record st) = plan_selection plan /\ genuine v st' /\
  if bool_decide (rr_run_state (st_record st) ∈ [QUEUED; RETRYING])
  then exists a, dispatched plan st st' a v
  else st' = st.

Context {HL : StoreLaws W}.

Lemma contract_dispatch_error e : catches OrchestrationContractError e = true -> dispatch_error e.
Proof. intros H. left. by right. Qed.

Lemma only_contract_dispatch {A} (r : result A) : only OrchestrationContractError r -> raises dispatch_error r.
Proof. apply raises_impl, contract_dispatch_error. Qed.

Lemma attempt_post_init_only a : only OrchestrationContractError (AttemptRecord_post_init a).
Proof. unfold AttemptRecord_post_init. unfold_requires. only_tac. apply attempt_identity_only. Qed.

Lemma permitted_printable r plan :
  run_value r -> printable (rt_max_attempts (ep_retry_policy plan)) ->
  rr_attempt_count r + 1 <= rt_max_attempts (ep_retry_policy plan) -> printable (rr_attempt_count r + 1).
Proof.
  intros Hr Hm Hn. pose proof (post_init_dimensions r (rv_post r Hr)) as Hd.
  destruct (dm_attempts r Hd) as [Hpos _]. unfold printable in *. eapply Z.le_lt_trans; [|exact Hm]. clear - Hn Hpos. lia.
Qed.

Lemma attempt_of_permitted r plan n a attempt :
  run_value r -> printable n ->
  new_attempt_record (attempt_of r plan n a) = Ok attempt -> n <= rt_max_attempts (ep_retry_policy plan) ->
  attempt = attempt_of r plan n a /\ attempt_permitted attempt.
Proof.
  unfold new_attempt_record. intros Hr Hp [Hi [= <-]]%seq_ok Hn. split; [done|]. split; [|by exists plan].
  split; [done|exact (rv_trigger r Hr)|done|exact (proj2 (proj2 (rv_times r Hr)))].
Qed.

Ltac contract_step :=
  apply triple_pure;
  [apply only_contract_dispatch; unfold check_stored_run, new_attempt_record; unfold_requires; only_tac;
   auto using attempt_identity_only, attempt_post_init_only|].

Lemma dispatch_stored_triple backend stored plan now :
  lawful backend -> in_range now -> printable (rt_max_attempts (ep_retry_policy plan)) ->
  triple (fun v => genuine v stored) (dispatch_stored_run_attempt backend stored plan now)
    (fun st v => dispatches plan stored st v) dispatch_error.
Proof.
  intros Hb Hnow Hplan. eapply triple_known; [intros v Hv Hg; exact (genuine_value _ _ Hv Hg)|intros Hval].
  unfold dispatch_stored_run_attempt. contract_step. intros u1 _. contract_step. intros u2 Hc.
  unfold check_stored_run, contract_reject in Hc. apply seq_ok in Hc as [Hsel _].
  apply reject_if_tt, negb_bool_decide_false in Hsel.
  destruct (bool_decide _) eqn:Hq; cbn [negb].
  2:{ apply triple_ret. intros v Hg. unfold dispatches. by rewrite Hq. }
  contract_step. intros [] Hmax%reject_if_tt%Z.ltb_ge.
  contract_step. intros a Ha. contract_step. intros attempt Hat.
  pose proof (permitted_printable _ _ Hval Hplan Hmax) as Hn.
  destruct (attempt_of_permitted _ _ _ _ _ Hval Hn Hat Hmax) as [-> Hperm].
  eapply triple_step; [apply _|apply (triple_errors _ _ _ _ _ (append_triple _ Hperm)); by left; left|done|intros u4].
  eapply triple_step; [apply _|apply (triple_errors _ _ _ _ _ (submit_triple backend _ _ _ _ Hb)); by right| |intros h].
  { intros v [_ Hv]. by eexists. }
  contract_step. intros [] Hh%reject_if_tt%negb_bool_decide_false.
  apply triple_pure; [apply only_contract_dispatch, transition_run_only|].
  intros next [Ht ->]%transition_run_iff.
  eapply triple_known; [intros v _ Hw; exact (proj2 (proj2 Hw))|intros Hhandle].
  eapply (triple_conseq (fun v => (genuine v stored /\ v_attempts v !! (rr_run_id (st_record stored), a) =
     Some (attempt_of (st_record stored) plan (rr_attempt_count (st_record stored) + 1) a) /\
     v_executions v !! (rr_run_id (st_record stored), a) = Some h) /\ genuine v stored)).
  - apply triple_frame; [apply _|]. apply save_triple; [by apply updated_evolves|].
    apply updated_value; [done|done| |apply Ht]. by split; cbn; [intros ? [= <-]|intros ? [= <-]|].
  - intros v [[Hg Hv] [He _]]. done.
  - intros st v ((_ & Hv & He) & Hg & Hr). unfold dispatches. rewrite Hq. split_and!; [done..|].
    exists a. split; rewrite ?Hr; try done; [by apply updated_evolves|]. by exists h.
  - intros e H. by left.
Qed.

(** What a successful [dispatch_run_attempt] returns: a snapshot of the run the
    submission identifies, holding the same submission. *)
Definition dispatched_submission (s : RunSubmission) (plan : ExecutionPlan) (st' : StoredRun) (v : view) : Prop :=
  genuine v st' /\ record_selection (st_record st') = plan_selection plan /\
  rr_run_id (st_record st') = logical_run_identity s /\
  rr_submission_sha256 (st_record st') = fingerprint s /\
  rr_run_state (st_record st') ∉ [QUEUED; RETRYING].

Lemma validate_submission_plan_only s p : only OrchestrationContractError (validate_submission_plan s p).
Proof. unfold validate_submission_plan. unfold_requires. only_tac. Qed.

Lemma create_run_record_only s : only OrchestrationContractError (create_run_record s).
Proof. unfold create_run_record, new_run_record. only_tac. apply run_post_init_only. Qed.

Lemma evolves_same r r' : evolves r r' ->
  rr_run_id r' = rr_run_id r /\ rr_submission_sha256 r' = rr_submission_sha256 r /\
  record_selection r' = record_selection r.
Proof.
  intros [H _]. unfold run_identity in H. unfold record_selection.
  injection H as ? ? ? ? ? ? ? ? ? ? ? ? ? ?. split_and!; congruence.
Qed.

Lemma dispatch_run_triple backend s plan now :
  lawful backend -> submission_value s -> in_range now -> printable (rt_max_attempts (ep_retry_policy plan)) ->
  triple (fun _ => True) (dispatch_run_attempt backend s plan now)
    (fun st v => dispatched_submission s plan st v) dispatch_error.
Proof.
  intros Hb Hs Hnow Hplan. unfold dispatch_run_attempt.
  contract_step. intros u1 _.
  apply triple_pure; [apply only_contract_dispatch, validate_submission_plan_only|intros u2 _].
  apply triple_pure; [apply only_contract_dispatch, create_run_record_only|].
  unfold create_run_record, new_run_record. intros candidate [Hc [= <-]]%seq_ok.
  eapply triple_bind.
  { eapply triple_errors; [apply (claim_triple _ (queued_value s Hs Hc))|]. by left. }
  intros [stored created]. cbn [rc_stored rc_created].
  apply triple_pure.
  { unfold reject_if, raise_. destruct (negb _); cbn; [|done]. left. by left. }
  intros u3 Hf. destruct u3. apply reject_if_tt, negb_bool_decide_false in Hf.
  cbn [queued_record rr_submission_sha256] in Hf.
  eapply (triple_conseq (fun v => rr_run_id (st_record stored) = logical_run_identity s /\ genuine v stored)).
  - apply triple_frame; [apply _|]. by apply dispatch_stored_triple.
  - intros v (Hg & _ & Hid & _). done.
  - intros st v (Hid & Hsel & Hg & Hd). unfold dispatched_submission.
    destruct (bool_decide _) eqn:Hq.
    + destruct Hd as [a Hd]. destruct (evolves_same _ _ (dp_evolves _ _ _ _ _ Hd)) as (-> & -> & ->).
      split_and!; try done. rewrite (dp_state _ _ _ _ _ Hd). set_solver.
    + subst st. split_and!; try done. by apply bool_decide_eq_false in Hq.
  - done.
Qed.

(** A refused dispatch touches neither the store nor the provider. *)
Definition refuses (plan : ExecutionPlan) (r : RunRecord) : Prop :=
  record_selection r <> plan_selection plan \/
  (exists d, rr_requested_deadline_seconds r = Some d /\ ep_deadline_seconds plan < d) \/
  (rr_run_state r ∈ [QUEUED; RETRYING] /\ rt_max_attempts (ep_retry_policy plan) <= rr_attempt_count r).

(** C6: a durable run is dispatched safely, whatever other processes do and
    wherever the dispatcher stops. From a good world, a dispatcher over a lawful
    backend leaves a good world that only moved forward; a run that is neither
    queued nor retrying is returned untouched; otherwise the returned snapshot is
    RUNNING, one attempt further, within the plan's bound, and the attempt
    record and the provider execution of exactly that attempt are on file with
    the handle the snapshot carries. Every error is a store, contract or backend
    error. *)
Theorem dispatch_stored_run_safe backend stored plan now w
    (Hb : lawful backend) (Hnow : in_range now) (Hplan : printable (rt_max_attempts (ep_retry_policy plan)))
    (Hinv : inv w) (Hv : view_ok (view_of w)) (Hg : genuine (view_of w) stored) :
  match dispatch_stored_run_attempt backend stored plan now w with
  | (r, w') =>
      (inv w' /\ view_ok (view_of w')) /\ view_le (view_of w) (view_of w') /\
      match r with
      | Ok st => dispatches plan stored st (view_of w')
      | Raise e => dispatch_error e
      end
  end.
Proof. apply (dispatch_stored_triple backend stored plan now Hb Hnow Hplan w Hg (conj Hinv Hv)). Qed.

(** Recovery adopts the provider effect. If an execution of the run's next
    attempt is already on file - a dispatcher crashed after submitting, lost a
    race, or its save failed - a later successful dispatch of the same queued
    snapshot returns that execution's handle instead of starting another. *)
Theorem redispatch_adopts backend stored plan now w a h st w'
    (Hb : lawful backend) (Hnow : in_range now) (Hplan : printable (rt_max_attempts (ep_retry_policy plan)))
    (Hinv : inv w) (Hv : view_ok (view_of w)) (Hg : genuine (view_of w) stored)
    (Hq : rr_run_state (st_record stored) ∈ [QUEUED; RETRYING])
    (Ha : attempt_identity (rr_run_id (st_record stored)) (rr_attempt_count (st_record stored) + 1) = Ok a)
    (He : v_executions (view_of w) !! (rr_run_id (st_record stored), a) = Some h)
    (Hd : dispatch_stored_run_attempt backend stored plan now w = (Ok st, w')) :
  rr_run_state (st_record st) = RUNNING /\ rr_backend_handle (st_record st) = Some h /\
  v_executions (view_of w') !! (rr_run_id (st_record stored), a) = Some h.
Proof.
  pose proof (dispatch_stored_triple backend stored plan now Hb Hnow Hplan w Hg (conj Hinv Hv)) as T.
  rewrite Hd in T. destruct T as (_ & L & _ & _ & T). rewrite bool_decide_true in T by done.
  destruct T as (a' & [Ha' _ _ Hs _ _ _ (h' & Hh & _ & He')]). rewrite Ha in Ha'. injection Ha' as <-.
  pose proof (lookup_weaken _ _ _ _ He (vl_executions _ _ L)) as He''. by simplify_eq.
Qed.

(** Claiming and dispatching a submission is safe in the same sense, and a
    success always answers for the submission that was sent: the snapshot has the
    submission's run identity and its fingerprint, so an idempotency key that
    belongs to a different submission is never dispatched. *)
Theorem dispatch_run_safe backend s plan now w
    (Hb : lawful backend) (Hs : submission_value s) (Hnow : in_range now)
    (Hplan : printable (rt_max_attempts (ep_retry_policy plan))) (Hinv : inv w) (Hv : view_ok (view_of w)) :
  match dispatch_run_attempt backend s plan now w with
  | (r, w') =>
      (inv w' /\ view_ok (view_of w')) /\ view_le (view_of w) (view_of w') /\
      match r with
      | Ok st => dispatched_submission s plan st (view_of w')
      | Raise e => dispatch_error e
      end
  end.
Proof. apply (dispatch_run_triple backend s plan now Hb Hs Hnow Hplan w I (conj Hinv Hv)). Qed.

(** A dispatch the plan does not allow - another plan's run, a deadline
    beyond the plan's, no attempt left - raises [OrchestrationContractError]
    before the store or the provider is touched. *)
Theorem dispatch_refused backend stored plan now w (Hr : refuses plan (st_record stored)) :
  exists e, dispatch_stored_run_attempt backend stored plan now w = (Raise e, w) /\
            catches OrchestrationContractError e = true.
Proof.
  unfold dispatch_stored_run_attempt. rewrite lift_bind. unfold require_utc, contract_reject, reject_if at 1.
  destruct (negb (is_utc now)); [by eexists|]. rewrite lift_bind. unfold check_stored_run, contract_reject.
  destruct (decide (record_selection (st_record stored) = plan_selection plan)) as [Hs|Hs].
  2:{ rewrite bool_decide_false by done. by eexists. }
  rewrite bool_decide_true by done. cbn [negb reject_if mbind result_bind].
  destruct Hr as [Hr|Hr]; [done|].
  destruct (rr_requested_deadline_seconds (st_record stored)) as [d|]; cbn [when_some].
  - unfold reject_if at 1. destruct (Z.ltb_spec (ep_deadline_seconds plan) d); [by eexists|].
    destruct Hr as [(? & [= <-] & ?)|[Hq Hn]]; [lia|].
    rewrite bool_decide_true by done. cbn [negb]. rewrite lift_bind, (proj2 (Z.ltb_lt _ _)) by lia. by eexists.
  - destruct Hr as [(? & ? & ?)|[Hq Hn]]; [done|].
    rewrite bool_decide_true by done. cbn [negb]. rewrite lift_bind, (proj2 (Z.ltb_lt _ _)) by lia. by eexists.
Qed.
End Dispatch.
