(* ===== verification/RunStorePg.v ===== *)
(** * The PostgreSQL run store ([control/postgresql_run_store.py])

    Tables, transactions and the operations of [PostgreSQLRunStore], over a world
    that may lose a connection before or after a commit and in which other
    clients run between any two transactions.  The store keeps the promises of
    [Contract]: this is where the clients' hypotheses are discharged. *)

From S2P Require Import Prelude Transactions Regex PyStr Sha256 PyTime Json JsonParse JsonRead Base64 Identifiers Projection PhysicalPlan Graph Orchestration RunCodec RunTransition Contract.

Local Open Scope string_scope.
Local Open Scope Z_scope.
Local Open Scope list_scope.

(** ** Tables *)

Record run_row : Type := RunRow {
  rw_run_id : string; rw_environment : string; rw_project : string; rw_key_sha256 : string;
  rw_submission_sha256 : string; rw_record_bytes : list Z; rw_revision : string; rw_needs_reconciliation : bool;
}.
Record attempt_row : Type := AttemptRow {
  aw_run_id : string; aw_attempt_id : string; aw_attempt_number : Z; aw_record_bytes : list Z;
}.
Record mutation_row : Type := MutationRow {
  mw_key_sha256 : string; mw_operation : string; mw_run_id : string; mw_result_bytes : list Z;
}.

(** What outlives a process: the tables, the provider's executions, the supply of
    revision tokens ([secrets.token_hex]: fresh and never repeated), and, for the
    proofs only, the snapshots committed so far. *)
Record durable : Type := Durable {
  db_runs : gmap string run_row;                       (* dander_runs, by its primary key *)
  db_attempts : gmap (string * string) attempt_row;    (* dander_attempts *)
  db_mutations : gmap string mutation_row;             (* dander_run_mutation_idempotency *)
  db_executions : gmap (string * string) BackendHandle;
  db_tokens : list string;
  db_history : list StoredRun;
}.
Definition with_runs (d : durable) (runs : gmap string run_row) (st : list StoredRun) : durable :=
  Durable runs (db_attempts d) (db_mutations d) (db_executions d) (db_tokens d) (st ++ db_history d).
Definition with_attempts (d : durable) (attempts : gmap (string * string) attempt_row) : durable :=
  Durable (db_runs d) attempts (db_mutations d) (db_executions d) (db_tokens d) (db_history d).
Definition with_mutations (d : durable) (m : gmap string mutation_row) : durable :=
  Durable (db_runs d) (db_attempts d) m (db_executions d) (db_tokens d) (db_history d).
Definition with_executions (d : durable) (x : gmap (string * string) BackendHandle) : durable :=
  Durable (db_runs d) (db_attempts d) (db_mutations d) x (db_tokens d) (db_history d).
Definition with_tokens (d : durable) (t : list string) : durable :=
  Durable (db_runs d) (db_attempts d) (db_mutations d) (db_executions d) t (db_history d).

(** ** Connections *)

Abbreviation world := (Transactions.world durable).
Abbreviation event := (Transactions.event durable).

(** [except RunStoreError: raise] and [except Exception: raise RunStoreError(m)]. *)
Definition store_errors {A} (m : string) (body : M world A) : M world A :=
  try_except body (fun e => if catches RunStoreError e then lift (Raise e) else raiseM RunStoreError m).

(** ** Checks *)

Definition corrupt (b : bool) (m : string) : result unit := reject_if b RunStoreCorruptionError m.

Definition checked_portable (value label : string) : result unit :=
  corrupt (negb (portable_id value)) ("The PostgreSQL run-store " +:+ label +:+ " identifier is invalid.").
Definition checked_opaque (value label : string) : result unit :=
  corrupt (negb (opaque_id value)) ("The PostgreSQL run-store " +:+ label +:+ " identifier is invalid.").
Definition checked_sha256 (value label : string) : result unit :=
  corrupt (negb (is_sha256 value)) ("The PostgreSQL run-store " +:+ label +:+ " identity is invalid.").
Definition checked_revision (value : string) : result unit :=
  corrupt (negb (is_sha256 value)) "The PostgreSQL run revision is invalid.".
Definition stored_bytes (value : list Z) (maximum : Z) (label : string) : result unit :=
  corrupt (bool_decide (value = []) || (maximum <? Z.of_nat (length value)))
    ("The PostgreSQL " +:+ label +:+ " is missing or exceeds its durable bound.").

(** [_stored_run_from_row]. *)
Definition stored_run_from_row (row : run_row) (expected_run_id : option string)
    (expected_lookup : option (string * string * string)) : result StoredRun :=
  _ ← checked_opaque (rw_run_id row) "run";
  _ ← checked_portable (rw_environment row) "environment";
  _ ← checked_portable (rw_project row) "project";
  _ ← checked_sha256 (rw_key_sha256 row) "idempotency key";
  _ ← checked_sha256 (rw_submission_sha256 row) "submission";
  _ ← stored_bytes (rw_record_bytes row) MAX_RUN_BYTES "run snapshot";
  _ ← when_some expected_run_id (fun i =>
        corrupt (negb (bool_decide (rw_run_id row = i))) "The PostgreSQL run snapshot is addressed incorrectly.");
  _ ← when_some expected_lookup (fun l =>
        corrupt (negb (bool_decide ((rw_environment row, rw_project row, rw_key_sha256 row) = l)))
          "The PostgreSQL run idempotency lookup is addressed incorrectly.");
  record ← map_error OrchestrationSerializationError RunStoreCorruptionError
             "The PostgreSQL run snapshot is not canonical." (deserialize_run_record (rw_record_bytes row));
  _ ← corrupt
        (negb (bool_decide (rr_run_id record = rw_run_id row))
         || negb (bool_decide (rr_environment record = rw_environment row))
         || negb (bool_decide (rr_project record = rw_project row))
         || negb (bool_decide (rr_idempotency_key_sha256 record = rw_key_sha256 row))
         || negb (bool_decide (rr_submission_sha256 record = rw_submission_sha256 row)))
        "The PostgreSQL run snapshot contradicts its indexed identity.";
  _ ← checked_revision (rw_revision row);
  new_stored_run {| st_record := record; st_revision := rw_revision row |}.

(** [_attempt_from_row]. *)
Definition attempt_from_row (row : attempt_row) (expected_key : option (string * string)) : result AttemptRecord :=
  _ ← checked_opaque (aw_run_id row) "run";
  _ ← checked_opaque (aw_attempt_id row) "attempt";
  _ ← corrupt (aw_attempt_number row <? 1) "The PostgreSQL attempt number is invalid.";
  _ ← when_some expected_key (fun k =>
        corrupt (negb (bool_decide ((aw_run_id row, aw_attempt_id row) = k)))
          "The PostgreSQL attempt record is addressed incorrectly.");
  _ ← stored_bytes (aw_record_bytes row) MAX_ATTEMPT_BYTES "attempt record";
  attempt ← map_error OrchestrationSerializationError RunStoreCorruptionError
              "The PostgreSQL attempt record is not canonical." (deserialize_attempt_record (aw_record_bytes row));
  _ ← corrupt
        (negb (bool_decide (ar_run_id attempt = aw_run_id row))
         || negb (bool_decide (ar_attempt_id attempt = aw_attempt_id row))
         || negb (ar_attempt_number attempt =? aw_attempt_number row))
        "The PostgreSQL attempt record contradicts its indexed identity.";
  Ok attempt.

(** ** SQL *)

(** [self._revision_factory()]; an exhausted supply gives a value the check refuses. *)
Definition draw (d : durable) : string * durable :=
  match db_tokens d with [] => ("", d) | t :: ts => (t, with_tokens d ts) end.

Definition scope (row : run_row) : string * string * string :=
  (rw_environment row, rw_project row, rw_key_sha256 row).

(** The row of a scoped idempotency key, of which the table has at most one. *)
Definition row_of_scope (k : string * string * string) (runs : gmap string run_row) : option run_row :=
  snd <$> find (fun p => bool_decide (scope p.2 = k)) (map_to_list runs).

(** The CHECK constraints of dander_runs and dander_attempts. *)
Definition run_row_check (row : run_row) : bool :=
  is_sha256 (rw_key_sha256 row) && is_sha256 (rw_submission_sha256 row) && is_sha256 (rw_revision row)
  && (Z.of_nat (length (rw_record_bytes row)) <=? 262144).
Definition attempt_row_check (row : attempt_row) : bool :=
  (0 <? aw_attempt_number row) && (Z.of_nat (length (aw_record_bytes row)) <=? 131072).

(** INSERT ... ON CONFLICT DO NOTHING: [None] when the key or the scope is taken. *)
Definition insert_run (row : run_row) (d : durable) (st : StoredRun) : result (option durable) :=
  _ ← driver_reject (negb (run_row_check row));
  if is_some (db_runs d !! rw_run_id row) || is_some (row_of_scope (scope row) (db_runs d)) then Ok None
  else Ok (Some (with_runs d (<[rw_run_id row := row]> (db_runs d)) [st])).

(** UPDATE ... WHERE run_id = %s AND revision = %s: [None] when no row matches. *)
Definition update_run (run_id expected_revision : string) (bytes : list Z) (next_revision : string) (needs : bool)
    (d : durable) (st : StoredRun) : result (option (run_row * durable)) :=
  match db_runs d !! run_id with
  | Some row =>
      if bool_decide (rw_revision row = expected_revision) then
        let row' := RunRow (rw_run_id row) (rw_environment row) (rw_project row) (rw_key_sha256 row)
                      (rw_submission_sha256 row) bytes next_revision needs in
        _ ← driver_reject (negb (run_row_check row'));
        Ok (Some (row', with_runs d (<[run_id := row']> (db_runs d)) [st]))
      else Ok None
  | None => Ok None
  end.

Definition attempt_taken (row : attempt_row) (d : durable) : bool :=
  is_some (db_attempts d !! (aw_run_id row, aw_attempt_id row))
  || existsb (fun p : (string * string) * attempt_row =>
       bool_decide (aw_run_id p.2 = aw_run_id row) && (aw_attempt_number p.2 =? aw_attempt_number row))
       (map_to_list (db_attempts d)).

(** The row count of the insert; the run must exist (FOREIGN KEY). *)
Definition insert_attempt (row : attempt_row) (d : durable) : result (Z * durable) :=
  _ ← driver_reject (negb (attempt_row_check row));
  if attempt_taken row d then Ok (0, d)
  else
    _ ← driver_reject (is_none (db_runs d !! aw_run_id row));
    Ok (1, with_attempts d (<[(aw_run_id row, aw_attempt_id row) := row]> (db_attempts d))).

(** ** The operations *)

Definition row_of (r : RunRecord) (data : list Z) (revision : string) : run_row :=
  RunRow (rr_run_id r) (rr_environment r) (rr_project r) (rr_idempotency_key_sha256 r) (rr_submission_sha256 r)
    data revision (run_needs_reconciliation r).
Definition attempt_row_of (a : AttemptRecord) : attempt_row :=
  AttemptRow (ar_run_id a) (ar_attempt_id a) (ar_attempt_number a) (serialize_attempt_record a).

Definition conflict {A} (m : string) : result A := raise_ RunStoreConflictError m.

Definition validate_initial_record (r : RunRecord) : result unit :=
  reject_if (negb (bool_decide (rr_run_state r = QUEUED)) || negb (rr_attempt_count r =? 0)
             || is_some (rr_backend_handle r))
    RunStoreConflictError "A run claim must contain a pristine queued snapshot.".

Definition validate_claim_replay (existing proposed : RunRecord) : result unit :=
  _ ← corrupt (negb (bool_decide (rr_environment existing = rr_environment proposed))
               || negb (bool_decide (rr_project existing = rr_project proposed))
               || negb (bool_decide (rr_idempotency_key_sha256 existing = rr_idempotency_key_sha256 proposed))
               || negb (bool_decide (rr_run_id existing = rr_run_id proposed)))
        "The PostgreSQL run snapshot contradicts its idempotency address.";
  reject_if (negb (bool_decide (rr_submission_sha256 existing = rr_submission_sha256 proposed)))
    RunStoreIdempotencyConflictError "The idempotency key belongs to a different logical submission.".

(** The token is drawn before the transaction in the source; tokens never repeat,
    so drawing it with the transaction is the same. *)
Definition claim_body (r : RunRecord) (data : list Z) (d : durable) : result (RunClaim * durable) :=
  let (token, d) := draw d in
  _ ← checked_revision token;
  let row := row_of r data token in
  inserted ← insert_run row d {| st_record := r; st_revision := token |};
  match inserted with
  | Some d' =>
      stored ← stored_run_from_row row (Some (rr_run_id r)) None;
      Ok ({| rc_stored := stored; rc_created := true |}, d')
  | None =>
      match row_of_scope (rr_environment r, rr_project r, rr_idempotency_key_sha256 r) (db_runs d) with
      | None => conflict "The run identity is already claimed by a different request."
      | Some row =>
          stored ← stored_run_from_row row None None;
          _ ← validate_claim_replay (st_record stored) r;
          Ok ({| rc_stored := stored; rc_created := false |}, d)
      end
  end.

Definition pg_claim (r : RunRecord) : M world RunClaim :=
  _ ← lift (validate_initial_record r);
  data ← lift (serialize_run_record r);
  store_errors "The PostgreSQL run-store claim failed." (transact (claim_body r data)).

Definition pg_get (run_id : string) : M world (option StoredRun) :=
  _ ← lift (checked_opaque run_id "run");
  store_errors "The PostgreSQL run-store read failed."
    (query (fun d => match db_runs d !! run_id with
                     | None => Ok None
                     | Some row => st ← stored_run_from_row row (Some run_id) None; Ok (Some st)
                     end)).

Definition pg_find_idempotency (environment project key_sha256 : string) : M world (option StoredRun) :=
  _ ← lift (checked_portable environment "environment");
  _ ← lift (checked_portable project "project");
  _ ← lift (checked_sha256 key_sha256 "idempotency key");
  store_errors "The PostgreSQL run-store idempotency lookup failed."
    (query (fun d => match row_of_scope (environment, project, key_sha256) (db_runs d) with
                     | None => Ok None
                     | Some row =>
                         st ← stored_run_from_row row None (Some (environment, project, key_sha256)); Ok (Some st)
                     end)).

Definition save_body (stored : StoredRun) (r : RunRecord) (data : list Z) (d : durable) : result (StoredRun * durable) :=
  let (token, d) := draw d in
  _ ← checked_revision token;
  _ ← corrupt (bool_decide (token = st_revision stored)) "The PostgreSQL run revision provider did not advance.";
  row ← update_run (rr_run_id r) (st_revision stored) data token (run_needs_reconciliation r) d
          {| st_record := r; st_revision := token |};
  match row with
  | None => conflict "The PostgreSQL run-store precondition failed."
  | Some (row, d') => st ← stored_run_from_row row (Some (rr_run_id r)) None; Ok (st, d')
  end.

Definition pg_save (stored : StoredRun) (r : RunRecord) : M world StoredRun :=
  _ ← lift (reject_if (negb (same_run_identity (st_record stored) r)) RunStoreConflictError
              "A run snapshot cannot change its durable identity.");
  _ ← lift (checked_revision (st_revision stored));
  data ← lift (serialize_run_record r);
  store_errors "The PostgreSQL run-store save failed." (transact (save_body stored r data)).

Definition append_body (a : AttemptRecord) (d : durable) : result (unit * durable) :=
  let row := attempt_row_of a in
  inserted ← insert_attempt row d;
  if inserted.1 =? 1 then Ok (tt, inserted.2)
  else
    match db_attempts d !! (ar_run_id a, ar_attempt_id a) with
    | None => conflict "The attempt number already contains different immutable input."
    | Some row' =>
        existing ← attempt_from_row row' (Some (ar_run_id a, ar_attempt_id a));
        _ ← reject_if (negb (bool_decide (serialize_attempt_record existing = aw_record_bytes row)))
              RunStoreConflictError "The attempt identity already contains different immutable input.";
        Ok (tt, d)
    end.

Definition pg_append_attempt (a : AttemptRecord) : M world unit :=
  store_errors "The PostgreSQL attempt append failed." (transact (append_body a)).

(** [_canonical_mutation_result]. *)
Definition MAX_MUTATION_BYTES : Z := 16 * 1024.
Definition canonical_mutation_result (value : list Z) : result (list Z) :=
  _ ← stored_bytes value MAX_MUTATION_BYTES "mutation result";
  decoded ← map_error ValueError RunStoreCorruptionError "The PostgreSQL mutation result is invalid." (json_loads value);
  _ ← match decoded with
      | JObj _ => Ok tt
      | _ => raise_ RunStoreCorruptionError "The PostgreSQL mutation result is invalid."
      end;
  let canonical := canonical_json decoded in
  _ ← corrupt (MAX_MUTATION_BYTES <? Z.of_nat (length canonical))
        "The PostgreSQL mutation result exceeds its durable bound.";
  Ok canonical.

Definition mutation_body (key_sha256 operation run_id : string) (canonical : list Z) (d : durable)
    : result (list Z * durable) :=
  let '(row, d') := match db_mutations d !! key_sha256 with
                    | Some row => (row, d)
                    | None =>
                        let row := MutationRow key_sha256 operation run_id canonical in
                        (row, with_mutations d (<[key_sha256 := row]> (db_mutations d)))
                    end in
  _ ← checked_sha256 (mw_key_sha256 row) "mutation key";
  _ ← checked_portable (mw_operation row) "mutation operation";
  _ ← checked_opaque (mw_run_id row) "run";
  _ ← reject_if (negb (bool_decide (mw_key_sha256 row = key_sha256)) || negb (bool_decide (mw_operation row = operation))
                 || negb (bool_decide (mw_run_id row = run_id)))
        RunStoreIdempotencyConflictError "The mutation idempotency key belongs to a different operation.";
  _ ← stored_bytes (mw_result_bytes row) MAX_MUTATION_BYTES "mutation result";
  canonical_stored ← canonical_mutation_result (mw_result_bytes row);
  _ ← corrupt (negb (bool_decide (canonical_stored = mw_result_bytes row)))
        "The PostgreSQL mutation result is not canonical.";
  Ok (mw_result_bytes row, d').

Definition pg_claim_mutation (key_sha256 operation run_id : string) (result : list Z) : M world (list Z) :=
  _ ← lift (checked_sha256 key_sha256 "mutation key");
  _ ← lift (checked_portable operation "mutation operation");
  _ ← lift (checked_opaque run_id "run");
  canonical ← lift (canonical_mutation_result result);
  store_errors "The PostgreSQL mutation idempotency claim failed." (transact (mutation_body key_sha256 operation run_id canonical)).

(** ** Pages *)

Definition encode_cursor (run_id : string) : result string :=
  _ ← checked_opaque run_id "run"; Ok (of_chars (b64_encode (encode run_id))).

Definition decode_cursor (cursor : string) : result string :=
  _ ← corrupt (empty cursor || (1024 <? py_len cursor)) "The PostgreSQL run-store cursor is invalid.";
  match data ← b64_decode (chars cursor); decode data with
  | None => raise_ RunStoreCorruptionError "The PostgreSQL run-store cursor is invalid."
  | Some run_id =>
      again ← encode_cursor run_id;
      _ ← corrupt (negb (bool_decide (again = cursor))) "The PostgreSQL run-store cursor is invalid.";
      Ok run_id
  end.

Section Pages.
(** The order of the column's collation. *)
Context (collate : string -> string -> bool).

(** SELECT ... WHERE ... ORDER BY run_id LIMIT n. *)
Definition selected (pending_only : bool) (after : option string) (row : run_row) : bool :=
  (negb pending_only || rw_needs_reconciliation row)
  && match after with Some a => negb (collate (rw_run_id row) a) | None => true end.
Definition select_page (pending_only : bool) (after : option string) (n : nat) (d : durable) : list run_row :=
  take n (py_sorted (key_leb rw_run_id collate)
    (filter (fun row => selected pending_only after row = true) (snd <$> map_to_list (db_runs d)))).

Definition list_body (pending_only : bool) (after : option string) (limit : Z) (d : durable) : result StoredRunPage :=
  let rows := select_page pending_only after (Z.to_nat (limit + 1)) d in
  items ← read_all (fun row => stored_run_from_row row None None) (take (Z.to_nat limit) rows);
  next_cursor ← match last items with
                | Some st =>
                    if limit <? Z.of_nat (length rows)
                    then c ← encode_cursor (rr_run_id (st_record st)); Ok (Some c) else Ok None
                | None => Ok None
                end;
  let page := {| pg_items := items; pg_next_cursor := next_cursor |} in
  _ ← StoredRunPage_post_init page; Ok page.

Definition pg_list (pending_only : bool) (cursor : option string) (limit : Z) : M world StoredRunPage :=
  _ ← lift (corrupt (negb ((1 <=? limit) && (limit <=? 100))) "The PostgreSQL run-store page size is invalid.");
  after ← lift (match cursor with Some c => a ← decode_cursor c; Ok (Some a) | None => Ok None end);
  store_errors "The PostgreSQL run-store list failed." (query (list_body pending_only after limit)).

#[export] Instance pg_store : RunStore world := {
  claim := pg_claim;
  get := pg_get;
  find_idempotency := pg_find_idempotency;
  save := pg_save;
  append_attempt := pg_append_attempt;
  list_runs := pg_list false;
  list_pending := Some (pg_list true);
  claim_mutation := pg_claim_mutation;
  close_store := mret tt;
}.
End Pages.

(** ** The view and the invariant *)

Definition record_of (row : run_row) : option RunRecord :=
  match deserialize_run_record (rw_record_bytes row) with Ok r => Some r | Raise _ => None end.
Definition attempt_of_row (row : attempt_row) : option AttemptRecord :=
  match deserialize_attempt_record (aw_record_bytes row) with Ok a => Some a | Raise _ => None end.

(** The abstraction: what the tables say, read with the codecs. *)
Definition durable_view (d : durable) : view :=
  {| v_runs := omap record_of (db_runs d); v_snapshots := db_history d;
     v_attempts := omap attempt_of_row (db_attempts d); v_executions := db_executions d;
     v_deliveries := ∅; v_acknowledged := [] |}.

(** A row that holds a snapshot. *)
Record row_holds (st : StoredRun) (row : run_row) : Prop := {
  rh_value : run_value (st_record st);
  rh_bytes : serialize_run_record (st_record st) = Ok (rw_record_bytes row);
  rh_size : Z.of_nat (length (rw_record_bytes row)) <= MAX_RUN_BYTES;
  rh_row : row = row_of (st_record st) (rw_record_bytes row) (st_revision st);
  rh_revision : is_sha256 (st_revision st) = true;
}.

Record attempt_row_holds (a : AttemptRecord) (row : attempt_row) : Prop := {
  ah_value : attempt_value a;
  ah_size : Z.of_nat (length (serialize_attempt_record a)) <= MAX_ATTEMPT_BYTES;
  ah_row : row = attempt_row_of a;
}.

Record durable_ok (d : durable) : Prop := {
  do_rows i row : db_runs d !! i = Some row ->
    exists st, st ∈ db_history d /\ row_holds st row /\ rr_run_id (st_record st) = i;
  do_scopes i j ri rj : db_runs d !! i = Some ri -> db_runs d !! j = Some rj -> scope ri = scope rj -> i = j;
  do_history st st' : st ∈ db_history d -> st' ∈ db_history d -> st_revision st = st_revision st' -> st = st';
  do_tokens : NoDup (db_tokens d);
  do_fresh t st : t ∈ db_tokens d -> st ∈ db_history d -> st_revision st <> t;
  do_attempts k row : db_attempts d !! k = Some row -> exists a, attempt_row_holds a row /\ k = (ar_run_id a, ar_attempt_id a);
  do_revisions st : st ∈ db_history d -> is_sha256 (st_revision st) = true;
  do_handles k h : db_executions d !! k = Some h -> BackendHandle_post_init h = Ok tt;
}.

Definition good (d : durable) : Prop := durable_ok d /\ view_ok (durable_view d).

(** What other clients may do: anything that keeps the tables good and only
    moves forward - in particular the operations of this store. *)
Definition admissible (e : event) : Prop :=
  match e with
  | Foreign f => forall d, good d -> good (f d) /\ view_le (durable_view d) (durable_view (f d))
  | _ => True
  end.

Definition world_ok (w : world) : Prop := durable_ok (wd_durable w) /\ Forall admissible (wd_weather w).
Definition world_view (w : world) : view := durable_view (wd_durable w).

Lemma settle_good d es d' fate es' :
  settle d es = (d', fate, es') -> good d -> Forall admissible es ->
  good d' /\ view_le (durable_view d) (durable_view d') /\ Forall admissible es'.
Proof.
  revert d; induction es as [|e es IH]; intros d; cbn.
  - intros [= <- <- <-] Hd _. done.
  - intros H Hd [He Hes]%Forall_cons. destruct e as [f| | |]; try (injection H as <- <- <-; done).
    destruct (He d Hd) as [Hg Hl]. destruct (IH (f d) H Hg Hes) as (? & ? & ?). split_and!; try done. by etrans.
Qed.

(** A transaction body that keeps the tables good, from any state in which [P]
    still holds. *)
Definition body_ok {A} (P : view -> Prop) (body : durable -> result (A * durable)) (Q : A -> view -> Prop) : Prop :=
  forall d, good d -> P (durable_view d) ->
  match body d with
  | Ok (a, d') => good d' /\ view_le (durable_view d) (durable_view d') /\ Q a (durable_view d')
  | Raise _ => True
  end.

Lemma transact_keeps {A} (P : view -> Prop) (body : durable -> result (A * durable)) (Q : A -> view -> Prop) w :
  Stable P -> body_ok P body Q -> P (world_view w) ->
  keeps world_ok world_view w (transact body) (fun a w' => Q a (world_view w')) (fun _ => True).
Proof.
  intros HS Hb HP [[Hok Hw] Hv]. unfold transact.
  destruct (settle (wd_durable w) (wd_weather w)) as [[d fate] es] eqn:E.
  destruct (settle_good _ _ _ _ _ E (conj Hok Hv) Hw) as ([Hd Hdv] & Hl & Hes).
  specialize (Hb d (conj Hd Hdv) (HS _ _ Hl HP)).
  unfold world_ok, world_view in *.
  destruct fate as [|e0|], (body d) as [[a d']|e]; cbn [wd_durable wd_weather];
    try (destruct Hb as ([Hd' Hv'] & Hl' & HQ)); split_and!; try done; try (by etrans).
Qed.

Lemma query_keeps {A} (P : view -> Prop) (body : durable -> result A) (Q : A -> view -> Prop) w :
  Stable P -> (forall d a, good d -> P (durable_view d) -> body d = Ok a -> Q a (durable_view d)) -> P (world_view w) ->
  keeps world_ok world_view w (query body) (fun a w' => Q a (world_view w')) (fun _ => True).
Proof.
  intros HS Hb HP. unfold query. apply (transact_keeps P); [done| |done].
  intros d Hd Hp. specialize (Hb d). destruct (body d) as [a|e]; cbn; [|done]. split_and!; [done..|]. by apply Hb.
Qed.

Lemma store_errors_keeps {A} m (body : M world A) (Q : A -> world -> Prop) E w :
  keeps world_ok world_view w body Q E -> keeps world_ok world_view w (store_errors m body) Q read_error.
Proof.
  intros H Hw. specialize (H Hw). unfold store_errors, try_except. destruct (body w) as [[a|e] w']; [done|].
  destruct H as (? & ? & _). destruct (catches RunStoreError e) eqn:Ec; (split; [done|split; [done|]]); [exact Ec|reflexivity].
Qed.

(** A check before the connection is opened. *)
Lemma lift_keeps {A B} (r : result A) (f : A -> M world B) (Q : B -> world -> Prop) (E : exn -> Prop) w :
  raises E r -> (forall a, r = Ok a -> keeps world_ok world_view w (f a) Q E) ->
  keeps world_ok world_view w (lift r ≫= f) Q E.
Proof.
  intros Hr Hf Hw. rewrite lift_bind. destruct r as [a|e]; [by apply Hf|]. done.
Qed.

(** ** Reading rows that hold snapshots *)

#[local] Arguments deserialize_run_record : simpl never.
#[local] Arguments serialize_run_record : simpl never.
#[local] Arguments serialize_attempt_record : simpl never.
#[local] Arguments deserialize_attempt_record : simpl never.

Lemma row_record st row : row_holds st row -> record_of row = Some (st_record st).
Proof.
  intros [Hv Hb Hs _ _]. unfold record_of.
  rewrite (run_record_reads V5 (st_record st) (rw_record_bytes row)); [done|done|by split|done|done].
Qed.

Lemma row_read st row e l st' :
  row_holds st row -> stored_run_from_row row e l = Ok st' -> st' = st.
Proof.
  intros H Hr. pose proof (row_record st row H) as Hrec. unfold record_of in Hrec. unfold stored_run_from_row in Hr.
  destruct (deserialize_run_record (rw_record_bytes row)) as [r|e'] eqn:E; [|done]. injection Hrec as ->.
  repeat (apply bind_ok in Hr; destruct Hr as (? & ? & Hr)). unfold new_stored_run in Hr. 
  match goal with H : map_error _ _ _ (Ok _) = Ok ?x |- _ => injection H as <- end.
  injection Hr as <-. rewrite (rh_row _ _ H). by destruct st.
Qed.

Lemma attempt_row_record a row : attempt_row_holds a row -> attempt_of_row row = Some a.
Proof. intros [Hv Hs ->]. unfold attempt_of_row. cbn [attempt_row_of aw_record_bytes]. by rewrite attempt_record_reads. Qed.

Lemma attempt_row_read a row k a' : attempt_row_holds a row -> attempt_from_row row k = Ok a' -> a' = a.
Proof.
  intros H Hr. pose proof (attempt_row_record a row H) as Hrec. unfold attempt_of_row in Hrec. unfold attempt_from_row in Hr.
  destruct (deserialize_attempt_record (aw_record_bytes row)) as [x|e'] eqn:E; [|done]. injection Hrec as ->.
  repeat (apply bind_ok in Hr; destruct Hr as (? & ? & Hr)).
  match goal with H : map_error _ _ _ (Ok _) = Ok ?x |- _ => injection H as <- end. by injection Hr as <-.
Qed.

Lemma view_run d i row st : durable_ok d -> db_runs d !! i = Some row -> row_holds st row ->
  v_runs (durable_view d) !! i = Some (st_record st).
Proof. intros _ Hi Hh. cbn [durable_view v_runs]. rewrite lookup_omap, Hi. cbn. by apply row_record. Qed.

(** ** Committing a snapshot *)

(** The run's row is new, or holds a snapshot the new one evolves from. *)
Record may_commit (d : durable) (st : StoredRun) (row : run_row) : Prop := {
  mc_holds : row_holds st row;
  mc_fresh st' : st' ∈ db_history d -> st_revision st' <> st_revision st;
  mc_unused : st_revision st ∉ db_tokens d;
  mc_evolves st0 row0 : db_runs d !! rr_run_id (st_record st) = Some row0 -> row_holds st0 row0 ->
    evolves (st_record st0) (st_record st);
  mc_scope j row' : db_runs d !! j = Some row' -> scope row' = scope row -> j = rr_run_id (st_record st);
}.

Definition commit (d : durable) (st : StoredRun) (row : run_row) : durable :=
  with_runs d (<[rr_run_id (st_record st) := row]> (db_runs d)) [st].

Lemma commit_durable d st row : durable_ok d -> may_commit d st row -> durable_ok (commit d st row).
Proof.
  intros [R S H T F A V X] [Hh Hf Hu He Hs]. split; cbn [commit with_runs db_runs db_history db_tokens db_attempts]; try done.
  - intros i row' [[<- <-]|[Hn Hi]]%lookup_insert_Some.
    + exists st. split; [by left|done].
    + destruct (R i row' Hi) as (st' & Hst & Hr). exists st'. split; [by right|done].
  - intros i j ri rj [[<- <-]|[Hni Hi]]%lookup_insert_Some [[<- <-]|[Hnj Hj]]%lookup_insert_Some E; try done.
    + symmetry. by apply (Hs j rj).
    + by apply (Hs i ri).
    + by eapply S.
  - intros st1 st2 [->|H1]%elem_of_cons [->|H2]%elem_of_cons E; try done.
    + by destruct (Hf st2 H2).
    + by destruct (Hf st1 H1).
    + by apply H.
  - intros t st' Ht [->|Hst]%elem_of_cons; [congruence|by apply F].
  - intros st' [->|Hst]%elem_of_cons; [apply Hh|by apply V].
Qed.

Lemma commit_runs d st row : row_holds st row ->
  v_runs (durable_view (commit d st row)) = <[rr_run_id (st_record st) := st_record st]> (v_runs (durable_view d)).
Proof. intros Hh. cbn. by rewrite (omap_insert_Some _ _ _ _ _ (row_record st row Hh)). Qed.

(** The current snapshot of the committed run evolves to the new one. *)
Lemma commit_current d st row r :
  durable_ok d -> may_commit d st row -> v_runs (durable_view d) !! rr_run_id (st_record st) = Some r ->
  evolves r (st_record st).
Proof.
  intros Hd Hm Hr. cbn in Hr. rewrite lookup_omap in Hr.
  destruct (db_runs d !! rr_run_id (st_record st)) as [row0|] eqn:E; [|done]. cbn in Hr.
  destruct (do_rows d Hd _ _ E) as (st0 & _ & Hh0 & _). rewrite (row_record _ _ Hh0) in Hr. injection Hr as <-.
  by eapply mc_evolves.
Qed.

Lemma commit_good d st row : good d -> may_commit d st row ->
  good (commit d st row) /\ view_le (durable_view d) (durable_view (commit d st row)).
Proof.
  intros [Hd [VR VS VA VE VK]] Hm. pose proof (mc_holds _ _ _ Hm) as Hh. pose proof (commit_runs d st row Hh) as Hruns.
  assert (forall i r, v_runs (durable_view d) !! i = Some r ->
            exists r', v_runs (durable_view (commit d st row)) !! i = Some r' /\ evolves r r') as Hle.
  { intros i r Hi. rewrite Hruns. destruct (decide (i = rr_run_id (st_record st))) as [->|Hn].
    - exists (st_record st). rewrite lookup_insert_eq. split; [done|]. by eapply commit_current.
    - exists r. by rewrite lookup_insert_ne. }
  split; [split; [by apply commit_durable|split]|split]; try done.
  - intros i r. rewrite Hruns. intros [[<- <-]|[Hn Hi]]%lookup_insert_Some; [|by apply VR].
    split; [done|apply Hh].
  - intros st' [->|Hst]%elem_of_cons.
    + split; [apply Hh|]. exists (st_record st). by rewrite Hruns, lookup_insert_eq.
    + destruct (VS st' Hst) as [Hv (r & Hr & Hev)]. split; [done|]. destruct (Hle _ _ Hr) as (r' & Hr' & Hev').
      exists r'. split; [done|by etrans].
  - intros b Hb. by apply elem_of_nil in Hb.
  - intros st' Hst. by right.
Qed.

(** Drawing a token changes nothing that is seen. *)
Lemma draw_good d t d' : draw d = (t, d') -> good d -> is_sha256 t = true ->
  good d' /\ durable_view d' = durable_view d /\ db_runs d' = db_runs d /\ db_history d' = db_history d /\
  (forall st, st ∈ db_history d' -> st_revision st <> t) /\ t ∉ db_tokens d'.
Proof.
  unfold draw. destruct (db_tokens d) as [|u us] eqn:E; [by intros [= <- <-] _ H; vm_compute in H|].
  intros [= <- <-] [[R S H T F A V X] Hv] _. rewrite E in T, F. apply NoDup_cons in T as [Hu T].
  split_and!; try done.
  - split; [|done]. split; try done. intros t st Ht. apply F. by right.
  - intros st Hst. apply F; [by left|done].
Qed.

(** ** Every operation keeps its promise *)

Lemma row_of_scope_none k runs i row : row_of_scope k runs = None -> runs !! i = Some row -> scope row <> k.
Proof.
  unfold row_of_scope. intros H Hi E. destruct (find _ _) eqn:F; [done|]. clear H.
  apply elem_of_map_to_list in Hi. apply list_elem_of_In in Hi. pose proof (find_none _ _ F _ Hi) as Hf. cbn in Hf.
  by apply bool_decide_eq_false in Hf.
Qed.

Lemma row_of_scope_some k runs row : row_of_scope k runs = Some row -> scope row = k /\ exists i, runs !! i = Some row.
Proof.
  unfold row_of_scope. destruct (find _ _) as [[i x]|] eqn:F; [|done]. intros [= <-].
  apply find_some in F as [Hin Hs]. apply bool_decide_eq_true in Hs. split; [done|]. exists i.
  apply elem_of_map_to_list. by apply list_elem_of_In.
Qed.

Lemma read_scoped d k row e l st :
  durable_ok d -> row_of_scope k (db_runs d) = Some row -> stored_run_from_row row e l = Ok st ->
  st ∈ db_history d /\ row_holds st row /\ scope row = k.
Proof.
  intros Hd Hk Hr. destruct (row_of_scope_some _ _ _ Hk) as (Hs & i & Hi).
  destruct (do_rows d Hd _ _ Hi) as (st0 & Hst & Hh & _). by rewrite (row_read _ _ _ _ _ Hh Hr).
Qed.

Lemma driver_reject_ok b u : driver_reject b = Ok u <-> b = false.
Proof. by destruct b, u. Qed.

Lemma checked_revision_ok t u : checked_revision t = Ok u <-> is_sha256 t = true.
Proof. unfold checked_revision, corrupt. destruct u. rewrite reject_if_tt. apply negb_false_iff. Qed.

Lemma row_check_size row : run_row_check row = true -> Z.of_nat (length (rw_record_bytes row)) <= MAX_RUN_BYTES.
Proof. unfold run_row_check. rewrite !andb_true_iff, Z.leb_le. intros [_ H]. exact H. Qed.

Definition claims (r : RunRecord) (c : RunClaim) (v : view) : Prop :=
  genuine v (rc_stored c) /\ (rc_created c = true -> evolves r (st_record (rc_stored c))) /\
  rr_run_id (st_record (rc_stored c)) = rr_run_id r /\
  rr_environment (st_record (rc_stored c)) = rr_environment r /\
  rr_project (st_record (rc_stored c)) = rr_project r.

Lemma claim_body_ok r data :
  run_value r -> serialize_run_record r = Ok data -> body_ok (fun _ => True) (claim_body r data) (claims r).
Proof.
  intros Hr Hdata d Hd _. unfold claim_body. destruct (draw d) as [t d1] eqn:Ed.
  destruct (checked_revision t) as [u|e] eqn:Ht; [|done]. cbn [mbind result_bind]. apply checked_revision_ok in Ht.
  destruct (draw_good _ _ _ Ed Hd Ht) as ([Hok1 Hv1] & Hview & _ & _ & Hfresh & Hunused).
  set (row := row_of r data t). set (st := {| st_record := r; st_revision := t |}). unfold insert_run.
  destruct (driver_reject (negb (run_row_check row))) as [u2|e] eqn:Hchk; [|done]. cbn [mbind result_bind].
  apply driver_reject_ok, negb_false_iff, row_check_size in Hchk.
  destruct (_ || _) eqn:Hc.
  - destruct (row_of_scope _ (db_runs d1)) as [row0|] eqn:Hs; [|done].
    destruct (stored_run_from_row row0 None None) as [st0|e] eqn:Hread; [|done]. cbn [mbind result_bind].
    destruct (validate_claim_replay (st_record st0) r) as [u3|e] eqn:Hval; [|done]. cbn [mbind result_bind].
    destruct (read_scoped _ _ _ _ _ _ Hok1 Hs Hread) as (Hst & _ & _).
    rewrite <- Hview. split_and!; try done.
    unfold validate_claim_replay, corrupt in Hval. apply seq_ok in Hval as [Hval _]. apply reject_if_tt in Hval.
    rewrite !orb_false_iff, !negb_bool_decide_false in Hval. cbn [rc_stored rc_created].
    split_and!; try done; apply Hval.
  - apply orb_false_iff in Hc as [Hc1 Hc2].
    assert (db_runs d1 !! rr_run_id r = None) as Hnone.
    { change (is_some (db_runs d1 !! rr_run_id r) = false) in Hc1. by destruct (db_runs d1 !! rr_run_id r). }
    assert (row_of_scope (scope row) (db_runs d1) = None) as Hfree by by destruct (row_of_scope _ _).
    destruct (stored_run_from_row row (Some (rr_run_id r)) None) as [stored|e] eqn:Hread; [|done].
    cbn [mbind result_bind].
    assert (row_holds st row) as Hh by (split; done).
    assert (may_commit d1 st row) as Hm.
    { split; try done.
      - intros st0 row0 Hi. cbn [st_record st] in Hi. congruence.
      - intros j row' Hj E. destruct (row_of_scope_none _ _ _ _ Hfree Hj E). }
    destruct (commit_good d1 st row (conj Hok1 Hv1) Hm) as [Hg Hl].
    rewrite <- Hview. split; [exact Hg|split; [exact Hl|]].
    rewrite (row_read _ _ _ _ _ Hh Hread). split_and!; try done. by left.
Qed.

Lemma serialize_raises r : run_value r -> raises store_error (serialize_run_record r).
Proof. intros Hr. unfold serialize_run_record. by rewrite serialize_as_ok. Qed.

Lemma raises_read {A} (r : result A) : raises read_error r -> raises store_error r.
Proof. destruct r as [a|e]; [done|]. apply read_store_error. Qed.

Lemma keeps_read {A} w (m : M world A) Q :
  keeps world_ok world_view w m Q read_error -> keeps world_ok world_view w m Q store_error.
Proof.
  intros Hk Hg. specialize (Hk Hg). destruct (m w) as [[a|e] w']; [done|].
  destruct Hk as (G & L & R). split; [done|split; [done|by apply read_store_error]].
Qed.

Lemma corrupt_raises b m : raises read_error (corrupt b m).
Proof. by destruct b. Qed.

Lemma conflict_raises b c m : exn_subclass c RunStoreError = true -> raises read_error (reject_if b c m).
Proof. intros H. by destruct b. Qed.

Lemma pg_claim_law w r : run_value r ->
  keeps world_ok world_view w (pg_claim r) (fun c w' => claims r c (world_view w')) store_error.
Proof.
  intros Hr. unfold pg_claim. apply lift_keeps; [by apply raises_read, conflict_raises|intros u _].
  apply lift_keeps; [by apply serialize_raises|intros data Hdata].
  apply keeps_read. eapply store_errors_keeps. apply (transact_keeps (fun _ => True)); [apply _| |done]. by apply claim_body_ok.
Qed.

Lemma pg_get_law w i :
  keeps world_ok world_view w (pg_get i)
    (fun o w' => forall st, o = Some st -> genuine (world_view w') st /\ rr_run_id (st_record st) = i) read_error.
Proof.
  unfold pg_get. apply lift_keeps; [apply corrupt_raises|intros u _].
  eapply store_errors_keeps. apply (query_keeps (fun _ => True)
    _ (fun (o : option StoredRun) v => forall st, o = Some st -> genuine v st /\ rr_run_id (st_record st) = i)); [apply _| |done].
  intros d o [Hd Hv] _ Ho st ->. destruct (db_runs d !! i) as [row|] eqn:Hi; [|done].
  apply bind_ok in Ho as (st' & Hread & [= ->]). destruct (do_rows d Hd _ _ Hi) as (st0 & Hst & Hh & Hid).
  by rewrite (row_read _ _ _ _ _ Hh Hread).
Qed.

Lemma pg_find_law w e p k :
  keeps world_ok world_view w (pg_find_idempotency e p k)
    (fun o w' => forall st, o = Some st -> genuine (world_view w') st /\ rr_environment (st_record st) = e /\
       rr_project (st_record st) = p /\ rr_idempotency_key_sha256 (st_record st) = k) read_error.
Proof.
  unfold pg_find_idempotency. do 3 (apply lift_keeps; [apply corrupt_raises|intros ? _]).
  eapply store_errors_keeps. apply (query_keeps (fun _ => True)
    _ (fun (o : option StoredRun) v => forall st, o = Some st -> genuine v st /\ rr_environment (st_record st) = e /\
         rr_project (st_record st) = p /\ rr_idempotency_key_sha256 (st_record st) = k)); [apply _| |done].
  intros d o [Hd Hv] _ Ho st ->. destruct (row_of_scope _ _) as [row|] eqn:Hs; [|done].
  apply bind_ok in Ho as (st' & Hread & [= ->]). destruct (read_scoped _ _ _ _ _ _ Hd Hs Hread) as (Hst & Hh & Hsc).
  split; [done|]. rewrite (rh_row _ _ Hh) in Hsc. unfold scope in Hsc. cbn in Hsc. by injection Hsc as -> -> ->.
Qed.

(** The compare-and-swap succeeds on the snapshot the caller read, so the run
    moves from that snapshot to the new one. *)
Lemma save_body_ok stored r data :
  evolves (st_record stored) r -> run_value r -> serialize_run_record r = Ok data ->
  body_ok (fun v => genuine v stored) (save_body stored r data) (fun st v => genuine v st /\ st_record st = r).
Proof.
  intros Hev Hr Hdata d Hd Hg. unfold save_body. destruct (draw d) as [t d1] eqn:Ed.
  destruct (checked_revision t) as [u|e] eqn:Ht; [|done]. cbn [mbind result_bind]. apply checked_revision_ok in Ht.
  destruct (draw_good _ _ _ Ed Hd Ht) as ([Hok1 Hv1] & Hview & Hruns & Hhist & Hfresh & Hunused).
  destruct (corrupt (bool_decide _) _) as [u1|e]; [|done]. cbn [mbind result_bind].
  unfold update_run. destruct (db_runs d1 !! rr_run_id r) as [row0|] eqn:Hrow; [|done].
  destruct (bool_decide (rw_revision row0 = st_revision stored)) eqn:Hrev; [|done]. apply bool_decide_eq_true in Hrev.
  set (row := RunRow _ _ _ _ _ _ _ _). set (st := {| st_record := r; st_revision := t |}).
  destruct (driver_reject _) as [u2|e] eqn:Hchk; [|done]. cbn [mbind result_bind].
  apply driver_reject_ok, negb_false_iff, row_check_size in Hchk.
  destruct (stored_run_from_row row (Some (rr_run_id r)) None) as [stored'|e] eqn:Hread; [|done].
  cbn [mbind result_bind].
  destruct (do_rows d1 Hok1 _ _ Hrow) as (st0 & Hst0 & Hh0 & Hid0).
  assert (st0 = stored) as ->.
  { apply (do_history d1 Hok1); [done| |].
    - rewrite Hhist. exact Hg.
    - rewrite (rh_row _ _ Hh0) in Hrev. exact Hrev. }
  assert (row_holds st row) as Hh.
  { split; try done. subst row st. rewrite (rh_row _ _ Hh0). cbn [row_of st_record st_revision rw_record_bytes
      rw_run_id rw_environment rw_project rw_key_sha256 rw_submission_sha256].
    destruct Hev as [Hi _]. unfold run_identity in Hi. injection Hi as E1 E2 E3 E4 E5 E6 E7 E8 E9 E10 E11 E12 E13 E14.
    unfold row_of. by rewrite E1, E2, E3, E10, E11. }
  assert (may_commit d1 st row) as Hm.
  { split; try done.
    - intros st1 row1 Hi Hh1. cbn [st_record st] in Hi. rewrite Hrow in Hi. injection Hi as <-.
      assert (st1 = stored) as ->; [|done].
      pose proof (row_record _ _ Hh1) as E1. rewrite (row_record _ _ Hh0) in E1. injection E1 as E1.
      pose proof (rh_row _ _ Hh1) as E2. rewrite (rh_row _ _ Hh0) in E2. unfold row_of in E2. cbn in E2.
      injection E2 as _ _ _ _ _ E2 _. destruct st1, stored. cbn in *. congruence.
    - intros j row' Hj E. cbn [st_record st]. eapply (do_scopes d1 Hok1); [exact Hj|exact Hrow|].
      rewrite E. done. }
  destruct (commit_good d1 st row (conj Hok1 Hv1) Hm) as [Hg' Hl].
  rewrite <- Hview. split; [exact Hg'|split; [exact Hl|]].
  rewrite (row_read _ _ _ _ _ Hh Hread). split; [by left|done].
Qed.

Lemma pg_save_law w st r :
  genuine (world_view w) st -> evolves (st_record st) r -> run_value r ->
  keeps world_ok world_view w (pg_save st r)
    (fun st' w' => genuine (world_view w') st' /\ st_record st' = r) store_error.
Proof.
  intros Hg Hev Hr. unfold pg_save. apply lift_keeps; [by apply raises_read, conflict_raises|intros u _].
  apply lift_keeps; [apply raises_read, corrupt_raises|intros u1 _].
  apply lift_keeps; [by apply serialize_raises|intros data Hdata].
  apply keeps_read. eapply store_errors_keeps. apply (transact_keeps (fun v => genuine v st) _ (fun st' v => genuine v st' /\ st_record st' = r)); [apply _| |done].
  by apply save_body_ok.
Qed.

(** An attempt is inserted once; a replay finds the very same attempt. *)
Lemma insert_attempt_good d a :
  good d -> attempt_permitted a -> attempt_row_holds a (attempt_row_of a) ->
  db_attempts d !! (ar_run_id a, ar_attempt_id a) = None ->
  let d' := with_attempts d (<[(ar_run_id a, ar_attempt_id a) := attempt_row_of a]> (db_attempts d)) in
  good d' /\ view_le (durable_view d) (durable_view d') /\
  v_attempts (durable_view d') !! (ar_run_id a, ar_attempt_id a) = Some a.
Proof.
  intros [[R S H T F A V X] [VR VS VA VE VK]] Hp Hh Hnone d'.
  assert (v_attempts (durable_view d') = <[(ar_run_id a, ar_attempt_id a) := a]> (v_attempts (durable_view d))) as Ha.
  { cbn. by rewrite (omap_insert_Some _ _ _ _ _ (attempt_row_record a _ Hh)). }
  assert (v_attempts (durable_view d) !! (ar_run_id a, ar_attempt_id a) = None) as Hn.
  { cbn. by rewrite lookup_omap, Hnone. }
  split; [split|split].
  - split; [exact R|exact S|exact H|exact T|exact F| |exact V|exact X].
    cbn [d' with_attempts db_attempts].
    intros k row [[<- <-]|[Hk Hi]]%lookup_insert_Some; [by exists a|by apply A].
  - split; [exact VR|exact VS|..].
    + intros k x. rewrite Ha. intros [[<- <-]|[Hk Hi]]%lookup_insert_Some; [done|by apply VA].
    + intros k Hk. rewrite Ha, lookup_insert_is_Some. destruct (decide (k = (ar_run_id a, ar_attempt_id a))); [by left|].
      right. split; [done|by apply VE].
    + exact VK.
  - split; [intros i r Hi; by exists r|done|rewrite Ha; by apply insert_subseteq|done|done|done].
  - by rewrite Ha, lookup_insert_eq.
Qed.

Lemma append_body_ok a :
  attempt_permitted a ->
  body_ok (fun _ => True) (append_body a)
    (fun _ v => v_attempts v !! (ar_run_id a, ar_attempt_id a) = Some a).
Proof.
  intros Hp d Hd _. unfold append_body, insert_attempt.
  destruct (driver_reject (negb _)) as [u|e] eqn:Hchk; [|done]. cbn [mbind result_bind].
  apply driver_reject_ok, negb_false_iff in Hchk. unfold attempt_row_check in Hchk. apply andb_true_iff in Hchk as [_ Hsize].
  apply Z.leb_le in Hsize.
  assert (attempt_row_holds a (attempt_row_of a)) as Hh by (split; [apply Hp|exact Hsize|done]).
  destruct (attempt_taken (attempt_row_of a) d) eqn:Ht; cbn [mbind result_bind].
  - change (0 =? 1) with false. cbv iota.
    destruct (db_attempts d !! (ar_run_id a, ar_attempt_id a)) as [row|] eqn:E; [|done]. cbn [snd].
    destruct (attempt_from_row row _) as [existing|e] eqn:Hread; [|done]. cbn [mbind result_bind].
    destruct (reject_if _ _ _) as [u1|e] eqn:Heq; [|done]. cbn [mbind result_bind].
    apply reject_if_ok, negb_bool_decide_false in Heq.
    destruct (do_attempts d (proj1 Hd) _ _ E) as (b & Hb & Hk).
    pose proof (attempt_row_read _ _ _ _ Hb Hread) as ->.
    assert (b = a) as ->.
    { pose proof (attempt_row_record _ _ Hb) as E1. rewrite (ah_row _ _ Hb) in E1. unfold attempt_of_row in E1.
      cbn [attempt_row_of aw_record_bytes] in E1, Heq. rewrite Heq in E1.
      pose proof (attempt_row_record _ _ Hh) as E2. unfold attempt_of_row in E2. cbn [attempt_row_of aw_record_bytes] in E2.
      congruence. }
    split_and!; try done. cbn. rewrite lookup_omap, E. cbn. by apply attempt_row_record.
  - destruct (driver_reject (is_none _)) as [u1|e]; [|done]. cbn [mbind result_bind snd fst].
    change (1 =? 1) with true. cbv iota. apply insert_attempt_good; try done.
    unfold attempt_taken in Ht. apply orb_false_iff in Ht as [Ht _].
    change (is_some (db_attempts d !! (ar_run_id a, ar_attempt_id a)) = false) in Ht. by destruct (_ !! _).
Qed.

Lemma pg_append_law w a : attempt_permitted a ->
  keeps world_ok world_view w (pg_append_attempt a)
    (fun _ w' => v_attempts (world_view w') !! (ar_run_id a, ar_attempt_id a) = Some a) read_error.
Proof.
  intros Ha. unfold pg_append_attempt. eapply store_errors_keeps.
  apply (transact_keeps (fun _ => True) _ (fun _ v => v_attempts v !! (ar_run_id a, ar_attempt_id a) = Some a)); [apply _| |done].
  by apply append_body_ok.
Qed.

Lemma read_all_in {A B} (f : A -> result B) l ys y :
  read_all f l = Ok ys -> y ∈ ys -> exists x, x ∈ l /\ f x = Ok y.
Proof.
  revert ys; induction l as [|x l IH]; cbn; intros ys H Hy.
  - injection H as <-. by apply elem_of_nil in Hy.
  - apply bind_ok in H as (z & Hz & H). apply bind_ok in H as (zs & Hzs & [= <-]).
    apply elem_of_cons in Hy as [->|Hy]; [exists x; split; [left|done]|].
    destruct (IH zs Hzs Hy) as (x' & Hx & Hf). exists x'. split; [by right|done].
Qed.

Lemma select_page_in collate pending after n d row :
  row ∈ select_page collate pending after n d ->
  selected collate pending after row = true /\ exists i, db_runs d !! i = Some row.
Proof.
  unfold select_page. intros H%elem_of_take. destruct H as (k & H%list_elem_of_lookup_2 & _).
  rewrite py_sorted_perm in H. apply list_elem_of_filter in H as [Hs H]. split; [done|].
  apply list_elem_of_fmap in H as ([i row'] & -> & H). exists i. by apply elem_of_map_to_list.
Qed.

Lemma read_run_rows d rows items st :
  durable_ok d -> (forall row, row ∈ rows -> exists i, db_runs d !! i = Some row) ->
  read_all (fun row => stored_run_from_row row None None) rows = Ok items -> st ∈ items -> st ∈ db_history d.
Proof.
  intros Hd Hrows Hread Hst. destruct (read_all_in _ _ _ _ Hread Hst) as (row & Hin & Hf).
  destruct (Hrows row Hin) as [i Hi]. destruct (do_rows d Hd _ _ Hi) as (st0 & Hst0 & Hh & _).
  by rewrite (row_read _ _ _ _ _ Hh Hf).
Qed.

Lemma page_post_init_only p : only OrchestrationContractError (StoredRunPage_post_init p).
Proof. unfold StoredRunPage_post_init. unfold_requires. only_tac. Qed.

Lemma decode_cursor_raises c : raises read_error (decode_cursor c).
Proof.
  unfold decode_cursor. apply raises_bind; [apply corrupt_raises|intros _ _].
  destruct (_ ≫= _); [|done]. apply raises_bind; [|intros a _].
  - unfold encode_cursor. apply raises_bind; [apply corrupt_raises|done].
  - apply raises_bind; [apply corrupt_raises|done].
Qed.

Lemma pg_list_law collate pending w c n :
  keeps world_ok world_view w (pg_list collate pending c n)
    (fun p w' => Z.of_nat (length (pg_items p)) <= n /\ forall st, st ∈ pg_items p -> genuine (world_view w') st) read_error.
Proof.
  unfold pg_list. apply lift_keeps; [apply corrupt_raises|intros [] Hn].
  apply reject_if_tt, negb_false_iff, andb_true_iff in Hn as [Hn%Z.leb_le _].
  apply lift_keeps.
  { destruct c; [|done]. apply raises_bind; [apply decode_cursor_raises|done]. }
  intros after _. eapply store_errors_keeps.
  apply (query_keeps (fun _ => True) _ (fun p v => Z.of_nat (length (pg_items p)) <= n /\ forall st, st ∈ pg_items p -> genuine v st)); [apply _| |done].
  intros d p [Hd Hv] _ Hp. unfold list_body in Hp.
  apply bind_ok in Hp as (items & Hitems & Hp). apply bind_ok in Hp as (cursor & _ & Hp). apply seq_ok in Hp as [_ [= <-]].
  cbn [pg_items]. split; [rewrite (read_all_length _ _ _ Hitems), length_take; lia|]. intros st Hst.
  eapply read_run_rows; [done| |exact Hitems|exact Hst].
  intros row Hrow. apply elem_of_take in Hrow as (k & Hk%list_elem_of_lookup_2 & _). by apply select_page_in in Hk as [_ Hi].
Qed.

Lemma mutation_good d m : good d -> good (with_mutations d m) /\ view_le (durable_view d) (durable_view (with_mutations d m)).
Proof. intros [[] Hv]. split; [split; [by split|exact Hv]|reflexivity]. Qed.

Lemma canonical_mutation_raises value : raises read_error (canonical_mutation_result value).
Proof.
  unfold canonical_mutation_result, stored_bytes. apply raises_bind; [apply corrupt_raises|intros _ _].
  apply raises_bind; [unfold map_error, json_loads; destruct (loads value); done|intros v _].
  apply raises_bind; [by destruct v|intros _ _]. apply raises_bind; [apply corrupt_raises|done].
Qed.

Lemma pg_mutation_law w k o i b :
  keeps world_ok world_view w (pg_claim_mutation k o i b) (fun _ _ => True) read_error.
Proof.
  unfold pg_claim_mutation. do 3 (apply lift_keeps; [apply corrupt_raises|intros ? _]).
  apply lift_keeps; [apply canonical_mutation_raises|intros canonical _].
  eapply store_errors_keeps. apply (transact_keeps (fun _ => True) _ (fun _ _ => True)); [apply _| |done].
  intros d Hd _. unfold mutation_body.
  destruct (db_mutations d !! k) as [row|]; cbv beta iota zeta;
    repeat (match goal with |- context [mbind _ ?m] => destruct m as [?|?]; [|exact I]; cbn [mbind result_bind] end).
  - done.
  - destruct (mutation_good d (<[k := MutationRow k o i canonical]> (db_mutations d)) Hd). done.
Qed.

#[export] Program Instance pg_laws (collate : string -> string -> bool) : StoreLaws world (HS := pg_store collate) := {
  inv := world_ok;
  view_of := world_view;
}.
Next Obligation. intros. by apply pg_claim_law. Qed.
Next Obligation. intros. apply pg_get_law. Qed.
Next Obligation. intros. apply pg_find_law. Qed.
Next Obligation. intros. by apply pg_save_law. Qed.
Next Obligation. intros. by apply pg_append_law. Qed.
Next Obligation. intros. apply pg_list_law. Qed.
Next Obligation. intros collate w lp c n [= <-]. apply pg_list_law. Qed.
Next Obligation. intros. apply pg_mutation_law. Qed.
Next Obligation. intros collate w Hw. done. Qed.
