(* ===== verification/Instances.v ===== *)
(** * The interfaces inhabited

    The PostgreSQL store together with a provider that adopts the execution of a
    known attempt: a concrete [lawful] backend, and concrete runs of the
    dispatcher through it - the first attempt, a lost answer, a redispatch. *)

From S2P Require Import Prelude Transactions Regex PyStr Sha256 PyTime Json JsonRead Identifiers Projection PhysicalPlan Graph GraphOps PhysicalPlanner Orchestration RunCodec RunTransition Contract Dispatch RunStorePg.

Local Open Scope string_scope.
Local Open Scope Z_scope.
Local Open Scope list_scope.

(** ** A provider with execution names derived from the attempt *)

Definition provider_errors {A} (body : M world A) : M world A :=
  try_except body (fun _ => raiseM ExecutionBackendError "The provider request failed.").

Definition submit_body (plan : ExecutionPlan) (run_id attempt_id : string) (d : durable)
    : result (BackendHandle * durable) :=
  match db_executions d !! (run_id, attempt_id) with
  | Some h => Ok (h, d)
  | None =>
      let h := {| bh_backend_id := ep_backend_id plan; bh_execution_id := "execution-" +:+ attempt_id |} in
      _ ← BackendHandle_post_init h;
      Ok (h, with_executions d (<[(run_id, attempt_id) := h]> (db_executions d)))
  end.

Definition adopting_provider : ExecutionBackend world :=
  {| submit_or_adopt := fun plan run_id attempt_id _ => provider_errors (transact (submit_body plan run_id attempt_id));
     observe := fun _ _ => mret {| bo_execution_state := BACKEND_RUNNING; bo_outcome := UNKNOWN;
                                   bo_results_state := RESULTS_PENDING; bo_cleanup_state := CLEANUP_PENDING;
                                   bo_observed_at := utc 0; bo_stage := None; bo_failure_code := None;
                                   bo_result_summary := None |};
     logs := fun _ _ _ _ => mret {| lp_records := []; lp_next_cursor := None |};
     cancel_execution := fun _ _ => mret tt;
     close_backend := mret tt |}.

Lemma provider_errors_keeps {A} (body : M world A) (Q : A -> world -> Prop) E w :
  keeps world_ok world_view w body Q E -> keeps world_ok world_view w (provider_errors body) Q backend_error.
Proof.
  intros H Hw. specialize (H Hw). unfold provider_errors, try_except. destruct (body w) as [[a|e] w']; [done|].
  destruct H as (? & ? & _). split; [done|split; [done|reflexivity]].
Qed.

Lemma execution_good d k h :
  good d -> is_Some (v_attempts (durable_view d) !! k) -> BackendHandle_post_init h = Ok tt ->
  db_executions d !! k = None ->
  good (with_executions d (<[k := h]> (db_executions d))) /\
  view_le (durable_view d) (durable_view (with_executions d (<[k := h]> (db_executions d)))).
Proof.
  intros [[R S H T F A V X] [VR VS VA VE VK]] Hk Hh Hn. split; [split|].
  - split; try done. intros k' h'. cbn [with_executions db_executions].
    intros [[<- <-]|[Hne Hi]]%lookup_insert_Some; [done|by eapply X].
  - split; try done. intros k'. cbn [durable_view v_executions with_executions db_executions].
    rewrite lookup_insert_is_Some. intros [<-|[_ Hs]]; [done|by apply VE].
  - split; try done; [intros i r Hi; by exists r|]. cbn. by apply insert_subseteq.
Qed.

Section Lawful.
Context (collate : string -> string -> bool).
#[local] Existing Instance pg_store.
#[local] Existing Instance pg_laws.

Lemma adopting_provider_lawful : lawful (HS := pg_store collate) (HL := pg_laws collate) adopting_provider.
Proof.
  split.
  - intros w p i a t Ha. eapply provider_errors_keeps.
    apply (transact_keeps (fun v => is_Some (v_attempts v !! (i, a))) _
      (fun h v => v_executions v !! (i, a) = Some h /\ BackendHandle_post_init h = Ok tt)); [apply _| |done].
    intros d Hd Hk. unfold submit_body. destruct (db_executions d !! (i, a)) as [h|] eqn:E.
    + split_and!; try done. by apply (do_handles d (proj1 Hd) (i, a)).
    + destruct (BackendHandle_post_init _) as [[]|] eqn:Hh; [|done]. cbn [mbind result_bind].
      destruct (execution_good d (i, a) _ Hd Hk Hh E) as [Hg Hl]. split_and!; try done.
      cbn. by rewrite lookup_insert_eq.
  - intros w p h Hw. cbn. split_and!; try done; apply Hw.
  - intros w p h c n Hw. done.
  - intros w p h Hw. done.
  - intros w Hw. done.
Qed.
End Lawful.

(** ** A world to run in *)

(** The submission of the sample plan. *)
Definition planned_submission : RunSubmission :=
  {| sb_environment := "prod"; sb_project := "shop"; sb_graph := sample_record; sb_plan_id := "nightly";
     sb_plan_revision := revision sample_plan; sb_trigger := sb_trigger sample_submission;
     sb_idempotency_key := "key-00000001"; sb_requested_at := utc 0; sb_requested_deadline_seconds := None;
     sb_placement_decision := None; sb_size_class_decision := None |}.

Definition sample_tokens : list string := (fun n => sha256_hex [n]) <$> [1; 2; 3; 4; 5; 6; 7; 8].

Definition empty_tables : durable := Durable ∅ ∅ ∅ ∅ sample_tokens [].
Definition fresh_world (weather : list event) : world := World empty_tables weather.

Lemma empty_tables_good : good empty_tables.
Proof.
  split; split; cbn; try (intros *; rewrite ?lookup_empty, ?lookup_omap; done); try set_solver.
  apply has_dup_false. vm_compute. reflexivity.
Qed.

Lemma fresh_world_ok weather :
  Forall admissible weather -> world_ok (fresh_world weather) /\ view_ok (world_view (fresh_world weather)).
Proof. intros H. split; [split; [apply empty_tables_good|done]|apply empty_tables_good]. Qed.

Lemma planned_submission_value : submission_value planned_submission.
Proof.
  by split.
Qed.

#[local] Existing Instance pg_store.
#[local] Existing Instance pg_laws.

Lemma dispatch_run_safe_witness :
  let w := fresh_world [Clear; LostAfter; Clear] in
  match dispatch_run_attempt (HS := pg_store str_leb) adopting_provider planned_submission sample_plan (utc 1) w with
  | (r, w') =>
      (world_ok w' /\ view_ok (world_view w')) /\ view_le (world_view w) (world_view w') /\
      match r with
      | Ok st => dispatched_submission planned_submission sample_plan st (world_view w')
      | Raise e => dispatch_error e
      end
  end.
Proof.
  assert (Forall admissible [Clear; LostAfter; Clear]) as Hw by repeat constructor.
  destruct (fresh_world_ok _ Hw) as [Hi Hv].
  exact (dispatch_run_safe (HS := pg_store str_leb) (HL := pg_laws str_leb) adopting_provider planned_submission sample_plan (utc 1)
    (fresh_world [Clear; LostAfter; Clear]) (adopting_provider_lawful str_leb) planned_submission_value
    ltac:(vm_compute; split; discriminate) ltac:(reflexivity) Hi Hv).
Defined.

(** ** A crash between submission and save, and the recovery *)

Definition dispatch_sample (w : world) : result StoredRun * world :=
  dispatch_run_attempt (HS := pg_store str_leb) adopting_provider planned_submission sample_plan (utc 1) w.

(** The provider executes, its answer is lost. *)
Definition crashed : world := (dispatch_sample (fresh_world [Clear; Clear; LostAfter])).2.
Definition claimed : StoredRun :=
  {| st_record := queued_record planned_submission; st_revision := sha256_hex [1] |}.

Lemma crashed_good : world_ok crashed /\ view_ok (world_view crashed).
Proof.
  assert (Forall admissible [Clear; Clear; LostAfter]) as Hw by repeat constructor.
  pose proof (dispatch_run_triple (HS := pg_store str_leb) (HL := pg_laws str_leb) adopting_provider planned_submission sample_plan (utc 1)
    (adopting_provider_lawful str_leb) planned_submission_value ltac:(vm_compute; split; discriminate) ltac:(reflexivity)
    (fresh_world [Clear; Clear; LostAfter]) I (fresh_world_ok _ Hw)) as H.
  unfold crashed, dispatch_sample. destruct (dispatch_run_attempt _ _ _ _ _) as [r w']. exact (proj1 H).
Qed.

Lemma claimed_genuine : genuine (world_view crashed) claimed.
Proof.
  assert (bool_decide (claimed ∈ v_snapshots (world_view crashed)) = true) as H by (vm_compute; reflexivity).
  by apply bool_decide_eq_true in H.
Qed.

Definition first_attempt : string := "attempt-1-" +:+ first_chars 20
  (sha256_hex (encode (attempt_identity_text (logical_run_identity planned_submission) 1))).

Definition sample_handle : BackendHandle :=
  {| bh_backend_id := "cloud_run"; bh_execution_id := "execution-" +:+ first_attempt |}.

Definition redispatch (w : world) : result StoredRun * world :=
  dispatch_stored_run_attempt (HS := pg_store str_leb) adopting_provider claimed sample_plan (utc 2) w.

Lemma dispatch_stored_run_safe_witness :
  match redispatch crashed with
  | (r, w') =>
      (world_ok w' /\ view_ok (world_view w')) /\ view_le (world_view crashed) (world_view w') /\
      match r with
      | Ok st => dispatches sample_plan claimed st (world_view w')
      | Raise e => dispatch_error e
      end
  end.
Proof.
  exact (dispatch_stored_run_safe (HS := pg_store str_leb) (HL := pg_laws str_leb) adopting_provider claimed sample_plan (utc 2) crashed
    (adopting_provider_lawful str_leb) ltac:(vm_compute; split; discriminate) ltac:(reflexivity)
    (proj1 crashed_good) (proj2 crashed_good) claimed_genuine).
Defined.

Lemma redispatch_adopts_witness :
  exists st w', redispatch crashed = (Ok st, w') /\ rr_backend_handle (st_record st) = Some sample_handle.
Proof.
  destruct (redispatch crashed) as [[st|e] w'] eqn:E.
  - exists st, w'. split; [reflexivity|].
    refine (proj1 (proj2 (redispatch_adopts (HS := pg_store str_leb) (HL := pg_laws str_leb) adopting_provider claimed sample_plan (utc 2)
      crashed first_attempt sample_handle st w' (adopting_provider_lawful str_leb) _ _
      (proj1 crashed_good) (proj2 crashed_good) claimed_genuine _ _ _ E))).
    + vm_compute. split; discriminate.
    + reflexivity.
    + left.
    + vm_compute. reflexivity.
    + vm_compute. reflexivity.
  - exfalso. assert (is_ok (redispatch crashed).1 = true) as H by (vm_compute; reflexivity). by rewrite E in H.
Defined.

(** The plan of another graph is refused. *)
Lemma dispatch_refused_witness :
  exists e, dispatch_stored_run_attempt (HS := pg_store str_leb) adopting_provider
              {| st_record := queued_record sample_submission; st_revision := "" |} sample_plan (utc 2) crashed
            = (Raise e, crashed) /\ catches OrchestrationContractError e = true.
Proof.
  apply (dispatch_refused (HS := pg_store str_leb)). left. intros E.
  apply (f_equal (fun t => bool_decide (t.2 = zero_sha256))) in E. vm_compute in E. discriminate E.
Defined.
