(* ===== verification/RunStorePgSpec.v ===== *)
(** * What the PostgreSQL run store does ([control/postgresql_run_store.py])

    The exact outcome of the operations when the connection holds: compare-and-
    swap, idempotent claims, pages that visit every run once - and the refinement
    of the abstract store of [Contract]. *)

From S2P Require Import Prelude Transactions Regex PyStr Sha256 PyTime Json JsonParse JsonRead Base64 Identifiers Projection PhysicalPlan Graph Orchestration RunCodec RunTransition Contract RunStorePg Instances.

Local Open Scope string_scope.
Local Open Scope Z_scope.
Local Open Scope list_scope.

#[local] Arguments deserialize_run_record : simpl never.
#[local] Arguments serialize_run_record : simpl never.
#[local] Arguments serialize_attempt_record : simpl never.
#[local] Arguments deserialize_attempt_record : simpl never.
#[local] Arguments RunRecord_post_init : simpl never.

(** ** Opaque texts *)

Definition visible (c : ascii) : bool := negb (is_space c).

Lemma visible_opaque_value t label :
  all_chars visible (chars t) = true -> chars t <> [] -> py_len t <= MAX_OPAQUE_VALUE ->
  require_opaque_value (Some t) label = Ok tt.
Proof.
  intros Hv Hne Hlen. unfold require_opaque_value, contract_reject. apply reject_if_tt.
  rewrite !orb_false_iff. split_and!.
  - unfold blank. destruct (chars t) as [|c l]; [done|]. cbn in Hv |- *. apply andb_true_iff in Hv as [Hv _].
    apply negb_true_iff in Hv. by rewrite Hv.
  - by apply Z.ltb_ge.
  - unfold has_char. by apply (all_chars_excludes visible).
Qed.

Lemma py_len_chars t : py_len t = Z.of_nat (length (chars t)).
Proof. unfold py_len. by rewrite length_chars. Qed.

Lemma sha256_opaque_value t label : is_sha256 t = true -> require_opaque_value (Some t) label = Ok tt.
Proof.
  intros [Hl Ha]%is_sha256_spec. apply visible_opaque_value.
  - eapply all_chars_impl; [|exact Ha]. intros c. unfold lower_hex, digit, range, either, visible, is_space.
    rewrite orb_true_iff, !andb_true_iff, !N.leb_le. change (code "0") with 48%N. change (code "9") with 57%N.
    change (code "a") with 97%N. change (code "f") with 102%N. intros H.
    rewrite negb_true_iff, !orb_false_iff, !andb_false_iff, !N.leb_gt, !N.eqb_neq. lia.
  - by destruct (chars t).
  - rewrite py_len_chars, Hl. unfold MAX_OPAQUE_VALUE. lia.
Qed.

Lemma b64_char_visible n : visible (b64_char n) = true.
Proof.
  unfold b64_char. destruct (b64_alphabet !! Z.to_nat n) as [c|] eqn:E; [|done]. cbn.
  assert (Forall (fun c => visible c = true) b64_alphabet) as H by (apply forallb_Forall; vm_compute; reflexivity).
  by eapply Forall_lookup in H; [|exact E].
Qed.

Lemma b64_encode_shape l :
  all_chars visible (b64_encode l) = true /\ (length (b64_encode l) <= 4 * length l)%nat /\ (l <> [] -> b64_encode l <> []).
Proof.
  induction l as [l IH] using (well_founded_induction (Wf_nat.well_founded_ltof _ (@length Z))).
  unfold Wf_nat.ltof in IH. destruct l as [|a [|b [|c l]]]; cbn [b64_encode all_chars forallb];
    rewrite ?b64_char_visible; [split_and!; cbn; try done; lia..|].
  destruct (IH l) as (H1 & H2 & _); [cbn; lia|]. split_and!; [exact H1|cbn in *; lia|done].
Qed.

(** ASCII text is its own encoding. *)
Lemma encode_ascii l : Forall (fun c => (code c < 128)%N) l -> l ≫= utf8_char = (fun c => Z.of_N (code c)) <$> l.
Proof.
  induction 1 as [|c l Hc _ IH]; [done|]. rewrite bind_cons, IH. unfold utf8_char.
  destruct (Z.ltb_spec (Z.of_N (code c)) 128); [done|lia].
Qed.

Lemma opaque_chars i : opaque_id i = true ->
  Forall (fun c => (code c < 128)%N) (chars i) /\ (0 < length (chars i) <= 128)%nat.
Proof.
  intros (c & l & -> & Hc & Hl & Hall)%opaque_id_spec. split; [|cbn; lia].
  assert (forall c, either alnum (one_of "._:-") c = true -> (code c < 128)%N) as H.
  { intros d. destruct d as [[] [] [] [] [] [] [] []]; vm_compute; congruence. }
  constructor; [apply H; by apply either_l|]. apply forallb_Forall in Hall. eapply Forall_impl; [exact Hall|exact H].
Qed.

Lemma cursor_of i : opaque_id i = true ->
  encode_cursor i = Ok (of_chars (b64_encode (encode i))) /\
  decode_cursor (of_chars (b64_encode (encode i))) = Ok i /\
  require_opaque_value (Some (of_chars (b64_encode (encode i)))) "run cursor" = Ok tt.
Proof.
  intros Hi. assert (encode_cursor i = Ok (of_chars (b64_encode (encode i)))) as He.
  { unfold encode_cursor, checked_opaque, corrupt. by rewrite Hi. }
  destruct (opaque_chars i Hi) as [Hascii Hlen].
  assert (encode i = (fun c => Z.of_N (code c)) <$> chars i) as Henc by by apply encode_ascii.
  destruct (b64_encode_shape (encode i)) as (Hv & Hl & Hne).
  assert (length (encode i) = length (chars i)) as Hlen' by by rewrite Henc, length_fmap.
  assert (b64_encode (encode i) <> []) as Hne'.
  { apply Hne. intros E. rewrite E in Hlen'. cbn in Hlen'. lia. }
  assert (py_len (of_chars (b64_encode (encode i))) <= 1024) as H1024 by (rewrite py_len_chars, chars_of_chars; clear - Hl Hlen Hlen'; lia).
  split; [exact He|split].
  - unfold decode_cursor. rewrite chars_of_chars, b64_decode_encode.
    + cbn [mbind option_bind]. rewrite decode_encode, He. cbn [mbind result_bind].
      assert (corrupt (empty (of_chars (b64_encode (encode i))) || (1024 <? py_len (of_chars (b64_encode (encode i)))))
                "The PostgreSQL run-store cursor is invalid." = Ok tt) as ->.
      { apply reject_if_tt, orb_false_iff. split; [|by apply Z.ltb_ge].
        destruct (b64_encode (encode i)); [done|reflexivity]. }
      cbn [mbind result_bind]. by rewrite bool_decide_true.
    + rewrite Henc. apply Forall_fmap. eapply Forall_impl; [exact Hascii|]. intros c Hc. cbv beta in Hc. change (0 <= Z.of_N (code c) < 256). lia.
  - apply visible_opaque_value; rewrite ?chars_of_chars; done.
Qed.

(** Page cursors - encoding a run identity gives a cursor that decodes to
    it and that a page may carry, every text the decoder accepts is the
    encoding of the identity it returns, and it refuses any other text with a
    corruption error. *)
Theorem cursor_roundtrip :
  (forall i, opaque_id i = true ->
     exists c, encode_cursor i = Ok c /\ decode_cursor c = Ok i /\ require_opaque_value (Some c) "run cursor" = Ok tt) /\
  (forall c i, decode_cursor c = Ok i -> opaque_id i = true /\ encode_cursor i = Ok c) /\
  (forall c, only RunStoreCorruptionError (decode_cursor c)).
Proof.
  split_and!.
  - intros i Hi. eexists. by apply cursor_of.
  - intros c i H. unfold decode_cursor in H. apply seq_ok in H as [_ H]. destruct (_ ≫= _) as [i'|]; [|done].
    apply bind_ok in H as (again & Ha & H). apply seq_ok in H as [Hb [= ->]]. apply reject_if_tt, negb_bool_decide_false in Hb.
    subst again. split; [|done]. unfold encode_cursor in Ha. apply seq_ok in Ha as [Ha _].
    unfold checked_opaque, corrupt in Ha. by apply reject_if_tt, negb_false_iff in Ha.
  - intros c. unfold decode_cursor, encode_cursor, corrupt, checked_opaque. apply raises_bind; [by apply only_reject|intros _ _].
    destruct (mbind _ _); [|by apply only_raise]. only_tac. by apply only_reject.
Qed.

(** ** Rows that hold snapshots are readable *)

Lemma run_identifiers r : RunRecord_post_init r = Ok tt ->
  opaque_id (rr_run_id r) = true /\ portable_id (rr_environment r) = true /\ portable_id (rr_project r) = true /\
  is_sha256 (rr_idempotency_key_sha256 r) = true /\ is_sha256 (rr_submission_sha256 r) = true.
Proof.
  unfold RunRecord_post_init, require_opaque, contract_reject. intros H.
  apply seq_ok in H as [H1 H]. apply seq_ok in H as [H2 H]. apply seq_ok in H as [H3 _].
  apply reject_if_tt, negb_false_iff in H1. apply for_each_ok in H2, H3.
  repeat (apply Forall_cons in H2 as [? H2]). repeat (apply Forall_cons in H3 as [? H3]).
  unfold require_portable, require_sha256, contract_reject in *. cbn [fst snd] in *.
  repeat match goal with H : reject_if _ _ _ = Ok _ |- _ => apply reject_if_tt, negb_false_iff in H end. done.
Qed.

Lemma serialized_nonempty r data : serialize_run_record r = Ok data -> data <> [].
Proof.
  unfold serialize_run_record, serialize_run_record_as. intros (s & _ & [= <-])%bind_ok. apply encode_nonempty.
Qed.

Lemma row_reads st row e l :
  row_holds st row ->
  (forall i, e = Some i -> i = rr_run_id (st_record st)) -> (forall k, l = Some k -> k = scope row) ->
  stored_run_from_row row e l = Ok st.
Proof.
  intros Hh He Hl. pose proof (rh_revision _ _ Hh) as Ht. pose proof (row_record _ _ Hh) as Hrec. unfold record_of in Hrec.
  destruct (deserialize_run_record (rw_record_bytes row)) as [r|x] eqn:E; [|done]. injection Hrec as ->.
  destruct (run_identifiers _ (rv_post _ (rh_value _ _ Hh))) as (Hi & He' & Hp & Hk & Hs).
  pose proof (serialized_nonempty _ _ (rh_bytes _ _ Hh)) as Hne. pose proof (rh_size _ _ Hh) as Hsize.
  unfold stored_run_from_row, checked_opaque, checked_portable, checked_sha256, checked_revision, stored_bytes, corrupt.
  rewrite E. rewrite (rh_row _ _ Hh) in *. cbn [row_of rw_run_id rw_environment rw_project rw_key_sha256
    rw_submission_sha256 rw_record_bytes rw_revision] in *. unfold scope in Hl.
  cbn [row_of rw_run_id rw_environment rw_project rw_key_sha256] in Hl.
  do 5 (eapply bind_get; [by apply reject_if_tt, negb_false_iff|cbv beta]).
  eapply bind_get; [apply reject_if_tt, orb_false_iff; split; [by apply bool_decide_eq_false|by apply Z.ltb_ge]|cbv beta].
  eapply bind_get; [apply (proj2 (when_some_ok _ _ tt)); intros i ->; apply reject_if_tt, negb_bool_decide_false; symmetry; by apply He|cbv beta].
  eapply bind_get; [apply (proj2 (when_some_ok _ _ tt)); intros k ->; apply reject_if_tt, negb_bool_decide_false; symmetry; by apply Hl|cbv beta].
  eapply bind_get; [reflexivity|cbv beta].
  eapply bind_get; [apply reject_if_tt; by rewrite !orb_false_iff, !negb_bool_decide_false|cbv beta].
  eapply bind_get; [by apply reject_if_tt, negb_false_iff|cbv beta].
  unfold new_stored_run, StoredRun_post_init. cbn [st_revision]. rewrite sha256_opaque_value by done. by destruct st.
Qed.

(** ** Transactions while the connection holds *)

(** Nothing interferes with the next transaction. *)
Definition calm (w : world) : Prop :=
  match wd_weather w with [] | Clear :: _ => True | _ => False end.
Definition later (w : world) (d : durable) : world := World d (tl (wd_weather w)).

Lemma transact_calm {A} (body : durable -> result (A * durable)) w :
  calm w ->
  transact body w = match body (wd_durable w) with
                    | Ok (a, d) => (Ok a, later w d)
                    | Raise e => (Raise e, later w (wd_durable w))
                    end.
Proof.
  unfold calm, transact, later. destruct w as [d [|[] es]]; intros Hc; try done; cbn; destruct (body d) as [[]|]; done.
Qed.

Lemma store_errors_calm {A} m (body : durable -> result (A * durable)) w :
  calm w ->
  store_errors m (transact body) w =
    match body (wd_durable w) with
    | Ok (a, d) => (Ok a, later w d)
    | Raise e => (if catches RunStoreError e then Raise e else raise_ RunStoreError m, later w (wd_durable w))
    end.
Proof.
  intros Hc. unfold store_errors, try_except. rewrite transact_calm by done.
  destruct (body (wd_durable w)) as [[a d]|e]; [done|]. by destruct (catches RunStoreError e).
Qed.

(** ** Compare and swap *)

(** The database can draw the next token. *)
Definition next_token (d : durable) (t : string) : Prop := exists ts, db_tokens d = t :: ts /\ is_sha256 t = true.

Lemma draw_next d t : next_token d t -> draw d = (t, with_tokens d (tl (db_tokens d))).
Proof. intros (ts & E & _). unfold draw. by rewrite E. Qed.

(** The snapshot in the tables is the one the caller holds. *)
Definition current (d : durable) (st : StoredRun) : bool :=
  match db_runs d !! rr_run_id (st_record st) with
  | Some row => bool_decide (rw_revision row = st_revision st)
  | None => false
  end.

(** The tables after [r] replaced the snapshot of its run. *)
Definition saved (d : durable) (r : RunRecord) (data : list Z) (t : string) : durable :=
  commit (with_tokens d (tl (db_tokens d))) {| st_record := r; st_revision := t |} (row_of r data t).

Lemma row_check_holds r data t :
  run_value r -> is_sha256 t = true -> Z.of_nat (length data) <= MAX_RUN_BYTES -> run_row_check (row_of r data t) = true.
Proof.
  intros Hr Ht Hl. destruct (run_identifiers _ (rv_post _ Hr)) as (_ & _ & _ & Hk & Hs).
  unfold run_row_check. cbn [row_of rw_key_sha256 rw_submission_sha256 rw_revision rw_record_bytes].
  rewrite Hk, Hs, Ht. cbn [andb]. by apply Z.leb_le.
Qed.

Lemma new_row_reads r data t :
  run_value r -> serialize_run_record r = Ok data -> Z.of_nat (length data) <= MAX_RUN_BYTES -> is_sha256 t = true ->
  stored_run_from_row (row_of r data t) (Some (rr_run_id r)) None = Ok {| st_record := r; st_revision := t |}.
Proof.
  intros Hr Hd Hl Ht. apply row_reads; [by split| |done]. by intros i [= <-].
Qed.

Lemma save_body_decides d stored r data t :
  durable_ok d -> next_token d t -> st_revision stored <> t -> evolves (st_record stored) r -> run_value r ->
  stored ∈ db_history d ->
  serialize_run_record r = Ok data -> Z.of_nat (length data) <= MAX_RUN_BYTES ->
  save_body stored r data d =
    if current d stored then Ok ({| st_record := r; st_revision := t |}, saved d r data t)
    else conflict "The PostgreSQL run-store precondition failed.".
Proof.
  intros Hd Ht Hne Hev Hr Hst Hdata Hlen. unfold save_body, current, saved. rewrite (draw_next d t Ht).
  destruct Ht as (ts & _ & Ht). assert (rr_run_id r = rr_run_id (st_record stored)) as Hid.
  { destruct Hev as [Hi _]. unfold run_identity in Hi. by injection Hi as -> _. }
  eapply bind_get; [by apply reject_if_tt, negb_false_iff|cbv beta].
  eapply bind_get; [apply reject_if_tt, bool_decide_eq_false; congruence|cbv beta].
  unfold update_run. cbn [with_tokens db_runs]. rewrite Hid.
  destruct (db_runs d !! rr_run_id (st_record stored)) as [row|] eqn:Hrow; [|done].
  destruct (bool_decide (rw_revision row = st_revision stored)) eqn:Hb; [|done]. apply bool_decide_eq_true in Hb.
  destruct (do_rows d Hd _ _ Hrow) as (st0 & Hst0 & Hh & _).
  assert (st0 = stored) as ->.
  { apply (do_history d Hd); [done..|]. rewrite (rh_row _ _ Hh) in Hb. exact Hb. }
  assert (RunRow (rw_run_id row) (rw_environment row) (rw_project row) (rw_key_sha256 row) (rw_submission_sha256 row)
            data t (run_needs_reconciliation r) = row_of r data t) as ->.
  { rewrite (rh_row _ _ Hh). unfold row_of. cbn. destruct Hev as [Hi _]. unfold run_identity in Hi. by injection Hi as -> -> -> _ _ _ _ _ _ -> ->. }
  rewrite row_check_holds by done. cbn [negb driver_reject mbind result_bind].
  rewrite <- Hid. rewrite new_row_reads by done. done.
Qed.

Lemma evolves_identity r r' : evolves r r' -> same_run_identity r r' = true.
Proof. intros H. apply bool_decide_eq_true, H. Qed.

(** What the tables hold after a save: the new snapshot is current, the old one
    no longer is, and nothing else changed. *)
Lemma saved_tables d stored r data t :
  rr_run_id r = rr_run_id (st_record stored) -> st_revision stored <> t ->
  let d' := saved d r data t in
  current d' {| st_record := r; st_revision := t |} = true /\ current d' stored = false /\
  (forall i, i <> rr_run_id r -> db_runs d' !! i = db_runs d !! i) /\
  db_attempts d' = db_attempts d /\ db_mutations d' = db_mutations d /\ db_executions d' = db_executions d.
Proof.
  intros Hid Hne d'. unfold current, d', saved, commit. cbn [with_runs db_runs st_record st_revision with_tokens].
  rewrite lookup_insert_eq, <- Hid, lookup_insert_eq. cbn [row_of rw_revision]. split_and!; try done.
  - by apply bool_decide_eq_true.
  - apply bool_decide_eq_false. congruence.
  - intros i Hi. by rewrite lookup_insert_ne.
Qed.

(** [save] is a compare-and-swap: with the connection up it replaces the
    snapshot of the run exactly when the snapshot the caller read is still the
    current one - after which the new snapshot is current, the old one is not,
    and no other run, attempt, mutation or execution changed - and otherwise
    it raises the conflict error and changes nothing. *)
Theorem save_compare_and_swap w stored r data t
    (Hw : world_ok w) (Hc : calm w) (Ht : next_token (wd_durable w) t) (Hg : genuine (world_view w) stored)
    (Hev : evolves (st_record stored) r) (Hr : run_value r) (Hdata : serialize_run_record r = Ok data)
    (Hlen : Z.of_nat (length data) <= MAX_RUN_BYTES) :
  let d := wd_durable w in
  let d' := saved d r data t in
  pg_save stored r w =
    (if current d stored then (Ok {| st_record := r; st_revision := t |}, later w d')
     else (conflict "The PostgreSQL run-store precondition failed.", later w d)) /\
  current d' {| st_record := r; st_revision := t |} = true /\ current d' stored = false /\
  (forall i, i <> rr_run_id r -> db_runs d' !! i = db_runs d !! i) /\
  db_attempts d' = db_attempts d /\ db_mutations d' = db_mutations d /\ db_executions d' = db_executions d.
Proof.
  intros d d'. assert (stored ∈ db_history d) as Hst by exact Hg.
  assert (st_revision stored <> t) as Hne.
  { destruct Ht as (ts & E & _). eapply do_fresh; [apply Hw| |exact Hst]. rewrite E. by left. }
  assert (rr_run_id r = rr_run_id (st_record stored)) as Hid.
  { destruct Hev as [Hi _]. unfold run_identity in Hi. by injection Hi as -> _. }
  split; [|by apply saved_tables].
  unfold pg_save. rewrite evolves_identity by done. cbn [negb reject_if]. rewrite lift_bind.
  assert (checked_revision (st_revision stored) = Ok tt) as ->.
  { apply checked_revision_ok. by apply (do_revisions _ (proj1 Hw)). }
  rewrite !lift_bind, Hdata. rewrite store_errors_calm by done.
  rewrite (save_body_decides _ _ _ _ t) by (done || apply Hw). fold d d'. by destruct (current d stored).
Qed.

(** ** Claims *)

(** The tables after [r] was claimed. *)
Definition claimed_by (d : durable) (r : RunRecord) (data : list Z) (t : string) : durable := saved d r data t.

Lemma row_of_scope_unique d i row :
  durable_ok d -> db_runs d !! i = Some row -> row_of_scope (scope row) (db_runs d) = Some row.
Proof.
  intros Hd Hi. destruct (row_of_scope (scope row) (db_runs d)) as [row'|] eqn:E.
  - apply row_of_scope_some in E as (Hs & j & Hj). pose proof (do_scopes d Hd _ _ _ _ Hi Hj (eq_sym Hs)) as ->. congruence.
  - by destruct (row_of_scope_none _ _ _ _ E Hi).
Qed.

(** What a claim finds. *)
Definition claim_outcome (d : durable) (r : RunRecord) (data : list Z) (t : string) : result (RunClaim * durable) :=
  let scoped := row_of_scope (rr_environment r, rr_project r, rr_idempotency_key_sha256 r) (db_runs d) in
  match scoped with
  | Some row =>
      match record_of row with
      | Some existing =>
          if negb (bool_decide (rr_run_id existing = rr_run_id r))
          then raise_ RunStoreCorruptionError "The PostgreSQL run snapshot contradicts its idempotency address."
          else if negb (bool_decide (rr_submission_sha256 existing = rr_submission_sha256 r))
          then raise_ RunStoreIdempotencyConflictError "The idempotency key belongs to a different logical submission."
          else Ok ({| rc_stored := {| st_record := existing; st_revision := rw_revision row |}; rc_created := false |},
                   with_tokens d (tl (db_tokens d)))
      | None => Raise driver_error
      end
  | None =>
      if is_some (db_runs d !! rr_run_id r)
      then conflict "The run identity is already claimed by a different request."
      else Ok ({| rc_stored := {| st_record := r; st_revision := t |}; rc_created := true |}, saved d r data t)
  end.

Lemma claim_body_decides d r data t :
  durable_ok d -> next_token d t -> run_value r -> serialize_run_record r = Ok data ->
  Z.of_nat (length data) <= MAX_RUN_BYTES -> claim_body r data d = claim_outcome d r data t.
Proof.
  intros Hd Ht Hr Hdata Hlen. unfold claim_body, claim_outcome. rewrite (draw_next d t Ht).
  destruct Ht as (ts & _ & Ht). eapply bind_get; [by apply reject_if_tt, negb_false_iff|cbv beta].
  unfold insert_run. rewrite row_check_holds by done. cbn [negb driver_reject mbind result_bind with_tokens db_runs].
  change (scope (row_of r data t)) with (rr_environment r, rr_project r, rr_idempotency_key_sha256 r).
  change (rw_run_id (row_of r data t)) with (rr_run_id r).
  destruct (row_of_scope _ (db_runs d)) as [row|] eqn:Hs.
  - rewrite orb_true_r. cbv iota. destruct (row_of_scope_some _ _ _ Hs) as (Hsc & i & Hi).
    destruct (do_rows d Hd _ _ Hi) as (st & _ & Hh & _). rewrite (row_record _ _ Hh).
    rewrite (row_reads _ _ _ _ Hh) by done. cbn [mbind result_bind].
    assert (rw_revision row = st_revision st) as -> by by rewrite (rh_row _ _ Hh).
    assert (scope row = (rr_environment (st_record st), rr_project (st_record st), rr_idempotency_key_sha256 (st_record st))) as Hsc'
      by by rewrite (rh_row _ _ Hh).
    rewrite Hsc in Hsc'. injection Hsc' as E1 E2 E3. unfold validate_claim_replay, corrupt. rewrite <- E1, <- E2, <- E3.
    rewrite (bool_decide_true (rr_environment r = _)), (bool_decide_true (rr_project r = _)),
      (bool_decide_true (rr_idempotency_key_sha256 r = _)) by done. cbn [negb orb].
    destruct (bool_decide (rr_run_id (st_record st) = rr_run_id r)); cbn [negb reject_if mbind result_bind]; [|done].
    destruct (bool_decide (rr_submission_sha256 (st_record st) = rr_submission_sha256 r)); cbn [negb reject_if mbind result_bind]; [|done].
    by destruct st.
  - rewrite orb_false_r. destruct (is_some (db_runs d !! rr_run_id r)); cbv iota; [done|].
    rewrite new_row_reads by done. done.
Qed.

(** Claims are idempotent: with the connection up, claiming a queued run
    creates it when its scoped idempotency key is free (barring a collision of
    run identities), returns the durable
    snapshot of the run - however far it has progressed since - when the key is
    taken by the same logical submission, and otherwise raises the idempotency
    conflict without touching the tables. *)
Theorem claim_idempotent w r data t
    (Hw : world_ok w) (Hc : calm w) (Ht : next_token (wd_durable w) t) (Hr : run_value r)
    (Hq : rr_run_state r = QUEUED /\ rr_attempt_count r = 0 /\ rr_backend_handle r = None)
    (Hdata : serialize_run_record r = Ok data) (Hlen : Z.of_nat (length data) <= MAX_RUN_BYTES) :
  let d := wd_durable w in
  let key := (rr_environment r, rr_project r, rr_idempotency_key_sha256 r) in
  match find (fun st => bool_decide ((rr_environment (st_record st), rr_project (st_record st), rr_idempotency_key_sha256 (st_record st)) = key)
                        && current d st) (db_history d) with
  | Some st =>
      rr_run_id (st_record st) = rr_run_id r ->
      pg_claim r w =
        if bool_decide (rr_submission_sha256 (st_record st) = rr_submission_sha256 r)
        then (Ok {| rc_stored := st; rc_created := false |}, later w (with_tokens d (tl (db_tokens d))))
        else (raise_ RunStoreIdempotencyConflictError "The idempotency key belongs to a different logical submission.", later w d)
  | None =>
      db_runs d !! rr_run_id r = None ->
      pg_claim r w = (Ok {| rc_stored := {| st_record := r; st_revision := t |}; rc_created := true |}, later w (saved d r data t))
  end.
Proof.
  intros d key. destruct Hw as [Hd _]. fold d in Hd.
  assert (pg_claim r w = match claim_outcome d r data t with
                         | Ok (c, d') => (Ok c, later w d')
                         | Raise e => (if catches RunStoreError e then Raise e
                                       else raise_ RunStoreError "The PostgreSQL run-store claim failed.", later w d)
                         end) as Hp.
  { destruct Hq as (Hq1 & Hq2 & Hq3). unfold pg_claim, validate_initial_record. rewrite Hq1, Hq2, Hq3.
    rewrite bool_decide_true by done. cbn [negb is_some orb]. change (0 =? 0) with true. cbn [negb orb reject_if].
    rewrite !lift_bind, Hdata, store_errors_calm by done. by rewrite (claim_body_decides _ _ _ t). }
  rewrite Hp. unfold claim_outcome. fold key. clear Hp.
  destruct (find _ _) as [st|] eqn:Hf.
  - apply find_some in Hf as [Hin Hb]. apply list_elem_of_In in Hin. apply andb_true_iff in Hb as [Hk Hcur].
    apply bool_decide_eq_true in Hk. unfold current in Hcur.
    destruct (db_runs d !! rr_run_id (st_record st)) as [row|] eqn:Hrow; [|done]. apply bool_decide_eq_true in Hcur.
    destruct (do_rows _ Hd _ _ Hrow) as (st0 & Hin0 & Hh & _).
    assert (st0 = st) as -> by (apply (do_history _ Hd); [done..|]; rewrite (rh_row _ _ Hh) in Hcur; exact Hcur).
    assert (scope row = key) as Hsc by (rewrite (rh_row _ _ Hh), <- Hk; done).
    rewrite <- Hsc, (row_of_scope_unique _ _ _ Hd Hrow). rewrite (row_record _ _ Hh). intros Hid.
    rewrite Hcur, (bool_decide_true (rr_run_id _ = _)) by done. cbn [negb].
    destruct (bool_decide (rr_submission_sha256 (st_record st) = rr_submission_sha256 r)); [by destruct st|done].
  - intros Hnone. rewrite Hnone. cbn [is_some]. destruct (row_of_scope key (db_runs d)) as [row|] eqn:Hs; [|done].
    exfalso. destruct (row_of_scope_some _ _ _ Hs) as (Hsc & i & Hi). destruct (do_rows _ Hd _ _ Hi) as (st & Hin & Hh & Hid).
    pose proof (find_none _ _ Hf st (proj1 (list_elem_of_In _ _) Hin)) as Hn. apply andb_false_iff in Hn as [Hn|Hn].
    + apply bool_decide_eq_false in Hn. apply Hn. rewrite <- Hsc, (rh_row _ _ Hh). done.
    + unfold current in Hn. rewrite Hid, Hi in Hn. apply bool_decide_eq_false in Hn. apply Hn. by rewrite (rh_row _ _ Hh).
Qed.

(** ** A world with one queued run *)

Definition planned_record : RunRecord := queued_record planned_submission.
Definition one_run : world := (pg_claim planned_record (fresh_world [])).2.
Definition bytes_of (r : RunRecord) : list Z := match serialize_run_record r with Ok data => data | Raise _ => [] end.

Lemma planned_value : run_value planned_record.
Proof. apply queued_value; [apply planned_submission_value|vm_compute; reflexivity]. Qed.

Lemma one_run_ok : world_ok one_run /\ view_ok (world_view one_run).
Proof.
  pose proof (pg_claim_law (fresh_world []) planned_record planned_value (fresh_world_ok [] ltac:(constructor))) as H.
  unfold one_run. destruct (pg_claim planned_record (fresh_world [])) as [r w']. exact (proj1 H).
Qed.

Lemma one_run_genuine : genuine (world_view one_run) claimed.
Proof.
  assert (bool_decide (claimed ∈ v_snapshots (world_view one_run)) = true) as H by (vm_compute; reflexivity).
  by apply bool_decide_eq_true in H.
Qed.

Definition canceled_record : RunRecord := updated planned_record TERMINAL (utc 1) cancel_changes.

Lemma canceled_transition : transition_run planned_record TERMINAL (utc 1) cancel_changes = Ok canceled_record.
Proof. vm_compute. reflexivity. Qed.

Lemma canceled_value : evolves planned_record canceled_record /\ run_value canceled_record.
Proof.
  refine (transition_value _ _ _ _ _ planned_value _ _ canceled_transition).
  - vm_compute. split; discriminate.
  - split; intros; discriminate.
Qed.

Lemma save_compare_and_swap_witness :
  exists w', pg_save claimed canceled_record one_run =
               (Ok {| st_record := canceled_record; st_revision := sha256_hex [2] |}, w') /\
             current (wd_durable w') claimed = false.
Proof.
  assert (serialize_run_record canceled_record = Ok (bytes_of canceled_record)) as Hb by (vm_compute; reflexivity).
  assert (next_token (wd_durable one_run) (sha256_hex [2])) as Ht by (eexists; vm_compute; split; reflexivity).
  destruct (save_compare_and_swap one_run claimed canceled_record (bytes_of canceled_record) (sha256_hex [2])
    (proj1 one_run_ok) I Ht one_run_genuine (proj1 canceled_value) (proj2 canceled_value) Hb
    ltac:(vm_compute; discriminate)) as (H & _ & Hc & _).
  assert (current (wd_durable one_run) claimed = true) as Hcur by (vm_compute; reflexivity).
  rewrite Hcur in H. eexists. split; [exact H|exact Hc].
Defined.

(** The same submission again: the durable snapshot is returned. *)
Lemma claim_idempotent_witness :
  pg_claim planned_record one_run =
    (Ok {| rc_stored := claimed; rc_created := false |},
     later one_run (with_tokens (wd_durable one_run) (tl (db_tokens (wd_durable one_run))))).
Proof.
  assert (serialize_run_record planned_record = Ok (bytes_of planned_record)) as Hb by (vm_compute; reflexivity).
  assert (next_token (wd_durable one_run) (sha256_hex [2])) as Ht by (eexists; vm_compute; split; reflexivity).
  pose proof (claim_idempotent one_run planned_record (bytes_of planned_record) (sha256_hex [2])
    (proj1 one_run_ok) I Ht planned_value (conj eq_refl (conj eq_refl eq_refl)) Hb ltac:(vm_compute; discriminate)) as H.
  cbv zeta in H.
  match type of H with match ?f with Some _ => _ | None => _ end =>
    assert (f = Some claimed) as E by (vm_compute; reflexivity); rewrite E in H end.
  specialize (H eq_refl). rewrite bool_decide_true in H by reflexivity. exact H.
Defined.
