(* ===== verification/RunStorePages.v ===== *)
(** * Pages of the PostgreSQL run store ([PostgreSQLRunStore._list])

    A client that follows the cursors from the first page on sees every run of
    the tables exactly once, in the order of the identities, and stops. *)

From S2P Require Import Prelude Transactions Regex PyStr Sha256 PyTime Json JsonParse JsonRead Base64 Identifiers Projection PhysicalPlan Graph Orchestration RunCodec RunTransition Contract RunStorePg Instances RunStorePgSpec.

Local Open Scope string_scope.
Local Open Scope Z_scope.
Local Open Scope list_scope.

#[local] Arguments deserialize_run_record : simpl never.

Section Pages.
Context (collate : string -> string -> bool) `{!TotalLeb collate}.
Context (collate_antisym : forall a b, collate a b = true -> collate b a = true -> a = b).

Let before (x y : run_row) : Prop := key_leb rw_run_id collate x y = true.

(** All the rows of a query, in order. *)
Definition listing (pending : bool) (after : option string) (d : durable) : list run_row :=
  py_sorted (key_leb rw_run_id collate)
    (filter (fun row => selected collate pending after row = true) (snd <$> map_to_list (db_runs d))).

Lemma listing_sorted pending after d : StronglySorted before (listing pending after d).
Proof. apply py_sorted_sorted; [apply leb_total|apply leb_trans]. Qed.

Lemma listing_in pending after d row :
  row ∈ listing pending after d <-> selected collate pending after row = true /\ exists i, db_runs d !! i = Some row.
Proof.
  unfold listing. rewrite py_sorted_perm, list_elem_of_filter, list_elem_of_fmap. split; intros [Hs H]; (split; [done|]).
  - destruct H as ([i row'] & -> & H). exists i. by apply elem_of_map_to_list.
  - destruct H as [i H]. exists (i, row). split; [done|]. by apply elem_of_map_to_list.
Qed.

Lemma row_id d i row : durable_ok d -> db_runs d !! i = Some row -> rw_run_id row = i.
Proof. intros Hd Hi. destruct (do_rows d Hd _ _ Hi) as (st & _ & Hh & <-). by rewrite (rh_row _ _ Hh). Qed.

Lemma listing_ids d pending after : durable_ok d -> NoDup (rw_run_id <$> listing pending after d).
Proof.
  intros Hd. unfold listing. rewrite py_sorted_perm.
  assert (NoDup (rw_run_id <$> (snd <$> map_to_list (db_runs d)))) as H.
  { rewrite <- list_fmap_compose. erewrite (list_fmap_ext _ fst); [apply NoDup_fst_map_to_list|].
    intros k [i row] Hk. cbn. apply (row_id d); [done|]. apply elem_of_map_to_list. by eapply list_elem_of_lookup_2. }
  induction (snd <$> map_to_list (db_runs d)) as [|x l IH]; [constructor|]. rewrite fmap_cons, NoDup_cons in H.
  destruct H as [Hx Hl]. rewrite filter_cons. destruct (decide _); [|by apply IH]. rewrite fmap_cons, NoDup_cons.
  split; [|by apply IH]. rewrite list_elem_of_fmap. intros (y & E & Hy). apply Hx. apply list_elem_of_fmap.
  exists y. split; [done|]. by apply list_elem_of_filter in Hy as [_ Hy].
Qed.

(** Two rows of the tables with the same identity are the same row. *)
Lemma before_antisym d x y i j :
  durable_ok d -> db_runs d !! i = Some x -> db_runs d !! j = Some y -> before x y -> before y x -> x = y.
Proof.
  intros Hd Hi Hj Hxy Hyx. pose proof (collate_antisym _ _ Hxy Hyx) as E.
  rewrite (row_id d i x), (row_id d j y) in E by done. congruence.
Qed.

(** After the row of a cursor, what remains is the rest of the first query. *)
Lemma listing_after d pending l1 row l2 :
  durable_ok d -> listing pending None d = l1 ++ row :: l2 -> listing pending (Some (rw_run_id row)) d = l2.
Proof.
  intros Hd E. pose proof (listing_sorted pending None d) as Hs. rewrite E in Hs.
  assert (forall x, x ∈ l1 ++ row :: l2 -> exists i, db_runs d !! i = Some x) as Hin.
  { intros x Hx. rewrite <- E in Hx. apply listing_in in Hx as [_ Hx]. exact Hx. }
  assert (exists i, db_runs d !! i = Some row) as [i Hi] by (apply Hin; set_solver).
  apply (StronglySorted_unique_strong before).
  - intros x y Hx Hy. apply listing_in in Hx as [_ [j Hj]].
    destruct (Hin y) as [k Hk]; [set_solver|]. by apply (before_antisym d _ _ j k).
  - apply listing_sorted.
  - by apply (StronglySorted_app_1_r before [row]), (StronglySorted_app_1_r before l1).
  - unfold listing at 1. rewrite py_sorted_perm.
    assert (filter (fun r => selected collate pending (Some (rw_run_id row)) r = true) (snd <$> map_to_list (db_runs d)) ≡ₚ
            filter (fun r => selected collate pending (Some (rw_run_id row)) r = true) (listing pending None d)) as ->.
    { unfold listing. rewrite py_sorted_perm, list_filter_filter_l; [done|].
      intros x. unfold selected. rewrite !andb_true_iff. tauto. }
    rewrite E, filter_app, filter_cons_False, filter_forall_nil, filter_forall_id; [done|..].
    + apply Forall_forall. intros x Hx. unfold selected. rewrite andb_true_iff, negb_true_iff. split.
      * assert (x ∈ listing pending None d) as [Hsel _]%listing_in by (rewrite E; set_solver).
        unfold selected in Hsel. by apply andb_true_iff in Hsel as [Hsel _].
      * destruct (collate (rw_run_id x) (rw_run_id row)) eqn:Hc; [|done]. exfalso.
        destruct (Hin x) as [j Hj]; [set_solver|].
        assert (before row x) as Hb by (eapply (StronglySorted_app_1_elem_of before (l1 ++ [row]) l2); [rewrite <- app_assoc; exact Hs|set_solver..]).
        assert (x = row) as -> by by apply (before_antisym d _ _ j i).
        pose proof (listing_ids d pending None Hd) as Hnd. rewrite E, fmap_app, fmap_cons in Hnd.
        apply NoDup_app in Hnd as (_ & _ & Hnd). apply NoDup_cons in Hnd as [Hnd _]. apply Hnd. by apply list_elem_of_fmap_2.
    + apply Forall_forall. intros x Hx. unfold selected. rewrite andb_true_iff, negb_true_iff. intros [_ Hc].
      assert (before x row) as Hb by (eapply (StronglySorted_app_1_elem_of before); [exact Hs|done|left]).
      unfold before, key_leb in Hb. congruence.
    + unfold selected. rewrite andb_true_iff, negb_true_iff. intros [_ Hc]. destruct (leb_total (leb := collate) (rw_run_id row) (rw_run_id row)); congruence.
Qed.

(** ** One page *)

Definition holds_in (d : durable) (row : run_row) (st : StoredRun) : Prop := st ∈ db_history d /\ row_holds st row.

Lemma rows_read d rows :
  durable_ok d -> (forall row, row ∈ rows -> exists i, db_runs d !! i = Some row) ->
  exists items, read_all (fun row => stored_run_from_row row None None) rows = Ok items /\ Forall2 (holds_in d) rows items.
Proof.
  intros Hd. induction rows as [|row rows IH]; intros Hin; [by exists []|].
  destruct (Hin row) as [i Hi]; [left|]. destruct (do_rows d Hd _ _ Hi) as (st & Hst & Hh & _).
  destruct IH as (items & Hr & Hf); [intros x Hx; apply Hin; by right|].
  exists (st :: items). cbn [read_all]. rewrite (row_reads _ _ _ _ Hh) by done. cbn [mbind result_bind].
  rewrite Hr. split; [done|]. by constructor.
Qed.

(** The cursor of the page that starts with [l] and is followed by more rows. *)
Definition cursor_after (l : list run_row) (limit : Z) : option string :=
  match last (take (Z.to_nat limit) l) with
  | Some row => if limit <? Z.of_nat (length l) then Some (of_chars (b64_encode (encode (rw_run_id row)))) else None
  | None => None
  end.

Lemma last_forall2 {A B} (R : A -> B -> Prop) l k :
  Forall2 R l k -> match last l, last k with Some x, Some y => R x y | None, None => True | _, _ => False end.
Proof.
  induction 1 as [|x y l k Hxy Hlk IH]; [done|]. destruct Hlk as [|x' y' l k Hxy' Hlk]; [done|exact IH].
Qed.

Lemma holds_opaque d row st : holds_in d row st -> opaque_id (rr_run_id (st_record st)) = true /\ rw_run_id row = rr_run_id (st_record st).
Proof.
  intros [_ Hh]. split; [|by rewrite (rh_row _ _ Hh)]. by apply run_identifiers, (rv_post _ (rh_value _ _ Hh)).
Qed.

Lemma list_body_page d pending after limit :
  durable_ok d -> 1 <= limit <= 100 ->
  exists items, Forall2 (holds_in d) (take (Z.to_nat limit) (listing pending after d)) items /\
    list_body collate pending after limit d =
      Ok {| pg_items := items; pg_next_cursor := cursor_after (listing pending after d) limit |}.
Proof.
  intros Hd Hlim. set (M := listing pending after d). set (n := Z.to_nat limit).
  assert (take n (select_page collate pending after (Z.to_nat (limit + 1)) d) = take n M) as Etake.
  { unfold select_page. fold (listing pending after d). rewrite take_take. f_equal. lia. }
  assert ((limit <? Z.of_nat (length (select_page collate pending after (Z.to_nat (limit + 1)) d)))
          = (limit <? Z.of_nat (length M))) as Elen.
  { unfold select_page. fold (listing pending after d). rewrite length_take. fold M. apply eq_true_iff_eq.
    rewrite !Z.ltb_lt. lia. }
  destruct (rows_read d (take n M) Hd) as (items & Hread & Hitems).
  { intros row (k & Hk%list_elem_of_lookup_2 & _)%elem_of_take. by apply listing_in in Hk as [_ Hk]. }
  exists items. split; [exact Hitems|]. unfold list_body. fold n. rewrite Etake, Elen, Hread. cbn [mbind result_bind].
  pose proof (last_forall2 _ _ _ Hitems) as Hlast. unfold cursor_after. fold n.
  assert (Z.of_nat (length items) <= 100) as Hcount.
  { rewrite <- (Forall2_length _ _ _ Hitems), length_take. lia. }
  assert (StoredRunPage_post_init {| pg_items := items; pg_next_cursor := None |} = Ok tt) as Hnone.
  { unfold StoredRunPage_post_init, contract_reject. cbn [pg_items pg_next_cursor when_some].
    rewrite (proj2 (Z.ltb_ge _ _)) by lia. done. }
  destruct (last (take n M)) as [row|], (last items) as [st|]; try done.
  - destruct (holds_opaque _ _ _ Hlast) as [Ho ->].
    destruct (limit <? Z.of_nat (length M)); cbn [mbind result_bind]; [|by rewrite Hnone].
    destruct (cursor_of _ Ho) as (-> & _ & Hv). cbn [mbind result_bind].
    unfold StoredRunPage_post_init, contract_reject in *. cbn [pg_items pg_next_cursor when_some] in *.
    rewrite (proj2 (Z.ltb_ge _ _)) by lia. cbn [reject_if mbind result_bind]. rewrite Hv. done.
  - cbn [mbind result_bind]. by rewrite Hnone.
Qed.

(** ** Following the cursors *)

(** A client that asks for the next page as long as there is one; [None] when
    a page fails or the fuel runs out. *)
Fixpoint visit (fuel : nat) (pending : bool) (cursor : option string) (limit : Z) (w : world) : option (list StoredRun) :=
  match fuel with
  | O => None
  | S fuel =>
      match pg_list collate pending cursor limit w with
      | (Ok page, w') =>
          match pg_next_cursor page with
          | None => Some (pg_items page)
          | Some c => rest ← visit fuel pending (Some c) limit w'; Some (pg_items page ++ rest)
          end
      | (Raise _, _) => None
      end
  end.

Definition cursor_names (cursor : option string) (after : option string) : Prop :=
  match cursor, after with
  | None, None => True
  | Some c, Some a => decode_cursor c = Ok a
  | _, _ => False
  end.

Lemma pg_list_quiet d pending cursor after limit :
  cursor_names cursor after -> 1 <= limit <= 100 ->
  pg_list collate pending cursor limit (World d []) =
    (match list_body collate pending after limit d with
     | Ok p => Ok p
     | Raise e => if catches RunStoreError e then Raise e else raise_ RunStoreError "The PostgreSQL run-store list failed."
     end, World d []).
Proof.
  intros Hc Hlim. unfold pg_list. rewrite lift_bind, (proj2 (Z.leb_le 1 limit)), (proj2 (Z.leb_le limit 100)) by lia.
  cbn [andb negb corrupt reject_if]. rewrite lift_bind.
  assert (match cursor with Some c => a ← decode_cursor c; Ok (Some a) | None => Ok None end = Ok after) as ->.
  { destruct cursor as [c|], after as [a|]; cbn in Hc; try done. by rewrite Hc. }
  unfold query. rewrite store_errors_calm by done. cbn [wd_durable]. unfold later. cbn [wd_weather tl].
  by destruct (list_body collate pending after limit d).
Qed.

Lemma visit_rest d pending limit :
  durable_ok d -> 1 <= limit <= 100 ->
  forall fuel cursor after l1 l2, cursor_names cursor after -> listing pending None d = l1 ++ l2 ->
    listing pending after d = l2 -> (length l2 < fuel)%nat ->
  exists items, visit fuel pending cursor limit (World d []) = Some items /\ Forall2 (holds_in d) l2 items.
Proof.
  intros Hd Hlim fuel. induction fuel as [|fuel IH]; intros cursor after l1 l2 Hc Hall Hl2 Hf; [lia|].
  destruct (list_body_page d pending after limit Hd Hlim) as (items & Hitems & Hpage). cbn [visit].
  rewrite (pg_list_quiet _ _ _ after) by done. rewrite Hpage. cbn [pg_next_cursor pg_items]. rewrite Hl2 in *.
  unfold cursor_after. destruct (last (take (Z.to_nat limit) l2)) as [row|] eqn:Hlast.
  - apply last_Some in Hlast as [k Hk]. destruct (Z.ltb_spec limit (Z.of_nat (length l2))) as [Hmore|Hless].
    + assert (l2 = (k ++ [row]) ++ drop (Z.to_nat limit) l2) as E by (rewrite <- Hk; by rewrite take_drop).
      assert (row ∈ l2) as Hrow by (rewrite E; set_solver).
      rewrite <- Hl2 in Hrow. apply listing_in in Hrow as [_ [i Hi]].
      destruct (do_rows d Hd _ _ Hi) as (st & Hst & Hh & _).
      destruct (holds_opaque d row st (conj Hst Hh)) as [Ho Hid]. rewrite <- Hid in Ho.
      destruct (IH (Some (of_chars (b64_encode (encode (rw_run_id row))))) (Some (rw_run_id row)) (l1 ++ k ++ [row])
                   (drop (Z.to_nat limit) l2)) as (rest & Hrest & Hfr).
      * apply (cursor_of _ Ho).
      * rewrite Hall, E at 1. by rewrite <- !app_assoc.
      * apply (listing_after d pending (l1 ++ k) row); [done|]. rewrite Hall, E at 1. by rewrite <- !app_assoc.
      * rewrite length_drop. lia.
      * exists (items ++ rest). rewrite Hrest. split; [done|]. rewrite <- (take_drop (Z.to_nat limit) l2).
        by apply Forall2_app.
    + exists items. split; [done|]. by rewrite take_ge in Hitems by lia.
  - exists items. split; [done|]. apply last_None in Hlast. rewrite Hlast in Hitems.
    destruct l2 as [|x l2]; [done|]. destruct (Z.to_nat limit) eqn:En; [lia|done].
Qed.

(** C11: following the page cursors terminates and loses nothing: from the first
    page on, a client of an undisturbed store gets every current snapshot - for
    the recovery listing, every one that still needs reconciliation - exactly
    once, in the order of the run identities, with any page size and after at
    most as many pages as there are runs, plus one. *)
Theorem pages_visit_every_run d pending limit fuel
    (Hd : durable_ok d) (Hlim : 1 <= limit <= 100) (Hfuel : (size (db_runs d) < fuel)%nat) :
  exists l, visit fuel pending None limit (World d []) = Some l /\
    NoDup ((fun st => rr_run_id (st_record st)) <$> l) /\
    StronglySorted (fun x y => collate x y = true) ((fun st => rr_run_id (st_record st)) <$> l) /\
    forall st, st ∈ l <-> st ∈ db_history d /\ current d st = true /\
                 (pending = true -> run_needs_reconciliation (st_record st) = true).
Proof.
  destruct (visit_rest d pending limit Hd Hlim fuel None None [] (listing pending None d) I eq_refl eq_refl)
    as (l & Hv & Hl).
  { unfold listing. rewrite py_sorted_perm. eapply Nat.le_lt_trans; [apply length_filter|].
    rewrite length_fmap. by rewrite length_map_to_list. }
  exists l. split; [exact Hv|].
  assert ((fun st => rr_run_id (st_record st)) <$> l = rw_run_id <$> listing pending None d) as Eids.
  { clear Hv. induction Hl as [|row st rows l Hh _ IH]; [done|]. rewrite !fmap_cons, IH. f_equal.
    symmetry. by apply (holds_opaque d). }
  rewrite Eids. split_and!; [by apply listing_ids| |].
  - pose proof (listing_sorted pending None d) as Hs. clear -Hs. induction Hs as [|x rows Hs IH Hx]; [constructor|].
    rewrite fmap_cons. constructor; [exact IH|]. apply Forall_fmap. eapply Forall_impl; [exact Hx|done].
  - intros st. split.
    + intros (k & Hk)%list_elem_of_lookup. destruct (Forall2_lookup_r _ _ _ _ _ Hl Hk) as (row & Hrow & Hst & Hh).
      apply list_elem_of_lookup_2, listing_in in Hrow as [Hsel [i Hi]].
      pose proof (row_id d i row Hd Hi) as Hid. rewrite (rh_row _ _ Hh) in Hid. cbn in Hid.
      split_and!; [done| |].
      * unfold current. rewrite Hid, Hi. apply bool_decide_eq_true. by rewrite (rh_row _ _ Hh).
      * intros ->. unfold selected in Hsel. rewrite (rh_row _ _ Hh) in Hsel. cbn in Hsel. by apply andb_true_iff in Hsel as [Hsel _].
    + intros (Hst & Hcur & Hp). unfold current in Hcur. destruct (db_runs d !! rr_run_id (st_record st)) as [row|] eqn:Hi; [|done].
      apply bool_decide_eq_true in Hcur. destruct (do_rows d Hd _ _ Hi) as (st0 & Hst0 & Hh & _).
      assert (st0 = st) as -> by (apply (do_history d Hd); [done..|]; rewrite (rh_row _ _ Hh) in Hcur; exact Hcur).
      assert (row ∈ listing pending None d) as Hrow.
      { apply listing_in. split; [|by eexists]. unfold selected. rewrite (rh_row _ _ Hh). cbn.
        destruct pending; [by rewrite Hp|done]. }
      apply list_elem_of_lookup in Hrow as [k Hk]. destruct (Forall2_lookup_l _ _ _ _ _ Hl Hk) as (st' & Hk' & Hst' & Hh').
      assert (st' = st) as ->.
      { apply (do_history d Hd); [done..|]. pose proof (rh_row _ _ Hh) as E1. rewrite (rh_row _ _ Hh') in E1. by injection E1. }
      by eapply list_elem_of_lookup_2.
Qed.
End Pages.

(** ** A listing of three runs *)

Definition submission_of (n : Z) : RunSubmission :=
  {| sb_environment := "prod"; sb_project := "shop"; sb_graph := sample_record; sb_plan_id := "nightly";
     sb_plan_revision := revision sample_plan; sb_trigger := sb_trigger sample_submission;
     sb_idempotency_key := "key-0000000" +:+ py_str n; sb_requested_at := utc 0; sb_requested_deadline_seconds := None;
     sb_placement_decision := None; sb_size_class_decision := None |}.

Lemma submission_of_value n : submission_value (submission_of n).
Proof. by split. Qed.

Definition claim_all (ns : list Z) (w : world) : world :=
  foldl (fun w n => (pg_claim (queued_record (submission_of n)) w).2) w ns.

Lemma claim_step n w :
  RunRecord_post_init (queued_record (submission_of n)) = Ok tt -> world_ok w /\ view_ok (world_view w) ->
  world_ok (pg_claim (queued_record (submission_of n)) w).2 /\ view_ok (world_view (pg_claim (queued_record (submission_of n)) w).2).
Proof.
  intros Hp Hw. pose proof (pg_claim_law w _ (queued_value _ (submission_of_value n) Hp) Hw) as H.
  destruct (pg_claim _ w) as [r w']. apply H.
Qed.

Definition three_runs : durable := wd_durable (claim_all [1; 2; 3] (fresh_world [])).

Lemma three_runs_ok : durable_ok three_runs.
Proof.
  unfold three_runs, claim_all. cbn [foldl].
  assert (world_ok (fresh_world []) /\ view_ok (world_view (fresh_world []))) as H by (apply fresh_world_ok; constructor).
  apply (claim_step 1) in H; [|vm_compute; reflexivity]. apply (claim_step 2) in H; [|vm_compute; reflexivity].
  apply (claim_step 3) in H; [|vm_compute; reflexivity]. apply H.
Qed.

Lemma pages_visit_every_run_witness :
  exists l, visit str_leb 4 true None 2 (World three_runs []) = Some l /\ length l = 3%nat /\
    forall st, st ∈ l -> run_needs_reconciliation (st_record st) = true.
Proof.
  destruct (pages_visit_every_run str_leb str_leb_antisym three_runs true 2 4 three_runs_ok ltac:(lia)
    ltac:(vm_compute; lia)) as (l & Hv & _ & _ & Hl).
  exists l. split; [exact Hv|]. split; [|intros st Hst; by apply Hl].
  vm_compute in Hv. injection Hv as <-. reflexivity.
Defined.

(** C12: the PostgreSQL store implements the abstract store of [Contract]: with
    its tables as state and what the codecs read from them as the view, every
    operation keeps the promises the clients are verified against, whatever
    the other clients do, and with connections failing before or after any
    commit. *)
Theorem pg_refines_contract collate :
  exists L : StoreLaws world (HS := pg_store collate), inv (StoreLaws := L) = world_ok /\ view_of (StoreLaws := L) = world_view.
Proof. by exists (pg_laws collate). Qed.
