(* ===== verification/Placement.v ===== *)
(** * Plan selection ([control/run_lifecycle.py], [ExecutionPlanRegistry] and
    [PlanRunSubmissionResolver])

    The registry of immutable plans, and how an API request for a graph becomes a
    submission of one of them: by environment, by size class, by estimated input
    or by automatic placement within a budget. *)

From S2P Require Import Prelude Regex PyStr Sha256 PyTime Json JsonRead Identifiers Projection PhysicalPlan Graph Orchestration.

Local Open Scope string_scope.
Local Open Scope Z_scope.
Local Open Scope list_scope.

#[local] Arguments revision : simpl never.

(** ** The plan registry *)

Abbreviation route := (string * string * string)%type.

Record ExecutionPlanRegistry : Type := {
  by_revision : gmap string ExecutionPlan;
  by_route : gmap route (list ExecutionPlan);
}.

Definition unavailable {A} (m : string) : result A := raise_ ControlOperationUnavailableError m.
Definition control_conflict {A} (m : string) : result A := raise_ ControlOperationConflictError m.

Definition plan_route (p : ExecutionPlan) : route := (ep_environment p, ep_project p, ep_graph p).
Definition revision_leb : ExecutionPlan -> ExecutionPlan -> bool := key_leb revision str_leb.

(** The loop of [__init__]. *)
Fixpoint register (plans : list ExecutionPlan) (reg : ExecutionPlanRegistry) : result ExecutionPlanRegistry :=
  match plans with
  | [] => Ok reg
  | plan :: plans =>
      let existing := default plan (by_revision reg !! revision plan) in
      _ ← contract_reject (negb (bool_decide (existing = plan)))
            "an execution-plan revision contains conflicting contents";
      register plans
        {| by_revision := <[revision plan := existing]> (by_revision reg);
           by_route := <[plan_route plan := default [] (by_route reg !! plan_route plan) ++ [plan]]> (by_route reg) |}
  end.

Definition new_registry (plans : list ExecutionPlan) : result ExecutionPlanRegistry :=
  reg ← register plans {| by_revision := ∅; by_route := ∅ |};
  _ ← contract_reject (bool_decide (by_revision reg = ∅)) "at least one execution plan is required";
  _ ← contract_reject (100 <? Z.of_nat (size (by_revision reg))) "the execution-plan registry exceeds its bound";
  Ok {| by_revision := by_revision reg; by_route := py_sorted revision_leb <$> by_route reg |}.

(** [plans]: in the order of their revisions. *)
Definition plans (reg : ExecutionPlanRegistry) : list ExecutionPlan :=
  snd <$> py_sorted (key_leb fst str_leb) (map_to_list (by_revision reg)).

Definition is_current (record : GraphRecord) (plan : ExecutionPlan) : bool :=
  bool_decide (ep_graph_revision plan = gr_revision record)
  && bool_decide (ep_graph_content_sha256 plan = gr_content_sha256 record).

Definition current_for_environment (reg : ExecutionPlanRegistry) (record : GraphRecord) (environment : string)
    : result (list ExecutionPlan) :=
  match by_route reg !! (environment, gr_project record, gr_graph record) with
  | None => unavailable "No hosted execution plan is configured for this graph."
  | Some selected =>
      let current := filter (fun plan => is_current record plan = true) selected in
      if negb (length current =? length selected)%nat
      then control_conflict "The hosted execution plan does not match the current graph revision."
      else Ok current
  end.

Definition select (reg : ExecutionPlanRegistry) (record : GraphRecord) (environment : string) : result ExecutionPlan :=
  selected ← current_for_environment reg record environment;
  match selected with
  | [plan] => Ok plan
  | _ => unavailable "The hosted execution route requires an explicit size-class selection."
  end.

Definition registered (reg : ExecutionPlanRegistry) (record : GraphRecord) : list ExecutionPlan :=
  filter (fun plan => bool_decide (ep_project plan = gr_project record) && bool_decide (ep_graph plan = gr_graph record) = true)
    (plans reg).

Definition current_for_graph (reg : ExecutionPlanRegistry) (record : GraphRecord) : result (list ExecutionPlan) :=
  if bool_decide (registered reg record = [])
  then unavailable "No hosted execution plan is configured for this graph."
  else
    let current := filter (fun plan => is_current record plan = true) (registered reg record) in
    if bool_decide (current = [])
    then control_conflict "The hosted execution plans do not match the current graph revision."
    else Ok current.

Definition require_revision (reg : ExecutionPlanRegistry) (rev : string) : result ExecutionPlan :=
  match by_revision reg !! rev with
  | None => unavailable "The run's immutable execution plan is not registered."
  | Some plan => Ok plan
  end.

Definition for_submission (reg : ExecutionPlanRegistry) (submission : RunSubmission) : result ExecutionPlan :=
  plan ← require_revision reg (sb_plan_revision submission);
  _ ← map_error OrchestrationContractError ControlOperationConflictError
        "The run submission no longer matches its immutable execution plan."
        (validate_submission_plan submission plan);
  Ok plan.

Definition for_run (reg : ExecutionPlanRegistry) (record : RunRecord) : result ExecutionPlan :=
  plan ← require_revision reg (rr_plan_revision record);
  if bool_decide (record_selection record = plan_selection plan) then Ok plan
  else control_conflict "The durable run no longer matches its immutable execution plan.".

(** ** The resolver *)

(** [input_size_estimator.InputSizeEstimate]. *)
Record InputSizeEstimate : Type := { ie_bytes : Z; ie_source : string; ie_observed_at : datetime }.

Definition InputSizeEstimate_post_init (e : InputSizeEstimate) : result unit :=
  _ ← reject_if (out_of_range (ie_bytes e)) ValueError "estimated input bytes are invalid";
  _ ← reject_if (negb (portable_id (ie_source e))) ValueError "estimate source is invalid";
  reject_if (negb (is_utc (ie_observed_at e))) ValueError "estimate observation time must use UTC".

(** An estimator answers once per request; the answer is a function of the graph. *)
Abbreviation estimator := (GraphRecord -> result InputSizeEstimate).

Record PlanRunSubmissionResolver : Type := {
  rs_plans : ExecutionPlanRegistry;
  rs_environment : string;
  rs_placement_candidates : list PlacementCandidate;
  rs_preferred_locality : option string;
  rs_max_cost_microusd : option Z;
  rs_size_class_candidates : list SizeClassCandidate;
  rs_default_size_class : option string;
  rs_input_size_estimators : list (string * estimator);
}.

(** [{key(x): x for x in l}]. *)
Definition dict_by {K A} `{Countable K} (key : A -> K) (l : list A) : gmap K A :=
  foldl (fun m x => <[key x := x]> m) ∅ l.

Definition candidates_by_revision (rs : PlanRunSubmissionResolver) : gmap string PlacementCandidate :=
  dict_by pc_plan_revision (rs_placement_candidates rs).
Definition size_candidates_by_revision (rs : PlanRunSubmissionResolver) : gmap string SizeClassCandidate :=
  dict_by sc_plan_revision (rs_size_class_candidates rs).

Definition supports_date_repair (plan : ExecutionPlan) : bool :=
  bool_decide (ep_backend_id plan = "cloud_run") && (sp_task_count (et_schedule (ep_execution_template plan)) =? 1).

Definition supports_repairs (rs : PlanRunSubmissionResolver) : bool :=
  existsb supports_date_repair (plans (rs_plans rs)).

(** The keys of a dict filled in the order of [l]: first occurrences. *)
Definition first_seen {A} `{EqDecision A} (l : list A) : list A := rev (remove_dups (rev l)).

(** [sorted({...})]. *)
Definition sorted_set (l : list string) : list string := py_sorted str_leb (remove_dups l).

Definition repair_environments (rs : PlanRunSubmissionResolver) (record : GraphRecord) : result (list string) :=
  current ← current_for_graph (rs_plans rs) record;
  Ok (sorted_set (ep_environment <$> filter (fun plan => supports_date_repair plan = true) current)).

Definition require_repair_submission (rs : PlanRunSubmissionResolver) (submission : RunSubmission) : result unit :=
  plan ← for_submission (rs_plans rs) submission;
  if is_none (tg_repair_window (sb_trigger submission)) || negb (supports_date_repair plan)
  then unavailable "Date repair requires a single-task Cloud Run execution plan."
  else Ok tt.

(** The plans of a route, in the order of [plans]. *)
Definition plans_of_route (reg : ExecutionPlanRegistry) (k : route) : list ExecutionPlan :=
  filter (fun plan => plan_route plan = k) (plans reg).

Definition check_route (rs : PlanRunSubmissionResolver) (k : route) : result unit :=
  let sized := size_candidates_by_revision rs in
  let route_plans := plans_of_route (rs_plans rs) k in
  _ ← contract_reject ((1 <? length route_plans)%nat && existsb (fun plan => is_none (sized !! revision plan)) route_plans)
        "multi-plan execution routes require a size candidate for every revision";
  contract_reject (has_dup (sc_size_class <$> omap (fun plan => sized !! revision plan) route_plans))
    "an execution route contains duplicate size classes".

(** The first of [sorted(set(revisions) - known)]. *)
Definition unknown_revision (revisions : list string) (reg : ExecutionPlanRegistry) : option string :=
  head (sorted_set (filter (fun r => is_none (by_revision reg !! r) = true) revisions)).

Definition resolver_post_init (rs : PlanRunSubmissionResolver) : result unit :=
  let revisions := pc_plan_revision <$> rs_placement_candidates rs in
  let reg := rs_plans rs in
  _ ← contract_reject (has_dup revisions) "placement candidates must use unique plan revisions";
  _ ← when_some (unknown_revision revisions reg) (fun r =>
        contract_reject true ("placement candidate selects unregistered plan revision " +:+ r));
  _ ← (if bool_decide (rs_environment rs = "auto") then
         _ ← contract_reject (existsb (fun plan => bool_decide (ep_environment plan = "auto")) (plans reg))
               "automatic placement reserves the auto environment name";
         contract_reject (bool_decide (rs_placement_candidates rs = []) || is_none (rs_preferred_locality rs)
                          || is_none (rs_max_cost_microusd rs))
           "automatic placement requires candidates, preferred locality, and max cost"
       else Ok tt);
  _ ← when_some (rs_preferred_locality rs) (fun l => contract_reject (negb (portable_id l)) "preferred locality is invalid");
  _ ← when_some (rs_max_cost_microusd rs) (fun c =>
        contract_reject (out_of_range c) "placement maximum cost must be non-negative micro-USD");
  let size_revisions := sc_plan_revision <$> rs_size_class_candidates rs in
  _ ← contract_reject (has_dup size_revisions) "size-class candidates must use unique revisions";
  _ ← when_some (unknown_revision size_revisions reg) (fun r =>
        contract_reject true ("size-class candidate selects unregistered plan revision " +:+ r));
  _ ← for_each (check_route rs) (first_seen (plan_route <$> plans reg));
  _ ← when_some (rs_default_size_class rs) (fun c =>
        _ ← contract_reject (negb (portable_id c)) "default size class is invalid";
        contract_reject (bool_decide (rs_size_class_candidates rs = []))
          "a default size class requires configured size candidates");
  let estimator_environments := fst <$> rs_input_size_estimators rs in
  _ ← contract_reject (has_dup estimator_environments) "input-size estimators must use unique environments";
  let sized := size_candidates_by_revision rs in
  let sized_environments := ep_environment <$> filter (fun plan => is_some (sized !! revision plan) = true) (plans reg) in
  for_each (fun e =>
    contract_reject (negb (portable_id e) || negb (bool_decide (e ∈ sized_environments)))
      "an input-size estimator selects an invalid execution environment") estimator_environments.

(** ** Size classes *)

Record SizeSelectionEvidence : Type := { ev_bytes : Z; ev_source : string; ev_observed_at : datetime }.

(** What [_select_size_candidates] accumulates: the plans, the mode of each
    environment, and the evidence of each environment. *)
Record sizing : Type := {
  sz_selected : list ExecutionPlan;
  sz_modes : gmap string (option SizeClassMode);
  sz_evidence : gmap string SizeSelectionEvidence;
}.

Definition choice : Type := ExecutionPlan * SizeClassCandidate.
(** [(item[1].max_input_bytes, item[1].size_class, item[0].revision)]. *)
Definition fit_leb : choice -> choice -> bool :=
  key_leb (fun item => (sc_max_input_bytes item.2, (sc_size_class item.2, revision item.1)))
    (lex_leb Z.leb (lex_leb str_leb str_leb)).

Definition choices (configured : gmap string SizeClassCandidate) (route_plans : list ExecutionPlan) : list choice :=
  omap (fun plan => c ← configured !! revision plan; Some (plan, c)) route_plans.

Section Sizing.
Context (rs : PlanRunSubmissionResolver) (record : GraphRecord).
Context (size_class : option string) (estimated_input_bytes : option Z) (requested_at : datetime).

Definition default_mode : option SizeClassMode :=
  if is_some (rs_default_size_class rs) then Some SIZE_CONFIGURED_DEFAULT else None.
Definition selected_class : option string := or_opt size_class (rs_default_size_class rs).
Definition requested_mode : option SizeClassMode :=
  if is_some size_class then Some SIZE_MANUAL_OVERRIDE
  else if is_some estimated_input_bytes then Some AUTOMATIC_INPUT
  else default_mode.

(** The estimated input of a route with size classes: the bytes, the mode and the
    evidence. *)
Definition route_estimate (environment : string)
    : result (option Z * option SizeClassMode * option SizeSelectionEvidence) :=
  match estimated_input_bytes with
  | Some n => Ok (Some n, requested_mode, Some {| ev_bytes := n; ev_source := "api_request"; ev_observed_at := requested_at |})
  | None =>
      match (if is_none size_class then dict_by fst (rs_input_size_estimators rs) !! environment else None) with
      | Some (_, estimate) =>
          match estimate record with
          | Ok e => Ok (Some (ie_bytes e), Some AUTOMATIC_INPUT,
                        Some {| ev_bytes := ie_bytes e; ev_source := ie_source e; ev_observed_at := ie_observed_at e |})
          | Raise x => if catches InputSizeEstimationError x then Ok (None, default_mode, None) else Raise x
          end
      | None => Ok (None, requested_mode, None)
      end
  end.

(** The plan chosen on a route, if any. *)
Definition route_choice (items : list choice) (bytes : option Z) : option ExecutionPlan :=
  match bytes with
  | Some n =>
      match filter (fun item => (n <=? sc_max_input_bytes item.2) = true) items with
      | [] => None
      | item :: rest => Some (py_min fit_leb item rest).1
      end
  | None => fst <$> head (filter (fun item => bool_decide (Some (sc_size_class item.2) = selected_class) = true) items)
  end.

(** One turn of the loop over the environments. *)
Definition size_route (environment : string) (route_plans : list ExecutionPlan) (acc : sizing) : result sizing :=
  match choices (size_candidates_by_revision rs) route_plans with
  | [] =>
      if is_some size_class || is_some estimated_input_bytes then Ok acc
      else Ok {| sz_selected := sz_selected acc ++ route_plans;
                 sz_modes := <[environment := None]> (sz_modes acc); sz_evidence := sz_evidence acc |}
  | items =>
      e ← route_estimate environment;
      let '(bytes, mode, evidence) := e in
      let found := match evidence with Some x => <[environment := x]> (sz_evidence acc) | None => sz_evidence acc end in
      match route_choice items bytes with
      | None => Ok {| sz_selected := sz_selected acc; sz_modes := sz_modes acc; sz_evidence := found |}
      | Some plan => Ok {| sz_selected := sz_selected acc ++ [plan];
                           sz_modes := <[environment := mode]> (sz_modes acc); sz_evidence := found |}
      end
  end.

Definition route_plans (current : list ExecutionPlan) (environment : string) : list ExecutionPlan :=
  filter (fun plan => ep_environment plan = environment) current.

Fixpoint size_routes (environment : string) (current : list ExecutionPlan) (environments : list string) (acc : sizing)
    : result sizing :=
  match environments with
  | [] => Ok acc
  | e :: environments =>
      if negb (bool_decide (environment = "auto")) && negb (bool_decide (e = environment))
      then size_routes environment current environments acc
      else acc ← size_route e (route_plans current e) acc; size_routes environment current environments acc
  end.

Definition select_size_candidates (environment : string) : result sizing :=
  _ ← reject_if (is_some size_class && is_some estimated_input_bytes) ControlOperationConflictError
        "Choose either a size class or estimated input bytes, not both.";
  _ ← when_some size_class (fun c => contract_reject (negb (portable_id c)) "requested size class is invalid");
  _ ← when_some estimated_input_bytes (fun n => contract_reject (out_of_range n) "estimated input bytes are invalid");
  current ← current_for_graph (rs_plans rs) record;
  match rs_size_class_candidates rs with
  | [] =>
      if is_some size_class || is_some estimated_input_bytes
      then unavailable "No hosted size classes are configured for this graph."
      else Ok {| sz_selected := current;
                 sz_modes := foldl (fun m plan => <[ep_environment plan := None]> m) ∅ current; sz_evidence := ∅ |}
  | _ =>
      acc ← size_routes environment current (sorted_set (ep_environment <$> current))
              {| sz_selected := []; sz_modes := ∅; sz_evidence := ∅ |};
      if bool_decide (sz_selected acc = [])
      then unavailable "No hosted execution plan satisfies the requested size class."
      else Ok acc
  end.
End Sizing.

(** ** Placement *)

Definition new_placement_decision (d : PlacementDecision) : result PlacementDecision :=
  _ ← PlacementDecision_post_init d; Ok d.
Definition new_size_decision (d : SizeClassDecision) : result SizeClassDecision := _ ← SizeClassDecision_post_init d; Ok d.

Definition exact_decision (rs : PlanRunSubmissionResolver) (plan : ExecutionPlan) (mode : PlacementMode)
    : result PlacementDecision :=
  let candidate := candidates_by_revision rs !! revision plan in
  new_placement_decision
    {| pd_mode := mode; pd_selected_environment := ep_environment plan; pd_selected_locality := pc_locality <$> candidate;
       pd_estimated_cost_microusd := pc_estimated_cost_microusd <$> candidate; pd_preferred_locality := None;
       pd_max_cost_microusd := None; pd_eligible_plan_count := 1; pd_schema := PLACEMENT_DECISION_SCHEMA |}.

Definition placement : Type := ExecutionPlan * PlacementCandidate.

(** The key of the automatic choice: the preferred locality first, then the
    cheapest, then the identities. *)
Definition placement_leb (preferred : string) : placement -> placement -> bool :=
  key_leb (fun item => (negb (bool_decide (pc_locality item.2 = preferred)), (pc_estimated_cost_microusd item.2,
             (ep_environment item.1, (ep_plan_id item.1, revision item.1)))))
    (lex_leb bool_leb (lex_leb Z.leb (lex_leb str_leb (lex_leb str_leb str_leb)))).

Definition eligible (rs : PlanRunSubmissionResolver) (maximum : Z) (candidates : list ExecutionPlan) : list placement :=
  filter (fun item => (pc_estimated_cost_microusd item.2 <=? maximum) = true)
    (omap (fun plan => c ← candidates_by_revision rs !! revision plan; Some (plan, c)) candidates).

Definition automatically_select (rs : PlanRunSubmissionResolver) (candidates : list ExecutionPlan)
    : result (ExecutionPlan * PlacementDecision) :=
  match rs_preferred_locality rs, rs_max_cost_microusd rs with
  | Some preferred, Some maximum =>
      match eligible rs maximum candidates with
      | [] => unavailable "No hosted execution plan satisfies the configured placement budget."
      | item :: rest =>
          let '(plan, candidate) := py_min (placement_leb preferred) item rest in
          decision ← new_placement_decision
            {| pd_mode := AUTOMATIC; pd_selected_environment := ep_environment plan;
               pd_selected_locality := Some (pc_locality candidate);
               pd_estimated_cost_microusd := Some (pc_estimated_cost_microusd candidate);
               pd_preferred_locality := Some preferred; pd_max_cost_microusd := Some maximum;
               pd_eligible_plan_count := Z.of_nat (length (item :: rest)); pd_schema := PLACEMENT_DECISION_SCHEMA |};
          Ok (plan, decision)
      end
  | _, _ => raise_ AssertionError ""
  end.

Definition select_environment (candidates : list ExecutionPlan) (environment : string) : result ExecutionPlan :=
  match filter (fun plan => ep_environment plan = environment) candidates with
  | [plan] => Ok plan
  | _ => unavailable "No hosted execution plan satisfies the selected environment and size class."
  end.

Definition size_decision (rs : PlanRunSubmissionResolver) (plan : ExecutionPlan) (eligible_plans : list ExecutionPlan)
    (mode : option SizeClassMode) (evidence : option SizeSelectionEvidence) : result (option SizeClassDecision) :=
  match mode, size_candidates_by_revision rs !! revision plan with
  | Some mode, Some candidate =>
      let resources := et_resources (ep_execution_template plan) in
      d ← new_size_decision
            {| sd_mode := mode; sd_selected_size_class := sc_size_class candidate;
               sd_estimated_input_bytes := ev_bytes <$> evidence; sd_max_input_bytes := sc_max_input_bytes candidate;
               sd_cpu_millis := rp_cpu_millis resources; sd_memory_mib := rp_memory_mib resources;
               sd_ephemeral_storage_mib := rp_ephemeral_storage_mib resources;
               sd_eligible_plan_count := Z.of_nat (length eligible_plans);
               sd_estimate_source := ev_source <$> evidence; sd_estimate_observed_at := ev_observed_at <$> evidence;
               sd_schema := SIZE_CLASS_DECISION_SCHEMA |};
      Ok (Some d)
  | _, _ => Ok None
  end.

Definition size_decision_for_exact_plan (rs : PlanRunSubmissionResolver) (plan : ExecutionPlan) (mode : SizeClassMode)
    : result (option SizeClassDecision) :=
  if is_none (size_candidates_by_revision rs !! revision plan) then Ok None
  else size_decision rs plan [plan] (Some mode) None.

(** ** Requests *)

Definition api_trigger : RunTrigger :=
  {| tg_kind := API; tg_trigger_id := "control-api"; tg_scheduled_occurrence := None; tg_replay_of_run_id := None;
     tg_repair_window := None |}.

(** The plan of a request and why it was placed there. *)
Definition place (rs : PlanRunSubmissionResolver) (environment : option string) (candidates : list ExecutionPlan)
    : result (ExecutionPlan * PlacementDecision) :=
  match environment with
  | Some e => plan ← select_environment candidates e; d ← exact_decision rs plan MANUAL_OVERRIDE; Ok (plan, d)
  | None =>
      if bool_decide (rs_environment rs = "auto") then automatically_select rs candidates
      else plan ← select_environment candidates (rs_environment rs); d ← exact_decision rs plan CONFIGURED_DEFAULT; Ok (plan, d)
  end.

Definition resolve (rs : PlanRunSubmissionResolver) (record : GraphRecord) (idempotency_key : string) (requested_at : datetime)
    (environment size_class : option string) (estimated_input_bytes : option Z) : result RunSubmission :=
  sizes ← select_size_candidates rs record size_class estimated_input_bytes requested_at (default (rs_environment rs) environment);
  placed ← place rs environment (sz_selected sizes);
  let '(plan, decision) := placed in
  sized ← size_decision rs plan (sz_selected sizes) (mjoin (sz_modes sizes !! ep_environment plan)) (sz_evidence sizes !! ep_environment plan);
  _ ← RunTrigger_post_init api_trigger;
  new_submission
    {| sb_environment := ep_environment plan; sb_project := gr_project record; sb_graph := record;
       sb_plan_id := ep_plan_id plan; sb_plan_revision := revision plan; sb_trigger := api_trigger;
       sb_idempotency_key := idempotency_key; sb_requested_at := requested_at; sb_requested_deadline_seconds := None;
       sb_placement_decision := Some decision; sb_size_class_decision := sized |}.

Definition idempotency_lookup (rs : PlanRunSubmissionResolver) (record : GraphRecord) (environment : option string)
    : result (list string * PlacementMode) :=
  match environment with
  | Some e => Ok ([e], MANUAL_OVERRIDE)
  | None =>
      if negb (bool_decide (rs_environment rs = "auto")) then Ok ([rs_environment rs], CONFIGURED_DEFAULT)
      else
        match sorted_set (ep_environment <$> registered (rs_plans rs) record) with
        | [] =>
            _ ← current_for_graph (rs_plans rs) record;
            raise_ RuntimeError "The execution-plan registry returned no graph environments."
        | environments => Ok (environments, AUTOMATIC)
        end
  end.
