(* ===== verification/PlacementSpec.v ===== *)
(** * What plan selection guarantees ([control/run_lifecycle.py])

    The registry is exactly the given plans; automatic placement is optimal and
    independent of the order of the plans; every resolved request is a valid
    submission of a current registered plan; and the lookup that precedes a
    request finds the run an earlier equal request created. *)

From S2P Require Import Prelude Regex PyStr Sha256 PyTime Json JsonRead Identifiers Projection PhysicalPlan Graph Orchestration Placement.

Local Open Scope string_scope.
Local Open Scope Z_scope.
Local Open Scope list_scope.

#[local] Opaque revision.

(** ** The registry *)

Record registry_ok (reg : ExecutionPlanRegistry) : Prop := {
  rg_key k p : by_revision reg !! k = Some p -> revision p = k;
  rg_bound : (1 <= size (by_revision reg) <= 100)%nat;
}.

Lemma plans_in reg p : p ∈ plans reg <-> exists k, by_revision reg !! k = Some p.
Proof.
  unfold plans. rewrite py_sorted_perm. rewrite list_elem_of_fmap. split.
  - intros ([k q] & -> & H). exists k. by apply elem_of_map_to_list.
  - intros [k H]. exists (k, p). split; [done|]. by apply elem_of_map_to_list.
Qed.

Lemma plans_registered reg p : registry_ok reg -> p ∈ plans reg -> by_revision reg !! revision p = Some p.
Proof. intros Hr [k H]%plans_in. by rewrite (rg_key _ Hr _ _ H). Qed.

Lemma plans_length reg : length (plans reg) = size (by_revision reg).
Proof. unfold plans. by rewrite length_fmap, py_sorted_perm, length_map_to_list. Qed.

Lemma plans_keys reg : registry_ok reg -> revision <$> plans reg = fst <$> py_sorted (key_leb fst str_leb) (map_to_list (by_revision reg)).
Proof.
  intros Hr. unfold plans. rewrite <- list_fmap_compose. apply list_fmap_ext. intros i [k p] H%list_elem_of_lookup_2.
  rewrite py_sorted_perm in H. cbn. apply (rg_key _ Hr). by apply elem_of_map_to_list.
Qed.

Lemma plans_sorted reg : registry_ok reg ->
  NoDup (revision <$> plans reg) /\ StronglySorted (fun a b => str_leb a b = true) (revision <$> plans reg).
Proof.
  intros Hr. rewrite plans_keys by done. split.
  - rewrite py_sorted_perm. apply NoDup_fst_map_to_list.
  - pose proof (py_sorted_sorted (key_leb fst str_leb) leb_total leb_trans (map_to_list (by_revision reg))) as Hs.
    induction Hs as [|x l Hs IH Hx]; [constructor|]. rewrite fmap_cons. constructor; [done|].
    apply Forall_fmap. eapply Forall_impl; [exact Hx|done].
Qed.

Lemma plans_nodup reg : registry_ok reg -> NoDup (plans reg).
Proof. intros Hr. eapply NoDup_fmap_1, plans_sorted, Hr. Qed.

(** Equal revisions only with equal contents. *)
Definition consistent (l : list ExecutionPlan) : Prop :=
  forall p q, p ∈ l -> q ∈ l -> revision p = revision q -> p = q.

(** The state of the registration loop after the plans [l]. *)
Record registers (l : list ExecutionPlan) (reg : ExecutionPlanRegistry) : Prop := {
  rn_revision k p : by_revision reg !! k = Some p <-> p ∈ l /\ revision p = k;
  rn_route k : by_route reg !! k = (let ps := filter (fun p => plan_route p = k) l in
                                    if bool_decide (ps = []) then None else Some ps);
  rn_consistent : consistent l;
}.

Lemma default_filter k (l : list ExecutionPlan) :
  default [] (if bool_decide (filter (fun p => plan_route p = k) l = []) then None else Some (filter (fun p => plan_route p = k) l))
  = filter (fun p => plan_route p = k) l.
Proof. destruct (bool_decide _) eqn:E; [|done]. apply bool_decide_eq_true in E. by rewrite E. Qed.

Lemma registers_step l reg plan :
  registers l reg -> (forall q, q ∈ l -> revision q = revision plan -> q = plan) ->
  registers (l ++ [plan])
    {| by_revision := <[revision plan := default plan (by_revision reg !! revision plan)]> (by_revision reg);
       by_route := <[plan_route plan := default [] (by_route reg !! plan_route plan) ++ [plan]]> (by_route reg) |}.
Proof.
  intros [R T C] Hc.
  assert (default plan (by_revision reg !! revision plan) = plan) as ->.
  { destruct (by_revision reg !! revision plan) as [q|] eqn:E; [|done]. cbn. apply R in E as [Hq E]. by apply Hc. }
  split; cbn [by_revision by_route].
  - intros k p. rewrite lookup_insert_Some, elem_of_app, list_elem_of_singleton, R.
    split; [intros [[<- <-]|[Hk [Hp <-]]]|intros [[Hp| ->] <-]]; auto.
    destruct (decide (revision plan = revision p)) as [E|]; [|auto]. left. split; [done|]. by rewrite (Hc p Hp).
  - intros k. rewrite filter_app. cbn zeta. destruct (decide (plan_route plan = k)) as [<-|Hk].
    + rewrite lookup_insert_eq, filter_cons_True, filter_nil by done. rewrite T. cbn zeta. rewrite default_filter.
      rewrite bool_decide_false; [done|]. by destruct (filter _ l).
    + rewrite lookup_insert_ne, filter_cons_False, filter_nil, app_nil_r by done. apply T.
  - intros p q. rewrite !elem_of_app, !list_elem_of_singleton. intros [Hp| ->] [Hq| ->] E; auto. symmetry. by apply Hc.
Qed.

Lemma register_spec l : forall done_ reg,
  registers done_ reg ->
  match register l reg with
  | Ok reg' => registers (done_ ++ l) reg'
  | Raise e => catches OrchestrationContractError e = true /\ ~ consistent (done_ ++ l)
  end.
Proof.
  induction l as [|plan l IH]; intros done_ reg H; cbn [register].
  - by rewrite app_nil_r.
  - unfold contract_reject. destruct (bool_decide (default plan (by_revision reg !! revision plan) = plan)) eqn:E.
    + apply bool_decide_eq_true in E. cbn [negb reject_if mbind result_bind].
      assert (forall q, q ∈ done_ -> revision q = revision plan -> q = plan) as Hc.
      { intros q Hq Eq. assert (by_revision reg !! revision plan = Some q) as Hl by by apply (rn_revision _ _ H).
        rewrite Hl in E. exact E. }
      specialize (IH _ _ (registers_step done_ reg plan H Hc)). rewrite <- app_assoc in IH. exact IH.
    + apply bool_decide_eq_false in E. cbn [negb reject_if raise_ mbind result_bind]. split; [done|].
      destruct (by_revision reg !! revision plan) as [q|] eqn:Eq; [|done]. cbn in E.
      apply (rn_revision _ _ H) in Eq as [Hq Eq]. intros C. apply E. apply C; [apply elem_of_app; by left|apply elem_of_app; right; left|done].
Qed.

Lemma registered_ok l reg routes :
  registers l reg -> (1 <= size (by_revision reg) <= 100)%nat ->
  let reg' := {| by_revision := by_revision reg; by_route := routes |} in
  registry_ok reg' /\ forall p, p ∈ plans reg' <-> p ∈ l.
Proof.
  intros H Hsize reg'. split; [split; [|exact Hsize]|].
  - intros k p Hk. by apply (rn_revision _ _ H) in Hk as [_ Hk].
  - intros p. rewrite plans_in. cbn [reg' by_revision]. split.
    + intros [k Hk]. by apply (rn_revision _ _ H) in Hk as [Hk _].
    + intros Hp. exists (revision p). by apply (rn_revision _ _ H).
Qed.

Lemma registers_nil : registers [] {| by_revision := ∅; by_route := ∅ |}.
Proof.
  split; cbn [by_revision by_route].
  - intros k p. rewrite lookup_empty. split; [done|]. intros [Hp _]. by apply not_elem_of_nil in Hp.
  - intros k. by rewrite lookup_empty.
  - intros p q Hp. by apply not_elem_of_nil in Hp.
Qed.

Lemma new_registry_ok l reg : new_registry l = Ok reg -> registry_ok reg /\ forall p, p ∈ plans reg <-> p ∈ l.
Proof.
  unfold new_registry, contract_reject. intros (reg0 & Hreg & H)%bind_ok. apply seq_ok in H as [H1 H]. apply seq_ok in H as [H2 [= <-]].
  apply reject_if_tt in H1, H2. apply bool_decide_eq_false in H1. apply Z.ltb_ge in H2.
  pose proof (register_spec l [] _ registers_nil) as H. rewrite Hreg in H. apply registered_ok; [exact H|].
  destruct (size (by_revision reg0)) eqn:E0; [by apply map_size_empty_inv in E0|lia].
Qed.

(** C29: the plan registry holds exactly the given plans: it is built iff the
    plans are at least one, at most a hundred distinct ones, and no two of them
    share a revision with different contents; then it lists each plan once, in
    the order of the revisions, finds each by its revision, and groups them by
    route, each group in the same order; and it refuses anything else with a
    contract error. *)
Theorem registry_exact l :
  match new_registry l with
  | Ok reg =>
      consistent l /\ (1 <= length (plans reg) <= 100)%nat /\ NoDup (plans reg) /\
      StronglySorted (fun a b => str_leb a b = true) (revision <$> plans reg) /\
      (forall p, p ∈ plans reg <-> p ∈ l) /\
      (forall r p, require_revision reg r = Ok p <-> p ∈ l /\ revision p = r) /\
      (forall k, default [] (by_route reg !! k) ≡ₚ filter (fun p => plan_route p = k) l /\
                 StronglySorted (fun p q => str_leb (revision p) (revision q) = true) (default [] (by_route reg !! k)))
  | Raise e =>
      catches OrchestrationContractError e = true /\ (~ consistent l \/ l = [] \/ (100 < length (remove_dups l))%nat)
  end.
Proof.
  unfold new_registry.
  pose proof (register_spec l [] _ registers_nil) as H. cbn [app] in H.
  destruct (register l _) as [reg|e]; cbn [mbind result_bind]; [|destruct H as [H1 H2]; auto].
  assert (length (remove_dups l) = size (by_revision reg)) as Hsize.
  { rewrite <- length_map_to_list, <- (length_fmap snd). apply Permutation_length, NoDup_Permutation.
    - apply NoDup_remove_dups.
    - apply (NoDup_fmap_1 revision). rewrite <- list_fmap_compose. erewrite (list_fmap_ext _ fst); [apply NoDup_fst_map_to_list|].
      intros i [k p] Hi%list_elem_of_lookup_2. cbn. apply elem_of_map_to_list in Hi. by apply (rn_revision _ _ H) in Hi as [_ Hi].
    - intros p. rewrite elem_of_remove_dups, list_elem_of_fmap. split.
      + intros Hp. exists (revision p, p). split; [done|]. by apply elem_of_map_to_list, (rn_revision _ _ H).
      + intros ([k q] & -> & Hq%elem_of_map_to_list). by apply (rn_revision _ _ H) in Hq as [Hq _]. }
  unfold contract_reject. destruct (bool_decide (by_revision reg = ∅)) eqn:Ee; cbn [reject_if raise_ mbind result_bind].
  { apply bool_decide_eq_true in Ee. split; [done|]. right. left. rewrite Ee, map_size_empty in Hsize.
    apply nil_length_inv in Hsize. destruct l as [|p l]; [done|].
    assert (p ∈ remove_dups (p :: l)) as Hp by (apply elem_of_remove_dups; left). rewrite Hsize in Hp. by apply not_elem_of_nil in Hp. }
  apply bool_decide_eq_false in Ee.
  destruct (Z.ltb_spec 100 (Z.of_nat (size (by_revision reg)))) as [Hb|Hb]; cbn [reject_if raise_ mbind result_bind].
  { split; [done|]. right. right. lia. }
  set (reg' := {| by_revision := by_revision reg; by_route := _ |}).
  assert (1 <= size (by_revision reg))%nat as Hpos.
  { destruct (size (by_revision reg)) eqn:E0; [|lia]. by apply map_size_empty_inv in E0. }
  destruct (registered_ok l reg (py_sorted revision_leb <$> by_route reg) H ltac:(lia)) as [Hok Hplans].
  split_and!.
  - apply H.
  - rewrite plans_length. apply Hok.
  - rewrite plans_length. apply Hok.
  - by apply plans_nodup.
  - by apply plans_sorted.
  - exact Hplans.
  - intros r p. unfold require_revision. cbn [reg' by_revision]. rewrite <- (rn_revision _ _ H).
    destruct (by_revision reg !! r); [split; by intros [= ->]|split; [intros Hx; discriminate Hx|done]].
  - intros k. cbn [reg' by_route]. rewrite lookup_fmap, (rn_route _ _ H). cbn zeta.
    destruct (bool_decide _) eqn:E; cbn.
    + apply bool_decide_eq_true in E. rewrite E. split; [done|constructor].
    + split; [by rewrite py_sorted_perm|]. apply (py_sorted_sorted revision_leb leb_total leb_trans).
Qed.

(** ** Automatic placement *)

Lemma eligible_in rs maximum l plan c :
  (plan, c) ∈ eligible rs maximum l <->
  plan ∈ l /\ candidates_by_revision rs !! revision plan = Some c /\ pc_estimated_cost_microusd c <= maximum.
Proof.
  unfold eligible. rewrite list_elem_of_filter, list_elem_of_omap, Z.leb_le. cbn [snd]. split.
  - intros [Hc (q & Hq & E)]. destruct (candidates_by_revision rs !! revision q) as [c'|] eqn:Eq; [|done].
    cbn [mbind option_bind] in E. injection E as -> ->. auto.
  - intros (Hp & Hc & Hl). split; [done|]. exists plan. split; [done|]. rewrite Hc. done.
Qed.

Lemma eligible_perm rs maximum l l' : l ≡ₚ l' -> eligible rs maximum l ≡ₚ eligible rs maximum l'.
Proof. intros H. unfold eligible. by rewrite H. Qed.

Lemma lex_leb_antisym {A B} (la : A -> A -> bool) (lb : B -> B -> bool) p q :
  lex_leb la lb p q = true -> lex_leb la lb q p = true ->
  la p.1 q.1 = true /\ la q.1 p.1 = true /\ lb p.2 q.2 = true /\ lb q.2 p.2 = true.
Proof.
  unfold lex_leb. rewrite !andb_true_iff, !orb_true_iff, !negb_true_iff. intros [H1 H2] [H3 H4].
  destruct H2 as [H2|H2]; [congruence|]. destruct H4 as [H4|H4]; [congruence|]. auto.
Qed.

Lemma placement_antisym preferred rs maximum l x y :
  consistent l -> x ∈ eligible rs maximum l -> y ∈ eligible rs maximum l ->
  placement_leb preferred x y = true -> placement_leb preferred y x = true -> x = y.
Proof.
  destruct x as [p c], y as [q c']. intros Hc (Hp & Ep & _)%eligible_in (Hq & Eq & _)%eligible_in H1 H2.
  unfold placement_leb, key_leb in H1, H2.
  destruct (lex_leb_antisym _ _ _ _ H1 H2) as (_ & _ & H3 & H4).
  destruct (lex_leb_antisym _ _ _ _ H3 H4) as (_ & _ & H5 & H6).
  destruct (lex_leb_antisym _ _ _ _ H5 H6) as (_ & _ & H7 & H8).
  destruct (lex_leb_antisym _ _ _ _ H7 H8) as (_ & _ & H9 & H10). cbn [fst snd] in H9, H10.
  pose proof (str_leb_antisym _ _ H9 H10) as E. rewrite E in Ep. rewrite (Hc p q Hp Hq E). congruence.
Qed.

(** [sorted]'s tuple order, component by component. *)
Lemma lex_leb_first {A B} (la : A -> A -> bool) (lb : B -> B -> bool) `{!TotalLeb la} a a' b b' :
  lex_leb la lb (a, b) (a', b') = true -> la a a' = true /\ (a = a' -> lb b b' = true).
Proof.
  unfold lex_leb. cbn [fst snd]. rewrite andb_true_iff, orb_true_iff, negb_true_iff. intros [H1 H2]. split; [done|].
  intros <-. destruct H2 as [H2|H2]; [congruence|done].
Qed.

(** The identities that break a tie, compared as texts: the environment, then
    the plan's id, then its revision. *)
Definition identity_before (p q : ExecutionPlan) : Prop :=
  str_leb (ep_environment p) (ep_environment q) = true /\
  (ep_environment p = ep_environment q ->
     str_leb (ep_plan_id p) (ep_plan_id q) = true /\
     (ep_plan_id p = ep_plan_id q -> str_leb (revision p) (revision q) = true)).

(** A placement is no worse than another: in the preferred locality if the other
    is; when both are or neither is, no dearer; at the same cost, first by
    identity. *)
Definition no_worse (preferred : string) (x y : placement) : Prop :=
  (pc_locality y.2 = preferred -> pc_locality x.2 = preferred) /\
  ((pc_locality x.2 = preferred <-> pc_locality y.2 = preferred) ->
   pc_estimated_cost_microusd x.2 <= pc_estimated_cost_microusd y.2 /\
   (pc_estimated_cost_microusd x.2 = pc_estimated_cost_microusd y.2 -> identity_before x.1 y.1)).

Lemma placement_leb_best preferred x y : placement_leb preferred x y = true -> no_worse preferred x y.
Proof.
  unfold placement_leb, key_leb. intros [H1 H2]%lex_leb_first; [|apply _]. split.
  - intros E. unfold bool_leb in H1. rewrite (bool_decide_true (pc_locality y.2 = _)), negb_involutive in H1 by done.
    rewrite orb_false_r in H1. by apply bool_decide_eq_true in H1.
  - intros E. rewrite (bool_decide_ext _ _ E) in H2. specialize (H2 eq_refl).
    apply lex_leb_first in H2 as [Hcost H2]; [|apply _]. split; [by apply Z.leb_le|]. intros Ec. specialize (H2 Ec).
    apply lex_leb_first in H2 as [Henv H2]; [|apply _]. split; [done|]. intros Ee. specialize (H2 Ee).
    by apply lex_leb_first in H2; [|apply _].
Qed.

(** A plan has a candidate within the budget. *)
Definition affordable (rs : PlanRunSubmissionResolver) (maximum : Z) (plan : ExecutionPlan) : bool :=
  match candidates_by_revision rs !! revision plan with
  | Some c => pc_estimated_cost_microusd c <=? maximum
  | None => false
  end.

Lemma eligible_count rs maximum l : length (eligible rs maximum l) = length (filter (fun p => affordable rs maximum p = true) l).
Proof.
  induction l as [|p l IH]; [done|]. rewrite filter_cons. unfold eligible, affordable in *. cbn [omap list_omap].
  destruct (candidates_by_revision rs !! revision p) as [c|]; cbn [mbind option_bind]; [|by rewrite decide_False].
  rewrite filter_cons. cbn [snd]. destruct (_ <=? _); [rewrite !decide_True|rewrite !decide_False]; cbn; by rewrite ?IH.
Qed.

(** The decision that records the automatic choice of a candidate among [l]. *)
Definition explanation (rs : PlanRunSubmissionResolver) (preferred : string) (maximum : Z) (l : list ExecutionPlan)
    (plan : ExecutionPlan) (c : PlacementCandidate) : PlacementDecision :=
  {| pd_mode := AUTOMATIC; pd_selected_environment := ep_environment plan; pd_selected_locality := Some (pc_locality c);
     pd_estimated_cost_microusd := Some (pc_estimated_cost_microusd c); pd_preferred_locality := Some preferred;
     pd_max_cost_microusd := Some maximum;
     pd_eligible_plan_count := Z.of_nat (length (filter (fun p => affordable rs maximum p = true) l));
     pd_schema := PLACEMENT_DECISION_SCHEMA |}.

Lemma new_placement_decision_ok d d' : new_placement_decision d = Ok d' -> d' = d.
Proof. unfold new_placement_decision. by intros (u & _ & [= <-])%bind_ok. Qed.

Lemma placement_decision_errors d : only OrchestrationContractError (new_placement_decision d).
Proof.
  unfold new_placement_decision, PlacementDecision_post_init, require_portable, contract_reject.
  destruct (pd_mode d), (pd_selected_locality d), (pd_estimated_cost_microusd d), (pd_preferred_locality d), (pd_max_cost_microusd d);
    cbn [is_none Bool.eqb negb]; only_tac; try discriminate.
Qed.

(** What the automatic choice returns, when there is a candidate. *)
Lemma automatically_selected rs preferred maximum l plan d :
  rs_preferred_locality rs = Some preferred -> rs_max_cost_microusd rs = Some maximum ->
  automatically_select rs l = Ok (plan, d) ->
  exists c, (plan, c) ∈ eligible rs maximum l /\ d = explanation rs preferred maximum l plan c /\
    forall y, y ∈ eligible rs maximum l -> no_worse preferred (plan, c) y.
Proof.
  intros Hp Hm H. unfold automatically_select in H. rewrite Hp, Hm in H.
  destruct (eligible rs maximum l) as [|y k] eqn:E; [done|].
  pose proof (py_min_in (placement_leb preferred) leb_total leb_trans y k) as Hin.
  pose proof (py_min_le (placement_leb preferred) leb_total leb_trans y k) as Hle.
  destruct (py_min (placement_leb preferred) y k) as [p c]. apply bind_ok in H as (d' & Hd & [= -> ->]).
  apply new_placement_decision_ok in Hd as ->. rewrite <- E, eligible_count. exists c.
  rewrite E. split; [done|]. split; [done|]. intros z Hz. by apply placement_leb_best, Hle.
Qed.

Lemma automatically_unavailable rs preferred maximum l :
  rs_preferred_locality rs = Some preferred -> rs_max_cost_microusd rs = Some maximum ->
  automatically_select rs l = unavailable "No hosted execution plan satisfies the configured placement budget." <->
  eligible rs maximum l = [].
Proof.
  intros Hp Hm. unfold automatically_select. rewrite Hp, Hm. destruct (eligible rs maximum l) as [|y k]; [done|].
  split; [|done]. destruct (py_min _ y k) as [p c]. intros H.
  match type of H with context [new_placement_decision ?x] => pose proof (placement_decision_errors x) as Ho; destruct (new_placement_decision x) end.
  - discriminate H.
  - cbn [mbind result_bind] in H. injection H as ->. discriminate Ho.
Qed.

(** C17: automatic placement is optimal, deterministic and explained: among the
    given current plans that have a candidate within the budget it selects one in
    the preferred locality if there is any; of those (or of all, if there is none)
    the cheapest; and of the cheapest the first by environment, plan id and
    revision. The decision it returns says exactly that: the selected environment,
    locality and cost, the preference and the budget, and how many plans were
    within the budget. The choice does not depend on the order of the plans; and
    it reports no plan exactly when none is within the budget. *)
Theorem automatic_placement_optimal rs preferred maximum l l'
    (Hp : rs_preferred_locality rs = Some preferred) (Hm : rs_max_cost_microusd rs = Some maximum)
    (Hc : consistent l) (Hl : l' ≡ₚ l) :
  automatically_select rs l' = automatically_select rs l /\
  (forall plan d, automatically_select rs l = Ok (plan, d) ->
     plan ∈ l /\ exists c, candidates_by_revision rs !! revision plan = Some c /\ pc_estimated_cost_microusd c <= maximum /\
     d = {| pd_mode := AUTOMATIC; pd_selected_environment := ep_environment plan; pd_selected_locality := Some (pc_locality c);
            pd_estimated_cost_microusd := Some (pc_estimated_cost_microusd c); pd_preferred_locality := Some preferred;
            pd_max_cost_microusd := Some maximum;
            pd_eligible_plan_count := Z.of_nat (length (filter (fun p => affordable rs maximum p = true) l));
            pd_schema := PLACEMENT_DECISION_SCHEMA |} /\
     forall q c', q ∈ l -> candidates_by_revision rs !! revision q = Some c' -> pc_estimated_cost_microusd c' <= maximum ->
       (pc_locality c' = preferred -> pc_locality c = preferred) /\
       ((pc_locality c = preferred <-> pc_locality c' = preferred) ->
        pc_estimated_cost_microusd c <= pc_estimated_cost_microusd c' /\
        (pc_estimated_cost_microusd c = pc_estimated_cost_microusd c' -> identity_before plan q))) /\
  (automatically_select rs l = unavailable "No hosted execution plan satisfies the configured placement budget." <->
   forall q c', q ∈ l -> candidates_by_revision rs !! revision q = Some c' -> maximum < pc_estimated_cost_microusd c').
Proof.
  pose proof (eligible_perm rs maximum _ _ Hl) as He. split_and!.
  - unfold automatically_select. rewrite Hp, Hm.
    destruct (eligible rs maximum l') as [|x k'] eqn:E', (eligible rs maximum l) as [|y k] eqn:E; try done.
    + by apply Permutation_nil_cons in He.
    + by apply symmetry, Permutation_nil_cons in He.
    + rewrite (Permutation_length He). rewrite (py_min_perm (placement_leb preferred) leb_total leb_trans x k' y k); [done|done|].
      intros a b Ha Hb. rewrite He in Ha, Hb. rewrite <- E in Ha, Hb. by apply placement_antisym with rs maximum l.
  - intros plan d H. destruct (automatically_selected rs preferred maximum l plan d Hp Hm H) as (c & Hin & Hd & Hbest).
    apply eligible_in in Hin as (Hin & Hcand & Hcost). split; [done|]. exists c. split_and!; [done..|].
    intros q c' Hq Hcq Hcost'. apply (Hbest (q, c')). by apply eligible_in.
  - rewrite (automatically_unavailable rs preferred maximum l Hp Hm). split.
    + intros H q c' Hq Hcq. destruct (Z.lt_ge_cases maximum (pc_estimated_cost_microusd c')) as [|Hle]; [done|].
      assert ((q, c') ∈ eligible rs maximum l) as Hin by by apply eligible_in. rewrite H in Hin. by apply not_elem_of_nil in Hin.
    + intros H. destruct (eligible rs maximum l) as [|[q c'] k] eqn:E; [done|]. exfalso.
      assert ((q, c') ∈ eligible rs maximum l) as Hin by (rewrite E; left). apply eligible_in in Hin as (Hin & Hcq & Hle).
      specialize (H q c' Hin Hcq). lia.
Qed.

(** ** Size classes *)

Lemma dict_by_in {K A} `{Countable K} (key : A -> K) l k x : dict_by key l !! k = Some x -> x ∈ l /\ key x = k.
Proof.
  unfold dict_by. induction l as [|y l IH] using rev_ind; [cbn [foldl]; by rewrite lookup_empty|].
  rewrite foldl_app. cbn [foldl]. rewrite lookup_insert_Some, elem_of_app, list_elem_of_singleton.
  intros [[<- <-]|[_ [Hx Hk]%IH]]; auto.
Qed.

Lemma choices_in configured ps p c : (p, c) ∈ choices configured ps <-> p ∈ ps /\ configured !! revision p = Some c.
Proof.
  unfold choices. rewrite list_elem_of_omap. split.
  - intros (q & Hq & E). destruct (configured !! revision q) as [c'|] eqn:Eq; [|done]. cbn [mbind option_bind] in E. by injection E as -> ->.
  - intros [Hp Hc]. exists p. split; [done|]. by rewrite Hc.
Qed.

Lemma filter_environments e envs (l : list ExecutionPlan) :
  e ∉ envs ->
  filter (fun p => ep_environment p ∈ e :: envs) l ≡ₚ filter (fun p => ep_environment p ∈ envs) l ++ route_plans l e.
Proof.
  intros He. unfold route_plans. induction l as [|p l IH]; [done|].
  destruct (decide (ep_environment p = e)) as [E|E].
  - rewrite (filter_cons_True (fun p => ep_environment p ∈ e :: envs)) by (rewrite E; by left).
    rewrite (filter_cons_True (fun p => ep_environment p = e)) by done.
    rewrite (filter_cons_False (fun p => ep_environment p ∈ envs)) by (by rewrite E).
    rewrite IH. apply Permutation_middle.
  - rewrite (filter_cons_False (fun p => ep_environment p = e)) by done.
    destruct (decide (ep_environment p ∈ envs)).
    + rewrite (filter_cons_True (fun p => ep_environment p ∈ e :: envs)) by (by right).
      rewrite (filter_cons_True (fun p => ep_environment p ∈ envs)) by done. by rewrite IH.
    + rewrite (filter_cons_False (fun p => ep_environment p ∈ e :: envs)) by (by intros [?|?]%elem_of_cons).
      by rewrite (filter_cons_False (fun p => ep_environment p ∈ envs)) by done.
Qed.

Definition evidence_ok (x : SizeSelectionEvidence) : Prop :=
  0 <= ev_bytes x <= MAX_RESULT_INTEGER /\ portable_id (ev_source x) = true /\ is_utc (ev_observed_at x) = true.

Record resolver_ok (rs : PlanRunSubmissionResolver) : Prop := {
  ro_registry : registry_ok (rs_plans rs);
  ro_plan p : p ∈ plans (rs_plans rs) ->
    ExecutionPlan_post_init p = Ok tt /\ ResourceProjection_post_init (et_resources (ep_execution_template p)) = Ok tt;
  ro_post : resolver_post_init rs = Ok tt;
  ro_candidate c : c ∈ rs_placement_candidates rs -> PlacementCandidate_post_init c = Ok tt;
  ro_size c : c ∈ rs_size_class_candidates rs -> SizeClassCandidate_post_init c = Ok tt;
  ro_estimate e f record v : (e, f) ∈ rs_input_size_estimators rs -> f record = Ok v -> InputSizeEstimate_post_init v = Ok tt;
}.

Section Sized.
Context (rs : PlanRunSubmissionResolver) (Hrs : resolver_ok rs) (record : GraphRecord).
Context (size_class : option string) (bytes : option Z) (requested_at : datetime).
Context (Hbytes : forall n, bytes = Some n -> 0 <= n <= MAX_RESULT_INTEGER) (Hutc : is_utc requested_at = true).

Let sized := size_candidates_by_revision rs.

(** The plan chosen on a route is one of its choices and fits the estimate. *)
Lemma route_choice_in items n p :
  route_choice rs size_class items n = Some p ->
  exists c, (p, c) ∈ items /\ forall m, n = Some m -> m <= sc_max_input_bytes c.
Proof.
  unfold route_choice. destruct n as [m|].
  - destruct (filter _ items) as [|x k] eqn:E; [done|]. intros [= <-].
    pose proof (py_min_in fit_leb leb_total leb_trans x k) as Hin. rewrite <- E in Hin. apply list_elem_of_filter in Hin as [Hm Hin].
    apply Z.leb_le in Hm. destruct (py_min fit_leb x k) as [q c]. exists c. split; [done|]. by intros m' [= <-].
  - destruct (head _) as [[q c]|] eqn:E; [|done]. intros Hq. injection Hq as ->. exists c.
    apply head_Some_elem_of, list_elem_of_filter in E as [_ E]. done.
Qed.

Lemma route_estimate_ok e :
  match route_estimate rs record size_class bytes requested_at e with
  | Ok (n, _, evidence) =>
      forall x, evidence = Some x -> evidence_ok x /\ n = Some (ev_bytes x)
  | Raise x => exists f, (e, f) ∈ rs_input_size_estimators rs /\ f record = Raise x
  end.
Proof.
  unfold route_estimate. destruct bytes as [n|].
  - intros x [= <-]. split; [|done]. by split_and!; try apply Hbytes.
  - destruct (if is_none size_class then _ else None) as [[e' f]|] eqn:E; [|by intros x].
    destruct (is_none size_class); [|done]. apply dict_by_in in E as [Hi He]. cbn in He. subst e'. destruct (f record) as [v|x] eqn:Ef.
    + intros x [= <-]. pose proof (ro_estimate _ Hrs _ _ _ _ Hi Ef) as Hv. unfold InputSizeEstimate_post_init in Hv.
      apply seq_ok in Hv as [H1 Hv]. apply seq_ok in Hv as [H2 H3].
      rewrite reject_if_tt in H1, H2, H3. apply out_of_range_false in H1. apply negb_false_iff in H2, H3. done.
    + destruct (catches InputSizeEstimationError x); [by intros y|]. by exists f.
Qed.

Record sizing_ok (current : list ExecutionPlan) (envs : list string) (acc : sizing) : Prop := {
  si_selected : sz_selected acc ⊆+ filter (fun p => ep_environment p ∈ envs) current;
  si_fits p m x : p ∈ sz_selected acc -> sz_modes acc !! ep_environment p = Some (Some m) ->
    sz_evidence acc !! ep_environment p = Some x ->
    evidence_ok x /\ forall c, sized !! revision p = Some c -> ev_bytes x <= sc_max_input_bytes c;
  si_fresh e : e ∉ envs -> sz_modes acc !! e = None /\ sz_evidence acc !! e = None;
}.

Lemma selected_environment current envs acc p : sizing_ok current envs acc -> p ∈ sz_selected acc ->
  p ∈ current /\ ep_environment p ∈ envs.
Proof.
  intros H Hp. assert (p ∈ filter (fun p => ep_environment p ∈ envs) current) as Hin.
  { eapply elem_of_submseteq; [exact Hp|apply H]. }
  by apply list_elem_of_filter in Hin as [? ?].
Qed.

Lemma size_route_ok current envs acc e :
  sizing_ok current envs acc -> e ∉ envs ->
  match size_route rs record size_class bytes requested_at e (route_plans current e) acc with
  | Ok acc' => sizing_ok current (e :: envs) acc'
  | Raise x => exists f, (e, f) ∈ rs_input_size_estimators rs /\ f record = Raise x
  end.
Proof.
  intros H He. pose proof (filter_environments e envs current He) as Hperm.
  assert (forall p, p ∈ sz_selected acc -> ep_environment p <> e) as Hne.
  { intros p Hp E. destruct (selected_environment _ _ _ _ H Hp) as [_ Hin]. by rewrite E in Hin. }
  assert (forall p, p ∈ route_plans current e -> ep_environment p = e) as Hroute.
  { intros p Hp. by apply list_elem_of_filter in Hp as [? _]. }
  unfold size_route. destruct (choices _ _) as [|item items] eqn:Ei.
  - destruct (is_some size_class || is_some bytes).
    + destruct H as [Hs Hf Hfr]. split; [|done|intros e' He'; apply Hfr; set_solver].
      rewrite Hs, Hperm. by apply submseteq_inserts_r.
    + destruct H as [Hs Hf Hfr]. split; cbn [sz_selected sz_modes sz_evidence].
      * rewrite Hperm. by apply submseteq_app.
      * intros p m x [Hp|Hp]%elem_of_app Hm Hx.
        -- rewrite lookup_insert_ne in Hm by (apply not_eq_sym; by apply Hne). by apply (Hf p m x).
        -- rewrite (Hroute p Hp), lookup_insert_eq in Hm. discriminate Hm.
      * intros e' He'. rewrite lookup_insert_ne by set_solver. apply Hfr. set_solver.
  - pose proof (route_estimate_ok e) as He'. destruct (route_estimate _ _ _ _ _ e) as [[[n mode] evidence]|x]; [|done].
    cbn [mbind result_bind]. set (found := match evidence with Some _ => _ | None => _ end).
    assert (forall p x, p ∈ sz_selected acc -> found !! ep_environment p = Some x -> sz_evidence acc !! ep_environment p = Some x) as Hold.
    { intros p x Hp. unfold found. destruct evidence; [|done]. by rewrite lookup_insert_ne by (apply not_eq_sym; by apply Hne). }
    assert (forall e', e' <> e -> sz_evidence acc !! e' = None -> found !! e' = None) as Hnew.
    { intros e' Hd Hn. unfold found. destruct evidence; [|done]. by rewrite lookup_insert_ne by congruence. }
    destruct (route_choice rs size_class (item :: items) n) as [p|] eqn:Ec.
    + destruct (route_choice_in _ _ _ Ec) as (c & Hc & Hfit). rewrite <- Ei in Hc. apply choices_in in Hc as [Hp Hc].
      destruct H as [Hs Hf Hfr]. split; cbn [sz_selected sz_modes sz_evidence].
      * rewrite Hperm. apply submseteq_app; [done|]. by apply singleton_submseteq_l.
      * intros q m x [Hq|Hq]%elem_of_app Hm Hx.
        -- rewrite lookup_insert_ne in Hm by (apply not_eq_sym; by apply Hne). apply (Hf q m x); [done..|by apply Hold].
        -- apply list_elem_of_singleton in Hq as ->. rewrite (Hroute p Hp) in Hx. unfold found in Hx.
           destruct evidence as [y|]; [|by destruct (Hfr e He); congruence]. rewrite lookup_insert_eq in Hx. injection Hx as ->.
           destruct (He' x eq_refl) as [Hok ->]. split; [done|]. intros c' Hc'. unfold sized in Hc'. rewrite Hc in Hc'. injection Hc' as <-. by apply Hfit.
      * intros e' Hx. rewrite lookup_insert_ne by set_solver. destruct (Hfr e') as [H1 H2]; [set_solver|]. split; [done|].
        apply Hnew; [set_solver|done].
    + destruct H as [Hs Hf Hfr]. split; cbn [sz_selected sz_modes sz_evidence].
      * rewrite Hs, Hperm. by apply submseteq_inserts_r.
      * intros q m x Hq Hm Hx. apply (Hf q m x); [done..|by apply Hold].
      * intros e' Hx. destruct (Hfr e') as [H1 H2]; [set_solver|]. split; [done|]. apply Hnew; [set_solver|done].
Qed.

Lemma sizing_skip current envs acc e : sizing_ok current envs acc -> sizing_ok current (e :: envs) acc.
Proof.
  intros [Hs Hf Hfr]. split; [|done|intros e' He'; apply Hfr; set_solver].
  rewrite Hs. clear. induction current as [|p l IH]; [done|]. rewrite !filter_cons.
  repeat case_decide; [by apply submseteq_skip|set_solver|by apply submseteq_cons|done].
Qed.

Lemma size_routes_ok environment current todo : forall envs acc,
  NoDup (todo ++ envs) -> sizing_ok current envs acc ->
  match size_routes rs record size_class bytes requested_at environment current todo acc with
  | Ok acc' => exists envs', sizing_ok current envs' acc'
  | Raise x => exists e f, (e, f) ∈ rs_input_size_estimators rs /\ f record = Raise x
  end.
Proof.
  induction todo as [|e todo IH]; intros envs acc Hnd H; cbn [size_routes]; [by exists envs|].
  cbn [app] in Hnd. apply NoDup_cons in Hnd as [He Hnd].
  assert (e ∉ envs) as He' by set_solver.
  assert (NoDup (todo ++ e :: envs)) as Hnd'.
  { rewrite <- Permutation_middle. by constructor. }
  destruct (_ && _).
  - apply (IH (e :: envs)); [done|]. by apply sizing_skip.
  - pose proof (size_route_ok current envs acc e H He') as Hr. destruct (size_route _ _ _ _ _ _ _ _) as [acc'|x].
    + by apply (IH (e :: envs)).
    + destruct Hr as (f & Hf). by exists e, f.
Qed.
End Sized.

(** ** Resolving a request *)

Definition control_error (e : exn) : Prop := catches ControlOperationError e = true.

(** What the current plans of a graph are. *)
Lemma current_for_graph_ok reg record :
  match current_for_graph reg record with
  | Ok current => current <> [] /\ (length current <= length (plans reg))%nat /\
      forall p, p ∈ current <-> p ∈ plans reg /\ ep_project p = gr_project record /\ ep_graph p = gr_graph record /\ is_current record p = true
  | Raise e => control_error e
  end.
Proof.
  unfold current_for_graph. destruct (bool_decide (registered reg record = [])) eqn:E1; [done|].
  destruct (bool_decide (filter _ (registered reg record) = [])) eqn:E2; [done|]. apply bool_decide_eq_false in E2.
  split; [done|]. split.
  - etrans; [apply length_filter|]. apply length_filter.
  - intros p. unfold registered. rewrite !list_elem_of_filter, andb_true_iff, !bool_decide_eq_true. tauto.
Qed.

Section Resolve.
Context (rs : PlanRunSubmissionResolver) (Hrs : resolver_ok rs) (record : GraphRecord).

Lemma candidate_ok p c : candidates_by_revision rs !! revision p = Some c -> PlacementCandidate_post_init c = Ok tt.
Proof. intros [H _]%dict_by_in. by apply (ro_candidate _ Hrs). Qed.

Lemma size_candidate_ok p c : size_candidates_by_revision rs !! revision p = Some c -> SizeClassCandidate_post_init c = Ok tt.
Proof. intros [H _]%dict_by_in. by apply (ro_size _ Hrs). Qed.

Lemma plan_portable p : p ∈ plans (rs_plans rs) ->
  portable_id (ep_plan_id p) = true /\ portable_id (ep_environment p) = true /\ portable_id (ep_project p) = true.
Proof.
  intros Hp. destruct (ro_plan _ Hrs p Hp) as [H _]. unfold ExecutionPlan_post_init in H.
  apply seq_ok in H as [_ H]. apply seq_ok in H as [H _]. apply for_each_ok in H.
  apply Forall_cons in H as [H1 H]. apply Forall_cons in H as [H2 H]. apply Forall_cons in H as [H3 _].
  unfold require_portable, contract_reject in *. cbn [fst snd] in *.
  apply reject_if_tt, negb_false_iff in H1, H2, H3. done.
Qed.

Lemma selection_ok size_class bytes requested_at environment :
  is_utc requested_at = true ->
  match select_size_candidates rs record size_class bytes requested_at environment with
  | Ok acc => exists current envs, current_for_graph (rs_plans rs) record = Ok current /\
      sizing_ok rs current envs acc /\ sz_selected acc <> []
  | Raise x =>
      control_error x \/ (exists e f, (e, f) ∈ rs_input_size_estimators rs /\ f record = Raise x) \/
      catches OrchestrationContractError x = true /\
        ((exists c, size_class = Some c /\ portable_id c = false) \/ (exists n, bytes = Some n /\ out_of_range n = true))
  end.
Proof.
  intros Hutc. unfold select_size_candidates. destruct (is_some size_class && is_some bytes); cbn [reject_if raise_ mbind result_bind]; [by left|].
  unfold contract_reject.
  destruct (when_some size_class _) as [u|x] eqn:E1; cbn [mbind result_bind].
  2: { destruct size_class as [c|]; [|done]. cbn [when_some] in E1. apply reject_if_raise in E1 as [E1 ->]. right. right.
       split; [done|]. left. exists c. by apply negb_true_iff in E1. }
  destruct (when_some bytes _) as [u2|x] eqn:E2; cbn [mbind result_bind].
  2: { destruct bytes as [n|]; [|done]. cbn [when_some] in E2. apply reject_if_raise in E2 as [E2 ->]. right. right.
       split; [done|]. right. by exists n. }
  assert (forall n, bytes = Some n -> 0 <= n <= MAX_RESULT_INTEGER) as Hbytes.
  { intros n ->. cbn [when_some] in E2. by apply reject_if_ok, out_of_range_false in E2. }
  pose proof (current_for_graph_ok (rs_plans rs) record) as Hcur.
  destruct (current_for_graph (rs_plans rs) record) as [current|x]; cbn [mbind result_bind]; [|by left].
  destruct Hcur as (Hne & _ & _). destruct (rs_size_class_candidates rs) as [|sc scs].
  - destruct (_ || _); [by left|]. exists current, (ep_environment <$> current). split; [done|]. split; [|done].
    split; cbn [sz_selected sz_modes sz_evidence].
    + rewrite filter_forall_id; [done|]. apply Forall_forall. intros p Hp. by apply list_elem_of_fmap_2.
    + intros p m x _ _ Hx. by rewrite lookup_empty in Hx.
    + intros e He. split; [|apply lookup_empty]. clear Hne. induction current as [|p l IH] using rev_ind; [apply lookup_empty|].
      rewrite foldl_app. cbn [foldl]. rewrite fmap_app, elem_of_app in He. rewrite lookup_insert_ne.
      * apply IH. tauto.
      * intros <-. apply He. right. left.
  - assert (sizing_ok rs current [] {| sz_selected := []; sz_modes := ∅; sz_evidence := ∅ |}) as H0.
    { split; cbn [sz_selected sz_modes sz_evidence]; [apply submseteq_nil_l|intros p m x Hp; by apply not_elem_of_nil in Hp|].
      intros e _. by rewrite !lookup_empty. }
    pose proof (size_routes_ok rs Hrs record size_class bytes requested_at Hbytes Hutc environment current
      (sorted_set (ep_environment <$> current)) [] _ ltac:(rewrite app_nil_r; unfold sorted_set; rewrite py_sorted_perm; apply NoDup_remove_dups) H0) as H.
    destruct (size_routes _ _ _ _ _ _ _ _ _) as [acc|x]; cbn [mbind result_bind]; [|by right; left].
    destruct H as [envs H]. destruct (bool_decide (sz_selected acc = [])) eqn:E; [by left|].
    apply bool_decide_eq_false in E. by exists current, envs.
Qed.

Lemma exact_decision_ok p mode :
  p ∈ plans (rs_plans rs) -> mode <> AUTOMATIC ->
  exists d, exact_decision rs p mode = Ok d /\ pd_mode d = mode /\ pd_selected_environment d = ep_environment p.
Proof.
  intros Hp Hm. destruct (plan_portable p Hp) as (_ & He & _). unfold exact_decision, new_placement_decision.
  set (d := {| pd_mode := mode |}). exists d.
  assert (PlacementDecision_post_init d = Ok tt) as ->; [|done].
  unfold PlacementDecision_post_init, require_portable, contract_reject. subst d.
  cbn [pd_mode pd_selected_environment pd_selected_locality pd_estimated_cost_microusd pd_preferred_locality
       pd_max_cost_microusd pd_eligible_plan_count pd_schema].
  rewrite bool_decide_true by done. rewrite He. cbn [negb reject_if mbind result_bind].
  destruct (candidates_by_revision rs !! revision p) as [c|] eqn:Ec; cbn [fmap option_fmap option_map when_some for_each fst snd mbind result_bind is_none Bool.eqb negb].
  - pose proof (candidate_ok p c Ec) as Hc. unfold PlacementCandidate_post_init, require_portable, contract_reject in Hc.
    apply seq_ok in Hc as [_ Hc]. apply seq_ok in Hc as [Hl Hc]. apply reject_if_tt in Hl, Hc. rewrite Hl, Hc. cbn. by destruct mode.
  - cbn. by destruct mode.
Qed.

Lemma automatic_ok l :
  (forall p, p ∈ l -> p ∈ plans (rs_plans rs)) -> (length l <= 100)%nat -> rs_environment rs = "auto" ->
  match automatically_select rs l with
  | Ok (p, d) => p ∈ l /\ pd_mode d = AUTOMATIC /\ pd_selected_environment d = ep_environment p
  | Raise e => control_error e
  end.
Proof.
  intros Hl Hlen Hauto. pose proof (ro_post _ Hrs) as Hpost. unfold resolver_post_init in Hpost.
  apply seq_ok in Hpost as [_ Hpost]. apply seq_ok in Hpost as [_ Hpost]. apply seq_ok in Hpost as [Ha Hpost].
  apply seq_ok in Hpost as [Hloc Hpost]. apply seq_ok in Hpost as [Hcost _].
  rewrite bool_decide_true in Ha by done. apply seq_ok in Ha as [_ Ha]. apply reject_if_tt in Ha.
  unfold automatically_select.
  destruct (rs_preferred_locality rs) as [preferred|]; [|by rewrite orb_true_r in Ha].
  destruct (rs_max_cost_microusd rs) as [maximum|]; [|by rewrite orb_true_r in Ha].
  cbn [when_some] in Hloc, Hcost. destruct (eligible rs maximum l) as [|y k] eqn:E; [done|].
  pose proof (py_min_in (placement_leb preferred) leb_total leb_trans y k) as Hin. rewrite <- E in Hin.
  assert ((1 <= length (y :: k) <= 100)%nat) as Hcount.
  { split; [cbn; lia|]. rewrite <- E. unfold eligible. etrans; [apply length_filter|].
    etrans; [|exact Hlen]. clear. induction l as [|p l IH]; cbn; [done|]. destruct (_ ≫= _); cbn; lia. }
  destruct (py_min _ y k) as [p c]. apply eligible_in in Hin as (Hp & Hc & Hle).
  destruct (plan_portable p (Hl p Hp)) as (_ & He & _). unfold new_placement_decision.
  set (d := {| pd_mode := AUTOMATIC |}).
  assert (PlacementDecision_post_init d = Ok tt) as ->; [|done].
  unfold PlacementDecision_post_init, require_portable, contract_reject in *. subst d.
  cbn [pd_mode pd_selected_environment pd_selected_locality pd_estimated_cost_microusd pd_preferred_locality
       pd_max_cost_microusd pd_eligible_plan_count pd_schema].
  rewrite bool_decide_true by done. rewrite He. cbn [negb reject_if mbind result_bind when_some for_each fst snd is_none Bool.eqb].
  pose proof (candidate_ok p c Hc) as Hok. unfold PlacementCandidate_post_init, require_portable, contract_reject in Hok.
  apply seq_ok in Hok as [_ Hok]. apply seq_ok in Hok as [Hl' Hc'].
  apply reject_if_tt in Hl', Hc', Hloc, Hcost. rewrite Hl', Hloc, Hc', Hcost. cbn [reject_if mbind result_bind].
  rewrite (proj2 (Z.leb_le _ _)), (proj2 (Z.leb_le _ _)) by lia. cbn [andb negb reject_if mbind result_bind].
  by rewrite (proj2 (Z.ltb_ge _ _)) by lia.
Qed.

Lemma size_decision_ok p l mode evidence :
  p ∈ plans (rs_plans rs) -> (1 <= length l <= 100)%nat ->
  (forall m x c, mode = Some m -> evidence = Some x -> size_candidates_by_revision rs !! revision p = Some c ->
     evidence_ok x /\ ev_bytes x <= sc_max_input_bytes c) ->
  exists o, size_decision rs p l mode evidence = Ok o.
Proof.
  intros Hp Hlen Hev. unfold size_decision. destruct mode as [m|]; [|by eexists].
  destruct (size_candidates_by_revision rs !! revision p) as [c|] eqn:Ec; [|by eexists].
  unfold new_size_decision. set (d := {| sd_mode := m |}). exists (Some d).
  assert (SizeClassDecision_post_init d = Ok tt) as ->; [|done].
  destruct (ro_plan _ Hrs p Hp) as [_ Hres]. unfold ResourceProjection_post_init in Hres.
  apply seq_ok in Hres as [Hstore Hres]. apply seq_ok in Hres as [Hpos _]. apply reject_if_tt, Z.ltb_ge in Hpos.
  pose proof (size_candidate_ok p c Ec) as Hc. unfold SizeClassCandidate_post_init, require_portable, contract_reject in Hc.
  apply seq_ok in Hc as [_ Hc]. apply seq_ok in Hc as [Hclass Hmax]. apply reject_if_tt in Hclass. apply reject_if_tt, out_of_range_false in Hmax.
  unfold SizeClassDecision_post_init, require_portable, contract_reject. subst d.
  cbn [sd_schema sd_selected_size_class sd_estimated_input_bytes sd_estimate_source sd_estimate_observed_at sd_max_input_bytes
       sd_cpu_millis sd_memory_mib sd_ephemeral_storage_mib sd_eligible_plan_count].
  rewrite bool_decide_true by done. rewrite Hclass. cbn [negb reject_if mbind result_bind for_each fst snd].
  rewrite (proj2 (out_of_range_false (sc_max_input_bytes c))) by done.
  rewrite (proj2 (Z.ltb_ge (rp_cpu_millis _) 1)) by lia. rewrite (proj2 (Z.ltb_ge (rp_memory_mib _) 1)) by lia.
  assert (forall A (x : A) (k : result A), (_ ← when_some (rp_ephemeral_storage_mib (et_resources (ep_execution_template p))) (fun v =>
            reject_if (v <? 1) OrchestrationContractError "size-class ephemeral storage must be a positive integer"); k) = k) as Hst.
  { intros A x k. destruct (rp_ephemeral_storage_mib _); [|done]. cbn [when_some] in Hstore |- *. apply reject_if_tt in Hstore.
    by rewrite Hstore. }
  destruct evidence as [x|]; cbn [fmap option_fmap option_map when_some is_none Bool.eqb negb reject_if mbind result_bind].
  - destruct (Hev m x c eq_refl eq_refl eq_refl) as [(Hb & Hsrc & Hutc) Hfit].
    rewrite (proj2 (out_of_range_false (ev_bytes x))) by done. rewrite Hsrc. unfold require_utc, contract_reject. rewrite Hutc.
    cbn [negb reject_if mbind result_bind]. rewrite (proj2 (Z.ltb_ge (sc_max_input_bytes c) _)) by lia.
    cbn [reject_if mbind result_bind]. rewrite (Hst unit tt).
    rewrite (proj2 (Z.leb_le 1 _)), (proj2 (Z.leb_le _ 100)) by lia. done.
  - cbn [reject_if mbind result_bind]. rewrite (Hst unit tt).
    rewrite (proj2 (Z.leb_le 1 _)), (proj2 (Z.leb_le _ 100)) by lia. done.
Qed.

Lemma select_environment_ok l e :
  match select_environment l e with
  | Ok p => p ∈ l /\ ep_environment p = e
  | Raise x => control_error x
  end.
Proof.
  unfold select_environment. destruct (filter _ l) as [|p [|q k]] eqn:E; try done.
  assert (p ∈ filter (fun plan => ep_environment plan = e) l) as Hp by (rewrite E; left).
  by apply list_elem_of_filter in Hp as [? ?].
Qed.

(** The environments and the mode a request is looked up under are those it is
    placed with. *)
Definition looked_up (environment : option string) (p : ExecutionPlan) (d : PlacementDecision) : Prop :=
  exists envs, idempotency_lookup rs record environment = Ok (envs, pd_mode d) /\ ep_environment p ∈ envs.

Lemma place_ok environment l :
  (forall p, p ∈ l -> p ∈ plans (rs_plans rs) /\ ep_project p = gr_project record /\ ep_graph p = gr_graph record) ->
  (length l <= 100)%nat ->
  match place rs environment l with
  | Ok (p, d) => p ∈ l /\ pd_selected_environment d = ep_environment p /\ looked_up environment p d /\
                 (forall e, environment = Some e -> ep_environment p = e)
  | Raise x => control_error x
  end.
Proof.
  intros Hl Hlen. unfold place, looked_up, idempotency_lookup. destruct environment as [e|].
  - pose proof (select_environment_ok l e) as Hs. destruct (select_environment l e) as [p|x]; cbn [mbind result_bind]; [|done].
    destruct Hs as [Hp <-]. destruct (exact_decision_ok p MANUAL_OVERRIDE) as (d & -> & Hm & He); [by apply Hl|done|].
    cbn [mbind result_bind]. split_and!; [done..| |by intros e [= <-]]. exists [ep_environment p]. rewrite Hm. split; [done|by left].
  - destruct (bool_decide (rs_environment rs = "auto")) eqn:E.
    + apply bool_decide_eq_true in E. pose proof (automatic_ok l (fun p Hp => proj1 (Hl p Hp)) Hlen E) as Ha.
      destruct (automatically_select rs l) as [[p d]|x]; [|done]. destruct Ha as (Hp & Hm & He). split_and!; [done..| |done].
      cbn [negb]. assert (ep_environment p ∈ sorted_set (ep_environment <$> registered (rs_plans rs) record)) as Hin.
      { unfold sorted_set. rewrite py_sorted_perm, elem_of_remove_dups. apply list_elem_of_fmap_2. unfold registered.
        destruct (Hl p Hp) as (H1 & H2 & H3). rewrite list_elem_of_filter, andb_true_iff, !bool_decide_eq_true. done. }
      destruct (sorted_set _) as [|e envs]; [by apply not_elem_of_nil in Hin|]. exists (e :: envs). by rewrite Hm.
    + pose proof (select_environment_ok l (rs_environment rs)) as Hs.
      destruct (select_environment l (rs_environment rs)) as [p|x]; cbn [mbind result_bind]; [|done].
      destruct Hs as [Hp Hpe]. destruct (exact_decision_ok p CONFIGURED_DEFAULT) as (d & -> & Hm & He); [by apply Hl|done|].
      cbn [mbind result_bind]. split_and!; [done..| |done]. exists [rs_environment rs]. rewrite Hm, Hpe. split; [done|by left].
Qed.
End Resolve.

Lemma api_trigger_ok : RunTrigger_post_init api_trigger = Ok tt.
Proof. vm_compute. reflexivity. Qed.

(** C18: resolving an API request gives a valid submission of a registered plan
    that is current for the graph, in the requested environment, which the
    lifecycle accepts for exactly that plan; its environment and placement mode
    are those under which a repetition of the request looks the run up first;
    and the only errors are control errors, an estimator's own error, and the
    contract error for a malformed size class or estimate. *)
Theorem resolve_sound rs record key requested_at environment size_class bytes
    (Hrs : resolver_ok rs) (Hkey : idempotency_key key = true) (Hutc : is_utc requested_at = true) :
  match resolve rs record key requested_at environment size_class bytes with
  | Ok s =>
      RunSubmission_post_init s = Ok tt /\ sb_graph s = record /\ sb_idempotency_key s = key /\
      (exists plan, for_submission (rs_plans rs) s = Ok plan /\ plan ∈ plans (rs_plans rs) /\ is_current record plan = true /\
         forall e, environment = Some e -> ep_environment plan = e) /\
      exists envs d, idempotency_lookup rs record environment = Ok (envs, pd_mode d) /\ sb_environment s ∈ envs /\
         sb_placement_decision s = Some d
  | Raise x =>
      control_error x \/ (exists e f, (e, f) ∈ rs_input_size_estimators rs /\ f record = Raise x) \/
      catches OrchestrationContractError x = true /\
        ((exists c, size_class = Some c /\ portable_id c = false) \/ (exists n, bytes = Some n /\ out_of_range n = true))
  end.
Proof.
  unfold resolve.
  pose proof (selection_ok rs Hrs record size_class bytes requested_at (default (rs_environment rs) environment) Hutc) as Hsel.
  destruct (select_size_candidates _ _ _ _ _ _) as [acc|x]; cbn [mbind result_bind]; [|exact Hsel].
  destruct Hsel as (current & envs & Hcur & Hok & Hne). pose proof (current_for_graph_ok (rs_plans rs) record) as Hc. rewrite Hcur in Hc.
  destruct Hc as (_ & Hlen & Hin).
  assert (forall p, p ∈ sz_selected acc -> p ∈ current) as Hsub.
  { intros p Hp. by destruct (selected_environment _ _ _ _ _ Hok Hp). }
  assert ((length (sz_selected acc) <= 100)%nat) as Hmax.
  { etrans; [apply submseteq_length, (si_selected _ _ _ _ Hok)|]. etrans; [apply length_filter|]. etrans; [exact Hlen|].
    rewrite plans_length. apply (rg_bound _ (ro_registry _ Hrs)). }
  assert ((1 <= length (sz_selected acc) <= 100)%nat) as Hcount.
  { split; [|done]. destruct (sz_selected acc); [done|cbn; lia]. }
  pose proof (place_ok rs Hrs record environment (sz_selected acc)) as Hp.
  destruct (place rs environment (sz_selected acc)) as [[plan d]|x]; cbn [mbind result_bind];
    (specialize (Hp ltac:(intros p Hp'; apply Hsub, Hin in Hp'; tauto) Hmax)); [|by left].
  destruct Hp as (Hp & Hd & (lookup_envs & Hlook & Hmem) & He).
  destruct (proj1 (Hin plan) (Hsub _ Hp)) as (Hreg & Hproj & Hgraph & Hfresh).
  destruct (size_decision_ok rs Hrs plan (sz_selected acc) (mjoin (sz_modes acc !! ep_environment plan)) (sz_evidence acc !! ep_environment plan)
    Hreg Hcount) as [o Ho].
  { intros m x c Hm Hx Hc. destruct (sz_modes acc !! ep_environment plan) as [[m'|]|] eqn:Em; try done. cbn in Hm.
    destruct (si_fits _ _ _ _ Hok plan m' x Hp Em Hx) as [Hev Hfit]. auto. }
  rewrite Ho. cbn [mbind result_bind]. rewrite api_trigger_ok. cbn [mbind result_bind]. unfold new_submission.
  set (s := {| sb_graph := record |}).
  assert (RunSubmission_post_init s = Ok tt) as Hs.
  { destruct (plan_portable rs Hrs plan Hreg) as (H1 & H2 & H3). rewrite Hproj in H3. subst s.
    unfold RunSubmission_post_init, require_portable, require_sha256, require_utc, contract_reject.
    cbn [sb_environment sb_project sb_plan_id sb_graph sb_plan_revision sb_placement_decision sb_idempotency_key sb_requested_at
         sb_requested_deadline_seconds when_some].
    rewrite H1, H2, H3, Hkey, Hutc, Hd. rewrite !bool_decide_true by done.
    assert (is_sha256 (revision plan) = true) as -> by apply sha256_hex_is_sha256. done. }
  rewrite Hs. cbn [mbind result_bind]. subst s. cbn [sb_graph sb_idempotency_key sb_environment sb_placement_decision].
  split_and!; [done..| |by exists lookup_envs, d].
  exists plan. unfold for_submission, require_revision. cbn [sb_plan_revision].
  rewrite (plans_registered _ _ (ro_registry _ Hrs) Hreg). cbn [mbind result_bind].
  split_and!; [|done..]. unfold validate_submission_plan. cbn [sb_trigger api_trigger tg_repair_window is_some andb].
  unfold is_current in Hfresh. apply andb_true_iff in Hfresh as [F1 F2]. apply bool_decide_eq_true in F1, F2.
  unfold submission_selection, plan_selection. cbn. rewrite <- Hproj, <- Hgraph, <- F1, <- F2. by rewrite bool_decide_true.
Qed.

(** ** A resolver over two environments *)

Definition staging_plan : ExecutionPlan :=
  {| ep_plan_id := "nightly"; ep_environment := "staging"; ep_project := "shop"; ep_graph := "orders";
     ep_graph_revision := "1"; ep_graph_content_sha256 := zero_sha256; ep_backend_id := "cloud_run";
     ep_profile_id := "small"; ep_image := et_image sample_template; ep_execution_template := sample_template;
     ep_deadline_seconds := 600; ep_retry_policy := {| rt_max_attempts := 2; rt_retryable_exit_codes := [75] |};
     ep_physical_plan := None; ep_schema := ORCHESTRATION_SCHEMA |}.

Definition two_plans : list ExecutionPlan := [sample_plan; staging_plan].

Definition no_registry : ExecutionPlanRegistry := {| by_revision := ∅; by_route := ∅ |}.
Definition registry_or_none (r : result ExecutionPlanRegistry) : ExecutionPlanRegistry :=
  match r with Ok reg => reg | Raise _ => no_registry end.
Definition two_registry : ExecutionPlanRegistry := registry_or_none (new_registry two_plans).

Definition auto_resolver : PlanRunSubmissionResolver :=
  {| rs_plans := two_registry; rs_environment := "auto";
     rs_placement_candidates :=
       [{| pc_plan_revision := revision sample_plan; pc_locality := "eu"; pc_estimated_cost_microusd := 10 |};
        {| pc_plan_revision := revision staging_plan; pc_locality := "us"; pc_estimated_cost_microusd := 5 |}];
     rs_preferred_locality := Some "eu"; rs_max_cost_microusd := Some 100;
     rs_size_class_candidates :=
       [{| sc_plan_revision := revision sample_plan; sc_size_class := "small"; sc_max_input_bytes := 1000 |}];
     rs_default_size_class := None; rs_input_size_estimators := [] |}.

Example two_registry_built : is_ok (new_registry two_plans) = true.
Proof. vm_compute. reflexivity. Qed.

Lemma two_registry_ok : registry_ok two_registry /\ forall p, p ∈ plans two_registry <-> p ∈ two_plans.
Proof.
  pose proof two_registry_built as H. unfold two_registry. destruct (new_registry two_plans) as [reg|e] eqn:E; [|discriminate H].
  by apply new_registry_ok.
Qed.

Lemma two_plans_in p : p ∈ two_plans -> p = sample_plan \/ p = staging_plan.
Proof. unfold two_plans. rewrite !elem_of_cons. intros [Hp|[Hp|Hp]]; auto. by apply not_elem_of_nil in Hp. Qed.

Lemma auto_resolver_ok : resolver_ok auto_resolver.
Proof.
  destruct two_registry_ok as [Hreg Hin]. split.
  - exact Hreg.
  - intros p Hp. destruct (two_plans_in p (proj1 (Hin p) Hp)) as [->| ->]; split; vm_compute; reflexivity.
  - vm_compute. reflexivity.
  - intros c Hc. cbn [auto_resolver rs_placement_candidates] in Hc. rewrite !elem_of_cons in Hc.
    destruct Hc as [->|[->|Hc]]; [vm_compute; reflexivity..|by apply not_elem_of_nil in Hc].
  - intros c Hc. cbn [auto_resolver rs_size_class_candidates] in Hc. rewrite !elem_of_cons in Hc.
    destruct Hc as [->|Hc]; [vm_compute; reflexivity|by apply not_elem_of_nil in Hc].
  - intros e f r v He. by apply not_elem_of_nil in He.
Qed.

Definition submission_valid (r : result RunSubmission) : Prop :=
  match r with Ok s => RunSubmission_post_init s = Ok tt | Raise _ => True end.

Lemma resolve_sound_witness :
  idempotency_key "key-00000001" = true /\
  submission_valid (resolve auto_resolver sample_record "key-00000001" (utc 0) None None (Some 500)).
Proof.
  assert (idempotency_key "key-00000001" = true) as Hk by (vm_compute; reflexivity). split; [exact Hk|].
  pose proof (resolve_sound auto_resolver sample_record "key-00000001" (utc 0) None None (Some 500) auto_resolver_ok Hk eq_refl) as H.
  destruct (resolve _ _ _ _ _ _ _) as [s|x]; [exact (proj1 H)|exact I].
Defined.

Lemma two_plans_consistent : consistent two_plans.
Proof.
  assert (bool_decide (revision sample_plan = revision staging_plan) = false) as Hne by (vm_compute; reflexivity).
  apply bool_decide_eq_false in Hne. intros p q Hp Hq E.
  destruct (two_plans_in p Hp) as [->| ->], (two_plans_in q Hq) as [->| ->]; [reflexivity|..|reflexivity].
  - destruct (Hne E).
  - destruct (Hne (eq_sym E)).
Qed.

Lemma automatic_placement_optimal_witness :
  automatically_select auto_resolver [staging_plan; sample_plan] = automatically_select auto_resolver two_plans /\
  forall plan d, automatically_select auto_resolver two_plans = Ok (plan, d) ->
    exists c, candidates_by_revision auto_resolver !! revision plan = Some c /\ pc_estimated_cost_microusd c <= 100 /\
      pd_estimated_cost_microusd d = Some (pc_estimated_cost_microusd c).
Proof.
  destruct (automatic_placement_optimal auto_resolver "eu" 100 two_plans [staging_plan; sample_plan] eq_refl eq_refl
    two_plans_consistent ltac:(apply Permutation_swap)) as (H1 & H2 & _).
  split; [exact H1|]. intros plan d H. destruct (H2 plan d H) as (_ & c & Hc & Hm & -> & _).
  exists c. split; [exact Hc|]. split; [exact Hm|reflexivity].
Defined.
