(* ===== verification/RunStatus.v ===== *)
(** * Run status and mutation results ([control/models.py] and the response
    helpers of [control/run_lifecycle.py])

    What the Control API answers about a run.  The response models check their
    fields when they are built; a well-formed run always passes the checks. *)

From S2P Require Import Prelude Regex PyStr Sha256 PyTime Json JsonRead Identifiers Projection PhysicalPlan Graph Orchestration RunCodec RunTransition.

Local Open Scope string_scope.
Local Open Scope Z_scope.
Local Open Scope list_scope.

(** ** The response models *)

Inductive RunState : Type := RS_QUEUED | RS_RUNNING | RS_SUCCEEDED | RS_FAILED | RS_CANCELING | RS_CANCELED | RS_RETRYING.
#[export] Instance RunState_eq_dec : EqDecision RunState.
Proof. solve_decision. Defined.

Definition run_state_text (s : RunState) : string :=
  match s with
  | RS_QUEUED => "queued" | RS_RUNNING => "running" | RS_SUCCEEDED => "succeeded" | RS_FAILED => "failed"
  | RS_CANCELING => "canceling" | RS_CANCELED => "canceled" | RS_RETRYING => "retrying"
  end.

Record RunTelemetrySummary : Type := {
  tl_duration_ms : Z; tl_operation_count : Z; tl_retry_count : Z; tl_rows_read : Z; tl_rows_written : Z;
  tl_rows_affected : Z; tl_bytes_read : Z; tl_bytes_written : Z; tl_bytes_processed : Z; tl_bytes_billed : Z;
  tl_queue_duration_ms : Z; tl_execution_duration_ms : Z; tl_spill_bytes : Z;
}.
Record RunPlacementDecision : Type := {
  rp_decision_schema : string; rp_mode : string; rp_selected_environment : string; rp_selected_locality : option string;
  rp_estimated_cost_microusd : option Z; rp_preferred_locality : option string; rp_max_cost_microusd : option Z;
  rp_eligible_plan_count : Z;
}.
Record RunSizeClassDecision : Type := {
  rz_decision_schema : string; rz_mode : string; rz_selected_size_class : string; rz_estimated_input_bytes : option Z;
  rz_estimate_source : option string; rz_estimate_observed_at : option string; rz_max_input_bytes : Z;
  rz_cpu_millis : Z; rz_memory_mib : Z; rz_ephemeral_storage_mib : option Z; rz_eligible_plan_count : Z;
}.
Record RunStatusResponse : Type := {
  sr_run_id : string; sr_state : RunState; sr_stage : option string; sr_started_at : option string;
  sr_finished_at : option string; sr_endpoints : Z; sr_extracted : Z; sr_affected : Z; sr_models : Z;
  sr_assertions : Z; sr_assets : Z; sr_result_schema : option string; sr_skipped : bool;
  sr_telemetry : option RunTelemetrySummary; sr_placement : option RunPlacementDecision;
  sr_sizing : option RunSizeClassDecision; sr_failure_code : option string; sr_failure_summary : option string;
  sr_can_cancel : bool; sr_can_replay : bool; sr_logs_available : bool; sr_repair_window : option GraphRepairWindow;
}.

(** A field constraint of a model; the error is Pydantic's, a [ValueError]. *)
Definition constraint (b : bool) : result unit := reject_if (negb b) ValueError "validation error".
Definition at_least (n v : Z) : result unit := constraint (n <=? v).
Definition bounded (v : Z) : result unit := constraint ((0 <=? v) && (v <=? MAX_RESULT_INTEGER)).

Definition telemetry_fields (t : RunTelemetrySummary) : list Z :=
  [tl_duration_ms t; tl_operation_count t; tl_retry_count t; tl_rows_read t; tl_rows_written t; tl_rows_affected t;
   tl_bytes_read t; tl_bytes_written t; tl_bytes_processed t; tl_bytes_billed t; tl_queue_duration_ms t;
   tl_execution_duration_ms t; tl_spill_bytes t].
Definition new_telemetry (t : RunTelemetrySummary) : result RunTelemetrySummary :=
  _ ← for_each bounded (telemetry_fields t); Ok t.

Definition new_run_placement (p : RunPlacementDecision) : result RunPlacementDecision :=
  _ ← constraint (bool_decide (rp_decision_schema p = "io.dander.control.placement-decision/v1"));
  _ ← constraint (bool_decide (rp_mode p ∈ ["automatic"; "manual_override"; "configured_default"; "scheduled"; "replay"]));
  _ ← when_some (rp_estimated_cost_microusd p) bounded;
  _ ← when_some (rp_max_cost_microusd p) bounded;
  _ ← constraint ((1 <=? rp_eligible_plan_count p) && (rp_eligible_plan_count p <=? 100));
  Ok p.

Definition new_run_sizing (z : RunSizeClassDecision) : result RunSizeClassDecision :=
  _ ← constraint (bool_decide (rz_decision_schema z = "io.dander.control.size-class-decision/v2"));
  _ ← constraint (bool_decide (rz_mode z ∈ ["automatic_input"; "manual_override"; "configured_default"; "scheduled"; "replay"]));
  _ ← when_some (rz_estimated_input_bytes z) bounded;
  _ ← bounded (rz_max_input_bytes z);
  _ ← at_least 1 (rz_cpu_millis z);
  _ ← at_least 1 (rz_memory_mib z);
  _ ← when_some (rz_ephemeral_storage_mib z) (at_least 1);
  _ ← constraint ((1 <=? rz_eligible_plan_count z) && (rz_eligible_plan_count z <=? 100));
  Ok z.

Definition new_status (s : RunStatusResponse) : result RunStatusResponse :=
  _ ← for_each (at_least 0) [sr_endpoints s; sr_extracted s; sr_affected s; sr_models s; sr_assertions s; sr_assets s];
  _ ← when_some (sr_result_schema s) (fun schema =>
        constraint (bool_decide (schema = "io.dander.control.execution-result-summary/v1")));
  Ok s.

(** ** The response of a run *)

Definition run_state (r : RunRecord) : result RunState :=
  match rr_run_state r with
  | QUEUED => Ok RS_QUEUED
  | RUNNING => Ok RS_RUNNING
  | RETRYING => Ok RS_RETRYING
  | CANCELING => Ok RS_CANCELING
  | TERMINAL =>
      match rr_outcome r with
      | SUCCEEDED => Ok RS_SUCCEEDED
      | FAILED => Ok RS_FAILED
      | CANCELED => Ok RS_CANCELED
      | UNKNOWN => raise_ OrchestrationContractError "a terminal run does not have a known outcome"
      end
  end.

Definition telemetry_of (s : ExecutionResultSummary) : RunTelemetrySummary :=
  {| tl_duration_ms := rs_duration_ms s; tl_operation_count := rs_operation_count s; tl_retry_count := rs_retry_count s;
     tl_rows_read := rs_rows_read s; tl_rows_written := rs_rows_written s; tl_rows_affected := rs_rows_affected s;
     tl_bytes_read := rs_bytes_read s; tl_bytes_written := rs_bytes_written s; tl_bytes_processed := rs_bytes_processed s;
     tl_bytes_billed := rs_bytes_billed s; tl_queue_duration_ms := rs_queue_duration_ms s;
     tl_execution_duration_ms := rs_execution_duration_ms s; tl_spill_bytes := rs_spill_bytes s |}.

Definition placement_of (d : PlacementDecision) : RunPlacementDecision :=
  {| rp_decision_schema := pd_schema d; rp_mode := placement_mode_value (pd_mode d);
     rp_selected_environment := pd_selected_environment d; rp_selected_locality := pd_selected_locality d;
     rp_estimated_cost_microusd := pd_estimated_cost_microusd d; rp_preferred_locality := pd_preferred_locality d;
     rp_max_cost_microusd := pd_max_cost_microusd d; rp_eligible_plan_count := pd_eligible_plan_count d |}.

Definition sizing_of (d : SizeClassDecision) : RunSizeClassDecision :=
  {| rz_decision_schema := sd_schema d; rz_mode := size_class_mode_value (sd_mode d);
     rz_selected_size_class := sd_selected_size_class d; rz_estimated_input_bytes := sd_estimated_input_bytes d;
     rz_estimate_source := sd_estimate_source d; rz_estimate_observed_at := utc_timestamp <$> sd_estimate_observed_at d;
     rz_max_input_bytes := sd_max_input_bytes d; rz_cpu_millis := sd_cpu_millis d; rz_memory_mib := sd_memory_mib d;
     rz_ephemeral_storage_mib := sd_ephemeral_storage_mib d; rz_eligible_plan_count := sd_eligible_plan_count d |}.

Definition built {A B} (o : option A) (build : A -> result B) : result (option B) :=
  match o with Some a => b ← build a; Ok (Some b) | None => Ok None end.

Definition status_response (r : RunRecord) : result RunStatusResponse :=
  state ← run_state r;
  let failed := bool_decide (rr_outcome r = FAILED) in
  let summary := rr_result_summary r in
  let count (f : ExecutionResultSummary -> Z) := from_option f 0 summary in
  telemetry ← built summary (fun s => new_telemetry (telemetry_of s));
  placement ← built (rr_placement_decision r) (fun d => new_run_placement (placement_of d));
  sizing ← built (rr_size_class_decision r) (fun d => new_run_sizing (sizing_of d));
  new_status
    {| sr_run_id := rr_run_id r; sr_state := state; sr_stage := rr_stage r;
       sr_started_at := if rr_attempt_count r =? 0 then None else Some (utc_timestamp (rr_created_at r));
       sr_finished_at := utc_timestamp <$> rr_terminal_at r;
       sr_endpoints := count rs_endpoints; sr_extracted := count rs_extracted_rows; sr_affected := count rs_affected_rows;
       sr_models := count rs_models; sr_assertions := count rs_assertions; sr_assets := count rs_assets;
       sr_result_schema := rs_schema <$> summary; sr_skipped := from_option rs_skipped false summary;
       sr_telemetry := telemetry; sr_placement := placement; sr_sizing := sizing;
       sr_failure_code := if failed then Some "hosted_execution_failed" else None;
       sr_failure_summary := if failed then Some "The hosted execution failed." else None;
       sr_can_cancel := bool_decide (rr_run_state r ∈ [QUEUED; RUNNING; RETRYING]);
       sr_can_replay := bool_decide (rr_run_state r = TERMINAL);
       sr_logs_available := is_some (rr_backend_handle r);
       sr_repair_window := tg_repair_window (rr_trigger r) |}.

(** ** Mutation results *)

Record MutationResult : Type := {
  mr_operation : string; mr_accepted : bool; mr_run_id : string; mr_resulting_run_id : option string; mr_state : RunState;
}.
#[export] Instance MutationResult_eq_dec : EqDecision MutationResult.
Proof. solve_decision. Defined.

Definition cancel_result (accepted : bool) (run_id : string) (state : RunState) : MutationResult :=
  {| mr_operation := "cancel"; mr_accepted := accepted; mr_run_id := run_id; mr_resulting_run_id := None; mr_state := state |}.

Definition planned_cancel_result (r : RunRecord) : result MutationResult :=
  match rr_run_state r with
  | TERMINAL => s ← run_state r; Ok (cancel_result false (rr_run_id r) s)
  | QUEUED => Ok (cancel_result true (rr_run_id r) RS_CANCELED)
  | _ => Ok (cancel_result true (rr_run_id r) RS_CANCELING)
  end.

(** [model_dump(mode="json")] and its bytes. *)
Definition mutation_result_json (m : MutationResult) : json :=
  JObj [("operation", JStr (mr_operation m)); ("accepted", JBool (mr_accepted m)); ("run_id", JStr (mr_run_id m));
        ("resulting_run_id", jopt JStr (mr_resulting_run_id m)); ("state", JStr (run_state_text (mr_state m)))].
Definition mutation_result_bytes (m : MutationResult) : list Z := encode (dumps_ascii (mutation_result_json m)).

(** ** Log levels *)

Inductive LogLevel : Type := DEBUG | INFO | WARNING | ERROR.
#[export] Instance LogLevel_eq_dec : EqDecision LogLevel.
Proof. solve_decision. Defined.
Definition log_level_value (l : LogLevel) : string :=
  match l with DEBUG => "debug" | INFO => "info" | WARNING => "warning" | ERROR => "error" end.

Definition log_level (value : option string) : LogLevel :=
  match value with
  | None => INFO
  | Some v =>
      match list_find (fun l => log_level_value l = casefold v) [DEBUG; INFO; WARNING; ERROR] with
      | Some (_, l) => l
      | None => default INFO (assoc (casefold v) [("warn", WARNING); ("fatal", ERROR)])
      end
  end.

(** ** A well-formed run has a response *)

Lemma bounded_ok v : out_of_range v = false -> bounded v = Ok tt.
Proof.
  rewrite out_of_range_false. intros [H1 H2]. unfold bounded, constraint.
  rewrite (proj2 (Z.leb_le 0 v)), (proj2 (Z.leb_le v _)) by done. done.
Qed.

Lemma summary_in_range s f :
  ExecutionResultSummary_post_init s = Ok tt -> f ∈ map snd (summary_counts s) -> out_of_range f = false.
Proof.
  unfold ExecutionResultSummary_post_init, contract_reject. intros H Hf. apply seq_ok in H as [_ H]. apply for_each_ok in H.
  apply list_elem_of_fmap in Hf as ([l v] & -> & Hf). rewrite Forall_forall in H. specialize (H _ Hf). by apply reject_if_tt in H.
Qed.

Lemma telemetry_built s : ExecutionResultSummary_post_init s = Ok tt -> new_telemetry (telemetry_of s) = Ok (telemetry_of s).
Proof.
  intros H. unfold new_telemetry. eapply bind_get; [|reflexivity]. apply (proj2 (for_each_ok _ _ tt)).
  apply Forall_forall. intros v Hv. apply bounded_ok, (summary_in_range s v H).
  unfold telemetry_fields, telemetry_of in Hv. cbn [tl_duration_ms tl_operation_count tl_retry_count tl_rows_read tl_rows_written
    tl_rows_affected tl_bytes_read tl_bytes_written tl_bytes_processed tl_bytes_billed tl_queue_duration_ms
    tl_execution_duration_ms tl_spill_bytes] in Hv. unfold summary_counts. cbn [map snd].
  rewrite !elem_of_cons, elem_of_nil in Hv. rewrite !elem_of_cons. tauto.
Qed.

Lemma placement_built d : PlacementDecision_post_init d = Ok tt -> new_run_placement (placement_of d) = Ok (placement_of d).
Proof.
  unfold PlacementDecision_post_init, contract_reject. intros H. apply seq_ok in H as [H1 H].
  do 3 apply seq_ok in H as [_ H]. apply seq_ok in H as [Hc H]. apply seq_ok in H as [_ H]. apply seq_ok in H as [Hn _].
  apply reject_if_tt, negb_bool_decide_false in H1. apply reject_if_tt in Hn. apply for_each_ok in Hc.
  apply Forall_cons in Hc as [Hc1 Hc]. apply Forall_cons in Hc as [Hc2 _]. cbn [fst snd] in Hc1, Hc2.
  unfold new_run_placement, placement_of. cbn [rp_decision_schema rp_mode rp_estimated_cost_microusd rp_max_cost_microusd rp_eligible_plan_count].
  rewrite H1. eapply bind_get; [reflexivity|cbv beta].
  eapply bind_get; [by destruct (pd_mode d)|cbv beta].
  eapply bind_get; [|cbv beta].
  { destruct (pd_estimated_cost_microusd d); [|done]. cbn [when_some] in *. apply reject_if_tt in Hc1. by apply bounded_ok. }
  eapply bind_get; [|cbv beta].
  { destruct (pd_max_cost_microusd d); [|done]. cbn [when_some] in *. apply reject_if_tt in Hc2. by apply bounded_ok. }
  eapply bind_get; [exact (proj2 (reject_if_tt _ _ _) Hn)|done].
Qed.

Lemma sizing_built d : SizeClassDecision_post_init d = Ok tt -> new_run_sizing (sizing_of d) = Ok (sizing_of d).
Proof.
  unfold SizeClassDecision_post_init, contract_reject. intros H. apply seq_ok in H as [H1 H]. apply seq_ok in H as [_ H].
  apply seq_ok in H as [He H]. do 2 apply seq_ok in H as [_ H]. apply seq_ok in H as [Hm H]. apply seq_ok in H as [_ H].
  apply seq_ok in H as [Hp H]. apply seq_ok in H as [Hs Hn].
  apply reject_if_tt, negb_bool_decide_false in H1. apply reject_if_tt in Hm, Hn. apply for_each_ok in Hp.
  apply Forall_cons in Hp as [Hp1 Hp]. apply Forall_cons in Hp as [Hp2 _]. cbn [fst snd] in Hp1, Hp2.
  apply reject_if_tt, Z.ltb_ge in Hp1, Hp2.
  unfold new_run_sizing, sizing_of, at_least. cbn [rz_decision_schema rz_mode rz_estimated_input_bytes rz_max_input_bytes
    rz_cpu_millis rz_memory_mib rz_ephemeral_storage_mib rz_eligible_plan_count].
  rewrite H1. eapply bind_get; [reflexivity|cbv beta].
  eapply bind_get; [by destruct (sd_mode d)|cbv beta].
  eapply bind_get; [|cbv beta].
  { destruct (sd_estimated_input_bytes d); [|done]. cbn [when_some] in *. apply reject_if_tt in He. by apply bounded_ok. }
  eapply bind_get; [by apply bounded_ok|cbv beta].
  eapply bind_get; [by rewrite (proj2 (Z.leb_le 1 (sd_cpu_millis d)))|cbv beta].
  eapply bind_get; [by rewrite (proj2 (Z.leb_le 1 (sd_memory_mib d)))|cbv beta].
  eapply bind_get; [|cbv beta].
  { destruct (sd_ephemeral_storage_mib d); [|done]. cbn [when_some] in *. apply reject_if_tt, Z.ltb_ge in Hs.
    by rewrite (proj2 (Z.leb_le 1 _)). }
  eapply bind_get; [exact (proj2 (reject_if_tt _ _ _) Hn)|done].
Qed.

Lemma built_ok {A B} (o : option A) (build : A -> result B) (f : A -> B) :
  (forall a, o = Some a -> build a = Ok (f a)) -> built o build = Ok (f <$> o).
Proof. destruct o as [a|]; [|done]. intros H. cbn. by rewrite H. Qed.

Lemma run_state_unknown r :
  match run_state r with
  | Ok _ => rr_run_state r = TERMINAL -> rr_outcome r <> UNKNOWN
  | Raise e => rr_run_state r = TERMINAL /\ rr_outcome r = UNKNOWN /\
               e = Exn OrchestrationContractError "a terminal run does not have a known outcome" []
  end.
Proof. unfold run_state. by destruct (rr_run_state r), (rr_outcome r). Qed.

Lemma new_status_ok s summary :
  (forall x, summary = Some x -> ExecutionResultSummary_post_init x = Ok tt) ->
  let count (f : ExecutionResultSummary -> Z) := from_option f 0 summary in
  sr_endpoints s = count rs_endpoints -> sr_extracted s = count rs_extracted_rows -> sr_affected s = count rs_affected_rows ->
  sr_models s = count rs_models -> sr_assertions s = count rs_assertions -> sr_assets s = count rs_assets ->
  sr_result_schema s = rs_schema <$> summary -> new_status s = Ok s.
Proof.
  intros Hs count E1 E2 E3 E4 E5 E6 E7. unfold new_status, count in *. rewrite E1, E2, E3, E4, E5, E6, E7. clear E1 E2 E3 E4 E5 E6 E7.
  destruct summary as [x|]; [|done]. cbn [from_option fmap option_fmap option_map when_some].
  assert (forall v, v ∈ map snd (summary_counts x) -> at_least 0 v = Ok tt) as Hv.
  { intros v Hv. pose proof (summary_in_range x v (Hs x eq_refl) Hv) as H. apply out_of_range_false in H. unfold at_least, constraint.
    by rewrite (proj2 (Z.leb_le 0 v)) by lia. }
  unfold summary_counts in Hv. cbn [map snd] in Hv.
  eapply bind_get; [|cbv beta].
  { apply (proj2 (for_each_ok _ _ tt)). repeat constructor; apply Hv; rewrite !elem_of_cons; tauto. }
  specialize (Hs x eq_refl). unfold ExecutionResultSummary_post_init, contract_reject in Hs. apply seq_ok in Hs as [Hs _].
  apply reject_if_tt, negb_bool_decide_false in Hs. by rewrite Hs.
Qed.

(** Every well-formed run has a status response that passes the checks of
    the response models, except a terminal run whose outcome is unknown, which
    raises a contract error; the response names the run, offers cancellation
    exactly before cancellation or termination and replay exactly after
    termination, reports a failure exactly when the outcome is failed, and an end
    exactly when the run is terminal. *)
Theorem status_response_total r (Hr : run_value r) :
  match status_response r with
  | Ok s =>
      sr_run_id s = rr_run_id r /\
      (sr_can_replay s = true <-> rr_run_state r = TERMINAL) /\
      (sr_can_cancel s = true <-> rr_run_state r <> TERMINAL /\ rr_run_state r <> CANCELING) /\
      (sr_failure_code s <> None <-> sr_state s = RS_FAILED) /\
      (sr_finished_at s <> None <-> rr_run_state r = TERMINAL) /\
      (sr_telemetry s <> None -> sr_state s = RS_SUCCEEDED)
  | Raise e =>
      rr_run_state r = TERMINAL /\ rr_outcome r = UNKNOWN /\
      e = Exn OrchestrationContractError "a terminal run does not have a known outcome" []
  end.
Proof.
  pose proof (run_state_unknown r) as Hu. unfold status_response. destruct (run_state r) as [state|e] eqn:Estate; [|exact Hu].
  cbn [mbind result_bind].
  rewrite (built_ok _ _ telemetry_of) by (intros s Hs; by apply telemetry_built, (rv_summary _ Hr)).
  rewrite (built_ok _ _ placement_of) by (intros d Hd; by apply placement_built, (rv_placement _ Hr)).
  rewrite (built_ok _ _ sizing_of) by (intros d Hd; by apply sizing_built, (zv_post _ (rv_size _ Hr d Hd))).
  cbn [mbind result_bind].
  rewrite (new_status_ok _ (rr_result_summary r)) by (done || apply (rv_summary _ Hr)).
  cbn [sr_run_id sr_can_replay sr_can_cancel sr_failure_code sr_state sr_finished_at sr_telemetry].
  pose proof (post_init_dimensions r (rv_post _ Hr)) as Hd. clear Hr.
  assert (state = RS_FAILED <-> rr_run_state r = TERMINAL /\ rr_outcome r = FAILED) as Hfailed.
  { unfold run_state in Estate. destruct (rr_run_state r), (rr_outcome r); try discriminate Estate; injection Estate as <-;
      split; intros H; try discriminate H; try (by destruct H); done. }
  split_and!.
  - done.
  - by rewrite bool_decide_eq_true.
  - rewrite bool_decide_eq_true, !elem_of_cons, elem_of_nil. destruct (rr_run_state r); naive_solver.
  - rewrite Hfailed. case_bool_decide as E; split; try done; [|by intros [_ ?]].
    intros _. split; [|done]. destruct (decide (rr_run_state r = TERMINAL)) as [|Hn]; [done|].
    destruct (dm_pending _ Hd Hn) as [E' _]. congruence.
  - rewrite (dm_terminal _ Hd). by destruct (rr_terminal_at r).
  - intros Hs. destruct (dm_summary _ Hd) as (Ht & Ho & _); [by destruct (rr_result_summary r)|].
    unfold run_state in Estate. rewrite Ht, Ho in Estate. by injection Estate as <-.
Qed.

Lemma status_response_total_witness :
  exists s, status_response (queued_record sample_submission) = Ok s /\ sr_run_id s = rr_run_id (queued_record sample_submission).
Proof.
  pose proof (status_response_total (queued_record sample_submission) sample_value) as H.
  destruct (status_response (queued_record sample_submission)) as [s|e] eqn:E.
  - exists s. split; [reflexivity|exact (proj1 H)].
  - exfalso. apply (f_equal is_ok) in E. vm_compute in E. discriminate E.
Defined.
