(* ===== verification/Lifecycle.v ===== *)
(** * The run lifecycle ([control/run_lifecycle.py], [ControlRunLifecycle])

    Starting, listing, reading, canceling, replaying and reconciling runs, over
    the interfaces of [Contract].  Flags that another thread may set at any time
    are read from the world; the locks only order the calls of one process. *)

From S2P Require Import Prelude Regex PyStr Sha256 PyTime Json JsonRead Identifiers Projection PhysicalPlan Graph Orchestration RunCodec RunTransition Contract Dispatch Placement RunStatus.

Local Open Scope string_scope.
Local Open Scope Z_scope.
Local Open Scope list_scope.

(** What [__init__] keeps. *)
Record Lifecycle (W : Type) : Type := {
  lc_plans : ExecutionPlanRegistry;
  lc_backends : gmap string (ExecutionBackend W);
  lc_graph : string -> string -> M W GraphRecord;           (* graph_store.get *)
  lc_clock : W -> datetime;                                 (* clock() *)
  lc_closed : W -> bool;                                    (* _closed *)
  lc_stop : W -> bool;                                      (* _stop.is_set() *)
  lc_page_size : Z;
  lc_validate_mutation : list Z -> result MutationResult;   (* MutationResult.model_validate_json *)
}.
Arguments lc_plans {W}.
Arguments lc_backends {W}.
Arguments lc_graph {W}.
Arguments lc_clock {W}.
Arguments lc_closed {W}.
Arguments lc_stop {W}.
Arguments lc_page_size {W}.
Arguments lc_validate_mutation {W}.

Definition api_trigger_id : string := "control-api".

Section Lifecycle.
Context {W : Type} {HS : RunStore W} (lc : Lifecycle W).

Definition dependency {A} (m : string) : M W A := raiseM ControlOperationDependencyError m.
Definition conflict {A} (m : string) : M W A := raiseM ControlOperationConflictError m.

(** [except C as error: raise D(m) from error] for a list of clauses. *)
Fixpoint excepts {A} (clauses : list (exn_class * exn_class * string)) (e : exn) : M W A :=
  match clauses with
  | [] => lift (Raise e)
  | (c, d, m) :: clauses => if catches c e then raiseM d m else excepts clauses e
  end.

Definition now : M W datetime := fun w =>
  let t := lc_clock lc w in
  if is_naive t then dependency "The Control clock is invalid." w else (Ok (astimezone_utc t), w).

Definition require_open : M W unit := fun w =>
  if lc_closed lc w then dependency "The run lifecycle is closed." w else (Ok tt, w).

Definition require_backend (backend_id : string) : result (ExecutionBackend W) :=
  match lc_backends lc !! backend_id with
  | None => unavailable "The execution plan selects an unavailable backend."
  | Some b => Ok b
  end.

Definition require_run (run_id : string) : M W StoredRun :=
  stored ← try_except (get run_id)
             (excepts [(RunStoreError, ControlOperationDependencyError, "Durable run state is temporarily unavailable.")]);
  match stored with
  | None => raiseM ControlOperationNotFoundError "The run does not exist."
  | Some st => mret st
  end.

(** ** Starting *)

(** The handler of a lost compare-and-swap: the run another dispatcher advanced. *)
Definition recover_start (submission : RunSubmission) : M W StoredRun :=
  recovered ← get (logical_run_identity submission);
  match recovered with
  | Some st =>
      if bool_decide (rr_submission_sha256 (st_record st) = fingerprint submission) then mret st
      else dependency "The durable run transition could not be reconciled."
  | None => dependency "The durable run transition could not be reconciled."
  end.

Definition start_errors (submission : RunSubmission) (e : exn) : M W StoredRun :=
  if catches RunStoreIdempotencyConflictError e
  then raiseM ControlOperationIdempotencyConflictError "The idempotency key belongs to a different run submission."
  else if catches RunStoreConflictError e then recover_start submission
  else excepts
         [(ExecutionBackendError, ControlOperationDependencyError, "The hosted run could not be durably dispatched.");
          (RunStoreError, ControlOperationDependencyError, "The hosted run could not be durably dispatched.");
          (OrchestrationContractError, ControlOperationConflictError, "The hosted run request conflicts with its execution plan.")] e.

Definition start_ (submission : RunSubmission) : M W RunStatusResponse :=
  plan ← lift (for_submission (lc_plans lc) submission);
  backend ← lift (require_backend (ep_backend_id plan));
  stored ← try_except (t ← now; dispatch_run_attempt backend submission plan t) (start_errors submission);
  lift (status_response (st_record stored)).

Definition start (submission : RunSubmission) : M W RunStatusResponse := _ ← require_open; start_ submission.

(** ** Looking a request up before it is started *)

Fixpoint find_all (environments : list string) (project key_sha256 : string) : M W (list StoredRun) :=
  match environments with
  | [] => mret []
  | e :: environments =>
      stored ← find_idempotency e project key_sha256;
      found ← find_all environments project key_sha256;
      mret (match stored with Some st => st :: found | None => found end)
  end.

(** [same_request]. *)
Definition same_request (record : GraphRecord) (environments : list string) (mode : PlacementMode)
    (repair_window : option GraphRepairWindow) (durable : RunRecord) : bool :=
  let placement_matches :=
    match rr_placement_decision durable with
    | None => bool_decide (mode = CONFIGURED_DEFAULT)
    | Some d => bool_decide (pd_mode d = mode)
    end in
  bool_decide (rr_environment durable ∈ environments)
  && bool_decide (rr_project durable = gr_project record) && bool_decide (rr_graph durable = gr_graph record)
  && bool_decide (rr_graph_revision durable = gr_revision record)
  && bool_decide (rr_graph_content_sha256 durable = gr_content_sha256 record)
  && bool_decide (tg_kind (rr_trigger durable) = API) && bool_decide (tg_trigger_id (rr_trigger durable) = api_trigger_id)
  && bool_decide (tg_repair_window (rr_trigger durable) = repair_window)
  && placement_matches
  && match rr_size_class_decision durable with
     | None => true
     | Some d =>
         bool_decide (sd_mode d = SIZE_CONFIGURED_DEFAULT)
         || (bool_decide (sd_mode d = AUTOMATIC_INPUT) && is_some (sd_estimate_source d)
             && negb (bool_decide (sd_estimate_source d = Some "api_request")))
     end.

Definition lookup_valid (environments : list string) (mode : PlacementMode) (key : string) : bool :=
  negb (bool_decide (environments = []) || (100 <? length environments)%nat
        || negb (bool_decide (sorted_set environments = environments))
        || existsb (fun e => negb (portable_id e)) environments
        || negb (bool_decide (mode ∈ [AUTOMATIC; CONFIGURED_DEFAULT; MANUAL_OVERRIDE]))
        || negb (idempotency_key key)).

Definition find_api_start (record : GraphRecord) (environments : list string) (mode : PlacementMode) (key : string)
    (repair_window : option GraphRepairWindow) : M W (option RunStatusResponse) :=
  _ ← lift (contract_reject (negb (lookup_valid environments mode key)) "run idempotency lookup is invalid");
  found ← try_except (find_all environments (gr_project record) (sha256_hex (encode key)))
            (excepts [(RunStoreError, ControlOperationDependencyError, "Durable run state is temporarily unavailable.")]);
  match found with
  | [] => mret None
  | [st] =>
      _ ← lift (reject_if (negb (same_request record environments mode repair_window (st_record st)))
                  ControlOperationIdempotencyConflictError "The idempotency key belongs to a different run submission.");
      response ← lift (status_response (st_record st));
      mret (Some response)
  | _ => raiseM ControlOperationIdempotencyConflictError "The idempotency key belongs to multiple run submissions."
  end.

(** ** Reading *)

Record RunPageResponse : Type := { rg_items : list RunStatusResponse; rg_next_cursor : option string }.
Definition new_run_page (p : RunPageResponse) : result RunPageResponse :=
  _ ← constraint (length (rg_items p) <=? 100)%nat; Ok p.

Definition list_page (cursor : option string) (limit : Z) : M W RunPageResponse :=
  page ← try_except (list_runs cursor limit)
           (excepts [(RunStoreError, ControlOperationDependencyError, "Durable run state is temporarily unavailable.")]);
  items ← lift (read_all (fun item => status_response (st_record item)) (pg_items page));
  lift (new_run_page {| rg_items := items; rg_next_cursor := pg_next_cursor page |}).

Definition get_status (run_id : string) : M W RunStatusResponse :=
  st ← require_run run_id; lift (status_response (st_record st)).

Record LogRecord : Type := {
  lr_timestamp : string; lr_level : LogLevel; lr_code : string; lr_message : string; lr_correlation_id : string;
}.
Record LogPageResponse : Type := { lg_records : list LogRecord; lg_next_cursor : option string }.

Definition log_record (run_id : string) (item : BackendLogRecord) : LogRecord :=
  {| lr_timestamp := utc_timestamp (bl_occurred_at item); lr_level := log_level (bl_level item); lr_code := "provider_log";
     lr_message := bl_message item; lr_correlation_id := run_id |}.

Definition run_logs (run_id : string) (cursor : option string) (limit : Z) : M W LogPageResponse :=
  stored ← require_run run_id;
  let r := st_record stored in
  match rr_backend_handle r with
  | None => mret {| lg_records := []; lg_next_cursor := None |}
  | Some handle =>
      plan ← lift (for_run (lc_plans lc) r);
      backend ← lift (require_backend (ep_backend_id plan));
      page ← try_except (logs backend plan handle cursor limit)
               (excepts [(ExecutionBackendError, ControlOperationDependencyError, "Hosted run logs are temporarily unavailable.")]);
      mret {| lg_records := log_record (rr_run_id r) <$> lp_records page; lg_next_cursor := lp_next_cursor page |}
  end.

(** ** Canceling *)

Definition validate_cancel_preconditions (r : RunRecord) : result unit :=
  if bool_decide (rr_run_state r ∈ [TERMINAL; QUEUED]) then Ok tt
  else
    _ ← reject_if (is_none (rr_backend_handle r)) ControlOperationConflictError
          "The running execution does not have a provider handle.";
    plan ← for_run (lc_plans lc) r;
    _ ← require_backend (ep_backend_id plan);
    Ok tt.

Definition staged (stage : string) : changes :=
  {| ch_outcome := None; ch_results_state := None; ch_cleanup_state := None; ch_stage := Some stage;
     ch_attempt_count := None; ch_current_attempt_id := None; ch_backend_handle := None; ch_result_summary := None |}.
Definition canceled_changes : changes :=
  {| ch_outcome := Some CANCELED; ch_results_state := Some UNAVAILABLE; ch_cleanup_state := Some CONFIRMED;
     ch_stage := Some "canceled"; ch_attempt_count := None; ch_current_attempt_id := None;
     ch_backend_handle := None; ch_result_summary := None |}.

(** [try: store.save(...) except RunStoreConflictError]. *)
Definition save_canceled (stored : StoredRun) (next : RunRecord) : M W StoredRun :=
  try_except (save stored next)
    (excepts [(RunStoreConflictError, ControlOperationDependencyError, "The cancellation raced with another run transition.")]).

(** The run is marked as canceling unless it already is. *)
Definition mark_canceling (stored : StoredRun) : M W RunRecord :=
  let r := st_record stored in
  if bool_decide (rr_run_state r = CANCELING) then mret r
  else
    t ← now;
    canceling ← lift (transition_run r CANCELING t (staged "canceling"));
    saved ← save_canceled stored canceling;
    mret (st_record saved).

(** The provider is asked to cancel the execution of a canceling run. *)
Definition cancel_provider (run_id : string) (current : RunRecord) : M W MutationResult :=
  plan ← lift (for_run (lc_plans lc) current);
  backend ← lift (require_backend (ep_backend_id plan));
  match rr_backend_handle current with
  | None => raiseM AssertionError ""
  | Some handle =>
      _ ← try_except (cancel_execution backend plan handle)
            (excepts [(ExecutionBackendError, ControlOperationDependencyError,
                       "The provider cancellation could not be confirmed.")]);
      mret (cancel_result true run_id RS_CANCELING)
  end.

Definition cancel_once (run_id : string) : M W MutationResult :=
  stored ← require_run run_id;
  let r := st_record stored in
  match rr_run_state r with
  | TERMINAL => state ← lift (run_state r); mret (cancel_result false run_id state)
  | QUEUED =>
      t ← now;
      canceled ← lift (transition_run r TERMINAL t canceled_changes);
      saved ← save_canceled stored canceled;
      state ← lift (run_state (st_record saved));
      mret (cancel_result true run_id state)
  | _ =>
      if is_none (rr_backend_handle r) then conflict "The running execution does not have a provider handle."
      else current ← mark_canceling stored; cancel_provider run_id current
  end.

Definition cancel_ (run_id key : string) : M W MutationResult :=
  _ ← lift (reject_if (negb (idempotency_key key)) ControlOperationConflictError "The cancellation idempotency key is malformed.");
  stored ← require_run run_id;
  _ ← lift (validate_cancel_preconditions (st_record stored));
  planned ← lift (planned_cancel_result (st_record stored));
  original ← try_except (claim_mutation (sha256_hex (encode key)) "cancel" run_id (mutation_result_bytes planned))
    (excepts [(RunStoreIdempotencyConflictError, ControlOperationIdempotencyConflictError,
               "The idempotency key belongs to a different cancellation.");
              (RunStoreError, ControlOperationDependencyError,
               "The cancellation idempotency claim is temporarily unavailable.")]);
  result ← lift (map_error ValueError ControlOperationDependencyError "The durable cancellation result is invalid."
                   (lc_validate_mutation lc original));
  _ ← lift (reject_if (negb (bool_decide (mr_operation result = "cancel")) || negb (bool_decide (mr_run_id result = run_id)))
              ControlOperationDependencyError "The durable cancellation result is inconsistent.");
  _ ← cancel_once run_id;
  mret result.

Definition cancel (run_id key : string) : M W MutationResult := _ ← require_open; cancel_ run_id key.

(** ** Replaying *)

(** The submission of a replay, before its checks. *)
Definition replay_submission (source : RunRecord) (plan : ExecutionPlan) (graph : GraphRecord) (key : string)
    (requested_at : datetime) : result RunSubmission :=
  let trigger := {| tg_kind := API; tg_trigger_id := api_trigger_id; tg_scheduled_occurrence := None;
                    tg_replay_of_run_id := Some (rr_run_id source);
                    tg_repair_window := tg_repair_window (rr_trigger source) |} in
  _ ← RunTrigger_post_init trigger;
  decision ← new_placement_decision
    {| pd_mode := REPLAY; pd_selected_environment := rr_environment source;
       pd_selected_locality := rr_placement_decision source ≫= pd_selected_locality;
       pd_estimated_cost_microusd := rr_placement_decision source ≫= pd_estimated_cost_microusd;
       pd_preferred_locality := None; pd_max_cost_microusd := None; pd_eligible_plan_count := 1;
       pd_schema := PLACEMENT_DECISION_SCHEMA |};
  sized ← built (rr_size_class_decision source) (fun d => new_size_decision
    {| sd_mode := SIZE_REPLAY; sd_selected_size_class := sd_selected_size_class d;
       sd_estimated_input_bytes := sd_estimated_input_bytes d; sd_max_input_bytes := sd_max_input_bytes d;
       sd_cpu_millis := sd_cpu_millis d; sd_memory_mib := sd_memory_mib d;
       sd_ephemeral_storage_mib := sd_ephemeral_storage_mib d; sd_eligible_plan_count := 1;
       sd_estimate_source := None; sd_estimate_observed_at := None; sd_schema := SIZE_CLASS_DECISION_SCHEMA |});
  new_submission
    {| sb_environment := rr_environment source; sb_project := rr_project source; sb_graph := graph;
       sb_plan_id := ep_plan_id plan; sb_plan_revision := revision plan; sb_trigger := trigger;
       sb_idempotency_key := key; sb_requested_at := requested_at;
       sb_requested_deadline_seconds := rr_requested_deadline_seconds source;
       sb_placement_decision := Some decision; sb_size_class_decision := sized |}.

Definition replay_ (run_id key : string) : M W MutationResult :=
  stored ← require_run run_id;
  let source := st_record stored in
  _ ← lift (reject_if (negb (bool_decide (rr_run_state source = TERMINAL))) ControlOperationConflictError
              "Only a terminal run can be replayed.");
  plan ← lift (for_run (lc_plans lc) source);
  graph ← try_except (lc_graph lc (rr_project source) (rr_graph source))
    (excepts [(GraphStoreNotFoundError, ControlOperationConflictError, "The replayed run's graph is no longer available.");
              (GraphStoreError, ControlOperationDependencyError, "The replayed run's graph is temporarily unavailable.")]);
  _ ← lift (reject_if (negb (bool_decide (gr_revision graph = rr_graph_revision source))
                       || negb (bool_decide (gr_content_sha256 graph = rr_graph_content_sha256 source)))
              ControlOperationConflictError "The replayed run's immutable graph revision is no longer current.");
  submission ← try_except (t ← now; lift (replay_submission source plan graph key t))
    (excepts [(OrchestrationContractError, ControlOperationConflictError, "The replay request is invalid.")]);
  replayed ← start submission;
  mret {| mr_operation := "replay"; mr_accepted := true; mr_run_id := rr_run_id source;
          mr_resulting_run_id := Some (sr_run_id replayed); mr_state := sr_state replayed |}.

Definition replay (run_id key : string) : M W MutationResult := _ ← require_open; replay_ run_id key.

(** ** Reconciling one run *)

Definition observed (o : BackendObservation) : changes :=
  {| ch_outcome := Some (bo_outcome o); ch_results_state := Some (bo_results_state o);
     ch_cleanup_state := Some (bo_cleanup_state o); ch_stage := bo_stage o; ch_attempt_count := None;
     ch_current_attempt_id := None; ch_backend_handle := None; ch_result_summary := bo_result_summary o |}.
Definition observed_stage (o : BackendObservation) : changes :=
  {| ch_outcome := None; ch_results_state := None; ch_cleanup_state := None; ch_stage := bo_stage o;
     ch_attempt_count := None; ch_current_attempt_id := None; ch_backend_handle := None; ch_result_summary := None |}.

(** The snapshot an observation calls for; [None] when there is nothing to save. *)
Definition observed_update (r : RunRecord) (o : BackendObservation) : result (option RunRecord) :=
  let changed (updated : RunRecord) := if bool_decide (updated = r) then None else Some updated in
  if bool_decide (bo_execution_state o = BACKEND_TERMINAL) then
    updated ← transition_run r TERMINAL (bo_observed_at o) (observed o); Ok (changed updated)
  else if bool_decide (rr_run_state r = TERMINAL) then Ok None
  else
    let next := if bool_decide (rr_run_state r = CANCELING) then CANCELING else RUNNING in
    if bool_decide (rr_run_state r = next) && bool_decide (rr_stage r = bo_stage o) then Ok None
    else updated ← transition_run r next (bo_observed_at o) (observed_stage o); Ok (changed updated).

Definition reconcile_stored (stored : StoredRun) : M W StoredRun :=
  let r := st_record stored in
  if negb (run_needs_reconciliation r) then mret stored
  else
    plan ← lift (for_run (lc_plans lc) r);
    backend ← lift (require_backend (ep_backend_id plan));
    if bool_decide (rr_run_state r ∈ [QUEUED; RETRYING])
    then t ← now; dispatch_stored_run_attempt backend stored plan t
    else
      match rr_backend_handle r with
      | None =>
          if bool_decide (rr_run_state r = TERMINAL) then mret stored
          else raiseM OrchestrationContractError "an active durable run has no provider handle"
      | Some handle =>
          _ ← (if bool_decide (rr_run_state r = CANCELING) then cancel_execution backend plan handle else mret tt);
          observation ← observe backend plan handle;
          update ← lift (observed_update r observation);
          match update with
          | None => mret stored
          | Some next => save stored next
          end
      end.

(** ** Reconciling pages *)

(** The fields only the reconciler writes. *)
Record scan : Type := {
  sn_cursor : option string; sn_initial_recovery_complete : bool; sn_scan_failed : bool; sn_last_pass_failed : bool;
}.
Definition initial_scan : scan :=
  {| sn_cursor := None; sn_initial_recovery_complete := false; sn_scan_failed := false; sn_last_pass_failed := false |}.

Definition mark_reconcile_result (s : scan) (failed : bool) (next_cursor : option string) : scan :=
  let scan_failed := sn_scan_failed s || failed in
  match next_cursor with
  | None => {| sn_cursor := None; sn_initial_recovery_complete := true; sn_scan_failed := false; sn_last_pass_failed := scan_failed |}
  | Some c => {| sn_cursor := Some c; sn_initial_recovery_complete := sn_initial_recovery_complete s;
                 sn_scan_failed := scan_failed; sn_last_pass_failed := failed || sn_last_pass_failed s |}
  end.
Definition mark_page_failed (s : scan) : scan :=
  {| sn_cursor := sn_cursor s; sn_initial_recovery_complete := sn_initial_recovery_complete s; sn_scan_failed := true;
     sn_last_pass_failed := true |}.

Definition stopped : M W bool := fun w => (Ok (lc_stop lc w), w).

(** The errors of one run that do not stop the page. *)
Definition contained (e : exn) : bool :=
  existsb (fun c => catches c e)
    [ControlOperationConflictError; ControlOperationDependencyError; ControlOperationUnavailableError;
     ExecutionBackendError; OrchestrationContractError; RunStoreError].

Inductive item_outcome : Type := Processed | Raced | Failed.

Definition reconcile_item (stored : StoredRun) : M W item_outcome :=
  try_except (_ ← reconcile_stored stored; mret Processed)
    (fun e => if catches RunStoreConflictError e then mret Raced else if contained e then mret Failed else lift (Raise e)).

(** [None] for the position when the loop was stopped. *)
Fixpoint reconcile_items (items : list StoredRun) (processed : Z) (failed : bool) : M W (Z * option bool) :=
  match items with
  | [] => mret (processed, Some failed)
  | stored :: items =>
      stop ← stopped;
      if stop : bool then mret (processed, None)
      else
        stop ← stopped;
        if stop : bool then mret (processed, None)
        else
          outcome ← reconcile_item stored;
          match outcome with
          | Processed => reconcile_items items (processed + 1) failed
          | Raced => reconcile_items items processed failed
          | Failed => reconcile_items items processed true
          end
  end.

Definition list_recovery (cursor : option string) (limit : Z) : M W StoredRunPage :=
  match list_pending with Some pending => pending cursor limit | None => list_runs cursor limit end.

Definition reconcile_page (s : scan) : M W (scan * Z * bool) :=
  page ← try_except (p ← list_recovery (sn_cursor s) (lc_page_size lc); mret (Some p))
           (fun e => if catches RunStoreError e then mret None else lift (Raise e));
  match page with
  | None => mret (mark_page_failed s, 0, false)
  | Some page =>
      done ← reconcile_items (pg_items page) 0 false;
      match done with
      | (processed, None) => mret (s, processed, false)
      | (processed, Some failed) =>
          mret (mark_reconcile_result s failed (pg_next_cursor page), processed, is_some (pg_next_cursor page))
      end
  end.

Definition MAX_RECONCILE_PAGES_PER_SWEEP : nat := 100.

Fixpoint reconcile_pages (pages : nat) (s : scan) (processed : Z) : M W (scan * Z) :=
  match pages with
  | O => mret (s, processed)
  | S pages =>
      stop ← stopped;
      if stop : bool then mret (s, processed)
      else
        r ← reconcile_page s;
        let '(s, count, has_more) := r in
        if has_more : bool then reconcile_pages pages s (processed + count) else mret (s, processed + count)
  end.

Definition reconcile_once (s : scan) : M W (scan * Z) := reconcile_pages MAX_RECONCILE_PAGES_PER_SWEEP s 0.
End Lifecycle.
