(* ===== verification/LifecycleSpec.v ===== *)
(** * What the run lifecycle promises

    [ControlRunLifecycle] over any store, backends and graph store that keep
    their contracts: starting, canceling and reconciling runs never damage the
    durable view, answer for the run they were asked about and raise only the
    errors the API maps; the reconciler contains every error of a run. *)

From S2P Require Import Prelude Regex PyStr Sha256 PyTime Json JsonRead Identifiers Projection PhysicalPlan Graph Orchestration RunCodec RunTransition Contract Dispatch Placement PlacementSpec RunStatus Lifecycle.

Local Open Scope string_scope.
Local Open Scope Z_scope.
Local Open Scope list_scope.

#[local] Opaque revision.

Section LifecycleSpec.
Context {W : Type} {HS : RunStore W} {HL : StoreLaws W} (lc : Lifecycle W).

(** What the lifecycle relies on. *)
Record lifecycle_ok : Prop := {
  lk_registry : registry_ok (lc_plans lc);
  lk_retries p : p ∈ plans (lc_plans lc) -> printable (rt_max_attempts (ep_retry_policy p));
  lk_backend i b : lc_backends lc !! i = Some b -> lawful b;
  lk_clock w : in_range (astimezone_utc (lc_clock lc w));
  lk_graph p g w : keeps inv view_of w (lc_graph lc p g) (fun _ _ => True) (fun e => catches GraphStoreError e = true);
  lk_page : 1 <= lc_page_size lc <= 100;
  lk_validate b : only ValueError (lc_validate_mutation lc b);
}.

Context (Hlc : lifecycle_ok).

(** ** Errors *)

Definition unknown_outcome : exn := Exn OrchestrationContractError "a terminal run does not have a known outcome" [].

(** The errors of the API, a raw store error that escaped the handlers, or a run
    without a status. *)
Definition start_error (e : exn) : Prop := control_error e \/ read_error e \/ e = unknown_outcome.
Definition run_error (e : exn) : Prop := control_error e \/ catches OrchestrationContractError e = true \/ read_error e.

(** The API errors the reconciler contains. *)
Definition api_error (e : exn) : Prop := control_error e /\ contained e = true.

Lemma require_backend_ok i : raises api_error (require_backend lc i) /\
  forall b, require_backend lc i = Ok b -> lawful b.
Proof.
  unfold require_backend. destruct (lc_backends lc !! i) as [b|] eqn:E; [|by split].
  split; [done|]. intros b' [= <-]. by apply (lk_backend Hlc i).
Qed.

Lemma require_revision_ok reg r : raises api_error (require_revision reg r) /\
  forall p, require_revision reg r = Ok p -> by_revision reg !! r = Some p.
Proof. unfold require_revision. destruct (by_revision reg !! r) as [p|]; [|by split]. split; [done|]. by intros q [= <-]. Qed.

Lemma for_submission_raises s : raises api_error (for_submission (lc_plans lc) s).
Proof.
  unfold for_submission. apply raises_bind; [apply require_revision_ok|intros p _].
  apply raises_bind; [|done]. pose proof (validate_submission_plan_only s p) as H.
  destruct (validate_submission_plan s p) as [u|e]; [done|]. unfold raises, map_error in *. by rewrite H.
Qed.

Lemma registered_plan r p : by_revision (lc_plans lc) !! r = Some p -> p ∈ plans (lc_plans lc).
Proof. intros H. apply plans_in. by exists r. Qed.

Lemma for_submission_plan s p : for_submission (lc_plans lc) s = Ok p -> p ∈ plans (lc_plans lc).
Proof.
  unfold for_submission. intros (q & Hq & H)%bind_ok. apply seq_ok in H as [_ [= <-]].
  eapply registered_plan, require_revision_ok, Hq.
Qed.

Lemma for_run_raises r : raises api_error (for_run (lc_plans lc) r).
Proof.
  unfold for_run. apply raises_bind; [apply require_revision_ok|intros p _]. by destruct (bool_decide _).
Qed.

Lemma for_run_plan r p : for_run (lc_plans lc) r = Ok p ->
  p ∈ plans (lc_plans lc) /\ record_selection r = plan_selection p.
Proof.
  unfold for_run. intros (q & Hq & H)%bind_ok. destruct (bool_decide _) eqn:E; [|done]. injection H as <-.
  apply bool_decide_eq_true in E. split; [|done]. eapply registered_plan, require_revision_ok, Hq.
Qed.

Lemma status_raises r : run_value r -> raises (fun e => e = unknown_outcome) (status_response r).
Proof. intros Hr. pose proof (status_response_total r Hr) as H. by destruct (status_response r); [|apply H]. Qed.

(** ** Reading the world *)

Lemma triple_read {A} (P : view -> Prop) (m : M W A) (Q : A -> view -> Prop) (E : exn -> Prop) :
  (forall w, (m w).2 = w /\ match (m w).1 with Ok a => forall v, P v -> Q a v | Raise e => E e end) -> triple P m Q E.
Proof.
  intros H w Hw Hg. destruct (H w) as [Hs Hr]. destruct (m w) as [r w']. cbn in Hs, Hr. subst w'.
  split; [done|split; [reflexivity|]]. destruct r; auto.
Qed.

Lemma now_triple P : triple P (now lc) (fun t v => P v /\ in_range t) api_error.
Proof.
  apply triple_read. intros w. unfold now. destruct (is_naive (lc_clock lc w)); [by split|].
  split; [done|]. intros v Hv. split; [done|]. apply (lk_clock Hlc).
Qed.

Lemma require_open_triple P : triple P (require_open lc) (fun _ v => P v) control_error.
Proof. apply triple_read. intros w. unfold require_open. destruct (lc_closed lc w); split; cbn; first [done|auto]. Qed.

Lemma stopped_triple P : triple P (stopped lc) (fun _ v => P v) (fun _ => False).
Proof. apply triple_read. intros w. split; cbn; first [done|auto]. Qed.

(** A handler whose clauses raise API errors. *)
Lemma excepts_triple {A} clauses e P (Q : A -> view -> Prop) (E : exn -> Prop) :
  forallb (fun c => exn_subclass c.1.2 ControlOperationError) clauses = true ->
  (forall e, control_error e -> E e) ->
  (forallb (fun c => negb (catches c.1.1 e)) clauses = true -> E e) ->
  triple P (excepts clauses e) Q E.
Proof.
  intros Hc HE. induction clauses as [|[[c d] m] clauses IH]; cbn [excepts forallb fst snd] in *; intros He.
  - apply triple_lift; [done|]. by apply He.
  - apply andb_true_iff in Hc as [Hd Hc]. destruct (catches c e).
    + apply triple_lift; [done|]. by apply HE.
    + by apply IH.
Qed.

(** A step that maps every error its operation can raise. *)
Lemma guarded_triple {A} clauses (m : M W A) P (Q : A -> view -> Prop) (E : exn -> Prop) :
  Stable P -> triple P m Q E ->
  forallb (fun c => exn_subclass c.1.2 ControlOperationError) clauses = true ->
  (forall e, E e -> forallb (fun c => negb (catches c.1.1 e)) clauses = true -> control_error e) ->
  triple P (try_except m (excepts clauses)) Q control_error.
Proof.
  intros SP Hm Hc HE. eapply triple_try; [done|exact Hm|]. intros e He.
  apply excepts_triple; [done|done|]. by apply HE.
Qed.

(** ** Starting *)

(** [st] is a snapshot of the run the submission identifies, holding it. *)
Definition answers (s : RunSubmission) (st : StoredRun) (v : view) : Prop :=
  genuine v st /\ rr_run_id (st_record st) = logical_run_identity s /\ rr_submission_sha256 (st_record st) = fingerprint s.

Lemma recover_start_triple s : triple (fun _ => True) (recover_start s) (answers s) start_error.
Proof.
  unfold recover_start. eapply triple_bind.
  { eapply triple_errors; [apply get_triple|]. intros e He. right. by left. }
  intros [st|].
  - destruct (bool_decide _) eqn:E.
    + apply bool_decide_eq_true in E. apply triple_ret. intros v Hv. destruct (Hv st eq_refl). done.
    + apply triple_lift; [done|]. by left.
  - apply triple_lift; [done|]. by left.
Qed.

Lemma start_errors_triple s e :
  dispatch_error e \/ control_error e -> triple (fun _ => True) (start_errors s e) (answers s) start_error.
Proof.
  intros He. unfold start_errors. destruct (catches RunStoreIdempotencyConflictError e).
  { apply triple_lift; [done|]. by left. }
  destruct (catches RunStoreConflictError e); [apply recover_start_triple|].
  apply excepts_triple; [done|by left|]. cbn [forallb fst snd]. rewrite !andb_true_iff, !negb_true_iff.
  intros (H1 & H2 & H3 & _). left. destruct He as [[[He|He]|He]|He]; [congruence..|done].
Qed.

(** A status is all that can still fail once the snapshot is known. *)
Lemma status_triple st (F : view -> Prop) (E : exn -> Prop) :
  (forall v, F v -> genuine v st) -> E unknown_outcome ->
  triple F (lift (status_response (st_record st)))
    (fun resp v => F v /\ status_response (st_record st) = Ok resp) E.
Proof.
  intros HF HE. eapply triple_known; [intros v Hv Hf; exact (genuine_value _ _ Hv (HF v Hf))|intros Hr].
  apply triple_lift; [done|]. eapply raises_impl; [|by apply status_raises]. by intros e ->.
Qed.

Lemma start_triple s :
  submission_value s ->
  triple (fun _ => True) (start lc s)
    (fun resp v => exists st, answers s st v /\ status_response (st_record st) = Ok resp) start_error.
Proof.
  intros Hs. unfold start, start_.
  eapply triple_bind; [eapply triple_errors; [apply (require_open_triple (fun _ => True))|by left]|intros u].
  apply triple_pure; [eapply raises_impl; [|apply for_submission_raises]; intros e He; left; apply He|intros plan Hplan%for_submission_plan].
  destruct (require_backend_ok (ep_backend_id plan)) as [Hr Hb].
  apply triple_pure; [eapply raises_impl; [|exact Hr]; intros e He; left; apply He|intros b Hbl].
  apply Hb in Hbl.
  eapply (triple_bind _ _ (answers s)).
  - eapply triple_try; [apply _| |exact (start_errors_triple s)].
    eapply triple_bind; [eapply triple_errors; [apply now_triple|]; intros e He; right; apply He|intros t].
    eapply triple_known; [intros v _ [_ Ht]; exact Ht|intros Ht].
    eapply triple_conseq; [apply (dispatch_run_triple b s plan t Hbl Hs Ht (lk_retries Hlc _ Hplan))|done| |by left].
    intros st v (Hg & _ & Hid & Hf & _). done.
  - intros st. eapply triple_conseq; [apply (status_triple st (answers s st) start_error)|..].
    + by intros v [Hg _].
    + by right; right.
    + done.
    + intros resp v [Ha Hst]. by exists st.
    + done.
Qed.

(** ** Reconciling one run *)

Definition reconcile_error (e : exn) : Prop := dispatch_error e \/ api_error e.

Lemma contract_reconcile_error e : catches OrchestrationContractError e = true -> reconcile_error e.
Proof. intros H. left. by apply contract_dispatch_error. Qed.

Lemma observed_value o : observation_value o -> changes_value (observed o).
Proof. intros [_ _ Hs]. by split. Qed.

Lemma observed_update_ok r o :
  run_value r -> observation_value o ->
  raises reconcile_error (observed_update r o) /\
  forall r', observed_update r o = Ok (Some r') -> evolves r r' /\ run_value r'.
Proof.
  intros Hr Ho. unfold observed_update.
  assert (forall (c : changes) s, changes_value c ->
    let m := (updated ← transition_run r s (bo_observed_at o) c; Ok (if bool_decide (updated = r) then None else Some updated)) in
    raises reconcile_error m /\ forall r', m = Ok (Some r') -> evolves r r' /\ run_value r') as H.
  { intros c s Hc m. subst m. pose proof (transition_run_only r s (bo_observed_at o) c) as He.
    destruct (transition_run r s (bo_observed_at o) c) as [u|e] eqn:E; cbn [mbind result_bind].
    - split; [done|]. intros r'. destruct (bool_decide (u = r)); [done|]. intros [= <-].
      eapply transition_value; [done|exact (ov_observed _ Ho)|exact Hc|exact E].
    - split; [|done]. by apply contract_reconcile_error. }
  destruct (bool_decide (bo_execution_state o = BACKEND_TERMINAL)); [apply H, (observed_value o Ho)|].
  destruct (bool_decide (rr_run_state r = TERMINAL)); [by split|].
  destruct (bool_decide _ && bool_decide _); [by split|]. apply H. by split.
Qed.

Definition reconciled (stored st : StoredRun) (v : view) : Prop :=
  genuine v st /\ evolves (st_record stored) (st_record st).

Lemma dispatches_reconciled plan stored st v : dispatches plan stored st v -> reconciled stored st v.
Proof.
  intros (_ & Hg & Hd). split; [done|]. destruct (bool_decide _).
  - destruct Hd as [a Hd]. exact (dp_evolves _ _ _ _ _ Hd).
  - by subst st.
Qed.

Lemma unchanged_triple stored (E : exn -> Prop) :
  triple (fun v => genuine v stored) (mret stored) (reconciled stored) E.
Proof. apply triple_ret. by split. Qed.

Lemma backend_triple {A} (m : M W A) Q P :
  (forall w, keeps inv view_of w m (fun a _ => Q a) backend_error) ->
  triple P m (fun a _ => Q a) reconcile_error.
Proof. intros H. eapply triple_errors; [intros w _; apply H|]. intros e He. left. by right. Qed.

Lemma observe_and_save stored backend plan handle :
  lawful backend -> run_value (st_record stored) ->
  triple (fun v => genuine v stored)
    (observation ← observe backend plan handle;
     update ← lift (observed_update (st_record stored) observation);
     match update with None => mret stored | Some next => save stored next end)
    (reconciled stored) reconcile_error.
Proof.
  intros Hb Hr. eapply (triple_step _ (fun _ => True)); [apply _| |done|].
  { apply (backend_triple _ observation_value (fun _ => True)). intros w. by apply observe_law. }
  intros o. eapply triple_known; [intros v _ [_ Ho]; exact Ho|intros Ho].
  destruct (observed_update_ok _ _ Hr Ho) as [He Hn].
  apply triple_pure; [done|]. intros [next|] Hu.
  - destruct (Hn _ Hu) as [Hev Hv]. eapply triple_conseq; [apply (save_triple stored next Hev Hv)|..].
    + by intros v [Hg _].
    + intros st v [Hg Hst]. split; [done|by rewrite Hst].
    + intros e Hse. left. by left.
  - eapply triple_conseq; [apply unchanged_triple|..]; try done. by intros v [Hg _].
Qed.

Lemma reconcile_stored_triple stored :
  triple (fun v => genuine v stored) (reconcile_stored lc stored) (reconciled stored) reconcile_error.
Proof.
  eapply triple_known; [intros v Hv Hg; exact (genuine_value _ _ Hv Hg)|intros Hr].
  unfold reconcile_stored. destruct (negb _); [apply unchanged_triple|].
  apply triple_pure; [eapply raises_impl; [|apply for_run_raises]; by right|].
  intros plan [Hplan _]%for_run_plan. destruct (require_backend_ok (ep_backend_id plan)) as [He Hb].
  apply triple_pure; [eapply raises_impl; [|exact He]; by right|intros b Hbl]. apply Hb in Hbl.
  destruct (bool_decide (rr_run_state (st_record stored) ∈ _)).
  { eapply triple_bind; [eapply triple_errors; [apply now_triple|]; by right|intros t].
    eapply triple_known; [intros v _ [_ Ht]; exact Ht|intros Ht].
    eapply triple_conseq; [apply (dispatch_stored_triple b stored plan t Hbl Ht (lk_retries Hlc _ Hplan))|..].
    - by intros v [Hg _].
    - intros st v. apply dispatches_reconciled.
    - by left. }
  destruct (rr_backend_handle (st_record stored)) as [handle|].
  2:{ destruct (bool_decide _); [apply unchanged_triple|]. apply triple_lift; [done|]. by apply contract_reconcile_error. }
  eapply (triple_step _ (fun _ => True)); [apply _| |done|].
  - apply (backend_triple _ (fun _ => True) (fun _ => True)). intros w. destruct (bool_decide _); [by apply cancel_law|].
    intros Hw. cbn. split; [done|split; [reflexivity|done]].
  - intros u. eapply triple_conseq; [by apply (observe_and_save stored b plan handle)|..]; try done. by intros v [Hg _].
Qed.

(** ** Pages *)

Lemma reconcile_error_contained e : reconcile_error e -> contained e = true.
Proof.
  intros He. unfold contained. cbn [existsb].
  destruct He as [[[He|He]|He]|He]; [by rewrite ?He, ?orb_true_r..|apply He].
Qed.

Definition nothing (e : exn) : Prop := False.

Lemma reconcile_item_triple stored :
  triple (fun v => genuine v stored) (reconcile_item lc stored) (fun _ _ => True) nothing.
Proof.
  unfold reconcile_item. eapply (triple_try _ _ _ _ _ reconcile_error); [apply _| |].
  - eapply triple_bind; [apply reconcile_stored_triple|]. intros st. by apply triple_ret.
  - intros e He. destruct (catches RunStoreConflictError e); [by apply triple_ret|].
    rewrite (reconcile_error_contained e He). by apply triple_ret.
Qed.

Lemma reconcile_items_triple items processed failed :
  triple (fun v => forall st, st ∈ items -> genuine v st) (reconcile_items lc items processed failed)
    (fun r _ => processed <= r.1 <= processed + Z.of_nat (length items)) nothing.
Proof.
  revert processed failed. induction items as [|st items IH]; intros processed failed; cbn [reconcile_items].
  { apply triple_ret. intros v _. cbn [fst length]. lia. }
  assert (forall n, processed <= n <= processed + 1 -> forall f,
    triple (fun v => (forall st', st' ∈ st :: items -> genuine v st') /\ True) (reconcile_items lc items n f)
      (fun r _ => processed <= r.1 <= processed + Z.of_nat (length (st :: items))) nothing) as Hnext.
  { intros n Hn f. eapply triple_conseq; [apply IH|..].
    - intros v [Hv _] st' Hst'. apply Hv. by right.
    - intros r v Hr. cbv beta in Hr. cbn [length]. lia.
    - done. }
  assert (triple (fun v => forall st', st' ∈ st :: items -> genuine v st') (mret (processed, None) : M W (Z * option bool))
      (fun r _ => processed <= r.1 <= processed + Z.of_nat (length (st :: items))) nothing) as Hstop.
  { apply triple_ret. intros v _. cbn [fst length]. lia. }
  eapply triple_bind; [apply stopped_triple|]. intros [|]; [exact Hstop|].
  eapply triple_bind; [apply stopped_triple|]. intros [|]; [exact Hstop|].
  eapply (triple_step _ (fun v => genuine v st)); [apply _|apply reconcile_item_triple| |].
  - intros v Hv. apply Hv. left.
  - intros [| |]; apply Hnext; lia.
Qed.

(** What a page means for the scan. *)
Inductive page_event : Type :=
  | Scanned (failed : bool) (next_cursor : option string)
  | Unlisted
  | Interrupted.

Definition advance (e : page_event) (s : scan) : scan :=
  match e with
  | Scanned failed next_cursor => mark_reconcile_result s failed next_cursor
  | Unlisted => mark_page_failed s
  | Interrupted => s
  end.
Definition more_pages (e : page_event) : bool :=
  match e with Scanned _ (Some _) => true | _ => false end.

Lemma list_recovery_triple c n :
  triple (fun _ => True) (list_recovery c n)
    (fun p v => Z.of_nat (length (pg_items p)) <= n /\ forall st, st ∈ pg_items p -> genuine v st) read_error.
Proof.
  unfold list_recovery. destruct list_pending as [pending|] eqn:E; [by apply pending_triple|apply list_triple].
Qed.

Lemma reconcile_page_triple s :
  triple (fun _ => True) (reconcile_page lc s)
    (fun r _ => 0 <= r.1.2 <= lc_page_size lc /\ exists e, r.1.1 = advance e s /\ r.2 = more_pages e) nothing.
Proof.
  pose proof (lk_page Hlc) as Hpage. unfold reconcile_page.
  eapply (triple_bind _ _ (fun o v => forall p, o = Some p ->
            Z.of_nat (length (pg_items p)) <= lc_page_size lc /\ forall st, st ∈ pg_items p -> genuine v st)).
  - eapply triple_try; [apply _| |].
    + eapply triple_bind; [apply list_recovery_triple|]. intros p. apply triple_ret. by intros v Hv q [= <-].
    + intros e He. unfold read_error in He. rewrite He. by apply triple_ret.
  - intros [page|].
    2:{ apply triple_ret. intros v _. cbn. split; [lia|]. by exists Unlisted. }
    eapply (triple_known (Z.of_nat (length (pg_items page)) <= lc_page_size lc)); [|intros Hlen].
    { intros v _ Hv. by apply (Hv page). }
    eapply triple_bind.
    { eapply triple_conseq; [apply (reconcile_items_triple (pg_items page) 0 false)|..].
      - intros v Hv. exact (proj2 (Hv page eq_refl)).
      - intros r v Hr. exact Hr.
      - done. }
    intros [processed [failed|]]; apply triple_ret; cbn [fst snd]; intros v Hr; (split; [lia|]).
    + exists (Scanned failed (pg_next_cursor page)). by destruct (pg_next_cursor page).
    + by exists Interrupted.
Qed.

Lemma reconcile_pages_triple pages s processed :
  triple (fun _ => True) (reconcile_pages lc pages s processed)
    (fun r _ => processed <= r.2 <= processed + Z.of_nat pages * lc_page_size lc /\
       exists h, r.1 = foldr advance s h /\ (length h <= pages)%nat) nothing.
Proof.
  pose proof (lk_page Hlc) as Hpage. revert s processed. induction pages as [|pages IH]; intros s processed; cbn [reconcile_pages].
  { apply triple_ret. intros v _. cbn. split; [lia|]. by exists []. }
  eapply triple_bind; [apply stopped_triple|]. intros [|].
  { apply triple_ret. intros v _. cbn [fst snd]. split; [lia|]. exists []. split; [done|cbn; lia]. }
  eapply triple_bind; [apply reconcile_page_triple|]. intros [[s' count] more].
  eapply (triple_known (0 <= count <= lc_page_size lc /\ exists e, s' = advance e s /\ more = more_pages e));
    [by intros v _ Hv|]. intros [Hc (e & -> & Hm)].
  destruct more.
  - eapply triple_conseq; [apply IH|done| |done]. intros [s2 n] v [Hn (h & Hh & Hl)]. cbn [fst snd] in *. split; [lia|].
    exists (h ++ [e]). rewrite foldr_app. split; [done|]. rewrite length_app. cbn. lia.
  - apply triple_ret. intros v _. cbn [fst snd]. split; [lia|]. exists [e]. split; [done|cbn; lia].
Qed.

(** ** The scan *)

(** The newest event first. *)
Definition pass_end (e : page_event) : bool := match e with Scanned _ None => true | _ => false end.
Definition page_failure (e : page_event) : bool :=
  match e with Scanned failed _ => failed | Unlisted => true | Interrupted => false end.
(** The pages since the end of the last complete pass, and that pass. *)
Fixpoint current_pass (h : list page_event) : list page_event :=
  match h with [] => [] | e :: h => if pass_end e then [] else e :: current_pass h end.
Fixpoint last_pass (h : list page_event) : list page_event :=
  match h with [] => [] | e :: h => if pass_end e then e :: current_pass h else last_pass h end.
Fixpoint position (h : list page_event) : option string :=
  match h with [] => None | Scanned _ c :: _ => c | _ :: h => position h end.

Definition has_failure (h : list page_event) : bool := existsb page_failure h.

(** The reconciler's readiness is exact. After any history of pages, the
    initial recovery counts as complete iff some pass reached the end of the
    listing; a pass in progress is marked failed iff one of its pages failed;
    and the flag that withholds readiness is up iff a page of the pass in
    progress or of the last complete pass failed. The next page continues at the
    cursor of the last page that was scanned, so a failed listing or a stop loses
    no position. *)
Theorem readiness_exact h :
  let s := foldr advance initial_scan h in
  sn_initial_recovery_complete s = existsb pass_end h /\
  sn_scan_failed s = has_failure (current_pass h) /\
  sn_last_pass_failed s = has_failure (current_pass h) || has_failure (last_pass h) /\
  sn_cursor s = position h.
Proof.
  unfold has_failure. induction h as [|e h (H1 & H2 & H3 & H4)]; [done|]. cbn [foldr].
  destruct e as [f [c|]| |]; cbn [advance mark_reconcile_result mark_page_failed sn_initial_recovery_complete sn_scan_failed
    sn_last_pass_failed sn_cursor existsb pass_end current_pass last_pass position page_failure orb].
  - rewrite H1, H2, H3. split_and!; try done; [apply orb_comm|]. by rewrite !orb_assoc.
  - rewrite H2. split_and!; try done. apply orb_comm.
  - done.
  - done.
Qed.

(** A reconciliation sweep contains every failure: whatever runs, plans,
    backends and stores do within their contracts, [reconcile_once] returns
    instead of raising, leaves a good world that only moved forward, reports at
    most one hundred pages of runs, and advances the scan by at most one hundred
    page events. *)
Theorem sweep_contained s w (Hinv : inv w) (Hv : view_ok (view_of w)) :
  exists s' n w', reconcile_once lc s w = (Ok (s', n), w') /\
    (inv w' /\ view_ok (view_of w')) /\ view_le (view_of w) (view_of w') /\
    0 <= n <= 100 * lc_page_size lc /\ exists h, s' = foldr advance s h /\ (length h <= 100)%nat.
Proof.
  pose proof (reconcile_pages_triple MAX_RECONCILE_PAGES_PER_SWEEP s 0 w I (conj Hinv Hv)) as H.
  unfold reconcile_once. destruct (reconcile_pages lc MAX_RECONCILE_PAGES_PER_SWEEP s 0 w) as [[[s' n]|e] w'];
    destruct H as (G & L & H); [|done].
  destruct H as [Hn Hh]. cbn [fst snd] in Hn, Hh. change (Z.of_nat MAX_RECONCILE_PAGES_PER_SWEEP) with 100 in Hn.
  exists s', n, w'. split; [done|split; [done|split; [done|split; [lia|done]]]].
Qed.


(** C20: reconciling one run is safe: the result is a durable snapshot of the same
    run that did not regress - a queued run is dispatched, a canceling run is
    canceled again, an observation is applied once - and every error is one the
    page contains. *)
Theorem reconcile_stored_safe stored w
    (Hg : genuine (view_of w) stored) (Hinv : inv w) (Hv : view_ok (view_of w)) :
  match reconcile_stored lc stored w with
  | (r, w') =>
      (inv w' /\ view_ok (view_of w')) /\ view_le (view_of w) (view_of w') /\
      match r with
      | Ok st => reconciled stored st (view_of w')
      | Raise e => contained e = true
      end
  end.
Proof.
  pose proof (reconcile_stored_triple stored w Hg (conj Hinv Hv)) as H.
  destruct (reconcile_stored lc stored w) as [[st|e] w']; destruct H as (G & L & H); (split; [done|split; [done|]]); [done|].
  by apply reconcile_error_contained.
Qed.

(** ** Reading and canceling *)

Definition run_snapshot (i : string) (st : StoredRun) (v : view) : Prop := genuine v st /\ rr_run_id (st_record st) = i.

Lemma require_run_triple i P :
  triple P (require_run i) (run_snapshot i) control_error.
Proof.
  unfold require_run. eapply (triple_conseq (fun _ => True)); [|done|intros st v Hst; exact Hst|done].
  eapply triple_bind.
  - eapply (guarded_triple _ _ _ _ read_error); [apply _|apply get_triple|done|].
    intros e He. cbn [forallb fst snd]. unfold read_error in He. by rewrite He.
  - intros [st|].
    + apply triple_ret. intros v Hv. exact (Hv st eq_refl).
    + apply triple_lift; [done|]. done.
Qed.

(** The run is on its way out: its current snapshot is canceling or terminal. *)
Definition leaving (i : string) (v : view) : Prop :=
  exists r, v_runs v !! i = Some r /\ (rr_run_state r = CANCELING \/ rr_run_state r = TERMINAL).

Lemma snapshot_leaving i st v :
  view_ok v -> run_snapshot i st v -> rr_run_state (st_record st) = CANCELING \/ rr_run_state (st_record st) = TERMINAL ->
  leaving i v.
Proof.
  intros Hv [Hg <-] Hs. destruct (vo_snapshots v Hv st Hg) as (_ & r & Hr & Hev). exists r. split; [done|].
  pose proof (ev_state _ _ Hev) as Hrank. destruct Hs as [Hs|Hs]; rewrite Hs in Hrank;
    destruct (rr_run_state r); cbn in Hrank; first [by left|by right|lia].
Qed.

#[export] Instance leaving_stable i : Stable (leaving i).
Proof.
  intros v v' L (r & Hr & Hs). destruct (vl_runs _ _ L _ _ Hr) as (r' & Hr' & Hev). exists r'. split; [done|].
  pose proof (ev_state _ _ Hev) as Hrank. destruct Hs as [Hs|Hs]; rewrite Hs in Hrank;
    destruct (rr_run_state r'); cbn in Hrank; first [by left|by right|lia].
Qed.

#[export] Instance run_snapshot_stable i st : Stable (run_snapshot i st).
Proof. apply and_stable; apply _. Qed.

(** A last step that needs no more of the world. *)
Lemma triple_weaken_errors {A} P (m : M W A) Q (E : exn -> Prop) :
  triple P m Q E -> (forall e, E e -> run_error e) -> triple P m Q run_error.
Proof. apply triple_errors. Qed.

Lemma run_state_raises r : raises run_error (run_state r).
Proof.
  unfold run_state. destruct (rr_run_state r); try done. destruct (rr_outcome r); try done. right. by left.
Qed.

Lemma save_canceled_triple st next :
  evolves (st_record st) next -> run_value next ->
  triple (fun v => genuine v st) (save_canceled st next) (fun st' v => genuine v st' /\ st_record st' = next) run_error.
Proof.
  intros Hev Hn. unfold save_canceled. eapply triple_try; [apply _|by apply save_triple|].
  intros e He. apply excepts_triple; [done|by left|]. intros _. destruct He as [He|He]; [right; by right|right; by left].
Qed.

Lemma staged_changes_value m : changes_value (staged m).
Proof. by split. Qed.
Lemma canceled_changes_value : changes_value canceled_changes.
Proof. by split. Qed.

Lemma mark_canceling_triple i stored :
  rr_backend_handle (st_record stored) <> None ->
  triple (run_snapshot i stored) (mark_canceling lc stored)
    (fun r v => rr_run_id r = i /\ rr_backend_handle r <> None /\ leaving i v) run_error.
Proof.
  intros Hh. eapply triple_known; [intros v Hv [Hg Hi]; exact (conj (genuine_value _ _ Hv Hg) Hi)|intros [Hr Hi]].
  unfold mark_canceling. destruct (bool_decide _) eqn:Es.
  { apply bool_decide_eq_true in Es. intros w Hw Hg. split; [done|split; [reflexivity|]]. split_and!; [done..|].
    eapply snapshot_leaving; [apply Hg|exact Hw|by left]. }
  eapply triple_bind; [eapply triple_errors; [apply now_triple|]; intros e He; left; apply He|intros t].
  eapply triple_known; [intros v _ [_ Ht]; exact Ht|intros Ht].
  apply triple_pure.
  { eapply raises_impl; [|apply transition_run_only]. intros e He. right. by left. }
  intros next Hn. destruct (transition_value _ _ _ _ _ Hr Ht (staged_changes_value _) Hn) as [Hev Hv].
  apply transition_run_iff in Hn as [_ Hn].
  eapply triple_bind.
  { eapply triple_conseq; [apply (save_canceled_triple stored next Hev Hv)|..]; [by intros v [[Hg _] _]|intros st v H; exact H|done]. }
  intros saved. intros w [Hg Hs] Hw. split; [done|split; [reflexivity|]].
  destruct (evolves_same _ _ Hev) as (E & _ & _). rewrite Hs. split_and!.
  - by rewrite E.
  - by apply (ev_handle _ _ Hev).
  - eapply snapshot_leaving; [apply Hw|split; [exact Hg|by rewrite Hs, E]|left]. by rewrite Hs, Hn.
Qed.

Lemma cancel_provider_triple i current :
  rr_backend_handle current <> None ->
  triple (leaving i) (cancel_provider lc i current) (fun _ v => leaving i v) run_error.
Proof.
  intros Hh. unfold cancel_provider.
  apply triple_pure; [eapply raises_impl; [|apply for_run_raises]; intros e He; left; apply He|intros plan _].
  destruct (require_backend_ok (ep_backend_id plan)) as [He Hb].
  apply triple_pure; [eapply raises_impl; [|exact He]; intros e Hx; left; apply Hx|intros b Hbl]. apply Hb in Hbl.
  destruct (rr_backend_handle current) as [h|]; [|done].
  eapply (triple_step _ (fun _ => True)); [apply _| |done|].
  - eapply triple_errors; [eapply (guarded_triple _ _ _ (fun _ _ => True) backend_error); [apply _| |done|]|by left].
    + intros w _. by apply cancel_law.
    + intros e Hx. cbn [forallb fst snd]. unfold backend_error in Hx. by rewrite Hx.
  - intros u. apply triple_ret. by intros v [Hv _].
Qed.

Lemma cancel_once_triple i :
  triple (fun _ => True) (cancel_once lc i) (fun _ v => leaving i v) run_error.
Proof.
  unfold cancel_once. eapply triple_bind; [eapply triple_errors; [apply require_run_triple|by left]|intros stored].
  eapply triple_known; [intros v Hv [Hg Hi]; exact (conj (genuine_value _ _ Hv Hg) Hi)|intros [Hr Hi]].
  assert (triple (run_snapshot i stored)
    (if is_none (rr_backend_handle (st_record stored)) then conflict "The running execution does not have a provider handle."
     else current ← mark_canceling lc stored; cancel_provider lc i current) (fun _ v => leaving i v) run_error) as Hactive.
  { destruct (rr_backend_handle (st_record stored)) as [h|] eqn:Eh; cbn [is_none].
    - eapply triple_bind; [apply mark_canceling_triple; by rewrite Eh|]. intros r.
      eapply triple_known; [intros v _ (_ & Hh & _); exact Hh|intros Hh].
      eapply triple_conseq; [by apply (cancel_provider_triple i r)|..]; try done. by intros v (_ & _ & Hl).
    - apply triple_lift; [done|]. by left. }
  destruct (rr_run_state (st_record stored)) eqn:Es; try exact Hactive.
  - eapply triple_bind; [eapply triple_errors; [apply now_triple|]; intros e He; left; apply He|intros t].
    eapply triple_known; [intros v _ [_ Ht]; exact Ht|intros Ht].
    apply triple_pure.
    { eapply raises_impl; [|apply transition_run_only]. intros e He. right. by left. }
    intros next Hn. destruct (transition_value _ _ _ _ _ Hr Ht canceled_changes_value Hn) as [Hev Hv].
    apply transition_run_iff in Hn as [_ Hn].
    eapply triple_bind.
    { eapply triple_conseq; [apply (save_canceled_triple stored next Hev Hv)|..]; [by intros v [[Hg _] _]|intros st v H; exact H|done]. }
    intros saved. apply triple_pure; [apply run_state_raises|]. intros state _ w [Hg Hs] Hw. split; [done|split; [reflexivity|]].
    destruct (evolves_same _ _ Hev) as (E & _ & _).
    eapply snapshot_leaving; [apply Hw|split; [exact Hg|by rewrite Hs, E]|right]. by rewrite Hs, Hn.
  - apply triple_pure; [apply run_state_raises|]. intros state _ w Hw Hg. split; [done|split; [reflexivity|]].
    eapply snapshot_leaving; [apply Hg|exact Hw|by right].
Qed.

Lemma planned_cancel_raises r : raises run_error (planned_cancel_result r).
Proof.
  unfold planned_cancel_result. destruct (rr_run_state r); try done.
  apply raises_bind; [apply run_state_raises|done].
Qed.

Lemma preconditions_raises r : raises run_error (validate_cancel_preconditions lc r).
Proof.
  unfold validate_cancel_preconditions. destruct (bool_decide _); [done|].
  apply raises_bind; [unfold reject_if; destruct (is_none _); [by left|done]|intros _ _].
  apply raises_bind; [eapply raises_impl; [|apply for_run_raises]; intros e He; left; apply He|intros p _].
  apply raises_bind; [eapply raises_impl; [|apply require_backend_ok]; intros e He; left; apply He|done].
Qed.

Lemma cancel_triple i key :
  triple (fun _ => True) (cancel lc i key)
    (fun m v => mr_operation m = "cancel" /\ mr_run_id m = i /\ leaving i v) run_error.
Proof.
  unfold cancel, cancel_.
  eapply triple_bind; [eapply triple_errors; [apply (require_open_triple (fun _ => True))|by left]|intros u].
  apply triple_pure; [unfold reject_if; destruct (negb _); [by left|done]|intros u1 _].
  eapply triple_bind; [eapply triple_errors; [apply require_run_triple|by left]|intros stored].
  apply triple_pure; [apply preconditions_raises|intros u2 _].
  apply triple_pure; [apply planned_cancel_raises|intros planned _].
  eapply (triple_bind _ _ (fun _ _ => True)).
  { eapply triple_errors; [eapply (guarded_triple _ _ _ _ read_error); [apply _| |done|]|by left].
    - eapply triple_conseq; [apply mutation_triple|done..].
    - intros e He. cbn [forallb fst snd]. unfold read_error in He. by rewrite He, andb_false_r. }
  intros original. apply triple_pure.
  { pose proof (lk_validate Hlc original) as Hx. unfold raises, map_error in *.
    destruct (lc_validate_mutation lc original) as [m|e]; [done|]. rewrite Hx. by left. }
  intros result _. apply triple_pure; [unfold reject_if; destruct (_ || _); [by left|done]|].
  intros [] Hm%reject_if_tt%orb_false_iff. destruct Hm as [Hop%negb_bool_decide_false Hid%negb_bool_decide_false].
  eapply triple_bind; [eapply triple_conseq; [apply (cancel_once_triple i)|done..]|intros m].
  apply triple_ret. by intros v Hl.
Qed.

(** C21: an accepted cancellation takes effect. From a good world, [cancel]
    leaves a good world that only moved forward; when it returns, the result is a
    cancellation of the run it was asked about and the current snapshot of that
    run is canceling or terminal. It never trips its own assertion: every error
    is an API error, a contract error or a store error. *)
Theorem cancel_takes_effect i key w (Hinv : inv w) (Hv : view_ok (view_of w)) :
  match cancel lc i key w with
  | (r, w') =>
      (inv w' /\ view_ok (view_of w')) /\ view_le (view_of w) (view_of w') /\
      match r with
      | Ok m => mr_operation m = "cancel" /\ mr_run_id m = i /\ leaving i (view_of w')
      | Raise e => run_error e
      end
  end.
Proof. apply (cancel_triple i key w I (conj Hinv Hv)). Qed.
End LifecycleSpec.
