(* ===== verification/ReplaySpec.v ===== *)
(** * Replayed runs and repeated requests

    The two ways an API caller meets an existing run again: replaying a terminal
    run submits the same plan, graph and repair window under a new key, and
    repeating a request finds the run it started. *)

From S2P Require Import Prelude Regex PyStr Sha256 PyTime Json JsonRead Identifiers Projection PhysicalPlan Graph Orchestration RunCodec RunTransition Contract Placement PlacementSpec RunStatus Lifecycle.

Local Open Scope string_scope.
Local Open Scope Z_scope.
Local Open Scope list_scope.

#[local] Opaque revision.
#[local] Arguments RunTrigger_post_init : simpl never.
#[local] Arguments PlacementDecision_post_init : simpl never.
#[local] Arguments SizeClassDecision_post_init : simpl never.

(** ** Replays *)

Definition replay_trigger (source : RunRecord) : RunTrigger :=
  {| tg_kind := API; tg_trigger_id := api_trigger_id; tg_scheduled_occurrence := None;
     tg_replay_of_run_id := Some (rr_run_id source); tg_repair_window := tg_repair_window (rr_trigger source) |}.
Definition replay_placement (source : RunRecord) : PlacementDecision :=
  {| pd_mode := REPLAY; pd_selected_environment := rr_environment source;
     pd_selected_locality := rr_placement_decision source ≫= pd_selected_locality;
     pd_estimated_cost_microusd := rr_placement_decision source ≫= pd_estimated_cost_microusd;
     pd_preferred_locality := None; pd_max_cost_microusd := None; pd_eligible_plan_count := 1;
     pd_schema := PLACEMENT_DECISION_SCHEMA |}.
Definition replay_size (d : SizeClassDecision) : SizeClassDecision :=
  {| sd_mode := SIZE_REPLAY; sd_selected_size_class := sd_selected_size_class d;
     sd_estimated_input_bytes := sd_estimated_input_bytes d; sd_max_input_bytes := sd_max_input_bytes d;
     sd_cpu_millis := sd_cpu_millis d; sd_memory_mib := sd_memory_mib d;
     sd_ephemeral_storage_mib := sd_ephemeral_storage_mib d; sd_eligible_plan_count := 1;
     sd_estimate_source := None; sd_estimate_observed_at := None; sd_schema := SIZE_CLASS_DECISION_SCHEMA |}.

Section Replay.
Context (source : RunRecord) (Hr : run_value source).

Lemma source_checked :
  opaque_id (rr_run_id source) = true /\ portable_id (rr_environment source) = true /\
  portable_id (rr_project source) = true /\ portable_id (rr_plan_id source) = true /\
  is_sha256 (rr_plan_revision source) = true /\
  forall d, rr_requested_deadline_seconds source = Some d -> 1 <= d.
Proof.
  pose proof (rv_post source Hr) as H. unfold RunRecord_post_init, require_opaque, contract_reject in H.
  rewrite !seq_ok, !reject_if_tt, !for_each_ok in H. destruct H as (H1 & H2 & H3 & _ & _ & _ & _ & _ & H4 & _).
  apply negb_false_iff in H1. rewrite !Forall_cons in H2, H3. unfold require_portable, require_sha256, contract_reject in *.
  cbn [fst snd] in *. rewrite !reject_if_tt, !negb_false_iff in H2, H3. rewrite when_some_ok in H4.
  destruct H2 as (He & Hp & _ & Hplan & _), H3 as (_ & Hrev & _). split_and!; try done.
  intros d Hd. specialize (H4 d Hd). by apply reject_if_tt, Z.ltb_ge in H4.
Qed.

Lemma replay_trigger_value : trigger_value (replay_trigger source).
Proof.
  split; cbn [replay_trigger tg_scheduled_occurrence tg_repair_window]; [|done|apply (rv_trigger source Hr)].
  unfold RunTrigger_post_init. cbn [replay_trigger tg_kind tg_trigger_id tg_scheduled_occurrence tg_replay_of_run_id tg_repair_window].
  unfold require_portable, require_opaque, contract_reject. destruct source_checked as [Hid _].
  assert (portable_id api_trigger_id = true) as -> by (vm_compute; reflexivity).
  cbn [negb reject_if mbind result_bind is_some when_some]. rewrite Hid. cbn [negb reject_if mbind result_bind].
  destruct (tg_repair_window (rr_trigger source)); cbn [when_some]; [|done]. by rewrite bool_decide_true by left.
Qed.

Lemma replay_placement_ok : PlacementDecision_post_init (replay_placement source) = Ok tt.
Proof.
  destruct source_checked as (_ & He & _). unfold PlacementDecision_post_init, require_portable, contract_reject.
  cbn [replay_placement pd_mode pd_selected_environment pd_selected_locality pd_estimated_cost_microusd pd_preferred_locality
       pd_max_cost_microusd pd_eligible_plan_count pd_schema].
  rewrite bool_decide_true by done. rewrite He. cbn [negb reject_if mbind result_bind when_some for_each fst snd].
  destruct (rr_placement_decision source) as [d|] eqn:Ed; [|done]. cbn [mbind option_bind].
  pose proof (rv_placement source Hr d Ed) as Hd. unfold PlacementDecision_post_init, require_portable, contract_reject in Hd.
  rewrite !seq_ok, !reject_if_tt in Hd. destruct Hd as (_ & _ & Hl & _ & Hc & Hb & _).
  cbn [for_each fst snd] in Hc. apply seq_ok in Hc as [Hc _]. rewrite Hl, Hc. cbn [mbind result_bind reject_if].
  by rewrite Hb.
Qed.

Lemma replay_size_value d : rr_size_class_decision source = Some d -> size_value (replay_size d).
Proof.
  intros Ed. destruct (rv_size source Hr d Ed) as [Hp _ Hcpu Hmem Hst]. split; try done.
  unfold SizeClassDecision_post_init, require_portable, contract_reject in *.
  cbn [replay_size sd_schema sd_selected_size_class sd_estimated_input_bytes sd_estimate_source sd_estimate_observed_at
       sd_max_input_bytes sd_cpu_millis sd_memory_mib sd_ephemeral_storage_mib sd_eligible_plan_count] in *.
  rewrite !seq_ok in Hp. destruct Hp as (_ & H1 & H2 & _ & _ & H5 & H6 & H7 & H8 & _).
  rewrite bool_decide_true by done. cbn [negb reject_if mbind result_bind is_none Bool.eqb when_some].
  rewrite H1. cbn [mbind result_bind]. rewrite H2. cbn [mbind result_bind]. rewrite H5. cbn [mbind result_bind].
  rewrite H6. cbn [mbind result_bind]. rewrite H7. cbn [mbind result_bind]. by rewrite H8.
Qed.

Lemma sized_replay :
  built (rr_size_class_decision source) (fun d => new_size_decision (replay_size d)) = Ok (replay_size <$> rr_size_class_decision source).
Proof.
  destruct (rr_size_class_decision source) as [d|] eqn:Ed; [|done]. cbn [built]. unfold new_size_decision.
  by rewrite (zv_post _ (replay_size_value d Ed)).
Qed.
End Replay.

(** The submission a replay makes. *)
Definition replayed (source : RunRecord) (plan : ExecutionPlan) (graph : GraphRecord) (key : string) (t : datetime) : RunSubmission :=
  {| sb_environment := rr_environment source; sb_project := rr_project source; sb_graph := graph;
     sb_plan_id := ep_plan_id plan; sb_plan_revision := revision plan; sb_trigger := replay_trigger source;
     sb_idempotency_key := key; sb_requested_at := t; sb_requested_deadline_seconds := rr_requested_deadline_seconds source;
     sb_placement_decision := Some (replay_placement source); sb_size_class_decision := replay_size <$> rr_size_class_decision source |}.

Lemma replay_submission_spec source plan graph key t :
  run_value source ->
  replay_submission source plan graph key t = new_submission (replayed source plan graph key t).
Proof.
  intros Hr. unfold replay_submission. fold (replay_trigger source). fold (replay_placement source).
  rewrite (tv_post _ (replay_trigger_value source Hr)). cbn [mbind result_bind].
  unfold new_placement_decision. rewrite (replay_placement_ok source Hr). cbn [mbind result_bind].
  change (built _ _) with (built (rr_size_class_decision source) (fun d => new_size_decision (replay_size d))).
  by rewrite (sized_replay source Hr).
Qed.

Lemma replayed_value source plan graph key t :
  run_value source -> in_range t -> submission_value (replayed source plan graph key t).
Proof.
  intros Hr Ht. split; cbn [replayed sb_trigger sb_requested_at sb_requested_deadline_seconds sb_placement_decision sb_size_class_decision].
  - by apply replay_trigger_value.
  - done.
  - apply (rv_deadline source Hr).
  - intros d [= <-]. by apply replay_placement_ok.
  - intros d Hd. destruct (rr_size_class_decision source) as [d'|] eqn:Ed; [|done]. injection Hd as <-. by eapply replay_size_value.
Qed.

(** A replay repeats the run. For a well-formed run of a registered plan, the
    graph record it ran and a valid new key, the replay's submission is accepted:
    it selects exactly the plan the run selected, names the run it replays, keeps
    the repair window, the deadline, the environment and the size class, and the
    registry admits it unless the plan no longer supports the repair window or
    the deadline. *)
Theorem replay_repeats_run reg source plan graph key t
    (Hr : run_value source) (Hplan : for_run reg source = Ok plan)
    (Hg : gr_project graph = rr_project source /\ gr_graph graph = rr_graph source)
    (Hrev : gr_revision graph = rr_graph_revision source /\ gr_content_sha256 graph = rr_graph_content_sha256 source)
    (Hk : idempotency_key key = true) (Ht : is_utc t = true) :
  exists sub,
    replay_submission source plan graph key t = Ok sub /\ RunSubmission_post_init sub = Ok tt /\
    submission_selection sub = record_selection source /\
    tg_replay_of_run_id (sb_trigger sub) = Some (rr_run_id source) /\
    tg_repair_window (sb_trigger sub) = tg_repair_window (rr_trigger source) /\
    sb_requested_deadline_seconds sub = rr_requested_deadline_seconds source /\
    sd_selected_size_class <$> sb_size_class_decision sub = sd_selected_size_class <$> rr_size_class_decision source /\
    (for_submission reg sub = Ok plan <->
       (tg_repair_window (rr_trigger source) <> None -> supports_date_repair plan = true) /\
       (forall d, rr_requested_deadline_seconds source = Some d -> d <= ep_deadline_seconds plan)).
Proof.
  unfold for_run in Hplan. apply bind_ok in Hplan as (q & Hq & Hplan). destruct (bool_decide _) eqn:E; [|done].
  injection Hplan as ->. apply bool_decide_eq_true in E. destruct (source_checked source Hr) as (H1 & H2 & H3 & H4 & H5 & H6).
  pose proof E as Es. unfold record_selection, plan_selection in Es. injection Es as E1 E2 E3 E4 E5 E6 E7.
  exists (replayed source plan graph key t). rewrite (replay_submission_spec _ _ _ _ _ Hr). unfold new_submission.
  set (sub := replayed source plan graph key t).
  assert (RunSubmission_post_init sub = Ok tt) as Hsub.
  { subst sub. unfold RunSubmission_post_init, require_portable, require_sha256, require_utc, contract_reject.
    cbn [replayed sb_environment sb_project sb_plan_id sb_graph sb_plan_revision sb_placement_decision sb_idempotency_key
         sb_requested_at sb_requested_deadline_seconds when_some].
    rewrite H2, H3. rewrite <- E6, H4. rewrite <- E7, H5, Hk, Ht. destruct Hg as [Hg1 Hg2].
    rewrite !bool_decide_true by done. cbn [negb reject_if mbind result_bind].
    destruct (rr_requested_deadline_seconds source) as [d|] eqn:Ed; [|done]. cbn [when_some].
    by rewrite (proj2 (Z.ltb_ge d 1)) by by apply H6. }
  assert (submission_selection sub = record_selection source) as Hsel.
  { subst sub. unfold submission_selection, record_selection. cbn [replayed sb_environment sb_project sb_graph sb_plan_id sb_plan_revision].
    destruct Hg as [_ ->], Hrev as [-> ->]. by rewrite E6, E7. }
  split_and!; try done.
  - by rewrite Hsub.
  - subst sub. cbn. by destruct (rr_size_class_decision source).
  - unfold for_submission. cbn [replayed sub sb_plan_revision]. subst sub. cbn [replayed sb_plan_revision].
    rewrite <- E7, Hq. cbn [mbind result_bind].
    unfold validate_submission_plan, contract_reject. rewrite Hsel, E. rewrite (bool_decide_true (plan_selection plan = _)) by done.
    cbn [replayed sb_trigger sb_requested_deadline_seconds replay_trigger tg_repair_window].
    unfold supports_date_repair. rewrite <- negb_andb.
    destruct (tg_repair_window (rr_trigger source)) as [rw|]; cbn [is_some andb].
    + destruct (bool_decide _ && _) eqn:Es'; cbn [negb reject_if mbind result_bind].
      * destruct (rr_requested_deadline_seconds source) as [d|]; cbn [when_some]; [|naive_solver].
        destruct (Z.ltb_spec (ep_deadline_seconds plan) d); cbn; [split; [done|]|naive_solver lia].
        intros [_ Hd]. specialize (Hd d eq_refl). lia.
      * cbn. split; [done|]. intros [Hw _]. by specialize (Hw ltac:(done)).
    + cbn [negb reject_if mbind result_bind].
      destruct (rr_requested_deadline_seconds source) as [d|]; cbn [when_some]; [|naive_solver].
      destruct (Z.ltb_spec (ep_deadline_seconds plan) d); cbn; [split; [done|]|naive_solver lia].
      intros [_ Hd]. specialize (Hd d eq_refl). lia.
Qed.

(** ** Repeated requests *)

Section Requests.
Context (rs : PlanRunSubmissionResolver) (Hrs : resolver_ok rs) (record : GraphRecord).

(** No estimator passes its estimate off as the caller's own. *)
Definition estimators_named : Prop :=
  forall e f r v, (e, f) ∈ rs_input_size_estimators rs -> f r = Ok v -> ie_source v <> "api_request".
Context (Hest : estimators_named).

(** The modes and the evidence of a request without a size. *)
Record unsized (acc : sizing) : Prop := {
  us_source e x : sz_evidence acc !! e = Some x -> ev_source x <> "api_request";
  us_mode e m : sz_modes acc !! e = Some (Some m) -> m = SIZE_CONFIGURED_DEFAULT \/ m = AUTOMATIC_INPUT;
  us_automatic e : sz_modes acc !! e = Some (Some AUTOMATIC_INPUT) -> is_Some (sz_evidence acc !! e);
}.

Lemma unsized_estimate t e :
  match route_estimate rs record None None t e with
  | Ok (_, mode, evidence) =>
      (forall x, evidence = Some x -> ev_source x <> "api_request") /\
      (forall m, mode = Some m -> m = SIZE_CONFIGURED_DEFAULT \/ m = AUTOMATIC_INPUT) /\
      (mode = Some AUTOMATIC_INPUT -> is_Some evidence)
  | Raise _ => True
  end.
Proof.
  unfold route_estimate, requested_mode, default_mode. cbn [is_none is_some].
  assert (forall m, (if is_some (rs_default_size_class rs) then Some SIZE_CONFIGURED_DEFAULT else None) = Some m ->
    m = SIZE_CONFIGURED_DEFAULT) as Hd.
  { intros m. destruct (is_some _); [by intros [= <-]|done]. }
  destruct (dict_by fst (rs_input_size_estimators rs) !! e) as [[e' f]|] eqn:E.
  - apply dict_by_in in E as [Hin _]. destruct (f record) as [v|x] eqn:Ef.
    + split_and!; [intros x [= <-]; by apply (Hest _ _ _ _ Hin Ef)|intros m [= <-]; by right|done].
    + destruct (catches InputSizeEstimationError x); [|done].
      split_and!; [done|intros m Hm; left; by apply Hd|intros Hm; apply Hd in Hm; done].
  - split_and!; [done|intros m Hm; left; by apply Hd|intros Hm; apply Hd in Hm; done].
Qed.

Lemma unsized_route t e plans acc acc' :
  unsized acc -> size_route rs record None None t e plans acc = Ok acc' -> unsized acc'.
Proof.
  intros [H1 H2 H3]. unfold size_route. destruct (choices _ _) as [|item items].
  { cbn [is_some orb]. intros [= <-]. split; cbn [sz_evidence sz_modes]; [done|..].
    - intros e' m [[_ [=]]|[_ H]]%lookup_insert_Some. by apply (H2 e').
    - intros e' [[_ [=]]|[_ H]]%lookup_insert_Some. by apply H3. }
  pose proof (unsized_estimate t e) as He. destruct (route_estimate _ _ _ _ _ e) as [[[n mode] evidence]|x]; [|done].
  destruct He as (He1 & He2 & He3). cbn [mbind result_bind].
  set (found := match evidence with Some _ => _ | None => _ end).
  assert (forall e' x, found !! e' = Some x -> ev_source x <> "api_request") as Hs.
  { intros e' x. unfold found. destruct evidence as [y|]; [|apply H1].
    intros [[_ <-]|[_ H]]%lookup_insert_Some; [by apply He1|by apply (H1 e')]. }
  assert (forall e', is_Some (sz_evidence acc !! e') -> is_Some (found !! e')) as Hk.
  { intros e' Hx. unfold found. destruct evidence as [y|]; [|done]. apply lookup_insert_is_Some.
    destruct (decide (e = e')); [by left|by right]. }
  destruct (route_choice _ _ _ _) as [p|]; intros [= <-]; split; cbn [sz_evidence sz_modes]; try exact Hs.
  - intros e' m [[_ Hm]|[_ H]]%lookup_insert_Some; [by apply He2|by apply (H2 e')].
  - intros e' [[<- Hm]|[_ H]]%lookup_insert_Some; [|by apply Hk, H3].
    destruct (He3 Hm) as [x Hx]. unfold found. rewrite Hx, lookup_insert_eq. by eexists.
  - exact H2.
  - intros e' H. by apply Hk, H3.
Qed.

Lemma unsized_routes t environment current todo : forall acc acc',
  unsized acc -> size_routes rs record None None t environment current todo acc = Ok acc' -> unsized acc'.
Proof.
  induction todo as [|e todo IH]; intros acc acc' H; cbn [size_routes]; [by intros [= <-]|].
  destruct (_ && _); [by apply IH|]. intros (acc1 & H1 & H2)%bind_ok.
  eapply IH; [|exact H2]. eapply unsized_route; [exact H|exact H1].
Qed.

Lemma unsized_selection t environment acc :
  select_size_candidates rs record None None t environment = Ok acc -> unsized acc.
Proof.
  unfold select_size_candidates. cbn [is_some andb reject_if mbind result_bind when_some]. intros (current & _ & H)%bind_ok.
  destruct (rs_size_class_candidates rs).
  - cbn [orb] in H. injection H as <-. split; cbn [sz_evidence sz_modes].
    + intros e x. by rewrite lookup_empty.
    + intros e m Hm. exfalso. revert Hm. clear. induction current as [|p l IH] using rev_ind; [cbn [foldl]; by rewrite lookup_empty|].
      rewrite foldl_app. cbn [foldl]. intros [[_ [=]]|[_ H]]%lookup_insert_Some. by apply IH.
    + intros e Hm. exfalso. revert Hm. clear. induction current as [|p l IH] using rev_ind; [cbn [foldl]; by rewrite lookup_empty|].
      rewrite foldl_app. cbn [foldl]. intros [[_ [=]]|[_ H]]%lookup_insert_Some. by apply IH.
  - apply bind_ok in H as (acc' & H1 & H2). destruct (bool_decide _); [done|]. injection H2 as <-.
    eapply unsized_routes; [|exact H1]. by split; cbn; intros *; rewrite lookup_empty.
Qed.

Lemma length_remove_dups_le (l : list string) : (length (remove_dups l) <= length l)%nat.
Proof. apply submseteq_length, NoDup_submseteq; [apply NoDup_remove_dups|]. intros x Hx. by apply elem_of_remove_dups. Qed.

Lemma sorted_set_idem l : sorted_set (sorted_set l) = sorted_set l.
Proof.
  unfold sorted_set. assert (NoDup (py_sorted str_leb (remove_dups l))) as Hn by (rewrite py_sorted_perm; apply NoDup_remove_dups).
  assert (remove_dups (py_sorted str_leb (remove_dups l)) = py_sorted str_leb (remove_dups l)) as ->.
  { generalize dependent (py_sorted str_leb (remove_dups l)). clear. intros k.
    induction 1 as [|x k Hx Hk IH]; [done|]. cbn. destruct (decide_rel _ x k); [done|by rewrite IH]. }
  apply py_sorted_id, py_sorted_sorted; [apply leb_total|apply leb_trans].
Qed.

(** The parts of a resolved request. *)
Lemma resolve_parts key t environment size_class bytes sub :
  is_utc t = true -> resolve rs record key t environment size_class bytes = Ok sub ->
  exists acc plan d,
    select_size_candidates rs record size_class bytes t (default (rs_environment rs) environment) = Ok acc /\
    plan ∈ plans (rs_plans rs) /\ looked_up rs record environment plan d /\ pd_selected_environment d = ep_environment plan /\
    size_decision rs plan (sz_selected acc) (mjoin (sz_modes acc !! ep_environment plan)) (sz_evidence acc !! ep_environment plan)
      = Ok (sb_size_class_decision sub) /\
    sb_environment sub = ep_environment plan /\ sb_project sub = gr_project record /\ sb_graph sub = record /\
    sb_trigger sub = api_trigger /\ sb_placement_decision sub = Some d /\ sb_idempotency_key sub = key.
Proof.
  intros Hutc. unfold resolve. intros (acc & Hacc & H)%bind_ok.
  pose proof (selection_ok rs Hrs record size_class bytes t (default (rs_environment rs) environment) Hutc) as Hsel.
  rewrite Hacc in Hsel. destruct Hsel as (current & envs & Hcur & Hok & _).
  pose proof (current_for_graph_ok (rs_plans rs) record) as Hc. rewrite Hcur in Hc. destruct Hc as (_ & Hlen & Hin).
  apply bind_ok in H as ([plan d] & Hplace & H).
  pose proof (place_ok rs Hrs record environment (sz_selected acc)) as Hp. rewrite Hplace in Hp.
  destruct Hp as (Hp & Hd & Hlook & _).
  { intros p Hp. destruct (selected_environment _ _ _ _ _ Hok Hp) as [Hp' _]. apply Hin in Hp'. tauto. }
  { etrans; [apply submseteq_length, (si_selected _ _ _ _ Hok)|]. etrans; [apply length_filter|]. etrans; [exact Hlen|].
    rewrite plans_length. apply (rg_bound _ (ro_registry _ Hrs)). }
  apply bind_ok in H as (sized & Hsized & H). apply seq_ok in H as [_ H]. unfold new_submission in H. apply seq_ok in H as [_ [= <-]].
  exists acc, plan, d. destruct (selected_environment _ _ _ _ _ Hok Hp) as [Hp' _]. apply Hin in Hp' as [Hreg _].
  cbn [sb_size_class_decision sb_environment sb_project sb_graph sb_trigger sb_placement_decision sb_idempotency_key]. split_and!; done.
Qed.

Lemma lookup_is_valid environment plan d envs key :
  plan ∈ plans (rs_plans rs) -> ep_environment plan ∈ envs -> idempotency_key key = true ->
  idempotency_lookup rs record environment = Ok (envs, pd_mode d) -> lookup_valid envs (pd_mode d) key = true.
Proof.
  intros Hp Hin Hk Hl. unfold lookup_valid. rewrite Hk. cbn [negb].
  assert (forall e mode, mode ∈ [AUTOMATIC; CONFIGURED_DEFAULT; MANUAL_OVERRIDE] -> ep_environment plan ∈ [e] ->
    negb (bool_decide ([e] = []) || (100 <? length [e])%nat || negb (bool_decide (sorted_set [e] = [e]))
          || existsb (fun e => negb (portable_id e)) [e] || negb (bool_decide (mode ∈ [AUTOMATIC; CONFIGURED_DEFAULT; MANUAL_OVERRIDE])) || false) = true) as Hone.
  { intros e mode Hm He%list_elem_of_singleton. subst e. destruct (plan_portable rs Hrs plan Hp) as (_ & He & _). cbn [existsb].
    rewrite He. rewrite (bool_decide_true (mode ∈ _)), (bool_decide_false ([_] = [])), (bool_decide_true (sorted_set [_] = [_])) by done. done. }
  unfold idempotency_lookup in Hl. destruct environment as [e|].
  - injection Hl as <- <-. apply Hone; [set_solver|done].
  - destruct (negb (bool_decide (rs_environment rs = "auto"))).
    + injection Hl as <- <-. apply Hone; [set_solver|done].
    + destruct (sorted_set (ep_environment <$> registered (rs_plans rs) record)) as [|e' es] eqn:Es.
      { by apply bind_ok in Hl as (? & _ & [=]). }
      injection Hl as <- Hm. rewrite <- Hm. rewrite <- Es. rewrite sorted_set_idem.
      rewrite (bool_decide_false (_ = [])) by (by rewrite Es). rewrite (bool_decide_true (sorted_set _ = _)) by done.
      rewrite (bool_decide_true (AUTOMATIC ∈ _)) by left.
      assert ((100 <? length (sorted_set (ep_environment <$> registered (rs_plans rs) record)))%nat = false) as ->.
      { apply Nat.ltb_ge. unfold sorted_set. rewrite py_sorted_perm. etrans; [apply length_remove_dups_le|]. rewrite length_fmap.
        etrans; [apply length_filter|]. rewrite plans_length. apply (rg_bound _ (ro_registry _ Hrs)). }
      assert (existsb (fun e => negb (portable_id e)) (sorted_set (ep_environment <$> registered (rs_plans rs) record)) = false) as ->; [|done].
      apply existsb_false, Forall_forall. intros e He. unfold sorted_set in He. rewrite py_sorted_perm, elem_of_remove_dups in He.
      apply list_elem_of_fmap in He as (p & -> & Hpr). apply list_elem_of_filter in Hpr as [_ Hpr].
      destruct (plan_portable rs Hrs p Hpr) as (_ & He & _). by rewrite He.
Qed.

(** A repeated request finds its run. If a request without a size was
    resolved and its run claimed, then at any later point of the run's life the
    lookup that precedes the resolution of a repetition is well-formed, covers
    the environment of the run, and recognizes the run as the same request -
    also when the placement or the size was chosen automatically and would now
    be chosen differently. *)
Theorem repeated_request_found key t environment sub r
    (Hkey : idempotency_key key = true) (Hutc : is_utc t = true)
    (Hres : resolve rs record key t environment None None = Ok sub) (Hr : evolves (queued_record sub) r) :
  exists envs mode, idempotency_lookup rs record environment = Ok (envs, mode) /\
    lookup_valid envs mode key = true /\ rr_idempotency_key_sha256 r = sha256_hex (encode key) /\
    same_request record envs mode None r = true.
Proof.
  destruct (resolve_parts _ _ _ _ _ _ Hutc Hres) as (acc & plan & d & Hacc & Hp & (envs & Hlook & Hmem) & He & Hsz & Henv & Hproj & Hgraph & Htr & Hd & Hk).
  exists envs, (pd_mode d). split; [done|]. split; [by eapply lookup_is_valid|].
  destruct (unsized_selection _ _ _ Hacc) as [H1 H2 H3].
  destruct Hr as [Hid Hpl Hzd _ _ _ _ _ _ _]. unfold run_identity in Hid. cbn [queued_record] in Hid.
  injection Hid as I1 I2 I3 I4 I5 I6 I7 I8 I9 I10 I11 I12 I13 I14.
  cbn [queued_record rr_placement_decision] in Hpl. cbn [queued_record rr_size_class_decision] in Hzd.
  split; [rewrite <- I10; unfold idempotency_key_sha256; by rewrite Hk|].
  unfold same_request. rewrite <- Hpl, <- Hzd, Hd, <- I2, <- I3, <- I4, <- I5, <- I6, <- I9, Henv, Hproj, Hgraph, Htr.
  cbn [api_trigger tg_kind tg_trigger_id tg_repair_window]. rewrite !bool_decide_true by done. cbn [andb].
  unfold size_decision in Hsz. destruct (sz_modes acc !! ep_environment plan) as [[m|]|] eqn:Em; cbn in Hsz; [|by injection Hsz as <-..].
  destruct (size_candidates_by_revision rs !! revision plan) as [c|]; [|by injection Hsz as <-].
  apply bind_ok in Hsz as (z & Hz & [= <-]). unfold new_size_decision in Hz. apply seq_ok in Hz as [_ [= <-]].
  cbn [sd_mode sd_estimate_source]. destruct (H2 _ _ Em) as [->| ->]; [done|].
  destruct (H3 _ Em) as [x Hx]. rewrite Hx. cbn [fmap option_fmap option_map is_some andb].
  assert (Some (ev_source x) <> Some "api_request") as Hne by (intros [= E]; by apply (H1 _ _ Hx)).
  by rewrite (bool_decide_false (Some (ev_source x) = _)).
Qed.
End Requests.
