(* ===== verification/LifecycleInstances.v ===== *)
(** * A lifecycle to run

    The lifecycle over the PostgreSQL store and the adopting provider of
    [Instances], with the two registered plans of [PlacementSpec]: its contract
    holds, and the theorems on the lifecycle apply to it in a world where
    connections fail. *)

From S2P Require Import Prelude Transactions Regex PyStr Sha256 PyTime Json JsonRead Identifiers Projection PhysicalPlan Graph Orchestration RunCodec RunTransition Contract Dispatch RunStorePg Instances Placement PlacementSpec RunStatus Lifecycle LifecycleSpec ReplaySpec.

Local Open Scope string_scope.
Local Open Scope Z_scope.
Local Open Scope list_scope.

#[local] Existing Instance pg_store.
#[local] Existing Instance pg_laws.

(** Reads the one cancellation this world ever records. *)
Definition sample_validate (id : string) (b : list Z) : result MutationResult :=
  let m := cancel_result true id RS_CANCELED in
  if bool_decide (b = mutation_result_bytes m) then Ok m else raise_ ValueError "validation error".

Definition sample_lifecycle : Lifecycle world :=
  {| lc_plans := two_registry; lc_backends := {["cloud_run" := adopting_provider]};
     lc_graph := fun _ _ => mret sample_record; lc_clock := fun _ => utc 5; lc_closed := fun _ => false;
     lc_stop := fun _ => false; lc_page_size := 100;
     lc_validate_mutation := sample_validate (logical_run_identity planned_submission) |}.

Lemma sample_lifecycle_ok : lifecycle_ok (HS := pg_store str_leb) (HL := pg_laws str_leb) sample_lifecycle.
Proof.
  destruct two_registry_ok as [Hreg Hin]. split.
  - exact Hreg.
  - intros p Hp. destruct (two_plans_in p (proj1 (Hin p) Hp)) as [->| ->]; reflexivity.
  - intros i b Hb. cbn [sample_lifecycle lc_backends] in Hb. apply lookup_singleton_Some in Hb as [_ <-]. apply adopting_provider_lawful.
  - intros w. vm_compute. split; discriminate.
  - intros p g w Hw. split; [exact Hw|split; [reflexivity|exact I]].
  - split; vm_compute; discriminate.
  - intros b. unfold sample_lifecycle, lc_validate_mutation, sample_validate. destruct (bool_decide _); [exact I|reflexivity].
Qed.

(** A store whose second statement fails before it is executed. *)
Definition stormy : list event := [Clear; LostBefore; Clear].

Lemma stormy_world : world_ok (fresh_world stormy) /\ view_ok (world_view (fresh_world stormy)).
Proof. apply fresh_world_ok. repeat constructor. Qed.


Lemma reconcile_stored_safe_witness :
  match reconcile_stored (HS := pg_store str_leb) sample_lifecycle claimed crashed with
  | (r, w') =>
      (world_ok w' /\ view_ok (world_view w')) /\ view_le (world_view crashed) (world_view w') /\
      match r with
      | Ok st => reconciled claimed st (world_view w')
      | Raise e => contained e = true
      end
  end.
Proof.
  exact (reconcile_stored_safe (HS := pg_store str_leb) (HL := pg_laws str_leb) sample_lifecycle sample_lifecycle_ok claimed crashed
    claimed_genuine (proj1 crashed_good) (proj2 crashed_good)).
Defined.

Lemma sweep_contained_witness :
  exists s' n w', reconcile_once (HS := pg_store str_leb) sample_lifecycle initial_scan crashed = (Ok (s', n), w') /\ 0 <= n <= 100 * 100.
Proof.
  destruct (sweep_contained (HS := pg_store str_leb) (HL := pg_laws str_leb) sample_lifecycle sample_lifecycle_ok initial_scan crashed
    (proj1 crashed_good) (proj2 crashed_good)) as (s' & n & w' & H & _ & _ & Hn & _).
  exists s', n, w'. split; [exact H|exact Hn].
Defined.

Lemma cancel_takes_effect_witness :
  match cancel (HS := pg_store str_leb) sample_lifecycle (rr_run_id (st_record claimed)) "key-00000002" crashed with
  | (r, w') =>
      (world_ok w' /\ view_ok (world_view w')) /\ view_le (world_view crashed) (world_view w') /\
      match r with
      | Ok m => mr_operation m = "cancel" /\ mr_run_id m = rr_run_id (st_record claimed) /\
                leaving (rr_run_id (st_record claimed)) (world_view w')
      | Raise e => run_error e
      end
  end.
Proof.
  exact (cancel_takes_effect (HS := pg_store str_leb) (HL := pg_laws str_leb) sample_lifecycle sample_lifecycle_ok
    (rr_run_id (st_record claimed)) "key-00000002" crashed (proj1 crashed_good) (proj2 crashed_good)).
Defined.

(** What that cancellation leaves behind: the dispatcher of [crashed] stopped
    between the provider's answer and its own save, so the run is still queued,
    is marked as canceled with its cleanup confirmed, and no pass of the
    reconciler looks at it again - while the provider runs its execution. *)
Definition orphaned (v : view) (i : string) (k : string * string) : bool :=
  match v_runs v !! i with
  | Some r => bool_decide (rr_outcome r = CANCELED) && negb (run_needs_reconciliation r) && is_some (v_executions v !! k)
  | None => false
  end.

Example cancellation_orphans_execution :
  orphaned (world_view (cancel (HS := pg_store str_leb) sample_lifecycle (rr_run_id (st_record claimed)) "key-00000002" crashed).2)
    (rr_run_id (st_record claimed)) (rr_run_id (st_record claimed), first_attempt) = true.
Proof. vm_compute. reflexivity. Qed.

Lemma sample_for_run : for_run two_registry (queued_record planned_submission) = Ok sample_plan.
Proof.
  destruct two_registry_ok as [Hreg Hin].
  assert (sample_plan ∈ plans two_registry) as Hp by (apply Hin; left).
  unfold for_run, require_revision. change (rr_plan_revision (queued_record planned_submission)) with (revision sample_plan).
  rewrite (plans_registered _ _ Hreg Hp). cbn [mbind result_bind].
  by rewrite bool_decide_true by reflexivity.
Qed.

Lemma planned_queued_value : run_value (queued_record planned_submission).
Proof. apply queued_value; [exact planned_submission_value|]. vm_compute. reflexivity. Qed.

Lemma replay_repeats_run_witness :
  exists sub, replay_submission (queued_record planned_submission) sample_plan sample_record "key-00000003" (utc 9) = Ok sub /\
    tg_replay_of_run_id (sb_trigger sub) = Some (logical_run_identity planned_submission).
Proof.
  destruct (replay_repeats_run two_registry (queued_record planned_submission) sample_plan sample_record "key-00000003" (utc 9)
    planned_queued_value sample_for_run ltac:(split; reflexivity) ltac:(split; reflexivity) ltac:(vm_compute; reflexivity) eq_refl)
    as (sub & H & _ & _ & Hr & _).
  exists sub. split; [exact H|exact Hr].
Defined.

Lemma unsized_resolved : is_ok (resolve auto_resolver sample_record "key-00000001" (utc 0) None None None) = true.
Proof. vm_compute. reflexivity. Qed.

Lemma sample_key_ok : idempotency_key "key-00000001" = true.
Proof. vm_compute. reflexivity. Qed.

Lemma auto_estimators_named : estimators_named auto_resolver.
Proof. intros e f r v H. by apply not_elem_of_nil in H. Qed.

Lemma repeated_request_found_witness :
  exists sub envs mode,
    resolve auto_resolver sample_record "key-00000001" (utc 0) None None None = Ok sub /\
    idempotency_lookup auto_resolver sample_record None = Ok (envs, mode) /\
    same_request sample_record envs mode None (queued_record sub) = true.
Proof.
  destruct (resolve auto_resolver sample_record "key-00000001" (utc 0) None None None) as [sub|e] eqn:E.
  - destruct (repeated_request_found auto_resolver auto_resolver_ok sample_record auto_estimators_named "key-00000001" (utc 0) None sub (queued_record sub)
      sample_key_ok eq_refl E (reflexivity _)) as (envs & mode & H1 & _ & _ & H2).
    exists sub, envs, mode. split; [reflexivity|]. split; [exact H1|exact H2].
  - exfalso. pose proof unsized_resolved as H. rewrite E in H. discriminate H.
Defined.
