(* ===== verification/Shutdown.v ===== *)
(** * Starting, readiness and closing of the lifecycle ([control/run_lifecycle.py])

    [ControlRunLifecycle.install_submission_source], [start_reconciler], [ready]
    and [close], with [ExecutionBackendRegistry.close].  Objects are compared by
    identity, as the code does with [id()]; every call of a foreign [start] or
    [close] is recorded in the order it is made, with its answer. *)

From S2P Require Import Prelude Lifecycle.

Local Open Scope string_scope.
Local Open Scope Z_scope.
Local Open Scope list_scope.

(** What is started and closed: submission sources and backends by object
    identity, and the store. *)
Inductive target : Type := Source (i : nat) | Backend (i : nat) | Store.
#[export] Instance target_eq_dec : EqDecision target.
Proof. solve_decision. Defined.

Inductive event : Type :=
  | Started (i : nat) (ok : bool)        (* source.start() *)
  | Closed (t : target) (ok : bool).     (* close(), and whether it returned *)
#[export] Instance event_eq_dec : EqDecision event.
Proof. solve_decision. Defined.

(** The fields that starting and closing read and write. *)
Record lifecycle : Type := {
  lf_closed : bool;                      (* _closed *)
  lf_stop : bool;                        (* _stop *)
  lf_thread : bool;                      (* _thread is not None *)
  lf_sources : list nat;                 (* _submission_sources *)
  lf_closed_sources : list nat;          (* _closed_sources *)
  lf_registry_closed : bool;             (* _backends._closed *)
  lf_closed_backends : list nat;         (* _backends._closed_backends *)
  lf_store_closed : bool;                (* _store_closed *)
  lf_cleanup_complete : bool;            (* _cleanup_complete *)
  lf_events : list event;                (* oldest first *)
}.

Definition new_lifecycle : lifecycle :=
  {| lf_closed := false; lf_stop := false; lf_thread := false; lf_sources := []; lf_closed_sources := [];
     lf_registry_closed := false; lf_closed_backends := []; lf_store_closed := false; lf_cleanup_complete := false;
     lf_events := [] |}.

Definition with_event (e : event) (s : lifecycle) : lifecycle :=
  {| lf_closed := lf_closed s; lf_stop := lf_stop s; lf_thread := lf_thread s; lf_sources := lf_sources s;
     lf_closed_sources := lf_closed_sources s; lf_registry_closed := lf_registry_closed s;
     lf_closed_backends := lf_closed_backends s; lf_store_closed := lf_store_closed s;
     lf_cleanup_complete := lf_cleanup_complete s; lf_events := lf_events s ++ [e] |}.
Definition with_sources (l : list nat) (s : lifecycle) : lifecycle :=
  {| lf_closed := lf_closed s; lf_stop := lf_stop s; lf_thread := lf_thread s; lf_sources := l;
     lf_closed_sources := lf_closed_sources s; lf_registry_closed := lf_registry_closed s;
     lf_closed_backends := lf_closed_backends s; lf_store_closed := lf_store_closed s;
     lf_cleanup_complete := lf_cleanup_complete s; lf_events := lf_events s |}.
Definition with_thread (s : lifecycle) : lifecycle :=
  {| lf_closed := lf_closed s; lf_stop := lf_stop s; lf_thread := true; lf_sources := lf_sources s;
     lf_closed_sources := lf_closed_sources s; lf_registry_closed := lf_registry_closed s;
     lf_closed_backends := lf_closed_backends s; lf_store_closed := lf_store_closed s;
     lf_cleanup_complete := lf_cleanup_complete s; lf_events := lf_events s |}.
Definition with_closing (s : lifecycle) : lifecycle :=
  {| lf_closed := true; lf_stop := true; lf_thread := lf_thread s; lf_sources := lf_sources s;
     lf_closed_sources := lf_closed_sources s; lf_registry_closed := lf_registry_closed s;
     lf_closed_backends := lf_closed_backends s; lf_store_closed := lf_store_closed s;
     lf_cleanup_complete := lf_cleanup_complete s; lf_events := lf_events s |}.
Definition with_registry_closed (b : bool) (s : lifecycle) : lifecycle :=
  {| lf_closed := lf_closed s; lf_stop := lf_stop s; lf_thread := lf_thread s; lf_sources := lf_sources s;
     lf_closed_sources := lf_closed_sources s; lf_registry_closed := b;
     lf_closed_backends := lf_closed_backends s; lf_store_closed := lf_store_closed s;
     lf_cleanup_complete := lf_cleanup_complete s; lf_events := lf_events s |}.
Definition with_cleanup_complete (s : lifecycle) : lifecycle :=
  {| lf_closed := lf_closed s; lf_stop := lf_stop s; lf_thread := lf_thread s; lf_sources := lf_sources s;
     lf_closed_sources := lf_closed_sources s; lf_registry_closed := lf_registry_closed s;
     lf_closed_backends := lf_closed_backends s; lf_store_closed := lf_store_closed s;
     lf_cleanup_complete := true; lf_events := lf_events s |}.

(** The object closed cleanly: it is remembered where the code remembers it. *)
Definition remember (t : target) (s : lifecycle) : lifecycle :=
  {| lf_closed := lf_closed s; lf_stop := lf_stop s; lf_thread := lf_thread s; lf_sources := lf_sources s;
     lf_closed_sources := match t with Source i => i :: lf_closed_sources s | _ => lf_closed_sources s end;
     lf_registry_closed := lf_registry_closed s;
     lf_closed_backends := match t with Backend i => i :: lf_closed_backends s | _ => lf_closed_backends s end;
     lf_store_closed := match t with Store => true | _ => lf_store_closed s end;
     lf_cleanup_complete := lf_cleanup_complete s; lf_events := lf_events s |}.

Section Shutdown.
(** The surroundings of one call: how foreign calls answer (the answer may
    change from call to call, hence the count of the calls made before), whether
    the reconciler thread ends within its grace, and whether the mutation lock is
    obtained. *)
Context (answer_start : nat -> nat -> result unit) (answer_close : nat -> target -> result unit).
Context (thread_stops lock_acquired : bool).

(** The backend objects of the registry, in the order of its dict; an object may
    be registered under several names. *)
Context (backends : list nat).

Definition failed_with {A} (m : string) : M lifecycle A := raiseM ControlOperationDependencyError m.

(** [x.close()], remembered if it returns. *)
Definition close_object (t : target) : M lifecycle unit := fun s =>
  match answer_close (length (lf_events s)) t with
  | Ok _ => (Ok tt, remember t (with_event (Closed t true) s))
  | Raise e => (Raise e, with_event (Closed t false) s)
  end.

(** [except C: failed = True]. *)
Definition failing (c : exn_class) (m : M lifecycle unit) : M lifecycle bool :=
  try_except (_ ← m; mret false) (fun e => if catches c e then mret true else lift (Raise e)).

Definition install_submission_source (i : nat) : M lifecycle unit := fun s =>
  if lf_closed s || lf_thread s then raiseM ValueError "Run submission sources must be installed before startup." s
  else (Ok tt, with_sources (lf_sources s ++ [i]) s).

Fixpoint start_sources (sources : list nat) : M lifecycle unit :=
  match sources with
  | [] => mret tt
  | i :: sources =>
      _ ← (fun s => match answer_start (length (lf_events s)) i with
                    | Ok _ => (Ok tt, with_event (Started i true) s)
                    | Raise e => (Raise e, with_event (Started i false) s)
                    end);
      start_sources sources
  end.

Definition start_reconciler : M lifecycle unit := fun s =>
  if lf_closed s then failed_with "The run lifecycle is closed." s
  else if lf_thread s then (Ok tt, s)
  else start_sources (lf_sources s) (with_thread s).

Fixpoint close_sources (sources : list nat) (failed : bool) : M lifecycle bool :=
  match sources with
  | [] => mret failed
  | i :: sources => fun s =>
      if bool_decide (i ∈ lf_closed_sources s) then close_sources sources failed s
      else (f ← failing Exception (close_object (Source i)); close_sources sources (failed || f)) s
  end.

(** The loop of [ExecutionBackendRegistry.close]. *)
Fixpoint close_each (l seen : list nat) (failed : bool) : M lifecycle bool :=
  match l with
  | [] => mret failed
  | i :: l => fun s =>
      if bool_decide (i ∈ seen) || bool_decide (i ∈ lf_closed_backends s) then close_each l seen failed s
      else (f ← failing ExecutionBackendError (close_object (Backend i)); close_each l (i :: seen) (failed || f)) s
  end.

Definition close_backends : M lifecycle unit := fun s =>
  if lf_registry_closed s then (Ok tt, s)
  else
    (failed ← close_each backends [] false;
     _ ← modify_state (with_registry_closed (negb failed));
     if failed : bool then raiseM ExecutionBackendError "One or more execution backends failed to close." else mret tt) s.

Definition close_store_once : M lifecycle bool := fun s =>
  if lf_store_closed s then (Ok false, s) else failing RunStoreError (close_object Store) s.

Definition close_lifecycle : M lifecycle unit := fun s =>
  if lf_cleanup_complete s then (Ok tt, s)
  else
    (_ ← modify_state with_closing;
     source_failed ← close_sources (lf_sources s) false;
     if lf_thread s && negb thread_stops
     then failed_with "The Control reconciler did not stop within its shutdown grace period."
     else if source_failed : bool then failed_with "The Control submission sources could not close cleanly."
     else if negb lock_acquired
     then failed_with "The active Control mutation did not stop within its shutdown grace period."
     else
       backends_failed ← failing ExecutionBackendError close_backends;
       store_failed ← close_store_once;
       if backends_failed || store_failed : bool then failed_with "The Control lifecycle could not close cleanly."
       else modify_state with_cleanup_complete) s.
End Shutdown.

(** [ready]: [alive] and [sources_ready] are the answers of the thread and of the
    sources. *)
Definition ready (s : lifecycle) (sn : scan) (alive : bool) (sources_ready : nat -> bool) : bool :=
  negb (lf_closed s) && lf_thread s && alive && sn_initial_recovery_complete sn && negb (sn_last_pass_failed sn)
  && forallb sources_ready (lf_sources s).
