(* ===== verification/ShutdownSpec.v ===== *)
(** * An orderly shutdown

    Over any sequence of installations, starts and closing attempts, with any
    answers of the foreign objects: nothing that closed cleanly is closed again,
    the backends and the store are closed only after every source, and a closing
    attempt in which everything answers completes. *)

From S2P Require Import Prelude Lifecycle Shutdown.

Local Open Scope string_scope.
Local Open Scope Z_scope.
Local Open Scope list_scope.

#[local] Arguments catches : simpl never.

(** ** Traces *)

(** May [e] come after the calls [l]? *)
Definition allowed_after (sources : list nat) (l : list event) (e : event) : Prop :=
  match e with
  | Started _ _ => forall t b, ~ (Closed t b ∈ l)
  | Closed (Source i) _ => Closed (Source i) true ∉ l
  | Closed t _ => (Closed t true ∉ l) /\ forall i, i ∈ sources -> Closed (Source i) true ∈ l
  end.

Definition orderly (sources : list nat) (l : list event) : Prop :=
  forall l1 e l2, l = l1 ++ e :: l2 -> allowed_after sources l1 e.

Lemma orderly_nil sources : orderly sources [].
Proof. intros l1 e l2 H. by destruct l1. Qed.

Lemma orderly_snoc sources l e : orderly sources l -> allowed_after sources l e -> orderly sources (l ++ [e]).
Proof.
  intros H He l1 e' l2 E. destruct l2 as [|x l2 _] using rev_ind.
  - apply app_inj_tail in E as [<- <-]. exact He.
  - rewrite app_comm_cons, app_assoc in E. apply app_inj_tail in E as [-> _]. by eapply H.
Qed.

(** Without a closing call the sources do not matter. *)
Lemma orderly_sources sources sources' l :
  (forall t b, Closed t b ∉ l) -> orderly sources l -> orderly sources' l.
Proof.
  intros Hn H l1 e l2 E. specialize (H l1 e l2 E). destruct e as [i b|t b]; [exact H|].
  destruct (Hn t b). rewrite E. apply elem_of_app. right. left.
Qed.

Section ShutdownSpec.
Context (backends : list nat).

Definition remembered (t : target) (s : lifecycle) : Prop :=
  match t with
  | Source i => i ∈ lf_closed_sources s
  | Backend i => i ∈ lf_closed_backends s
  | Store => lf_store_closed s = true
  end.
#[export] Instance remembered_dec t s : Decision (remembered t s).
Proof. destruct t; cbn; apply _. Defined.

Definition owned (t : target) (s : lifecycle) : Prop :=
  match t with Source i => i ∈ lf_sources s | Backend i => i ∈ backends | Store => True end.

Record lifecycle_inv (s : lifecycle) : Prop := {
  li_trace : orderly (lf_sources s) (lf_events s);
  li_memory t : remembered t s <-> Closed t true ∈ lf_events s;
  li_begun t b : Closed t b ∈ lf_events s -> lf_closed s = true;
  li_registry i : lf_registry_closed s = true -> i ∈ backends -> remembered (Backend i) s;
  li_complete t : lf_cleanup_complete s = true -> owned t s -> remembered t s;
  li_complete_closed : lf_cleanup_complete s = true -> lf_closed s = true;
}.

(** What closing calls leave alone. *)
Record kept (s s' : lifecycle) : Prop := {
  kp_sources : lf_sources s' = lf_sources s;
  kp_closed : lf_closed s' = lf_closed s;
  kp_thread : lf_thread s' = lf_thread s;
  kp_complete : lf_cleanup_complete s' = lf_cleanup_complete s;
  kp_remembered t : remembered t s -> remembered t s';
}.
#[export] Instance kept_preorder : PreOrder kept.
Proof. split; [by intros s; split|]. intros s1 s2 s3 [] []. split; [congruence..|auto]. Qed.

Lemma new_lifecycle_inv : lifecycle_inv new_lifecycle.
Proof.
  split; try done.
  - apply orderly_nil.
  - intros t. rewrite elem_of_nil. destruct t; cbn; rewrite ?elem_of_nil; split; done.
  - intros t b H. by apply elem_of_nil in H.
Qed.

(** A program that runs once closing has begun. *)
Definition closes {A} (P : lifecycle -> Prop) (m : M lifecycle A) (Q : result A -> lifecycle -> Prop) : Prop :=
  forall s, lifecycle_inv s -> lf_closed s = true -> P s ->
  match m s with (r, s') => lifecycle_inv s' /\ kept s s' /\ Q r s' end.

(** ** One call *)

Section Attempt.
Context (answer_close : nat -> target -> result unit).

Definition may_close (t : target) (s : lifecycle) : Prop :=
  match t with Source _ => True | _ => forall i, i ∈ lf_sources s -> remembered (Source i) s end.

Lemma close_object_closes t :
  closes (fun s => ~ remembered t s /\ may_close t s) (close_object answer_close t)
    (fun r s' => match r with Ok _ => remembered t s' | Raise e => exists n, answer_close n t = Raise e end).
Proof.
  intros s [Ht Hm Hb Hr Hc Hcc] Hcl [Hn Hmay]. unfold close_object.
  assert (forall b, allowed_after (lf_sources s) (lf_events s) (Closed t b)) as Hal.
  { intros b. destruct t as [i|i|]; cbn; [by rewrite <- Hm|..]; (split; [by rewrite <- Hm|]);
      intros j Hj; apply Hm; by apply Hmay. }
  destruct (answer_close (length (lf_events s)) t) as [u|e] eqn:E.
  - assert (forall t', remembered t' (remember t (with_event (Closed t true) s)) <-> t' = t \/ remembered t' s) as Hrem.
    { intros t'. destruct t as [i|i|], t' as [j|j|]; cbn; rewrite ?elem_of_cons; naive_solver. }
    split; [|split].
    + split.
      * by apply orderly_snoc.
      * intros t'. rewrite Hrem. cbn [remember with_event lf_events]. rewrite elem_of_app, list_elem_of_singleton, Hm. naive_solver.
      * intros t' b. cbn. intros _. exact Hcl.
      * intros i Hi Hin. apply Hrem. right. by apply Hr.
      * intros t' Hx Hown. apply Hrem. right. apply Hc; [done|]. by destruct t'.
      * exact Hcc.
    + split; try done. intros t' Ht'. apply Hrem. by right.
    + apply Hrem. by left.
  - split; [|split; [by split|by exists (length (lf_events s))]]. split; try done.
    + by apply orderly_snoc.
    + intros t'. cbn [with_event lf_events]. rewrite elem_of_app, list_elem_of_singleton.
      change (remembered t' (with_event (Closed t false) s)) with (remembered t' s). rewrite Hm. naive_solver.
Qed.

Lemma catches_everything e : catches Exception e = true.
Proof. unfold catches. by destruct (exn_cls e). Qed.

(** [except C] around it: a caught error is only a flag. *)
Lemma failing_closes c t :
  closes (fun s => ~ remembered t s /\ may_close t s) (failing c (close_object answer_close t))
    (fun r s' => match r with
                 | Ok false => remembered t s'
                 | Ok true => exists n e, answer_close n t = Raise e /\ catches c e = true
                 | Raise e => (exists n, answer_close n t = Raise e) /\ catches c e = false
                 end).
Proof.
  intros s Hs Hc HP. pose proof (close_object_closes t s Hs Hc HP) as H. unfold failing, try_except, mbind, M_bind.
  destruct (close_object answer_close t s) as [[u|e] s']; [exact H|]. destruct H as (H1 & H2 & n & H3).
  destruct (catches c e) eqn:E; (split; [done|split; [done|]]); [by exists n, e|]. split; [by exists n|done].
Qed.

(** ** The loops *)

(** Every object answers: the call cannot fail. *)
Definition all_answer : Prop := forall n t, is_ok (answer_close n t) = true.

Lemma not_answering n t e : answer_close n t = Raise e -> ~ all_answer.
Proof. intros H Ha. specialize (Ha n t). by rewrite H in Ha. Qed.

Lemma close_sources_closes l failed :
  closes (fun _ => True) (close_sources answer_close l failed)
    (fun r s' => match r with
                 | Ok f => (f = false -> failed = false /\ forall i, i ∈ l -> remembered (Source i) s') /\
                           (all_answer -> f = failed)
                 | Raise _ => False
                 end).
Proof.
  revert failed. induction l as [|i l IH]; intros failed s Hs Hc _; cbn [close_sources].
  { split; [done|split; [reflexivity|]]. split; [|done]. intros Hf. split; [done|]. intros i Hi. by apply elem_of_nil in Hi. }
  destruct (bool_decide (i ∈ lf_closed_sources s)) eqn:E.
  - apply bool_decide_eq_true in E. specialize (IH failed s Hs Hc I).
    destruct (close_sources answer_close l failed s) as [[f|e] s']; destruct IH as (H1 & H2 & H3); [|done].
    split; [done|split; [done|]]. destruct H3 as [H3 H4]. split; [|done]. intros Hf. destruct (H3 Hf) as [Hff Hl]. split; [done|].
    intros j [->|Hj]%elem_of_cons; [|by apply Hl]. by apply (kp_remembered _ _ H2 (Source i)).
  - apply bool_decide_eq_false in E.
    pose proof (failing_closes Exception (Source i) s Hs Hc (conj E I)) as H. unfold mbind, M_bind.
    destruct (failing Exception (close_object answer_close (Source i)) s) as [[f|e] s1]; destruct H as (H1 & H2 & H3).
    2: { destruct H3 as [_ H3]. by rewrite catches_everything in H3. }
    specialize (IH (failed || f) s1 H1 ltac:(by rewrite (kp_closed _ _ H2)) I).
    destruct (close_sources answer_close l (failed || f) s1) as [[f'|e] s']; destruct IH as (G1 & G2 & G3); [|done].
    split; [done|split; [by etrans|]]. destruct G3 as [G3 G4]. split.
    + intros Hf. destruct (G3 Hf) as [Hff Hl]. apply orb_false_iff in Hff as [Hff ->]. split; [done|].
      intros j [->|Hj]%elem_of_cons; [|by apply Hl]. by apply (kp_remembered _ _ G2 (Source i)).
    + intros Ha. rewrite (G4 Ha). destruct f; [|by rewrite orb_false_r]. destruct H3 as (n & e & H3 & _). by destruct (not_answering _ _ _ H3 Ha).
Qed.

Definition sources_closed (s : lifecycle) : Prop := forall i, i ∈ lf_sources s -> remembered (Source i) s.

Lemma sources_closed_kept s s' : kept s s' -> sources_closed s -> sources_closed s'.
Proof. intros [E _ _ _ R] H i Hi. apply R, H. by rewrite <- E. Qed.

Lemma close_each_closes l seen failed :
  closes (fun s => sources_closed s /\ forall i, i ∈ seen -> remembered (Backend i) s \/ failed = true)
    (close_each answer_close l seen failed)
    (fun r s' => match r with
                 | Ok f => (f = false -> failed = false /\ forall i, i ∈ l -> remembered (Backend i) s') /\
                           (all_answer -> f = failed)
                 | Raise e => exists n t, answer_close n t = Raise e
                 end).
Proof.
  revert seen failed. induction l as [|i l IH]; intros seen failed s Hs Hc [Hsrc Hseen]; cbn [close_each].
  { split; [done|split; [reflexivity|]]. split; [|done]. intros Hf. split; [done|]. intros i Hi. by apply elem_of_nil in Hi. }
  destruct (bool_decide (i ∈ seen) || bool_decide (i ∈ lf_closed_backends s)) eqn:E.
  - specialize (IH seen failed s Hs Hc (conj Hsrc Hseen)).
    destruct (close_each answer_close l seen failed s) as [[f|e] s']; destruct IH as (H1 & H2 & H3); split_and!; try done.
    + intros Hf. destruct (proj1 H3 Hf) as [Hff Hl]. split; [done|].
      intros j [->|Hj]%elem_of_cons; [|by apply Hl]. apply (kp_remembered _ _ H2 (Backend i)).
      apply orb_true_iff in E as [E%bool_decide_eq_true|E%bool_decide_eq_true]; [|done].
      destruct (Hseen i E) as [Hr|Hr]; [done|congruence].
    + apply H3.
  - apply orb_false_iff in E as [_ E%bool_decide_eq_false].
    pose proof (failing_closes ExecutionBackendError (Backend i) s Hs Hc (conj E Hsrc)) as H. unfold mbind, M_bind.
    destruct (failing ExecutionBackendError (close_object answer_close (Backend i)) s) as [[f|e] s1]; destruct H as (H1 & H2 & H3).
    2: { split; [done|split; [done|]]. destruct H3 as [[n H3] _]. by exists n, (Backend i). }
    specialize (IH (i :: seen) (failed || f) s1 H1 ltac:(by rewrite (kp_closed _ _ H2))).
    assert (sources_closed s1 /\ forall j, j ∈ i :: seen -> remembered (Backend j) s1 \/ failed || f = true) as Hpre.
    { split; [by eapply sources_closed_kept|]. intros j [->|Hj]%elem_of_cons.
      - destruct f; [right; by rewrite orb_true_r|left; exact H3].
      - destruct (Hseen j Hj) as [Hr|Hr]; [left; by apply (kp_remembered _ _ H2 (Backend j))|right; by rewrite Hr]. }
    specialize (IH Hpre).
    destruct (close_each answer_close l (i :: seen) (failed || f) s1) as [[f'|e] s']; destruct IH as (G1 & G2 & G3);
      (split; [done|split; [by etrans|]]); [|exact G3]. destruct G3 as [G3 G4]. split.
    + intros Hf. destruct (G3 Hf) as [Hff Hl]. apply orb_false_iff in Hff as [Hff ->]. split; [done|].
      intros j [->|Hj]%elem_of_cons; [|by apply Hl]. by apply (kp_remembered _ _ G2 (Backend i)).
    + intros Ha. rewrite (G4 Ha). destruct f; [|by rewrite orb_false_r]. destruct H3 as (n & e & H3 & _). by destruct (not_answering _ _ _ H3 Ha).
Qed.

(** ** The registry, the store, the whole attempt *)

Lemma with_registry_inv b s :
  (b = true -> forall i, i ∈ backends -> remembered (Backend i) s) ->
  lifecycle_inv s -> lifecycle_inv (with_registry_closed b s).
Proof. intros Hb [H1 H2 H3 H4 H5 H6]. split; try done. intros i Hi Hin. by apply (Hb Hi). Qed.

Lemma close_backends_closes :
  closes sources_closed (failing ExecutionBackendError (close_backends answer_close backends))
    (fun r s' => match r with
                 | Ok f => (f = false -> forall i, i ∈ backends -> remembered (Backend i) s') /\ (all_answer -> f = false)
                 | Raise e => exists n t, answer_close n t = Raise e
                 end).
Proof.
  intros s Hs Hc Hsrc. unfold failing, close_backends, try_except, mbind, M_bind.
  destruct (lf_registry_closed s) eqn:E.
  { split; [done|split; [reflexivity|]]. split; [|done]. intros _ i Hi. by apply (li_registry _ Hs). }
  pose proof (close_each_closes backends [] false s Hs Hc) as H.
  destruct (close_each answer_close backends [] false s) as [[f|e] s1].
  - destruct H as (H1 & H2 & H3 & H4); [split; [done|intros i Hi; by apply elem_of_nil in Hi]|].
    assert (kept s (with_registry_closed (negb f) s1)) as Hk by (etrans; [exact H2|by split]).
    assert (lifecycle_inv (with_registry_closed (negb f) s1)) as Hi.
    { apply with_registry_inv; [|done]. intros Hf%negb_true_iff. by apply H3. }
    destruct f; cbn.
    + change (catches ExecutionBackendError _) with true. cbn. split; [done|split; [done|]]. split; [done|]. intros Ha. by apply H4.
    + split; [done|split; [done|]]. split; [|done]. intros _ i Hin. by apply H3.
  - destruct H as (H1 & H2 & n & t & H3); [split; [done|intros i Hi; by apply elem_of_nil in Hi]|].
    destruct (catches ExecutionBackendError e); (split; [done|split; [done|]]); [|by exists n, t].
    split; [done|]. intros Ha. by destruct (not_answering _ _ _ H3 Ha).
Qed.

Lemma close_store_closes :
  closes sources_closed (close_store_once answer_close)
    (fun r s' => match r with
                 | Ok f => (f = false -> remembered Store s') /\ (all_answer -> f = false)
                 | Raise e => exists n t, answer_close n t = Raise e
                 end).
Proof.
  intros s Hs Hc Hsrc. unfold close_store_once. destruct (lf_store_closed s) eqn:E.
  { split; [done|split; [reflexivity|]]. by split. }
  pose proof (failing_closes RunStoreError Store s Hs Hc) as H.
  destruct (failing RunStoreError (close_object answer_close Store) s) as [[f|e] s'].
  - destruct H as (H1 & H2 & H3); [split; [by cbn; rewrite E|done]|]. split; [done|split; [done|]]. destruct f.
    + split; [done|]. intros Ha. destruct H3 as (n & e & H3 & _). by destruct (not_answering _ _ _ H3 Ha).
    + by split.
  - destruct H as (H1 & H2 & [n H3] & _); [split; [by cbn; rewrite E|done]|]. split; [done|split; [done|]]. by exists n, Store.
Qed.

Lemma with_closing_inv s : lifecycle_inv s -> lifecycle_inv (with_closing s).
Proof. intros [H1 H2 H3 H4 H5 H6]. by split. Qed.

Definition refused (e : exn) : Prop :=
  catches ControlOperationDependencyError e = true \/ exists n t, answer_close n t = Raise e.

Lemma close_lifecycle_spec thread_stops lock_acquired s :
  lifecycle_inv s ->
  match close_lifecycle answer_close thread_stops lock_acquired backends s with
  | (r, s') =>
      lifecycle_inv s' /\ lf_sources s' = lf_sources s /\ lf_closed s' = true /\
      match r with Ok _ => lf_cleanup_complete s' = true | Raise e => refused e /\ lf_cleanup_complete s' = false end /\
      (all_answer -> thread_stops = true -> lock_acquired = true -> is_ok r = true)
  end.
Proof.
  intros Hs. unfold close_lifecycle. destruct (lf_cleanup_complete s) eqn:Ec.
  { split_and!; try done. by apply (li_complete_closed _ Hs). }
  set (s0 := with_closing s). pose proof (with_closing_inv s Hs) as H0. fold s0 in H0.
  unfold mbind at 1, M_bind at 1, modify_state. fold s0.
  pose proof (close_sources_closes (lf_sources s) false s0 H0 eq_refl I) as H.
  unfold mbind at 1, M_bind at 1.
  destruct (close_sources answer_close (lf_sources s) false s0) as [[source_failed|e] s1]; destruct H as (H1 & K1 & H2); [|done].
  destruct H2 as [H2 H3].
  assert (lf_sources s1 = lf_sources s) as Es by apply K1. assert (lf_closed s1 = true) as Ecl by apply K1.
  assert (lf_cleanup_complete s1 = false) as Ecc by (rewrite (kp_complete _ _ K1); exact Ec).
  destruct (lf_thread s && negb thread_stops) eqn:Et.
  { split_and!; try done; [split; [by left|done]|]. intros _ -> _. by rewrite andb_false_r in Et. }
  destruct source_failed.
  { split_and!; try done; [split; [by left|done]|]. intros Ha. by specialize (H3 Ha). }
  destruct (negb lock_acquired) eqn:El.
  { split_and!; try done; [split; [by left|done]|]. by intros _ _ ->. }
  destruct (H2 eq_refl) as [_ Hsrc]. rewrite <- Es in Hsrc.
  pose proof (close_backends_closes s1 H1 Ecl Hsrc) as H. unfold mbind at 1, M_bind at 1.
  destruct (failing ExecutionBackendError (close_backends answer_close backends) s1) as [[bf|e] s2]; destruct H as (H4 & K2 & H5).
  2: { assert (lf_sources s2 = lf_sources s) by (rewrite (kp_sources _ _ K2); done). assert (lf_closed s2 = true) by (rewrite (kp_closed _ _ K2); done).
       split_and!; try done; [by right|by rewrite (kp_complete _ _ K2)|]. intros Ha. destruct H5 as (n & t & H5). by destruct (not_answering _ _ _ H5 Ha). }
  pose proof (close_store_closes s2 H4 ltac:(by rewrite (kp_closed _ _ K2)) (sources_closed_kept _ _ K2 Hsrc)) as H.
  unfold mbind at 1, M_bind at 1.
  destruct (close_store_once answer_close s2) as [[sf|e] s3]; destruct H as (H6 & K3 & H7); pose proof (transitivity K2 K3) as K;
    (assert (lf_sources s3 = lf_sources s) by (rewrite (kp_sources _ _ K); done)); (assert (lf_closed s3 = true) by (rewrite (kp_closed _ _ K); done));
    (assert (lf_cleanup_complete s3 = false) by (rewrite (kp_complete _ _ K); done)).
  2: { split_and!; try done; [by right|]. intros Ha. destruct H7 as (n & t & H7). by destruct (not_answering _ _ _ H7 Ha). }
  destruct (bf || sf) eqn:Ef.
  { split_and!; try done; [split; [by left|done]|]. intros Ha. by rewrite (proj2 H5 Ha), (proj2 H7 Ha) in Ef. }
  apply orb_false_iff in Ef as [-> ->]. cbn [is_ok modify_state]. split_and!; try done.
  destruct H6 as [I1 I2 I3 I4 I5 I6]. split; try done. intros [i|i|] _ Hown.
  - apply (kp_remembered _ _ K (Source i)), Hsrc. rewrite Es. cbn in Hown. by rewrite <- H.
  - apply (kp_remembered _ _ K3 (Backend i)). by apply (proj1 H5).
  - by apply H7.
Qed.
End Attempt.

(** ** Histories *)

Inductive step (s : lifecycle) : lifecycle -> Prop :=
  | step_install i : step s (install_submission_source i s).2
  | step_start answer_start : step s (start_reconciler answer_start s).2
  | step_close answer_close thread_stops lock_acquired :
      step s (close_lifecycle answer_close thread_stops lock_acquired backends s).2.

Definition reachable_lifecycle (s : lifecycle) : Prop := rtc step new_lifecycle s.

Lemma not_begun s : lifecycle_inv s -> lf_closed s = false -> forall t b, Closed t b ∉ lf_events s.
Proof. intros Hs Hc t b Hin. by rewrite (li_begun _ Hs _ _ Hin) in Hc. Qed.

Lemma install_inv s i : lifecycle_inv s -> lifecycle_inv (install_submission_source i s).2.
Proof.
  intros Hs. unfold install_submission_source. destruct (lf_closed s) eqn:Ec; [done|]. destruct (lf_thread s); [done|].
  cbn [orb snd]. pose proof (not_begun s Hs Ec) as Hn. destruct Hs as [H1 H2 H3 H4 H5 H6].
  split; try done.
  - by apply (orderly_sources (lf_sources s)).
  - intros t Hx. by rewrite (H6 Hx) in Ec.
Qed.

Lemma start_sources_inv answer_start l : forall s, lifecycle_inv s -> lf_closed s = false ->
  lifecycle_inv (start_sources answer_start l s).2.
Proof.
  induction l as [|i l IH]; intros s Hs Hc; cbn [start_sources]; [done|].
  assert (forall b, lifecycle_inv (with_event (Started i b) s)) as He.
  { intros b. pose proof (not_begun s Hs Hc) as Hn. destruct Hs as [H1 H2 H3 H4 H5 H6]. split; try done.
    - by apply orderly_snoc.
    - intros t. cbn [with_event lf_events]. rewrite elem_of_app, list_elem_of_singleton.
      change (remembered t (with_event (Started i b) s)) with (remembered t s). rewrite H2. naive_solver.
    - intros t b'. cbn [with_event lf_events]. rewrite elem_of_app, list_elem_of_singleton. intros [Hin|[=]]. by apply (H3 t b'). }
  unfold mbind, M_bind. destruct (answer_start (length (lf_events s)) i) as [u|e]; [|apply He]. by apply IH.
Qed.

Lemma step_inv s s' : lifecycle_inv s -> step s s' -> lifecycle_inv s'.
Proof.
  intros Hs [i|answer_start|answer_close thread_stops lock_acquired].
  - by apply install_inv.
  - unfold start_reconciler. destruct (lf_closed s) eqn:Ec; [done|]. destruct (lf_thread s); [done|].
    apply start_sources_inv; [|done]. destruct Hs. by split.
  - pose proof (close_lifecycle_spec answer_close thread_stops lock_acquired s Hs) as H.
    destruct (close_lifecycle answer_close thread_stops lock_acquired backends s) as [r s1]. apply H.
Qed.

Lemma reachable_inv s : reachable_lifecycle s -> lifecycle_inv s.
Proof.
  unfold reachable_lifecycle. generalize new_lifecycle_inv. generalize new_lifecycle.
  intros s0 H0 H. induction H as [|s0 s1 s2 H1 _ IH]; [done|]. apply IH. by eapply step_inv.
Qed.

(** A clean close happens once. *)
Lemma clean_once sources l t : orderly sources l -> (length (filter (fun e => e = Closed t true) l) <= 1)%nat.
Proof.
  induction l as [|e l IH] using rev_ind; intros Ho; [cbn; lia|]. rewrite filter_app, length_app.
  assert (orderly sources l) as Hl.
  { intros l1 e' l2 E. apply (Ho l1 e' (l2 ++ [e])). by rewrite E, <- app_assoc. }
  rewrite filter_cons, filter_nil. destruct (decide (e = Closed t true)) as [->|Hne]; cbn [length]; [|specialize (IH Hl); lia].
  assert (Closed t true ∉ l) as Hn.
  { specialize (Ho l (Closed t true) [] eq_refl). destruct t; cbn in Ho; [exact Ho|apply Ho|apply Ho]. }
  rewrite filter_forall_nil; [cbn; lia|]. apply Forall_forall. intros x Hx ->. done.
Qed.

(** C22: a shutdown is orderly. In every history of installations, starts and
    closing attempts, whatever the foreign objects answer: no source is started
    once anything was asked to close, nothing that closed cleanly is closed
    again, the backends and the store are asked to close only after every source
    has closed cleanly, the cleanup counts as complete only when every source,
    backend and the store have closed, and a lifecycle that began to close is
    never ready. *)
Theorem shutdown_orderly s (Hs : reachable_lifecycle s) :
  (forall l1 e l2, lf_events s = l1 ++ e :: l2 -> allowed_after (lf_sources s) l1 e) /\
  (lf_cleanup_complete s = true -> forall t, owned t s -> Closed t true ∈ lf_events s) /\
  (forall t b, Closed t b ∈ lf_events s -> forall sn alive sources_ready, ready s sn alive sources_ready = false).
Proof.
  pose proof (reachable_inv s Hs) as Hi. split; [exact (li_trace _ Hi)|split].
  - intros Hc t Ht. apply (li_memory _ Hi). by apply (li_complete _ Hi).
  - intros t b Hin sn alive sources_ready. unfold ready. by rewrite (li_begun _ Hi _ _ Hin).
Qed.

(** C23: closing completes. After any history, an attempt in which every object
    answers, the reconciler stops and the mutation lock is obtained returns, and
    then every source, every backend and the store have closed cleanly exactly
    once over the whole history; closing again changes nothing. An attempt that
    does not complete raises a dependency error or the error of a foreign
    object, and the lifecycle stays closed to requests. *)
Theorem close_completes s answer_close thread_stops lock_acquired (Hs : reachable_lifecycle s) :
  match close_lifecycle answer_close thread_stops lock_acquired backends s with
  | (r, s') =>
      lf_closed s' = true /\
      (all_answer answer_close -> thread_stops = true -> lock_acquired = true -> r = Ok tt) /\
      match r with
      | Ok _ =>
          (forall t, owned t s -> length (filter (fun e => e = Closed t true) (lf_events s')) = 1%nat) /\
          forall answers stops lock, close_lifecycle answers stops lock backends s' = (Ok tt, s')
      | Raise e => refused answer_close e
      end
  end.
Proof.
  pose proof (close_lifecycle_spec answer_close thread_stops lock_acquired s (reachable_inv s Hs)) as H.
  destruct (close_lifecycle answer_close thread_stops lock_acquired backends s) as [r s']. destruct H as (Hi & Hsrc & Hc & Hr & Hl).
  split; [done|split]; [|destruct r as [u|e]; [|apply Hr]].
  - intros Ha Ht Hk. specialize (Hl Ha Ht Hk). destruct r as [[]|e]; [done|discriminate Hl].
  - split.
    + intros t Ht. apply Nat.le_antisymm; [by eapply clean_once, (li_trace _ Hi)|].
      assert (owned t s') as Ht' by (destruct t; cbn in *; by rewrite ?Hsrc).
      pose proof (proj1 (li_memory _ Hi t) (li_complete _ Hi t Hr Ht')) as Hin.
      assert (Closed t true ∈ filter (fun e => e = Closed t true) (lf_events s')) as Hf by by apply list_elem_of_filter.
      destruct (filter _ _); [by apply elem_of_nil in Hf|cbn; lia].
    + intros answers stops lock. unfold close_lifecycle. by rewrite Hr.
Qed.
End ShutdownSpec.

(** ** A history: a source that fails to close first *)

Definition first_answers (n : nat) (t : target) : result unit :=
  if (n <? 2)%nat then raise_ RuntimeError "" else Ok tt.

Definition two_attempts : lifecycle :=
  let s := (install_submission_source 7 new_lifecycle).2 in
  let s := (start_reconciler (fun _ _ => Ok tt) s).2 in
  (close_lifecycle first_answers true true [3; 4; 3]%nat s).2.

Lemma two_attempts_reachable : reachable_lifecycle [3; 4; 3]%nat two_attempts.
Proof.
  eapply rtc_l; [apply (step_install _ _ 7%nat)|].
  eapply rtc_l; [apply (step_start _ _ (fun _ _ => Ok tt))|]. apply rtc_once, step_close.
Qed.

Lemma shutdown_orderly_witness :
  lf_events two_attempts = [Started 7 true; Closed (Source 7) false] /\
  forall sn alive sources_ready, ready two_attempts sn alive sources_ready = false.
Proof.
  split; [vm_compute; reflexivity|].
  refine (proj2 (proj2 (shutdown_orderly [3; 4; 3]%nat two_attempts two_attempts_reachable)) (Source 7) false _).
  vm_compute. right. left.
Defined.

Lemma close_completes_witness :
  match close_lifecycle first_answers true true [3; 4; 3]%nat two_attempts with
  | (r, s') =>
      r = Ok tt /\ lf_events s' = [Started 7 true; Closed (Source 7) false; Closed (Source 7) true;
                                   Closed (Backend 3) true; Closed (Backend 4) true; Closed Store true] /\
      forall answers stops lock, close_lifecycle answers stops lock [3; 4; 3]%nat s' = (Ok tt, s')
  end.
Proof.
  pose proof (close_completes [3; 4; 3]%nat two_attempts first_answers true true two_attempts_reachable) as H.
  destruct (close_lifecycle first_answers true true [3; 4; 3]%nat two_attempts) as [r s'] eqn:E.
  assert ((close_lifecycle first_answers true true [3; 4; 3]%nat two_attempts).1 = Ok tt /\
          lf_events (close_lifecycle first_answers true true [3; 4; 3]%nat two_attempts).2 =
            [Started 7 true; Closed (Source 7) false; Closed (Source 7) true; Closed (Backend 3) true; Closed (Backend 4) true; Closed Store true])
    as [Hr He] by (split; vm_compute; reflexivity).
  rewrite E in Hr, He. cbn [fst snd] in Hr, He. rewrite Hr in H. destruct H as (_ & _ & _ & H). split; [exact Hr|split; [exact He|exact H]].
Defined.
