(* ===== verification/SchedulePort.v ===== *)
(** * The schedule queue boundary ([control/schedule_consumer.py])

    The messages and operations the consumer sees of any queue, and what a queue
    promises about the durable view of [Contract]: a receipt keeps standing for
    the message it was issued for, and only messages whose occurrence has its run
    are acknowledged. *)

From S2P Require Import Prelude Regex PyStr Sha256 PyTime Json JsonRead Identifiers Projection PhysicalPlan Graph Orchestration RunCodec RunTransition Contract.

Local Open Scope string_scope.
Local Open Scope Z_scope.
Local Open Scope list_scope.

Abbreviation QueueErr := ScheduleQueueError.
Definition queue_reject (b : bool) (m : string) : result unit := reject_if b QueueErr m.

(** ** Messages *)

Record QueuedScheduleMessage : Type := {
  qm_receipt_handle : string;
  qm_body : list Z;
}.
#[export] Instance QueuedScheduleMessage_eq_dec : EqDecision QueuedScheduleMessage.
Proof. solve_decision. Defined.

Definition MAX_MESSAGE_BYTES : Z := 256 * 1024.
Definition QueuedScheduleMessage_post_init (m : QueuedScheduleMessage) : result unit :=
  _ ← queue_reject (empty (qm_receipt_handle m) || (4096 <? py_len (qm_receipt_handle m))) "Schedule queue receipt is invalid.";
  queue_reject (bool_decide (qm_body m = []) || (MAX_MESSAGE_BYTES <? Z.of_nat (length (qm_body m))))
    "Schedule queue message size is invalid.".

(** ** Operations and promises *)

Class ScheduleQueuePort (W : Type) : Type := {
  receive_messages : M W (list QueuedScheduleMessage);
  delete_message : string -> M W unit;
  close_port : M W unit;
}.

Definition queue_error (e : exn) : Prop := catches QueueErr e = true.

(** Other consumers, the producer and the control of the leases may act at any
    time: the laws speak of what stays true. *)
Class QueueLaws (W : Type) {HS : RunStore W} {HL : StoreLaws W} {HQ : ScheduleQueuePort W} : Type := {
  receive_law w :
    keeps inv view_of w receive_messages
      (fun ms w' => forall m, m ∈ ms -> v_deliveries (view_of w') !! qm_receipt_handle m = Some (qm_body m)) queue_error;
  delete_law w h b :
    v_deliveries (view_of w) !! h = Some b -> handed_over (view_of w) b ->
    keeps inv view_of w (delete_message h) (fun _ w' => b ∈ v_acknowledged (view_of w')) queue_error;
  close_port_law w : keeps inv view_of w close_port (fun _ _ => True) queue_error;
}.
