(* ===== verification/Cron.v ===== *)
(** * Cron schedules ([control/schedule_expression.py])

    Parsing of five-field expressions, the day-of-month/day-of-week rule, and
    the bounded scan for the occurrences of a schedule in a half-open interval
    of UTC minutes. *)

From S2P Require Import Prelude Regex PyStr PyTime.

Local Open Scope string_scope.
Local Open Scope Z_scope.
Local Open Scope list_scope.

Definition INTEGER : re := plus (Cls digit).
Definition MAX_EXPRESSION_LENGTH : Z := 256.

Record CronField : Type := {
  cf_values : gset Z;
  cf_unrestricted : bool;
}.
Record FiveFieldCron : Type := {
  fc_expression : string;
  fc_minute : CronField;
  fc_hour : CronField;
  fc_day_of_month : CronField;
  fc_month : CronField;
  fc_day_of_week : CronField;
}.

Abbreviation SchedErr := ScheduleExpressionError.
Definition schedule_reject (b : bool) (m : string) : result unit := reject_if b SchedErr m.

(** ** Matching one local minute *)

Definition FiveFieldCron_matches (schedule : FiveFieldCron) (local : datetime) : result bool :=
  _ ← schedule_reject (is_naive local) "Cron matching requires an aware local timestamp.";
  let cron_weekday := (dt_weekday local + 1) mod 7 in
  let minute_hour_month :=
    bool_decide (dt_minute local ∈ cf_values (fc_minute schedule))
    && bool_decide (dt_hour local ∈ cf_values (fc_hour schedule))
    && bool_decide (dt_month local ∈ cf_values (fc_month schedule)) in
  if negb minute_hour_month then Ok false
  else
    let month_day_matches := bool_decide (dt_day local ∈ cf_values (fc_day_of_month schedule)) in
    let week_day_matches := bool_decide (cron_weekday ∈ cf_values (fc_day_of_week schedule)) in
    if cf_unrestricted (fc_day_of_month schedule) && cf_unrestricted (fc_day_of_week schedule) then Ok true
    else if cf_unrestricted (fc_day_of_month schedule) then Ok week_day_matches
    else if cf_unrestricted (fc_day_of_week schedule) then Ok month_day_matches
    else Ok (month_day_matches || week_day_matches).

(** ** Parsing *)

(** [int(text)]: the [ValueError] of [int]. *)
Definition int_of (s : string) : result Z :=
  match py_int s with Some n => Ok n | None => raise_ ValueError "" end.

Definition split_step (term label : string) : result (string * Z * bool) :=
  match split_on "/" term with
  | [base] =>
      _ ← schedule_reject (empty base) ("The cron " +:+ label +:+ " field is invalid.");
      Ok (base, 1, false)
  | [base; step_text] =>
      _ ← schedule_reject (empty base) ("The cron " +:+ label +:+ " field is invalid.");
      _ ← schedule_reject (negb (fullmatch INTEGER step_text)) ("The cron " +:+ label +:+ " step is invalid.");
      step ← int_of step_text;
      _ ← schedule_reject (step <? 1) ("The cron " +:+ label +:+ " step must be positive.");
      Ok (base, step, true)
  | _ => raise_ SchedErr ("The cron " +:+ label +:+ " field is invalid.")
  end.

Definition field_range (value : string) (minimum maximum : Z) (label : string) (extend_single : bool)
    : result (Z * Z) :=
  if bool_decide (value = "*") then Ok (minimum, maximum)
  else
    let bounds := split_on "-" value in
    _ ← schedule_reject ((2 <? length bounds)%nat || existsb (fun b => negb (fullmatch INTEGER b)) bounds)
          ("The cron " +:+ label +:+ " field is invalid.");
    start ← int_of (nth 0 bounds "");
    end_ ← (if Nat.eqb (length bounds) 2 then int_of (nth 1 bounds "")
            else Ok (if extend_single then maximum else start));
    _ ← schedule_reject
          (negb ((minimum <=? start) && (start <=? maximum)) || negb ((minimum <=? end_) && (end_ <=? maximum))
           || (end_ <? start))
          ("The cron " +:+ label +:+ " field is out of range.");
    Ok (start, end_).

(** [range(start, stop, step)] for a positive step. *)
Definition py_range (start stop step : Z) : list Z :=
  (fun i => start + Z.of_nat i * step) <$> seq 0 (Z.to_nat ((stop - start + step - 1) / step)).

(** The loop over the terms of a field. *)
Fixpoint field_values (terms : list string) (minimum maximum : Z) (label : string) (values : gset Z)
    : result (gset Z) :=
  match terms with
  | [] => Ok values
  | term :: terms =>
      '(base, step, stepped) ← split_step term label;
      '(start, end_) ← field_range base minimum maximum label stepped;
      _ ← schedule_reject (maximum - minimum + 1 <? step) ("The cron " +:+ label +:+ " step is out of range.");
      field_values terms minimum maximum label (values ∪ list_to_set (py_range start (end_ + 1) step))
  end.

Definition parse_field (value : string) (minimum maximum : Z) (label : string) (sunday_alias : bool)
    : result CronField :=
  let unrestricted := bool_decide (value = "*") in
  let terms := split_on "," value in
  _ ← schedule_reject (existsb empty terms) ("The cron " +:+ label +:+ " field is invalid.");
  values ← field_values terms minimum maximum label ∅;
  let values := if sunday_alias && bool_decide (7 ∈ values) then {[0]} ∪ (values ∖ {[7]}) else values in
  Ok {| cf_values := values; cf_unrestricted := unrestricted |}.

Definition parse_five_field_cron (expression : string) : result FiveFieldCron :=
  _ ← schedule_reject
        (empty expression || (MAX_EXPRESSION_LENGTH <? py_len expression)
         || negb (bool_decide (strip expression = expression)) || contains "  " expression
         || has_char "009" expression || has_char "010" expression || has_char "013" expression)
        "A schedule must be a canonical five-field cron expression separated by spaces.";
  match split_on " " expression with
  | [p0; p1; p2; p3; p4] =>
      minute ← parse_field p0 0 59 "minute" false;
      hour ← parse_field p1 0 23 "hour" false;
      day_of_month ← parse_field p2 1 31 "day of month" false;
      month ← parse_field p3 1 12 "month" false;
      day_of_week ← parse_field p4 0 7 "day of week" true;
      Ok {| fc_expression := expression; fc_minute := minute; fc_hour := hour; fc_day_of_month := day_of_month;
            fc_month := month; fc_day_of_week := day_of_week |}
  | _ => raise_ SchedErr "The PostgreSQL scheduler accepts exactly five cron fields."
  end.

(** ** Time zones *)

(** A [ZoneInfo]: the offset from UTC in microseconds at an instant. *)
Definition ZoneInfo : Type := Z -> Z.

(** [datetime] arithmetic and conversion overflow outside years 1 to 9999. *)
Definition checked_datetime (d : datetime) : result datetime :=
  if (min_days <=? dt_days d) && (dt_days d <=? max_days) then Ok d
  else raise_ OverflowError "date value out of range".
Definition add_minutes (d : datetime) (n : Z) : result datetime :=
  checked_datetime (Datetime (dt_local d + n * us_per_minute) (dt_offset d)).
Definition astimezone (d : datetime) (time_zone : ZoneInfo) : result datetime :=
  let offset := time_zone (instant d) in
  checked_datetime (Datetime (instant d + offset) (Some offset)).

(** [load] is [ZoneInfo(name)], which reads the time zone database. *)
Definition require_iana_time_zone (load : string -> result ZoneInfo) (name : string) : result ZoneInfo :=
  _ ← schedule_reject
        (empty name || (255 <? py_len name) || negb (bool_decide (strip name = name)) || startswith "/" name
         || bool_decide (".." ∈ split_on "/" name))
        "The schedule time zone must be a valid IANA identifier.";
  match load name with
  | Ok zone => Ok zone
  | Raise e =>
      if catches ValueError e || catches ZoneInfoNotFoundError e
      then raise_ SchedErr "The schedule time zone must be a valid IANA identifier."
      else Raise e
  end.

(** ** Scanning an interval *)

Definition require_utc_minute (value : datetime) (label : string) : result unit :=
  schedule_reject
    (is_naive value || negb (bool_decide (dt_offset value = Some 0)) || negb (dt_second value =? 0)
     || negb (dt_microsecond value =? 0))
    ("The " +:+ label +:+ " must be an exact UTC minute.").

(** [value.astimezone(UTC).replace(second=0, microsecond=0)]. *)
Definition floor_utc_minute (value : datetime) : result datetime :=
  _ ← schedule_reject (is_naive value) "The scheduler clock must return an aware timestamp.";
  t ← checked_datetime (astimezone_utc value);
  Ok (utc (instant t - instant t mod us_per_minute)).

(** The [while] loop: [fuel] bounds its iterations, [matches] is in order. *)
Fixpoint scan_minutes (fuel : nat) (schedule : FiveFieldCron) (time_zone : ZoneInfo) (through : datetime)
    (max_occurrences : Z) (candidate : datetime) (matches : list datetime) : result (list datetime) :=
  match fuel with
  | O => raise_ RecursionError ""
  | S fuel =>
      if dt_ltb through candidate then Ok matches
      else
        local ← astimezone candidate time_zone;
        hit ← FiveFieldCron_matches schedule local;
        let matches := if hit : bool then matches ++ [candidate] else matches in
        _ ← schedule_reject (hit && (max_occurrences <? Z.of_nat (length matches)))
              "The cron scan exceeds its occurrence bound.";
        candidate ← add_minutes candidate 1;
        scan_minutes fuel schedule time_zone through max_occurrences candidate matches
  end.

Definition iter_schedule_occurrences (schedule : FiveFieldCron) (time_zone : ZoneInfo) (after through : datetime)
    (max_minutes max_occurrences : Z) : result (list datetime) :=
  _ ← require_utc_minute after "schedule cursor";
  _ ← require_utc_minute through "schedule horizon";
  _ ← schedule_reject (dt_ltb through after) "The schedule horizon cannot precede its cursor.";
  _ ← schedule_reject (negb ((1 <=? max_minutes) && (max_minutes <=? 525600)))
        "The cron scan bound must be 1 to 525600 minutes.";
  _ ← schedule_reject (negb ((1 <=? max_occurrences) && (max_occurrences <=? 10000)))
        "The occurrence bound must be 1 to 10000.";
  let span_minutes := (instant through - instant after) / us_per_minute in
  _ ← schedule_reject (max_minutes <? span_minutes) "The requested cron scan exceeds its bounded horizon.";
  candidate ← add_minutes after 1;
  scan_minutes (S (Z.to_nat span_minutes)) schedule time_zone through max_occurrences candidate [].
