(* ===== verification/CronSpec.v ===== *)
(** * What cron expressions mean

    The grammar of the accepted expressions with the minutes they denote, the
    exactness of the parser, and the exactness of the bounded scan. *)

From S2P Require Import Prelude Regex PyStr PyTime Identifiers Cron.

Local Open Scope string_scope.
Local Open Scope Z_scope.
Local Open Scope list_scope.

(** ** The grammar *)

Inductive base : Type := Every | Single (n : Z) | Span (first last : Z).
Record term : Type := Term { tm_base : base; tm_step : option Z }.
#[export] Instance base_eq_dec : EqDecision base.
Proof. solve_decision. Defined.
#[export] Instance term_eq_dec : EqDecision term.
Proof. solve_decision. Defined.

(** [s] is a numeral of [n]: ASCII digits, leading zeros allowed. *)
Definition spells_int (s : string) (n : Z) : Prop := fullmatch INTEGER s = true /\ py_int s = Some n.

Definition spells_base (s : string) (b : base) : Prop :=
  match b with
  | Every => s = "*"
  | Single n => spells_int s n
  | Span a z => exists s1 s2, s = s1 +:+ "-" +:+ s2 /\ spells_int s1 a /\ spells_int s2 z
  end.
Definition spells_term (s : string) (t : term) : Prop :=
  match tm_step t with
  | None => spells_base s (tm_base t)
  | Some k => exists s1 s2, s = s1 +:+ "/" +:+ s2 /\ spells_base s1 (tm_base t) /\ spells_int s2 k
  end.
Definition spells_field (s : string) (ts : list term) : Prop :=
  exists ss, ss <> [] /\ s = join "," ss /\ Forall2 spells_term ss ts.

(** Within the limits of the field. *)
Definition base_ok (lo hi : Z) (b : base) : Prop :=
  match b with
  | Every => True
  | Single n => lo <= n <= hi
  | Span a z => lo <= a /\ a <= z /\ z <= hi
  end.
Definition term_ok (lo hi : Z) (t : term) : Prop :=
  base_ok lo hi (tm_base t) /\ match tm_step t with Some k => 1 <= k <= hi - lo + 1 | None => True end.

(** The values a term stands for: a lone number with a step runs to the end. *)
Definition base_span (lo hi : Z) (stepped : bool) (b : base) : Z * Z :=
  match b with
  | Every => (lo, hi)
  | Single n => (n, if stepped then hi else n)
  | Span a z => (a, z)
  end.
Definition covers (lo hi : Z) (v : Z) (t : term) : bool :=
  let '(a, z) := base_span lo hi (is_some (tm_step t)) (tm_base t) in
  (a <=? v) && (v <=? z) && ((v - a) mod or_else (tm_step t) 1 =? 0).
Definition denotes (lo hi : Z) (ts : list term) (v : Z) : bool := existsb (covers lo hi v) ts.

(** ** Text *)

Lemma matches_star_cls f l : matches (Star (Cls f)) l <-> all_chars f l = true.
Proof.
  split.
  - intros H. remember (Star (Cls f)) as r eqn:Hr. induction H; try discriminate Hr; [done|].
    injection Hr as ->. apply matches_cls_inv in H as (c & -> & Hc). cbn. rewrite Hc. by apply IHmatches2.
  - induction l as [|c l IH]; cbn; [constructor|]. intros [Hc Hl]%andb_true_iff.
    apply (matches_star_cons (Cls f) [c] l); [by constructor|auto].
Qed.

Lemma integer_spec s : fullmatch INTEGER s = true <-> chars s <> [] /\ all_chars digit (chars s) = true.
Proof.
  rewrite fullmatch_spec. unfold INTEGER, plus. rewrite matches_cat_inv. split.
  - intros (t & u & -> & (c & -> & Hc)%matches_cls_inv & Hu%matches_star_cls). cbn. by rewrite Hc.
  - destruct (chars s) as [|c l]; [by intros []|]. cbn. intros [_ [Hc Hl]%andb_true_iff].
    exists [c], l. split; [done|split; [by constructor|by apply matches_star_cls]].
Qed.

Lemma integer_chars s : fullmatch INTEGER s = true -> s <> "" /\ all_chars digit (chars s) = true.
Proof. intros [H1 H2]%integer_spec. split; [|done]. by intros ->. Qed.

(** The characters of a field. *)
Definition field_char : ascii -> bool := either digit (one_of "*,-/").

Lemma all_chars_absent f c l : f c = false -> all_chars f l = true -> existsb (Ascii.eqb c) l = false.
Proof.
  intros Hc H. apply existsb_false. apply forallb_Forall in H. eapply Forall_impl; [exact H|].
  intros d Hd. cbn in Hd. destruct (Ascii.eqb_spec c d) as [->|]; [congruence|done].
Qed.

Lemma join_split c s : join (String c "") (split_on c s) = s.
Proof.
  unfold split_on. rewrite <- (of_chars_chars s) at 2. generalize (chars s). clear s. intros l.
  induction l as [|d l IH]; [done|]. cbn [split_chars]. pose proof (split_chars_nonempty c l) as Hn.
  destruct (split_chars c l) as [|p ps]; [done|]. change (of_chars (d :: l)) with (String d (of_chars l)).
  rewrite <- IH. destruct (Ascii.eqb_spec c d) as [<-|]; [done|]. by destruct ps.
Qed.

Lemma split_no_separator c s : Forall (fun p => has_char c p = false) (split_on c s).
Proof.
  unfold split_on, has_char. apply Forall_fmap. generalize (chars s). clear s. intros l.
  assert (Forall (fun p => existsb (Ascii.eqb c) p = false) (split_chars c l)) as H.
  { induction l as [|d l IH]; cbn; [by repeat constructor|]. pose proof (split_chars_nonempty c l) as Hn.
    destruct (split_chars c l) as [|p ps]; [done|].
    apply Forall_cons in IH as [Hp Hps]. destruct (Ascii.eqb c d) eqn:E; repeat constructor; try done. cbn. by rewrite E. }
  eapply Forall_impl; [exact H|]. intros p Hp. cbn. by rewrite chars_of_chars.
Qed.

(** Splitting is the inverse of joining. *)
Lemma split_on_iff c s ps :
  split_on c s = ps <-> ps <> [] /\ s = join (String c "") ps /\ Forall (fun p => has_char c p = false) ps.
Proof.
  split.
  - intros <-. split; [|split; [by rewrite join_split|apply split_no_separator]].
    unfold split_on. pose proof (split_chars_nonempty c (chars s)). by destruct (split_chars c (chars s)).
  - intros (H1 & -> & H2). by apply split_on_join.
Qed.

(** Two pieces around the only separator. *)
Lemma split_two c s a b :
  split_on c s = [a; b] <-> s = a +:+ String c "" +:+ b /\ has_char c a = false /\ has_char c b = false.
Proof. rewrite split_on_iff. rewrite !Forall_cons, Forall_nil. naive_solver. Qed.

Lemma split_one c s a : split_on c s = [a] <-> s = a /\ has_char c a = false.
Proof. rewrite split_on_iff. rewrite !Forall_cons, Forall_nil. cbn [join]. naive_solver. Qed.

(** ** Terms *)

Definition field_text (s : string) : Prop := s <> "" /\ all_chars field_char (chars s) = true.

Lemma digits_text s : fullmatch INTEGER s = true -> field_text s.
Proof.
  intros [H1 H2]%integer_chars. split; [done|]. revert H2. apply all_chars_impl. intros c Hc. unfold field_char, either. by rewrite Hc.
Qed.

Lemma digits_absent c s : digit c = false -> fullmatch INTEGER s = true -> has_char c s = false.
Proof. intros Hc [_ H]%integer_chars. by apply (all_chars_absent digit). Qed.

Lemma field_text_app s c t : field_text s -> field_char c = true -> field_text t -> field_text (s +:+ String c "" +:+ t).
Proof.
  intros [Hn Hs] Hc [_ Ht]. split; [by destruct s|]. rewrite !chars_app. unfold all_chars in *.
  change (chars (String c "")) with [c]. rewrite !forallb_app, Hs, Ht. cbn. by rewrite Hc.
Qed.

Lemma has_char_app c s t : has_char c (s +:+ t) = has_char c s || has_char c t.
Proof. unfold has_char. by rewrite chars_app, existsb_app. Qed.

(** The text of a base holds neither a slash nor a comma. *)
Lemma base_text s b : spells_base s b -> field_text s /\ has_char "/" s = false /\ has_char "," s = false.
Proof.
  destruct b as [|n|a z]; cbn.
  - intros ->. by repeat split.
  - intros [H _]. split; [by apply digits_text|]. split; by apply digits_absent.
  - intros (s1 & s2 & -> & [H1 _] & [H2 _]). split; [by apply field_text_app; [apply digits_text| |apply digits_text]|].
    rewrite !has_char_app, !(digits_absent _ s1), !(digits_absent _ s2) by done. done.
Qed.

Lemma term_text s t : spells_term s t -> field_text s /\ has_char "," s = false.
Proof.
  unfold spells_term. destruct (tm_step t) as [k|].
  - intros (s1 & s2 & -> & (H1 & _ & H2)%base_text & [H3 _]). split; [by apply field_text_app; [| |apply digits_text]|].
    rewrite !has_char_app, H2, (digits_absent _ s2) by done. done.
  - intros (H1 & _ & H2)%base_text. done.
Qed.

(** ** The parser on one term *)

Lemma int_of_ok s n : int_of s = Ok n <-> py_int s = Some n.
Proof. unfold int_of, raise_. destruct (py_int s); split; congruence. Qed.

Lemma empty_iff s : empty s = false <-> s <> "".
Proof. by destruct s. Qed.

Lemma split_step_ok s label b k st :
  split_step s label = Ok (b, k, st) <->
  b <> "" /\ has_char "/" b = false /\
  ((s = b /\ k = 1 /\ st = false) \/
   (exists t, s = b +:+ "/" +:+ t /\ spells_int t k /\ 1 <= k /\ st = true)).
Proof.
  unfold split_step, schedule_reject. destruct (split_on "/" s) as [|a [|c [|d l]]] eqn:E.
  - apply split_on_iff in E as [[] _]. done.
  - apply split_one in E as [-> Ha]. split.
    + intros H. inv_ok. simplify_eq. apply empty_iff in Hok. naive_solver.
    + intros (Hb & Hc & [(-> & -> & ->)|(t & -> & _)]); [by rewrite (proj2 (empty_iff b) Hb)|].
      rewrite !has_char_app in Ha. cbn in Ha. by rewrite orb_true_r in Ha.
  - apply split_two in E as (-> & Ha & Hc). split.
    + intros H. inv_ok. apply empty_iff in Hok. apply int_of_ok in Hok0. to_prop.
      split; [done|split; [done|]]. right. exists c. by repeat split.
    + intros (Hb & Hn & [(<- & _)|(t & Et & [Ht Hi] & Hk & ->)]).
      { rewrite !has_char_app in Hn. cbn in Hn. by rewrite orb_true_r in Hn. }
      assert (split_on "/" (b +:+ "/" +:+ t) = [b; t]) as E1 by (apply split_two; split_and!; try done; by apply digits_absent).
      rewrite <- Et in E1. assert (split_on "/" (a +:+ "/" +:+ c) = [a; c]) as E2 by by apply split_two.
      rewrite E1 in E2. injection E2 as -> ->. rewrite (proj2 (empty_iff a) Hb), Ht. cbn. unfold int_of. rewrite Hi. cbn.
      destruct (Z.ltb_spec k 1); [lia|done].
  - split; [done|]. intros (Hb & Hn & [(<- & _)|(t & -> & [Ht _] & _)]).
    + assert (split_on "/" s = [s]) as E1 by by apply split_one. congruence.
    + assert (split_on "/" (b +:+ "/" +:+ t) = [b; t]) as E1 by (apply split_two; split_and!; try done; by apply digits_absent).
      congruence.
Qed.

Lemma span_split s a z s1 s2 : s = s1 +:+ "-" +:+ s2 -> spells_int s1 a -> spells_int s2 z -> split_on "-" s = [s1; s2].
Proof. intros -> [H1 _] [H2 _]. apply split_two. split_and!; try done; by apply digits_absent. Qed.

Lemma single_split s n : spells_int s n -> split_on "-" s = [s].
Proof. intros [H _]. apply split_one. split; [done|]. by apply digits_absent. Qed.

Lemma star_not_integer n : ~ spells_int "*" n.
Proof. intros [H _]. discriminate H. Qed.

Lemma field_range_ok v lo hi label ext p :
  field_range v lo hi label ext = Ok p <->
  exists b, spells_base v b /\ base_ok lo hi b /\ p = base_span lo hi ext b.
Proof.
  unfold field_range, schedule_reject. case_bool_decide as Hv.
  { subst v. split; [intros [= <-]; by exists Every|]. intros ([|n|a z] & Hs & _ & ->); [done|by destruct (star_not_integer n)|].
    exfalso. destruct Hs as (s1 & s2 & E & H1 & H2). pose proof (span_split _ _ _ _ _ E H1 H2) as E2. discriminate E2. }
  split.
  - intros H. rewrite seq_ok, reject_if_tt, orb_false_iff, existsb_false in H. destruct H as [[Hl Hi] H]. apply Nat.ltb_ge in Hl.
    destruct (split_on "-" v) as [|s1 [|s2 [|s3 l]]] eqn:E; [by apply split_on_iff in E as [[] _]|..|cbn in Hl; lia].
    + apply split_one in E as [-> _]. apply Forall_cons in Hi as [Hi%negb_false_iff _]. cbn [nth length Nat.eqb] in H.
      inv_ok. apply int_of_ok in Hok. to_prop. exists (Single a). split; [by split|]. split; [|done]. cbn. lia.
    + apply split_two in E as (-> & _ & _). rewrite !Forall_cons, !negb_false_iff in Hi. destruct Hi as (H1 & H2 & _).
      cbn [nth length Nat.eqb] in H. inv_ok. apply int_of_ok in Hok, Hok1. to_prop. exists (Span a a0).
      split; [by exists s1, s2|]. split; [|done]. cbn. lia.
  - intros ([|n|a z] & Hs & Hb & ->); [done| |].
    + cbn in Hb. rewrite (single_split v n Hs). cbn [length nth existsb Nat.eqb]. destruct Hs as [Hs Hn]. rewrite Hs. cbn.
      unfold int_of. rewrite Hn. cbn. destruct ext;
        rewrite !(proj2 (Z.leb_le _ _)), (proj2 (Z.ltb_ge _ _)) by lia; reflexivity.
    + destruct Hs as (s1 & s2 & E & H1 & H2). rewrite (span_split _ _ _ _ _ E H1 H2). cbn [length nth existsb Nat.eqb].
      destruct H1 as [H1 Ha], H2 as [H2 Hz]. rewrite H1, H2. cbn. unfold int_of. rewrite Ha, Hz. cbn in Hb |- *.
      rewrite !(proj2 (Z.leb_le _ _)), (proj2 (Z.ltb_ge _ _)) by lia. reflexivity.
Qed.

Lemma elem_of_py_range v a z k : 1 <= k -> v ∈ py_range a (z + 1) k <-> a <= v <= z /\ (v - a) mod k = 0.
Proof.
  intros Hk. unfold py_range. rewrite list_elem_of_fmap. setoid_rewrite elem_of_seq. split.
  - intros (i & -> & _ & Hi). assert (Z.of_nat i < (z + 1 - a + k - 1) / k) as Hlt by lia.
    assert (Z.of_nat i + 1 <= (z - a + k) / k) as Hle by (replace (z - a + k) with (z + 1 - a + k - 1) by lia; lia).
    replace (z - a + k) with (z - a + 1 * k) in Hle by lia. rewrite Z.div_add in Hle by lia.
    assert (k * Z.of_nat i <= z - a) by (etrans; [|apply (Z.mul_div_le (z - a) k); lia]; nia).
    split; [nia|]. replace (a + Z.of_nat i * k - a) with (Z.of_nat i * k) by lia. apply Z.mod_mul. lia.
  - intros [Hb Hm]. exists (Z.to_nat ((v - a) / k)). pose proof (Z.div_pos (v - a) k).
    rewrite Z2Nat.id by lia. pose proof (Z.div_mod (v - a) k ltac:(lia)). split; [lia|]. split; [lia|].
    rewrite Nat.add_0_l. apply Z2Nat.inj_lt; [lia| |].
    + apply Z.div_pos; lia.
    + apply Z.lt_le_trans with ((z - a) / k + 1); [pose proof (Z.div_le_mono (v - a) (z - a) k); lia|].
      replace (z + 1 - a + k - 1) with (z - a + 1 * k) by lia. rewrite Z.div_add by lia. lia.
Qed.

(** ** The parser on a field *)

Definition denoted (lo hi : Z) (ts : list term) : gset Z := list_to_set (filter (fun v => denotes lo hi ts v = true) (seqZ lo (hi - lo + 1))).

Lemma base_span_bounds lo hi st b : lo <= hi -> base_ok lo hi b ->
  lo <= (base_span lo hi st b).1 /\ (base_span lo hi st b).2 <= hi /\ (base_span lo hi st b).1 <= (base_span lo hi st b).2.
Proof. destruct b as [|n|a z], st; cbn; lia. Qed.

Lemma covers_bounds lo hi v t : lo <= hi -> base_ok lo hi (tm_base t) -> covers lo hi v t = true -> lo <= v <= hi.
Proof.
  intros Hl Hb. unfold covers. pose proof (base_span_bounds lo hi (is_some (tm_step t)) (tm_base t) Hl Hb) as H.
  destruct (base_span _ _ _ _) as [a z]. cbn in H. rewrite !andb_true_iff, !Z.leb_le. lia.
Qed.

Lemma elem_of_denoted lo hi ts v : lo <= hi -> Forall (term_ok lo hi) ts ->
  v ∈ denoted lo hi ts <-> denotes lo hi ts v = true.
Proof.
  intros Hl Hts. unfold denoted. rewrite elem_of_list_to_set, list_elem_of_filter, elem_of_seqZ.
  split; [by intros []|]. intros H. split; [done|]. unfold denotes in H.
  apply existsb_exists in H as (t & Ht%list_elem_of_In & Hc).
  rewrite Forall_forall in Hts. destruct (Hts t Ht) as [Hb _]. pose proof (covers_bounds lo hi v t Hl Hb Hc). lia.
Qed.

(** One term, read by the two functions of the code. *)
Lemma term_read s lo hi label b k st p :
  split_step s label = Ok (b, k, st) -> field_range b lo hi label st = Ok p -> k <= hi - lo + 1 ->
  exists t, spells_term s t /\ term_ok lo hi t /\ k = or_else (tm_step t) 1 /\ 1 <= k /\
            p = base_span lo hi (is_some (tm_step t)) (tm_base t).
Proof.
  intros H1 H2 Hk. apply split_step_ok in H1 as (_ & _ & Hs). apply field_range_ok in H2 as (c & Hc & Hok & ->).
  destruct Hs as [(-> & -> & ->)|(x & -> & Hx & H1 & ->)].
  - exists (Term c None). by repeat split.
  - exists (Term c (Some k)). split; [by exists b, x|]. by repeat split.
Qed.

Lemma term_reads s lo hi label t : spells_term s t -> term_ok lo hi t ->
  exists b, split_step s label = Ok (b, or_else (tm_step t) 1, is_some (tm_step t)) /\
            field_range b lo hi label (is_some (tm_step t)) = Ok (base_span lo hi (is_some (tm_step t)) (tm_base t)) /\
            1 <= or_else (tm_step t) 1.
Proof.
  unfold spells_term, term_ok. destruct t as [c [k|]]; cbn.
  - intros (b & x & -> & Hb & Hx) [Hc Hk]. destruct (base_text b c Hb) as ([Hn _] & Hs & _). exists b. split_and!.
    + apply split_step_ok. split_and!; try done. right. exists x. split_and!; try done; lia.
    + apply field_range_ok. by exists c.
    + lia.
  - intros Hb [Hc _]. destruct (base_text s c Hb) as ([Hn _] & Hs & _). exists s. split_and!.
    + apply split_step_ok. split_and!; try done. by left.
    + apply field_range_ok. by exists c.
    + lia.
Qed.

Lemma range_covers lo hi v t : 1 <= or_else (tm_step t) 1 ->
  let '(a, z) := base_span lo hi (is_some (tm_step t)) (tm_base t) in
  v ∈ py_range a (z + 1) (or_else (tm_step t) 1) <-> covers lo hi v t = true.
Proof.
  intros Hk. unfold covers. destruct (base_span _ _ _ _) as [a z]. rewrite elem_of_py_range by done.
  rewrite !andb_true_iff, !Z.leb_le, Z.eqb_eq. tauto.
Qed.

Lemma denoted_cons lo hi t ts V : lo <= hi -> Forall (term_ok lo hi) (t :: ts) -> 1 <= or_else (tm_step t) 1 ->
  let '(a, z) := base_span lo hi (is_some (tm_step t)) (tm_base t) in
  (V ∪ list_to_set (py_range a (z + 1) (or_else (tm_step t) 1))) ∪ denoted lo hi ts = V ∪ denoted lo hi (t :: ts).
Proof.
  intros Hl Hts Hk. pose proof (range_covers lo hi) as H. destruct (base_span _ _ _ _) as [a z] eqn:E.
  apply set_eq. intros v. rewrite !elem_of_union, elem_of_list_to_set, !elem_of_denoted by (done || by inversion Hts).
  specialize (H v t Hk). rewrite E in H. rewrite H. cbn. rewrite orb_true_iff. tauto.
Qed.

Lemma denoted_nil lo hi V : V ∪ denoted lo hi [] = V.
Proof.
  apply set_eq. intros v. unfold denoted. rewrite elem_of_union, elem_of_list_to_set, list_elem_of_filter. cbn.
  split; [intros [|[[=] _]]; done|by left].
Qed.

Lemma field_values_ok lo hi label ss : lo <= hi -> forall V W,
  field_values ss lo hi label V = Ok W <->
  exists ts, Forall2 spells_term ss ts /\ Forall (term_ok lo hi) ts /\ W = V ∪ denoted lo hi ts.
Proof.
  intros Hl. induction ss as [|s ss IH]; intros V W; cbn [field_values]; unfold schedule_reject.
  { split.
    - intros [= <-]. exists []. rewrite denoted_nil. by repeat constructor.
    - intros (ts & Hts & _ & ->). apply Forall2_nil_inv_l in Hts as ->. by rewrite denoted_nil. }
  split.
  - intros ([[b k] st] & H1 & H)%bind_ok. cbn beta iota in H. apply bind_ok in H as ([a z] & H2 & H). cbn beta iota in H.
    apply seq_ok in H as [Hk%reject_if_tt H]. to_prop. apply IH in H as (ts & Hts & Hok & ->).
    destruct (term_read _ _ _ _ _ _ _ _ H1 H2 Hk) as (t & Ht & Htok & -> & H1k & Hp). exists (t :: ts).
    assert (Forall (term_ok lo hi) (t :: ts)) as Hall by by constructor. split_and!; [by constructor|done|].
    pose proof (denoted_cons lo hi t ts V Hl Hall H1k) as Hd. by rewrite <- Hp in Hd.
  - intros (ts & Hts & Hok & ->). apply Forall2_cons_inv_l in Hts as (t & ts' & Ht & Hts & ->).
    pose proof Hok as Hall. apply Forall_cons in Hall as [Htok Hok'].
    destruct (term_reads s lo hi label t Ht Htok) as (b & H1 & H2 & H1k). rewrite H1. cbn [mbind result_bind]. rewrite H2. cbn [mbind result_bind].
    pose proof (denoted_cons lo hi t ts' V Hl Hok H1k) as Hd. destruct (base_span _ _ _ _) as [a z].
    assert ((hi - lo + 1 <? or_else (tm_step t) 1) = false) as ->.
    { destruct Htok as [_ Hk]. apply Z.ltb_ge. destruct (tm_step t); cbn in *; lia. }
    cbn [reject_if mbind result_bind]. apply IH. by exists ts'.
Qed.

(** A field as the parser represents it; in the weekday field 7 is Sunday. *)
Definition field_of (lo hi : Z) (sunday_alias : bool) (ts : list term) : CronField :=
  let values := denoted lo hi ts in
  {| cf_values := if sunday_alias && bool_decide (7 ∈ values) then {[0]} ∪ (values ∖ {[7]}) else values;
     cf_unrestricted := bool_decide (ts = [Term Every None]) |}.

Lemma spells_star t : spells_term "*" t <-> t = Term Every None.
Proof.
  split; [|by intros ->]. destruct t as [b [k|]]; cbn.
  - intros (s1 & s2 & E & [[H1 _] _]%base_text & _). destruct s1 as [|c1 s1]; [done|]. injection E as <- E. by destruct s1.
  - destruct b as [|n|a z]; [done|by intros ?%star_not_integer|].
    intros (s1 & s2 & E & [[H1 _]%integer_chars _] & _). destruct s1 as [|c1 s1]; [done|]. injection E as <- E. by destruct s1.
Qed.

Lemma field_split s ss : Forall (fun p => field_text p /\ has_char "," p = false) ss -> ss <> [] -> s = join "," ss -> split_on "," s = ss.
Proof. intros H Hn ->. apply split_on_join; [done|]. eapply Forall_impl; [exact H|]. by intros p []. Qed.

Lemma terms_text ss ts : Forall2 spells_term ss ts -> Forall (fun p => field_text p /\ has_char "," p = false) ss.
Proof. induction 1 as [|s t ss ts Ht _ IH]; constructor; [by eapply term_text|done]. Qed.

Lemma spells_unrestricted s ss ts : ss <> [] -> s = join "," ss -> Forall2 spells_term ss ts ->
  s = "*" <-> ts = [Term Every None].
Proof.
  intros Hn Hs H. split.
  - intros ->. pose proof (field_split _ _ (terms_text _ _ H) Hn Hs) as E. cbn in E. subst ss.
    apply Forall2_cons_inv_l in H as (t & ts' & Ht & Hts & ->). apply Forall2_nil_inv_l in Hts as ->.
    by apply spells_star in Ht as ->.
  - intros ->. apply Forall2_cons_inv_r in H as (t & ss' & Ht & Hss & ->). apply Forall2_nil_inv_r in Hss as ->. exact (eq_trans Hs Ht).
Qed.

Lemma parse_field_ok value lo hi label sunday f : lo <= hi ->
  parse_field value lo hi label sunday = Ok f <->
  exists ts, spells_field value ts /\ Forall (term_ok lo hi) ts /\ f = field_of lo hi sunday ts.
Proof.
  intros Hl. unfold parse_field, schedule_reject. split.
  - intros [He H]%seq_ok. apply bind_ok in H as (W & H & [= <-]). apply (field_values_ok lo hi label _ Hl) in H as (ts & Hts & Hok & ->).
    assert (value = join "," (split_on "," value)) as Ev by by rewrite join_split.
    assert (split_on "," value <> []) as Hn by by destruct (proj1 (split_on_iff "," value _) eq_refl).
    exists ts. split; [by exists (split_on "," value)|split; [done|]]. unfold field_of.
    assert (∅ ∪ denoted lo hi ts = denoted lo hi ts) as -> by (apply set_eq; intros v; rewrite elem_of_union, elem_of_empty; tauto).
    f_equal. apply bool_decide_ext. by eapply spells_unrestricted.
  - intros (ts & (ss & Hn & Hs & Hss) & Hok & ->). pose proof (terms_text _ _ Hss) as Ht.
    rewrite (field_split value ss Ht Hn Hs).
    assert (existsb empty ss = false) as ->.
    { apply existsb_false. eapply Forall_impl; [exact Ht|]. intros p [[Hp _] _]. by apply empty_iff. }
    cbn [reject_if mbind result_bind].
    rewrite (proj2 (field_values_ok lo hi label ss Hl ∅ (denoted lo hi ts))); cbn [mbind result_bind].
    + f_equal. unfold field_of. f_equal. apply bool_decide_ext. by eapply spells_unrestricted.
    + exists ts. split_and!; [done..|]. apply set_eq. intros v. rewrite elem_of_union, elem_of_empty. tauto.
Qed.

Lemma field_value_text value ts : spells_field value ts -> field_text value.
Proof.
  intros (ss & Hn & -> & H). apply terms_text in H. clear ts. induction H as [|p ss [Hp _] H IH]; [done|].
  destruct ss as [|q ss]; [done|]. change (join "," (p :: q :: ss)) with (p +:+ "," +:+ join "," (q :: ss)).
  apply field_text_app; [done|done|by apply IH].
Qed.

(** ** The whole expression *)

Record cron_terms : Type := {
  ct_minute : list term; ct_hour : list term; ct_day_of_month : list term; ct_month : list term; ct_day_of_week : list term;
}.

(** Five fields with one space between them, each within its limits. *)
Record spells_cron (s : string) (c : cron_terms) : Prop := {
  sc_text : exists p0 p1 p2 p3 p4, s = join " " [p0; p1; p2; p3; p4] /\
      spells_field p0 (ct_minute c) /\ spells_field p1 (ct_hour c) /\ spells_field p2 (ct_day_of_month c) /\
      spells_field p3 (ct_month c) /\ spells_field p4 (ct_day_of_week c);
  sc_length : py_len s <= 256;
  sc_minute : Forall (term_ok 0 59) (ct_minute c);
  sc_hour : Forall (term_ok 0 23) (ct_hour c);
  sc_day_of_month : Forall (term_ok 1 31) (ct_day_of_month c);
  sc_month : Forall (term_ok 1 12) (ct_month c);
  sc_day_of_week : Forall (term_ok 0 7) (ct_day_of_week c);
}.

(** What a field means: its set of values, and whether it is the bare star. *)
Definition field_means (f : CronField) (ts : list term) (member : Z -> bool) : Prop :=
  (forall v, v ∈ cf_values f <-> member v = true) /\ (cf_unrestricted f = true <-> ts = [Term Every None]).
Definition weekday_member (ts : list term) (v : Z) : bool :=
  negb (v =? 7) && (denotes 0 7 ts v || ((v =? 0) && denotes 0 7 ts 7)).

Record cron_means (f : FiveFieldCron) (s : string) (c : cron_terms) : Prop := {
  cm_expression : fc_expression f = s;
  cm_minute : field_means (fc_minute f) (ct_minute c) (denotes 0 59 (ct_minute c));
  cm_hour : field_means (fc_hour f) (ct_hour c) (denotes 0 23 (ct_hour c));
  cm_day_of_month : field_means (fc_day_of_month f) (ct_day_of_month c) (denotes 1 31 (ct_day_of_month c));
  cm_month : field_means (fc_month f) (ct_month c) (denotes 1 12 (ct_month c));
  cm_day_of_week : field_means (fc_day_of_week f) (ct_day_of_week c) (weekday_member (ct_day_of_week c));
}.

Lemma field_means_eq f g ts m : field_means f ts m -> field_means g ts m -> f = g.
Proof.
  destruct f as [fv fu], g as [gv gu]. intros [H1 H2] [H3 H4]. cbn in *. f_equal.
  - apply set_eq. intros v. by rewrite H1, H3.
  - apply eq_true_iff_eq. by rewrite H2, H4.
Qed.

Lemma field_of_means lo hi ts : lo <= hi -> Forall (term_ok lo hi) ts -> field_means (field_of lo hi false ts) ts (denotes lo hi ts).
Proof.
  intros Hl Hok. split; cbn.
  - intros v. by apply elem_of_denoted.
  - by rewrite bool_decide_eq_true.
Qed.

Lemma weekday_of_means ts : Forall (term_ok 0 7) ts -> field_means (field_of 0 7 true ts) ts (weekday_member ts).
Proof.
  intros Hok. split; cbn; [|by rewrite bool_decide_eq_true]. intros v. unfold weekday_member.
  rewrite !andb_true_iff, negb_true_iff, !orb_true_iff, !andb_true_iff, Z.eqb_eq, Z.eqb_neq.
  pose proof (fun v => elem_of_denoted 0 7 ts v ltac:(lia) Hok) as Hd. case_bool_decide as H7.
  - rewrite elem_of_union, elem_of_singleton, elem_of_difference, elem_of_singleton, Hd. rewrite Hd in H7.
    split; [|naive_solver]. intros [->|[Hv H]]; split; try lia; auto.
  - rewrite Hd. rewrite Hd in H7. split; [|intuition]. intros Hv. split; [congruence|by left].
Qed.

(** Text made of fields and single spaces passes the canonical-text check. *)
Lemma lstrip_head c l : is_space c = false -> lstrip (c :: l) = c :: l.
Proof. intros H. cbn. by rewrite H. Qed.

Lemma field_not_space c : field_char c = true -> is_space c = false.
Proof. destruct c as [[] [] [] [] [] [] [] []]; intros H; first [reflexivity|discriminate H]. Qed.

Lemma strip_ends p m q : field_text p -> field_text q -> strip (p +:+ m +:+ q) = p +:+ m +:+ q.
Proof.
  intros [Hp Hpc] [Hq Hqc]. apply chars_inj. unfold strip. rewrite chars_of_chars, !chars_app. unfold strip_chars.
  destruct p as [|c p]; [done|]. cbn [chars app]. cbn [chars all_chars forallb] in Hpc. apply andb_true_iff in Hpc as [Hc _].
  rewrite lstrip_head by by apply field_not_space.
  destruct (chars q) as [|d l _] eqn:E using rev_ind; [by destruct q|].
  unfold all_chars in Hqc. rewrite forallb_app in Hqc. apply andb_true_iff in Hqc as [_ Hd]. cbn in Hd. rewrite andb_true_r in Hd.
  replace (c :: (chars p ++ chars m ++ l ++ [d])) with ((c :: chars p ++ chars m ++ l) ++ [d]) by (cbn; by rewrite <- !app_assoc).
  generalize (c :: chars p ++ chars m ++ l). intros k. rewrite rev_app_distr. cbn [rev app].
  rewrite lstrip_head by by apply field_not_space. change (d :: rev k) with (rev [d] ++ rev k).
  by rewrite <- rev_app_distr, rev_involutive.
Qed.

(** Two adjacent separators leave an empty piece. *)
Lemma double_space l : contains_chars [" "; " "]%char l = true -> [] ∈ tl (split_chars " " l).
Proof.
  induction l as [|c l IH]; [done|]. cbn [contains_chars]. rewrite orb_true_iff.
  pose proof (split_chars_nonempty " " l) as Hn. intros [H|H]; cbn [split_chars].
  - cbn [after] in H. destruct (Ascii.eqb_spec " " c) as [<-|]; [|done].
    destruct l as [|d l]; [done|]. destruct (Ascii.eqb_spec " " d) as [<-|]; [|done].
    cbn [split_chars] in *. destruct (split_chars " " l) as [|p ps] eqn:E; [by destruct (split_chars_nonempty " " l)|].
    cbn. left.
  - specialize (IH H). destruct (split_chars " " l) as [|p ps]; [done|]. destruct (Ascii.eqb " " c); cbn in *; [by right|done].
Qed.

Lemma no_double_space s : Forall (fun p => p <> "") (split_on " " s) -> contains "  " s = false.
Proof.
  intros H. apply not_true_iff_false. unfold contains. intros Hc%double_space. unfold split_on in H. rewrite Forall_fmap in H.
  destruct (split_chars " " (chars s)) as [|p ps]; [by apply elem_of_nil in Hc|].
  apply Forall_cons in H as [_ H]. rewrite Forall_forall in H. by apply (H [] Hc).
Qed.

Definition cron_char : ascii -> bool := either field_char (Ascii.eqb " ").

Lemma join_cron_chars ps : Forall field_text ps -> all_chars cron_char (chars (join " " ps)) = true.
Proof.
  assert (forall p, field_text p -> all_chars cron_char (chars p) = true) as Hone.
  { intros p [_ Hp]. revert Hp. apply all_chars_impl. intros c Hc. unfold cron_char, either. by rewrite Hc. }
  induction 1 as [|p ps Hp H IH]; [done|]. destruct ps as [|q ps]; [by apply Hone|].
  change (join " " (p :: q :: ps)) with (p +:+ " " +:+ join " " (q :: ps)). rewrite !chars_app. unfold all_chars in *.
  rewrite !forallb_app, IH, (Hone p Hp). done.
Qed.

Lemma cron_text_canonical ps : Forall field_text ps -> (2 <= length ps)%nat -> py_len (join " " ps) <= 256 ->
  let s := join " " ps in
  (empty s || (MAX_EXPRESSION_LENGTH <? py_len s) || negb (bool_decide (strip s = s)) || contains "  " s
   || has_char "009" s || has_char "010" s || has_char "013" s) = false.
Proof.
  intros Hps Hl Hlen s. assert (all_chars cron_char (chars s) = true) as Hc by by apply join_cron_chars.
  assert (forall c, cron_char c = false -> has_char c s = false) as Hno by (intros c H; by apply (all_chars_absent cron_char)).
  rewrite !Hno by done. rewrite !orb_false_r, !orb_false_iff, Z.ltb_ge, negb_false_iff, bool_decide_eq_true.
  destruct ps as [|p ps _] using rev_ind; [cbn in Hl; lia|]. destruct ps as [|q ps]; [cbn in Hl; lia|].
  apply Forall_app in Hps as [Hps Hp]. apply Forall_cons in Hp as [Hp _]. apply Forall_cons in Hps as [Hq Hps].
  assert (exists m, s = q +:+ m +:+ p) as [m Hm].
  { subst s. clear -q. cbn [app]. revert q. induction ps as [|r ps IH]; intros q.
    - by exists " ".
    - destruct (IH r) as [m E]. exists (" " +:+ r +:+ m). change (join " " (q :: (r :: ps) ++ [p])) with (q +:+ " " +:+ join " " (r :: ps ++ [p])).
      cbn [app] in E. rewrite E. apply chars_inj. by rewrite !chars_app, !app_assoc. }
  split_and!.
  - rewrite Hm. by destruct Hq as [Hq _], q.
  - done.
  - rewrite Hm. by apply strip_ends.
  - apply no_double_space. subst s. rewrite split_on_join.
    + apply Forall_app. split; [constructor; [apply Hq|]|repeat constructor; apply Hp]. eapply Forall_impl; [exact Hps|]. by intros x [].
    + done.
    + apply Forall_app. split; [|by repeat constructor; apply (all_chars_absent field_char); [|apply Hp]].
      constructor; [by apply (all_chars_absent field_char); [|apply Hq]|]. eapply Forall_impl; [exact Hps|].
      intros x [_ Hx]. by apply (all_chars_absent field_char).
Qed.

(** ** Errors *)

Lemma digit_int_char c : digit c = true -> exists d, c = digit_char d /\ 0 <= d <= 9.
Proof.
  intros H. exists (digit_value c). destruct c as [[] [] [] [] [] [] [] []]; first [discriminate H|split; [reflexivity|vm_compute; split; discriminate]].
Qed.

Lemma digit_chars l : all_chars digit l = true -> exists ds, l = digit_char <$> ds /\ Forall (fun d => 0 <= d <= 9) ds.
Proof.
  induction l as [|c l IH]; cbn; [by exists []|]. intros [(d & -> & Hd)%digit_int_char (ds & -> & Hds)%IH]%andb_true_iff.
  exists (d :: ds). split; [done|by constructor].
Qed.

Lemma integer_py_int s : fullmatch INTEGER s = true -> (String.length s <= max_str_digits)%nat -> exists n, py_int s = Some n.
Proof.
  rewrite <- length_chars. intros [Hn (ds & E & Hds)%digit_chars]%integer_spec Hl. unfold py_int. rewrite E in *.
  rewrite length_fmap in Hl.
  rewrite strip_no_space by (apply Forall_fmap; eapply Forall_impl; [exact Hds|]; intros; by apply digit_not_space).
  destruct ds as [|d ds]; [done|].
  assert (int_body (digit_char <$> d :: ds) = Some (digits_value (d :: ds))) as Hb.
  { unfold int_body. rewrite int_digits_all by auto. cbn [mbind option_bind]. by rewrite (proj2 (Nat.ltb_ge _ _) Hl). }
  apply Forall_cons in Hds as [Hd _]. destruct (digit_char_spec d Hd) as [Hdig _]. exists (digits_value (d :: ds)).
  clear E Hn. cbn [fmap list_fmap] in *. revert Hb Hdig. generalize (digit_char d). intros c Hb Hdig.
  destruct c as [[] [] [] [] [] [] [] []]; first [exact Hb | discriminate Hdig].
Qed.

Lemma split_chars_length c l p : p ∈ split_chars c l -> (length p <= length l)%nat.
Proof.
  revert p. induction l as [|d l IH]; intros p; cbn [split_chars].
  - intros ->%list_elem_of_singleton. done.
  - destruct (split_chars c l) as [|q ps]; [intros ->%list_elem_of_singleton; cbn; lia|].
    assert (length q <= length l)%nat as Hq by (apply IH; left).
    destruct (Ascii.eqb c d); rewrite !elem_of_cons; intros H; cbn.
    + destruct H as [->|[->|H]]; cbn; [lia|lia|]. etrans; [apply IH; by right|lia].
    + destruct H as [->|H]; cbn; [lia|]. etrans; [apply IH; by right|lia].
Qed.

Lemma split_on_length c s p : p ∈ split_on c s -> (String.length p <= String.length s)%nat.
Proof.
  unfold split_on. intros (q & -> & H)%list_elem_of_fmap. rewrite <- !length_chars, chars_of_chars. by eapply split_chars_length.
Qed.

Abbreviation sched_only := (raises (fun e => exn_cls e = SchedErr)).

Lemma sched_reject_only b m : sched_only (schedule_reject b m).
Proof. by destruct b. Qed.

Lemma int_of_only s : fullmatch INTEGER s = true -> (String.length s <= max_str_digits)%nat -> sched_only (int_of s).
Proof. intros H Hl. destruct (integer_py_int s H Hl) as [n Hn]. unfold int_of. by rewrite Hn. Qed.

(** [sched_only] follows the checks of the parser. *)
Ltac sched_step :=
  lazymatch goal with
  | |- raises _ (_ ≫= _) => apply raises_bind; [|intros ? ?]
  | |- raises _ (schedule_reject _ _) => apply sched_reject_only
  | |- raises _ (Ok _) => exact I
  | |- raises _ (raise_ SchedErr _) => reflexivity
  end.

Lemma split_step_only s label : (String.length s <= max_str_digits)%nat -> sched_only (split_step s label).
Proof.
  intros Hl. unfold split_step. destruct (split_on "/" s) as [|a [|b [|]]] eqn:E; repeat sched_step.
  apply int_of_only; [by apply reject_if_ok, negb_false_iff in H0|].
  etrans; [|exact Hl]. apply (split_on_length "/"). rewrite E. right. left.
Qed.

Lemma field_range_only s lo hi label ext : (String.length s <= max_str_digits)%nat -> sched_only (field_range s lo hi label ext).
Proof.
  intros Hl. unfold field_range. destruct (bool_decide _); [done|]. sched_step; [apply sched_reject_only|].
  unfold schedule_reject in H. apply reject_if_ok, orb_false_iff in H as [_ Hi]. rewrite existsb_false, Forall_forall in Hi.
  assert (forall b, b ∈ split_on "-" s -> sched_only (int_of b)) as Hint.
  { intros b Hb. apply int_of_only; [by apply negb_false_iff, Hi|]. etrans; [by apply (split_on_length "-")|done]. }
  destruct (split_on "-" s) as [|b0 bs] eqn:E; [by apply split_on_iff in E as [[] _]|].
  sched_step; [apply Hint; left|]. destruct (Nat.eqb _ _) eqn:En; repeat sched_step.
  destruct bs as [|b1 bs]; [done|]. apply Hint. right. left.
Qed.

Lemma field_values_only ss lo hi label : Forall (fun s => (String.length s <= max_str_digits)%nat) ss ->
  forall V, sched_only (field_values ss lo hi label V).
Proof.
  induction 1 as [|s ss Hs _ IH]; intros V; cbn [field_values]; [done|].
  sched_step; [by apply split_step_only|]. destruct a as [[b k] st]. sched_step.
  - apply field_range_only. apply split_step_ok in H as (_ & _ & [(<- & _)|(t & -> & _)]); [done|].
    rewrite <- length_chars in *. rewrite !chars_app, !length_app in Hs. etrans; [|exact Hs]. apply Nat.le_add_r.
  - destruct a as [x y]. sched_step; [apply sched_reject_only|]. apply IH.
Qed.

Lemma parse_field_only s lo hi label sunday : (String.length s <= max_str_digits)%nat -> sched_only (parse_field s lo hi label sunday).
Proof.
  intros Hl. unfold parse_field. sched_step; [apply sched_reject_only|]. sched_step; [|exact I].
  apply field_values_only. apply Forall_forall. intros p Hp%split_on_length. by etrans.
Qed.

Lemma parse_only s : sched_only (parse_five_field_cron s).
Proof.
  unfold parse_five_field_cron. sched_step; [apply sched_reject_only|].
  unfold schedule_reject in H. apply reject_if_ok in H. rewrite !orb_false_iff in H. destruct H as [[[[[[_ Hl] _] _] _] _] _].
  assert (forall p, p ∈ split_on " " s -> (String.length p <= max_str_digits)%nat) as Hp.
  { intros p Hp%split_on_length. unfold py_len, MAX_EXPRESSION_LENGTH in Hl. apply Z.ltb_ge in Hl.
    pose proof max_str_digits_value as Hm. lia. }
  destruct (split_on " " s) as [|p0 [|p1 [|p2 [|p3 [|p4 [|]]]]]]; try done. repeat sched_step; apply parse_field_only, Hp; set_solver.
Qed.

Lemma spells_split s c p0 p1 p2 p3 p4 :
  s = join " " [p0; p1; p2; p3; p4] -> spells_field p0 (ct_minute c) -> spells_field p1 (ct_hour c) ->
  spells_field p2 (ct_day_of_month c) -> spells_field p3 (ct_month c) -> spells_field p4 (ct_day_of_week c) ->
  Forall field_text [p0; p1; p2; p3; p4] /\ split_on " " s = [p0; p1; p2; p3; p4].
Proof.
  intros -> H0 H1 H2 H3 H4.
  assert (Forall field_text [p0; p1; p2; p3; p4]) as Ht by (repeat constructor; by eapply field_value_text).
  split; [done|]. apply split_on_join; [done|]. eapply Forall_impl; [exact Ht|].
  intros p [_ Hp]. by apply (all_chars_absent field_char).
Qed.

Lemma parse_sound s f : parse_five_field_cron s = Ok f -> exists c, spells_cron s c /\ cron_means f s c.
Proof.
  unfold parse_five_field_cron, schedule_reject. intros [Hg H]%seq_ok. apply reject_if_tt in Hg.
  rewrite !orb_false_iff in Hg. destruct Hg as [[[[[[_ Hl%Z.ltb_ge] _] _] _] _] _].
  destruct (split_on " " s) as [|p0 [|p1 [|p2 [|p3 [|p4 [|]]]]]] eqn:E; try discriminate H.
  apply split_on_iff in E as (_ & E & _).
  apply bind_ok in H as (m & (t0 & Hs0 & Ho0 & ->)%parse_field_ok & H); [|lia].
  apply bind_ok in H as (h & (t1 & Hs1 & Ho1 & ->)%parse_field_ok & H); [|lia].
  apply bind_ok in H as (d & (t2 & Hs2 & Ho2 & ->)%parse_field_ok & H); [|lia].
  apply bind_ok in H as (mo & (t3 & Hs3 & Ho3 & ->)%parse_field_ok & H); [|lia].
  apply bind_ok in H as (w & (t4 & Hs4 & Ho4 & ->)%parse_field_ok & [= <-]); [|lia].
  exists {| ct_minute := t0; ct_hour := t1; ct_day_of_month := t2; ct_month := t3; ct_day_of_week := t4 |}. split.
  - split; try done. by exists p0, p1, p2, p3, p4.
  - split; cbn; try (apply field_of_means; [lia|done]); [done|by apply weekday_of_means].
Qed.

Lemma parse_complete s f c : spells_cron s c -> cron_means f s c -> parse_five_field_cron s = Ok f.
Proof.
  intros [(p0 & p1 & p2 & p3 & p4 & Es & H0 & H1 & H2 & H3 & H4) Hl Ho0 Ho1 Ho2 Ho3 Ho4] [M M0 M1 M2 M3 M4].
  destruct (spells_split _ _ _ _ _ _ _ Es H0 H1 H2 H3 H4) as [Ht Esp]. unfold parse_five_field_cron, schedule_reject.
  pose proof (cron_text_canonical _ Ht ltac:(cbn; lia)) as Hc. cbv zeta in Hc. rewrite <- Es in Hc. rewrite (Hc Hl), Esp.
  cbn [reject_if mbind result_bind]. clear Hc.
  rewrite (proj2 (parse_field_ok p0 0 59 "minute" false _ ltac:(lia)) ltac:(by exists (ct_minute c))). cbn [mbind result_bind].
  rewrite (proj2 (parse_field_ok p1 0 23 "hour" false _ ltac:(lia)) ltac:(by exists (ct_hour c))). cbn [mbind result_bind].
  rewrite (proj2 (parse_field_ok p2 1 31 "day of month" false _ ltac:(lia)) ltac:(by exists (ct_day_of_month c))). cbn [mbind result_bind].
  rewrite (proj2 (parse_field_ok p3 1 12 "month" false _ ltac:(lia)) ltac:(by exists (ct_month c))). cbn [mbind result_bind].
  rewrite (proj2 (parse_field_ok p4 0 7 "day of week" true _ ltac:(lia)) ltac:(by exists (ct_day_of_week c))). cbn [mbind result_bind].
  destruct f as [e f0 f1 f2 f3 f4]. cbn in *. subst e. f_equal. f_equal.
  - by eapply field_means_eq; [apply field_of_means; [lia|]|].
  - by eapply field_means_eq; [apply field_of_means; [lia|]|].
  - by eapply field_means_eq; [apply field_of_means; [lia|]|].
  - by eapply field_means_eq; [apply field_of_means; [lia|]|].
  - by eapply field_means_eq; [apply weekday_of_means|].
Qed.

(** C24: the cron parser is exact. It accepts a text exactly when the text is a
    list of five fields of the grammar, separated by single spaces, at most 256
    characters long, with every number, range and step within the limits of its
    field; the parsed schedule then holds exactly the minutes, hours, days,
    months and weekdays the terms denote (a lone number with a step runs to the
    end of the field, and weekday 7 is Sunday, 0), and knows which fields are
    the bare star.  Every other text is refused with a schedule error. *)
Theorem parse_exact s :
  match parse_five_field_cron s with
  | Ok f => exists c, spells_cron s c /\ cron_means f s c
  | Raise e => exn_cls e = ScheduleExpressionError /\ forall c, ~ spells_cron s c
  end.
Proof.
  destruct (parse_five_field_cron s) as [f|e] eqn:E; [by apply parse_sound|]. split.
  - pose proof (parse_only s) as H. by rewrite E in H.
  - intros c Hc.
    set (f := {| fc_expression := s; fc_minute := field_of 0 59 false (ct_minute c); fc_hour := field_of 0 23 false (ct_hour c);
                 fc_day_of_month := field_of 1 31 false (ct_day_of_month c); fc_month := field_of 1 12 false (ct_month c);
                 fc_day_of_week := field_of 0 7 true (ct_day_of_week c) |}).
    assert (parse_five_field_cron s = Ok f); [|congruence]. apply (parse_complete s f c Hc). destruct Hc.
    split; cbn; try (apply field_of_means; [lia|done]); [done|by apply weekday_of_means].
Qed.

(** ** The scan *)

(** The rule for one local minute: with one of the two day fields a bare star the
    other decides, with neither a match of either is enough. *)
Definition cron_rule (f : FiveFieldCron) (local : datetime) : bool :=
  bool_decide (dt_minute local ∈ cf_values (fc_minute f)) && bool_decide (dt_hour local ∈ cf_values (fc_hour f))
  && bool_decide (dt_month local ∈ cf_values (fc_month f)) &&
  let month_day := bool_decide (dt_day local ∈ cf_values (fc_day_of_month f)) in
  let week_day := bool_decide ((dt_weekday local + 1) mod 7 ∈ cf_values (fc_day_of_week f)) in
  match cf_unrestricted (fc_day_of_month f), cf_unrestricted (fc_day_of_week f) with
  | true, true => true
  | true, false => week_day
  | false, true => month_day
  | false, false => month_day || week_day
  end.

(** The minute [t] (an instant) as the zone's clocks show it. *)
Definition local_time (zone : ZoneInfo) (t : Z) : datetime := Datetime (t + zone t) (Some (zone t)).
Definition due (f : FiveFieldCron) (zone : ZoneInfo) (t : datetime) : bool := cron_rule f (local_time zone (instant t)).

(** The [n] UTC minutes after the instant [a], and those at which [f] is due. *)
Definition minutes_after (a : Z) (n : nat) : list datetime :=
  (fun i => utc (a + (Z.of_nat i + 1) * us_per_minute)) <$> seq 0 n.
Definition occurrences (f : FiveFieldCron) (zone : ZoneInfo) (a : Z) (n : nat) : list datetime :=
  filter (fun t => due f zone t = true) (minutes_after a n).

Lemma minutes_after_S a n : minutes_after a (S n) = utc (a + us_per_minute) :: minutes_after (a + us_per_minute) n.
Proof.
  unfold minutes_after. rewrite <- cons_seq, fmap_cons. f_equal.
  rewrite <- fmap_S_seq, <- list_fmap_compose. apply list_fmap_ext. intros i x _. unfold compose, utc. f_equal. lia.
Qed.

Lemma minutes_after_app a n m : minutes_after a (n + m) = minutes_after a n ++ minutes_after (a + Z.of_nat n * us_per_minute) m.
Proof.
  revert a. induction n as [|n IH]; intros a; [by cbn; rewrite Z.add_0_r|].
  cbn [Nat.add]. rewrite !minutes_after_S, IH. cbn [app]. do 2 f_equal. f_equal. lia.
Qed.

(** Consecutive intervals: nothing is lost or repeated where they meet. *)
Lemma occurrences_app f zone a n m :
  occurrences f zone a (n + m) = occurrences f zone a n ++ occurrences f zone (a + Z.of_nat n * us_per_minute) m.
Proof. unfold occurrences. by rewrite minutes_after_app, filter_app. Qed.

Lemma elem_of_occurrences f zone a n t :
  t ∈ occurrences f zone a n <->
  due f zone t = true /\ exists i : nat, (i < n)%nat /\ t = utc (a + (Z.of_nat i + 1) * us_per_minute).
Proof.
  unfold occurrences, minutes_after. rewrite list_elem_of_filter, list_elem_of_fmap. setoid_rewrite elem_of_seq.
  split; intros (H1 & i & H2 & H3); (split; [done|]); exists i; split; (done || lia).
Qed.

Lemma matches_rule f local : dt_offset local <> None -> FiveFieldCron_matches f local = Ok (cron_rule f local).
Proof.
  intros Ho. unfold FiveFieldCron_matches, cron_rule, is_naive. destruct (dt_offset local) as [o|]; [|done]. cbn [is_none schedule_reject reject_if mbind result_bind].
  destruct (bool_decide (dt_minute local ∈ _) && _ && _); [|done]. cbn [negb andb].
  destruct (cf_unrestricted (fc_day_of_month f)), (cf_unrestricted (fc_day_of_week f)); done.
Qed.

(** Room for the conversion to any zone: a day from either end of the calendar. *)
Definition convertible (t : Z) : Prop := (min_days + 1) * us_per_day <= t < max_days * us_per_day.

Lemma checked_in_range d : min_days <= dt_days d <= max_days -> checked_datetime d = Ok d.
Proof. intros [H1 H2]. unfold checked_datetime. by rewrite !(proj2 (Z.leb_le _ _)) by done. Qed.

Lemma days_between l x : min_days * us_per_day <= x < (max_days + 1) * us_per_day -> dt_days (Datetime x l) = x / us_per_day /\ min_days <= x / us_per_day <= max_days.
Proof.
  intros H. unfold dt_days. cbn. split; [done|]. assert (0 < us_per_day) by done. split.
  - apply Z.div_le_lower_bound; lia.
  - apply Z.lt_succ_r, Z.div_lt_upper_bound; lia.
Qed.

Lemma astimezone_ok zone t : convertible t -> Z.abs (zone t) < us_per_day -> astimezone (utc t) zone = Ok (local_time zone t).
Proof.
  unfold convertible. intros H Hz. unfold astimezone, instant. cbn [dt_local dt_offset utc or_else]. rewrite Z.sub_0_r. fold (local_time zone t).
  apply checked_in_range. unfold local_time. destruct (days_between (Some (zone t)) (t + zone t) ltac:(lia)) as [-> Hd]. exact Hd.
Qed.

Lemma add_minute_ok t : convertible t -> add_minutes (utc t) 1 = Ok (utc (t + us_per_minute)).
Proof.
  unfold convertible. intros H. unfold add_minutes. cbn [dt_local dt_offset utc]. rewrite Z.mul_1_l. apply checked_in_range.
  assert (us_per_minute < us_per_day) by done. assert (0 < us_per_minute) by done.
  unfold utc. destruct (days_between (Some 0) (t + us_per_minute) ltac:(lia)) as [-> Hd]. exact Hd.
Qed.

Definition over_bound {A} : result A := raise_ ScheduleExpressionError "The cron scan exceeds its occurrence bound.".

Lemma instant_utc t : instant (utc t) = t.
Proof. unfold instant, utc. cbn. lia. Qed.

Lemma scan_minutes_S n f zone through max_occurrences candidate acc :
  scan_minutes (S n) f zone through max_occurrences candidate acc =
  (if dt_ltb through candidate then Ok acc
   else
     local ← astimezone candidate zone;
     hit ← FiveFieldCron_matches f local;
     let acc := if hit : bool then acc ++ [candidate] else acc in
     _ ← schedule_reject (hit && (max_occurrences <? Z.of_nat (length acc))) "The cron scan exceeds its occurrence bound.";
     candidate ← add_minutes candidate 1;
     scan_minutes n f zone through max_occurrences candidate acc).
Proof. done. Qed.

Lemma scan_minutes_spec f zone max_occurrences k : forall a acc,
  (forall t, Z.abs (zone t) < us_per_day) -> convertible a -> convertible (a + (Z.of_nat k + 1) * us_per_minute) ->
  Z.of_nat (length acc) <= max_occurrences ->
  scan_minutes (S k) f zone (utc (a + Z.of_nat k * us_per_minute)) max_occurrences (utc (a + us_per_minute)) acc =
  let hits := acc ++ occurrences f zone a k in
  if max_occurrences <? Z.of_nat (length hits) then over_bound else Ok hits.
Proof.
  induction k as [|k IH]; intros a acc Hz Ha He Hacc; rewrite scan_minutes_S; unfold dt_ltb; rewrite !instant_utc.
  - rewrite (proj2 (Z.ltb_lt _ _)) by (assert (0 < us_per_minute) by done; lia). cbn. rewrite app_nil_r.
    by rewrite (proj2 (Z.ltb_ge _ _)).
  - assert (0 < us_per_minute) by done. rewrite (proj2 (Z.ltb_ge _ _)) by lia.
    assert (convertible (a + us_per_minute)) as Hc by (unfold convertible in *; lia).
    rewrite (astimezone_ok zone _ Hc) by done. cbn [mbind result_bind]. rewrite matches_rule by done. cbn [mbind result_bind].
    unfold occurrences. rewrite minutes_after_S.
    replace (a + Z.of_nat (S k) * us_per_minute) with (a + us_per_minute + Z.of_nat k * us_per_minute) by lia.
    assert (convertible (a + us_per_minute + (Z.of_nat k + 1) * us_per_minute)) as He' by (unfold convertible in *; lia).
    replace (cron_rule f (local_time zone (a + us_per_minute))) with (due f zone (utc (a + us_per_minute)))
      by (unfold due; by rewrite instant_utc).
    rewrite filter_cons. destruct (due f zone (utc (a + us_per_minute))) eqn:Ed; cbn [andb].
    + rewrite decide_True by done. unfold schedule_reject. destruct (Z.ltb_spec max_occurrences (Z.of_nat (length (acc ++ [utc (a + us_per_minute)])))) as [Hlt|Hge].
      * cbn [reject_if mbind result_bind]. rewrite length_app in Hlt. cbn [length] in Hlt. cbv zeta.
        rewrite (proj2 (Z.ltb_lt _ _)); [done|]. rewrite length_app. cbn [length]. lia.
      * cbn [reject_if mbind result_bind]. rewrite (add_minute_ok _ Hc). cbn [mbind result_bind]. rewrite IH by done.
        unfold occurrences. by rewrite <- app_assoc.
    + rewrite decide_False by done. cbn [reject_if schedule_reject mbind result_bind]. rewrite (add_minute_ok _ Hc). cbn [mbind result_bind]. by apply IH.
Qed.

Lemma require_utc_minute_ok t label : t mod us_per_minute = 0 -> require_utc_minute (utc t) label = Ok tt.
Proof.
  intros H. unfold require_utc_minute. apply reject_if_tt. unfold is_naive. cbn [utc dt_offset is_none negb orb].
  rewrite bool_decide_eq_true_2 by done. cbn [negb orb]. unfold dt_second, dt_microsecond, dt_in_day, utc. cbn [dt_local].
  apply Z.mod_divide in H as [q ->]; [|done]. change us_per_day with (1440 * us_per_minute).
  rewrite Z.mul_mod_distr_r by done. change us_per_minute with (60 * us_per_second).
  rewrite (Z.mul_assoc (q mod 1440)), Z.div_mul, !Z.mod_mul by done. done.
Qed.

Definition utc_minute (t : datetime) : Prop := t = utc (instant t) /\ instant t mod us_per_minute = 0.

Lemma require_utc_minute_iff t label : require_utc_minute t label = Ok tt <-> utc_minute t.
Proof.
  split.
  - unfold require_utc_minute, schedule_reject. rewrite reject_if_tt, !orb_false_iff, !negb_false_iff, bool_decide_eq_true, !Z.eqb_eq.
    intros [[[_ Ho] Hs] Hu]. destruct t as [l o]. cbn in Ho. subst o. split; [unfold instant, utc; cbn; f_equal; lia|].
    replace (instant (Datetime l (Some 0))) with l by (unfold instant; cbn; lia).
    unfold dt_second, dt_microsecond, dt_in_day in *. cbn [dt_local] in *.
    pose proof (Z.div_mod l us_per_day ltac:(done)) as H1. pose proof (Z.div_mod (l mod us_per_day) us_per_second ltac:(done)) as H2.
    pose proof (Z.div_mod (l mod us_per_day / us_per_second) 60 ltac:(done)) as H3. rewrite Hu in H2. rewrite Hs in H3.
    apply Z.mod_divide; [done|]. exists (1440 * (l / us_per_day) + l mod us_per_day / us_per_second / 60).
    rewrite H1 at 1. rewrite H2 at 1. rewrite H3 at 1. change us_per_day with (1440 * us_per_minute). change us_per_minute with (60 * us_per_second). ring.
  - intros [E H]. rewrite E. by apply require_utc_minute_ok.
Qed.

(** The arguments the scan accepts. *)
Record scan_arguments (after through : datetime) (max_minutes max_occurrences : Z) : Prop := {
  sa_after : utc_minute after;
  sa_through : utc_minute through;
  sa_order : instant after <= instant through;
  sa_minutes : 1 <= max_minutes <= 525600;
  sa_occurrences : 1 <= max_occurrences <= 10000;
  sa_span : (instant through - instant after) / us_per_minute <= max_minutes;
}.

Definition span (after through : datetime) : nat := Z.to_nat ((instant through - instant after) / us_per_minute).

Lemma span_exact after through : utc_minute after -> utc_minute through -> instant after <= instant through ->
  instant through = instant after + Z.of_nat (span after through) * us_per_minute.
Proof.
  intros [_ Ha] [_ Ht] Hle. unfold span. rewrite Z2Nat.id by (apply Z.div_pos; [lia|done]).
  apply Z.mod_divide in Ha as [x Hx], Ht as [y Hy]; try done. rewrite Hx, Hy, <- Z.mul_sub_distr_r, Z.div_mul by done. ring.
Qed.

Lemma iter_accepted f zone after through max_minutes max_occurrences :
  (forall t, Z.abs (zone t) < us_per_day) -> convertible (instant after) -> convertible (instant through + us_per_minute) ->
  scan_arguments after through max_minutes max_occurrences ->
  iter_schedule_occurrences f zone after through max_minutes max_occurrences =
  let hits := occurrences f zone (instant after) (span after through) in
  if max_occurrences <? Z.of_nat (length hits) then over_bound else Ok hits.
Proof.
  intros Hz Hca Hct [Ha Ht Ho Hm Hc Hs]. unfold iter_schedule_occurrences, schedule_reject.
  rewrite (proj2 (require_utc_minute_iff _ _) Ha), (proj2 (require_utc_minute_iff _ _) Ht). cbn [mbind result_bind].
  unfold dt_ltb. rewrite (proj2 (Z.ltb_ge _ _) Ho), !(proj2 (Z.leb_le _ _)), (proj2 (Z.ltb_ge _ _) Hs) by lia.
  cbn [andb negb reject_if mbind result_bind]. pose proof (span_exact _ _ Ha Ht Ho) as Hsp.
  destruct Ha as [Ea Ha], Ht as [Et Ht]. rewrite Ea at 1. rewrite add_minute_ok by done. cbn [mbind result_bind].
  fold (span after through). rewrite Et. rewrite Hsp at 2. rewrite <- Et.
  rewrite scan_minutes_spec; [done|done|done| |cbn; lia].
  replace (instant after + (Z.of_nat (span after through) + 1) * us_per_minute) with (instant through + us_per_minute) by lia. done.
Qed.

Lemma iter_cases f zone after through max_minutes max_occurrences :
  scan_arguments after through max_minutes max_occurrences \/
  (~ scan_arguments after through max_minutes max_occurrences /\
   exists m, iter_schedule_occurrences f zone after through max_minutes max_occurrences = raise_ SchedErr m).
Proof.
  unfold iter_schedule_occurrences, schedule_reject.
  destruct (require_utc_minute after _) as [[]|e] eqn:E1; [apply require_utc_minute_iff in E1|].
  2: { right. split; [by intros [H%(require_utc_minute_iff _ "schedule cursor") _ _ _ _ _]; rewrite H in E1|].
       unfold require_utc_minute, schedule_reject in E1. apply reject_if_raise in E1 as [_ ->]. by eexists. }
  destruct (require_utc_minute through _) as [[]|e] eqn:E2; [apply require_utc_minute_iff in E2|].
  2: { right. split; [by intros [_ H%(require_utc_minute_iff _ "schedule horizon") _ _ _ _]; rewrite H in E2|].
       unfold require_utc_minute, schedule_reject in E2. apply reject_if_raise in E2 as [_ ->]. by eexists. }
  cbn [mbind result_bind]. unfold dt_ltb. destruct (Z.ltb_spec (instant through) (instant after)); [right; split; [intros []; lia|by eexists]|].
  destruct (Z.leb_spec 1 max_minutes), (Z.leb_spec max_minutes 525600); try (right; split; [intros []; lia|by eexists]).
  destruct (Z.leb_spec 1 max_occurrences), (Z.leb_spec max_occurrences 10000); try (right; split; [intros []; lia|by eexists]).
  destruct (Z.ltb_spec max_minutes ((instant through - instant after) / us_per_minute)); [right; split; [intros []; lia|by eexists]|].
  left. by split.
Qed.

Lemma iter_ok f zone after through max_minutes max_occurrences hits :
  (forall t, Z.abs (zone t) < us_per_day) -> convertible (instant after) -> convertible (instant through + us_per_minute) ->
  iter_schedule_occurrences f zone after through max_minutes max_occurrences = Ok hits ->
  scan_arguments after through max_minutes max_occurrences /\ hits = occurrences f zone (instant after) (span after through) /\
  Z.of_nat (length hits) <= max_occurrences.
Proof.
  intros Hz Ha Ht H. destruct (iter_cases f zone after through max_minutes max_occurrences) as [Hv|(_ & m & E)]; [|rewrite E in H; discriminate H].
  split; [done|]. rewrite iter_accepted in H by done. cbv zeta in H.
  destruct (Z.ltb_spec max_occurrences (Z.of_nat (length (occurrences f zone (instant after) (span after through))))); [done|].
  injection H as <-. by split.
Qed.

(** C25: the bounded scan is exact. For datetimes a day away from the ends of the
    calendar and a zone whose offsets are less than a day (as Python requires of
    every zone), the scan returns exactly the UTC minutes after the cursor and up
    to the horizon that the cron rule selects on the zone's clocks, in order,
    each once, and at most the occurrence bound of them; it never runs out of
    iterations. It refuses with a schedule error exactly when an argument is not
    an exact UTC minute, the interval is reversed or longer than its bound, a
    bound is out of range, or more minutes match than the bound allows. *)
Theorem iter_exact f zone after through max_minutes max_occurrences
    (Hz : forall t, Z.abs (zone t) < us_per_day)
    (Hca : convertible (instant after)) (Hct : convertible (instant through + us_per_minute)) :
  match iter_schedule_occurrences f zone after through max_minutes max_occurrences with
  | Ok hits =>
      scan_arguments after through max_minutes max_occurrences /\
      hits = occurrences f zone (instant after) (span after through) /\ Z.of_nat (length hits) <= max_occurrences
  | Raise e =>
      exn_cls e = ScheduleExpressionError /\
      (scan_arguments after through max_minutes max_occurrences ->
       max_occurrences < Z.of_nat (length (occurrences f zone (instant after) (span after through))))
  end.
Proof.
  destruct (iter_schedule_occurrences f zone after through max_minutes max_occurrences) as [hits|e] eqn:E; [by apply iter_ok|].
  destruct (iter_cases f zone after through max_minutes max_occurrences) as [Hv|(Hv & m & E')]; [|rewrite E in E'; by injection E' as ->].
  rewrite iter_accepted in E by done. cbv zeta in E.
  destruct (Z.ltb_spec max_occurrences (Z.of_nat (length (occurrences f zone (instant after) (span after through))))); [by injection E as <-|done].
Qed.

(** ** An example: quarter hours of working days, across a change of the clocks *)

(** UTC+1, and UTC+2 from 2026-03-29T01:00:00Z. *)
Definition amsterdam : ZoneInfo := fun t =>
  if t <? (days_from_civil 2026 3 29 * 24 + 1) * 3600 * us_per_second then 3600 * us_per_second else 7200 * us_per_second.
Definition utc_at (y m d hh mm : Z) : datetime := utc ((days_from_civil y m d * 1440 + hh * 60 + mm) * us_per_minute).

Definition no_field : CronField := {| cf_values := ∅; cf_unrestricted := false |}.
Definition no_schedule : FiveFieldCron :=
  {| fc_expression := ""; fc_minute := no_field; fc_hour := no_field; fc_day_of_month := no_field; fc_month := no_field;
     fc_day_of_week := no_field |}.
Definition quarter_hours : FiveFieldCron :=
  match parse_five_field_cron "*/15 3,9-17 * * 1-5,7" with Ok f => f | Raise _ => no_schedule end.

(** The night the clocks go from 02:00 to 03:00 local time. *)
Lemma iter_exact_witness :
  iter_schedule_occurrences quarter_hours amsterdam (utc_at 2026 3 29 0 30) (utc_at 2026 3 29 1 20) 60 10
  = Ok [utc_at 2026 3 29 1 0; utc_at 2026 3 29 1 15] /\
  occurrences quarter_hours amsterdam (instant (utc_at 2026 3 29 0 30)) 50 = [utc_at 2026 3 29 1 0; utc_at 2026 3 29 1 15].
Proof.
  pose proof (iter_exact quarter_hours amsterdam (utc_at 2026 3 29 0 30) (utc_at 2026 3 29 1 20) 60 10) as H.
  assert (iter_schedule_occurrences quarter_hours amsterdam (utc_at 2026 3 29 0 30) (utc_at 2026 3 29 1 20) 60 10
          = Ok [utc_at 2026 3 29 1 0; utc_at 2026 3 29 1 15]) as E by (vm_compute; reflexivity).
  rewrite E in H. split; [exact E|]. symmetry. apply H.
  - intros t. unfold amsterdam. destruct (_ <? _); vm_compute; reflexivity.
  - vm_compute. split; [discriminate|reflexivity].
  - vm_compute. split; [discriminate|reflexivity].
Defined.
