(* ===== verification/TriggerCodec.v ===== *)
(** * Codecs of triggers and wakeups ([control/orchestration_serialization.py])

    Trigger specifications and queue bodies read back as what was written, and
    their readers accept canonical text only. *)

From S2P Require Import Prelude Regex PyStr Sha256 PyTime Json JsonParse JsonRead Identifiers Projection PhysicalPlan Graph Orchestration RunCodec.

Local Open Scope string_scope.
Local Open Scope Z_scope.
Local Open Scope list_scope.

(** ** Wakeups *)

Record wakeup_value (w : ScheduleWakeup) : Prop := {
  wv_post : ScheduleWakeup_post_init w = Ok tt;
  wv_occurrence : in_range (sw_scheduled_occurrence w);
}.

Lemma wakeup_fields w : ScheduleWakeup_post_init w = Ok tt ->
  portable_id (sw_trigger_id w) = true /\ is_sha256 (sw_plan_revision w) = true /\ is_utc (sw_scheduled_occurrence w) = true.
Proof.
  unfold ScheduleWakeup_post_init, require_portable, Orchestration.require_sha256, require_utc, contract_reject. intros H. inv_ok. done.
Qed.

(** A body is far shorter than its bound. *)
Lemma pad_left_length w n : 0 <= n < 10 ^ Z.of_nat w -> (0 < w)%nat -> length (chars (pad_left w n)) = w.
Proof. intros H Hw. destruct (pad_left_digits w n H Hw) as (ds & -> & <- & _). apply length_fmap. Qed.

Lemma timestamp_length d : utc_value d -> (String.length (timestamp d) <= 27)%nat.
Proof.
  intros [Hu Hr]. rewrite timestamp_utc by done. apply is_utc_spec in Hu. rewrite Hu in Hr |- *. revert Hr. generalize (instant d). clear. intros i Hr.
  rewrite <- length_chars. unfold utc_timestamp. change (instant (utc i)) with (i - 0). rewrite Z.sub_0_r.
  set (n := Datetime i None). change (in_range n) in Hr. destruct (clock_fields n) as (_ & Hh & Hm & Hs & Hus).
  unfold us_per_second in Hus.
  destruct (dt_date n) as [[y m] day] eqn:Ed. destruct (civil_roundtrip _ _ _ _ Ed) as (_ & Hmo & Hda).
  pose proof (civil_year _ _ _ _ Hr Ed) as Hy.
  assert (days_in_month y m <= 31) as Hdim by (unfold days_in_month; destruct (m =? 2), (is_leap y); try lia; case_bool_decide; lia).
  unfold isoformat. rewrite Ed. unfold date_isoformat. cbn [fst snd]. change (offset_text (dt_offset n)) with "".
  rewrite !chars_app, !length_app. rewrite !pad_left_length by (cbn; lia). cbn [chars length].
  destruct (dt_microsecond n =? 0); [cbn; lia|].
  rewrite chars_app, length_app, pad_left_length by (cbn; lia). cbn. lia.
Qed.

Lemma portable_id_length s : portable_id s = true -> (String.length s <= 63)%nat.
Proof. rewrite <- length_chars. intros (c & l & -> & _ & Hl & _)%portable_id_spec. cbn. lia. Qed.

Lemma wakeup_length w : wakeup_value w -> Z.of_nat (length (serialize_schedule_wakeup w)) <= MAX_WAKEUP_BYTES.
Proof.
  intros [Hp Hr]. destruct (wakeup_fields w Hp) as (Ht & Hs & Hu). unfold serialize_schedule_wakeup, canonical_json, dumps_unicode.
  pose proof (timestamp_length _ (conj Hu Hr)) as Hts. pose proof (portable_id_length _ Ht) as Htl.
  assert (String.length (sw_plan_revision w) = 64%nat) as Hrl.
  { rewrite <- length_chars. apply is_sha256_spec in Hs as [Hs _]. exact Hs. }
  generalize dependent (timestamp (sw_scheduled_occurrence w)). intros occurrence Hts.
  set (v := wakeup_json _ _ _). pose proof (encode_length (dumps false v)) as H1. subst v. unfold wakeup_json in *.
  pose proof (dumps_obj_length false [("schema", JStr SCHEDULE_WAKEUP_SCHEMA); ("trigger_id", JStr (sw_trigger_id w));
    ("plan_revision", JStr (sw_plan_revision w)); ("scheduled_occurrence", JStr occurrence)]) as H2.
  cbn [map total foldr] in H2.
  pose proof (member_length false "schema" (JStr SCHEDULE_WAKEUP_SCHEMA)) as M1.
  pose proof (member_length false "trigger_id" (JStr (sw_trigger_id w))) as M2.
  pose proof (member_length false "plan_revision" (JStr (sw_plan_revision w))) as M3.
  pose proof (member_length false "scheduled_occurrence" (JStr occurrence)) as M4.
  cbn [dumps] in M1, M2, M3, M4.
  pose proof (quoted_length false SCHEDULE_WAKEUP_SCHEMA) as Q1. pose proof (quoted_length false (sw_trigger_id w)) as Q2.
  pose proof (quoted_length false (sw_plan_revision w)) as Q3. pose proof (quoted_length false occurrence) as Q4.
  cbn [String.length SCHEDULE_WAKEUP_SCHEMA] in M1, M2, M3, M4, Q1. unfold MAX_WAKEUP_BYTES.
  change (String.length SCHEDULE_WAKEUP_SCHEMA) with 36%nat in Q1. lia.
Qed.

Lemma wakeup_json_ok w : json_ok (wakeup_json (sw_trigger_id w) (sw_plan_revision w) (timestamp (sw_scheduled_occurrence w))).
Proof. unfold wakeup_json. json_ok_fields. Qed.

Lemma wakeup_reads w : wakeup_value w -> deserialize_schedule_wakeup (serialize_schedule_wakeup w) = Ok w.
Proof.
  intros Hw. pose proof (wakeup_length w Hw) as Hlen. destruct Hw as [Hp Hr]. destruct (wakeup_fields w Hp) as (_ & _ & Hu).
  set (data := serialize_schedule_wakeup w) in *. assert (data = serialize_schedule_wakeup w) as Hdata by done. clearbody data.
  unfold deserialize_schedule_wakeup. apply reading_ok.
  eapply bind_get.
  { rewrite Hdata in Hlen |- *. unfold serialize_schedule_wakeup, wakeup_json in *.
    apply (envelope_sorted _ SCHEDULE_WAKEUP_SCHEMA); [exact (wakeup_json_ok w)|vm_compute; reflexivity|reflexivity|by left|exact Hlen]. }
  cbv beta. do 2 (get get_string_sorted). get get_datetime_sorted; [by split|].
  destruct w as [t p o]. cbn [sw_trigger_id sw_plan_revision sw_scheduled_occurrence] in *. cbv zeta.
  eapply (bind_get _ _ tt); [exact Hp|cbv beta]. eapply (bind_get _ _ tt); [by apply require_canonical_ok|done].
Qed.

Lemma wakeup_inj w w' : wakeup_value w -> wakeup_value w' ->
  serialize_schedule_wakeup w = serialize_schedule_wakeup w' -> w = w'.
Proof. intros H H' E. apply wakeup_reads in H, H'. rewrite E in H. congruence. Qed.

Lemma wakeup_nonempty w : serialize_schedule_wakeup w <> [].
Proof. unfold serialize_schedule_wakeup, canonical_json, dumps_unicode, wakeup_json. rewrite dumps_obj. apply encode_nonempty. Qed.

Lemma wakeup_raises data : only SerErr (deserialize_schedule_wakeup data).
Proof.
  unfold deserialize_schedule_wakeup. apply reading_raises. apply raises_bind; [apply load_envelope_caught|intros l _]. caught_tac.
  apply contract_caught. unfold ScheduleWakeup_post_init. unfold_requires. only_tac.
Qed.

(** A timestamp that was read is a UTC value. *)
Lemma read_datetime_inv v label d : read_datetime v label = Ok d -> utc_value d.
Proof.
  unfold read_datetime. intros (raw & _ & H)%bind_ok. apply bind_ok in H as (u & _ & H).
  destruct (parse_utc raw) as [d'|] eqn:E; [|done]. injection H as <-. by apply (parse_utc_in_range raw).
Qed.

(** What is read is a valid wakeup in its canonical text. *)
Lemma wakeup_read_inv data w : deserialize_schedule_wakeup data = Ok w ->
  wakeup_value w /\ data = serialize_schedule_wakeup w /\ Z.of_nat (length data) <= MAX_WAKEUP_BYTES.
Proof.
  intros E. unfold deserialize_schedule_wakeup in E. apply reading_ok_inv in E.
  apply bind_ok in E as (l & Hl & E). apply load_envelope_size in Hl as [_ Hl].
  repeat (apply bind_ok in E; destruct E as (? & ? & E)). injection E as <-.
  match goal with H : require_canonical _ _ = _ |- _ => apply require_canonical_ok in H end.
  match goal with H : ScheduleWakeup_post_init _ = Ok ?u |- _ => destruct u end. split_and!; try done. split; [done|].
  cbn [sw_scheduled_occurrence]. match goal with H : get_datetime _ _ = Ok _ |- _ => apply bind_ok in H as (? & _ & H); apply (read_datetime_inv _ _ _ H) end.
Qed.

(** ** Trigger specifications *)

Lemma trigger_spec_json_ok t : json_ok (trigger_spec_json t).
Proof.
  unfold trigger_spec_json. json_ok_fields. json_ok_fields; by apply json_ok_jopt.
Qed.

Lemma trigger_spec_reads t :
  TriggerSpec_post_init t = Ok tt -> Z.of_nat (length (serialize_trigger_spec t)) <= MAX_TRIGGER_BYTES ->
  deserialize_trigger_spec (serialize_trigger_spec t) = Ok t.
Proof.
  intros Hp Hlen. set (data := serialize_trigger_spec t) in *.
  assert (data = serialize_trigger_spec t) as Hdata by done. clearbody data.
  unfold deserialize_trigger_spec. apply reading_ok.
  eapply bind_get.
  { rewrite Hdata in Hlen |- *. unfold serialize_trigger_spec, trigger_spec_json in *.
    apply (envelope_sorted _ TRIGGER_SPEC_SCHEMA); [exact (trigger_spec_json_ok t)|vm_compute; reflexivity|reflexivity|by left|exact Hlen]. }
  cbv beta. eapply bind_get.
  { eapply bind_get; [eapply field_sorted; [vm_compute; reflexivity|reflexivity]|cbv beta]. apply mapping_sorted. }
  cbv beta. get get_string_sorted. get_member (ts_kind t). do 2 (get get_string_sorted). get get_boolean_sorted.
  do 3 (get get_optional_string_sorted). destruct t. cbn in *. cbv zeta.
  eapply (bind_get _ _ tt); [exact Hp|cbv beta]. eapply (bind_get _ _ tt); [by apply require_canonical_ok|done].
Qed.

(** The codecs of triggers and wakeups are exact: valid values read back, every
    accepted text is the canonical text of a valid value, and every other text
    raises [OrchestrationSerializationError]. *)
Theorem trigger_codecs :
  (forall w, wakeup_value w -> deserialize_schedule_wakeup (serialize_schedule_wakeup w) = Ok w) /\
  (forall data, match deserialize_schedule_wakeup data with
                | Ok w => ScheduleWakeup_post_init w = Ok tt /\ data = serialize_schedule_wakeup w
                | Raise e => catches OrchestrationSerializationError e = true
                end) /\
  (forall t, TriggerSpec_post_init t = Ok tt -> Z.of_nat (length (serialize_trigger_spec t)) <= MAX_TRIGGER_BYTES ->
     deserialize_trigger_spec (serialize_trigger_spec t) = Ok t) /\
  (forall data, match deserialize_trigger_spec data with
                | Ok t => TriggerSpec_post_init t = Ok tt /\ data = serialize_trigger_spec t
                | Raise e => catches OrchestrationSerializationError e = true
                end).
Proof.
  split_and!.
  - exact wakeup_reads.
  - intros data. pose proof (wakeup_raises data) as H. destruct (deserialize_schedule_wakeup data) as [w|e] eqn:E; [|exact H].
    apply wakeup_read_inv in E as (H1 & H2 & _). split; [apply H1|done].
  - exact trigger_spec_reads.
  - intros data. destruct (deserialize_trigger_spec data) as [t|e] eqn:E.
    + unfold deserialize_trigger_spec in E. apply reading_ok_inv in E.
      repeat (apply bind_ok in E; destruct E as (? & ? & E)). injection E as <-.
      match goal with H : require_canonical _ _ = _ |- _ => apply require_canonical_ok in H end.
      match goal with H : TriggerSpec_post_init _ = Ok ?u |- _ => destruct u; by split end.
    + assert (only SerErr (deserialize_trigger_spec data)) as H; [|by rewrite E in H].
      unfold deserialize_trigger_spec. apply reading_raises. apply raises_bind; [apply load_envelope_caught|intros l _]. caught_tac.
      apply contract_caught. unfold TriggerSpec_post_init. unfold_requires. only_tac. destruct (ts_kind _); only_tac.
Qed.
