(* ===== verification/ScheduleConsumer.v ===== *)
(** * The schedule consumer ([control/schedule_consumer.py])

    Resolving a wakeup into the submission of its exact plan, and the loop that
    takes messages from the queue, starts their runs and acknowledges them.  The
    queue, the graph store and the lifecycle are operations on the world; the
    stop flag, which another thread may set at any time, is read from it. *)

From S2P Require Import Prelude Regex PyStr Sha256 PyTime Json JsonRead Identifiers Projection PhysicalPlan Graph Orchestration RunCodec RunTransition Contract Placement RunStatus Lifecycle SchedulePort.

Local Open Scope string_scope.
Local Open Scope Z_scope.
Local Open Scope list_scope.

(** ** Resolving an occurrence *)

Record ScheduledRunSubmissionResolver (W : Type) : Type := {
  sr_plans : ExecutionPlanRegistry;
  sr_graph : string -> string -> M W GraphRecord;          (* graph_store.get *)
  sr_triggers : gmap string TriggerSpec;
  sr_selection_resolver : option PlanRunSubmissionResolver;
}.
Arguments sr_plans {W}.
Arguments sr_graph {W}.
Arguments sr_triggers {W}.
Arguments sr_selection_resolver {W}.

(** One turn of the loop of [__init__]. *)
Definition select_trigger (plans : ExecutionPlanRegistry) (spec : TriggerSpec) (selected : gmap string TriggerSpec)
    : result (gmap string TriggerSpec) :=
  _ ← contract_reject (negb (bool_decide (ts_kind spec = SCHEDULE)))
        "the schedule consumer accepts only scheduled trigger specs";
  let existing := default spec (selected !! ts_trigger_id spec) in
  _ ← contract_reject (negb (bool_decide (existing = spec))) "a trigger id contains conflicting definitions";
  plan ← map_error ControlOperationError OrchestrationContractError
           "a scheduled trigger selects an unregistered plan revision" (require_revision plans (ts_plan_revision spec));
  _ ← contract_reject (negb (bool_decide (ep_plan_id plan = ts_plan_id spec)))
        "a scheduled trigger does not match its selected plan";
  Ok (<[ts_trigger_id spec := existing]> selected).

Fixpoint select_triggers (plans : ExecutionPlanRegistry) (triggers : list TriggerSpec) (selected : gmap string TriggerSpec)
    : result (gmap string TriggerSpec) :=
  match triggers with
  | [] => Ok selected
  | spec :: triggers => selected ← select_trigger plans spec selected; select_triggers plans triggers selected
  end.

Section Resolver.
Context {W : Type}.

Definition new_scheduled_resolver (plans : ExecutionPlanRegistry) (graph_store : string -> string -> M W GraphRecord)
    (triggers : list TriggerSpec) (selection_resolver : option PlanRunSubmissionResolver)
    : result (ScheduledRunSubmissionResolver W) :=
  selected ← select_triggers plans triggers ∅;
  _ ← contract_reject (bool_decide (selected = ∅) || (100 <? Z.of_nat (size selected)))
        "the schedule registry requires 1 to 100 unique triggers";
  Ok {| sr_plans := plans; sr_graph := graph_store; sr_triggers := selected; sr_selection_resolver := selection_resolver |}.

Definition scheduled_trigger (trigger_id : string) (occurrence : datetime) : RunTrigger :=
  {| tg_kind := SCHEDULE; tg_trigger_id := trigger_id; tg_scheduled_occurrence := Some occurrence;
     tg_replay_of_run_id := None; tg_repair_window := None |}.
Definition scheduled_placement (environment : string) : PlacementDecision :=
  {| pd_mode := SCHEDULED; pd_selected_environment := environment; pd_selected_locality := None;
     pd_estimated_cost_microusd := None; pd_preferred_locality := None; pd_max_cost_microusd := None;
     pd_eligible_plan_count := 1; pd_schema := PLACEMENT_DECISION_SCHEMA |}.

(** The body of the second [try] of [resolve]. *)
Definition scheduled_submission (sr : ScheduledRunSubmissionResolver W) (spec : TriggerSpec) (wakeup : ScheduleWakeup)
    (plan : ExecutionPlan) (graph : GraphRecord) (requested_at : datetime) : result RunSubmission :=
  let trigger := scheduled_trigger (ts_trigger_id spec) (sw_scheduled_occurrence wakeup) in
  _ ← RunTrigger_post_init trigger;
  placement ← new_placement_decision (scheduled_placement (ep_environment plan));
  sizing ← match sr_selection_resolver sr with
           | Some rs => size_decision_for_exact_plan rs plan SIZE_SCHEDULED
           | None => Ok None
           end;
  submission ← new_submission
    {| sb_environment := ep_environment plan; sb_project := ep_project plan; sb_graph := graph;
       sb_plan_id := ep_plan_id plan; sb_plan_revision := revision plan; sb_trigger := trigger;
       sb_idempotency_key := schedule_occurrence_idempotency_key wakeup; sb_requested_at := requested_at;
       sb_requested_deadline_seconds := None; sb_placement_decision := Some placement;
       sb_size_class_decision := sizing |};
  _ ← for_submission (sr_plans sr) submission;
  Ok submission.

Definition resolve_occurrence (sr : ScheduledRunSubmissionResolver W) (wakeup : ScheduleWakeup) (requested_at : datetime)
    : M W RunSubmission :=
  match sr_triggers sr !! sw_trigger_id wakeup with
  | None => conflict "The scheduled trigger is unavailable."
  | Some spec =>
      if negb (ts_enabled spec) then conflict "The scheduled trigger is unavailable."
      else if negb (bool_decide (ts_plan_revision spec = sw_plan_revision wakeup))
      then conflict "The scheduled occurrence does not select the configured plan revision."
      else
        plan ← lift (require_revision (sr_plans sr) (sw_plan_revision wakeup));
        graph ← try_except (sr_graph sr (ep_project plan) (ep_graph plan))
                  (excepts
                     [(GraphStoreNotFoundError, ControlOperationConflictError, "The scheduled graph is no longer available.");
                      (GraphStoreError, ControlOperationDependencyError, "The scheduled graph is temporarily unavailable.")]);
        lift (map_error OrchestrationContractError ControlOperationConflictError
                "The scheduled occurrence conflicts with its execution plan."
                (scheduled_submission sr spec wakeup plan graph requested_at))
  end.
End Resolver.

(** ** The worker both schedule loops run *)

(** The flags of [ControlScheduleConsumer]; those of [PostgreSQLScheduler] are the
    same under other names. *)
Record polls : Type := {
  pl_initial_complete : bool;            (* _initial_poll_complete *)
  pl_last_failed : bool;                 (* _last_poll_failed *)
}.
Record worker : Type := {
  wk_closed : bool;
  wk_stop : bool;
  wk_thread : bool;                      (* _thread is not None *)
  wk_polls : polls;
  wk_cleanup_complete : bool;
}.
Definition new_worker : worker :=
  {| wk_closed := false; wk_stop := false; wk_thread := false;
     wk_polls := {| pl_initial_complete := false; pl_last_failed := false |}; wk_cleanup_complete := false |}.

Definition poll_succeeded : polls := {| pl_initial_complete := true; pl_last_failed := false |}.
Definition poll_failed (s : polls) : polls := {| pl_initial_complete := pl_initial_complete s; pl_last_failed := true |}.

(** [start]: the thread begins at most once. *)
Definition start_worker (closed_message : string) : M worker unit := fun k =>
  if wk_closed k then raiseM ControlOperationDependencyError closed_message k
  else (Ok tt, {| wk_closed := false; wk_stop := wk_stop k; wk_thread := true; wk_polls := wk_polls k;
                  wk_cleanup_complete := wk_cleanup_complete k |}).

(** [ready]; [alive] is the answer of [thread.is_alive()]. *)
Definition worker_ready (k : worker) (alive : bool) : bool :=
  negb (wk_closed k) && wk_thread k && alive && pl_initial_complete (wk_polls k) && negb (pl_last_failed (wk_polls k)).

Definition request_stop (k : worker) : worker :=
  {| wk_closed := true; wk_stop := true; wk_thread := wk_thread k; wk_polls := wk_polls k;
     wk_cleanup_complete := wk_cleanup_complete k |}.

(** [close]: [thread_stops] tells whether the thread ends within its grace, and
    [cleanup] releases what the worker owns. *)
Definition close_worker {W} (grace_message cleanup_message : string) (thread_stops : bool) (cleanup : M W unit)
    : M (worker * W) unit := fun p =>
  if wk_cleanup_complete p.1 then (Ok tt, p)
  else
    let k := request_stop p.1 in
    if wk_thread k && negb thread_stops then raiseM ControlOperationDependencyError grace_message (k, p.2)
    else
      match try_except cleanup (excepts [(ScheduleQueueError, ControlOperationDependencyError, cleanup_message)]) p.2 with
      | (Ok _, w) => (Ok tt, ({| wk_closed := true; wk_stop := true; wk_thread := wk_thread k; wk_polls := wk_polls k;
                                 wk_cleanup_complete := true |}, w))
      | (Raise e, w) => (Raise e, (k, w))
      end.

(** ** Consuming *)

Record ControlScheduleConsumer (W : Type) : Type := {
  cn_resolver : ScheduledRunSubmissionResolver W;
  cn_start : RunSubmission -> M W RunStatusResponse;       (* lifecycle.start *)
  cn_clock : W -> datetime;                                (* clock() *)
  cn_stop : W -> bool;                                     (* _stop.is_set() *)
}.
Arguments cn_resolver {W}.
Arguments cn_start {W}.
Arguments cn_clock {W}.
Arguments cn_stop {W}.

Section Consumer.
Context {W : Type} {HQ : ScheduleQueuePort W} (cn : ControlScheduleConsumer W).

Definition consumer_clock : M W datetime := fun w => (Ok (cn_clock cn w), w).
Definition consumer_stopped : M W bool := fun w => (Ok (cn_stop cn w), w).

(** The [try] of one message: whether it was accepted.  Both handlers only log. *)
Definition handle_message (message : QueuedScheduleMessage) : M W bool :=
  try_except
    (wakeup ← lift (deserialize_schedule_wakeup (qm_body message));
     requested_at ← consumer_clock;
     submission ← resolve_occurrence (cn_resolver cn) wakeup requested_at;
     _ ← cn_start cn submission;
     _ ← delete_message (qm_receipt_handle message);
     mret true)
    (fun e => if catches Exception e then mret false else lift (Raise e)).

Fixpoint handle_messages (messages : list QueuedScheduleMessage) : M W Z :=
  match messages with
  | [] => mret 0
  | message :: messages =>
      stop ← consumer_stopped;
      if stop : bool then mret 0
      else
        accepted ← handle_message message;
        rest ← handle_messages messages;
        mret (Z.b2z accepted + rest)
  end.

(** An operation on the world that leaves the flags alone. *)
Definition on_world {S A} (m : M W A) : M (S * W) A := fun p => let '(r, w) := m p.2 in (r, (p.1, w)).
Definition on_flags {S} (f : S -> S) : M (S * W) unit := fun p => (Ok tt, (f p.1, p.2)).

Definition poll_once : M (polls * W) Z :=
  stop ← on_world consumer_stopped;
  if stop : bool then mret 0
  else
    messages ← try_except (on_world receive_messages)
                 (fun e => if catches ScheduleQueueError e then (_ ← on_flags poll_failed; lift (Raise e)) else lift (Raise e));
    _ ← on_flags (fun _ => poll_succeeded);
    on_world (handle_messages messages).

(** One turn of [_loop]; after a failed poll the thread waits. *)
Definition consumer_turn : M (polls * W) unit :=
  try_except (_ ← poll_once; mret tt)
    (fun e => if catches ScheduleQueueError e then mret tt else lift (Raise e)).
End Consumer.

(** [ControlScheduleConsumer.__init__]: the two intervals. *)
Definition check_consumer_timing (retry_interval shutdown_grace : Z) : result unit :=
  reject_if ((retry_interval <=? 0) || (shutdown_grace <=? 0)) ValueError "Schedule consumer timing must be positive.".

Definition start_consumer : M worker unit := start_worker "The schedule consumer is closed.".
Definition close_consumer {W} {HQ : ScheduleQueuePort W} (thread_stops : bool) : M (worker * W) unit :=
  close_worker "The schedule consumer did not stop within its shutdown grace period."
    "The schedule queue could not close cleanly." thread_stops close_port.
