(* ===== verification/ScheduleConsumerSpec.v ===== *)
(** * What the schedule consumer promises

    A redelivered wakeup resolves to the same run, and a message is acknowledged
    only after its occurrence has its durable run - over any queue, graph store
    and lifecycle that keep their contracts. *)

From S2P Require Import Prelude Regex PyStr Sha256 PyTime Json JsonRead Identifiers Projection PhysicalPlan Graph Orchestration RunCodec RunTransition Contract Dispatch Placement PlacementSpec RunStatus Lifecycle LifecycleSpec TriggerCodec SchedulePort ScheduleConsumer.

Local Open Scope string_scope.
Local Open Scope Z_scope.
Local Open Scope list_scope.

#[local] Opaque revision.
#[local] Opaque serialize_schedule_wakeup.
#[local] Opaque deserialize_schedule_wakeup.

(** ** The submission of an occurrence *)

Section Resolve.
Context {W : Type} (sr : ScheduledRunSubmissionResolver W).

(** What [resolve] returns for a graph. *)
Definition occurrence_submission (trigger_id : string) (wakeup : ScheduleWakeup) (plan : ExecutionPlan) (graph : GraphRecord)
    (requested_at : datetime) (sizing : option SizeClassDecision) : RunSubmission :=
  {| sb_environment := ep_environment plan; sb_project := ep_project plan; sb_graph := graph; sb_plan_id := ep_plan_id plan;
     sb_plan_revision := revision plan; sb_trigger := scheduled_trigger trigger_id (sw_scheduled_occurrence wakeup);
     sb_idempotency_key := schedule_occurrence_idempotency_key wakeup; sb_requested_at := requested_at;
     sb_requested_deadline_seconds := None; sb_placement_decision := Some (scheduled_placement (ep_environment plan));
     sb_size_class_decision := sizing |}.

Record resolves (spec : TriggerSpec) (wakeup : ScheduleWakeup) (plan : ExecutionPlan) (graph : GraphRecord) (t : datetime)
    (s : RunSubmission) (sizing : option SizeClassDecision) : Prop := {
  rs_value : s = occurrence_submission (ts_trigger_id spec) wakeup plan graph t sizing;
  rs_trigger : RunTrigger_post_init (sb_trigger s) = Ok tt;
  rs_placement : PlacementDecision_post_init (scheduled_placement (ep_environment plan)) = Ok tt;
  rs_valid : RunSubmission_post_init s = Ok tt;
  rs_accepted : for_submission (sr_plans sr) s = Ok plan;
  rs_sized : match sr_selection_resolver sr with
             | Some rs => size_decision_for_exact_plan rs plan SIZE_SCHEDULED = Ok sizing
             | None => sizing = None
             end;
}.

Lemma for_submission_found reg s p : for_submission reg s = Ok p -> by_revision reg !! sb_plan_revision s = Some p.
Proof.
  unfold for_submission, require_revision. intros (q & Hq & H)%bind_ok. destruct (by_revision reg !! _) as [q'|]; [|done].
  injection Hq as ->. apply seq_ok in H as [_ [= <-]]. done.
Qed.

Lemma scheduled_submission_inv spec wakeup plan graph t s :
  by_revision (sr_plans sr) !! revision plan = Some plan ->
  scheduled_submission sr spec wakeup plan graph t = Ok s -> exists sizing, resolves spec wakeup plan graph t s sizing.
Proof.
  intros Hplan. unfold scheduled_submission, new_placement_decision, new_submission. intros H.
  apply seq_ok in H as [Ht H]. apply bind_ok in H as (d & Hd & H). apply seq_ok in Hd as [Hd [= <-]].
  apply bind_ok in H as (sizing & Hz & H). apply bind_ok in H as (s' & Hs & H). apply seq_ok in Hs as [Hs [= <-]].
  apply bind_ok in H as (p & Hp & [= <-]). exists sizing. split; try done.
  - pose proof (for_submission_found _ _ _ Hp) as E. cbn [sb_plan_revision] in E. rewrite Hplan in E. injection E as <-. exact Hp.
  - destruct (sr_selection_resolver sr); [done|]. by injection Hz as <-.
Qed.

(** A successful resolution: where its parts come from. *)
Lemma resolve_inv wakeup t w s w' :
  registry_ok (sr_plans sr) ->
  resolve_occurrence sr wakeup t w = (Ok s, w') ->
  exists spec plan graph sizing,
    sr_triggers sr !! sw_trigger_id wakeup = Some spec /\ ts_enabled spec = true /\
    by_revision (sr_plans sr) !! sw_plan_revision wakeup = Some plan /\ revision plan = sw_plan_revision wakeup /\
    (exists w0, (try_except (sr_graph sr (ep_project plan) (ep_graph plan)) (excepts
        [(GraphStoreNotFoundError, ControlOperationConflictError, "The scheduled graph is no longer available.");
         (GraphStoreError, ControlOperationDependencyError, "The scheduled graph is temporarily unavailable.")]) w) = (Ok graph, w0)) /\
    resolves spec wakeup plan graph t s sizing.
Proof.
  intros Hreg. unfold resolve_occurrence. destruct (sr_triggers sr !! sw_trigger_id wakeup) as [spec|]; [|done].
  destruct (ts_enabled spec) eqn:He; [|done]. cbn [negb]. destruct (bool_decide _) eqn:Er; [|done]. cbn [negb].
  unfold require_revision. destruct (by_revision (sr_plans sr) !! sw_plan_revision wakeup) as [plan|] eqn:Ep; [|done].
  rewrite lift_bind. unfold mbind at 1, M_bind at 1. destruct (try_except _ _ w) as [[graph|e] w0] eqn:Eg; [|done].
  unfold lift, map_error. destruct (scheduled_submission sr spec wakeup plan graph t) as [s'|e] eqn:Es; [|by destruct (catches _ e)].
  intros [= <- <-]. pose proof (rg_key _ Hreg _ _ Ep) as Erev.
  destruct (scheduled_submission_inv spec wakeup plan graph t s') as [sizing R]; [by rewrite Erev|done|].
  exists spec, plan, graph, sizing. split_and!; try done. by exists w0.
Qed.
End Resolve.

Lemma accepted_selection reg s p : for_submission reg s = Ok p -> submission_selection s = plan_selection p.
Proof.
  unfold for_submission. intros (q & _ & H)%bind_ok. apply bind_ok in H as ([] & Hv%map_error_ok & [= <-]).
  unfold validate_submission_plan, contract_reject in Hv. rewrite !seq_ok, !reject_if_tt in Hv. destruct Hv as (_ & E & _).
  by apply negb_false_iff, bool_decide_eq_true in E.
Qed.

Lemma submission_post_init_only s : only OrchestrationContractError (RunSubmission_post_init s).
Proof. unfold RunSubmission_post_init. unfold_requires. only_tac. Qed.

Lemma for_submission_control reg s : raises control_error (for_submission reg s).
Proof.
  unfold for_submission, require_revision. destruct (by_revision reg !! _) as [p|]; [|done]. cbn [mbind result_bind].
  apply raises_bind; [|done]. pose proof (validate_submission_plan_only s p) as H.
  destruct (validate_submission_plan s p) as [u|e]; [done|]. unfold raises, map_error in *. by rewrite H.
Qed.

(** A redelivered wakeup names the same run. Whenever and from whatever state
    of the graph store one wakeup is resolved, the submissions select the
    registered plan with the wakeup's exact revision, the registry admits both,
    and they agree on the run identity, the fingerprint under which the store
    recognises a replay, the placement and the size class: a second delivery
    starts no second run. *)
Theorem redelivery_same_run {W} (sr : ScheduledRunSubmissionResolver W) wakeup t1 t2 w1 w2 s1 s2 w1' w2'
    (Hreg : registry_ok (sr_plans sr))
    (H1 : resolve_occurrence sr wakeup t1 w1 = (Ok s1, w1')) (H2 : resolve_occurrence sr wakeup t2 w2 = (Ok s2, w2')) :
  (exists plan, revision plan = sw_plan_revision wakeup /\
     for_submission (sr_plans sr) s1 = Ok plan /\ for_submission (sr_plans sr) s2 = Ok plan) /\
  logical_run_identity s1 = logical_run_identity s2 /\ fingerprint s1 = fingerprint s2 /\
  sb_placement_decision s1 = sb_placement_decision s2 /\ sb_size_class_decision s1 = sb_size_class_decision s2.
Proof.
  apply resolve_inv in H1 as (spec & plan & g1 & z1 & Ht & _ & Hp & Hr & _ & R1); [|done].
  apply resolve_inv in H2 as (spec' & plan' & g2 & z2 & Ht' & _ & Hp' & _ & _ & R2); [|done].
  rewrite Ht in Ht'. injection Ht' as <-. rewrite Hp in Hp'. injection Hp' as <-.
  assert (z1 = z2) as <-.
  { pose proof (rs_sized _ _ _ _ _ _ _ _ R1) as E1. pose proof (rs_sized _ _ _ _ _ _ _ _ R2) as E2. destruct (sr_selection_resolver sr); congruence. }
  split; [exists plan; split_and!; [done|apply (rs_accepted _ _ _ _ _ _ _ _ R1)|apply (rs_accepted _ _ _ _ _ _ _ _ R2)]|].
  pose proof (accepted_selection _ _ _ (rs_accepted _ _ _ _ _ _ _ _ R1)) as A1.
  pose proof (accepted_selection _ _ _ (rs_accepted _ _ _ _ _ _ _ _ R2)) as A2. rewrite <- A2 in A1. clear A2.
  rewrite (rs_value _ _ _ _ _ _ _ _ R1), (rs_value _ _ _ _ _ _ _ _ R2) in *. split; [done|]. split; [|done].
  unfold submission_selection in A1. cbn in A1. unfold fingerprint, fingerprint_payload. cbn. congruence.
Qed.

(** ** Consuming a batch *)

Section Consume.
Context {W : Type} {HS : RunStore W} {HL : StoreLaws W} {HQ : ScheduleQueuePort W} {QL : QueueLaws W}.
Context (cn : ControlScheduleConsumer W).

(** The run a submission identifies is durable. *)
Definition submitted (s : RunSubmission) (v : view) : Prop :=
  exists r, v_runs v !! logical_run_identity s = Some r /\ rr_submission_sha256 r = fingerprint s.

(** What the consumer relies on. *)
Record consumer_ok : Prop := {
  co_registry : registry_ok (sr_plans (cn_resolver cn));
  co_trigger k spec : sr_triggers (cn_resolver cn) !! k = Some spec -> ts_trigger_id spec = k;
  co_resources p : p ∈ plans (sr_plans (cn_resolver cn)) ->
    let r := et_resources (ep_execution_template p) in
    printable (rp_cpu_millis r) /\ printable (rp_memory_mib r) /\
    forall n, rp_ephemeral_storage_mib r = Some n -> printable n;
  co_graph p g w : keeps inv view_of w (sr_graph (cn_resolver cn) p g) (fun _ _ => True) (fun e => catches GraphStoreError e = true);
  co_clock w : in_range (cn_clock cn w);
  co_start s w : submission_value s ->
    keeps inv view_of w (cn_start cn s) (fun _ w' => submitted s (view_of w')) (fun _ => True);
}.

Context (Hcn : consumer_ok).

Lemma sized_value plan sizing : plan ∈ plans (sr_plans (cn_resolver cn)) ->
  match sr_selection_resolver (cn_resolver cn) with
  | Some rs => size_decision_for_exact_plan rs plan SIZE_SCHEDULED = Ok sizing
  | None => sizing = None
  end -> forall d, sizing = Some d -> size_value d.
Proof.
  intros Hp Hs d ->. destruct (sr_selection_resolver _) as [rs|]; [|done]. unfold size_decision_for_exact_plan, size_decision in Hs.
  destruct (is_none _); [done|]. destruct (size_candidates_by_revision rs !! revision plan) as [c|]; [|done].
  apply bind_ok in Hs as (d' & Hd & [= ->]). unfold new_size_decision in Hd. apply seq_ok in Hd as [Hpost [= <-]].
  destruct (co_resources Hcn plan Hp) as (H1 & H2 & H3). by split.
Qed.

(** A resolved wakeup of a message announces it, and can be stored. *)
Lemma resolved_submission body wakeup t w s w' :
  deserialize_schedule_wakeup body = Ok wakeup -> in_range t ->
  resolve_occurrence (cn_resolver cn) wakeup t w = (Ok s, w') -> announces body wakeup s /\ submission_value s.
Proof.
  intros Hb Ht H. destruct (wakeup_read_inv _ _ Hb) as ([Hpost Hrange] & _).
  apply resolve_inv in H as (spec & plan & g & z & Hspec & _ & Hp & Hr & _ & R); [|apply (co_registry Hcn)].
  pose proof (co_trigger Hcn _ _ Hspec) as Hid. pose proof (rs_trigger _ _ _ _ _ _ _ _ R) as Htr.
  pose proof (rs_placement _ _ _ _ _ _ _ _ R) as Hpl. pose proof (rs_sized _ _ _ _ _ _ _ _ R) as Hz.
  rewrite (rs_value _ _ _ _ _ _ _ _ R) in *. split.
  - split; [done|done| |done]. cbn. by rewrite Hid.
  - split; cbn.
    + split; [done| |done]. intros d [= <-]. done.
    + done.
    + done.
    + intros d [= <-]. done.
    + apply (sized_value plan z); [|done]. apply plans_in. by exists (sw_plan_revision wakeup).
Qed.

Lemma scheduled_raises spec wakeup plan g t : raises control_error
  (map_error OrchestrationContractError ControlOperationConflictError "The scheduled occurrence conflicts with its execution plan."
     (scheduled_submission (cn_resolver cn) spec wakeup plan g t)).
Proof.
  assert (raises (fun e => catches OrchestrationContractError e = true \/ control_error e)
    (scheduled_submission (cn_resolver cn) spec wakeup plan g t)) as H.
  { unfold scheduled_submission. apply raises_bind; [eapply raises_impl; [|apply trigger_post_init_only]; by left|intros _ _].
    apply raises_bind; [|intros d _].
    { unfold new_placement_decision. apply raises_bind; [|done]. eapply raises_impl; [|apply placement_post_init_only]; by left. }
    apply raises_bind; [|intros z _].
    { destruct (sr_selection_resolver _) as [rs|]; [|done]. unfold size_decision_for_exact_plan, size_decision. destruct (is_none _); [done|].
      destruct (size_candidates_by_revision rs !! revision plan); [|done]. apply raises_bind; [|done]. unfold new_size_decision.
      apply raises_bind; [|done]. eapply raises_impl; [|apply size_post_init_only]; by left. }
    apply raises_bind; [|intros s _].
    { unfold new_submission. apply raises_bind; [|done]. eapply raises_impl; [|apply submission_post_init_only]; by left. }
    apply raises_bind; [|done]. eapply raises_impl; [|apply for_submission_control]. by right. }
  unfold map_error. destruct (scheduled_submission _ _ _ _ _ _) as [s|e]; [done|]. unfold raises in H.
  destruct (catches OrchestrationContractError e) eqn:E; [done|]. by destruct H.
Qed.

Lemma triple_result {A} (P : view -> Prop) (m : M W A) (Q : A -> view -> Prop) (E : exn -> Prop) (F : A -> Prop) :
  (forall w a w', m w = (Ok a, w') -> F a) -> triple P m Q E -> triple P m (fun a v => F a /\ Q a v) E.
Proof.
  intros HF T w Hw Hg. specialize (T w Hw Hg). pose proof (HF w) as Hf. destruct (m w) as [[a|e] w']; [|done].
  destruct T as (G & L & HR). split; [exact G|split; [exact L|]]. split; [by apply (Hf a w')|exact HR].
Qed.

Lemma resolve_triple wakeup t :
  triple (fun _ => True) (resolve_occurrence (cn_resolver cn) wakeup t) (fun _ _ => True) control_error.
Proof.
  unfold resolve_occurrence. destruct (sr_triggers _ !! _) as [spec|]; [|by apply triple_lift].
  destruct (negb (ts_enabled spec)); [by apply triple_lift|]. destruct (negb _); [by apply triple_lift|].
  apply triple_pure; [unfold require_revision; by destruct (by_revision _ !! _)|intros plan _].
  eapply triple_bind.
  - apply (guarded_triple _ _ (fun _ => True) (fun _ _ => True) (fun e => catches GraphStoreError e = true)); [apply _| |done|].
    + intros w _. apply (co_graph Hcn).
    + intros e He. cbn [forallb fst snd]. rewrite He, andb_false_r. done.
  - intros g. apply triple_lift; [done|]. apply scheduled_raises.
Qed.

Lemma start_submitted s : submission_value s ->
  triple (fun _ => True) (cn_start cn s) (fun _ v => submitted s v) (fun _ => True).
Proof. intros Hs w _. by apply (co_start Hcn). Qed.

Lemma submitted_hands_over body wakeup s v : announces body wakeup s -> submitted s v -> handed_over v body.
Proof. intros A (r & Hr & Hf). by exists wakeup, s, r. Qed.

Definition delivered (m : QueuedScheduleMessage) (v : view) : Prop := v_deliveries v !! qm_receipt_handle m = Some (qm_body m).
#[export] Instance delivered_message_stable m : Stable (delivered m).
Proof. apply delivered_stable. Qed.
#[export] Instance submitted_stable s : Stable (submitted s).
Proof.
  intros v v' L (r & Hr & Hf). destruct (vl_runs _ _ L _ _ Hr) as (r' & Hr' & Hev). exists r'. split; [done|].
  pose proof (ev_identity _ _ Hev) as E. unfold run_identity in E. congruence.
Qed.

(** The body of the [try]: it raises at will, and acknowledges a message only. *)
Lemma handle_triple m : triple (delivered m) (handle_message cn m) (fun ok v => ok = true -> qm_body m ∈ v_acknowledged v) (fun _ => False).
Proof.
  unfold handle_message. apply (triple_try _ _ _ _ _ (fun _ => True)); [apply _| |intros e _; rewrite catches_exception; by apply triple_ret].
  apply triple_pure; [by destruct (deserialize_schedule_wakeup _)|intros wakeup Hb].
  eapply (triple_bind _ _ (fun t v => in_range t /\ delivered m v)).
  { intros w Hw Hg. cbn. split; [done|split; [reflexivity|]]. split; [apply (co_clock Hcn)|done]. }
  intros t. eapply triple_known; [intros v _ Hv; exact (proj1 Hv)|intros Ht].
  eapply (triple_step _ (fun _ => True)); [apply _| |done|].
  { eapply triple_errors; [|intros e _; exact I]. eapply triple_result; [|apply resolve_triple].
    intros w s w' H. exact (resolved_submission _ _ _ _ _ _ Hb Ht H). }
  intros s. eapply triple_known; [intros v _ Hv; exact (proj1 (proj2 Hv))|intros [A Hs]].
  eapply (triple_step _ (fun _ => True)); [apply _|by apply start_submitted|done|]. intros resp.
  eapply (triple_bind _ _ (fun _ v => qm_body m ∈ v_acknowledged v)); [|intros u; by apply triple_ret].
  intros w Hw. cbn beta in Hw. destruct Hw as [[[_ Hd] _] Hsub].
  pose proof (delete_law w (qm_receipt_handle m) (qm_body m) Hd (submitted_hands_over _ _ _ _ A Hsub)) as H.
  intros Hg. specialize (H Hg). destruct (delete_message _ w) as [[u|e] w']; [|by destruct H as (? & ? & _)].
  destruct H as (G & L & Hk). split; [exact G|split; [exact L|exact Hk]].
Qed.

Lemma messages_triple ms :
  triple (fun v => forall m, m ∈ ms -> delivered m v) (handle_messages cn ms)
    (fun n v => exists accepted, sublist accepted ms /\ Z.of_nat (length accepted) = n /\
       forall m, m ∈ accepted -> qm_body m ∈ v_acknowledged v) (fun _ => False).
Proof.
  induction ms as [|m ms IH]; cbn [handle_messages].
  - apply triple_ret. intros v _. exists []. split_and!; [done|done|]. intros m Hm. by apply elem_of_nil in Hm.
  - eapply (triple_bind _ _ (fun _ v => forall m', m' ∈ m :: ms -> delivered m' v)).
    { intros w Hw Hg. cbn. split; [done|split; [reflexivity|done]]. }
    intros [].
    + apply triple_ret. intros v _. exists []. split_and!; [apply sublist_nil_l|done|]. intros m' Hm. by apply elem_of_nil in Hm.
    + eapply (triple_step (fun v => forall m', m' ∈ m :: ms -> delivered m' v) (delivered m)); [apply _|apply handle_triple|intros v H; apply H; left|].
      intros ok. eapply (triple_step _ (fun v => forall m', m' ∈ ms -> delivered m' v)); [apply _|apply IH|intros v [H _] m' Hm; apply H; by right|].
      intros n. apply triple_ret. intros v [[_ Hok] (acc & Hsub & Hn & Hacc)]. destruct ok.
      * exists (m :: acc). split_and!; [by apply sublist_skip|cbn; lia|]. intros m' [->|Hm]%elem_of_cons; [by apply Hok|by apply Hacc].
      * exists acc. split_and!; [by apply sublist_cons|cbn; lia|done].
Qed.
Lemma poll_once_eq s w : poll_once cn (s, w) =
  if cn_stop cn w then (Ok 0, (s, w))
  else match receive_messages w with
       | (Ok ms, w1) => let '(r, w2) := handle_messages cn ms w1 in (r, (poll_succeeded, w2))
       | (Raise e, w1) => (Raise e, (if catches QueueErr e then poll_failed s else s, w1))
       end.
Proof.
  unfold poll_once, on_world, on_flags, consumer_stopped, try_except, mbind, M_bind. cbn beta iota zeta delta [fst snd].
  destruct (cn_stop cn w); [done|]. cbn beta iota zeta delta [fst snd]. destruct (receive_messages w) as [[ms|e] w1].
  - cbn beta iota zeta delta [fst snd]. by destruct (handle_messages cn ms w1) as [[n|e] w2].
  - cbn beta iota zeta delta [fst snd]. by destruct (catches QueueErr e).
Qed.

(** C39: a message is acknowledged only after its occurrence has its run. A poll from
    a good world, whatever the queue, the graph store, the lifecycle and other
    consumers do within their contracts, leaves a good world that only moved
    forward: every message ever acknowledged - by this consumer or another - has
    the durable run its wakeup names. Everything that goes wrong with one message
    is contained; the result counts messages of the batch that are now
    acknowledged, the readiness flags report the poll, and the only error is a
    failed receive. *)
Theorem poll_hands_over s w (Hinv : inv w) (Hv : view_ok (view_of w)) :
  match poll_once cn (s, w) with
  | (r, (s', w')) =>
      (inv w' /\ view_ok (view_of w')) /\ view_le (view_of w) (view_of w') /\
      (forall b, b ∈ v_acknowledged (view_of w') -> handed_over (view_of w') b) /\
      match r with
      | Ok n => (exists accepted : list QueuedScheduleMessage, Z.of_nat (length accepted) = n /\
                   forall m, m ∈ accepted -> qm_body m ∈ v_acknowledged (view_of w')) /\
                s' = (if cn_stop cn w then s else poll_succeeded)
      | Raise e => queue_error e /\ s' = poll_failed s
      end
  end.
Proof.
  assert (forall w', inv w' /\ view_ok (view_of w') -> forall b, b ∈ v_acknowledged (view_of w') -> handed_over (view_of w') b) as Hall
    by (intros w' [_ Hok]; apply (vo_acknowledged _ Hok)).
  rewrite poll_once_eq. destruct (cn_stop cn w).
  { split_and!; try done; [by apply Hall|]. exists []. split; [done|]. intros m Hm. by apply elem_of_nil in Hm. }
  pose proof (receive_law w (conj Hinv Hv)) as H. destruct (receive_messages w) as [[ms|e] w1]; destruct H as (G & L & H).
  2: { unfold queue_error in *. rewrite H. split_and!; try apply G; try done. }
  pose proof (messages_triple ms w1 H G) as T. destruct (handle_messages cn ms w1) as [[n|e] w2]; destruct T as (G' & L' & T); [|done].
  destruct T as (acc & _ & Hn & Hacc). split; [exact G'|split; [by etrans|split; [by apply Hall|]]]. split; [by exists acc|done].
Qed.
End Consume.
