(* ===== verification/ScheduleQueue.v ===== *)
(** * The PostgreSQL schedule queue ([control/postgresql_schedule_queue.py])

    Durable schedule cursors and a leased at-least-once queue over two tables.
    Operations are transactions; the server clock is read once per statement and
    may show anything.  [locked] names the rows that concurrent transactions
    hold, which SKIP LOCKED passes over. *)

From S2P Require Import Prelude Transactions Regex PyStr Sha256 PyTime Json JsonRead Identifiers Projection PhysicalPlan Graph Orchestration RunCodec RunTransition Contract SchedulePort Cron.

Local Open Scope string_scope.
Local Open Scope Z_scope.
Local Open Scope list_scope.

(** ** Tables *)

(** dander_schedule_cursors. *)
Record cursor_row : Type := CursorRow {
  cw_trigger_id : string; cw_spec_sha256 : string; cw_cursor_utc : datetime; cw_updated_at : Z;
}.
(** dander_schedule_queue. *)
Record message_row : Type := MessageRow {
  mr_message_id : string; mr_trigger_id : string; mr_plan_revision : string; mr_scheduled_occurrence : datetime;
  mr_body : list Z; mr_available_at : Z; mr_delivery_count : Z; mr_receipt_handle : option string;
  mr_lease_until : option Z; mr_dead_lettered_at : option Z; mr_created_at : Z;
}.

(** Both tables by their primary keys, the clock readings taken, the supply of
    [uuid.uuid4()] and, for the proofs only, the wakeups ever inserted and the
    messages ever acknowledged. *)
Record queue_db : Type := QueueDb {
  qd_cursors : gmap string cursor_row;
  qd_queue : gmap string message_row;
  qd_reads : nat;
  qd_uuids : list string;
  qd_history : list ScheduleWakeup;
  qd_acknowledged : list string;
}.
Definition with_cursors (c : gmap string cursor_row) (d : queue_db) : queue_db :=
  QueueDb c (qd_queue d) (qd_reads d) (qd_uuids d) (qd_history d) (qd_acknowledged d).
Definition with_queue (q : gmap string message_row) (d : queue_db) : queue_db :=
  QueueDb (qd_cursors d) q (qd_reads d) (qd_uuids d) (qd_history d) (qd_acknowledged d).

(** The CHECK and length constraints of the tables. *)
Definition cursor_row_check (r : cursor_row) : bool :=
  is_sha256 (cw_spec_sha256 r) && (py_len (cw_trigger_id r) <=? 63).
Definition message_row_check (r : message_row) : bool :=
  is_sha256 (mr_message_id r) && is_sha256 (mr_plan_revision r) && (py_len (mr_trigger_id r) <=? 63)
  && (1 <=? Z.of_nat (length (mr_body r))) && (Z.of_nat (length (mr_body r)) <=? 8192)
  && (0 <=? mr_delivery_count r) && Bool.eqb (is_none (mr_receipt_handle r)) (is_none (mr_lease_until r))
  && (is_none (mr_dead_lettered_at r) || (is_none (mr_receipt_handle r) && is_none (mr_lease_until r)))
  && match mr_receipt_handle r with Some h => py_len h <=? 64 | None => true end.

Definition dead_lettered (now : Z) (r : message_row) : message_row :=
  MessageRow (mr_message_id r) (mr_trigger_id r) (mr_plan_revision r) (mr_scheduled_occurrence r) (mr_body r)
    (mr_available_at r) (mr_delivery_count r) None None (Some now) (mr_created_at r).
Definition leased (receipt : string) (until : Z) (r : message_row) : message_row :=
  MessageRow (mr_message_id r) (mr_trigger_id r) (mr_plan_revision r) (mr_scheduled_occurrence r) (mr_body r)
    (mr_available_at r) (mr_delivery_count r + 1) (Some receipt) (Some until) (mr_dead_lettered_at r) (mr_created_at r).

(** The lease is absent or over. *)
Definition lease_over (now : Z) (r : message_row) : bool :=
  match mr_lease_until r with None => true | Some t => t <=? now end.

Section Queue.
Context (clock : nat -> Z).

(** A statement: a step on the tables. *)
Definition statement {A} (f : queue_db -> result A * queue_db) : M queue_db A := f.

(** One statement's reading of [clock_timestamp()]. *)
Definition clock_timestamp : M queue_db Z := fun d =>
  (Ok (clock (qd_reads d)), QueueDb (qd_cursors d) (qd_queue d) (S (qd_reads d)) (qd_uuids d) (qd_history d) (qd_acknowledged d)).

(** ** Statements *)

Definition select_cursor (trigger_id : string) : M queue_db (option cursor_row) := fun d =>
  (Ok (qd_cursors d !! trigger_id), d).

Definition insert_cursor (trigger_id spec_sha256 : string) (cursor : datetime) : M queue_db unit :=
  now ← clock_timestamp;
  let row := CursorRow trigger_id spec_sha256 cursor now in
  _ ← lift (driver_reject (negb (cursor_row_check row)));
  statement (fun d =>
    if is_some (qd_cursors d !! trigger_id) then (Raise driver_error, d)
    else (Ok tt, with_cursors (<[trigger_id := row]> (qd_cursors d)) d)).

Definition update_cursor (trigger_id spec_sha256 : string) (cursor : datetime) : M queue_db unit :=
  now ← clock_timestamp;
  _ ← lift (driver_reject (negb (cursor_row_check (CursorRow trigger_id spec_sha256 cursor now))));
  statement (fun d =>
    match qd_cursors d !! trigger_id with
    | Some _ => (Ok tt, with_cursors (<[trigger_id := CursorRow trigger_id spec_sha256 cursor now]> (qd_cursors d)) d)
    | None => (Ok tt, d)
    end).

(** The UNIQUE key of a message. *)
Definition same_occurrence (r s : message_row) : bool :=
  bool_decide (mr_trigger_id r = mr_trigger_id s) && bool_decide (mr_plan_revision r = mr_plan_revision s)
  && (instant (mr_scheduled_occurrence r) =? instant (mr_scheduled_occurrence s)).

(** INSERT ... ON CONFLICT (trigger_id, plan_revision, scheduled_occurrence) DO
    NOTHING RETURNING message_id: whether a row came back. *)
Definition insert_message (w : ScheduleWakeup) (message_id : string) (body : list Z) : M queue_db bool :=
  now ← clock_timestamp;
  let row := MessageRow message_id (sw_trigger_id w) (sw_plan_revision w) (sw_scheduled_occurrence w) body now 0 None None None now in
  _ ← lift (driver_reject (negb (message_row_check row)));
  statement (fun d =>
    if existsb (fun p : string * message_row => same_occurrence row p.2) (map_to_list (qd_queue d)) then (Ok false, d)
    else if is_some (qd_queue d !! message_id) then (Raise driver_error, d)
    else (Ok true, QueueDb (qd_cursors d) (<[message_id := row]> (qd_queue d)) (qd_reads d) (qd_uuids d) (qd_history d ++ [w]) (qd_acknowledged d))).

(** UPDATE ... WHERE message_id = %s: whether a row was updated. *)
Definition update_message (message_id : string) (f : Z -> message_row -> message_row) : M queue_db bool :=
  now ← clock_timestamp;
  statement (fun d =>
    match qd_queue d !! message_id with
    | None => (Ok false, d)
    | Some row =>
        if message_row_check (f now row) then (Ok true, with_queue (<[message_id := f now row]> (qd_queue d)) d)
        else (Raise driver_error, d)
    end).

(** ** Producing *)

Record prepared : Type := { pr_spec : TriggerSpec; pr_expression : FiveFieldCron; pr_zone : ZoneInfo; pr_sha256 : string }.

Definition prepare_one (load_zone : string -> result ZoneInfo) (spec : TriggerSpec) : result prepared :=
  match ts_kind spec, ts_schedule spec, ts_time_zone spec with
  | SCHEDULE, Some schedule, Some time_zone =>
      '(expression, zone) ←
        map_error SchedErr QueueErr "The PostgreSQL schedule definition is invalid."
          (expression ← parse_five_field_cron schedule;
           zone ← require_iana_time_zone load_zone time_zone;
           Ok (expression, zone));
      Ok {| pr_spec := spec; pr_expression := expression; pr_zone := zone;
            pr_sha256 := sha256_hex (serialize_trigger_spec spec) |}
  | _, _, _ => raise_ QueueErr "The PostgreSQL scheduler accepts scheduled triggers only."
  end.

Fixpoint prepare (load_zone : string -> result ZoneInfo) (seen : list string) (specs : list TriggerSpec)
    : result (list prepared) :=
  match specs with
  | [] => Ok []
  | spec :: specs =>
      _ ← queue_reject (bool_decide (ts_trigger_id spec ∈ seen)) "The PostgreSQL schedule registry has duplicate triggers.";
      p ← prepare_one load_zone spec;
      ps ← prepare load_zone (ts_trigger_id spec :: seen) specs;
      Ok (p :: ps)
  end.

Definition new_schedule_wakeup (w : ScheduleWakeup) : result ScheduleWakeup := _ ← ScheduleWakeup_post_init w; Ok w.

Fixpoint enqueue_occurrences (spec : TriggerSpec) (occurrences : list datetime) : M queue_db Z :=
  match occurrences with
  | [] => mret 0
  | occurrence :: occurrences =>
      w ← lift (new_schedule_wakeup {| sw_trigger_id := ts_trigger_id spec; sw_plan_revision := ts_plan_revision spec;
                                       sw_scheduled_occurrence := occurrence |});
      let body := serialize_schedule_wakeup w in
      inserted ← insert_message w (sha256_hex body) body;
      rest ← enqueue_occurrences spec occurrences;
      mret (Z.b2z inserted + rest)
  end.

Definition dt_min (a b : datetime) : datetime := if dt_ltb b a then b else a.

(** One page of a trigger whose stored cursor is [cursor]. *)
Definition advance_page (p : prepared) (cursor horizon : datetime) (max_scan_minutes max_occurrences : Z) : M queue_db Z :=
  let spec := pr_spec p in
  _ ← lift (queue_reject (dt_ltb horizon cursor) "The PostgreSQL schedule cursor is ahead of time.");
  let page_minutes := if negb (ts_enabled spec) then max_scan_minutes else Z.min max_scan_minutes max_occurrences in
  page_end ← lift (add_minutes cursor page_minutes);
  let scan_horizon := dt_min horizon page_end in
  occurrences ← lift (if ts_enabled spec
                      then iter_schedule_occurrences (pr_expression p) (pr_zone p) cursor scan_horizon
                             max_scan_minutes max_occurrences
                      else Ok []);
  produced ← enqueue_occurrences spec occurrences;
  _ ← update_cursor (ts_trigger_id spec) (pr_sha256 p) scan_horizon;
  mret produced.

(** One turn of the loop of [_enqueue_prepared]; a changed definition only moves
    the cursor to the horizon. *)
Definition advance_trigger (p : prepared) (horizon first_cursor : datetime) (max_scan_minutes max_occurrences : Z)
    : M queue_db Z :=
  let spec := pr_spec p in
  row ← select_cursor (ts_trigger_id spec);
  match row with
  | None =>
      _ ← insert_cursor (ts_trigger_id spec) (pr_sha256 p) first_cursor;
      advance_page p first_cursor horizon max_scan_minutes max_occurrences
  | Some row =>
      cursor ← lift (floor_utc_minute (cw_cursor_utc row));
      if negb (bool_decide (cw_spec_sha256 row = pr_sha256 p))
      then
        _ ← update_cursor (ts_trigger_id spec) (pr_sha256 p) horizon;
        mret 0
      else advance_page p cursor horizon max_scan_minutes max_occurrences
  end.

Fixpoint enqueue_prepared (ps : list prepared) (horizon first_cursor : datetime) (max_scan_minutes max_occurrences : Z)
    : M queue_db Z :=
  match ps with
  | [] => mret 0
  | p :: ps =>
      n ← advance_trigger p horizon first_cursor max_scan_minutes max_occurrences;
      rest ← enqueue_prepared ps horizon first_cursor max_scan_minutes max_occurrences;
      mret (n + rest)
  end.

(** ** The adapter *)

Record schedule_queue : Type := {
  sq_batch_size : Z;
  sq_visibility_timeout_seconds : Z;
  sq_max_deliveries : Z;
  sq_closed : bool;
}.
Definition new_schedule_queue (batch_size visibility_timeout_seconds max_deliveries : Z) : result schedule_queue :=
  _ ← reject_if (negb ((1 <=? batch_size) && (batch_size <=? 10))) ValueError
        "The PostgreSQL schedule batch size must be 1 to 10.";
  _ ← reject_if (negb ((1 <=? visibility_timeout_seconds) && (visibility_timeout_seconds <=? 3600))) ValueError
        "The PostgreSQL schedule visibility timeout must be 1 to 3600 seconds.";
  _ ← reject_if (negb ((1 <=? max_deliveries) && (max_deliveries <=? 100))) ValueError
        "The PostgreSQL schedule delivery bound must be 1 to 100.";
  Ok {| sq_batch_size := batch_size; sq_visibility_timeout_seconds := visibility_timeout_seconds;
        sq_max_deliveries := max_deliveries; sq_closed := false |}.
Definition close_queue (q : schedule_queue) : schedule_queue :=
  {| sq_batch_size := sq_batch_size q; sq_visibility_timeout_seconds := sq_visibility_timeout_seconds q;
     sq_max_deliveries := sq_max_deliveries q; sq_closed := true |}.

Definition require_open_queue (q : schedule_queue) : result unit :=
  queue_reject (sq_closed q) "The PostgreSQL schedule queue is closed.".

(** [except ScheduleQueueError: raise] and [except Exception: raise ScheduleQueueError(m)]. *)
Definition queue_errors {A} (m : string) (body : M (world queue_db) A) : M (world queue_db) A :=
  try_except body (fun e => if catches QueueErr e then lift (Raise e) else raiseM QueueErr m).

(** Everything [enqueue_due] checks before it touches the database. *)
Definition enqueue_arguments (load_zone : string -> result ZoneInfo) (q : schedule_queue) (triggers : list TriggerSpec)
    (through initial_cursor : datetime) : result (datetime * datetime * list prepared) :=
  _ ← require_open_queue q;
  horizon ← floor_utc_minute through;
  first_cursor ← floor_utc_minute initial_cursor;
  _ ← queue_reject (dt_ltb horizon first_cursor) "The schedule initial cursor cannot follow its horizon.";
  _ ← queue_reject (100 <? Z.of_nat (length triggers)) "The PostgreSQL scheduler accepts at most 100 triggers.";
  ps ← prepare load_zone [] triggers;
  Ok (horizon, first_cursor, ps).

(** The leader's connection and a pooled one run the same transaction. *)
Definition enqueue_due (load_zone : string -> result ZoneInfo) (q : schedule_queue) (triggers : list TriggerSpec)
    (through initial_cursor : datetime) (max_scan_minutes max_occurrences : Z) : M (world queue_db) Z :=
  '(horizon, first_cursor, ps) ← lift (enqueue_arguments load_zone q triggers through initial_cursor);
  queue_errors "The PostgreSQL schedule enqueue failed."
    (transact (atomically (enqueue_prepared ps horizon first_cursor max_scan_minutes max_occurrences))).

(** ** Receiving *)

Definition exhausted (max_deliveries now : Z) (r : message_row) : bool :=
  is_none (mr_dead_lettered_at r) && (max_deliveries <=? mr_delivery_count r) && lease_over now r.
Definition visible_row (max_deliveries now : Z) (locked : list string) (r : message_row) : bool :=
  is_none (mr_dead_lettered_at r) && (mr_available_at r <=? now) && (mr_delivery_count r <? max_deliveries)
  && lease_over now r && negb (bool_decide (mr_message_id r ∈ locked)).

Definition dead_letter_exhausted (max_deliveries : Z) : M queue_db unit :=
  now ← clock_timestamp;
  statement (fun d => (Ok tt, with_queue ((fun r => if exhausted max_deliveries now r then dead_lettered now r else r) <$> qd_queue d) d)).

(** ORDER BY available_at, created_at, message_id. *)
Definition row_leb : message_row -> message_row -> bool :=
  key_leb (fun r => (mr_available_at r, (mr_created_at r, mr_message_id r))) (lex_leb Z.leb (lex_leb Z.leb str_leb)).

Definition select_visible (max_deliveries batch_size : Z) (locked : list string) : M queue_db (list message_row) :=
  now ← clock_timestamp;
  statement (fun d =>
    (Ok (take (Z.to_nat batch_size)
           (py_sorted row_leb (filter (fun r => visible_row max_deliveries now locked r = true) ((map_to_list (qd_queue d)).*2)))), d)).

(** [str(uuid.uuid4())]; an exhausted supply gives a value the check refuses. *)
Definition uuid4 : M queue_db string := fun d =>
  match qd_uuids d with
  | [] => (Ok "", d)
  | u :: us => (Ok u, QueueDb (qd_cursors d) (qd_queue d) (qd_reads d) us (qd_history d) (qd_acknowledged d))
  end.

(** The body is the canonical text of a wakeup and the one the row is named after. *)
Definition well_formed_row (message_id : string) (body : list Z) : bool :=
  let canonical := match deserialize_schedule_wakeup body with Ok w => serialize_schedule_wakeup w | Raise _ => [] end in
  bool_decide (sha256_hex body = message_id) && bool_decide (canonical = body).

Fixpoint lease_rows (visibility_timeout_seconds : Z) (rows : list message_row) : M queue_db (list QueuedScheduleMessage) :=
  match rows with
  | [] => mret []
  | row :: rows =>
      if negb (well_formed_row (mr_message_id row) (mr_body row))
      then
        _ ← update_message (mr_message_id row) dead_lettered;
        lease_rows visibility_timeout_seconds rows
      else
        receipt ← uuid4;
        updated ← update_message (mr_message_id row)
                    (fun now => leased receipt (now + visibility_timeout_seconds * us_per_second));
        _ ← lift (queue_reject (negb updated) "The PostgreSQL schedule lease was lost.");
        let message := {| qm_receipt_handle := receipt; qm_body := mr_body row |} in
        _ ← lift (QueuedScheduleMessage_post_init message);
        messages ← lease_rows visibility_timeout_seconds rows;
        mret (message :: messages)
  end.

Definition receive_body (q : schedule_queue) (locked : list string) : M queue_db (list QueuedScheduleMessage) :=
  _ ← dead_letter_exhausted (sq_max_deliveries q);
  rows ← select_visible (sq_max_deliveries q) (sq_batch_size q) locked;
  lease_rows (sq_visibility_timeout_seconds q) rows.

Definition receive (q : schedule_queue) (locked : list string) : M (world queue_db) (list QueuedScheduleMessage) :=
  _ ← lift (require_open_queue q);
  queue_errors "The PostgreSQL schedule receive failed." (transact (atomically (receive_body q locked))).

(** ** Deleting *)

(** [str(uuid.UUID(value)) == value]. *)
Definition UUID : re :=
  Cat (exactly 8 (Cls lower_hex)) (Cat (lit "-") (Cat (exactly 4 (Cls lower_hex)) (Cat (lit "-")
    (Cat (exactly 4 (Cls lower_hex)) (Cat (lit "-") (Cat (exactly 4 (Cls lower_hex)) (Cat (lit "-") (exactly 12 (Cls lower_hex))))))))).
Definition canonical_uuid (value : string) : bool := fullmatch UUID value.

Definition acknowledged (receipt_handle : string) (now : Z) (r : message_row) : bool :=
  bool_decide (mr_receipt_handle r = Some receipt_handle) && is_none (mr_dead_lettered_at r)
  && match mr_lease_until r with Some t => now <? t | None => false end.

Definition delete_body (receipt_handle : string) : M queue_db unit :=
  now ← clock_timestamp;
  statement (fun d =>
    let gone := filter (fun p : string * message_row => acknowledged receipt_handle now p.2 = true) (map_to_list (qd_queue d)) in
    if bool_decide (gone.*1 = [])
    then raiseM QueueErr "The PostgreSQL schedule receipt is stale." d
    else (Ok tt, QueueDb (qd_cursors d)
                   (filter (fun p : string * message_row => acknowledged receipt_handle now p.2 = false) (qd_queue d))
                   (qd_reads d) (qd_uuids d) (qd_history d) (qd_acknowledged d ++ gone.*1))).

Definition delete (q : schedule_queue) (receipt_handle : string) : M (world queue_db) unit :=
  _ ← lift (require_open_queue q);
  _ ← lift (queue_reject (negb (canonical_uuid receipt_handle)) "Schedule queue receipt is invalid.");
  queue_errors "The PostgreSQL schedule delete failed." (transact (atomically (delete_body receipt_handle))).
End Queue.
