(* ===== verification/ScheduleQueueSpec.v ===== *)
(** * What the schedule queue promises

    No occurrence is skipped, a stale cursor catches up, and a message is held
    by one receipt at a time until it is acknowledged or its deliveries are
    spent - over any sequence of committed transactions of any number of
    producers and consumers. *)

From S2P Require Import Prelude Transactions Regex PyStr Sha256 PyTime Json JsonRead Identifiers Projection PhysicalPlan Graph Orchestration RunCodec SchedulePort TriggerCodec Cron CronSpec ScheduleQueue.

Local Open Scope string_scope.
Local Open Scope Z_scope.
Local Open Scope list_scope.

#[local] Arguments catches : simpl never.
#[local] Opaque serialize_schedule_wakeup deserialize_schedule_wakeup serialize_trigger_spec.

(** ** Committed computations *)

Lemma bindM_ok {W A B} (m : M W A) (f : A -> M W B) w b w' :
  (m ≫= f) w = (Ok b, w') <-> exists a w1, m w = (Ok a, w1) /\ f a w1 = (Ok b, w').
Proof.
  unfold mbind, M_bind. destruct (m w) as [[a|e] w1]; split.
  - intros H. by exists a, w1.
  - by intros (? & ? & [= <- <-] & H).
  - done.
  - by intros (? & ? & ? & _).
Qed.

Lemma liftM_ok {W A} (r : result A) (w : W) a w' : lift r w = (Ok a, w') <-> r = Ok a /\ w' = w.
Proof. unfold lift. split; [by intros [= -> ->]|by intros [-> ->]]. Qed.

Lemma atomically_ok {A} (m : M queue_db A) d a d' : atomically m d = Ok (a, d') <-> m d = (Ok a, d').
Proof. unfold atomically. destruct (m d) as [[x|e] d1]; naive_solver. Qed.

(** ** The state of the tables *)

Definition message_id (w : ScheduleWakeup) : string := sha256_hex (serialize_schedule_wakeup w).

(** The row holds the wakeup [w]. *)
Record row_for (w : ScheduleWakeup) (r : message_row) : Prop := {
  rf_id : mr_message_id r = message_id w;
  rf_trigger : mr_trigger_id r = sw_trigger_id w;
  rf_plan : mr_plan_revision r = sw_plan_revision w;
  rf_occurrence : mr_scheduled_occurrence r = sw_scheduled_occurrence w;
  rf_body : mr_body r = serialize_schedule_wakeup w;
}.

Section Spec.
Context (clock : nat -> Z) (max_deliveries : Z).

Record row_good (d : queue_db) (k : string) (r : message_row) : Prop := {
  rg_wakeup : exists w, wakeup_value w /\ row_for w r /\ w ∈ qd_history d;
  rg_key : k = mr_message_id r;
  rg_check : message_row_check r = true;
  rg_count : 0 <= mr_delivery_count r <= max_deliveries;
  rg_dead : is_some (mr_dead_lettered_at r) = true -> mr_delivery_count r = max_deliveries;
}.

(** What has become of an inserted wakeup. *)
Definition queued (d : queue_db) (w : ScheduleWakeup) : Prop := exists r, qd_queue d !! message_id w = Some r /\ row_for w r.
Definition accounted (d : queue_db) (w : ScheduleWakeup) : Prop := queued d w \/ message_id w ∈ qd_acknowledged d.

Definition holds_receipt (d : queue_db) (k h : string) : Prop :=
  exists r, qd_queue d !! k = Some r /\ mr_receipt_handle r = Some h.

Record db_good (d : queue_db) : Prop := {
  dg_rows k r : qd_queue d !! k = Some r -> row_good d k r;
  dg_history w : w ∈ qd_history d -> accounted d w;
  dg_receipts k k' h : holds_receipt d k h -> holds_receipt d k' h -> k = k';
  dg_supply : NoDup (qd_uuids d);
  dg_uuids h : h ∈ qd_uuids d -> canonical_uuid h = true;
  dg_fresh k h : holds_receipt d k h -> (h ∉ qd_uuids d) /\ canonical_uuid h = true;
  dg_cursors t row : qd_cursors d !! t = Some row -> utc_minute (cw_cursor_utc row) /\ convertible (instant (cw_cursor_utc row));
}.

(** A good row depends on the history only. *)
Lemma row_good_history d d' k r : (forall w, w ∈ qd_history d -> w ∈ qd_history d') -> row_good d k r -> row_good d' k r.
Proof. intros H [(w & Hw & Hr & Hh) H1 H2 H3 H4]. split; try done. exists w. auto. Qed.

(** Reading the clock changes nothing else. *)
Definition tick (d : queue_db) : queue_db :=
  QueueDb (qd_cursors d) (qd_queue d) (S (qd_reads d)) (qd_uuids d) (qd_history d) (qd_acknowledged d).

Lemma clock_ok d n d' : clock_timestamp clock d = (Ok n, d') <-> n = clock (qd_reads d) /\ d' = tick d.
Proof. unfold clock_timestamp. fold (tick d). naive_solver. Qed.

Lemma tick_good d : db_good d -> db_good (tick d).
Proof.
  intros [H1 H2 H3 H4 H5 H6 H7]. split; try done. intros k r Hk. eapply row_good_history; [|by apply H1]. done.
Qed.

(** ** Inserting messages *)

Definition message_of (w : ScheduleWakeup) (now : Z) : message_row :=
  MessageRow (message_id w) (sw_trigger_id w) (sw_plan_revision w) (sw_scheduled_occurrence w)
    (serialize_schedule_wakeup w) now 0 None None None now.

Lemma message_of_row w now : row_for w (message_of w now).
Proof. by split. Qed.

Lemma wakeup_body_length w : wakeup_value w -> 1 <= Z.of_nat (length (serialize_schedule_wakeup w)) <= 8192.
Proof.
  intros Hw. pose proof (wakeup_length w Hw) as H. unfold MAX_WAKEUP_BYTES in H. pose proof (wakeup_nonempty w).
  destruct (serialize_schedule_wakeup w); [done|]. cbn [length] in *. lia.
Qed.

Lemma message_of_check w now : wakeup_value w -> message_row_check (message_of w now) = true.
Proof.
  intros Hw. destruct (wakeup_fields w (wv_post w Hw)) as (Ht & Hs & _). pose proof (wakeup_body_length w Hw).
  unfold message_row_check. cbn [message_of mr_message_id mr_plan_revision mr_trigger_id mr_body mr_delivery_count mr_receipt_handle mr_lease_until mr_dead_lettered_at].
  unfold message_id. rewrite sha256_hex_is_sha256, Hs, !(proj2 (Z.leb_le _ _)); [done|lia..|].
  apply portable_id_length in Ht. unfold py_len. lia.
Qed.

(** The database after inserting a message. *)
Definition inserted (w : ScheduleWakeup) (d : queue_db) : queue_db :=
  QueueDb (qd_cursors d) (<[message_id w := message_of w (clock (qd_reads d))]> (qd_queue d)) (S (qd_reads d)) (qd_uuids d)
    (qd_history d ++ [w]) (qd_acknowledged d).

Lemma insert_message_ok w d b d' : wakeup_value w ->
  insert_message clock w (message_id w) (serialize_schedule_wakeup w) d = (Ok b, d') ->
  (b = true /\ d' = inserted w d /\ qd_queue d !! message_id w = None) \/
  (b = false /\ d' = tick d /\ exists k r, qd_queue d !! k = Some r /\ same_occurrence (message_of w (clock (qd_reads d))) r = true).
Proof.
  intros Hw H. unfold insert_message in H. apply bindM_ok in H as (now & d1 & [-> ->]%clock_ok & H).
  cbv zeta in H. fold (message_of w (clock (qd_reads d))) in H. rewrite (message_of_check w _ Hw) in H.
  apply bindM_ok in H as ([] & d1 & [_ ->]%liftM_ok & H). unfold statement in H. cbn [tick qd_queue] in H.
  destruct (existsb _ _) eqn:E.
  - injection H as <- <-. right. split_and!; [done..|]. apply existsb_exists in E as ([k r] & Hin & Hs).
    apply list_elem_of_In, elem_of_map_to_list in Hin. by exists k, r.
  - destruct (qd_queue d !! message_id w) eqn:Eq; [done|]. injection H as <- <-. by left.
Qed.

(** Rows of the same occurrence hold the same wakeup. *)
Lemma same_occurrence_wakeup d k r w now : db_good d -> qd_queue d !! k = Some r -> wakeup_value w ->
  same_occurrence (message_of w now) r = true -> row_for w r /\ w ∈ qd_history d.
Proof.
  intros Hd Hk Hw Hs. destruct (rg_wakeup _ _ _ (dg_rows d Hd k r Hk)) as (w' & Hw' & Hr & Hh).
  unfold same_occurrence in Hs. rewrite !andb_true_iff, !bool_decide_eq_true, Z.eqb_eq in Hs. destruct Hs as [[H1 H2] H3].
  cbn [message_of mr_trigger_id mr_plan_revision mr_scheduled_occurrence] in *.
  assert (w' = w) as ->; [|done].
  destruct (wakeup_fields w (wv_post w Hw)) as (_ & _ & Hu%is_utc_spec). destruct (wakeup_fields w' (wv_post w' Hw')) as (_ & _ & Hu'%is_utc_spec).
  destruct Hr as [_ E1 E2 E3 _]. destruct w as [t p o], w' as [t' p' o']. cbn in *.
  rewrite E1 in H1. rewrite E2 in H2. rewrite E3 in H3. subst. f_equal. congruence.
Qed.

Lemma inserted_good w d : db_good d -> wakeup_value w -> 0 <= max_deliveries -> qd_queue d !! message_id w = None -> db_good (inserted w d).
Proof.
  intros Hd Hw Hmax Hn. pose proof Hd as [H1 H2 H3 H4 H5 H6 H7]. set (now := clock (qd_reads d)).
  assert (forall k h, holds_receipt (inserted w d) k h -> holds_receipt d k h) as Hrec.
  { intros k h (r & Hk & Hh). cbn in Hk. apply lookup_insert_Some in Hk as [[<- <-]|[_ Hk]]; [done|]. by exists r. }
  split; cbn [inserted qd_history qd_queue qd_uuids qd_cursors]; try done.
  - intros k r Hk. apply lookup_insert_Some in Hk as [[<- <-]|[_ Hk]].
    + split; cbn; try done; [|by apply message_of_check].
      exists w. split; [done|split; [apply message_of_row|]]. apply elem_of_app. right. left.
    + eapply row_good_history; [|by apply H1]. intros x Hx. apply elem_of_app. by left.
  - intros x [Hx|Hx]%elem_of_app.
    + destruct (H2 x Hx) as [(r & Hr & Hrf)|Ha]; [|by right]. left. exists r. split; [|done]. cbn.
      rewrite lookup_insert_ne; [done|]. intros E. rewrite E in Hn. congruence.
    + apply list_elem_of_singleton in Hx as ->. left. exists (message_of w now). split; [apply lookup_insert_eq|apply message_of_row].
  - intros k k' h Hk Hk'. eapply H3; by apply Hrec.
  - intros k h Hk. by eapply H6, Hrec.
Qed.

(** ** Producing a page *)

Definition wakeup_of (spec : TriggerSpec) (t : datetime) : ScheduleWakeup :=
  {| sw_trigger_id := ts_trigger_id spec; sw_plan_revision := ts_plan_revision spec; sw_scheduled_occurrence := t |}.

(** What a producing step leaves alone, and how the history grows. *)
Record produces (d d' : queue_db) (new : list ScheduleWakeup) : Prop := {
  pd_good : db_good d';
  pd_history : qd_history d' = qd_history d ++ new;
  pd_rows k r : qd_queue d !! k = Some r -> qd_queue d' !! k = Some r;
  pd_new k r : qd_queue d' !! k = Some r -> qd_queue d !! k = Some r \/ mr_receipt_handle r = None;
  pd_uuids : qd_uuids d' = qd_uuids d;
  pd_acknowledged : qd_acknowledged d' = qd_acknowledged d;
}.

Lemma produces_trans d1 d2 d3 n1 n2 : produces d1 d2 n1 -> produces d2 d3 n2 -> produces d1 d3 (n1 ++ n2).
Proof.
  intros [A1 A2 A3 A4 A5 A6] [B1 B2 B3 B4 B5 B6]. split; [done|by rewrite B2, A2, <- app_assoc|auto| |congruence..].
  intros k r H. destruct (B4 k r H) as [H'|H']; [by apply A4|by right].
Qed.

Lemma tick_produces d : db_good d -> produces d (tick d) [].
Proof. intros H. split; try done; [by apply tick_good|by rewrite app_nil_r|by left]. Qed.

Lemma enqueue_occurrences_ok spec l : forall d n d',
  0 <= max_deliveries -> db_good d -> (forall t, t ∈ l -> in_range t) ->
  enqueue_occurrences clock spec l d = (Ok n, d') ->
  exists new, produces d d' new /\ qd_cursors d' = qd_cursors d /\ sublist new (wakeup_of spec <$> l) /\
              (forall t, t ∈ l -> wakeup_of spec t ∈ qd_history d') /\ n = Z.of_nat (length new).
Proof.
  induction l as [|t l IH]; intros d n d' Hmax Hd Hl H; cbn [enqueue_occurrences] in H.
  { injection H as <- <-. exists []. split_and!; try done; [|intros t Ht; by apply elem_of_nil in Ht].
    split; try done; [by rewrite app_nil_r|by left]. }
  apply bindM_ok in H as (w & d1 & [Hw ->]%liftM_ok & H). apply seq_ok in Hw as [Hpost [= <-]]. fold (wakeup_of spec t) in *.
  assert (wakeup_value (wakeup_of spec t)) as Hw by (split; [done|apply Hl; left]).
  apply bindM_ok in H as (b & d1 & Hi & H). apply bindM_ok in H as (m & d2 & Hrest & H). injection H as <- <-.
  assert (exists new1, produces d d1 new1 /\ qd_cursors d1 = qd_cursors d /\ wakeup_of spec t ∈ qd_history d1 /\
            new1 = if b then [wakeup_of spec t] else []) as (new1 & Hp1 & Hc1 & Hh1 & Hn1).
  { destruct (insert_message_ok _ _ _ _ Hw Hi) as [(-> & -> & Hn)|(-> & -> & k & r & Hk & Hs)].
    - exists [wakeup_of spec t]. split_and!; [|done| |done]; [|apply elem_of_app; right; left].
      split; try done; [by apply inserted_good| |].
      + intros k r Hk. cbn. rewrite lookup_insert_ne; [done|]. congruence.
      + intros k r Hk. cbn in Hk. apply lookup_insert_Some in Hk as [[<- <-]|[_ Hk]]; [by right|by left].
    - exists []. split_and!; [by apply tick_produces|done| |done]. destruct (same_occurrence_wakeup d k r _ _ Hd Hk Hw Hs) as [_ Hh]. exact Hh. }
  destruct (IH d1 m d2 Hmax (pd_good _ _ _ Hp1) (fun x Hx => Hl x (list_elem_of_further _ _ _ Hx)) Hrest) as (new & Hp & Hc & Hsub & Hall & ->).
  exists (new1 ++ new). split_and!.
  - by eapply produces_trans.
  - congruence.
  - rewrite Hn1. rewrite fmap_cons. destruct b; cbn; by constructor.
  - intros x [->|Hx]%elem_of_cons; [|by apply Hall]. rewrite (pd_history _ _ _ Hp). apply elem_of_app. by left.
  - rewrite length_app, Hn1. destruct b; cbn [length Z.b2z]; lia.
Qed.

(** ** Advancing one trigger *)

(** A prepared trigger whose zone is a real zone, and readings of the scheduler's
    clock with room for the conversions. *)
Definition zone_ok (p : prepared) : Prop := forall t, Z.abs (pr_zone p t) < us_per_day.
Definition tick_ok (t : datetime) : Prop := utc_minute t /\ convertible (instant t) /\ convertible (instant t + us_per_minute).

Lemma utc_minute_eq a b : utc_minute a -> utc_minute b -> instant a = instant b -> a = b.
Proof. intros [Ea _] [Eb _] E. by rewrite Ea, Eb, E. Qed.

Lemma utc_minute_utc i : i mod us_per_minute = 0 -> utc_minute (utc i).
Proof. intros H. split; by rewrite instant_utc. Qed.

Lemma convertible_between a b t : convertible a -> convertible b -> a <= t <= b -> convertible t.
Proof. unfold convertible. lia. Qed.

Lemma convertible_in_range t : convertible t -> in_range (utc t).
Proof.
  intros H. unfold in_range, utc. destruct (days_between (Some 0) t) as [-> Hd]; [|done].
  unfold convertible in H. assert (0 < us_per_day) by done. lia.
Qed.

Lemma floor_minute t : utc_minute t -> convertible (instant t) -> floor_utc_minute t = Ok t.
Proof.
  intros [E H] Hc. unfold floor_utc_minute. rewrite E at 1. cbn [is_naive utc dt_offset is_none schedule_reject reject_if mbind result_bind].
  unfold astimezone_utc. rewrite checked_in_range by by apply convertible_in_range. cbn [mbind result_bind].
  rewrite instant_utc, H, Z.sub_0_r. by rewrite <- E.
Qed.

Lemma add_minutes_ok t n t' : utc_minute t -> add_minutes t n = Ok t' -> t' = utc (instant t + n * us_per_minute) /\ utc_minute t'.
Proof.
  intros [E H]. rewrite E. unfold add_minutes, checked_datetime. rewrite instant_utc. cbn [utc dt_local dt_offset].
  destruct (_ && _); [|done]. intros [= <-]. split; [done|]. apply utc_minute_utc. by rewrite Z.add_mod, H, Z.mod_mul.
Qed.

Definition trigger_key (p : prepared) : string := ts_trigger_id (pr_spec p).

(** The stored cursor belongs to another definition of the trigger. *)
Definition cut_over (p : prepared) (d : queue_db) : bool :=
  match qd_cursors d !! trigger_key p with
  | Some row => negb (bool_decide (cw_spec_sha256 row = pr_sha256 p))
  | None => false
  end.
Definition start_of (p : prepared) (first_cursor : datetime) (d : queue_db) : datetime :=
  match qd_cursors d !! trigger_key p with Some row => cw_cursor_utc row | None => first_cursor end.
Definition page_of (p : prepared) (max_scan_minutes max_occurrences : Z) : Z :=
  if negb (ts_enabled (pr_spec p)) then max_scan_minutes else Z.min max_scan_minutes max_occurrences.

(** The occurrences of a trigger between two cursors. *)
Definition due_between (p : prepared) (a b : datetime) : list datetime :=
  if ts_enabled (pr_spec p) then occurrences (pr_expression p) (pr_zone p) (instant a) (span a b) else [].

Record advanced (p : prepared) (horizon first_cursor : datetime) (max_scan_minutes max_occurrences : Z)
    (d d' : queue_db) (c : datetime) (new : list ScheduleWakeup) : Prop := {
  ad_produces : produces d d' new;
  ad_cursor : exists now, qd_cursors d' = <[trigger_key p := CursorRow (trigger_key p) (pr_sha256 p) c now]> (qd_cursors d);
  ad_minute : utc_minute c;
  ad_cut : cut_over p d = true -> c = horizon /\ new = [];
  ad_page : cut_over p d = false ->
    instant c = Z.min (instant horizon) (instant (start_of p first_cursor d) + page_of p max_scan_minutes max_occurrences * us_per_minute) /\
    instant (start_of p first_cursor d) <= instant c /\
    sublist new (wakeup_of (pr_spec p) <$> due_between p (start_of p first_cursor d) c) /\
    (forall t, t ∈ due_between p (start_of p first_cursor d) c -> wakeup_of (pr_spec p) t ∈ qd_history d');
}.

Lemma update_cursor_ok t sha c d u d' : update_cursor clock t sha c d = (Ok u, d') -> is_Some (qd_cursors d !! t) ->
  d' = with_cursors (<[t := CursorRow t sha c (clock (qd_reads d))]> (qd_cursors d)) (tick d).
Proof.
  intros H [row Hrow]. unfold update_cursor in H. apply bindM_ok in H as (now & d1 & [-> ->]%clock_ok & H).
  apply bindM_ok in H as ([] & d1 & [_ ->]%liftM_ok & H). unfold statement in H. cbn [tick qd_cursors] in H. rewrite Hrow in H. by injection H as _ <-.
Qed.

Lemma insert_cursor_ok t sha c d u d' : insert_cursor clock t sha c d = (Ok u, d') ->
  d' = with_cursors (<[t := CursorRow t sha c (clock (qd_reads d))]> (qd_cursors d)) (tick d).
Proof.
  intros H. unfold insert_cursor in H. apply bindM_ok in H as (now & d1 & [-> ->]%clock_ok & H). cbv zeta in H.
  apply bindM_ok in H as ([] & d1 & [_ ->]%liftM_ok & H). unfold statement in H. cbn [tick qd_cursors] in H.
  destruct (is_some _); [done|]. by injection H as _ <-.
Qed.

(** Storing a cursor. *)
Lemma with_cursor_good t sha c now d : db_good d -> utc_minute c -> convertible (instant c) ->
  db_good (with_cursors (<[t := CursorRow t sha c now]> (qd_cursors d)) (tick d)).
Proof.
  intros [H1 H2 H3 H4 H5 H6 H7] Hm Hc. split; try done.
  - intros k r Hk. eapply row_good_history; [|by apply H1]. done.
  - intros k row Hk. cbn in Hk. apply lookup_insert_Some in Hk as [[_ <-]|[_ Hk]]; [done|]. by apply (H7 k).
Qed.

Lemma with_cursor_produces t sha c now d : db_good d -> utc_minute c -> convertible (instant c) ->
  produces d (with_cursors (<[t := CursorRow t sha c now]> (qd_cursors d)) (tick d)) [].
Proof. intros. split; try done; [by apply with_cursor_good|by rewrite app_nil_r|by left]. Qed.

Lemma occurrences_in_range f zone a n t : convertible a -> convertible (a + Z.of_nat n * us_per_minute) ->
  t ∈ occurrences f zone a n -> in_range t.
Proof.
  intros Ha He (_ & i & Hi & ->)%elem_of_occurrences. apply convertible_in_range. eapply convertible_between; [exact Ha|exact He|].
  assert (0 < us_per_minute) by done. nia.
Qed.

Lemma advance_page_ok p cursor horizon mm mo d n d' :
  0 <= max_deliveries -> db_good d -> zone_ok p -> tick_ok horizon -> 1 <= mm ->
  (exists row, qd_cursors d !! trigger_key p = Some row) -> utc_minute cursor -> convertible (instant cursor) ->
  advance_page clock p cursor horizon mm mo d = (Ok n, d') ->
  exists c new now,
    produces d d' new /\ n = Z.of_nat (length new) /\ utc_minute c /\
    qd_cursors d' = <[trigger_key p := CursorRow (trigger_key p) (pr_sha256 p) c now]> (qd_cursors d) /\
    instant c = Z.min (instant horizon) (instant cursor + page_of p mm mo * us_per_minute) /\
    instant cursor <= instant c /\
    sublist new (wakeup_of (pr_spec p) <$> due_between p cursor c) /\
    (forall t, t ∈ due_between p cursor c -> wakeup_of (pr_spec p) t ∈ qd_history d').
Proof.
  intros Hmax Hd Hz (Hhm & Hhc & Hhe) Hmm [row Hrow] Hcm Hcc H. unfold advance_page in H.
  apply bindM_ok in H as (u & d1 & [Hle ->]%liftM_ok & H). unfold queue_reject in Hle. apply reject_if_ok in Hle. unfold dt_ltb in Hle. apply Z.ltb_ge in Hle.
  fold (page_of p mm mo) in H. cbv zeta in H.
  apply bindM_ok in H as (page_end & d1 & [Hpe ->]%liftM_ok & H). destruct (add_minutes_ok _ _ _ Hcm Hpe) as [Epe Hpm]. 
  set (c := dt_min horizon page_end) in *.
  assert (utc_minute c) as Hc by (unfold c, dt_min; by destruct (dt_ltb _ _)).
  assert (instant c = Z.min (instant horizon) (instant cursor + page_of p mm mo * us_per_minute)) as Ec.
  { unfold c, dt_min, dt_ltb. destruct (Z.ltb_spec (instant page_end) (instant horizon)); rewrite Epe, instant_utc in *; lia. }
  apply bindM_ok in H as (occ & d1 & [Hocc ->]%liftM_ok & H).
  apply bindM_ok in H as (n' & d1 & Henq & H). apply bindM_ok in H as (u' & d2 & Hup & H). injection H as <- <-.
  assert (instant c <= instant horizon) as Hch by lia.
  assert (instant cursor <= instant c /\ occ = due_between p cursor c) as [Hcc' Eocc].
  { unfold due_between, page_of in *. destruct (ts_enabled (pr_spec p)); cbn [negb] in *.
    - apply iter_ok in Hocc as ([_ _ Ho _ _ _] & -> & _); [done|exact Hz|done|].
      destruct (Z.le_gt_cases (instant cursor) (instant c)) as [Hx|Hx].
      + eapply convertible_between; [exact Hcc|exact Hhe|]. assert (0 < us_per_minute) by done. lia.
      + exfalso. clear -Hocc Hx Hcm Hc. unfold iter_schedule_occurrences in Hocc.
        rewrite (proj2 (require_utc_minute_iff _ _) Hcm), (proj2 (require_utc_minute_iff _ _) Hc) in Hocc. cbn [mbind result_bind] in Hocc.
        unfold dt_ltb in Hocc. rewrite (proj2 (Z.ltb_lt _ _) Hx) in Hocc. discriminate Hocc.
    - injection Hocc as <-. split; [|done]. rewrite Ec. assert (0 < us_per_minute) by done. nia. }
  assert (forall t, t ∈ occ -> in_range t) as Hin.
  { intros t Ht. rewrite Eocc in Ht. unfold due_between in Ht. destruct (ts_enabled (pr_spec p)); [|by apply elem_of_nil in Ht].
    eapply occurrences_in_range; [exact Hcc| |exact Ht]. rewrite <- span_exact by done. eapply convertible_between; [exact Hcc|exact Hhc|lia]. }
  destruct (enqueue_occurrences_ok _ _ _ _ _ Hmax Hd Hin Henq) as (new & Hp & Hcur & Hsub & Hall & ->).
  assert (convertible (instant c)) as Hconv by (eapply convertible_between; [exact Hcc|exact Hhc|lia]).
  apply update_cursor_ok in Hup; [|rewrite Hcur; fold (trigger_key p); by exists row]. fold (trigger_key p) in Hup.
  exists c, new, (clock (qd_reads d1)). subst d2. split_and!; try done.
  - rewrite <- (app_nil_r new). eapply produces_trans; [exact Hp|]. by apply with_cursor_produces, Hconv; [apply (pd_good _ _ _ Hp)|].
  - cbn [with_cursors qd_cursors]. by rewrite Hcur.
  - by rewrite <- Eocc.
  - intros t Ht. rewrite <- Eocc in Ht. by apply Hall.
Qed.

Lemma advance_ok p horizon first_cursor mm mo d n d' :
  0 <= max_deliveries -> db_good d -> zone_ok p -> tick_ok horizon -> tick_ok first_cursor -> 1 <= mm ->
  advance_trigger clock p horizon first_cursor mm mo d = (Ok n, d') ->
  exists c new, advanced p horizon first_cursor mm mo d d' c new /\ n = Z.of_nat (length new).
Proof.
  intros Hmax Hd Hz Hh Hf Hmm H. unfold advance_trigger in H.
  apply bindM_ok in H as (row & d1 & Hsel & H). unfold select_cursor in Hsel. injection Hsel as <- <-. fold (trigger_key p) in H.
  destruct (qd_cursors d !! trigger_key p) as [row|] eqn:Erow.
  - destruct (dg_cursors d Hd _ _ Erow) as [Hm Hc]. apply bindM_ok in H as (cursor & d1 & [Hcur ->]%liftM_ok & H).
    rewrite floor_minute in Hcur by done. injection Hcur as <-.
    destruct (negb (bool_decide (cw_spec_sha256 row = pr_sha256 p))) eqn:Ecut.
    + apply bindM_ok in H as (u & d1 & Hup & H). injection H as <- <-. apply update_cursor_ok in Hup; [|fold (trigger_key p); by exists row]. subst d1.
      destruct Hh as (Hhm & Hhc & _). exists horizon, []. split; [|done]. split; try done.
      * by apply with_cursor_produces.
      * by exists (clock (qd_reads d)).
      * intros Hn. unfold cut_over in Hn. rewrite Erow, Ecut in Hn. done.
    + destruct (advance_page_ok _ _ _ _ _ _ _ _ Hmax Hd Hz Hh Hmm (ex_intro _ row Erow) Hm Hc H)
        as (c & new & now & H1 & H2 & H3 & H4 & H5 & H6 & H7 & H8).
      exists c, new. split; [|done]. split; try done; [by exists now|..]; unfold cut_over, start_of; rewrite Erow; [by rewrite Ecut|done].
  - apply bindM_ok in H as (u & d1 & Hin & H). apply insert_cursor_ok in Hin. fold (trigger_key p) in Hin.
    destruct Hf as (Hfm & Hfc & Hfe). set (now0 := clock (qd_reads d)) in *.
    pose proof (with_cursor_produces (trigger_key p) (pr_sha256 p) first_cursor now0 d Hd Hfm Hfc) as Hp0. rewrite <- Hin in Hp0.
    destruct (advance_page_ok p first_cursor horizon mm mo d1 n d' Hmax (pd_good _ _ _ Hp0) Hz Hh Hmm) as (c & new & now & H1 & H2 & H3 & H4 & H5 & H6 & H7 & H8); try done.
    { subst d1. cbn [with_cursors qd_cursors]. rewrite lookup_insert_eq. by eexists. }
    exists c, new. split; [|done]. split; try done.
    + exact (produces_trans _ _ _ [] new Hp0 H1).
    + exists now. rewrite H4. subst d1. cbn [with_cursors qd_cursors]. by rewrite insert_insert_eq.
    + unfold cut_over. by rewrite Erow.
    + intros _. unfold start_of. rewrite Erow. done.
Qed.

(** ** Receiving *)

(** The row of a lease: what [receive] changes about it. *)
Definition lease_of (visibility : Z) (now : Z) (receipt : string) (r : message_row) : message_row :=
  leased receipt (now + visibility * us_per_second) r.

(** Rows whose wakeup the history holds are well formed. *)
Lemma row_well_formed d k r : row_good d k r -> well_formed_row (mr_message_id r) (mr_body r) = true.
Proof.
  intros [(w & Hw & Hr & _) _ _ _ _]. unfold well_formed_row. rewrite (rf_body w r Hr), (rf_id w r Hr), (wakeup_reads w Hw).
  by rewrite !bool_decide_eq_true_2.
Qed.

Lemma update_message_ok k f d b d' : update_message clock k f d = (Ok b, d') ->
  let now := clock (qd_reads d) in
  (b = false /\ qd_queue d !! k = None /\ d' = tick d) \/
  (b = true /\ exists r, qd_queue d !! k = Some r /\ message_row_check (f now r) = true /\
   d' = with_queue (<[k := f now r]> (qd_queue d)) (tick d)).
Proof.
  intros H. unfold update_message in H. apply bindM_ok in H as (now & d1 & [-> ->]%clock_ok & H).
  unfold statement in H. cbn [tick qd_queue] in H. destruct (qd_queue d !! k) as [r|] eqn:E; [|injection H as <- <-; by left].
  destruct (message_row_check _) eqn:Ec; [|done]. injection H as <- <-. right. split; [done|]. by exists r.
Qed.

(** One row leased under the first fresh receipt. *)
Definition leased_db (k : string) (r : message_row) (us : list string) (d : queue_db) : queue_db :=
  QueueDb (qd_cursors d) (<[k := r]> (qd_queue d)) (S (qd_reads d)) us (qd_history d) (qd_acknowledged d).

Lemma lease_good visibility d k r u us : db_good d -> qd_queue d !! k = Some r -> mr_dead_lettered_at r = None ->
  mr_delivery_count r < max_deliveries -> qd_uuids d = u :: us ->
  message_row_check (lease_of visibility (clock (qd_reads d)) u r) = true ->
  db_good (leased_db k (lease_of visibility (clock (qd_reads d)) u r) us d).
Proof.
  intros [H1 H2 H3 H4 H5 H6 H7] Hk Hdead Hcount Hu Hcheck. set (r' := lease_of _ _ u r) in *.
  assert (forall x w, row_for w x -> x = r -> row_for w r') as Hrf by (intros x w [] ->; by split).
  assert (forall k0 h, holds_receipt (leased_db k r' us d) k0 h -> (k0 = k /\ h = u) \/ (k0 <> k /\ holds_receipt d k0 h)) as Hrec.
  { intros k0 h (x & Hx & Hh). cbn in Hx. apply lookup_insert_Some in Hx as [[<- <-]|[Hne Hx]].
    - left. cbn in Hh. by injection Hh as <-.
    - right. split; [done|]. by exists x. }
  rewrite Hu in H4, H5, H6. apply NoDup_cons in H4 as [Hu1 Hu2].
  split; cbn [leased_db qd_queue qd_history qd_uuids qd_cursors]; try done.
  - intros k0 x Hx. apply lookup_insert_Some in Hx as [[<- <-]|[_ Hx]].
    + destruct (H1 k r Hk) as [(w & Hw & Hr & Hh) E1 E2 E3 E4]. split; cbn; try done.
      * exists w. split; [done|split; [by eapply Hrf|done]].
      * lia.
      * intros Hd. by rewrite Hdead in Hd.
    + eapply row_good_history; [|by apply H1]. done.
  - intros w Hw. destruct (H2 w Hw) as [(x & Hx & Hxw)|Ha]; [|by right]. left.
    destruct (decide (message_id w = k)) as [E|Hne].
    + exists r'. unfold leased_db. cbn [qd_queue]. rewrite E in *. rewrite lookup_insert_eq. split; [done|]. eapply Hrf; [exact Hxw|congruence].
    + exists x. split; [|done]. cbn. by rewrite lookup_insert_ne.
  - intros k0 k1 h [[-> ->]|[Hn0 G0]]%Hrec [[-> E]|[Hn1 G1]]%Hrec; [done|..].
    + exfalso. destruct (H6 k1 u G1) as [Hnin _]. apply Hnin. left.
    + subst h. exfalso. destruct (H6 k0 u G0) as [Hnin _]. apply Hnin. left.
    + by eapply H3.
  - intros h Hh. apply H5. by right.
  - intros k0 h [[-> ->]|[_ G]]%Hrec; [split; [done|apply H5; left]|]. destruct (H6 k0 h G) as [Hnin Hcan]. split; [|done].
    intros Hin. apply Hnin. by right.
Qed.

(** The rows of a batch, with the messages made from them. *)
Record leases (visibility : Z) (rows : list message_row) (d : queue_db) (ms : list QueuedScheduleMessage) (d' : queue_db) : Prop := {
  ls_good : db_good d';
  ls_messages : Forall2 (fun r m => qm_body m = mr_body r /\
      exists now, qd_queue d' !! mr_message_id r = Some (lease_of visibility now (qm_receipt_handle m) r)) rows ms;
  ls_others k : k ∉ mr_message_id <$> rows -> qd_queue d' !! k = qd_queue d !! k;
  ls_receipts : qd_uuids d = (qm_receipt_handle <$> ms) ++ qd_uuids d';
  ls_cursors : qd_cursors d' = qd_cursors d;
  ls_history : qd_history d' = qd_history d;
  ls_acknowledged : qd_acknowledged d' = qd_acknowledged d;
}.

Lemma lease_rows_ok visibility rows : forall d ms d',
  db_good d -> NoDup (mr_message_id <$> rows) ->
  (forall r, r ∈ rows -> qd_queue d !! mr_message_id r = Some r /\ mr_dead_lettered_at r = None /\ mr_delivery_count r < max_deliveries) ->
  lease_rows clock visibility rows d = (Ok ms, d') -> leases visibility rows d ms d'.
Proof.
  induction rows as [|r rows IH]; intros d ms d' Hd Hnd Hrows H; cbn [lease_rows] in H.
  { injection H as <- <-. by split. }
  destruct (Hrows r (list_elem_of_here _ _)) as (Hr & Hdead & Hcount).
  rewrite (row_well_formed d _ r (dg_rows d Hd _ _ Hr)) in H. cbn [negb] in H.
  apply bindM_ok in H as (u & d1 & Huu & H). unfold uuid4 in Huu. destruct (qd_uuids d) as [|u0 us] eqn:Eus; injection Huu as <- <-.
  { apply bindM_ok in H as (b & d1 & Hupd & H). apply bindM_ok in H as (x1 & d2 & [_ ->]%liftM_ok & H).
    apply bindM_ok in H as (x2 & d3 & [Hpost _]%liftM_ok & _). discriminate Hpost. }
  apply bindM_ok in H as (b & d1 & Hupd & H). apply update_message_ok in Hupd.
  apply bindM_ok in H as (x1 & d2 & [Hb ->]%liftM_ok & H). unfold queue_reject in Hb. apply reject_if_ok, negb_false_iff in Hb. subst b.
  destruct Hupd as [[? _]|(_ & r0 & Hr0 & Hcheck & Ed1)]; [done|]. cbn [qd_queue qd_reads] in *.
  assert (r0 = r) as -> by congruence.
  apply bindM_ok in H as (x2 & d2 & [_ ->]%liftM_ok & H). apply bindM_ok in H as (ms' & d2 & Hrest & H). injection H as <- <-.
  fold (lease_of visibility (clock (qd_reads d)) u0 r) in *.
  assert (d1 = leased_db (mr_message_id r) (lease_of visibility (clock (qd_reads d)) u0 r) us d) as E1 by by rewrite Ed1.
  pose proof (lease_good visibility d _ r u0 us Hd Hr Hdead Hcount Eus Hcheck) as Hgood. rewrite <- E1 in Hgood.
  rewrite fmap_cons in Hnd. apply NoDup_cons in Hnd as [Hnin Hnd].
  destruct (IH d1 ms' d2 Hgood Hnd) as [L1 L2 L3 L4 L5 L6 L7]; [|exact Hrest|].
  { intros x Hx. destruct (Hrows x (list_elem_of_further _ _ _ Hx)) as (G1 & G2 & G3). split; [|done].
    rewrite E1. cbn. rewrite lookup_insert_ne; [done|]. intros E. apply Hnin. rewrite E. by apply list_elem_of_fmap_2. }
  split; try done.
  - constructor; [|done]. split; [done|]. exists (clock (qd_reads d)). rewrite L3 by done. rewrite E1. cbn. by rewrite lookup_insert_eq.
  - intros k Hk. rewrite fmap_cons, not_elem_of_cons in Hk. destruct Hk as [Hk1 Hk2]. rewrite L3 by done. rewrite E1. cbn.
    by rewrite lookup_insert_ne.
  - rewrite Eus. cbn [fmap list_fmap qm_receipt_handle app]. f_equal. by rewrite <- L4, E1.
  - by rewrite L5, E1.
  - by rewrite L6, E1.
  - by rewrite L7, E1.
Qed.

Definition after_exhausted (now : Z) (r : message_row) : message_row :=
  if exhausted max_deliveries now r then dead_lettered now r else r.

Lemma after_exhausted_same now r w : row_for w r -> row_for w (after_exhausted now r).
Proof. unfold after_exhausted. intros []. by destruct (exhausted _ _ _). Qed.

Lemma check_dead_lettered now r : message_row_check r = true -> message_row_check (dead_lettered now r) = true.
Proof.
  unfold message_row_check, dead_lettered.
  cbn [mr_message_id mr_plan_revision mr_trigger_id mr_body mr_delivery_count mr_receipt_handle mr_lease_until mr_dead_lettered_at is_none].
  rewrite !andb_true_iff. tauto.
Qed.

Lemma dead_letter_ok d u d' : db_good d -> dead_letter_exhausted clock max_deliveries d = (Ok u, d') ->
  d' = with_queue (after_exhausted (clock (qd_reads d)) <$> qd_queue d) (tick d) /\ db_good d'.
Proof.
  intros Hd H. unfold dead_letter_exhausted in H. apply bindM_ok in H as (now & d1 & [-> ->]%clock_ok & H).
  unfold statement in H. injection H as _ <-. set (now := clock (qd_reads d)). split; [done|].
  destruct Hd as [H1 H2 H3 H4 H5 H6 H7].
  assert (forall k h, holds_receipt (with_queue (after_exhausted now <$> qd_queue d) (tick d)) k h -> holds_receipt d k h) as Hrec.
  { intros k h (r & Hk & Hh). cbn in Hk. apply lookup_fmap_Some in Hk as (r0 & <- & Hk). exists r0. split; [done|].
    revert Hh. unfold after_exhausted. by destruct (exhausted _ _ _). }
  split; cbn [with_queue tick qd_queue qd_history qd_uuids qd_cursors]; try done.
  - intros k r Hk. apply lookup_fmap_Some in Hk as (r0 & <- & Hk). destruct (H1 k r0 Hk) as [(w & Hw & Hr & Hh) E1 E2 E3 E4].
    fold (after_exhausted now r0). split.
    + exists w. split; [done|split; [by apply after_exhausted_same|done]].
    + rewrite E1. unfold after_exhausted. by destruct (exhausted _ _ _).
    + unfold after_exhausted. destruct (exhausted _ _ _); [by apply check_dead_lettered|done].
    + unfold after_exhausted. by destruct (exhausted _ _ _).
    + unfold after_exhausted. destruct (exhausted max_deliveries now r0) eqn:Ex; [|done]. intros _. cbn.
      unfold exhausted in Ex. rewrite !andb_true_iff, Z.leb_le in Ex. lia.
  - intros w Hw. destruct (H2 w Hw) as [(r & Hr & Hrw)|Ha]; [|by right]. left. exists (after_exhausted now r).
    cbn. rewrite lookup_fmap, Hr. split; [done|by apply after_exhausted_same].
  - intros k k' h G G'. eapply H3; by apply Hrec.
  - intros k h G. by eapply H6, Hrec.
Qed.

Lemma visible_in d now locked r :
  r ∈ py_sorted row_leb (filter (fun r => visible_row max_deliveries now locked r = true) ((map_to_list (qd_queue d)).*2)) ->
  visible_row max_deliveries now locked r = true /\ exists k, qd_queue d !! k = Some r.
Proof.
  rewrite py_sorted_perm, list_elem_of_filter. intros [Hv ((k & x) & -> & Hin%elem_of_map_to_list)%list_elem_of_fmap].
  split; [done|by exists k].
Qed.

Lemma visible_nodup d now locked n : db_good d ->
  NoDup (mr_message_id <$> take n (py_sorted row_leb (filter (fun r => visible_row max_deliveries now locked r = true) ((map_to_list (qd_queue d)).*2)))).
Proof.
  intros Hd. eapply sublist_NoDup; [|apply fmap_sublist, sublist_take].
  rewrite (fmap_Permutation mr_message_id _ _ (py_sorted_perm row_leb _)).
  eapply sublist_NoDup; [|apply fmap_sublist, sublist_filter].
  rewrite <- list_fmap_compose.
  assert ((mr_message_id ∘ snd) <$> map_to_list (qd_queue d) = fst <$> map_to_list (qd_queue d)) as ->; [|apply NoDup_fst_map_to_list].
  apply list_fmap_ext. intros i [k r] Hi. apply list_elem_of_lookup_2, elem_of_map_to_list in Hi. cbn.
  symmetry. apply (rg_key _ _ _ (dg_rows d Hd k r Hi)).
Qed.

(** What one committed [receive] did. *)
Record received (q : schedule_queue) (locked : list string) (d : queue_db) (ms : list QueuedScheduleMessage) (d' : queue_db) : Prop := {
  rv_good : db_good d';
  rv_batch : Z.of_nat (length ms) <= Z.max 0 (sq_batch_size q);
  rv_receipts : qd_uuids d = (qm_receipt_handle <$> ms) ++ qd_uuids d';
  rv_cursors : qd_cursors d' = qd_cursors d;
  rv_history : qd_history d' = qd_history d;
  rv_acknowledged : qd_acknowledged d' = qd_acknowledged d;
  rv_messages m : m ∈ ms -> exists k r now_select now,
    qd_queue d !! k = Some r /\ (k ∉ locked) /\ mr_dead_lettered_at r = None /\ lease_over now_select r = true /\
    mr_delivery_count r < max_deliveries /\ qm_body m = mr_body r /\
    qd_queue d' !! k = Some (lease_of (sq_visibility_timeout_seconds q) now (qm_receipt_handle m) r);
  rv_rows k r : qd_queue d !! k = Some r ->
    (exists m now, m ∈ ms /\ qd_queue d' !! k = Some (lease_of (sq_visibility_timeout_seconds q) now (qm_receipt_handle m) r)) \/
    (exists now, qd_queue d' !! k = Some (after_exhausted now r));
  rv_keys k : is_Some (qd_queue d' !! k) -> is_Some (qd_queue d !! k);
}.

Lemma not_exhausted now now' locked r : visible_row max_deliveries now' locked (after_exhausted now r) = true -> after_exhausted now r = r.
Proof.
  unfold after_exhausted. destruct (exhausted max_deliveries now r) eqn:E; [|done]. unfold visible_row. cbn. done.
Qed.

Lemma receive_ok q locked d ms d' : db_good d -> sq_max_deliveries q = max_deliveries ->
  receive_body clock q locked d = (Ok ms, d') -> received q locked d ms d'.
Proof.
  intros Hd Hq H. unfold receive_body in H. rewrite Hq in H.
  apply bindM_ok in H as (u & d1 & Hdl & H). destruct (dead_letter_ok _ _ _ Hd Hdl) as [E1 Hd1]. set (now1 := clock (qd_reads d)) in *.
  apply bindM_ok in H as (rows & d2 & Hsel & H). unfold select_visible in Hsel.
  apply bindM_ok in Hsel as (now2 & d3 & [-> ->]%clock_ok & Hsel). unfold statement in Hsel. injection Hsel as Erows <-. cbn [tick qd_queue] in Erows.
  set (now2 := clock (qd_reads d1)) in *.
  assert (forall r, r ∈ rows -> visible_row max_deliveries now2 locked r = true /\ exists k, qd_queue d1 !! k = Some r) as Hvis.
  { intros r Hr. rewrite <- Erows in Hr. eapply visible_in, elem_of_sublist; [exact Hr|apply sublist_take]. }
  pose proof (visible_nodup d1 now2 locked (Z.to_nat (sq_batch_size q)) Hd1) as Hnd. rewrite Erows in Hnd.
  assert (forall r, r ∈ rows -> exists k, qd_queue d !! k = Some r /\ k = mr_message_id r /\ qd_queue d1 !! k = Some r) as Hin.
  { intros r Hr. destruct (Hvis r Hr) as [Hv [k Hk]]. pose proof (rg_key _ _ _ (dg_rows d1 Hd1 k r Hk)) as Ek. exists k.
    split; [|by split]. rewrite E1 in Hk. cbn in Hk. apply lookup_fmap_Some in Hk as (r0 & E0 & Hk). rewrite <- E0 in Hv.
    apply not_exhausted in Hv. congruence. }
  apply lease_rows_ok in H as [L1 L2 L3 L4 L5 L6 L7]; [|by apply tick_good|done|].
  2: { intros r Hr. destruct (Hin r Hr) as (k & _ & -> & Hk). destruct (Hvis r Hr) as [Hv _]. split; [done|].
       unfold visible_row in Hv. rewrite !andb_true_iff, Z.ltb_lt in Hv. destruct Hv as [[[[Hv _] Hc] _] _].
       split; [by destruct (mr_dead_lettered_at r)|done]. }
  cbn [tick qd_queue qd_uuids qd_cursors qd_history qd_acknowledged] in *.
  split; try done.
  - rewrite <- (Forall2_length _ _ _ L2), <- Erows, length_take. lia.
  - by rewrite <- L4, E1.
  - by rewrite L5, E1.
  - by rewrite L6, E1.
  - by rewrite L7, E1.
  - intros m Hm. apply list_elem_of_lookup in Hm as [i Hi]. destruct (Forall2_lookup_r _ _ _ _ _ L2 Hi) as (r & Hr & Eb & now & Hl).
    apply list_elem_of_lookup_2 in Hr. destruct (Hin r Hr) as (k & Hk & -> & _). destruct (Hvis r Hr) as [Hv _].
    unfold visible_row in Hv. rewrite !andb_true_iff, Z.ltb_lt, negb_true_iff, bool_decide_eq_false in Hv. destruct Hv as [[[[Hv _] Hc] Hlo] Hlk].
    exists (mr_message_id r), r, now2, now. split_and!; try done. by destruct (mr_dead_lettered_at r).
  - intros k r Hk. destruct (decide (k ∈ mr_message_id <$> rows)) as [Hin'|Hnin].
    + left. apply list_elem_of_fmap in Hin' as (r1 & -> & Hr1). apply list_elem_of_lookup in Hr1 as [i Hi].
      destruct (Forall2_lookup_l _ _ _ _ _ L2 Hi) as (m & Hm & _ & now & Hl). exists m, now. split; [by eapply list_elem_of_lookup_2|].
      apply list_elem_of_lookup_2 in Hi. destruct (Hin r1 Hi) as (k & Hk1 & -> & _). congruence.
    + right. exists now1. rewrite L3 by done. rewrite E1. cbn. by rewrite lookup_fmap, Hk.
  - intros k Hk. destruct (decide (k ∈ mr_message_id <$> rows)) as [Hin'|Hnin].
    + apply list_elem_of_fmap in Hin' as (r1 & -> & Hr1). destruct (Hin r1 Hr1) as (k & Hk1 & -> & _). by exists r1.
    + rewrite L3 in Hk by done. rewrite E1 in Hk. cbn in Hk. by rewrite lookup_fmap, fmap_is_Some in Hk.
Qed.

(** ** Acknowledging *)

(** What one committed [delete] did: the one row that holds the receipt, within
    its lease, is gone. *)
Record deleted (h : string) (d : queue_db) (k : string) (d' : queue_db) : Prop := {
  dl_good : db_good d';
  dl_row : exists r until, qd_queue d !! k = Some r /\ mr_receipt_handle r = Some h /\ mr_dead_lettered_at r = None /\
    mr_lease_until r = Some until /\ clock (qd_reads d) < until;
  dl_gone : qd_queue d' !! k = None;
  dl_others k' : k' <> k -> qd_queue d' !! k' = qd_queue d !! k';
  dl_acknowledged k' : k' ∈ qd_acknowledged d' <-> k' ∈ qd_acknowledged d \/ k' = k;
  dl_history : qd_history d' = qd_history d;
  dl_cursors : qd_cursors d' = qd_cursors d;
  dl_uuids : qd_uuids d' = qd_uuids d;
}.

Lemma acknowledged_inv h now r : acknowledged h now r = true ->
  mr_receipt_handle r = Some h /\ mr_dead_lettered_at r = None /\ exists until, mr_lease_until r = Some until /\ now < until.
Proof.
  unfold acknowledged. rewrite !andb_true_iff, bool_decide_eq_true. intros [[H1 H2] H3].
  destruct (mr_dead_lettered_at r); [done|]. destruct (mr_lease_until r) as [t|]; [|done]. apply Z.ltb_lt in H3. split_and!; try done. by exists t.
Qed.

Lemma removed_good k d d' : db_good d -> qd_history d' = qd_history d -> qd_cursors d' = qd_cursors d -> qd_uuids d' = qd_uuids d ->
  qd_queue d' !! k = None -> (forall k', k' <> k -> qd_queue d' !! k' = qd_queue d !! k') ->
  (forall k', k' ∈ qd_acknowledged d' <-> k' ∈ qd_acknowledged d \/ k' = k) -> db_good d'.
Proof.
  intros [H1 H2 H3 H4 H5 H6 H7] Eh Ec Eu Hk Ho Ha.
  assert (forall k' r, qd_queue d' !! k' = Some r -> qd_queue d !! k' = Some r) as Hsub.
  { intros k' r Hr. destruct (decide (k' = k)) as [->|Hne]; [congruence|]. by rewrite <- Ho. }
  assert (forall k' h, holds_receipt d' k' h -> holds_receipt d k' h) as Hrec by (intros k' h (r & Hr & Hh); exists r; auto).
  split; rewrite ?Eh, ?Ec, ?Eu; try done.
  - intros k' r Hr. eapply row_good_history; [|apply H1, Hsub, Hr]. intros w. by rewrite Eh.
  - intros w Hw. destruct (H2 w Hw) as [(r & Hr & Hrw)|Hack]; [|right; rewrite Ha; by left].
    destruct (decide (message_id w = k)) as [E|Hne]; [right; rewrite Ha; by right|]. left. exists r. by rewrite Ho.
  - intros k1 k2 h G1 G2. eapply H3; by apply Hrec.
  - intros k' h G. by eapply H6, Hrec.
Qed.

Lemma delete_ok h d u d' : db_good d -> delete_body clock h d = (Ok u, d') -> exists k, deleted h d k d'.
Proof.
  intros Hd H. unfold delete_body in H. apply bindM_ok in H as (now & d1 & [-> ->]%clock_ok & H). unfold statement in H.
  set (now := clock (qd_reads d)) in *. cbv zeta in H. cbn [tick qd_queue] in H.
  set (gone := filter (fun p : string * message_row => acknowledged h now p.2 = true) (map_to_list (qd_queue d))) in *.
  destruct (bool_decide (gone.*1 = [])) eqn:E; [done|]. apply bool_decide_eq_false in E. injection H as _ Ed'.
  assert (forall k r, (k, r) ∈ gone <-> acknowledged h now r = true /\ qd_queue d !! k = Some r) as Hgone.
  { intros k r. unfold gone. rewrite list_elem_of_filter, elem_of_map_to_list. done. }
  assert (exists k r, (k, r) ∈ gone) as (k & r & Hin).
  { destruct gone as [|[k r] l]; [done|]. exists k, r. left. }
  pose proof Hin as Hin'. apply Hgone in Hin' as [Hack Hk]. destruct (acknowledged_inv _ _ _ Hack) as (Hh & Hdead & until & Hu & Hlt).
  assert (forall k' r', acknowledged h now r' = true -> qd_queue d !! k' = Some r' -> k' = k) as Hone.
  { intros k' r' Ha' Hk'. apply (dg_receipts d Hd k' k h); [|by exists r]. exists r'. split; [done|]. by apply acknowledged_inv in Ha' as [? _]. }
  assert (qd_queue d' !! k = None) as Hnone.
  { rewrite <- Ed'. cbn [qd_queue]. apply map_lookup_filter_None. right. intros x Hx Hf. cbn in Hf. congruence. }
  assert (forall k', k' <> k -> qd_queue d' !! k' = qd_queue d !! k') as Hothers.
  { intros k' Hne. rewrite <- Ed'. cbn [qd_queue]. destruct (qd_queue d !! k') as [r'|] eqn:Ek'.
    - apply map_lookup_filter_Some. split; [done|]. cbn. destruct (acknowledged h now r') eqn:Ea; [|done]. by destruct (Hne (Hone _ _ Ea Ek')).
    - apply map_lookup_filter_None. by left. }
  assert (forall k', k' ∈ qd_acknowledged d' <-> k' ∈ qd_acknowledged d \/ k' = k) as Hacked.
  { intros k'. rewrite <- Ed'. cbn [qd_acknowledged tick]. rewrite elem_of_app, list_elem_of_fmap. split; (intros [Hx|Hx]; [by left|right]).
    - destruct Hx as ([k1 r1] & -> & Hx). apply Hgone in Hx as [Ha1 Hk1]. by apply (Hone _ r1).
    - subst k'. by exists (k, r). }
  assert (qd_history d' = qd_history d /\ qd_cursors d' = qd_cursors d /\ qd_uuids d' = qd_uuids d) as (Eh & Ec & Eu) by by rewrite <- Ed'.
  exists k. split; try done; [by eapply removed_good|by exists r, until].
Qed.

(** ** Histories *)

(** The registry: prepared triggers with real zones. *)
Context (registry : prepared -> Prop) (registry_zones : forall p, registry p -> zone_ok p) (deliveries_positive : 1 <= max_deliveries).

(** A committed transaction of any producer or consumer. *)
Inductive queue_step (d : queue_db) : queue_db -> Prop :=
  | step_advance p horizon first_cursor max_scan_minutes max_occurrences n d' :
      registry p -> tick_ok horizon -> tick_ok first_cursor -> 1 <= max_scan_minutes ->
      advance_trigger clock p horizon first_cursor max_scan_minutes max_occurrences d = (Ok n, d') -> queue_step d d'
  | step_receive q locked ms d' :
      sq_max_deliveries q = max_deliveries -> receive_body clock q locked d = (Ok ms, d') -> queue_step d d'
  | step_delete h d' : delete_body clock h d = (Ok tt, d') -> queue_step d d'.

Lemma queue_step_good d d' : db_good d -> queue_step d d' -> db_good d'.
Proof.
  intros Hd [p h f mm mo n d1 Hp Hh Hf Hmm H|q l ms d1 Hq H|h d1 H].
  - destruct (advance_ok p h f mm mo d n d1 ltac:(lia) Hd (registry_zones p Hp) Hh Hf Hmm H) as (c & new & [A _ _ _ _] & _). apply (pd_good _ _ _ A).
  - apply (rv_good _ _ _ _ _ (receive_ok _ _ _ _ _ Hd Hq H)).
  - destruct (delete_ok _ _ _ _ Hd H) as [k D]. apply (dl_good _ _ _ _ D).
Qed.

Lemma queue_steps_good d d' : db_good d -> rtc queue_step d d' -> db_good d'.
Proof. intros Hd H. induction H as [|d1 d2 d3 H1 _ IH]; [done|]. apply IH. by eapply queue_step_good. Qed.

(** ** No occurrence is skipped *)

Lemma span_add a b c : utc_minute a -> utc_minute b -> utc_minute c -> instant a <= instant b -> instant b <= instant c ->
  span a c = (span a b + span b c)%nat.
Proof.
  intros Ha Hb Hc H1 H2. pose proof (span_exact a b Ha Hb H1) as E1. pose proof (span_exact b c Hb Hc H2) as E2.
  pose proof (span_exact a c Ha Hc ltac:(lia)) as E3. assert (0 < us_per_minute) by done. nia.
Qed.

(** Consecutive pages of a trigger: nothing is lost or repeated at the seam. *)
Lemma due_between_app p a b c : utc_minute a -> utc_minute b -> utc_minute c -> instant a <= instant b -> instant b <= instant c ->
  due_between p a c = due_between p a b ++ due_between p b c.
Proof.
  intros Ha Hb Hc H1 H2. unfold due_between. destruct (ts_enabled _); [|done].
  rewrite (span_add a b c) by done. rewrite occurrences_app, <- span_exact by done. done.
Qed.

Lemma due_between_same p a : due_between p a a = [].
Proof. unfold due_between, span. rewrite Z.sub_diag. by destruct (ts_enabled _). Qed.

Definition of_trigger (p : prepared) (ws : list ScheduleWakeup) : list ScheduleWakeup :=
  filter (fun w => sw_trigger_id w = trigger_key p) ws.

Lemma of_trigger_own p new l : sublist new (wakeup_of (pr_spec p) <$> l) -> of_trigger p new = new.
Proof.
  intros H. apply filter_forall_id. apply Forall_forall. intros w Hw. pose proof (elem_of_sublist _ _ _ Hw H) as Hin.
  by apply list_elem_of_fmap in Hin as (t & -> & _).
Qed.

Lemma of_trigger_other p p' new l : trigger_key p' <> trigger_key p -> sublist new (wakeup_of (pr_spec p') <$> l) -> of_trigger p new = [].
Proof.
  intros Hne H. apply filter_forall_nil. apply Forall_forall. intros w Hw. pose proof (elem_of_sublist _ _ _ Hw H) as Hin.
  by apply list_elem_of_fmap in Hin as (t & -> & _).
Qed.

(** From the cursor [a] and the history [h0] on, the trigger has been served by
    one definition. *)
Record tenure (p : prepared) (a : datetime) (h0 : list ScheduleWakeup) (d : queue_db) (c : datetime) : Prop := {
  tn_row : exists now, qd_cursors d !! trigger_key p = Some (CursorRow (trigger_key p) (pr_sha256 p) c now);
  tn_minute : utc_minute c;
  tn_order : instant a <= instant c;
  tn_complete t : t ∈ due_between p a c -> wakeup_of (pr_spec p) t ∈ qd_history d;
  tn_once : exists new, qd_history d = h0 ++ new /\ sublist (of_trigger p new) (wakeup_of (pr_spec p) <$> due_between p a c);
}.

Lemma tenure_begins p horizon first_cursor mm mo d d' c new :
  db_good d -> tick_ok horizon -> tick_ok first_cursor -> 1 <= mm -> advanced p horizon first_cursor mm mo d d' c new ->
  tenure p (if cut_over p d then horizon else start_of p first_cursor d) (qd_history d) d' c.
Proof.
  intros Hd Hh Hf Hmm [[Hg Hhist _ _ _ _] [now Hcur] Hm Hcut Hpage].
  assert (exists now, qd_cursors d' !! trigger_key p = Some (CursorRow (trigger_key p) (pr_sha256 p) c now)) as Hrow.
  { exists now. by rewrite Hcur, lookup_insert_eq. }
  destruct (cut_over p d) eqn:Ec.
  - destruct (Hcut eq_refl) as [-> ->]. split; try done.
    + intros t Ht. rewrite due_between_same in Ht. by apply elem_of_nil in Ht.
    + exists []. split; [done|]. apply sublist_nil_l.
  - destruct (Hpage eq_refl) as (Hc & Hle & Hsub & Hall). split; try done.
    + exists new. split; [done|]. by rewrite (of_trigger_own p new _ Hsub).
Qed.

(** Nothing but an advance of the trigger itself touches its cursor and history. *)
Lemma tenure_kept p a h0 d d' c new :
  tenure p a h0 d c -> qd_cursors d' !! trigger_key p = qd_cursors d !! trigger_key p ->
  qd_history d' = qd_history d ++ new -> of_trigger p new = [] -> tenure p a h0 d' c.
Proof.
  intros [[now Hrow] Hm Ho Hall (new0 & Hh & Hsub)] Ec Eh En. split; try done.
  - exists now. by rewrite Ec.
  - intros t Ht. rewrite Eh. apply elem_of_app. left. by apply Hall.
  - exists (new0 ++ new). split; [by rewrite Eh, Hh, app_assoc|]. unfold of_trigger in *. by rewrite filter_app, En, app_nil_r.
Qed.

Lemma tenure_advanced p a h0 horizon first_cursor mm mo d d' c c' new :
  utc_minute a -> tenure p a h0 d c -> advanced p horizon first_cursor mm mo d d' c' new -> tenure p a h0 d' c'.
Proof.
  intros Ha [[now Hrow] Hm Ho Hall (new0 & Hh & Hsub0)] [[Hg Hhist _ _ _ _] [now' Hcur] Hm' _ Hpage].
  assert (cut_over p d = false) as Ec by (unfold cut_over; rewrite Hrow; cbn; by rewrite bool_decide_eq_true_2).
  assert (start_of p first_cursor d = c) as Es by (unfold start_of; by rewrite Hrow).
  destruct (Hpage Ec) as (_ & Hle & Hsub & Hnew). rewrite Es in *.
  pose proof (due_between_app p a c c' Ha Hm Hm' Ho Hle) as Happ. split.
  - exists now'. by rewrite Hcur, lookup_insert_eq.
  - done.
  - lia.
  - intros t Ht. rewrite Happ in Ht. apply elem_of_app in Ht as [Ht|Ht]; [|by apply Hnew].
    rewrite Hhist. apply elem_of_app. left. by apply Hall.
  - exists (new0 ++ new). split; [by rewrite Hhist, Hh, app_assoc|]. unfold of_trigger in *. rewrite filter_app, Happ, fmap_app.
    apply sublist_app; [done|]. fold (of_trigger p new). by rewrite (of_trigger_own p new _ Hsub).
Qed.

Lemma tenure_step p a h0 d d' c :
  (forall p', registry p' -> trigger_key p' = trigger_key p -> p' = p) -> db_good d -> utc_minute a ->
  tenure p a h0 d c -> queue_step d d' -> exists c', tenure p a h0 d' c'.
Proof.
  intros Huniq Hd Ha Ht [p' h f mm mo n d1 Hp Hh Hf Hmm H|q l ms d1 Hq H|h d1 H].
  - destruct (advance_ok p' h f mm mo d n d1 ltac:(lia) Hd (registry_zones p' Hp) Hh Hf Hmm H) as (c' & new & A & _).
    destruct (decide (trigger_key p' = trigger_key p)) as [E|Hne].
    + rewrite (Huniq p' Hp E) in A. exists c'. by eapply tenure_advanced.
    + exists c. destruct A as [P [now Hcur] _ Hcut Hpage]. eapply tenure_kept; [exact Ht| |apply (pd_history _ _ _ P)|].
      * by rewrite Hcur, lookup_insert_ne.
      * destruct (cut_over p' d) eqn:Ec; [by destruct (Hcut eq_refl) as [_ ->]|].
        destruct (Hpage eq_refl) as (_ & _ & Hsub & _). by eapply of_trigger_other.
  - pose proof (receive_ok _ _ _ _ _ Hd Hq H) as R. exists c. eapply (tenure_kept _ _ _ _ _ _ []); [exact Ht| | |done].
    + by rewrite (rv_cursors _ _ _ _ _ R).
    + by rewrite (rv_history _ _ _ _ _ R), app_nil_r.
  - destruct (delete_ok _ _ _ _ Hd H) as [k D]. exists c. eapply (tenure_kept _ _ _ _ _ _ []); [exact Ht| | |done].
    + by rewrite (dl_cursors _ _ _ _ D).
    + by rewrite (dl_history _ _ _ _ D), app_nil_r.
Qed.

Lemma tenure_steps p a h0 d d' c :
  (forall p', registry p' -> trigger_key p' = trigger_key p -> p' = p) -> db_good d -> utc_minute a ->
  tenure p a h0 d c -> rtc queue_step d d' -> exists c', tenure p a h0 d' c'.
Proof.
  intros Huniq Hd Ha Ht H. revert c Ht. induction H as [|d1 d2 d3 H1 _ IH]; intros c Ht; [by exists c|].
  destruct (tenure_step p a h0 d1 d2 c Huniq Hd Ha Ht H1) as [c1 Ht1]. eapply IH; [by eapply queue_step_good|exact Ht1].
Qed.

(** The row of a wakeup still waits for a delivery, or its deliveries are spent. *)
Definition pending_or_spent (d : queue_db) (w : ScheduleWakeup) : Prop :=
  exists r, qd_queue d !! message_id w = Some r /\ row_for w r /\
            (mr_dead_lettered_at r = None \/ mr_delivery_count r = max_deliveries).

Lemma accounted_split d w : db_good d -> accounted d w -> pending_or_spent d w \/ message_id w ∈ qd_acknowledged d.
Proof.
  intros Hd [(r & Hr & Hrw)|Ha]; [left|by right]. exists r. split; [done|split; [done|]].
  destruct (mr_dead_lettered_at r) eqn:E; [right|by left]. apply (rg_dead _ _ _ (dg_rows d Hd _ _ Hr)). by rewrite E.
Qed.

(** No wakeup of the trigger was inserted twice, and none lies after its cursor. *)
Definition in_order (p : prepared) (d : queue_db) : Prop :=
  NoDup (of_trigger p (qd_history d)) /\
  forall w, w ∈ of_trigger p (qd_history d) ->
    exists row, qd_cursors d !! trigger_key p = Some row /\ instant (sw_scheduled_occurrence w) <= instant (cw_cursor_utc row).

(** The wakeups of an interval differ and lie inside it. *)
Lemma due_wakeups p a c : utc_minute a -> utc_minute c -> instant a <= instant c ->
  NoDup (wakeup_of (pr_spec p) <$> due_between p a c) /\
  forall t, t ∈ due_between p a c -> instant a < instant t <= instant c.
Proof.
  intros Ha Hc Hle. assert (0 < us_per_minute) as Hus by done. pose proof (span_exact a c Ha Hc Hle) as Hs. unfold due_between. split.
  - apply NoDup_fmap_2; [intros x y [= E]; exact E|]. destruct (ts_enabled _); [|constructor].
    unfold occurrences, minutes_after. apply NoDup_filter, NoDup_fmap_2; [|apply NoDup_seq].
    intros i j E%(f_equal instant). rewrite !instant_utc in E. nia.
  - destruct (ts_enabled _); intros t Ht; [|by apply elem_of_nil in Ht].
    apply elem_of_occurrences in Ht as (_ & i & Hi & ->). rewrite instant_utc. nia.
Qed.

Lemma tenure_in_order p a d0 d c : utc_minute a -> tenure p a (qd_history d0) d c -> in_order p d0 ->
  (forall row, qd_cursors d0 !! trigger_key p = Some row -> instant (cw_cursor_utc row) <= instant a) -> in_order p d.
Proof.
  intros Ha [[now Hrow] Hm Ho _ (new & Hh & Hsub)] [Hn Hle] Hfrom. destruct (due_wakeups p a c Ha Hm Ho) as [Hdn Hdi].
  assert (forall w, w ∈ of_trigger p new -> instant a < instant (sw_scheduled_occurrence w) <= instant c) as Hnew.
  { intros w Hw. pose proof (elem_of_sublist _ _ _ Hw Hsub) as Hin. apply list_elem_of_fmap in Hin as (t & -> & Ht). by apply Hdi. }
  assert (forall w, w ∈ of_trigger p (qd_history d0) -> instant (sw_scheduled_occurrence w) <= instant a) as Hold.
  { intros w Hw. destruct (Hle w Hw) as (row & Hr & Hi). specialize (Hfrom row Hr). lia. }
  unfold in_order. rewrite Hh. unfold of_trigger in *. rewrite filter_app. split.
  - apply NoDup_app. split_and!; [done| |by eapply sublist_NoDup].
    intros w Hw Hw'. specialize (Hold w Hw). specialize (Hnew w Hw'). lia.
  - intros w Hw. eexists. split; [exact Hrow|]. cbn [cw_cursor_utc]. apply elem_of_app in Hw as [Hw|Hw].
    + specialize (Hold w Hw). lia.
    + specialize (Hnew w Hw). lia.
Qed.

(** C35: no occurrence of a schedule is skipped, and none is produced twice. Once a
    trigger's definition has been taken up at the cursor [a] (the initial cursor,
    the stored cursor, or the horizon when it replaces another definition), then
    after any committed transactions of any number of producers, consumers and
    other triggers the stored cursor [c] is at or after [a], and every occurrence
    of the schedule in ([a], [c]] has been enqueued: its message still waits for
    delivery, has been delivered the maximal number of times, or was
    acknowledged. The wakeups inserted for the trigger since then are a
    subsequence of those occurrences, so each was inserted at most once since.
    And unless a replacement moved the cursor backward - the horizon of the tick
    that replaces the definition lies before the stored cursor, which the code
    does not refuse -, what was in order stays in order: no wakeup of the trigger
    is inserted twice at all, and none lies after the cursor. *)
Theorem no_occurrence_skipped p d0 horizon first_cursor max_scan_minutes max_occurrences n d1 d2
    (Hd0 : db_good d0) (Hp : registry p) (Huniq : forall p', registry p' -> trigger_key p' = trigger_key p -> p' = p)
    (Hh : tick_ok horizon) (Hf : tick_ok first_cursor) (Hmm : 1 <= max_scan_minutes)
    (Hbegin : advance_trigger clock p horizon first_cursor max_scan_minutes max_occurrences d0 = (Ok n, d1))
    (Hsteps : rtc queue_step d1 d2) :
  let a := if cut_over p d0 then horizon else start_of p first_cursor d0 in
  (exists c now new,
    qd_cursors d2 !! trigger_key p = Some (CursorRow (trigger_key p) (pr_sha256 p) c now) /\ instant a <= instant c /\
    (forall t, t ∈ due_between p a c ->
       pending_or_spent d2 (wakeup_of (pr_spec p) t) \/ message_id (wakeup_of (pr_spec p) t) ∈ qd_acknowledged d2) /\
    qd_history d2 = qd_history d0 ++ new /\ sublist (of_trigger p new) (wakeup_of (pr_spec p) <$> due_between p a c)) /\
  (in_order p d0 -> (cut_over p d0 = true -> instant (start_of p first_cursor d0) <= instant horizon) -> in_order p d2).
Proof.
  intros a. destruct (advance_ok _ _ _ _ _ _ _ _ ltac:(lia) Hd0 (registry_zones p Hp) Hh Hf Hmm Hbegin) as (c & new & A & _).
  assert (db_good d1) as Hd1 by apply (pd_good _ _ _ (ad_produces _ _ _ _ _ _ _ _ _ A)).
  pose proof (tenure_begins _ _ _ _ _ _ _ _ _ Hd0 Hh Hf Hmm A) as Ht. fold a in Ht.
  assert (utc_minute a) as Ha.
  { unfold a, start_of. destruct (cut_over p d0); [apply Hh|]. destruct (qd_cursors d0 !! trigger_key p) eqn:E; [|apply Hf]. apply (dg_cursors d0 Hd0 _ _ E). }
  destruct (tenure_steps _ _ _ _ _ _ Huniq Hd1 Ha Ht Hsteps) as (c2 & Ht2). split.
  - destruct Ht2 as [[now Hrow] Hm Ho Hall (new2 & Hh2 & Hsub)]. exists c2, now, new2. split_and!; try done. intros t Hin.
    pose proof (queue_steps_good _ _ Hd1 Hsteps) as Hd2. apply accounted_split; [done|]. by apply (dg_history d2 Hd2), Hall.
  - intros Hord Hforward. apply (tenure_in_order _ _ _ _ _ Ha Ht2 Hord). intros row Hrow. subst a. unfold start_of in *.
    rewrite Hrow in *. destruct (cut_over p d0); [by apply Hforward|done].
Qed.

(** ** A stale cursor catches up *)

(** Among [ws] only [w] itself has the message id of [w]. *)
Definition identified (ws : list ScheduleWakeup) (w : ScheduleWakeup) : Prop :=
  forall w', w' ∈ ws -> message_id w' = message_id w -> w' = w.

Record prepared_ok (p : prepared) : Prop := {
  po_zone : zone_ok p;
  po_sha256 : is_sha256 (pr_sha256 p) = true;
  po_spec : TriggerSpec_post_init (pr_spec p) = Ok tt;
}.

Lemma trigger_spec_fields t : TriggerSpec_post_init t = Ok tt -> portable_id (ts_trigger_id t) = true /\ is_sha256 (ts_plan_revision t) = true.
Proof.
  unfold TriggerSpec_post_init, require_portable, Orchestration.require_sha256, contract_reject.
  rewrite !seq_ok, !reject_if_tt, !negb_false_iff. by intros (H1 & _ & H2 & _).
Qed.

Lemma occurrence_wakeup spec t : TriggerSpec_post_init spec = Ok tt -> utc_minute t -> in_range t -> wakeup_value (wakeup_of spec t).
Proof.
  intros [H1 H2]%trigger_spec_fields [E _] Hr. split; [|done].
  unfold ScheduleWakeup_post_init, require_portable, Orchestration.require_sha256, require_utc, contract_reject. cbn [wakeup_of sw_trigger_id sw_plan_revision sw_scheduled_occurrence].
  rewrite H1, H2. assert (is_utc t = true) as -> by by apply is_utc_spec. done.
Qed.

Lemma insert_progress w d : db_good d -> wakeup_value w -> identified (qd_history d) w ->
  exists b d', insert_message clock w (message_id w) (serialize_schedule_wakeup w) d = (Ok b, d').
Proof.
  intros Hd Hw Hid. unfold insert_message, mbind, M_bind, clock_timestamp. cbn [qd_queue].
  set (now := clock (qd_reads d)). fold (message_of w now). rewrite (message_of_check w now Hw).
  cbn [negb driver_reject lift]. unfold statement, lift. cbn [driver_reject qd_queue].
  destruct (existsb _ _) eqn:E; [by eexists _, _|]. destruct (qd_queue d !! message_id w) as [r|] eqn:Er; [|by eexists _, _].
  exfalso. destruct (rg_wakeup _ _ _ (dg_rows d Hd _ _ Er)) as (w' & Hw' & Hr & Hin).
  assert (w' = w) as ->.
  { apply Hid; [done|]. rewrite <- (rf_id w' r Hr). symmetry. apply (rg_key _ _ _ (dg_rows d Hd _ _ Er)). }
  rewrite existsb_false, Forall_forall in E. specialize (E (message_id w, r)). rewrite elem_of_map_to_list in E. specialize (E Er).
  unfold same_occurrence in E. cbn in E. rewrite (rf_trigger w r Hr), (rf_plan w r Hr), (rf_occurrence w r Hr) in E.
  by rewrite !bool_decide_eq_true_2, Z.eqb_refl in E.
Qed.

Lemma enqueue_progress spec l ws : forall d, db_good d -> 0 <= max_deliveries -> TriggerSpec_post_init spec = Ok tt ->
  (forall t, t ∈ l -> utc_minute t /\ in_range t /\ wakeup_of spec t ∈ ws /\ identified ws (wakeup_of spec t)) ->
  (forall w, w ∈ qd_history d -> w ∈ ws) ->
  exists n d', enqueue_occurrences clock spec l d = (Ok n, d').
Proof.
  induction l as [|t l IH]; intros d Hd Hmax Hs Hl Hws; [by eexists _, _|].
  destruct (Hl t (list_elem_of_here _ _)) as (Htm & Htr & Htw & Hid). pose proof (occurrence_wakeup spec t Hs Htm Htr) as Hw.
  destruct (insert_progress _ d Hd Hw) as (b & d1 & Hi); [intros w' Hw'; by apply Hid, Hws|].
  assert (db_good d1 /\ forall w, w ∈ qd_history d1 -> w ∈ ws) as [Hd1 Hws1].
  { destruct (insert_message_ok _ _ _ _ Hw Hi) as [(_ & -> & Hn)|(_ & -> & _)]; [|split; [by apply tick_good|done]].
    split; [by apply inserted_good|]. intros w [Hw'|Hw'%list_elem_of_singleton]%elem_of_app; [by apply Hws|by subst]. }
  destruct (IH d1 Hd1 Hmax Hs (fun x Hx => Hl x (list_elem_of_further _ _ _ Hx)) Hws1) as (n & d' & Hn).
  exists (Z.b2z b + n), d'. cbn [enqueue_occurrences]. unfold new_schedule_wakeup. fold (wakeup_of spec t).
  unfold mbind at 1, M_bind, lift. rewrite (wv_post _ Hw). cbn [mbind result_bind]. unfold mbind, M_bind, message_id in *. by rewrite Hi, Hn.
Qed.

Lemma update_cursor_progress p c d : prepared_ok p ->
  exists d', update_cursor clock (trigger_key p) (pr_sha256 p) c d = (Ok tt, d').
Proof.
  intros [_ Hs Hp]. destruct (trigger_spec_fields _ Hp) as [Ht%portable_id_length _].
  unfold update_cursor, mbind, M_bind, clock_timestamp. cbn [qd_cursors].
  assert (cursor_row_check (CursorRow (trigger_key p) (pr_sha256 p) c (clock (qd_reads d))) = true) as ->.
  { unfold cursor_row_check. cbn [cw_spec_sha256 cw_trigger_id]. rewrite Hs. cbn [andb]. apply Z.leb_le. unfold py_len, trigger_key. lia. }
  cbn [negb driver_reject lift]. unfold statement, lift. cbn [qd_cursors]. destruct (qd_cursors d !! trigger_key p); by eexists.
Qed.

Lemma add_minutes_fits t n : utc_minute t -> convertible (instant t + n * us_per_minute) ->
  add_minutes t n = Ok (utc (instant t + n * us_per_minute)).
Proof.
  intros [E _] H. unfold add_minutes. rewrite E at 1 2. cbn [utc dt_local dt_offset]. apply checked_in_range.
  by apply (convertible_in_range (instant t + n * us_per_minute)).
Qed.

Lemma occurrences_length f zone a n : (length (occurrences f zone a n) <= n)%nat.
Proof. unfold occurrences, minutes_after. etrans; [apply length_filter|]. by rewrite length_fmap, length_seq. Qed.

(** The scan bounds of the scheduler. *)
Record scan_bounds (max_scan_minutes max_occurrences : Z) : Prop := {
  sb_minutes : 1 <= max_scan_minutes <= 525600;
  sb_occurrences : 1 <= max_occurrences <= 10000;
}.

Lemma page_bounds p mm mo : scan_bounds mm mo ->
  1 <= page_of p mm mo <= mm /\ (ts_enabled (pr_spec p) = true -> page_of p mm mo <= mo).
Proof. intros [H1 H2]. unfold page_of. destruct (ts_enabled _); cbn [negb]; [lia|]. split; [lia|done]. Qed.

(** The scan of one page is within its bounds. *)
Lemma page_scan p c mm mo e : zone_ok p -> scan_bounds mm mo -> utc_minute c -> utc_minute e ->
  convertible (instant c) -> convertible (instant e + us_per_minute) -> instant c <= instant e ->
  instant e <= instant c + page_of p mm mo * us_per_minute ->
  (if ts_enabled (pr_spec p) then iter_schedule_occurrences (pr_expression p) (pr_zone p) c e mm mo else Ok []) = Ok (due_between p c e).
Proof.
  intros Hz Hb Hc He Hcc Hce Hle Hpage. pose proof (page_bounds p mm mo Hb) as [Hp1 Hp2]. unfold due_between.
  destruct (ts_enabled (pr_spec p)) eqn:En; [|done]. specialize (Hp2 eq_refl).
  assert (Z.of_nat (span c e) <= page_of p mm mo) as Hspan.
  { pose proof (span_exact c e Hc He Hle) as Hs. assert (0 < us_per_minute) by done. nia. }
  rewrite iter_accepted; [|exact Hz|done|done|].
  - cbv zeta. rewrite (proj2 (Z.ltb_ge _ _)); [done|]. pose proof (occurrences_length (pr_expression p) (pr_zone p) (instant c) (span c e)). lia.
  - destruct Hb as [B1 B2]. split; try done. rewrite (span_exact c e Hc He Hle).
    replace (instant c + Z.of_nat (span c e) * us_per_minute - instant c) with (Z.of_nat (span c e) * us_per_minute) by ring.
    rewrite Z.div_mul by done. lia.
Qed.

(** The wakeups at hand while a trigger catches up: those inserted so far and
    those due until the horizon; no two of them share a SHA-256. *)
Definition distinct_until (p : prepared) (c horizon : datetime) (d : queue_db) : Prop :=
  forall t, t ∈ due_between p c horizon ->
    identified (qd_history d ++ (wakeup_of (pr_spec p) <$> due_between p c horizon)) (wakeup_of (pr_spec p) t).

Lemma distinct_later p c c' horizon d d' new : utc_minute c -> utc_minute c' -> utc_minute horizon ->
  instant c <= instant c' -> instant c' <= instant horizon -> qd_history d' = qd_history d ++ new ->
  sublist new (wakeup_of (pr_spec p) <$> due_between p c c') -> distinct_until p c horizon d -> distinct_until p c' horizon d'.
Proof.
  intros Hc Hc' Hh H1 H2 E Hsub H t Ht w Hw. unfold distinct_until in H. rewrite (due_between_app p c c' horizon) in H by done.
  apply (H t); [apply elem_of_app; by right|]. rewrite fmap_app, !elem_of_app. rewrite E, !elem_of_app in Hw.
  destruct Hw as [[Hw|Hw]|Hw]; [by left|right; left|by do 2 right]. by eapply elem_of_sublist.
Qed.

Lemma advance_progress p c now horizon first_cursor mm mo d :
  db_good d -> prepared_ok p -> scan_bounds mm mo -> tick_ok horizon -> convertible (instant horizon + 525600 * us_per_minute) ->
  qd_cursors d !! trigger_key p = Some (CursorRow (trigger_key p) (pr_sha256 p) c now) -> instant c <= instant horizon ->
  distinct_until p c horizon d -> exists n d', advance_trigger clock p horizon first_cursor mm mo d = (Ok n, d').
Proof.
  intros Hd Hp Hb (Hhm & Hhc & Hhe) Hroom Hrow Hle Hdist. destruct (dg_cursors d Hd _ _ Hrow) as [Hcm Hcc]. cbn [cw_cursor_utc] in *.
  pose proof (page_bounds p mm mo Hb) as [[Hp1 Hp2] _]. pose proof (sb_minutes _ _ Hb) as Hmm.
  assert (0 < us_per_minute) as Hus by done.
  assert (convertible (instant c + page_of p mm mo * us_per_minute)) as Hpc by (eapply convertible_between; [exact Hcc|exact Hroom|nia]).
  set (page_end := utc (instant c + page_of p mm mo * us_per_minute)).
  assert (utc_minute page_end) as Hpm by (apply utc_minute_utc; destruct Hcm as [_ E]; by rewrite Z.add_mod, E, Z.mod_mul).
  set (e := dt_min horizon page_end).
  assert (utc_minute e /\ instant e = Z.min (instant horizon) (instant c + page_of p mm mo * us_per_minute)) as [Hem Ee].
  { unfold e, dt_min, dt_ltb. destruct (Z.ltb_spec (instant page_end) (instant horizon)); (split; [done|]); unfold page_end in *; rewrite instant_utc in *; lia. }
  assert (instant c <= instant e) as Hce by nia.
  assert ((if ts_enabled (pr_spec p) then iter_schedule_occurrences (pr_expression p) (pr_zone p) c e mm mo else Ok []) = Ok (due_between p c e)) as Hscan.
  { apply page_scan; try done; [apply (po_zone p Hp)| |lia]. eapply convertible_between; [exact Hcc|exact Hhe|lia]. }
  destruct (enqueue_progress (pr_spec p) (due_between p c e) (qd_history d ++ (wakeup_of (pr_spec p) <$> due_between p c horizon)) d
              Hd ltac:(lia) (po_spec p Hp)) as (n & d1 & Hn).
  { intros t Ht. assert (t ∈ due_between p c horizon) as Ht' by (rewrite (due_between_app p c e horizon) by (done || lia); apply elem_of_app; by left).
    assert (utc_minute t /\ in_range t) as [Htm Htr].
    { unfold due_between in Ht. destruct (ts_enabled (pr_spec p)); [|by apply elem_of_nil in Ht]. split.
      - apply elem_of_occurrences in Ht as (_ & i & _ & ->). apply utc_minute_utc. destruct Hcm as [_ E]. by rewrite Z.add_mod, E, Z.mod_mul.
      - eapply occurrences_in_range; [exact Hcc| |exact Ht]. rewrite <- span_exact by done. eapply convertible_between; [exact Hcc|exact Hhc|lia]. }
    split_and!; [done|done|apply elem_of_app; right; by apply list_elem_of_fmap_2|by apply Hdist]. }
  { intros w Hw. apply elem_of_app. by left. }
  destruct (update_cursor_progress p e d1 Hp) as [d2 Hu]. exists n, d2.
  unfold advance_trigger, select_cursor, mbind, M_bind. fold (trigger_key p). rewrite Hrow. unfold lift. cbn [cw_cursor_utc cw_spec_sha256].
  rewrite floor_minute, bool_decide_eq_true_2 by done. cbn [negb]. unfold advance_page, queue_reject, dt_ltb, mbind, M_bind, lift.
  rewrite (proj2 (Z.ltb_ge _ _) Hle). cbn [reject_if]. fold (page_of p mm mo). rewrite add_minutes_fits by done. fold page_end. fold e.
  rewrite Hscan, Hn. fold (trigger_key p). by rewrite Hu.
Qed.

(** [k] ticks of the scheduler with the same horizon. *)
Fixpoint ticks (k : nat) (p : prepared) (horizon first_cursor : datetime) (mm mo : Z) : M queue_db unit :=
  match k with
  | O => mret tt
  | S k => _ ← advance_trigger clock p horizon first_cursor mm mo; ticks k p horizon first_cursor mm mo
  end.

(** C36: a stale cursor catches up. From any reachable state in which the stored
    cursor of a trigger is [c], every tick succeeds and moves the cursor by one
    page - the smaller of the scan and occurrence bounds - until it is at the
    horizon, so an every-minute schedule cannot overflow the bounds and roll back
    the same page for ever: after as many ticks as there are pages between [c]
    and the horizon the cursor is the horizon. It is assumed that SHA-256 tells
    the wakeups due by then from each other and from those inserted before, since
    the digest is the primary key of a message. *)
Theorem catch_up k p c now horizon first_cursor max_scan_minutes max_occurrences d
    (Hd : db_good d) (Hp : prepared_ok p) (Hb : scan_bounds max_scan_minutes max_occurrences)
    (Hh : tick_ok horizon) (Hroom : convertible (instant horizon + 525600 * us_per_minute)) (Hf : tick_ok first_cursor)
    (Hrow : qd_cursors d !! trigger_key p = Some (CursorRow (trigger_key p) (pr_sha256 p) c now))
    (Hle : instant c <= instant horizon)
    (Hdist : forall t w, t ∈ due_between p c horizon ->
       w ∈ qd_history d ++ (wakeup_of (pr_spec p) <$> due_between p c horizon) ->
       message_id w = message_id (wakeup_of (pr_spec p) t) -> w = wakeup_of (pr_spec p) t)
    (Hk : instant horizon - instant c <= Z.of_nat k * (page_of p max_scan_minutes max_occurrences * us_per_minute)) :
  exists d' now', ticks k p horizon first_cursor max_scan_minutes max_occurrences d = (Ok tt, d') /\
    qd_cursors d' !! trigger_key p = Some (CursorRow (trigger_key p) (pr_sha256 p) horizon now').
Proof.
  assert (distinct_until p c horizon d) as Hdist' by (intros t Ht w; by apply Hdist). clear Hdist.
  revert d c now Hd Hrow Hle Hdist' Hk. induction k as [|k IH]; intros d c now Hd Hrow Hle Hdist Hk.
  - exists d, now. split; [done|]. destruct (dg_cursors d Hd _ _ Hrow) as [Hcm _]. cbn [cw_cursor_utc] in Hcm.
    rewrite Hrow. do 2 f_equal. apply utc_minute_eq; [done|apply Hh|lia].
  - destruct (advance_progress p c now horizon first_cursor _ _ d Hd Hp Hb Hh Hroom Hrow Hle Hdist) as (n & d1 & Hadv).
    pose proof (sb_minutes _ _ Hb) as Hmm.
    destruct (advance_ok _ _ _ _ _ _ _ _ ltac:(lia) Hd (po_zone p Hp) Hh Hf (proj1 Hmm) Hadv) as (c1 & new & [P [now1 Hcur] Hm1 _ Hpage] & _).
    assert (cut_over p d = false) as Ec by (unfold cut_over; rewrite Hrow; cbn; by rewrite bool_decide_eq_true_2).
    assert (start_of p first_cursor d = c) as Es by (unfold start_of; by rewrite Hrow).
    destruct (Hpage Ec) as (Hc1 & Hle1 & Hsub & _). rewrite Es in *.
    pose proof (page_bounds p _ _ Hb) as [[Hpos _] _]. assert (0 < us_per_minute) as Hus by done.
    set (page := page_of p _ _ * us_per_minute) in *. assert (0 <= page) as Hpage0 by nia. clearbody page.
    destruct (dg_cursors d Hd _ _ Hrow) as [Hcm _]. cbn [cw_cursor_utc] in Hcm.
    destruct (IH d1 c1 now1 (pd_good _ _ _ P)) as (d' & now' & Ht & Hr); [by rewrite Hcur, lookup_insert_eq|lia| |nia|].
    { apply (distinct_later p c c1 horizon d d1 new Hcm Hm1 (proj1 Hh) Hle1); [lia|apply (pd_history _ _ _ P)|exact Hsub|exact Hdist]. }
    exists d', now'. split; [|done]. cbn [ticks]. unfold mbind, M_bind. by rewrite Hadv.
Qed.

(** ** One holder at a time *)

(** The receipt [h] will not be issued again, and only rows of [P] can hold it. *)
Definition confined (h : string) (P : string -> Prop) (d : queue_db) : Prop :=
  (h ∉ qd_uuids d) /\ forall k, holds_receipt d k h -> P k.

Lemma confined_step h P d d' : db_good d -> queue_step d d' -> confined h P d -> confined h P d'.
Proof.
  intros Hd Hs [Hu Hk]. destruct Hs as [p hz f mm mo n d1 Hp Hh Hf Hmm H|q l ms d1 Hq H|h' d1 H].
  - destruct (advance_ok p hz f mm mo d n d1 ltac:(lia) Hd (registry_zones p Hp) Hh Hf Hmm H) as (c & new & [A _ _ _ _] & _).
    split; [by rewrite (pd_uuids _ _ _ A)|]. intros k (r & Hr & Hrh).
    destruct (pd_new _ _ _ A k r Hr) as [Hr'|Hn]; [apply Hk; by exists r|congruence].
  - pose proof (receive_ok _ _ _ _ _ Hd Hq H) as R. pose proof (rv_receipts _ _ _ _ _ R) as Er. rewrite Er, not_elem_of_app in Hu. destruct Hu as [Hu1 Hu2].
    split; [done|]. intros k (r & Hr & Hrh). destruct (rv_keys _ _ _ _ _ R k (ex_intro _ r Hr)) as [r0 Hr0].
    destruct (rv_rows _ _ _ _ _ R k r0 Hr0) as [(m & now & Hm & E)|[now E]]; rewrite E in Hr; injection Hr as <-.
    + exfalso. apply Hu1. cbn in Hrh. injection Hrh as <-. by apply list_elem_of_fmap_2.
    + apply Hk. exists r0. split; [done|]. revert Hrh. unfold after_exhausted. by destruct (exhausted _ _ _).
  - destruct (delete_ok _ _ _ _ Hd H) as [k0 D]. split; [by rewrite (dl_uuids _ _ _ _ D)|].
    intros k (r & Hr & Hrh). apply Hk. exists r. split; [|done]. rewrite <- (dl_others _ _ _ _ D); [done|].
    intros ->. by rewrite (dl_gone _ _ _ _ D) in Hr.
Qed.

Lemma confined_steps h P d d' : db_good d -> rtc queue_step d d' -> confined h P d -> confined h P d'.
Proof.
  intros Hd H. induction H as [|d1 d2 d3 H1 _ IH]; [done|]. intros Hc. apply IH; [by eapply queue_step_good|by eapply confined_step].
Qed.

(** A receipt that no row holds acknowledges nothing, ever again. *)
Definition spent (h : string) (d : queue_db) : Prop :=
  forall d' d'' u, rtc queue_step d d' -> delete_body clock h d' <> (Ok u, d'').

Lemma confined_spent h d : db_good d -> confined h (fun _ => False) d -> spent h d.
Proof.
  intros Hd Hc d' d'' u Hs H. pose proof (queue_steps_good _ _ Hd Hs) as Hd'. destruct (delete_ok _ _ _ _ Hd' H) as [k D].
  destruct (dl_row _ _ _ _ D) as (r & until & Hr & Hh & _). destruct (confined_steps _ _ _ _ Hd Hs Hc) as [_ Hn]. apply (Hn k). by exists r.
Qed.

Lemma row_wakeup d k r : db_good d -> qd_queue d !! k = Some r ->
  exists w, wakeup_value w /\ mr_body r = serialize_schedule_wakeup w /\ k = message_id w.
Proof.
  intros Hd Hk. destruct (dg_rows d Hd k r Hk) as [(w & Hw & Hr & _) E _ _ _]. exists w.
  split_and!; [done|apply (rf_body w r Hr)|]. rewrite E. apply (rf_id w r Hr).
Qed.

(** After a delivery: the new receipt belongs to that row only, an older receipt
    of the row to none. *)
Lemma delivery_confines q locked d ms d1 m k r now : db_good d -> received q locked d ms d1 -> m ∈ ms ->
  qd_queue d !! k = Some r -> qd_queue d1 !! k = Some (lease_of (sq_visibility_timeout_seconds q) now (qm_receipt_handle m) r) ->
  confined (qm_receipt_handle m) (fun k' => k' = k) d1 /\
  forall h, mr_receipt_handle r = Some h -> confined h (fun _ => False) d1.
Proof.
  intros Hd R Hm Hk Hk1. pose proof (rv_receipts _ _ _ _ _ R) as Er. pose proof (dg_supply d Hd) as Hnd. rewrite Er in Hnd.
  apply NoDup_app in Hnd as (_ & Hdisj & _). assert (qm_receipt_handle m ∈ qm_receipt_handle <$> ms) as Hin by by apply list_elem_of_fmap_2.
  assert (holds_receipt d1 k (qm_receipt_handle m)) as Hnew by (eexists; split; [exact Hk1|done]).
  split.
  - split; [by apply Hdisj|]. intros k' Hk'. by apply (dg_receipts d1 (rv_good _ _ _ _ _ R) k' k (qm_receipt_handle m)).
  - intros h Hh. destruct (dg_fresh d Hd k h) as [Hnin _]; [by exists r|]. rewrite Er, not_elem_of_app in Hnin. destruct Hnin as [Hn1 Hn2].
    split; [done|]. intros k' (r' & Hr' & Hrh'). destruct (rv_keys _ _ _ _ _ R k' (ex_intro _ r' Hr')) as [r0 Hr0].
    destruct (rv_rows _ _ _ _ _ R k' r0 Hr0) as [(m' & now' & Hm' & E)|[now' E]]; rewrite E in Hr'; injection Hr' as <-.
    + cbn in Hrh'. injection Hrh' as <-. apply Hn1. by apply list_elem_of_fmap_2.
    + assert (mr_receipt_handle r0 = Some h) as Hr0h by (revert Hrh'; unfold after_exhausted; by destruct (exhausted _ _ _)).
      assert (k' = k) as -> by (apply (dg_receipts d Hd k' k h); [by exists r0|by exists r]).
      assert (r0 = r) as -> by congruence. rewrite Hk1 in E. injection E as E. apply (f_equal mr_delivery_count) in E.
      unfold after_exhausted in E. destruct (exhausted _ _ _); cbn in E; lia.
Qed.

(** C37: a message is held by one receipt at a time. A committed [receive] returns
    at most a batch of messages under fresh, distinct receipts; each carries the
    exact wakeup of its row, whose earlier lease is over and whose deliveries are
    below the bound. From then on, whatever any number of processes commit, the
    row's earlier receipt acknowledges nothing, and the new receipt can
    acknowledge only this message, only while its lease lasts, and only once. *)
Theorem lease_exclusive q locked d ms d1 (Hd : db_good d) (Hq : sq_max_deliveries q = max_deliveries)
    (H : receive_body clock q locked d = (Ok ms, d1)) :
  Z.of_nat (length ms) <= Z.max 0 (sq_batch_size q) /\ NoDup (qm_receipt_handle <$> ms) /\
  forall m, m ∈ ms -> exists w r now_select,
    wakeup_value w /\ qm_body m = serialize_schedule_wakeup w /\ qd_queue d !! message_id w = Some r /\
    (message_id w ∉ locked) /\ lease_over now_select r = true /\ mr_delivery_count r < max_deliveries /\
    (forall h, mr_receipt_handle r = Some h -> spent h d1) /\
    (forall d2 u d3, rtc queue_step d1 d2 -> delete_body clock (qm_receipt_handle m) d2 = (Ok u, d3) ->
       deleted (qm_receipt_handle m) d2 (message_id w) d3 /\ spent (qm_receipt_handle m) d3).
Proof.
  pose proof (receive_ok _ _ _ _ _ Hd Hq H) as R. pose proof (rv_good _ _ _ _ _ R) as Hd1.
  split; [apply (rv_batch _ _ _ _ _ R)|]. pose proof (dg_supply d Hd) as Hnd. rewrite (rv_receipts _ _ _ _ _ R) in Hnd.
  apply NoDup_app in Hnd as (Hnd & _ & _). split; [done|]. intros m Hm.
  destruct (rv_messages _ _ _ _ _ R m Hm) as (k & r & now_select & now & Hk & Hlk & _ & Hlo & Hc & Eb & Hk1).
  destruct (row_wakeup d k r Hd Hk) as (w & Hw & Ew & ->). destruct (delivery_confines _ _ _ _ _ _ _ _ _ Hd R Hm Hk Hk1) as [Hnew Hold].
  exists w, r, now_select. split_and!; try done; [by rewrite Eb|..].
  - intros h Hh. by apply confined_spent, Hold.
  - intros d2 u d3 Hs Hdel. pose proof (queue_steps_good _ _ Hd1 Hs) as Hd2. destruct (delete_ok _ _ _ _ Hd2 Hdel) as [k' D].
    destruct (confined_steps _ _ _ _ Hd1 Hs Hnew) as [Hu2 Hk2]. destruct (dl_row _ _ _ _ D) as (r2 & until & Hr2 & Hh2 & _).
    assert (k' = message_id w) as -> by (apply Hk2; by exists r2). split; [done|]. apply confined_spent; [apply (dl_good _ _ _ _ D)|].
    split; [by rewrite (dl_uuids _ _ _ _ D)|]. intros k3 (r3 & Hr3 & Hh3).
    destruct (decide (k3 = message_id w)) as [->|Hne]; [by rewrite (dl_gone _ _ _ _ D) in Hr3|].
    apply Hne, Hk2. exists r3. by rewrite <- (dl_others _ _ _ _ D).
Qed.

(** ** The initial state *)

Definition new_queue_db (uuids : list string) : queue_db := QueueDb ∅ ∅ 0 uuids [] [].

Lemma new_queue_good uuids : NoDup uuids -> Forall (fun h => canonical_uuid h = true) uuids -> db_good (new_queue_db uuids).
Proof.
  intros Hn Hu. rewrite Forall_forall in Hu.
  assert (forall k h, ~ holds_receipt (new_queue_db uuids) k h) as Hno.
  { intros k h (r & Hr & _). cbn in Hr. by rewrite lookup_empty in Hr. }
  split.
  - intros k r Hr. cbn in Hr. by rewrite lookup_empty in Hr.
  - intros w Hw. by apply elem_of_nil in Hw.
  - intros k k' h H. by destruct (Hno k h).
  - exact Hn.
  - exact Hu.
  - intros k h H. by destruct (Hno k h).
  - intros t row Hr. cbn in Hr. by rewrite lookup_empty in Hr.
Qed.
End Spec.

Lemma new_queue_in_order p uuids : in_order p (new_queue_db uuids).
Proof. split; [apply NoDup_nil_2|]. intros w Hw. by apply elem_of_nil in Hw. Qed.
