(* ===== verification/ScheduleInstances.v ===== *)
(** * A schedule at work

    A trigger, a queue and a few transactions in which the theorems apply. *)

From S2P Require Import Prelude Transactions Regex PyStr Sha256 PyTime Json JsonRead Identifiers Projection PhysicalPlan Graph Orchestration RunCodec SchedulePort TriggerCodec Cron CronSpec ScheduleQueue ScheduleQueueSpec.

Local Open Scope string_scope.
Local Open Scope Z_scope.
Local Open Scope list_scope.

Definition zone_database (name : string) : result ZoneInfo :=
  if bool_decide (name = "Europe/Amsterdam") then Ok amsterdam else raise_ ZoneInfoNotFoundError name.

Definition night_spec : TriggerSpec :=
  {| ts_trigger_id := "nightly"; ts_kind := SCHEDULE; ts_plan_id := "plan"; ts_plan_revision := zero_sha256; ts_enabled := true;
     ts_schedule := Some "30 3 * * *"; ts_time_zone := Some "Europe/Amsterdam"; ts_dependency := None |}.
Definition parsed (expression : string) : FiveFieldCron :=
  match parse_five_field_cron expression with Ok f => f | Raise _ => no_schedule end.
Definition night : prepared :=
  {| pr_spec := night_spec; pr_expression := parsed "30 3 * * *"; pr_zone := amsterdam;
     pr_sha256 := sha256_hex (serialize_trigger_spec night_spec) |}.

Definition second_clock : nat -> Z := fun n => Z.of_nat n * us_per_second.
Definition two_receipts : list string :=
  ["11111111-1111-4111-8111-111111111111"; "22222222-2222-4222-8222-222222222222"].
Definition small_queue : schedule_queue :=
  {| sq_batch_size := 10; sq_visibility_timeout_seconds := 60; sq_max_deliveries := 8; sq_closed := false |}.

Definition begun : result Z * queue_db :=
  advance_trigger second_clock night (utc_at 2026 3 29 1 40) (utc_at 2026 3 29 1 0) 60 60 (new_queue_db two_receipts).
Definition delivered : result (list QueuedScheduleMessage) * queue_db := receive_body second_clock small_queue [] begun.2.

Lemma parsed_ok expression : is_ok (parse_five_field_cron expression) = true -> parse_five_field_cron expression = Ok (parsed expression).
Proof. unfold parsed. by destruct (parse_five_field_cron expression). Qed.

Lemma night_prepared : prepare_one zone_database night_spec = Ok night.
Proof.
  unfold prepare_one. cbn [ts_kind ts_schedule ts_time_zone night_spec].
  rewrite (parsed_ok "30 3 * * *") by (vm_compute; reflexivity). reflexivity.
Qed.

Example begun_ok : begun.1 = Ok 1 /\ qd_history begun.2 = [wakeup_of night_spec (utc_at 2026 3 29 1 30)].
Proof. vm_compute. split; reflexivity. Qed.
Example delivered_ok : exists m, delivered.1 = Ok [m] /\ qm_receipt_handle m = "11111111-1111-4111-8111-111111111111".
Proof. vm_compute. by eexists. Qed.

(** ** The theorems apply *)

Definition only_night (p : prepared) : Prop := p = night.

Lemma amsterdam_zone t : Z.abs (amsterdam t) < us_per_day.
Proof. unfold amsterdam. destruct (_ <? _); vm_compute; reflexivity. Qed.

Lemma night_ok : prepared_ok night.
Proof. split; [exact amsterdam_zone|apply sha256_hex_is_sha256|vm_compute; reflexivity]. Qed.

Lemma only_night_zones p : only_night p -> zone_ok p.
Proof. intros ->. apply (po_zone night night_ok). Qed.

Lemma minute_ok y m d hh mm : let t := (days_from_civil y m d * 1440 + hh * 60 + mm) * us_per_minute in
  convertible t -> convertible (t + us_per_minute) -> tick_ok (utc_at y m d hh mm).
Proof.
  intros t H1 H2. unfold utc_at. fold t. split; [|by rewrite instant_utc]. apply utc_minute_utc. apply Z.mod_mul. done.
Qed.

Lemma at_0100 : tick_ok (utc_at 2026 3 29 1 0).
Proof. apply minute_ok; vm_compute; (split; [discriminate|reflexivity]). Qed.
Lemma at_0140 : tick_ok (utc_at 2026 3 29 1 40).
Proof. apply minute_ok; vm_compute; (split; [discriminate|reflexivity]). Qed.
Lemma at_0240 : tick_ok (utc_at 2026 3 29 2 40).
Proof. apply minute_ok; vm_compute; (split; [discriminate|reflexivity]). Qed.

Lemma empty_good : db_good 8 (new_queue_db two_receipts).
Proof. apply new_queue_good; [apply (bool_decide_unpack _); vm_compute; exact I|repeat constructor; vm_compute; reflexivity]. Qed.

Lemma run_eq {A B} (x : A * B) a : x.1 = a -> x = (a, x.2).
Proof. by destruct x; intros <-. Qed.

Lemma begun_run : advance_trigger second_clock night (utc_at 2026 3 29 1 40) (utc_at 2026 3 29 1 0) 60 60 (new_queue_db two_receipts) = (Ok 1, begun.2).
Proof. exact (run_eq begun (Ok 1) (proj1 begun_ok)). Qed.

Lemma begun_good : db_good 8 begun.2.
Proof.
  destruct (advance_ok second_clock 8 night _ _ 60 60 _ _ _ ltac:(lia) empty_good (po_zone _ night_ok) at_0140 at_0100 ltac:(lia) begun_run) as (c & new & A & _).
  apply (pd_good _ _ _ _ (ad_produces _ _ _ _ _ _ _ _ _ _ A)).
Qed.

Definition messages_of (r : result (list QueuedScheduleMessage)) : list QueuedScheduleMessage :=
  match r with Ok ms => ms | Raise _ => [] end.
Definition delivered_messages : list QueuedScheduleMessage := messages_of delivered.1.

Lemma messages_ok r m : r = Ok [m] -> r = Ok (messages_of r) /\ length (messages_of r) = 1%nat.
Proof. by intros ->. Qed.

Lemma delivered_count : delivered.1 = Ok delivered_messages /\ length delivered_messages = 1%nat.
Proof. destruct delivered_ok as (m & H & _). exact (messages_ok _ m H). Qed.

Lemma delivered_run : receive_body second_clock small_queue [] begun.2 = (Ok delivered_messages, delivered.2).
Proof. exact (run_eq delivered (Ok delivered_messages) (proj1 delivered_count)). Qed.

(** The occurrence at 03:30 local time waits for a delivery or an
    acknowledgement, and it was inserted once. *)
Lemma no_occurrence_skipped_witness :
  (exists c now new,
    qd_cursors delivered.2 !! trigger_key night = Some (CursorRow (trigger_key night) (pr_sha256 night) c now) /\
    instant (utc_at 2026 3 29 1 0) <= instant c /\
    (forall t, t ∈ due_between night (utc_at 2026 3 29 1 0) c ->
       pending_or_spent 8 delivered.2 (wakeup_of (pr_spec night) t) \/ message_id (wakeup_of (pr_spec night) t) ∈ qd_acknowledged delivered.2) /\
    qd_history delivered.2 = new /\ sublist (of_trigger night new) (wakeup_of (pr_spec night) <$> due_between night (utc_at 2026 3 29 1 0) c)) /\
  in_order night delivered.2.
Proof.
  assert (forall p, only_night p -> trigger_key p = trigger_key night -> p = night) as Hu by (intros p Hp _; exact Hp).
  assert (rtc (queue_step second_clock 8 only_night) begun.2 delivered.2) as Hs.
  { eapply rtc_l; [|apply rtc_refl]. eapply (step_receive _ _ _ _ small_queue); [reflexivity|exact delivered_run]. }
  destruct (no_occurrence_skipped second_clock 8 only_night only_night_zones ltac:(lia) night (new_queue_db two_receipts)
            (utc_at 2026 3 29 1 40) (utc_at 2026 3 29 1 0) 60 60 1 begun.2 delivered.2 empty_good eq_refl Hu at_0140 at_0100 ltac:(lia) begun_run Hs)
    as [H1 H2].
  split; [exact H1|]. apply H2; [apply new_queue_in_order|discriminate].
Defined.

(** The definition is replaced by a tick whose horizon lies before the cursor, as
    of a leader with a slower clock, after the message was acknowledged: the
    cursor goes back to 01:20, and the occurrence of 01:30 is inserted again. *)
Definition hourly_spec : TriggerSpec :=
  {| ts_trigger_id := "nightly"; ts_kind := SCHEDULE; ts_plan_id := "plan"; ts_plan_revision := zero_sha256; ts_enabled := true;
     ts_schedule := Some "30 * * * *"; ts_time_zone := Some "Europe/Amsterdam"; ts_dependency := None |}.
Definition hourly : prepared :=
  {| pr_spec := hourly_spec; pr_expression := parsed "30 * * * *"; pr_zone := amsterdam;
     pr_sha256 := sha256_hex (serialize_trigger_spec hourly_spec) |}.
Definition replaced_backward : M queue_db Z :=
  _ ← delete_body second_clock "11111111-1111-4111-8111-111111111111";
  _ ← advance_trigger second_clock hourly (utc_at 2026 3 29 1 20) (utc_at 2026 3 29 1 20) 60 60;
  advance_trigger second_clock hourly (utc_at 2026 3 29 1 40) (utc_at 2026 3 29 1 20) 60 60.
Example backward_replacement_repeats :
  let '(r, d) := replaced_backward delivered.2 in
  r = Ok 1 /\ qd_history d = [wakeup_of night_spec (utc_at 2026 3 29 1 30); wakeup_of night_spec (utc_at 2026 3 29 1 30)].
Proof. vm_compute. split; reflexivity. Qed.

(** A day later the trigger catches up in two pages, over one occurrence. *)
Lemma at_0140_next : tick_ok (utc_at 2026 3 30 1 40).
Proof. apply minute_ok; vm_compute; (split; [discriminate|reflexivity]). Qed.
Lemma due_next : due_between night (utc_at 2026 3 29 1 40) (utc_at 2026 3 30 1 40) = [utc_at 2026 3 30 1 30].
Proof. vm_compute. reflexivity. Qed.
Lemma nights_differ :
  message_id (wakeup_of night_spec (utc_at 2026 3 29 1 30)) <> message_id (wakeup_of night_spec (utc_at 2026 3 30 1 30)).
Proof. apply (bool_decide_unpack _). vm_compute. exact I. Qed.

Lemma catch_up_witness :
  exists d' now', ticks second_clock 2 night (utc_at 2026 3 30 1 40) (utc_at 2026 3 29 1 0) 720 10000 begun.2 = (Ok tt, d') /\
    qd_cursors d' !! trigger_key night = Some (CursorRow (trigger_key night) (pr_sha256 night) (utc_at 2026 3 30 1 40) now').
Proof.
  refine (catch_up second_clock 8 ltac:(lia) 2 night (utc_at 2026 3 29 1 40) (second_clock 2) (utc_at 2026 3 30 1 40) (utc_at 2026 3 29 1 0) 720 10000
            begun.2 begun_good night_ok _ at_0140_next _ at_0100 _ _ _ _).
  - split; lia.
  - vm_compute. split; [discriminate|reflexivity].
  - vm_compute. reflexivity.
  - vm_compute. discriminate.
  - intros t w Ht Hw E. rewrite due_next in Ht, Hw. apply list_elem_of_singleton in Ht. subst t.
    rewrite (proj2 begun_ok) in Hw. apply elem_of_cons in Hw as [->|Hw]; [destruct (nights_differ E)|].
    apply list_elem_of_singleton in Hw. exact Hw.
  - vm_compute. discriminate.
Defined.

Lemma lease_exclusive_witness :
  length delivered_messages = 1%nat /\ NoDup (qm_receipt_handle <$> delivered_messages) /\
  forall m, m ∈ delivered_messages -> exists w, qm_body m = serialize_schedule_wakeup w /\
    forall d2 u d3, rtc (queue_step second_clock 8 only_night) delivered.2 d2 ->
      delete_body second_clock (qm_receipt_handle m) d2 = (Ok u, d3) ->
      spent second_clock 8 only_night (qm_receipt_handle m) d3.
Proof.
  destruct (lease_exclusive second_clock 8 only_night only_night_zones ltac:(lia) small_queue [] begun.2 delivered_messages delivered.2
              begun_good eq_refl delivered_run) as (_ & Hn & Hm).
  split; [|split; [exact Hn|]].
  - exact (proj2 delivered_count).
  - intros m Hin. destruct (Hm m Hin) as (w & r & now & _ & Hb & _ & _ & _ & _ & _ & Hlast). exists w. split; [exact Hb|].
    intros d2 u d3 Hs Hd. apply (Hlast d2 u d3 Hs Hd).
Defined.
