(* ===== verification/HostedSchedule.v ===== *)
(** * A hosted Control process: run store, schedule queue and consumer together

    The run tables and the schedule queue as one world.  The run store keeps its
    contract there, the PostgreSQL queue keeps the contract of [SchedulePort],
    and the lifecycle is the port the consumer starts runs through. *)

From S2P Require Import Prelude Transactions Regex PyStr Sha256 PyTime Json JsonRead Identifiers Projection PhysicalPlan Graph Orchestration RunCodec RunTransition Contract Dispatch RunStorePg Instances Placement PlacementSpec RunStatus Lifecycle LifecycleSpec LifecycleInstances TriggerCodec SchedulePort Cron CronSpec ScheduleConsumer ScheduleConsumerSpec ScheduleQueue ScheduleQueueSpec ScheduleInstances.

Local Open Scope string_scope.
Local Open Scope Z_scope.
Local Open Scope list_scope.

(** ** The lifecycle is the consumer's port *)

Section Port.
Context {W : Type} {HS : RunStore W} {HL : StoreLaws W} (lc : Lifecycle W) (Hlc : lifecycle_ok lc).

Lemma lifecycle_starts s w : submission_value s ->
  keeps inv view_of w (start lc s) (fun _ w' => submitted s (view_of w')) (fun _ => True).
Proof.
  intros Hs Hg. pose proof (start_triple lc Hlc s Hs w I Hg) as T. destruct (start lc s w) as [[resp|e] w']; destruct T as (G & L & T).
  - split; [exact G|split; [exact L|]]. destruct T as (st & (Hst & Hid & Hf) & _).
    destruct (vo_snapshots _ (proj2 G) st Hst) as (_ & r & Hr & Hev). exists r. rewrite Hid in Hr. split; [done|].
    rewrite <- Hf. pose proof (ev_identity _ _ Hev) as E. unfold run_identity in E. congruence.
  - split; [exact G|split; [exact L|done]].
Qed.
End Port.

(** ** One world *)

(** The two databases; for the proofs, the bodies delivered under each receipt
    and the bodies acknowledged. *)
Record hosted : Type := Hosted {
  h_runs : world;
  h_queue : Transactions.world queue_db;
  h_deliveries : gmap string (list Z);
  h_acknowledged : list (list Z);
}.

Definition on_runs {A} (m : M world A) : M hosted A := fun w =>
  let '(r, v) := m (h_runs w) in (r, Hosted v (h_queue w) (h_deliveries w) (h_acknowledged w)).

Definition hosted_view (w : hosted) : view :=
  {| v_runs := v_runs (world_view (h_runs w)); v_snapshots := v_snapshots (world_view (h_runs w));
     v_attempts := v_attempts (world_view (h_runs w)); v_executions := v_executions (world_view (h_runs w));
     v_deliveries := h_deliveries w; v_acknowledged := h_acknowledged w |}.

Section Queue.
Context (clock : nat -> Z) (q : schedule_queue) (locked : list string).
Context (q_open : sq_closed q = false) (q_deliveries : 1 <= sq_max_deliveries q).
Let max_deliveries := sq_max_deliveries q.

(** What others do to the queue while this process runs: produce and receive,
    under receipts of their own. *)
Definition quiet (f : queue_db -> queue_db) : Prop := forall d, db_good max_deliveries d ->
  db_good max_deliveries (f d) /\ qd_acknowledged (f d) = qd_acknowledged d /\ forall h P, confined h P d -> confined h P (f d).
Definition queue_admissible (e : Transactions.event queue_db) : Prop :=
  match e with Transactions.Foreign f => quiet f | _ => True end.

Record hosted_ok (w : hosted) : Prop := {
  ho_runs : world_ok (h_runs w);
  ho_queue : db_good max_deliveries (wd_durable (h_queue w));
  ho_weather : Forall queue_admissible (wd_weather (h_queue w));
  ho_deliveries h b : h_deliveries w !! h = Some b -> confined h (fun k => k = sha256_hex b) (wd_durable (h_queue w));
  ho_acknowledged k : k ∈ qd_acknowledged (wd_durable (h_queue w)) -> exists b, b ∈ h_acknowledged w /\ sha256_hex b = k;
}.

Lemma queue_settle d es d' fate es' : settle d es = (d', fate, es') -> db_good max_deliveries d -> Forall queue_admissible es ->
  db_good max_deliveries d' /\ qd_acknowledged d' = qd_acknowledged d /\ (forall h P, confined h P d -> confined h P d') /\
  Forall queue_admissible es'.
Proof.
  revert d; induction es as [|e es IH]; intros d; cbn.
  - by intros [= <- <- <-] Hd _.
  - intros H Hd [He Hes]%Forall_cons. destruct e as [f| | |]; try (injection H as <- <- <-; done).
    destruct (He d Hd) as (Hg & Ha & Hc). destruct (IH (f d) H Hg Hes) as (? & E & Hc' & ?). split_and!; try done; [congruence|auto].
Qed.

(** A transaction of this process: it ran on a settled state, and what is durable
    afterwards is that state or what it committed. *)
Lemma queue_transaction {A} m (body : M queue_db A) w r w' :
  queue_errors m (transact (atomically body)) w = (r, w') ->
  db_good max_deliveries (wd_durable w) -> Forall queue_admissible (wd_weather w) ->
  exists d, db_good max_deliveries d /\ qd_acknowledged d = qd_acknowledged (wd_durable w) /\
    (forall h P, confined h P (wd_durable w) -> confined h P d) /\ Forall queue_admissible (wd_weather w') /\
    match r with
    | Ok a => body d = (Ok a, wd_durable w')
    | Raise e => queue_error e /\ (wd_durable w' = d \/ exists a, body d = (Ok a, wd_durable w'))
    end.
Proof.
  intros H Hd Hw. unfold queue_errors, try_except, transact, atomically in H.
  destruct (settle (wd_durable w) (wd_weather w)) as [[d fate] es] eqn:E. destruct (queue_settle _ _ _ _ _ E Hd Hw) as (G & Ha & Hc & Hes).
  exists d. split; [done|split; [done|split; [done|]]].
  assert (forall e (v : Transactions.world queue_db), (if catches QueueErr e then lift (Raise e) else raiseM QueueErr m) v = (r, w') ->
    v = w' /\ exists e', r = @Raise A e' /\ queue_error e') as Herr.
  { intros e v Hr. destruct (catches QueueErr e) eqn:Ec; injection Hr as <- <-; (split; [done|]); eexists; (split; [reflexivity|done]). }
  destruct fate as [|e0|], (body d) as [[a|e] d1] eqn:Eb; cbn beta iota in H;
    try (injection H as <- <-; split; [exact Hes|done]); apply Herr in H as (<- & e' & -> & He'); cbn [wd_durable wd_weather];
    (split; [exact Hes|split; [exact He'|]]); first [by left | right; by exists a].
Qed.

Lemma hosted_view_ok w : view_ok (hosted_view w) <->
  view_ok (world_view (h_runs w)) /\ forall b, b ∈ h_acknowledged w -> handed_over (world_view (h_runs w)) b.
Proof.
  split.
  - intros [R S A E K]. split; [|exact K]. split; try done. intros b Hb. by apply elem_of_nil in Hb.
  - intros [[R S A E _] K]. by split.
Qed.

Lemma hosted_view_le v v' w w' : h_runs w = v -> h_runs w' = v' -> view_le (world_view v) (world_view v') ->
  h_deliveries w ⊆ h_deliveries w' -> (forall b, b ∈ h_acknowledged w -> b ∈ h_acknowledged w') -> view_le (hosted_view w) (hosted_view w').
Proof. intros <- <- [R S A E _ _] Hd Ha. by split. Qed.

(** ** The run store in it *)

Lemma on_runs_keeps {A} (m : M world A) (Q : A -> world -> Prop) (E : exn -> Prop) w :
  keeps world_ok world_view (h_runs w) m Q E ->
  keeps hosted_ok hosted_view w (on_runs m) (fun a w' => Q a (h_runs w')) E.
Proof.
  intros H [Hok [Hv Hk]%hosted_view_ok]. specialize (H (conj (ho_runs _ Hok) Hv)). unfold on_runs.
  destruct (m (h_runs w)) as [r v]. destruct H as ([G Gv] & L & R). split; [split|split].
  - destruct Hok. by split.
  - apply hosted_view_ok. split; [exact Gv|]. intros b Hb. by eapply handed_over_stable, Hk.
  - by eapply hosted_view_le.
  - destruct r; exact R.
Qed.

Context (collate : string -> string -> bool).

Definition hosted_store : RunStore hosted := {|
  claim := fun r => on_runs (pg_claim r); get := fun i => on_runs (pg_get i);
  find_idempotency := fun e p k => on_runs (pg_find_idempotency e p k); save := fun st r => on_runs (pg_save st r);
  append_attempt := fun a => on_runs (pg_append_attempt a); list_runs := fun c n => on_runs (pg_list collate false c n);
  list_pending := Some (fun c n => on_runs (pg_list collate true c n));
  claim_mutation := fun k o i b => on_runs (pg_claim_mutation k o i b); close_store := on_runs (mret tt) |}.

Program Definition hosted_laws : StoreLaws hosted (HS := hosted_store) := {| inv := hosted_ok; view_of := hosted_view |}.
Next Obligation. intros w r Hr. exact (on_runs_keeps _ _ _ w (claim_law (HS := pg_store collate) (StoreLaws := pg_laws collate) (h_runs w) r Hr)). Qed.
Next Obligation. intros w i. exact (on_runs_keeps _ _ _ w (get_law (HS := pg_store collate) (StoreLaws := pg_laws collate) (h_runs w) i)). Qed.
Next Obligation. intros w e p k. exact (on_runs_keeps _ _ _ w (find_law (HS := pg_store collate) (StoreLaws := pg_laws collate) (h_runs w) e p k)). Qed.
Next Obligation. intros w st r Hg He Hr. exact (on_runs_keeps _ _ _ w (save_law (HS := pg_store collate) (StoreLaws := pg_laws collate) (h_runs w) st r Hg He Hr)). Qed.
Next Obligation. intros w a Ha. exact (on_runs_keeps _ _ _ w (append_law (HS := pg_store collate) (StoreLaws := pg_laws collate) (h_runs w) a Ha)). Qed.
Next Obligation. intros w c n. exact (on_runs_keeps _ _ _ w (list_law (HS := pg_store collate) (StoreLaws := pg_laws collate) (h_runs w) c n)). Qed.
Next Obligation.
  intros w lp c n [= <-]. exact (on_runs_keeps _ _ _ w (pending_law (HS := pg_store collate) (StoreLaws := pg_laws collate) (h_runs w) _ c n eq_refl)).
Qed.
Next Obligation. intros w k o i b. exact (on_runs_keeps _ _ _ w (mutation_law (HS := pg_store collate) (StoreLaws := pg_laws collate) (h_runs w) k o i b)). Qed.
Next Obligation. intros w. exact (on_runs_keeps _ _ _ w (close_store_law (HS := pg_store collate) (StoreLaws := pg_laws collate) (h_runs w))). Qed.

(** ** The queue in it *)

Definition delivery_map (ms : list QueuedScheduleMessage) : gmap string (list Z) :=
  list_to_map ((fun m => (qm_receipt_handle m, qm_body m)) <$> ms).

Definition hosted_receive : M hosted (list QueuedScheduleMessage) := fun w =>
  let '(r, v) := receive clock q locked (h_queue w) in
  (r, Hosted (h_runs w) v (match r with Ok ms => delivery_map ms ∪ h_deliveries w | Raise _ => h_deliveries w end) (h_acknowledged w)).

(** The body the receipt stands for is acknowledged if its row is. *)
Definition newly_acknowledged (w : hosted) (h : string) (d : queue_db) : list (list Z) :=
  match h_deliveries w !! h with
  | Some b => if bool_decide (sha256_hex b ∈ qd_acknowledged d) then [b] else []
  | None => []
  end.
Definition hosted_delete (h : string) : M hosted unit := fun w =>
  let '(r, v) := delete clock q h (h_queue w) in
  (r, Hosted (h_runs w) v (h_deliveries w) (h_acknowledged w ++ newly_acknowledged w h (wd_durable v))).

#[export] Instance hosted_port : ScheduleQueuePort hosted := {|
  receive_messages := hosted_receive; delete_message := hosted_delete; close_port := mret tt |}.

Lemma delivery_in ms h b : delivery_map ms !! h = Some b -> exists m, m ∈ ms /\ qm_receipt_handle m = h /\ qm_body m = b.
Proof. intros H. apply elem_of_list_to_map_2, list_elem_of_fmap in H as (m & [= -> ->] & Hm). by exists m. Qed.

Lemma delivery_of ms m : NoDup (qm_receipt_handle <$> ms) -> m ∈ ms -> delivery_map ms !! qm_receipt_handle m = Some (qm_body m).
Proof.
  intros Hn Hm. apply elem_of_list_to_map_1; [by rewrite <- list_fmap_compose|]. apply list_elem_of_fmap. by exists m.
Qed.

(** A committed [receive] on a settled state. *)
Lemma received_deliveries d ms d' : db_good max_deliveries d -> receive_body clock q locked d = (Ok ms, d') ->
  db_good max_deliveries d' /\ qd_acknowledged d' = qd_acknowledged d /\
  (forall h P, confined h P d -> confined h P d' /\ (h ∉ qm_receipt_handle <$> ms)) /\
  NoDup (qm_receipt_handle <$> ms) /\
  forall m, m ∈ ms -> confined (qm_receipt_handle m) (fun k => k = sha256_hex (qm_body m)) d'.
Proof.
  intros Hd H. pose proof (receive_ok clock max_deliveries q locked d ms d' Hd eq_refl H) as R.
  pose proof (dg_supply _ d Hd) as Hnd. rewrite (rv_receipts _ _ _ _ _ _ R) in Hnd. apply NoDup_app in Hnd as (Hnd & _ & _).
  split_and!; [apply (rv_good _ _ _ _ _ _ R)|apply (rv_acknowledged _ _ _ _ _ _ R)| |done|].
  - intros h P Hc. split.
    + eapply (confined_step clock max_deliveries (fun _ => False)); [done|done|done| |exact Hc].
      eapply (step_receive _ _ _ _ q); [reflexivity|exact H].
    + intros Hin. destruct Hc as [Hu _]. apply Hu. rewrite (rv_receipts _ _ _ _ _ _ R), elem_of_app. by left.
  - intros m Hm. destruct (rv_messages _ _ _ _ _ _ R m Hm) as (k & r & now_select & now & Hk & _ & _ & _ & _ & Eb & Hk1).
    destruct (delivery_confines _ _ _ _ _ _ _ _ _ _ Hd R Hm Hk Hk1) as [[Hu Hc] _]. split; [done|].
    intros k' Hk'. rewrite (Hc k' Hk'). destruct (row_wakeup max_deliveries d k r Hd Hk) as (w & _ & Ew & ->). by rewrite Eb, Ew.
Qed.

(** A step of the queue alone. *)
Lemma queue_step_hosted w v deliveries acks :
  hosted_ok w -> view_ok (hosted_view w) ->
  db_good max_deliveries (wd_durable v) -> Forall queue_admissible (wd_weather v) ->
  h_deliveries w ⊆ deliveries ->
  (forall h b, deliveries !! h = Some b -> confined h (fun k => k = sha256_hex b) (wd_durable v)) ->
  (forall b, b ∈ acks -> handed_over (hosted_view w) b) ->
  (forall k, k ∈ qd_acknowledged (wd_durable v) -> exists b, b ∈ h_acknowledged w ++ acks /\ sha256_hex b = k) ->
  let w' := Hosted (h_runs w) v deliveries (h_acknowledged w ++ acks) in
  (hosted_ok w' /\ view_ok (hosted_view w')) /\ view_le (hosted_view w) (hosted_view w').
Proof.
  intros Hok [Hv Hk]%hosted_view_ok Hg Hw Hsub Hd Ha Hacks w'. split; [split|].
  - split; try done. apply (ho_runs _ Hok).
  - apply hosted_view_ok. split; [exact Hv|]. intros b [Hb|Hb]%elem_of_app; [by apply Hk|by apply Ha].
  - eapply hosted_view_le; try done. intros b Hb. cbn. rewrite elem_of_app. by left.
Qed.

Lemma receive_refines w : keeps hosted_ok hosted_view w hosted_receive
  (fun ms w' => forall m, m ∈ ms -> v_deliveries (hosted_view w') !! qm_receipt_handle m = Some (qm_body m)) queue_error.
Proof.
  intros [Hok Hv]. unfold hosted_receive. destruct (receive clock q locked (h_queue w)) as [r v] eqn:E.
  unfold receive, require_open_queue, queue_reject in E. rewrite q_open, lift_bind in E. cbn [reject_if] in E.
  destruct (queue_transaction _ _ _ _ _ E (ho_queue _ Hok) (ho_weather _ Hok)) as (d & Hd & Ea & Hc & Hw & Hr).
  pose proof (fun h b Hb => Hc h _ (ho_deliveries _ Hok h b Hb)) as Hconf.
  assert (forall k, k ∈ qd_acknowledged d -> exists b, b ∈ h_acknowledged w ++ [] /\ sha256_hex b = k) as Hack.
  { intros k Hk. rewrite app_nil_r. apply (ho_acknowledged _ Hok). by rewrite <- Ea. }
  assert (forall ms, receive_body clock q locked d = (Ok ms, wd_durable v) ->
    forall deliveries, deliveries = h_deliveries w \/ deliveries = delivery_map ms ∪ h_deliveries w ->
    let w' := Hosted (h_runs w) v deliveries (h_acknowledged w ++ []) in
    (hosted_ok w' /\ view_ok (hosted_view w')) /\ view_le (hosted_view w) (hosted_view w')) as Hcommit.
  { intros ms Hb deliveries Hdel. destruct (received_deliveries d ms (wd_durable v) Hd Hb) as (Hg & Ea' & Hstep & Hnd & Hnew).
    apply queue_step_hosted; try done.
    - destruct Hdel as [->| ->]; [done|]. apply map_union_subseteq_r. apply map_disjoint_spec. intros h b b' H1 H2.
      apply delivery_in in H1 as (m & Hm & <- & _). destruct (Hstep _ _ (Hconf _ _ H2)) as [_ Hn]. by apply Hn, list_elem_of_fmap_2.
    - intros h b Hb'. destruct Hdel as [->| ->]; [apply Hstep; by apply Hconf|].
      apply lookup_union_Some_raw in Hb' as [Hb'|[_ Hb']]; [|apply Hstep; by apply Hconf].
      apply delivery_in in Hb' as (m & Hm & <- & <-). by apply Hnew.
    - intros b Hb'. by apply elem_of_nil in Hb'.
    - intros k Hk. apply Hack. by rewrite <- Ea'. }
  destruct r as [ms|e].
  - destruct (Hcommit ms Hr _ (or_intror eq_refl)) as [G L]. rewrite app_nil_r in G, L. split; [exact G|split; [exact L|]].
    destruct (received_deliveries d ms (wd_durable v) Hd Hr) as (_ & _ & _ & Hnd & _).
    intros m Hm. cbn. apply lookup_union_Some_l. by apply delivery_of.
  - destruct Hr as [He [Ed|(ms & Hb)]].
    + assert ((hosted_ok (Hosted (h_runs w) v (h_deliveries w) (h_acknowledged w ++ [])) /\
               view_ok (hosted_view (Hosted (h_runs w) v (h_deliveries w) (h_acknowledged w ++ [])))) /\
              view_le (hosted_view w) (hosted_view (Hosted (h_runs w) v (h_deliveries w) (h_acknowledged w ++ [])))) as [G L].
      { apply queue_step_hosted; rewrite ?Ed; try done. intros b Hb. by apply elem_of_nil in Hb. }
      rewrite app_nil_r in G, L. split; [exact G|split; [exact L|exact He]].
    + destruct (Hcommit ms Hb _ (or_introl eq_refl)) as [G L]. rewrite app_nil_r in G, L. split; [exact G|split; [exact L|exact He]].
Qed.

(** A committed [delete] of a delivered message removes its row and no other. *)
Lemma deleted_delivery h b d u d' : db_good max_deliveries d -> confined h (fun k => k = sha256_hex b) d ->
  delete_body clock h d = (Ok u, d') ->
  db_good max_deliveries d' /\ (forall h' P, confined h' P d -> confined h' P d') /\
  forall k, k ∈ qd_acknowledged d' <-> k ∈ qd_acknowledged d \/ k = sha256_hex b.
Proof.
  intros Hd [_ Hc] H. destruct (delete_ok clock max_deliveries h d u d' Hd H) as [k D]. destruct (dl_row _ _ _ _ _ _ D) as (r & t & Hr & Hh & _).
  assert (k = sha256_hex b) as -> by (apply Hc; by exists r). split_and!; [apply (dl_good _ _ _ _ _ _ D)| |apply (dl_acknowledged _ _ _ _ _ _ D)].
  intros h' P Hc'. destruct u. eapply (confined_step clock max_deliveries (fun _ => False)); [done|done|done| |exact Hc']. by eapply step_delete.
Qed.

Lemma delete_refines w h b : v_deliveries (hosted_view w) !! h = Some b -> handed_over (hosted_view w) b ->
  keeps hosted_ok hosted_view w (hosted_delete h) (fun _ w' => b ∈ v_acknowledged (hosted_view w')) queue_error.
Proof.
  intros Hb Ho [Hok Hv]. cbn [hosted_view v_deliveries] in Hb. pose proof (ho_deliveries _ Hok h b Hb) as Hcb.
  assert (forall v d, db_good max_deliveries d -> qd_acknowledged d = qd_acknowledged (wd_durable (h_queue w)) ->
    (forall h P, confined h P (wd_durable (h_queue w)) -> confined h P d) -> Forall queue_admissible (wd_weather v) ->
    wd_durable v = d \/ (exists u, delete_body clock h d = (Ok u, wd_durable v)) ->
    let w' := Hosted (h_runs w) v (h_deliveries w) (h_acknowledged w ++ newly_acknowledged w h (wd_durable v)) in
    (hosted_ok w' /\ view_ok (hosted_view w')) /\ view_le (hosted_view w) (hosted_view w')) as Hstep.
  { intros v d Hd Ea Hc Hw Hr. assert (db_good max_deliveries (wd_durable v) /\ (forall h' P, confined h' P d -> confined h' P (wd_durable v)) /\
      forall k, k ∈ qd_acknowledged (wd_durable v) -> k ∈ qd_acknowledged d \/ k = sha256_hex b) as (Hg & Hc' & Hk).
    { destruct Hr as [->|(u & Hr)]; [split_and!; try done; by left|].
      destruct (deleted_delivery h b d u _ Hd (Hc _ _ Hcb) Hr) as (? & ? & Hk). split_and!; try done. intros k. by rewrite Hk. }
    apply queue_step_hosted; try done.
    - intros h' b' Hb'. by apply Hc', Hc, (ho_deliveries _ Hok).
    - intros b'. unfold newly_acknowledged. rewrite Hb. destruct (bool_decide _); [|by intros ?%elem_of_nil]. by intros ->%list_elem_of_singleton.
    - intros k Hk'. destruct (Hk k Hk') as [Hin| ->].
      + rewrite Ea in Hin. destruct (ho_acknowledged _ Hok k Hin) as (b' & Hb' & E). exists b'. rewrite elem_of_app. by split; [left|].
      + exists b. split; [|done]. rewrite elem_of_app. right. unfold newly_acknowledged. rewrite Hb, bool_decide_true by done. left. }
  unfold hosted_delete. destruct (delete clock q h (h_queue w)) as [r v] eqn:E.
  unfold delete, require_open_queue, queue_reject in E. rewrite q_open, lift_bind in E. cbn [reject_if] in E. rewrite lift_bind in E.
  destruct (canonical_uuid h); cbn [negb reject_if] in E.
  2: { injection E as <- <-. destruct (Hstep (h_queue w) _ (ho_queue _ Hok) eq_refl ltac:(auto) (ho_weather _ Hok) ltac:(by left)) as [G L]. done. }
  destruct (queue_transaction _ _ _ _ _ E (ho_queue _ Hok) (ho_weather _ Hok)) as (d & Hd & Ea & Hc & Hw & Hr).
  destruct r as [u|e].
  - destruct (Hstep v d Hd Ea Hc Hw ltac:(right; by exists u)) as [G L]. split; [exact G|split; [exact L|]].
    cbn. rewrite elem_of_app. right. unfold newly_acknowledged. rewrite Hb, bool_decide_true; [left|].
    apply (deleted_delivery h b d u _ Hd (Hc _ _ Hcb) Hr). by right.
  - destruct Hr as [He Hr]. destruct (Hstep v d Hd Ea Hc Hw ltac:(destruct Hr as [?|(? & ?)]; [by left|right; by eexists])) as [G L]. done.
Qed.

#[export] Instance hosted_queue_laws : QueueLaws hosted (HS := hosted_store) (HL := hosted_laws).
Proof.
  split.
  - intros w. apply receive_refines.
  - intros w h b. apply delete_refines.
  - intros w Hw. done.
Qed.

(** C40: the PostgreSQL schedule queue keeps the contract of the queue boundary.
    Over tables that other producers and consumers write to and a connection that
    may be lost before or after a commit, [receive] leaves the world good and
    every message it returns stands under its receipt for as long as the world
    lasts; [delete] of a receipt acknowledges exactly the message it stands for,
    so when that occurrence has its run the world stays good; and both raise
    queue errors only. *)
Theorem queue_refines_port w : hosted_ok w -> view_ok (hosted_view w) ->
  match hosted_receive w with
  | (r, w') => (hosted_ok w' /\ view_ok (hosted_view w')) /\ view_le (hosted_view w) (hosted_view w') /\
      match r with
      | Ok ms => forall m, m ∈ ms -> h_deliveries w' !! qm_receipt_handle m = Some (qm_body m)
      | Raise e => queue_error e
      end
  end /\
  forall h b, h_deliveries w !! h = Some b -> handed_over (hosted_view w) b ->
  match hosted_delete h w with
  | (r, w') => (hosted_ok w' /\ view_ok (hosted_view w')) /\ view_le (hosted_view w) (hosted_view w') /\
      match r with
      | Ok _ => b ∈ h_acknowledged w'
      | Raise e => queue_error e
      end
  end.
Proof.
  intros Hok Hv. split; [exact (receive_refines w (conj Hok Hv))|].
  intros h b Hb Ho. exact (delete_refines w h b Hb Ho (conj Hok Hv)).
Qed.

(** With [no_occurrence_skipped]: an occurrence whose message is gone from the
    queue has its run, as long as SHA-256 tells it from the other wakeups
    acknowledged so far. *)
Lemma acknowledged_occurrence_runs w wakeup : hosted_ok w -> view_ok (hosted_view w) -> wakeup_value wakeup ->
  (forall w', wakeup_value w' -> serialize_schedule_wakeup w' ∈ h_acknowledged w -> message_id w' = message_id wakeup -> w' = wakeup) ->
  message_id wakeup ∈ qd_acknowledged (wd_durable (h_queue w)) ->
  handed_over (hosted_view w) (serialize_schedule_wakeup wakeup).
Proof.
  intros Hok Hv Hw Hid Hin. destruct (ho_acknowledged _ Hok _ Hin) as (b & Hb & E). pose proof (vo_acknowledged _ Hv b Hb) as Ho.
  destruct Ho as (w' & s & r & A & Hr). destruct (wakeup_read_inv _ _ (an_body _ _ _ A)) as (Hw' & Eb & _).
  assert (w' = wakeup) as -> by (apply Hid; [done|by rewrite <- Eb|unfold message_id; by rewrite <- Eb]).
  exists wakeup, s, r. by rewrite <- Eb.
Qed.
End Queue.

(** ** A night *)

(** Every night, the plan of [PlacementSpec]. *)
Definition nightly_spec : TriggerSpec :=
  {| ts_trigger_id := "nightly"; ts_kind := SCHEDULE; ts_plan_id := "nightly"; ts_plan_revision := revision sample_plan;
     ts_enabled := true; ts_schedule := Some "30 3 * * *"; ts_time_zone := Some "Europe/Amsterdam"; ts_dependency := None |}.
Definition nightly : prepared :=
  {| pr_spec := nightly_spec; pr_expression := parsed "30 3 * * *"; pr_zone := amsterdam;
     pr_sha256 := sha256_hex (serialize_trigger_spec nightly_spec) |}.

Definition produced : result Z * queue_db :=
  advance_trigger second_clock nightly (utc_at 2026 3 29 1 40) (utc_at 2026 3 29 1 0) 60 60 (new_queue_db two_receipts).
Definition one_night : hosted :=
  Hosted (fresh_world []) (Transactions.World produced.2 []) ∅ [].

Definition hosted_provider : ExecutionBackend hosted :=
  {| submit_or_adopt := fun p i a t => on_runs (submit_or_adopt adopting_provider p i a t);
     observe := fun p h => on_runs (observe adopting_provider p h);
     logs := fun p h c n => on_runs (logs adopting_provider p h c n);
     cancel_execution := fun p h => on_runs (cancel_execution adopting_provider p h);
     close_backend := on_runs (close_backend adopting_provider) |}.
Definition hosted_lifecycle : Lifecycle hosted :=
  {| lc_plans := two_registry; lc_backends := {["cloud_run" := hosted_provider]};
     lc_graph := fun _ _ => mret sample_record; lc_clock := fun _ => utc 5; lc_closed := fun _ => false;
     lc_stop := fun _ => false; lc_page_size := 100;
     lc_validate_mutation := fun _ => raise_ ValueError "validation error" |}.
Definition hosted_consumer : ControlScheduleConsumer hosted :=
  {| cn_resolver := {| sr_plans := two_registry; sr_graph := fun _ _ => mret sample_record;
                       sr_triggers := {["nightly" := nightly_spec]}; sr_selection_resolver := None |};
     cn_start := start (HS := hosted_store str_leb) hosted_lifecycle; cn_clock := fun _ => utc 5; cn_stop := fun _ => false |}.

#[local] Instance small_port : ScheduleQueuePort hosted := hosted_port second_clock small_queue [].
Definition night_poll : result Z * (polls * hosted) := poll_once hosted_consumer (wk_polls new_worker, one_night).

(** The night's one message is started and acknowledged. *)
Example night_poll_value :
  night_poll.1 = Ok 1 /\ length (h_acknowledged night_poll.2.2) = 1%nat /\ size (db_runs (wd_durable (h_runs night_poll.2.2))) = 1%nat.
Proof. vm_compute. split_and!; reflexivity. Qed.

#[local] Instance small_store : RunStore hosted := hosted_store str_leb.
#[local] Instance small_laws : StoreLaws hosted := hosted_laws small_queue str_leb.
#[local] Instance small_queue_laws : QueueLaws hosted := hosted_queue_laws second_clock small_queue [] eq_refl ltac:(vm_compute; discriminate) str_leb.

Lemma hosted_provider_lawful : lawful hosted_provider.
Proof.
  pose proof (adopting_provider_lawful str_leb) as [H1 H2 H3 H4 H5]. split.
  - intros w p i a t Ha. exact (on_runs_keeps _ _ _ _ w (H1 (h_runs w) p i a t Ha)).
  - intros w p h. exact (on_runs_keeps _ _ _ _ w (H2 (h_runs w) p h)).
  - intros w p h c n. exact (on_runs_keeps _ _ _ _ w (H3 (h_runs w) p h c n)).
  - intros w p h. exact (on_runs_keeps _ _ _ _ w (H4 (h_runs w) p h)).
  - intros w. exact (on_runs_keeps _ _ _ _ w (H5 (h_runs w))).
Qed.

Lemma reads_nothing {A} (a : A) (Q : A -> hosted -> Prop) E w : (forall w', Q a w') ->
  keeps inv view_of w (mret a : M hosted A) Q E.
Proof. intros HQ Hg. split; [exact Hg|split; [reflexivity|apply HQ]]. Qed.

Lemma hosted_lifecycle_ok : lifecycle_ok hosted_lifecycle.
Proof.
  destruct two_registry_ok as [Hreg Hin]. split.
  - exact Hreg.
  - intros p Hp. destruct (two_plans_in p (proj1 (Hin p) Hp)) as [->| ->]; reflexivity.
  - intros i b Hb. cbn [hosted_lifecycle lc_backends] in Hb. apply lookup_singleton_Some in Hb as [_ <-]. apply hosted_provider_lawful.
  - intros w. vm_compute. split; discriminate.
  - intros p g w. by apply reads_nothing.
  - split; vm_compute; discriminate.
  - intros b. reflexivity.
Qed.

Lemma hosted_consumer_ok : consumer_ok hosted_consumer.
Proof.
  destruct two_registry_ok as [Hreg Hin]. split.
  - exact Hreg.
  - intros k spec Hk. cbn [hosted_consumer cn_resolver sr_triggers] in Hk. by apply lookup_singleton_Some in Hk as [<- <-].
  - intros p Hp. destruct (two_plans_in p (proj1 (Hin p) Hp)) as [->| ->]; (split; [reflexivity|split; [reflexivity|]]); intros n [=].
  - intros p g w. by apply reads_nothing.
  - intros w. vm_compute. split; discriminate.
  - intros s w Hs. by apply (lifecycle_starts hosted_lifecycle hosted_lifecycle_ok).
Qed.

Lemma produced_run : advance_trigger second_clock nightly (utc_at 2026 3 29 1 40) (utc_at 2026 3 29 1 0) 60 60 (new_queue_db two_receipts) = (Ok 1, produced.2).
Proof. apply (run_eq produced (Ok 1)). vm_compute. reflexivity. Qed.

Lemma one_night_good : inv one_night /\ view_ok (view_of one_night).
Proof.
  destruct (fresh_world_ok [] (Forall_nil_2 _)) as [Hw Hv].
  destruct (advance_ok second_clock 8 nightly _ _ 60 60 _ _ _ ltac:(lia) empty_good amsterdam_zone at_0140 at_0100 ltac:(lia) produced_run) as (c & new & A & _).
  pose proof (ad_produces _ _ _ _ _ _ _ _ _ _ A) as P. split.
  - split; [exact Hw|exact (pd_good _ _ _ _ P)|apply Forall_nil_2|..].
    + intros h b Hb. cbn in Hb. by rewrite lookup_empty in Hb.
    + intros k Hk. cbn in Hk. rewrite (pd_acknowledged _ _ _ _ P) in Hk. by apply elem_of_nil in Hk.
  - apply hosted_view_ok. split; [exact Hv|]. intros b Hb. by apply elem_of_nil in Hb.
Qed.

Lemma poll_hands_over_witness :
  night_poll.1 = Ok 1 /\ forall b, b ∈ h_acknowledged night_poll.2.2 -> handed_over (hosted_view night_poll.2.2) b.
Proof.
  pose proof (poll_hands_over hosted_consumer hosted_consumer_ok (wk_polls new_worker) one_night (proj1 one_night_good) (proj2 one_night_good)) as H.
  split; [exact (proj1 night_poll_value)|]. unfold night_poll. destruct (poll_once hosted_consumer (wk_polls new_worker, one_night)) as [r [s' w']].
  exact (proj1 (proj2 (proj2 H))).
Defined.

Lemma queue_refines_port_witness :
  match hosted_receive second_clock small_queue [] one_night with
  | (r, w') => hosted_ok small_queue w' /\ match r with
                                          | Ok ms => forall m, m ∈ ms -> h_deliveries w' !! qm_receipt_handle m = Some (qm_body m)
                                          | Raise e => queue_error e
                                          end
  end.
Proof.
  destruct (queue_refines_port second_clock small_queue [] eq_refl ltac:(vm_compute; discriminate) one_night
    (proj1 one_night_good) (proj2 one_night_good)) as [H _].
  destruct (hosted_receive second_clock small_queue [] one_night) as [r w']. exact (conj (proj1 (proj1 H)) (proj2 (proj2 H))).
Defined.

(** The same wakeup delivered twice. *)
Definition night_wakeup : ScheduleWakeup := wakeup_of nightly_spec (utc_at 2026 3 29 1 30).
Definition resolved_at (t : datetime) : result RunSubmission * hosted := resolve_occurrence (cn_resolver hosted_consumer) night_wakeup t one_night.
Definition submission_or_sample (r : result RunSubmission) : RunSubmission :=
  match r with Ok s => s | Raise _ => planned_submission end.
Definition submission_at (t : datetime) : RunSubmission := submission_or_sample (resolved_at t).1.

Lemma resolved_run t : is_ok (resolved_at t).1 = true ->
  resolve_occurrence (cn_resolver hosted_consumer) night_wakeup t one_night = (Ok (submission_at t), (resolved_at t).2).
Proof. intros H. apply (run_eq (resolved_at t)). unfold submission_at, submission_or_sample. by destruct (resolved_at t).1. Qed.

Lemma resolved_first : is_ok (resolved_at (utc 5)).1 = true.
Proof. vm_compute. reflexivity. Qed.
Lemma resolved_again : is_ok (resolved_at (utc 65)).1 = true.
Proof. vm_compute. reflexivity. Qed.

Lemma redelivery_same_run_witness :
  logical_run_identity (submission_at (utc 5)) = logical_run_identity (submission_at (utc 65)) /\
  fingerprint (submission_at (utc 5)) = fingerprint (submission_at (utc 65)).
Proof.
  pose proof (redelivery_same_run (cn_resolver hosted_consumer) night_wakeup (utc 5) (utc 65) one_night one_night
    (submission_at (utc 5)) (submission_at (utc 65)) (resolved_at (utc 5)).2 (resolved_at (utc 65)).2 (proj1 two_registry_ok)
    (resolved_run (utc 5) resolved_first) (resolved_run (utc 65) resolved_again)) as H.
  exact (conj (proj1 (proj2 H)) (proj1 (proj2 (proj2 H)))).
Defined.
