(* ===== verification/Scheduler.v ===== *)
(** * The schedule producer ([control/postgresql_scheduler.py])

    Leader election over a session-level advisory lock, the tick that only the
    leader runs, and the submission source that owns producer and consumer.
    Connections come from a pool outside this program: its operations are a
    record of parameters; a connection is named by its server session. *)

From S2P Require Import Prelude Transactions Regex PyStr Sha256 PyTime Json JsonRead Identifiers Projection PhysicalPlan Graph Orchestration RunCodec RunTransition Contract Placement RunStatus Lifecycle SchedulePort Cron ScheduleConsumer ScheduleQueue.

Local Open Scope string_scope.
Local Open Scope Z_scope.
Local Open Scope list_scope.

(** ** Sessions *)

Abbreviation session := nat.

(** [pool.getconn], [pool.putconn], [connection.close], and the transactions the
    leader runs on its connection.  [SELECT 1] is [ping]. *)
Record SessionPool (W : Type) : Type := {
  sp_getconn : M W session;
  sp_putconn : session -> M W unit;
  sp_close : session -> M W unit;
  sp_ping : session -> M W unit;
  sp_try_lock : session -> M W bool;      (* SELECT pg_try_advisory_lock(...) AS acquired *)
  sp_unlock : session -> M W bool;        (* SELECT pg_advisory_unlock(...) AS released *)
}.
Arguments sp_getconn {W}.
Arguments sp_putconn {W}.
Arguments sp_close {W}.
Arguments sp_ping {W}.
Arguments sp_try_lock {W}.
Arguments sp_unlock {W}.

Record leader : Type := {
  ld_connection : option session;
  ld_closed : bool;
}.
Definition new_leader : leader := {| ld_connection := None; ld_closed := false |}.

Section Leader.
Context {W : Type} (pool : SessionPool W).

Definition set_connection (c : option session) : M (leader * W) unit :=
  on_flags (fun l => {| ld_connection := c; ld_closed := ld_closed l |}).

(** [try: body finally: cleanup]: an exception of [cleanup] replaces that of [body]. *)
Definition finally {S A} (body : M S A) (cleanup : M S unit) : M S A := fun s =>
  match body s with
  | (r, s') => match cleanup s' with
               | (Ok _, s'') => (r, s'')
               | (Raise e, s'') => (Raise e, s'')
               end
  end.

Definition discard_connection : M (leader * W) unit := fun p =>
  match ld_connection p.1 with
  | None => (Ok tt, p)
  | Some c => (_ ← set_connection None; on_world (finally (sp_close pool c) (sp_putconn pool c))) p
  end.

Definition election_failed {A} : M (leader * W) A :=
  raiseM ScheduleQueueError "PostgreSQL scheduler leader election failed.".

(** The last [try] of [try_acquire]; a connection that was taken goes back. *)
Definition acquire_connection : M (leader * W) bool :=
  c ← try_except (on_world (sp_getconn pool)) (fun _ => election_failed);
  try_except
    (acquired ← on_world (sp_try_lock pool c);
     if acquired : bool then _ ← set_connection (Some c); mret true
     else _ ← on_world (sp_putconn pool c); mret false)
    (fun _ => _ ← try_except (on_world (sp_putconn pool c)) (fun _ => mret tt); election_failed).

Definition try_acquire : M (leader * W) bool := fun p =>
  if ld_closed p.1 then raiseM ScheduleQueueError "The PostgreSQL scheduler leader is closed." p
  else
    match ld_connection p.1 with
    | None => acquire_connection p
    | Some c =>
        match on_world (sp_ping pool c) p with
        | (Ok _, p') => (Ok true, p')
        | (Raise _, p') => (_ ← discard_connection; acquire_connection) p'
        end
    end.

Definition require_connection : M (leader * W) session := fun p =>
  match ld_connection p.1 with
  | Some c => if ld_closed p.1 then raiseM ScheduleQueueError "The PostgreSQL scheduler is not the leader." p else (Ok c, p)
  | None => raiseM ScheduleQueueError "The PostgreSQL scheduler is not the leader." p
  end.

Definition close_leader : M (leader * W) unit := fun p =>
  if ld_closed p.1 then (Ok tt, p)
  else
    let p' := ({| ld_connection := None; ld_closed := true |}, p.2) in
    match ld_connection p.1 with
    | None => (Ok tt, p')
    | Some c =>
        on_world
          (finally
             (try_except
                (released ← sp_unlock pool c;
                 if released : bool then mret tt else raiseM ScheduleQueueError "The PostgreSQL scheduler leader lock was not held.")
                (fun e =>
                   _ ← sp_close pool c;
                   if catches ScheduleQueueError e then lift (Raise e)
                   else raiseM ScheduleQueueError "PostgreSQL scheduler leader release failed."))
             (sp_putconn pool c)) p'
    end.
End Leader.

(** ** The producer *)

(** One turn of the loop of [__init__]; [dict] keeps the insertion order. *)
Definition scheduler_trigger (load_zone : string -> result ZoneInfo) (spec : TriggerSpec) (selected : list TriggerSpec)
    : result (list TriggerSpec) :=
  match ts_kind spec, ts_schedule spec, ts_time_zone spec with
  | SCHEDULE, Some schedule, Some time_zone =>
      _ ← map_error ScheduleExpressionError ValueError "The PostgreSQL schedule definition is invalid."
            (_ ← parse_five_field_cron schedule; _ ← require_iana_time_zone load_zone time_zone; Ok tt);
      match find (fun existing => bool_decide (ts_trigger_id existing = ts_trigger_id spec)) selected with
      | Some existing =>
          _ ← reject_if (negb (bool_decide (existing = spec))) ValueError
                "The PostgreSQL schedule registry has conflicting trigger ids.";
          Ok selected
      | None => Ok (selected ++ [spec])
      end
  | _, _, _ => raise_ ValueError "The PostgreSQL scheduler accepts scheduled triggers only."
  end.

Fixpoint scheduler_triggers (load_zone : string -> result ZoneInfo) (triggers selected : list TriggerSpec)
    : result (list TriggerSpec) :=
  match triggers with
  | [] => Ok selected
  | spec :: triggers => selected ← scheduler_trigger load_zone spec selected; scheduler_triggers load_zone triggers selected
  end.

(** What [__init__] keeps and never changes. *)
Record PostgreSQLScheduler (W : Type) : Type := {
  ps_pool : SessionPool W;
  (* queue.enqueue_due(triggers, through, initial_cursor, ..., connection) *)
  ps_enqueue : session -> list TriggerSpec -> datetime -> datetime -> Z -> Z -> M W Z;
  ps_triggers : list TriggerSpec;
  ps_clock : W -> datetime;
  ps_stop : W -> bool;                    (* _stop.is_set() *)
  ps_max_scan_minutes : Z;
  ps_max_occurrences : Z;
}.
Arguments ps_pool {W}.
Arguments ps_enqueue {W}.
Arguments ps_triggers {W}.
Arguments ps_clock {W}.
Arguments ps_stop {W}.
Arguments ps_max_scan_minutes {W}.
Arguments ps_max_occurrences {W}.

(** The fields a tick changes. *)
Record ticking : Type := {
  tk_leader : leader;
  tk_initial_cursor : option datetime;
  tk_polls : polls;                       (* _initial_tick_complete, _last_tick_failed *)
}.

Section Scheduler.
Context {W : Type}.

Definition new_scheduler (load_zone : string -> result ZoneInfo) (pool : SessionPool W)
    (enqueue : session -> list TriggerSpec -> datetime -> datetime -> Z -> Z -> M W Z) (clock : W -> datetime) (stop : W -> bool)
    (triggers : list TriggerSpec) (poll_interval shutdown_grace : Z) (initial_cursor : option datetime)
    (max_scan_minutes max_occurrences : Z) : result (PostgreSQLScheduler W * ticking) :=
  _ ← reject_if ((poll_interval <=? 0) || (shutdown_grace <=? 0)) ValueError "PostgreSQL scheduler timing must be positive.";
  _ ← reject_if (negb ((1 <=? max_scan_minutes) && (max_scan_minutes <=? 525600))) ValueError
        "PostgreSQL scheduler scan minutes must be 1 to 525600.";
  _ ← reject_if (negb ((1 <=? max_occurrences) && (max_occurrences <=? 10000))) ValueError
        "PostgreSQL scheduler occurrence bound must be 1 to 10000.";
  selected ← scheduler_triggers load_zone triggers [];
  _ ← reject_if (bool_decide (selected = []) || (100 <? Z.of_nat (length selected))) ValueError
        "The PostgreSQL scheduler requires 1 to 100 unique triggers.";
  cursor ← match initial_cursor with None => Ok None | Some c => c ← floor_utc_minute c; Ok (Some c) end;
  Ok ({| ps_pool := pool; ps_enqueue := enqueue; ps_triggers := selected; ps_clock := clock; ps_stop := stop;
         ps_max_scan_minutes := max_scan_minutes; ps_max_occurrences := max_occurrences |},
      {| tk_leader := new_leader; tk_initial_cursor := cursor; tk_polls := wk_polls new_worker |}).

Context (sch : PostgreSQLScheduler W).

(** An operation of the leader. *)
Definition on_leader {A} (m : M (leader * W) A) : M (ticking * W) A := fun p =>
  match m (tk_leader p.1, p.2) with
  | (r, (l, w)) => (r, ({| tk_leader := l; tk_initial_cursor := tk_initial_cursor p.1; tk_polls := tk_polls p.1 |}, w))
  end.
Definition set_tick_polls (f : polls -> polls) : M (ticking * W) unit :=
  on_flags (fun k => {| tk_leader := tk_leader k; tk_initial_cursor := tk_initial_cursor k; tk_polls := f (tk_polls k) |}).

(** [self._initial_cursor], fixed at the first tick when it was not given. *)
Definition first_cursor (horizon : datetime) : M (ticking * W) datetime := fun p =>
  match tk_initial_cursor p.1 with
  | Some c => (Ok c, p)
  | None =>
      match add_minutes horizon (-1) with
      | Ok c => (Ok c, ({| tk_leader := tk_leader p.1; tk_initial_cursor := Some c; tk_polls := tk_polls p.1 |}, p.2))
      | Raise e => (Raise e, p)
      end
  end.

Definition produce : M (ticking * W) Z :=
  elected ← on_leader (try_acquire (ps_pool sch));
  if negb elected then mret 0
  else
    now ← on_world (fun w => (Ok (ps_clock sch w), w));
    horizon ← lift (floor_utc_minute now);
    cursor ← first_cursor horizon;
    c ← on_leader require_connection;
    on_world (ps_enqueue sch c (ps_triggers sch) horizon cursor (ps_max_scan_minutes sch) (ps_max_occurrences sch)).

Definition tick_failure (e : exn) : bool := catches ScheduleExpressionError e || catches ScheduleQueueError e.

Definition tick_once : M (ticking * W) Z :=
  stop ← on_world (fun w => (Ok (ps_stop sch w), w));
  if stop : bool then mret 0
  else
    try_except (produced ← produce; _ ← set_tick_polls (fun _ => poll_succeeded); mret produced)
      (fun e => if tick_failure e then (_ ← set_tick_polls poll_failed; lift (Raise e)) else lift (Raise e)).

(** One turn of [_loop]; the thread then waits for the poll interval. *)
Definition scheduler_turn : M (ticking * W) unit :=
  try_except (_ ← tick_once; mret tt) (fun e => if tick_failure e then mret tt else lift (Raise e)).

Definition start_scheduler : M worker unit := start_worker "The PostgreSQL scheduler is closed.".
Definition close_scheduler (thread_stops : bool) : M (worker * (leader * W)) unit :=
  close_worker "The PostgreSQL scheduler did not stop within its shutdown grace period."
    "The PostgreSQL scheduler could not release leadership." thread_stops (close_leader (ps_pool sch)).
End Scheduler.

(** ** The submission source: one producer and one consumer *)

Record source : Type := {
  so_producer : worker;
  so_consumer : worker;
  so_closed : bool;
  so_cleanup_complete : bool;
}.

Section Source.
Context {W : Type} {HQ : ScheduleQueuePort W} (sch : PostgreSQLScheduler W).

Definition on_producer {A} (m : M worker A) : M source A := fun s =>
  let '(r, k) := m (so_producer s) in
  (r, {| so_producer := k; so_consumer := so_consumer s; so_closed := so_closed s; so_cleanup_complete := so_cleanup_complete s |}).
Definition on_consumer {A} (m : M worker A) : M source A := fun s =>
  let '(r, k) := m (so_consumer s) in
  (r, {| so_producer := so_producer s; so_consumer := k; so_closed := so_closed s; so_cleanup_complete := so_cleanup_complete s |}).

Definition start_source : M source unit := fun s =>
  if so_closed s then raiseM ControlOperationDependencyError "The PostgreSQL schedule submission source is closed." s
  else (_ ← on_consumer start_consumer; on_producer start_scheduler) s.

Definition source_ready (s : source) (producer_alive consumer_alive : bool) : bool :=
  negb (so_closed s) && worker_ready (so_producer s) producer_alive && worker_ready (so_consumer s) consumer_alive.

(** Both are asked to stop before either is waited for. *)
Definition close_source (producer_stops consumer_stops : bool) : M (source * (leader * W)) unit := fun p =>
  let s := p.1 in
  if so_cleanup_complete s then (Ok tt, p)
  else
    let producer := request_stop (so_producer s) in
    let consumer := request_stop (so_consumer s) in
    match close_scheduler sch producer_stops (producer, p.2) with
    | (Raise e, (producer, lw)) =>
        (Raise e, ({| so_producer := producer; so_consumer := consumer; so_closed := true; so_cleanup_complete := false |}, lw))
    | (Ok _, (producer, (l, w))) =>
        match close_consumer consumer_stops (consumer, w) with
        | (r, (consumer, w)) =>
            (r, ({| so_producer := producer; so_consumer := consumer; so_closed := true; so_cleanup_complete := is_ok r |}, (l, w)))
        end
    end.
End Source.
