(* ===== verification/SchedulerSpec.v ===== *)
(** * What the schedule producer promises

    Only the session that holds the advisory lock produces, and two processes
    never hold it at once. *)

From S2P Require Import Prelude Transactions Regex PyStr Sha256 PyTime Json JsonRead Identifiers Projection PhysicalPlan Graph Orchestration RunCodec RunTransition Contract Placement RunStatus Lifecycle SchedulePort Cron CronSpec ScheduleConsumer ScheduleQueue Scheduler.

Local Open Scope string_scope.
Local Open Scope Z_scope.
Local Open Scope list_scope.

Section Leader.
Context {W : Type} (pool : SessionPool W).

(** The server: which session holds the advisory lock of the scheduler, and which
    sessions are over. *)
Context (owner : W -> option session) (ended : W -> session -> Prop).

(** The lock stays with its session until that session unlocks it or ends. *)
Record later (w w' : W) : Prop := {
  lt_ended s : ended w s -> ended w' s;
  lt_owner s : owner w = Some s -> owner w' = Some s \/ ended w' s;
}.

#[export] Instance later_preorder : PreOrder later.
Proof.
  split.
  - intros w. split; auto.
  - intros w1 w2 w3 [E1 O1] [E2 O2]. split; [auto|]. intros s Hs. destruct (O1 s Hs) as [H|H]; [by apply O2|right; auto].
Qed.

(** What PostgreSQL and the pool document.  [sp_unlock] releases the lock of its
    own session only. *)
Record pool_ok : Prop := {
  pk_getconn w : later w (sp_getconn pool w).2;
  pk_putconn s w : later w (sp_putconn pool s w).2;
  pk_close s w : later w (sp_close pool s w).2;
  pk_ping s w : later w (sp_ping pool s w).2;
  pk_try_lock s w : later w (sp_try_lock pool s w).2;
  pk_locked s w w' : sp_try_lock pool s w = (Ok true, w') -> owner w' = Some s;
  pk_unlock s w : (forall s', ended w s' -> ended (sp_unlock pool s w).2 s') /\
    forall s', s' <> s -> owner w = Some s' -> owner (sp_unlock pool s w).2 = Some s' \/ ended (sp_unlock pool s w).2 s';
}.

Context (Hpool : pool_ok).

(** The connection kept by the leader holds the lock, or its session is over. *)
Definition fenced (p : leader * W) : Prop := forall c, ld_connection p.1 = Some c -> owner p.2 = Some c \/ ended p.2 c.
Definition fences {A} (m : M (leader * W) A) : Prop := forall p, fenced p -> fenced (m p).2 /\ later p.2 (m p).2.2.

Lemma fenced_later l w w' : fenced (l, w) -> later w w' -> fenced (l, w').
Proof. intros H [E O] c Hc. destruct (H c Hc) as [Ho|He]; [by apply O|right; auto]. Qed.

Lemma fences_world {A} (m : M W A) : (forall w, later w (m w).2) -> fences (on_world m).
Proof.
  intros H [l w] Hp. unfold on_world. cbn [fst snd]. specialize (H w). destruct (m w) as [r w']. cbn [fst snd] in *.
  split; [by eapply fenced_later|done].
Qed.

Lemma fences_bind {A B} (m : M (leader * W) A) (f : A -> M (leader * W) B) : fences m -> (forall a, fences (f a)) -> fences (m ≫= f).
Proof.
  intros Hm Hf p Hp. unfold mbind, M_bind. destruct (Hm p Hp) as [H1 L1]. destruct (m p) as [[a|e] p1]; [|done]. cbn [snd] in *.
  destruct (Hf a p1 H1) as [H2 L2]. split; [done|by etrans].
Qed.

Lemma fences_try {A} (m : M (leader * W) A) (h : exn -> M (leader * W) A) : fences m -> (forall e, fences (h e)) -> fences (try_except m h).
Proof.
  intros Hm Hh p Hp. unfold try_except. destruct (Hm p Hp) as [H1 L1]. destruct (m p) as [[a|e] p1]; [done|]. cbn [snd] in *.
  destruct (Hh e p1 H1) as [H2 L2]. split; [done|by etrans].
Qed.

Lemma fences_ret {A} (r : result A) : fences (lift r).
Proof. intros p Hp. split; [done|reflexivity]. Qed.

Lemma fences_drop : fences (set_connection (W := W) None).
Proof. intros p Hp. split; [by intros c|reflexivity]. Qed.

Lemma later_finally {A} (m : M W A) (c : M W unit) : (forall w, later w (m w).2) -> (forall w, later w (c w).2) ->
  forall w, later w (finally m c w).2.
Proof.
  intros Hm Hc w. unfold finally. specialize (Hm w). destruct (m w) as [r w1]. cbn [snd] in Hm. specialize (Hc w1).
  destruct (c w1) as [[u|e] w2]; cbn [snd] in *; by etrans.
Qed.

Lemma fences_discard : fences (discard_connection pool).
Proof.
  intros p Hp. unfold discard_connection. destruct (ld_connection p.1) as [c|] eqn:E; [|by split].
  refine (fences_bind _ _ fences_drop (fun _ => fences_world _ _) p Hp).
  apply later_finally; [apply (pk_close Hpool)|apply (pk_putconn Hpool)].
Qed.

Lemma acquire_fences : fences (acquire_connection pool).
Proof.
  unfold acquire_connection. apply fences_bind.
  { apply fences_try; [apply fences_world, (pk_getconn Hpool)|intros e; apply fences_ret]. }
  intros c. apply fences_try.
  - intros [l w] Hp. unfold mbind, M_bind, on_world, set_connection, on_flags. cbn [fst snd].
    pose proof (pk_try_lock Hpool c w) as L. pose proof (pk_locked Hpool c w) as Ho.
    destruct (sp_try_lock pool c w) as [[[]|e] w1]; cbn [fst snd] in *.
    + split; [|done]. intros c' [= <-]. left. by apply Ho.
    + pose proof (pk_putconn Hpool c w1) as L'. destruct (sp_putconn pool c w1) as [[u|e] w2]; cbn [fst snd] in *;
        (split; [eapply fenced_later; [exact Hp|by etrans]|by etrans]).
    + split; [by eapply fenced_later|done].
  - intros e. apply fences_bind; [|intros u; apply fences_ret].
    apply fences_try; [apply fences_world, (pk_putconn Hpool)|intros e'; apply fences_ret].
Qed.

Lemma try_acquire_fences : fences (try_acquire pool).
Proof.
  intros p Hp. unfold try_acquire. destruct (ld_closed p.1); [split; [done|reflexivity]|].
  destruct (ld_connection p.1) as [c|]; [|by apply acquire_fences].
  destruct (fences_world (sp_ping pool c) (pk_ping Hpool c) p Hp) as [H1 L1].
  destruct (on_world (sp_ping pool c) p) as [[u|e] p1]; [done|]. cbn [snd] in *.
  destruct (fences_bind _ (fun _ => acquire_connection pool) fences_discard (fun _ => acquire_fences) p1 H1) as [H2 L2].
  split; [done|by etrans].
Qed.

Lemma require_connection_fences : fences (require_connection (W := W)).
Proof.
  intros p Hp. unfold require_connection. destruct (ld_connection p.1); [destruct (ld_closed p.1)|]; (split; [done|reflexivity]).
Qed.

Lemma require_connection_inv p c p' : require_connection (W := W) p = (Ok c, p') -> p' = p /\ ld_connection p.1 = Some c.
Proof.
  unfold require_connection. destruct (ld_connection p.1) as [c'|]; [|done]. destruct (ld_closed p.1); [done|]. by intros [= -> <-].
Qed.

Lemma close_leader_fences l w : fenced (l, w) -> fenced (close_leader pool (l, w)).2 /\ ld_closed (close_leader pool (l, w)).2.1 = true.
Proof.
  intros Hp. unfold close_leader. cbn [fst snd]. destruct (ld_closed l) eqn:Ec; [by split|].
  destruct (ld_connection l) as [c|]; [|by split]. unfold on_world. cbn [fst snd]. destruct (finally _ _ w) as [r w']. by split.
Qed.

(** ** A tick *)

Section Tick.
Context (sch : PostgreSQLScheduler W) (Hsch : ps_pool sch = pool).
Context (holds : W -> session -> bool) (holds_spec : forall w c, holds w c = true <-> owner w = Some c \/ ended w c).

(** Producing only moves the server forward. *)
Context (enqueue_later : forall c ts h f mm mo w, later w (ps_enqueue sch c ts h f mm mo w).2).

(** The scheduler whose production is refused unless the session it runs on holds
    the lock (or is over, and commits nothing). *)
Definition guarded : PostgreSQLScheduler W :=
  {| ps_pool := ps_pool sch;
     ps_enqueue := fun c ts h f mm mo w => if holds w c then ps_enqueue sch c ts h f mm mo w else raiseM AssertionError "not the leader" w;
     ps_triggers := ps_triggers sch; ps_clock := ps_clock sch; ps_stop := ps_stop sch;
     ps_max_scan_minutes := ps_max_scan_minutes sch; ps_max_occurrences := ps_max_occurrences sch |}.

Definition fenced_tick (p : ticking * W) : Prop := fenced (tk_leader p.1, p.2).

Lemma on_leader_fences {A} (m : M (leader * W) A) p : fences m -> fenced_tick p ->
  fenced_tick (on_leader m p).2 /\ later p.2 (on_leader m p).2.2.
Proof.
  intros Hm Hp. unfold on_leader. destruct (Hm _ Hp) as [H1 L1]. destruct (m (tk_leader p.1, p.2)) as [r [l w]]. done.
Qed.

(** Two computations that do the same from fenced states, and stay fenced. *)
Definition agree {A} (m m' : M (ticking * W) A) : Prop :=
  forall p, fenced_tick p -> m' p = m p /\ fenced_tick (m p).2 /\ later p.2 (m p).2.2.

Lemma agree_bind {A B} (m m' : M (ticking * W) A) (f f' : A -> M (ticking * W) B) :
  agree m m' -> (forall a, agree (f a) (f' a)) -> agree (m ≫= f) (m' ≫= f').
Proof.
  intros Hm Hf p Hp. unfold mbind, M_bind. destruct (Hm p Hp) as (-> & H1 & L1). destruct (m p) as [[a|e] p1]; [|by split_and!].
  cbn [snd] in *. destruct (Hf a p1 H1) as (-> & H2 & L2). split_and!; [done|done|by etrans].
Qed.

Lemma agree_try {A} (m m' : M (ticking * W) A) (h : exn -> M (ticking * W) A) :
  agree m m' -> (forall e, agree (h e) (h e)) -> agree (try_except m h) (try_except m' h).
Proof.
  intros Hm Hh p Hp. unfold try_except. destruct (Hm p Hp) as (-> & H1 & L1). destruct (m p) as [[a|e] p1]; [by split_and!|].
  cbn [snd] in *. destruct (Hh e p1 H1) as (_ & H2 & L2). split_and!; [done|done|by etrans].
Qed.

Lemma agree_leader {A} (m : M (leader * W) A) : fences m -> agree (on_leader m) (on_leader m).
Proof. intros Hm p Hp. split; [done|]. by apply on_leader_fences. Qed.
Lemma agree_read {A} (m : M (ticking * W) A) :
  (forall p, tk_leader (m p).2.1 = tk_leader p.1 /\ (m p).2.2 = p.2) -> agree m m.
Proof. intros H p Hp. destruct (H p) as [H1 H2]. split; [done|]. unfold fenced_tick. rewrite H1, H2. by split. Qed.

(** The connection is required, and the production runs on it at once. *)
Lemma agree_enqueue ts horizon cursor mm mo :
  agree (c ← on_leader require_connection; on_world (ps_enqueue sch c ts horizon cursor mm mo))
        (c ← on_leader require_connection; on_world (ps_enqueue guarded c ts horizon cursor mm mo)).
Proof.
  intros [k w] Hp. unfold mbind, M_bind, on_leader. cbn [fst snd].
  destruct (require_connection (tk_leader k, w)) as [[c|e] [l w1]] eqn:E.
  - apply require_connection_inv in E as [[= -> ->] E]. cbn [fst] in E. unfold on_world. cbn [fst snd guarded ps_enqueue].
    rewrite (proj2 (holds_spec w c)) by (by apply Hp). split; [done|]. pose proof (enqueue_later c ts horizon cursor mm mo w) as L.
    destruct (ps_enqueue sch c ts horizon cursor mm mo w) as [r w2]. cbn [fst snd] in *. split; [|done]. by eapply fenced_later.
  - destruct (require_connection_fences (tk_leader k, w) Hp) as [H L]. rewrite E in H, L. by split_and!.
Qed.

Lemma produce_guarded : agree (produce sch) (produce guarded).
Proof.
  unfold produce. cbn [guarded ps_pool ps_clock ps_triggers ps_max_scan_minutes ps_max_occurrences]. rewrite Hsch.
  apply agree_bind; [apply agree_leader, try_acquire_fences|intros elected]. destruct (negb elected); [by apply agree_read|].
  apply agree_bind; [by apply agree_read|intros now]. apply agree_bind; [by apply agree_read|intros horizon].
  apply agree_bind; [|intros cursor; apply agree_enqueue]. apply agree_read. intros p. unfold first_cursor.
  destruct (tk_initial_cursor p.1); [done|]. by destruct (add_minutes _ _).
Qed.

Lemma polls_agree f : agree (set_tick_polls (W := W) f) (set_tick_polls f).
Proof. by apply agree_read. Qed.

Lemma tick_guarded : agree (tick_once sch) (tick_once guarded).
Proof.
  unfold tick_once. apply agree_bind; [by apply agree_read|intros []; [by apply agree_read|]].
  apply agree_try.
  - apply agree_bind; [apply produce_guarded|intros n]. apply agree_bind; [apply polls_agree|intros u; by apply agree_read].
  - intros e. destruct (tick_failure e); [|by apply agree_read]. apply agree_bind; [apply polls_agree|intros u; by apply agree_read].
Qed.

(** C38: only the holder of the advisory lock produces. From a fenced state - the
    connection this process keeps holds the lock, or its session is over - a tick
    does exactly what a scheduler does whose production is refused unless the
    session it runs on holds the lock or is over (and then commits nothing), and
    leaves a fenced state; so does closing. Another process in a fenced state
    stays fenced meanwhile, and of two processes with different sessions one has
    a session that is over: two live sessions never produce at once. *)
Theorem production_fenced s w l (Hs : fenced_tick (s, w)) (Hl : fenced (l, w)) :
  tick_once guarded (s, w) = tick_once sch (s, w) /\
  (let '(r, (s', w')) := tick_once sch (s, w) in fenced_tick (s', w') /\ fenced (l, w')) /\
  fenced (close_leader pool (tk_leader s, w)).2 /\
  forall c c', ld_connection (tk_leader s) = Some c -> ld_connection l = Some c' -> c <> c' -> ended w c \/ ended w c'.
Proof.
  destruct (tick_guarded (s, w) Hs) as (-> & H & L). split; [done|split; [|split]].
  - destruct (tick_once sch (s, w)) as [r [s' w']]. cbn [fst snd] in *. split; [done|]. by eapply fenced_later.
  - by apply close_leader_fences.
  - intros c c' Hc Hc' Hne. destruct (Hs c Hc) as [E|?]; [|by left]. destruct (Hl c' Hc') as [E'|?]; [|by right].
    cbn [fst snd] in *. congruence.
Qed.
End Tick.
End Leader.

(** ** A server *)

Record server : Type := Server {
  sv_owner : option session;
  sv_ended : list session;
  sv_next : session;
  sv_produced : list session;
}.
Definition server_error {A} : M server A := raiseM Exception "".
Definition live {A} (c : session) (m : M server A) : M server A := fun w => if bool_decide (c ∈ sv_ended w) then server_error w else m w.

Definition server_pool : SessionPool server :=
  {| sp_getconn := fun w => (Ok (sv_next w), Server (sv_owner w) (sv_ended w) (S (sv_next w)) (sv_produced w));
     sp_putconn := fun _ => mret tt;
     sp_close := fun c w => (Ok tt, Server (if bool_decide (sv_owner w = Some c) then None else sv_owner w) (c :: sv_ended w) (sv_next w) (sv_produced w));
     sp_ping := fun c => live c (mret tt);
     sp_try_lock := fun c => live c (fun w =>
       match sv_owner w with
       | None => (Ok true, Server (Some c) (sv_ended w) (sv_next w) (sv_produced w))
       | Some o => (Ok (bool_decide (o = c)), w)
       end);
     sp_unlock := fun c => live c (fun w =>
       if bool_decide (sv_owner w = Some c) then (Ok true, Server None (sv_ended w) (sv_next w) (sv_produced w)) else (Ok false, w)) |}.

Definition server_ended (w : server) (c : session) : Prop := c ∈ sv_ended w.

Lemma live_later {A} c (m : M server A) : (forall w, later sv_owner server_ended w (m w).2) -> forall w, later sv_owner server_ended w (live c m w).2.
Proof. intros H w. unfold live. destruct (bool_decide _); [reflexivity|apply H]. Qed.

Lemma server_pool_ok : pool_ok server_pool sv_owner server_ended.
Proof.
  split; cbn [server_pool sp_getconn sp_putconn sp_close sp_ping sp_try_lock sp_unlock].
  - intros w. split; auto.
  - intros s w. reflexivity.
  - intros s w. split; cbn.
    + intros s' Hs. by right.
    + intros s' Hs. destruct (bool_decide_reflect (sv_owner w = Some s)) as [E|E]; [|by left]. right. rewrite Hs in E. injection E as ->. left.
  - intros s. by apply live_later.
  - intros s. apply live_later. intros w. destruct (sv_owner w) as [o|] eqn:E; [reflexivity|]. split; [done|]. intros s' Hs. congruence.
  - intros s w w'. unfold live. destruct (bool_decide (s ∈ sv_ended w)); [done|]. destruct (sv_owner w) as [o|] eqn:E.
    + intros [= Hb <-]. apply bool_decide_eq_true in Hb. congruence.
    + by intros [= <-].
  - intros s w. unfold live. destruct (bool_decide (s ∈ sv_ended w)); [split; auto|].
    destruct (bool_decide_reflect (sv_owner w = Some s)) as [E|E]; cbn; (split; [auto|]); intros s' Hne Hs; [congruence|by left].
Qed.

Definition server_holds (w : server) (c : session) : bool := bool_decide (sv_owner w = Some c) || bool_decide (c ∈ sv_ended w).

Definition small_scheduler : PostgreSQLScheduler server :=
  {| ps_pool := server_pool;
     ps_enqueue := fun c _ _ _ _ _ => live c (fun w => (Ok 1, Server (sv_owner w) (sv_ended w) (sv_next w) (sv_produced w ++ [c])));
     ps_triggers := []; ps_clock := fun _ => utc 0; ps_stop := fun _ => false; ps_max_scan_minutes := 60; ps_max_occurrences := 60 |}.

(** The session of the first process ended, and another process took the lock. *)
Definition deposed : ticking :=
  {| tk_leader := {| ld_connection := Some 0%nat; ld_closed := false |}; tk_initial_cursor := None; tk_polls := poll_succeeded |}.
Definition successor : leader := {| ld_connection := Some 1%nat; ld_closed := false |}.
Definition taken_over : server := Server (Some 1%nat) [0%nat] 2 [0%nat].

Example deposed_tick : (tick_once small_scheduler (deposed, taken_over)).1 = Ok 0 /\
  sv_produced (tick_once small_scheduler (deposed, taken_over)).2.2 = [0%nat].
Proof. vm_compute. by split. Qed.

Lemma production_fenced_witness :
  tick_once (guarded small_scheduler server_holds) (deposed, taken_over) = tick_once small_scheduler (deposed, taken_over).
Proof.
  refine (proj1 (production_fenced server_pool sv_owner server_ended server_pool_ok small_scheduler eq_refl server_holds _ _
    deposed taken_over successor _ _)).
  - intros w c. unfold server_holds. rewrite orb_true_iff, !bool_decide_eq_true. reflexivity.
  - intros c ts h f mm mo. apply live_later. intros w. split; auto.
  - intros c [= <-]. right. left.
  - intros c [= <-]. by left.
Defined.
