(* ===== verification/StatePort.v ===== *)
(** * Durable execution state ([concurrency.py], the protocols of
    [state/lease.py] and [state/watermark.py])

    Fencing tokens and leases, the operations a state provider offers, and what
    they promise: a [ledger] of tenancies and cursor commits that moves only by
    the steps of [ledger_step].  Between the call and the return of an operation
    other processes may take steps too, and an operation that raises may or may
    not have taken effect. *)

From S2P Require Import Prelude Regex PyStr.

Local Open Scope string_scope.
Local Open Scope Z_scope.
Local Open Scope list_scope.

(** ** Fencing tokens *)

Definition word_head : re := Cls (either upper (either lower (one_of "_"))).
Definition word_char : ascii -> bool := either alnum (one_of "_").
Definition dashed_word : re := Cat word_head (Star (Cls (either word_char (one_of "-")))).
Definition plain_word : re := Cat word_head (Star (Cls word_char)).
Definition TABLE_ID : re := Cat dashed_word (Cat (lit ".") (Cat plain_word (Cat (lit ".") plain_word))).
Definition AUTHORITY_ID : re := head_tail alnum (either alnum (one_of "._:/-")) 2 255.

Record FencingToken : Type := {
  ft_lease_table : option string;
  ft_pipeline_id : string;
  ft_run_id : string;
  ft_token : Z;
  ft_authority_id : option string;
  ft_authority_epoch : Z;
}.
Definition value_reject (b : bool) (m : string) : result unit := reject_if b ValueError m.

Definition FencingToken_post_init (f : FencingToken) : result unit :=
  _ ← when_some (ft_lease_table f) (fun t => value_reject (negb (fullmatch TABLE_ID t)) "Invalid BigQuery lease table");
  _ ← value_reject (empty (ft_pipeline_id f) || empty (ft_run_id f)) "Fencing identifiers must be non-empty";
  _ ← value_reject (ft_token f <=? 0) "Fencing token must be a positive integer";
  _ ← value_reject (is_none (ft_authority_id f) && is_none (ft_lease_table f)) "Fencing token requires an authority id";
  _ ← when_some (ft_authority_id f) (fun a => value_reject (negb (fullmatch AUTHORITY_ID a)) "Invalid fencing authority id");
  value_reject (ft_authority_epoch f <=? 0) "Fencing authority epoch must be a positive integer".
Definition new_fencing_token (f : FencingToken) : result FencingToken := _ ← FencingToken_post_init f; Ok f.

(** [s.rsplit(c, 1)[0]]: the text before the last [c]. *)
Definition before_last (c : ascii) (s : string) : string :=
  match split_on c s with
  | [] | [_] => s
  | parts => join (of_chars [c]) (removelast parts)
  end.
Definition resolved_authority_id (f : FencingToken) : result string :=
  match ft_authority_id f, ft_lease_table f with
  | Some a, _ => Ok a
  | None, Some t => Ok ("bigquery:" +:+ before_last "." t)
  | None, None => raise_ AssertionError ""
  end.

Record TargetFence : Type := {
  tf_fence_table : string;
  tf_target_id : string;
  tf_authority_id : string;
  tf_authority_epoch : Z;
  tf_pipeline_id : string;
  tf_run_id : string;
  tf_token : Z;
}.
Definition TargetFence_post_init (f : TargetFence) : result unit :=
  _ ← value_reject (empty (tf_fence_table f) || empty (tf_target_id f)) "Target fence identifiers must be non-empty";
  _ ← value_reject (negb (fullmatch AUTHORITY_ID (tf_authority_id f))) "Invalid target-fence authority id";
  _ ← value_reject (tf_authority_epoch f <=? 0) "Target-fence authority epoch must be a positive integer";
  _ ← value_reject (empty (tf_pipeline_id f) || empty (tf_run_id f)) "Target-fence run identifiers must be non-empty";
  value_reject (tf_token f <=? 0) "Target-fence token must be a positive integer".

(** ** Leases and watermarks *)

Record LeaseHandle : Type := {
  lh_pipeline_id : string;
  lh_run_id : string;
  lh_fencing_token : Z;
  lh_lease_seconds : Z;
  lh_fence : option FencingToken;
}.

Definition validated_lease_seconds (value : Z) : result Z :=
  _ ← value_reject (negb ((30 <=? value) && (value <=? 3600))) "lease_seconds must be an integer from 30 to 3600";
  Ok value.

Class LeaseStore (W : Type) : Type := {
  lease_seconds : Z;
  acquire : string -> string -> M W (option LeaseHandle);
  heartbeat : LeaseHandle -> M W bool;
  release : LeaseHandle -> M W bool;
}.

Class WatermarkStore (W : Type) : Type := {
  get_cursor : string -> string -> M W (option string);
  set_cursor : string -> string -> string -> M W unit;
  compare_and_set : string -> string -> option string -> string -> option FencingToken -> M W bool;
}.

(** The [compare_and_set] a store inherits that defines none: a reading and then
    a write, which are two calls; it looks at no fence. *)
Definition default_compare_and_set {W} {WS : WatermarkStore W} (source entity : string) (expected : option string)
    (cursor : string) (fence : option FencingToken) : M W bool :=
  stored ← get_cursor source entity;
  if negb (bool_decide (stored = expected)) then mret false
  else _ ← set_cursor source entity cursor; mret true.

(** ** The ledger *)

(** Who holds a pipeline, the greatest token issued for it and the end of the
    term.  A pipeline never leased is [vacant]. *)
Record tenancy : Type := Tenancy { tn_holder : option string; tn_token : Z; tn_expires : Z }.
Definition vacant : tenancy := Tenancy None 0 0.

(** A cursor replaced by another, with the run the commit was fenced by. *)
Record commit : Type := Commit {
  cm_source : string; cm_entity : string; cm_expected : option string; cm_cursor : string;
  cm_fence : option FencingToken;
}.
Record ledger : Type := Ledger {
  lg_clock : Z;
  lg_tenancy : string -> tenancy;
  lg_commits : list commit;                 (* newest last *)
}.

(** The cursor of an entity: the one last committed. *)
Definition concerns (source entity : string) (c : commit) : bool :=
  bool_decide (cm_source c = source) && bool_decide (cm_entity c = entity).
Definition cursor_of (cs : list commit) (source entity : string) : option string :=
  cm_cursor <$> last (filter (fun c => concerns source entity c = true) cs).

(** What a provider declares in its [StateCapabilities], and its lease time in
    units of the clock. *)
Record authority : Type := { au_term : Z; au_server_time : bool; au_fences : bool }.

Section Ledger.
Context (au : authority).

(** A time the provider reads: the current one if it has the server's clock,
    else one read earlier. *)
Definition reads (l : ledger) (now : Z) : Prop :=
  now <= lg_clock l /\ (au_server_time au = true -> now = lg_clock l).

Definition holds (t : tenancy) (run : string) (token : Z) : Prop := tn_holder t = Some run /\ tn_token t = token.
Definition current (l : ledger) (h : LeaseHandle) : Prop := holds (lg_tenancy l (lh_pipeline_id h)) (lh_run_id h) (lh_fencing_token h).
Definition fence_current (l : ledger) (f : FencingToken) : Prop := holds (lg_tenancy l (ft_pipeline_id f)) (ft_run_id f) (ft_token f).

(** Only the tenancy of [p] changes. *)
Definition turns (p : string) (t : tenancy) (l l' : ledger) : Prop :=
  lg_clock l' = lg_clock l /\ lg_commits l' = lg_commits l /\ lg_tenancy l' p = t /\
  forall q, q <> p -> lg_tenancy l' q = lg_tenancy l q.

(** A term that is over (or was given up) is granted to the next run, with the
    next token. *)
Definition grants (h : LeaseHandle) (l l' : ledger) : Prop :=
  exists now, reads l now /\ tn_expires (lg_tenancy l (lh_pipeline_id h)) <= now /\
    lh_fencing_token h = tn_token (lg_tenancy l (lh_pipeline_id h)) + 1 /\
    turns (lh_pipeline_id h) (Tenancy (Some (lh_run_id h)) (lh_fencing_token h) (now + au_term au)) l l'.
Definition renews (h : LeaseHandle) (l l' : ledger) : Prop :=
  exists now, reads l now /\ current l h /\ now < tn_expires (lg_tenancy l (lh_pipeline_id h)) /\
    turns (lh_pipeline_id h) (Tenancy (Some (lh_run_id h)) (lh_fencing_token h) (now + au_term au)) l l'.
Definition gives_up (h : LeaseHandle) (l l' : ledger) : Prop :=
  exists now, reads l now /\ current l h /\ turns (lh_pipeline_id h) (Tenancy None (lh_fencing_token h) now) l l'.
(** The cursor is still the expected one; a provider that fences also wants the
    lease of the fence to be the current one. *)
Definition commits (c : commit) (l l' : ledger) : Prop :=
  cm_expected c = cursor_of (lg_commits l) (cm_source c) (cm_entity c) /\
  (forall f, au_fences au = true -> cm_fence c = Some f -> fence_current l f) /\
  lg_clock l' = lg_clock l /\ lg_commits l' = lg_commits l ++ [c] /\ forall p, lg_tenancy l' p = lg_tenancy l p.
Definition idles (l l' : ledger) : Prop :=
  lg_clock l <= lg_clock l' /\ lg_commits l' = lg_commits l /\ forall p, lg_tenancy l' p = lg_tenancy l p.

Inductive ledger_step (l l' : ledger) : Prop :=
  | step_idle : idles l l' -> ledger_step l l'
  | step_grant h : grants h l l' -> ledger_step l l'
  | step_renew h : renews h l l' -> ledger_step l l'
  | step_give_up h : gives_up h l l' -> ledger_step l l'
  | step_commit c : commits c l l' -> ledger_step l l'.
Definition ledger_le : relation ledger := rtc ledger_step.
#[export] Instance ledger_le_preorder : PreOrder ledger_le := _.

(** [R] happened at some moment between [l] and [l']. *)
Definition meanwhile (R : relation ledger) (l l' : ledger) : Prop :=
  exists l1 l2, ledger_le l l1 /\ R l1 l2 /\ ledger_le l2 l'.
End Ledger.
Arguments ledger_le_preorder : clear implicits.

(** ** Promises *)

(** The fence names the tenancy of the handle. *)
Definition fenced_by (h : LeaseHandle) (f : FencingToken) : Prop :=
  ft_pipeline_id f = lh_pipeline_id h /\ ft_run_id f = lh_run_id h /\ ft_token f = lh_fencing_token h.

(** [issued] are the fencing tokens of this provider. *)
Section Laws.
Context {W : Type} (au : authority) (issued : FencingToken -> Prop) (inv : W -> Prop) (ledger_of : W -> ledger).

(** The operation keeps the invariant and only steps happen; [R] happened if
    its result says so. *)
Definition steps_with {A} (m : M W A) (w : W) (R : A -> option (relation ledger)) : Prop :=
  inv w ->
  match m w with
  | (Ok a, w') => inv w' /\ match R a with
                            | Some R => meanwhile au R (ledger_of w) (ledger_of w')
                            | None => ledger_le au (ledger_of w) (ledger_of w')
                            end
  | (Raise _, w') => inv w' /\ ledger_le au (ledger_of w) (ledger_of w')
  end.
Definition if_true (R : relation ledger) (b : bool) : option (relation ledger) := if b then Some R else None.

Class LeaseLaws (LS : LeaseStore W) : Prop := {
  ll_acquire p run w : steps_with (acquire p run) w (fun o =>
    match o with
    | Some h => Some (fun l l' => lh_pipeline_id h = p /\ lh_run_id h = run /\ grants au h l l' /\
                                  forall f, lh_fence h = Some f -> issued f /\ fenced_by h f)
    | None => None
    end);
  ll_heartbeat h w : steps_with (heartbeat h) w (if_true (renews au h));
  ll_release h w : steps_with (release h) w (if_true (gives_up au h));
}.

Class WatermarkLaws (WS : WatermarkStore W) : Prop := {
  wl_get s e w : steps_with (get_cursor s e) w (fun c => Some (fun l l' => cursor_of (lg_commits l) s e = c /\ idles l l'));
  wl_set s e c w : steps_with (set_cursor s e c) w (fun _ => Some (fun l l' => exists x, commits au (Commit s e x c None) l l'));
  wl_compare_and_set s e x c f w : (forall t, f = Some t -> issued t) -> steps_with (compare_and_set s e x c f) w (fun b =>
    Some (if b : bool then commits au (Commit s e x c f)
          else fun l l' => cursor_of (lg_commits l) s e <> x /\ idles l l'));
}.
End Laws.
