(* ===== verification/LedgerSpec.v ===== *)
(** * What the ledger guarantees

    Consequences of the steps of [StatePort]: tokens only grow, a superseded
    lease stays superseded, a term that has not run out is not granted again,
    cursors are replaced one by one.  The last part transports them to a
    provider whose operations are transactions. *)

From S2P Require Import Prelude Transactions PyStr StatePort.

Local Open Scope Z_scope.
Local Open Scope list_scope.

(** Providers that take no notice of fences accept any. *)
Definition any_token (f : FencingToken) : Prop := True.

(** ** One step *)

Section Ledger.
Context (au : authority).
Abbreviation le := (ledger_le au).

Lemma idles_le l l' : idles l l' -> le l l'.
Proof. intros. by apply rtc_once, step_idle. Qed.
Lemma grants_le h l l' : grants au h l l' -> le l l'.
Proof. intros. by eapply rtc_once, step_grant. Qed.
Lemma renews_le h l l' : renews au h l l' -> le l l'.
Proof. intros. by eapply rtc_once, step_renew. Qed.
Lemma gives_up_le h l l' : gives_up au h l l' -> le l l'.
Proof. intros. by eapply rtc_once, step_give_up. Qed.
Lemma commits_le c l l' : commits au c l l' -> le l l'.
Proof. intros. by eapply rtc_once, step_commit. Qed.

Lemma meanwhile_le R l l' : (forall a b, R a b -> le a b) -> meanwhile au R l l' -> le l l'.
Proof. intros H (a & b & H1 & H2%H & H3). by etrans; [|etrans]. Qed.
Lemma meanwhile_between (R : relation ledger) l l1 l2 l' : le l l1 -> R l1 l2 -> le l2 l' -> meanwhile au R l l'.
Proof. intros. by exists l1, l2. Qed.
Lemma meanwhile_extend R l0 l l' l1 : le l0 l -> meanwhile au R l l' -> le l' l1 -> meanwhile au R l0 l1.
Proof. intros H (a & b & H1 & H2 & H3) H'. exists a, b. split_and!; [by etrans|done|by etrans]. Qed.
Lemma meanwhile_impl (R S : relation ledger) l l' : (forall a b, R a b -> S a b) -> meanwhile au R l l' -> meanwhile au S l l'.
Proof. intros H (a & b & H1 & H2%H & H3). by exists a, b. Qed.

(** The tenancy a pipeline has after [turns]. *)
Lemma turns_at p t l l' q : turns p t l l' -> lg_tenancy l' q = if decide (q = p) then t else lg_tenancy l q.
Proof. intros (_ & _ & H & H'). destruct (decide (q = p)) as [->|Hq]; [done|by apply H']. Qed.

(** [t'] may follow [t]: a token never gets smaller, and as long as it stays the
    holder is the same or gone for good. *)
Definition tenancy_le (t t' : tenancy) : Prop :=
  tn_token t < tn_token t' \/ tn_token t = tn_token t' /\ (tn_holder t' = tn_holder t \/ tn_holder t' = None).
#[export] Instance tenancy_le_preorder : PreOrder tenancy_le.
Proof.
  split; [intros t; right; auto|]. intros a b c [H|[H1 H2]] [H'|[H1' H2']]; unfold tenancy_le; [lia..|].
  right. split; [lia|]. destruct H2' as [->| ->]; [|by right]. destruct H2; auto.
Qed.

Ltac ledger_cases :=
  match goal with
  | H : ledger_step _ _ _ |- _ =>
      destruct H as [(?&?&?)|? (?&?&?&?&?)|? (?&?&[? ?]&?&?)|? (?&?&[? ?]&?)|? (?&?&?&?&?)]
  end.

Lemma step_tenancy l l' p : ledger_step au l l' -> tenancy_le (lg_tenancy l p) (lg_tenancy l' p).
Proof.
  intros H. ledger_cases;
    repeat match goal with
    | H : forall _, lg_tenancy _ _ = _ |- _ => rewrite H
    | H : turns _ _ _ _ |- _ => rewrite (turns_at _ _ _ _ p H); clear H; case_decide; [subst p|]
    end; try reflexivity; unfold tenancy_le; cbn.
  - left. lia.
  - right. auto.
  - right. auto.
Qed.
Lemma le_tenancy l l' p : le l l' -> tenancy_le (lg_tenancy l p) (lg_tenancy l' p).
Proof. induction 1 as [|a b c H _ IH]; [reflexivity|]. etrans; [by apply step_tenancy|done]. Qed.
Lemma le_token l l' p : le l l' -> tn_token (lg_tenancy l p) <= tn_token (lg_tenancy l' p).
Proof. intros H. destruct (le_tenancy _ _ p H) as [|[]]; lia. Qed.
Lemma le_clock l l' : le l l' -> lg_clock l <= lg_clock l'.
Proof.
  induction 1 as [|a b c H _ IH]; [done|]. ledger_cases;
    repeat match goal with H : turns _ _ _ _ |- _ => destruct H as (?&_) end; lia.
Qed.

(** ** Superseded leases *)

(** A later grant or the end of the lease has overtaken the handle. *)
Definition superseded (l : ledger) (h : LeaseHandle) : Prop :=
  let t := lg_tenancy l (lh_pipeline_id h) in
  lh_fencing_token h < tn_token t \/ lh_fencing_token h = tn_token t /\ tn_holder t <> Some (lh_run_id h).
Lemma superseded_le l l' h : le l l' -> superseded l h -> superseded l' h.
Proof.
  intros H Hs. unfold superseded in *. destruct (le_tenancy _ _ (lh_pipeline_id h) H) as [|[E Hh]].
  - left. destruct Hs as [|[]]; lia.
  - rewrite <- E. destruct Hs as [|[? Hn]]; [by left|]. right. split; [done|].
    destruct Hh as [->| ->]; congruence.
Qed.
Lemma superseded_current l h : superseded l h -> ~ current l h.
Proof. intros [|[]] []; [lia|done]. Qed.

(** A grant after this one supersedes it. *)
Lemma grants_current h l l' : grants au h l l' -> current l' h.
Proof. intros (now & _ & _ & _ & (_ & _ & H & _)). unfold current, holds. by rewrite H. Qed.
Lemma grants_token h l l' : grants au h l l' -> tn_token (lg_tenancy l (lh_pipeline_id h)) < lh_fencing_token h.
Proof. intros (now & _ & _ & H & _). lia. Qed.
Lemma later_grant h h' l0 l1 l2 l3 :
  grants au h l0 l1 -> le l1 l2 -> grants au h' l2 l3 -> lh_pipeline_id h = lh_pipeline_id h' ->
  lh_fencing_token h < lh_fencing_token h' /\ superseded l3 h.
Proof.
  intros G1 L G2 E. pose proof (grants_current _ _ _ G1) as [_ T1]. pose proof (grants_token _ _ _ G2) as T2.
  pose proof (grants_current _ _ _ G2) as [_ T3]. pose proof (le_token _ _ (lh_pipeline_id h) L).
  rewrite <- E in *. assert (lh_fencing_token h < lh_fencing_token h') by lia.
  split; [done|]. left. by rewrite T3.
Qed.

(** What a superseded handle can no longer do, at any later time. *)
Lemma superseded_refuses h l l' (R : relation ledger) :
  superseded l h -> (forall a b, R a b -> current a h) -> ~ meanwhile au R l l'.
Proof. intros Hs HR (a & b & L & H%HR & _). by eapply superseded_current, H; eapply superseded_le. Qed.

(** ** Terms *)

(** No term reaches further than one lease from now. *)
Definition terms_bounded (l : ledger) : Prop := 0 <= lg_clock l /\ forall p, tn_expires (lg_tenancy l p) <= lg_clock l + au_term au.

Ltac tenancy_at p :=
  repeat match goal with
  | H : forall _, lg_tenancy _ _ = _ |- _ => rewrite (H p)
  | H : turns _ _ _ _ |- _ => rewrite (turns_at _ _ _ _ p H); destruct H as (?&_); case_decide; [subst p|]
  | H : reads _ _ _ |- _ => destruct H as [? H]
  end.

Lemma step_bounded l l' : 0 <= au_term au -> ledger_step au l l' -> terms_bounded l -> terms_bounded l'.
Proof.
  intros Hn H [Hc Hb]. pose proof (le_clock l l' (rtc_once _ _ H)) as Hl. split; [lia|].
  intros p. specialize (Hb p). ledger_cases; tenancy_at p; cbn; lia.
Qed.

Lemma le_bounded l l' : 0 <= au_term au -> le l l' -> terms_bounded l -> terms_bounded l'.
Proof. intros Hn. induction 1 as [|a b c H _ IH]; [done|]. intros Hb. by eapply IH, step_bounded. Qed.

(** With the server's clock, until a term runs out nobody else is granted the
    pipeline unless its holder gave it up. *)
Lemma step_term l l' h :
  au_server_time au = true -> terms_bounded l -> ledger_step au l l' -> current l h ->
  lg_clock l < tn_expires (lg_tenancy l (lh_pipeline_id h)) ->
  current l' h /\ tn_expires (lg_tenancy l (lh_pipeline_id h)) <= tn_expires (lg_tenancy l' (lh_pipeline_id h))
  \/ exists g, lh_pipeline_id g = lh_pipeline_id h /\ lh_run_id g = lh_run_id h /\ lh_fencing_token g = lh_fencing_token h /\ gives_up au g l l'.
Proof.
  intros Hs [_ Hb] H [Hh Ht] He. specialize (Hb (lh_pipeline_id h)). unfold current, holds.
  destruct H as [(?&?&E)|g (now&R&?&?&T)|g (now&R&[Ch Ct]&?&T)|g (now&R&[Ch Ct]&T)|c (?&?&?&?&E)].
  - left. rewrite (E _). done.
  - left. rewrite (turns_at _ _ _ _ (lh_pipeline_id h) T). case_decide as D; [|done].
    rewrite D in *. destruct R as [_ R]. specialize (R Hs). lia.
  - left. rewrite (turns_at _ _ _ _ (lh_pipeline_id h) T). case_decide as D; [|done].
    rewrite D in *. destruct R as [_ R]. specialize (R Hs). cbn. split_and!; [congruence|lia|lia].
  - destruct (decide (lh_pipeline_id h = lh_pipeline_id g)) as [D|D].
    + right. exists g. rewrite D in *. split_and!; [done|congruence|lia|by exists now].
    + left. rewrite (turns_at _ _ _ _ (lh_pipeline_id h) T). by rewrite decide_False.
  - left. rewrite (E _). done.
Qed.

Lemma le_term l l' h :
  au_server_time au = true -> 0 <= au_term au -> terms_bounded l -> le l l' -> current l h ->
  lg_clock l' < tn_expires (lg_tenancy l (lh_pipeline_id h)) ->
  current l' h /\ tn_expires (lg_tenancy l (lh_pipeline_id h)) <= tn_expires (lg_tenancy l' (lh_pipeline_id h)) \/
  exists g, lh_pipeline_id g = lh_pipeline_id h /\ lh_run_id g = lh_run_id h /\ lh_fencing_token g = lh_fencing_token h
            /\ meanwhile au (gives_up au g) l l'.
Proof.
  intros Hs Hn Hb H. induction H as [l|l l1 l' H1 H2 IH]; intros Hc He; [by left|].
  pose proof (le_clock _ _ H2). pose proof (le_clock _ _ (rtc_once _ _ H1)).
  destruct (step_term _ _ h Hs Hb H1 Hc) as [[Hc1 He1]|(g & ? & ? & ? & G)]; [lia| |].
  - destruct IH as [[? ?]|(g & ? & ? & ? & M)]; [by eapply step_bounded|done|lia|left; split; [done|lia]|].
    right. exists g. split_and!; [done..|]. by eapply meanwhile_extend; [apply rtc_once|exact M|].
  - right. exists g. split_and!; [done..|]. by eapply meanwhile_between.
Qed.

(** ** Cursor commits *)

Lemma step_commits l l' : ledger_step au l l' ->
  lg_commits l' = lg_commits l \/
  exists c, lg_commits l' = lg_commits l ++ [c] /\ commits au c l l'.
Proof.
  intros H. destruct H as [(?&?&?)|h (?&?&?&?&T)|h (?&?&?&?&T)|h (?&?&?&T)|c C];
    try (left; by destruct T as (?&?&_)); [by left|]. right. exists c. split; [apply C|done].
Qed.
Lemma le_commits l l' : le l l' -> exists cs, lg_commits l' = lg_commits l ++ cs.
Proof.
  induction 1 as [l|l l1 l' H _ [cs IH]]; [exists []; by rewrite app_nil_r|].
  destruct (step_commits _ _ H) as [E|(c & E & _)]; rewrite IH, E; [by exists cs|].
  exists (c :: cs). by rewrite <- app_assoc.
Qed.

(** Where the provider fences, a superseded lease commits nothing any more. *)
Lemma le_fenced l l' h f :
  au_fences au = true -> le l l' -> superseded l h -> fenced_by h f ->
  exists cs, lg_commits l' = lg_commits l ++ cs /\ Forall (fun c => cm_fence c <> Some f) cs.
Proof.
  intros Ha H. induction H as [l|l l1 l' H _ IH]; intros Hs Hf; [exists []; by rewrite app_nil_r|].
  destruct IH as (cs & -> & Hcs); [|done|].
  { eapply superseded_le, Hs. by apply rtc_once. }
  destruct (step_commits _ _ H) as [->|(c & -> & C)]; [by exists cs|].
  exists (c :: cs). rewrite <- app_assoc. split; [done|]. constructor; [|done].
  intros E. destruct C as (_ & C & _). pose proof (C f Ha E) as Hc.
  destruct Hf as (E1 & E2 & E3). unfold fence_current in Hc. rewrite E1, E2, E3 in Hc.
  by eapply superseded_current.
Qed.
End Ledger.

(** ** Operations that are transactions *)

Section Worlds.
Context {D : Type} (au : authority) (good : D -> Prop) (ledger_of : D -> ledger).

(** Other clients keep the tables good and only make steps of the ledger. *)
Definition lawful_event (e : event D) : Prop :=
  match e with
  | Foreign f => forall d, good d -> good (f d) /\ ledger_le au (ledger_of d) (ledger_of (f d))
  | _ => True
  end.
Definition state_ok (w : world D) : Prop := good (wd_durable w) /\ Forall lawful_event (wd_weather w).
Definition state_ledger (w : world D) : ledger := ledger_of (wd_durable w).

Lemma settle_lawful d es d' fate es' :
  settle d es = (d', fate, es') -> good d -> Forall lawful_event es ->
  good d' /\ ledger_le au (ledger_of d) (ledger_of d') /\ Forall lawful_event es'.
Proof.
  revert d; induction es as [|e es IH]; intros d; cbn; [by intros [= <- <- <-]|].
  intros H Hd [He Hes]%Forall_cons. destruct e as [f| | |]; try (by injection H as <- <- <-).
  destruct (He d Hd) as [Hg Hl]. destruct (IH (f d) H Hg Hes) as (? & ? & ?). split_and!; [done|by etrans|done].
Qed.

(** What a transaction's body promises when the ledger has been [l0] before; [R]
    as in [steps_with]. *)
Definition body_steps {A} (l0 : ledger) (body : D -> result (A * D)) (R : A -> option (relation ledger)) : Prop :=
  forall d, good d -> ledger_le au l0 (ledger_of d) ->
  match body d with
  | Ok (a, d') => good d' /\ match R a with
                             | Some R => meanwhile au R (ledger_of d) (ledger_of d')
                             | None => ledger_le au (ledger_of d) (ledger_of d')
                             end
  | Raise _ => True
  end.
(** What is said to have happened are steps. *)
Definition happenings {A} (R : A -> option (relation ledger)) : Prop :=
  forall a S l l', R a = Some S -> S l l' -> ledger_le au l l'.

Lemma transact_steps {A} (body : D -> result (A * D)) R w :
  happenings R -> body_steps (state_ledger w) body R -> steps_with au state_ok state_ledger (transact body) w R.
Proof.
  intros HR Hb [Hg Hw]. unfold transact, state_ok, state_ledger in *.
  destruct (settle (wd_durable w) (wd_weather w)) as [[d fate] es] eqn:E.
  destruct (settle_lawful _ _ _ _ _ E Hg Hw) as (Hd & Hl & Hes). specialize (Hb d Hd Hl).
  destruct fate as [|e0|], (body d) as [[a d']|e]; cbn [wd_durable wd_weather]; try (by split; [split|]).
  - destruct Hb as [Hd' Hb]. split; [by split|]. destruct (R a); [by eapply meanwhile_extend|by etrans].
  - destruct Hb as [Hd' Hb]. split; [by split|]. etrans; [exact Hl|].
    destruct (R a) as [S|] eqn:Ea; [|done]. eapply meanwhile_le; [|exact Hb]. intros; by eapply HR.
Qed.
End Worlds.

(** ** Composing operations *)

Section Steps.
Context {W : Type} (au : authority) (inv : W -> Prop) (ledger_of : W -> ledger).
Abbreviation steps := (steps_with au inv ledger_of).

(** A computation on the answer that leaves the world alone. *)
Lemma steps_answer {A B} (m : M W A) (k : A -> M W B) (R : A -> option (relation ledger)) (S : B -> option (relation ledger)) w :
  happenings au R -> steps m w R ->
  (forall a w, (k a w).2 = w /\ match (k a w).1 with
                               | Ok b => match S b with Some T => exists U, R a = Some U /\ forall l l', U l l' -> T l l' | None => True end
                               | Raise _ => True
                               end) ->
  steps (m ≫= k) w S.
Proof.
  intros HR Hm Hk Hi. specialize (Hm Hi). unfold mbind, M_bind. destruct (m w) as [[a|e] w']; [|done].
  destruct (Hk a w') as [H2 H1]. destruct (k a w') as [[b|e] w'']; cbn in *; subst w''; destruct Hm as [Hi' Hm].
  - split; [done|]. destruct (S b) as [T|].
    + destruct H1 as (U & HU & HI). rewrite HU in Hm. by eapply meanwhile_impl.
    + destruct (R a) as [U|] eqn:Ea; [|done]. eapply meanwhile_le; [|exact Hm]. intros; by eapply HR.
  - split; [done|]. destruct (R a) as [U|] eqn:Ea; [|done]. eapply meanwhile_le; [|exact Hm]. intros; by eapply HR.
Qed.
End Steps.

(** ** The inherited compare-and-set *)

(** It answers no only if the cursor was another one at some moment; when it
    answers yes its cursor was committed, over whatever cursor stood there by
    then, and under no fence.  So it keeps the promise of [compare_and_set] only
    where nothing happens in between. *)
Lemma default_compare_and_set_steps {W : Type} (au : authority) (issued : FencingToken -> Prop) (inv : W -> Prop) (ledger_of : W -> ledger)
    {WS : WatermarkStore W} {WL : WatermarkLaws au issued inv ledger_of WS} s e x c f w :
  steps_with au inv ledger_of (default_compare_and_set s e x c f) w (fun b =>
    Some (if b : bool then fun l l' => exists y, commits au (Commit s e y c None) l l'
          else fun l l' => cursor_of (lg_commits l) s e <> x /\ idles l l')).
Proof.
  intros Hi. unfold default_compare_and_set, mbind, M_bind.
  pose proof (wl_get au issued inv ledger_of s e w Hi) as H. destruct (get_cursor s e w) as [[stored|err] w1]; [|done].
  destruct H as [Hi1 H]. assert (ledger_le au (ledger_of w) (ledger_of w1)) as Hl.
  { eapply meanwhile_le; [|exact H]. intros l l' [_ Hd]. by apply idles_le. }
  destruct (bool_decide (stored = x)) eqn:E; cbn [negb].
  - pose proof (wl_set au issued inv ledger_of s e c w1 Hi1) as H'. destruct (set_cursor s e c w1) as [[[]|err] w2]; destruct H' as [Hi2 H'].
    + split; [done|]. eapply meanwhile_extend; [exact Hl|exact H'|done].
    + split; [done|]. by etrans.
  - apply bool_decide_eq_false in E. split; [done|]. eapply meanwhile_impl; [|exact H]. intros l l' [<- Hd]. done.
Qed.
