(* ===== verification/StatePg.v ===== *)
(** * The PostgreSQL state provider ([providers/postgresql/state.py])

    Leases and watermarks in two tables of one schema; the run history is in
    [RunHistory].  Every operation is one transaction; a statement reads the server's clock once, and
    the clock may move on between statements. *)

From S2P Require Import Prelude Transactions Regex PyStr StatePort.

Local Open Scope string_scope.
Local Open Scope Z_scope.
Local Open Scope list_scope.

(** ** Tables *)

(** dander_pipeline_leases. *)
Record lease_row : Type := LeaseRow {
  lr_run_id : option string; lr_fencing_token : Z; lr_heartbeat_at : option Z; lr_lease_expires_at : Z;
}.

(** The tables by their primary keys - watermarks without their updated_at,
    which nothing reads -, the server's clock with the time each of
    the next statements takes and, for the proofs only, the cursor commits. *)
Record state_db : Type := StateDb {
  sd_leases : gmap string lease_row;
  sd_watermarks : gmap (string * string) string;
  sd_clock : Z;
  sd_ticks : list nat;
  sd_commits : list commit;
}.
Definition with_leases (m : gmap string lease_row) (d : state_db) : state_db :=
  StateDb m (sd_watermarks d) (sd_clock d) (sd_ticks d) (sd_commits d).

(** [clock_timestamp()], in microseconds. *)
Definition clock_timestamp : M state_db Z := fun d =>
  match sd_ticks d with
  | [] => (Ok (sd_clock d), d)
  | n :: ns => let now := sd_clock d + Z.of_nat n in (Ok now, StateDb (sd_leases d) (sd_watermarks d) now ns (sd_commits d))
  end.
Definition seconds (n : Z) : Z := n * 1000000.

(** A statement: a step on the tables. *)
Definition statement {A} (f : state_db -> result A * state_db) : M state_db A := f.

(** The range of BIGINT and the CHECK constraint of fencing_token. *)
Definition token_check (t : Z) : bool := (0 <=? t) && (t <? 2 ^ 63).

(** INSERT ... ON CONFLICT (pipeline_id) DO NOTHING. *)
Definition insert_lease (pipeline_id : string) (row : lease_row) : M state_db unit := fun d =>
  match sd_leases d !! pipeline_id with
  | Some _ => (Ok tt, d)
  | None => (Ok tt, with_leases (<[pipeline_id := row]> (sd_leases d)) d)
  end.

(** UPDATE ... WHERE pipeline_id = %s AND ...: the row updated, if any. *)
Definition update_lease (pipeline_id : string) (where_ : Z -> lease_row -> bool) (set : Z -> lease_row -> lease_row)
    : M state_db (option lease_row) :=
  now ← clock_timestamp;
  statement (fun d =>
    match sd_leases d !! pipeline_id with
    | Some row =>
        if where_ now row
        then if token_check (lr_fencing_token (set now row))
             then (Ok (Some (set now row)), with_leases (<[pipeline_id := set now row]> (sd_leases d)) d)
             else (Raise driver_error, d)
        else (Ok None, d)
    | None => (Ok None, d)
    end).

(** ** Rows of every provider *)

Definition unclaimed : lease_row := LeaseRow None 0 None 0.
Definition lapsed (now : Z) (r : lease_row) : bool := lr_lease_expires_at r <=? now.
Definition claimed (run_id : string) (term now : Z) (r : lease_row) : lease_row :=
  LeaseRow (Some run_id) (lr_fencing_token r + 1) (Some now) (now + term).
Definition owned (lease : LeaseHandle) (r : lease_row) : bool :=
  bool_decide (lr_run_id r = Some (lh_run_id lease)) && (lr_fencing_token r =? lh_fencing_token lease).
Definition owned_now (lease : LeaseHandle) (now : Z) (r : lease_row) : bool := owned lease r && (now <? lr_lease_expires_at r).
Definition renewed (term now : Z) (r : lease_row) : lease_row :=
  LeaseRow (lr_run_id r) (lr_fencing_token r) (Some now) (now + term).
Definition released (now : Z) (r : lease_row) : lease_row := LeaseRow None (lr_fencing_token r) (Some now) now.

(** ** PostgreSQLLeaseStore *)

Record PostgreSQLLeaseStore : Type := {
  pl_lease_seconds : Z;
  pl_authority_id : string;
  pl_authority_epoch : Z;
}.

Section Leases.
Context (s : PostgreSQLLeaseStore).

Definition acquire_body (pipeline_id run_id : string) : M state_db (option lease_row) :=
  _ ← insert_lease pipeline_id unclaimed;
  update_lease pipeline_id lapsed (claimed run_id (seconds (pl_lease_seconds s))).

Definition pg_acquire (pipeline_id run_id : string) : M (world state_db) (option LeaseHandle) :=
  row ← transact (atomically (acquire_body pipeline_id run_id));
  match row with
  | None => mret None
  | Some row =>
      let token := lr_fencing_token row in
      if token <=? 0 then raiseM RuntimeError "PostgreSQL lease returned an invalid fencing token"
      else
        fence ← lift (new_fencing_token {| ft_lease_table := None; ft_pipeline_id := pipeline_id; ft_run_id := run_id;
                                           ft_token := token; ft_authority_id := Some (pl_authority_id s);
                                           ft_authority_epoch := pl_authority_epoch s |});
        mret (Some {| lh_pipeline_id := pipeline_id; lh_run_id := run_id; lh_fencing_token := token;
                      lh_lease_seconds := pl_lease_seconds s; lh_fence := Some fence |})
  end.

(** [cursor.rowcount == 1]. *)
Definition pg_heartbeat (lease : LeaseHandle) : M (world state_db) bool :=
  row ← transact (atomically (update_lease (lh_pipeline_id lease) (owned_now lease) (renewed (seconds (pl_lease_seconds s)))));
  mret (is_some row).
Definition pg_release (lease : LeaseHandle) : M (world state_db) bool :=
  row ← transact (atomically (update_lease (lh_pipeline_id lease) (fun _ => owned lease) released));
  mret (is_some row).

#[export] Instance postgresql_leases : LeaseStore (world state_db) := {
  lease_seconds := pl_lease_seconds s;
  acquire := pg_acquire;
  heartbeat := pg_heartbeat;
  release := pg_release;
}.
End Leases.

(** ** PostgreSQLWatermarkStore *)

Definition select_watermark (source entity : string) : M state_db (option string) := fun d =>
  (Ok (sd_watermarks d !! (source, entity)), d).

(** A row written; the commit is recorded for the proofs. *)
Definition write_watermark (source entity cursor : string) (fence : option FencingToken) : M state_db unit :=
  _ ← clock_timestamp;
  statement (fun d =>
    (Ok tt, StateDb (sd_leases d) (<[(source, entity) := cursor]> (sd_watermarks d)) (sd_clock d) (sd_ticks d)
              (sd_commits d ++ [Commit source entity (sd_watermarks d !! (source, entity)) cursor fence]))).

Definition pg_get_cursor (source entity : string) : M (world state_db) (option string) :=
  transact (atomically (select_watermark source entity)).
Definition pg_set_cursor (source entity cursor : string) : M (world state_db) unit :=
  transact (atomically (write_watermark source entity cursor None)).

(** INSERT ... ON CONFLICT DO NOTHING without an expected cursor, UPDATE ...
    WHERE last_cursor IS NOT DISTINCT FROM it with one: whether a row was written. *)
Definition compare_and_set_body (source entity : string) (expected : option string) (cursor : string)
    (fence : option FencingToken) : M state_db bool :=
  stored ← select_watermark source entity;
  match expected, stored with
  | None, None => _ ← write_watermark source entity cursor fence; mret true
  | Some e, Some c => if bool_decide (c = e) then _ ← write_watermark source entity cursor fence; mret true else mret false
  | _, _ => mret false
  end.
Definition pg_compare_and_set (source entity : string) (expected : option string) (cursor : string)
    (fence : option FencingToken) : M (world state_db) bool :=
  transact (atomically (compare_and_set_body source entity expected cursor fence)).

#[export] Instance postgresql_watermarks : WatermarkStore (world state_db) := {
  get_cursor := pg_get_cursor;
  set_cursor := pg_set_cursor;
  compare_and_set := pg_compare_and_set;
}.
