(* ===== verification/StatePgSpec.v ===== *)
(** * The PostgreSQL state provider keeps its promises

    The leases and watermarks of [StatePg] implement the interface of
    [StatePort] for a provider with the server's clock, under interference and
    connection failures. *)

From S2P Require Import Prelude Transactions Regex PyStr StatePort LedgerSpec StatePg.

Local Open Scope string_scope.
Local Open Scope Z_scope.
Local Open Scope list_scope.

Definition tenancy_of_row (r : lease_row) : tenancy := Tenancy (lr_run_id r) (lr_fencing_token r) (lr_lease_expires_at r).
Definition state_ledger_of (d : state_db) : ledger :=
  Ledger (sd_clock d) (fun p => match sd_leases d !! p with Some r => tenancy_of_row r | None => vacant end) (sd_commits d).

(** Tokens satisfy their constraint; the watermarks are what was committed; the
    clock shows a time since the epoch. *)
Record state_good (d : state_db) : Prop := {
  sg_clock : 0 <= sd_clock d;
  sg_tokens p r : sd_leases d !! p = Some r -> token_check (lr_fencing_token r) = true;
  sg_cursors s e : cursor_of (sd_commits d) s e = sd_watermarks d !! (s, e);
}.

Lemma cursor_of_snoc cs c s e :
  cursor_of (cs ++ [c]) s e = if concerns s e c then Some (cm_cursor c) else cursor_of cs s e.
Proof.
  unfold cursor_of. rewrite filter_app. destruct (concerns s e c) eqn:E.
  - rewrite filter_cons_True, filter_nil, last_snoc by done. done.
  - rewrite filter_cons_False, filter_nil, app_nil_r by congruence. done.
Qed.
Lemma concerns_iff s e c : concerns s e c = true <-> cm_source c = s /\ cm_entity c = e.
Proof. unfold concerns. by rewrite andb_true_iff, !bool_decide_eq_true. Qed.

(** ** Statements *)

Lemma clock_timestamp_spec d :
  exists now d', clock_timestamp d = (Ok now, d') /\ now = sd_clock d' /\ sd_clock d <= sd_clock d' /\
    sd_leases d' = sd_leases d /\ sd_watermarks d' = sd_watermarks d /\ sd_commits d' = sd_commits d.
Proof.
  unfold clock_timestamp. destruct (sd_ticks d) as [|n ns]; eexists _, _; (split; [reflexivity|]); cbn; split_and!; try done; lia.
Qed.
Lemma clock_idles d d' :
  sd_clock d <= sd_clock d' -> sd_leases d' = sd_leases d -> sd_commits d' = sd_commits d -> idles (state_ledger_of d) (state_ledger_of d').
Proof. intros Hc Hl Hm. unfold idles, state_ledger_of; cbn. by rewrite Hl. Qed.
Lemma same_good d d' :
  sd_clock d <= sd_clock d' -> sd_leases d' = sd_leases d -> sd_watermarks d' = sd_watermarks d -> sd_commits d' = sd_commits d -> state_good d -> state_good d'.
Proof. intros E0 E1 E2 E3 []. split; rewrite ?E1, ?E2, ?E3; auto; lia. Qed.

(** One row of the leases changes. *)
Lemma turn_row d p r' :
  turns p (tenancy_of_row r') (state_ledger_of d) (state_ledger_of (with_leases (<[p := r']> (sd_leases d)) d)).
Proof.
  unfold turns, state_ledger_of; cbn. split_and!; [done..| |].
  - by rewrite lookup_insert_eq.
  - intros q Hq. by rewrite lookup_insert_ne.
Qed.
Lemma row_good d p r' : token_check (lr_fencing_token r') = true -> state_good d -> state_good (with_leases (<[p := r']> (sd_leases d)) d).
Proof.
  intros Ht []. split; [done| |done]. cbn. intros q r. destruct (decide (q = p)) as [->|Hq].
  - rewrite lookup_insert_eq. by intros [= <-].
  - rewrite lookup_insert_ne by done. apply sg_tokens0.
Qed.

Lemma insert_unclaimed d p :
  state_good d ->
  exists d', insert_lease p unclaimed d = (Ok tt, d') /\ state_good d' /\ idles (state_ledger_of d) (state_ledger_of d') /\
    exists r, sd_leases d' !! p = Some r.
Proof.
  intros Hg. unfold insert_lease. destruct (sd_leases d !! p) as [r|] eqn:E.
  - exists d. split_and!; [done..| |by exists r]. unfold idles. done.
  - eexists. split_and!; [done|by apply row_good| |].
    + unfold idles, state_ledger_of; cbn. split_and!; [done..|]. intros q. destruct (decide (q = p)) as [->|Hq].
      * by rewrite lookup_insert_eq, E.
      * by rewrite lookup_insert_ne.
    + cbn. rewrite lookup_insert_eq. by eexists.
Qed.

(** UPDATE: either nothing but time happened, or one row turned. *)
Lemma update_lease_spec d p where_ set_ :
  state_good d ->
  match update_lease p where_ set_ d with
  | (Ok o, d') =>
      state_good d' /\
      exists d1, state_good d1 /\ idles (state_ledger_of d) (state_ledger_of d1) /\ sd_leases d1 = sd_leases d /\
      match o with
      | None => d' = d1
      | Some r' => exists r, sd_leases d !! p = Some r /\ where_ (sd_clock d1) r = true /\ r' = set_ (sd_clock d1) r /\
                     token_check (lr_fencing_token r') = true /\
                     turns p (tenancy_of_row r') (state_ledger_of d1) (state_ledger_of d')
      end
  | (Raise _, _) => True
  end.
Proof.
  intros Hg. unfold update_lease, mbind, M_bind, statement.
  destruct (clock_timestamp_spec d) as (now & d1 & -> & -> & Hc & Hl & Hw & Hm).
  pose proof (same_good _ _ Hc Hl Hw Hm Hg) as Hg1. pose proof (clock_idles _ _ Hc Hl Hm) as Hi.
  destruct (sd_leases d1 !! p) as [r|] eqn:E.
  - destruct (where_ (sd_clock d1) r) eqn:Ew; [destruct (token_check _) eqn:Et|].
    + split; [by apply row_good|]. exists d1. split_and!; [done..|]. exists r. rewrite <- Hl.
      split_and!; [done..|]. apply turn_row.
    + done.
    + split; [done|]. by exists d1.
  - split; [done|]. by exists d1.
Qed.

(** ** Leases *)

Section Leases.
Context (s : PostgreSQLLeaseStore).

Definition postgresql_authority : authority :=
  {| au_term := seconds (pl_lease_seconds s); au_server_time := true; au_fences := false |}.
Abbreviation au := postgresql_authority.
Abbreviation ok := (state_ok au state_good state_ledger_of).
Abbreviation ledger_of := (state_ledger state_ledger_of).

(** The handle of a row as far as the ledger sees it. *)
Definition handle_of (p run : string) (r : lease_row) : LeaseHandle :=
  {| lh_pipeline_id := p; lh_run_id := run; lh_fencing_token := lr_fencing_token r;
     lh_lease_seconds := pl_lease_seconds s; lh_fence := None |}.

Lemma reads_now l : reads au l (lg_clock l).
Proof. done. Qed.

Lemma acquire_body_steps l0 p run :
  body_steps au state_good state_ledger_of l0 (atomically (acquire_body s p run))
    (fun o => match o with Some r => Some (grants au (handle_of p run r)) | None => None end).
Proof.
  intros d Hg _. unfold atomically, acquire_body.
  destruct (insert_unclaimed d p Hg) as (d0 & E0 & Hg0 & Hi0 & r0 & Hr0).
  unfold mbind, M_bind. rewrite E0.
  pose proof (update_lease_spec d0 p lapsed (claimed run (seconds (pl_lease_seconds s))) Hg0) as H.
  destruct (update_lease _ _ _ d0) as [[o|e] d']; [|done].
  destruct H as (Hg' & d1 & Hg1 & Hi1 & Hl1 & H). split; [done|].
  assert (ledger_le au (state_ledger_of d) (state_ledger_of d1)) by (etrans; by apply idles_le).
  destruct o as [r'|]; [|by subst].
  destruct H as (r & Hr & Hw & -> & Ht & T). eapply meanwhile_between; [done| |done].
  exists (sd_clock d1). cbn. rewrite Hl1, Hr. cbn. split_and!; [apply (reads_now (state_ledger_of d1))| |done|done].
  unfold lapsed in Hw. by apply Z.leb_le.
Qed.

Lemma owned_current lease r d :
  sd_leases d !! lh_pipeline_id lease = Some r -> owned lease r = true -> current (state_ledger_of d) lease.
Proof.
  intros Hr [Ho Ht]%andb_true_iff. apply bool_decide_eq_true in Ho. apply Z.eqb_eq in Ht.
  unfold current, holds, state_ledger_of; cbn. by rewrite Hr.
Qed.

Lemma heartbeat_body_steps l0 h :
  body_steps au state_good state_ledger_of l0
    (atomically (update_lease (lh_pipeline_id h) (owned_now h) (renewed (seconds (pl_lease_seconds s)))))
    (fun o => if_true (renews au h) (is_some o)).
Proof.
  intros d Hg _. unfold atomically.
  pose proof (update_lease_spec d (lh_pipeline_id h) (owned_now h) (renewed (seconds (pl_lease_seconds s))) Hg) as H.
  destruct (update_lease _ _ _ d) as [[o|e] d']; [|done].
  destruct H as (Hg' & d1 & Hg1 & Hi1 & Hl1 & H). split; [done|].
  destruct o as [r'|]; cbn; [|subst; by apply idles_le].
  destruct H as (r & Hr & [Ho Hn]%andb_true_iff & -> & Ht & T). rewrite <- Hl1 in Hr.
  eapply meanwhile_between; [by apply idles_le| |done].
  pose proof (owned_current _ _ _ Hr Ho) as Hc. exists (sd_clock d1). split_and!; [done..| |].
  - cbn. rewrite Hr. by apply Z.ltb_lt.
  - apply andb_true_iff in Ho as [Ho Htk]. apply bool_decide_eq_true in Ho. apply Z.eqb_eq in Htk.
    unfold tenancy_of_row in T; cbn in T. by rewrite Ho, Htk in T.
Qed.

Lemma release_body_steps l0 h :
  body_steps au state_good state_ledger_of l0 (atomically (update_lease (lh_pipeline_id h) (fun _ => owned h) released))
    (fun o => if_true (gives_up au h) (is_some o)).
Proof.
  intros d Hg _. unfold atomically.
  pose proof (update_lease_spec d (lh_pipeline_id h) (fun _ => owned h) released Hg) as H.
  destruct (update_lease _ _ _ d) as [[o|e] d']; [|done].
  destruct H as (Hg' & d1 & Hg1 & Hi1 & Hl1 & H). split; [done|].
  destruct o as [r'|]; cbn; [|subst; by apply idles_le].
  destruct H as (r & Hr & Ho & -> & Ht & T). rewrite <- Hl1 in Hr.
  eapply meanwhile_between; [by apply idles_le| |done].
  pose proof (owned_current _ _ _ Hr Ho) as Hc. exists (sd_clock d1). split_and!; [done..|].
  apply andb_true_iff in Ho as [_ Htk]. apply Z.eqb_eq in Htk. unfold tenancy_of_row in T; cbn in T. by rewrite Htk in T.
Qed.

Lemma pg_acquire_steps p run w :
  steps_with au ok ledger_of (pg_acquire s p run) w (fun o =>
    match o with Some h => Some (fun l l' => lh_pipeline_id h = p /\ lh_run_id h = run /\ grants au h l l' /\ forall f, lh_fence h = Some f -> any_token f /\ fenced_by h f)
           | None => None end).
Proof.
  eapply steps_answer; [|apply transact_steps, acquire_body_steps|].
  1,2: intros [r|] S l l' [= <-] H; by eapply grants_le.
  intros [r|] w'; [|done]. cbv zeta. destruct (lr_fencing_token r <=? 0); [done|].
  unfold mbind, M_bind, lift. unfold new_fencing_token.
  destruct (FencingToken_post_init _) as [[]|e]; cbn; [|done].
  split; [done|]. eexists. split; [done|]. intros l l' H. split_and!; [done..|]. by intros f [= <-].
Qed.

Lemma pg_update_steps {A} (body : state_db -> result (option A * state_db)) R w :
  (forall l l', R l l' -> ledger_le au l l') ->
  body_steps au state_good state_ledger_of (ledger_of w) body (fun o => if_true R (is_some o)) ->
  steps_with au ok ledger_of (row ← transact body; mret (is_some row)) w (if_true R).
Proof.
  intros HR Hb. eapply steps_answer; [|apply transact_steps, Hb|].
  1,2: intros [r|] S l l' [= <-] H; by apply HR.
  intros [r|] w'; [|done]. cbn. split; [done|]. by exists R.
Qed.

#[export] Instance postgresql_lease_laws : LeaseLaws au any_token ok ledger_of (postgresql_leases s).
Proof.
  split.
  - apply pg_acquire_steps.
  - intros h w. apply pg_update_steps; [apply renews_le|apply heartbeat_body_steps].
  - intros h w. apply pg_update_steps; [apply gives_up_le|apply release_body_steps].
Qed.

(** ** Watermarks *)

Lemma write_watermark_steps d source entity cursor fence expected :
  state_good d -> expected = (sd_watermarks d !! (source, entity)) ->
  exists d', write_watermark source entity cursor fence d = (Ok tt, d') /\ state_good d' /\
    meanwhile au (commits au (Commit source entity expected cursor fence)) (state_ledger_of d) (state_ledger_of d').
Proof.
  intros Hg ->. unfold write_watermark, mbind, M_bind, statement.
  destruct (clock_timestamp_spec d) as (now & d1 & -> & -> & Hc & Hl & Hw & Hm).
  pose proof (same_good _ _ Hc Hl Hw Hm Hg) as Hg1. eexists. split; [reflexivity|]. split.
  - destruct Hg1 as [Hc1 Ht Hcur]. split; [done..|]. intros x e. cbn [sd_commits sd_watermarks]. rewrite cursor_of_snoc.
    destruct (concerns x e _) eqn:E.
    + apply concerns_iff in E as [<- <-]; cbn. by rewrite lookup_insert_eq.
    + rewrite lookup_insert_ne; [apply Hcur|]. intros [= <- <-]. by rewrite (proj2 (concerns_iff _ _ _)) in E.
  - eapply meanwhile_between; [apply idles_le; by eapply clock_idles|..|done].
    pose proof (sg_cursors _ Hg1 source entity) as Hx. unfold commits. rewrite <- Hw.
    split_and!; [by symmetry|by intros ? [=]|done..].
Qed.

Lemma compare_and_set_body_steps l0 source entity expected cursor fence :
  body_steps au state_good state_ledger_of l0 (atomically (compare_and_set_body source entity expected cursor fence))
    (fun b => Some (if b : bool then commits au (Commit source entity expected cursor fence)
                    else fun l l' => cursor_of (lg_commits l) source entity <> expected /\ idles l l')).
Proof.
  intros d Hg _. unfold atomically, compare_and_set_body, select_watermark, mbind, M_bind.
  assert (cursor_of (lg_commits (state_ledger_of d)) source entity = sd_watermarks d !! (source, entity)) as Hcur
    by apply (sg_cursors _ Hg).
  destruct (sd_watermarks d !! (source, entity)) as [c|] eqn:E, expected as [e|];
    try case_bool_decide as D;
    try (edestruct write_watermark_steps as (d' & -> & Hg' & M); [exact Hg|symmetry; exact E|]; cbn; split; [done|]; by subst);
    cbn; (split; [done|]); (eapply meanwhile_between; [reflexivity| |reflexivity]);
    rewrite Hcur; (split; [congruence|]); by unfold idles.
Qed.

#[export] Instance postgresql_watermark_laws : WatermarkLaws au any_token ok ledger_of postgresql_watermarks.
Proof.
  split.
  - intros x e w. apply transact_steps; [intros a S l l' [= <-] [_ H]; by apply idles_le|].
    intros d Hg _. cbn. split; [done|]. eapply meanwhile_between; [reflexivity| |reflexivity].
    split; [apply (sg_cursors _ Hg)|by unfold idles].
  - intros x e c w. apply transact_steps; [intros a S l l' [= <-] [v H]; by eapply commits_le|].
    intros d Hg _. unfold atomically. edestruct write_watermark_steps as (d' & E & Hg' & M); [exact Hg|reflexivity|].
    rewrite E. split; [done|]. eapply meanwhile_impl, M. eauto.
  - intros x e v c f w _. apply transact_steps, compare_and_set_body_steps.
    intros [] S l l' [= <-] H; [by eapply commits_le|]. destruct H. by apply idles_le.
Qed.
End Leases.
