(* ===== verification/StateSqlite.v ===== *)
(** * The local state provider ([SqliteLeaseStore], [SqliteWatermarkStore])

    Leases and watermarks in one SQLite file.  The time is read before the
    transaction that uses it, so it may be old by then; it is a float whose
    steps are 2^-22 seconds until 2038, hence sums with whole seconds are
    exact.  The tables are those of [StatePg].  The second part shows that the
    stores keep the promises of [StatePort] for a provider without a server's
    clock. *)

From S2P Require Import Prelude Transactions Regex PyStr StatePort LedgerSpec StatePg StatePgSpec.

Local Open Scope string_scope.
Local Open Scope Z_scope.
Local Open Scope list_scope.

(** [time()], in steps of a float. *)
Definition time : M (world state_db) Z := fun w => (Ok (sd_clock (wd_durable w)), w).
Definition float_seconds (n : Z) : Z := n * 2 ^ 22.

(** Binding an [int] to a parameter. *)
Definition bind_integer (n : Z) : result unit :=
  reject_if (negb ((- 2 ^ 63 <=? n) && (n <? 2 ^ 63))) OverflowError "Python int too large to convert to SQLite INTEGER".

(** UPDATE pipeline_leases ... WHERE pipeline_id = ? AND ...: the row count is 1. *)
Definition update_row (pipeline_id : string) (where_ : lease_row -> bool) (set : lease_row -> lease_row) : M state_db bool := fun d =>
  match sd_leases d !! pipeline_id with
  | Some row => if where_ row then (Ok true, with_leases (<[pipeline_id := set row]> (sd_leases d)) d) else (Ok false, d)
  | None => (Ok false, d)
  end.

(** ** SqliteLeaseStore *)

Record SqliteLeaseStore : Type := { sl_lease_seconds : Z }.
Definition new_sqlite_leases (lease_seconds : Z) : result SqliteLeaseStore :=
  n ← validated_lease_seconds lease_seconds; Ok {| sl_lease_seconds := n |}.

Section Leases.
Context (s : SqliteLeaseStore).
Definition term : Z := float_seconds (sl_lease_seconds s).

(** The transaction of [acquire]: the token claimed, if any. *)
Definition claim_lease (pipeline_id run_id : string) (now : Z) : M state_db (option Z) := fun d =>
  match sd_leases d !! pipeline_id with
  | None =>
      (Ok (Some 1), with_leases (<[pipeline_id := LeaseRow (Some run_id) 1 (Some now) (now + term)]> (sd_leases d)) d)
  | Some row =>
      if lapsed now row
      then (_ ← lift (bind_integer (lr_fencing_token row + 1));
            _ ← update_row pipeline_id (fun _ => true) (claimed run_id term now);
            mret (Some (lr_fencing_token row + 1))) d
      else (Ok None, d)
  end.

Definition sqlite_acquire (pipeline_id run_id : string) : M (world state_db) (option LeaseHandle) :=
  now ← time;
  claimed ← transact (atomically (claim_lease pipeline_id run_id now));
  mret (match claimed with
        | Some token => Some {| lh_pipeline_id := pipeline_id; lh_run_id := run_id; lh_fencing_token := token;
                                lh_lease_seconds := sl_lease_seconds s; lh_fence := None |}
        | None => None
        end).

Definition sqlite_update (lease : LeaseHandle) (where_ : Z -> lease_row -> bool) (set : Z -> lease_row -> lease_row)
    : M (world state_db) bool :=
  now ← time;
  _ ← lift (bind_integer (lh_fencing_token lease));
  transact (atomically (update_row (lh_pipeline_id lease) (where_ now) (set now))).
Definition sqlite_heartbeat (lease : LeaseHandle) : M (world state_db) bool :=
  sqlite_update lease (owned_now lease) (renewed term).
Definition sqlite_release (lease : LeaseHandle) : M (world state_db) bool :=
  sqlite_update lease (fun _ => owned lease) released.

#[export] Instance sqlite_leases : LeaseStore (world state_db) := {
  lease_seconds := sl_lease_seconds s;
  acquire := sqlite_acquire;
  heartbeat := sqlite_heartbeat;
  release := sqlite_release;
}.
End Leases.

(** ** SqliteWatermarkStore *)

(** INSERT ... ON CONFLICT DO UPDATE; the commit is recorded for the proofs. *)
Definition upsert_watermark (source entity cursor : string) (fence : option FencingToken) : M state_db unit := fun d =>
  (Ok tt, StateDb (sd_leases d) (<[(source, entity) := cursor]> (sd_watermarks d)) (sd_clock d) (sd_ticks d)
            (sd_commits d ++ [Commit source entity (sd_watermarks d !! (source, entity)) cursor fence])).

Definition sqlite_get_cursor (source entity : string) : M (world state_db) (option string) :=
  transact (atomically (select_watermark source entity)).
Definition sqlite_set_cursor (source entity cursor : string) : M (world state_db) unit :=
  transact (atomically (upsert_watermark source entity cursor None)).
Definition sqlite_compare_and_set (source entity : string) (expected : option string) (cursor : string)
    (fence : option FencingToken) : M (world state_db) bool :=
  transact (atomically
    (current ← select_watermark source entity;
     if negb (bool_decide (current = expected)) then mret false
     else _ ← upsert_watermark source entity cursor fence; mret true)).

#[export] Instance sqlite_watermarks : WatermarkStore (world state_db) := {
  get_cursor := sqlite_get_cursor;
  set_cursor := sqlite_set_cursor;
  compare_and_set := sqlite_compare_and_set;
}.

(** ** The stores keep their promises *)

Section Laws.
Context (s : SqliteLeaseStore).
Definition local_authority : authority := {| au_term := term s; au_server_time := false; au_fences := false |}.
Abbreviation au := local_authority.
Abbreviation ok := (state_ok au state_good state_ledger_of).
Abbreviation ledger_of := (state_ledger state_ledger_of).

(** The time a transaction uses was read before it. *)
Lemma reads_earlier w d : ledger_le au (ledger_of w) (state_ledger_of d) -> reads au (state_ledger_of d) (sd_clock (wd_durable w)).
Proof. intros H. split; [|done]. apply (le_clock _ _ _ H). Qed.

Lemma update_row_steps T w p where_ set_ :
  (forall d r, sd_leases d !! p = Some r -> where_ r = true -> reads au (state_ledger_of d) (sd_clock (wd_durable w)) ->
     lr_fencing_token (set_ r) = lr_fencing_token r /\
     T (state_ledger_of d) (state_ledger_of (with_leases (<[p := set_ r]> (sd_leases d)) d))) ->
  body_steps au state_good state_ledger_of (ledger_of w) (atomically (update_row p where_ set_)) (if_true T).
Proof.
  intros H d Hg Hl. unfold atomically, update_row.
  destruct (sd_leases d !! p) as [r|] eqn:E; [destruct (where_ r) eqn:Ew|]; cbn; try done.
  destruct (H d r E Ew (reads_earlier _ _ Hl)) as [Ht HT]. split; [|by eapply meanwhile_between].
  apply row_good; [|done]. rewrite Ht. by eapply sg_tokens.
Qed.

Lemma sqlite_update_steps lease where_ set_ T w :
  (forall l l', T l l' -> ledger_le au l l') ->
  (forall now d r, sd_leases d !! lh_pipeline_id lease = Some r -> where_ now r = true -> reads au (state_ledger_of d) now ->
     lr_fencing_token (set_ now r) = lr_fencing_token r /\
     T (state_ledger_of d) (state_ledger_of (with_leases (<[lh_pipeline_id lease := set_ now r]> (sd_leases d)) d))) ->
  steps_with au ok ledger_of (sqlite_update lease where_ set_) w (if_true T).
Proof.
  intros HT H. unfold sqlite_update, time, mbind, M_bind, lift.
  unfold steps_with. destruct (bind_integer _); [|by split].
  apply transact_steps; [intros [] S l l' [= <-] ?; by apply HT|]. apply update_row_steps. eauto.
Qed.

Lemma claim_lease_steps w p run :
  0 <= sd_clock (wd_durable w) ->
  body_steps au state_good state_ledger_of (ledger_of w) (atomically (claim_lease s p run (sd_clock (wd_durable w))))
    (fun o => match o with
              | Some t => Some (grants au {| lh_pipeline_id := p; lh_run_id := run; lh_fencing_token := t;
                                             lh_lease_seconds := sl_lease_seconds s; lh_fence := None |})
              | None => None
              end).
Proof.
  intros H0 d Hg Hl. pose proof (reads_earlier _ _ Hl) as Hr. unfold atomically, claim_lease.
  destruct (sd_leases d !! p) as [r|] eqn:E.
  - destruct (lapsed _ r) eqn:Ew; [|done]. unfold mbind, M_bind, lift, bind_integer, reject_if.
    destruct (negb _) eqn:Eb; [done|]. cbn. unfold update_row. rewrite E. cbn.
    inv_ok. to_prop. pose proof (sg_tokens _ Hg p r E) as Ht. unfold token_check in Ht. inv_ok. to_prop. unfold lapsed in Ew. to_prop.
    split.
    + apply row_good; [|done]. unfold token_check; cbn. apply andb_true_iff. rewrite Z.leb_le, Z.ltb_lt. lia.
    + eapply meanwhile_between; [done| |done]. eexists. split; [exact Hr|].
      cbn. rewrite E. split_and!; [done..|apply turn_row].
  - split; [by apply row_good|]. eapply meanwhile_between; [done| |done]. eexists. split; [exact Hr|].
    cbn. rewrite E. split_and!; [done..|apply (turn_row d p (LeaseRow (Some run) 1 _ _))].
Qed.

Lemma upsert_watermark_steps d source entity cursor fence expected :
  state_good d -> expected = sd_watermarks d !! (source, entity) ->
  exists d', upsert_watermark source entity cursor fence d = (Ok tt, d') /\ state_good d' /\
    meanwhile au (commits au (Commit source entity expected cursor fence)) (state_ledger_of d) (state_ledger_of d').
Proof.
  intros Hg ->. eexists. split; [reflexivity|]. split.
  - destruct Hg as [Hc Ht Hcur]. split; [done..|]. intros x e. cbn [sd_commits sd_watermarks]. rewrite cursor_of_snoc.
    destruct (concerns x e _) eqn:E.
    + apply concerns_iff in E as [<- <-]; cbn. by rewrite lookup_insert_eq.
    + rewrite lookup_insert_ne; [apply Hcur|]. intros [= <- <-]. by rewrite (proj2 (concerns_iff _ _ _)) in E.
  - pose proof (sg_cursors _ Hg source entity) as Hx. eapply meanwhile_between; [done| |done].
    unfold commits. split_and!; [by symmetry|by intros ? [=]|done..].
Qed.

(** The operations of [SqliteLeaseStore] and [SqliteWatermarkStore]. *)
#[export] Instance sqlite_lease_laws : LeaseLaws au any_token ok ledger_of (sqlite_leases s).
Proof.
  split.
  - intros p run w Hw. pose proof (claim_lease_steps w p run (sg_clock _ (proj1 Hw))) as Hb.
    eassert (happenings au _) as HR; [|refine (steps_answer au ok ledger_of _ _ _ _ w HR (transact_steps _ _ _ _ _ w HR Hb) _ Hw)].
    { intros [t|] S l l' [= <-] H; by eapply grants_le. }
    intros [t|] w'; [|done]. cbn. split; [done|]. eexists. split; [done|]. intros l l' H. by split_and!; [..|intros f [=]].
  - intros h w. apply sqlite_update_steps; [apply renews_le|]. intros now d r Hr [Ho Hn]%andb_true_iff Hnow.
    split; [done|]. exists now. pose proof (owned_current _ _ _ Hr Ho) as Hc.
    split_and!; [done..| |]; [cbn; rewrite Hr; by apply Z.ltb_lt|].
    apply andb_true_iff in Ho as [Ho Ht]. apply bool_decide_eq_true in Ho. apply Z.eqb_eq in Ht.
    rewrite <- Ht, <- Ho. apply turn_row.
  - intros h w. apply sqlite_update_steps; [apply gives_up_le|]. intros now d r Hr Ho Hnow.
    split; [done|]. exists now. pose proof (owned_current _ _ _ Hr Ho) as Hc. split_and!; [done..|].
    apply andb_true_iff in Ho as [_ Ht]. apply Z.eqb_eq in Ht. rewrite <- Ht. apply turn_row.
Qed.

#[export] Instance sqlite_watermark_laws : WatermarkLaws au any_token ok ledger_of sqlite_watermarks.
Proof.
  split.
  - intros x e w. apply transact_steps; [intros a S l l' [= <-] [_ H]; by apply idles_le|].
    intros d Hg _. cbn. split; [done|]. eapply meanwhile_between; [reflexivity| |reflexivity].
    split; [apply (sg_cursors _ Hg)|by unfold idles].
  - intros x e c w. apply transact_steps; [intros a S l l' [= <-] [v H]; by eapply commits_le|].
    intros d Hg _. unfold atomically. edestruct upsert_watermark_steps as (d' & E & Hg' & M); [exact Hg|reflexivity|].
    rewrite E. split; [done|]. eapply meanwhile_impl, M. eauto.
  - intros x e v c f w _. apply transact_steps.
    { intros [] S l l' [= <-] H; [by eapply commits_le|]. destruct H. by apply idles_le. }
    intros d Hg _. unfold atomically, select_watermark, mbind, M_bind. case_bool_decide as D; cbn [negb].
    + edestruct upsert_watermark_steps as (d' & -> & Hg' & M); [exact Hg|symmetry; exact D|]. by split.
    + cbn. split; [done|]. eapply meanwhile_between; [reflexivity| |reflexivity].
      split; [|by unfold idles]. pose proof (sg_cursors _ Hg x e) as Hc. by intros E; apply D; rewrite <- Hc.
Qed.
End Laws.
