(* ===== verification/StateBigQuery.v ===== *)
(** * The BigQuery state provider ([_bigquery_retry.py], [concurrency.py],
    [BigQueryLeaseStore], [BigQueryWatermarkStore])

    Leases and watermarks in BigQuery tables, which have no keys: a table is a
    list of rows.  A job is one transaction; the service may refuse it, for
    contention too, or its answer may be lost.  A fenced script touches the lease
    row, asserts that it is owned and then merges the cursor. *)

From S2P Require Import Prelude Transactions Regex PyStr Sha256 StatePort StatePg.

Local Open Scope string_scope.
Local Open Scope Z_scope.
Local Open Scope list_scope.

(** ** Retrying *)

Definition CONCURRENT_UPDATE_MESSAGES : list string :=
  ["transaction is aborted due to concurrent update against table"; "could not serialize access to table"].
Definition MAX_ATTEMPTS : nat := 5.

Definition concurrent_update (e : exn) : bool :=
  existsb (fun signature => contains signature (to_lower (exn_msg e))) CONCURRENT_UPDATE_MESSAGES.

(** [submit] stands for [job = submit(); job.result()]. *)
Fixpoint attempts {W A} (budget : nat) (submit : M W A) : M W A :=
  match budget with
  | O => raiseM AssertionError "BigQuery mutation retry loop exited unexpectedly"
  | S budget =>
      try_except submit (fun e =>
        if negb (catches BadRequest e) || negb (concurrent_update e) || bool_decide (budget = O)
        then lift (Raise e) else attempts budget submit)
  end.
Definition run_mutation_with_retry {W A} (submit : M W A) : M W A := attempts MAX_ATTEMPTS submit.

(** ** Tables *)

Abbreviation lease_table := (list (string * lease_row)).
Abbreviation watermark_table := (list ((string * string) * string)).

(** The rows of a key, and those of them a condition selects. *)
Definition has_key {K V} `{EqDecision K} (k : K) (x : K * V) : bool := bool_decide (x.1 = k).
Definition assoc_row {K V} `{EqDecision K} (k : K) (rows : list (K * V)) : option V := snd <$> find (has_key k) rows.
Definition chosen {K V} `{EqDecision K} (k : K) (f : V -> bool) (x : K * V) : bool := has_key k x && f x.2.
Definition update_chosen {K V} `{EqDecision K} (k : K) (f : V -> bool) (g : V -> V) (rows : list (K * V)) : list (K * V) :=
  map (fun x => if chosen k f x then (x.1, g x.2) else x) rows.
Definition count_chosen {K V} `{EqDecision K} (k : K) (f : V -> bool) (rows : list (K * V)) : Z :=
  Z.of_nat (length (filter (fun x => chosen k f x = true) rows)).

(** The tables that exist, the clock with the time each of the next statements
    takes and, for the proofs only, the cursor commits. *)
Record bq_db : Type := BqDb {
  bq_leases : gmap string lease_table;
  bq_watermarks : option watermark_table;
  bq_clock : Z;
  bq_ticks : list nat;
  bq_commits : list commit;
}.
Definition with_table (t : string) (rows : lease_table) (d : bq_db) : bq_db :=
  BqDb (<[t := rows]> (bq_leases d)) (bq_watermarks d) (bq_clock d) (bq_ticks d) (bq_commits d).
Definition bq_statement {A} (f : bq_db -> result A * bq_db) : M bq_db A := f.

(** [CURRENT_TIMESTAMP()], which a statement evaluates once. *)
Definition current_timestamp : M bq_db Z := fun d =>
  match bq_ticks d with
  | [] => (Ok (bq_clock d), d)
  | n :: ns => let now := bq_clock d + Z.of_nat n in (Ok now, BqDb (bq_leases d) (bq_watermarks d) now ns (bq_commits d))
  end.

(** [ASSERT ... AS m] fails the script. *)
Definition assert_rows (n : Z) (m : string) : M bq_db unit := if n =? 1 then mret tt else raiseM BadRequest m.

(** CREATE TABLE IF NOT EXISTS. *)
Definition create_leases (t : string) : M bq_db unit := fun d =>
  match bq_leases d !! t with
  | Some _ => (Ok tt, d)
  | None => (Ok tt, with_table t [] d)
  end.
Definition create_watermarks : M bq_db unit := fun d =>
  match bq_watermarks d with
  | Some _ => (Ok tt, d)
  | None => (Ok tt, BqDb (bq_leases d) (Some []) (bq_clock d) (bq_ticks d) (bq_commits d))
  end.

(** A table that does not exist. *)
Definition no_table {A} : result A := Raise driver_error.

(** MERGE ... WHEN NOT MATCHED THEN INSERT. *)
Definition merge_lease (t pipeline_id : string) : M bq_db unit := fun d =>
  match bq_leases d !! t with
  | None => (no_table, d)
  | Some rows =>
      if existsb (has_key pipeline_id) rows then (Ok tt, d)
      else (Ok tt, with_table t (rows ++ [(pipeline_id, unclaimed)]) d)
  end.

(** UPDATE ... WHERE pipeline_id = @pipeline_id AND ...: every matching row, and
    how many there are. *)
Definition update_leases (t pipeline_id : string) (where_ : Z -> lease_row -> bool) (set : Z -> lease_row -> lease_row)
    : M bq_db Z :=
  now ← current_timestamp;
  bq_statement (fun d =>
    match bq_leases d !! t with
    | None => (no_table, d)
    | Some rows =>
        let rows' := update_chosen pipeline_id (where_ now) (set now) rows in
        if forallb (fun p : string * lease_row => token_check (lr_fencing_token p.2)) rows'
        then (Ok (count_chosen pipeline_id (where_ now) rows), with_table t rows' d)
        else (Raise driver_error, d)
    end).

(** SELECT fencing_token ... WHERE pipeline_id, run_id, and not expired. *)
Definition select_tokens (t pipeline_id run_id : string) : M bq_db (list Z) :=
  now ← current_timestamp;
  bq_statement (fun d =>
    match bq_leases d !! t with
    | None => (no_table, d)
    | Some rows =>
        (Ok (map (fun p : string * lease_row => lr_fencing_token p.2)
               (filter (fun p => chosen pipeline_id (fun r => bool_decide (lr_run_id r = Some run_id)
                                                            && (now <? lr_lease_expires_at r)) p = true) rows)), d)
    end).

(** ** The client *)

(** What a store remembers to have created. *)
Record ready : Type := { rd_leases : list string; rd_watermarks : bool }.
Abbreviation bq_world := (ready * world bq_db)%type.

(** [client.query(...).result()]: the job's rows or row count. *)
Definition job {A} (body : M bq_db A) : M bq_world A := fun p =>
  let '(r, w) := transact (atomically body) p.2 in (r, (p.1, w)).
Definition mark_ready (f : ready -> ready) : M bq_world unit := fun p => (Ok tt, (f p.1, p.2)).

(** ** BigQueryLeaseStore *)

Record BigQueryLeaseStore : Type := {
  bl_lease_seconds : Z;
  bl_table_prefix : string;
  bl_authority_id : string;
  bl_authority_epoch : Z;
}.
Definition check_bigquery_names (project dataset : string) : result unit :=
  _ ← value_reject (negb (fullmatch dashed_word project)) ("Invalid BigQuery project: " +:+ py_repr project);
  value_reject (negb (fullmatch plain_word dataset)) ("Invalid BigQuery dataset: " +:+ py_repr dataset).
Definition new_bigquery_leases (project dataset : string) (lease_seconds : Z) (authority_id : option string)
    (authority_epoch : Z) : result BigQueryLeaseStore :=
  _ ← check_bigquery_names project dataset;
  n ← validated_lease_seconds lease_seconds;
  let default := "bigquery:" +:+ project +:+ ":" +:+ dataset in
  Ok {| bl_lease_seconds := n;
        bl_table_prefix := project +:+ "." +:+ dataset +:+ "._dander_lease_";
        bl_authority_id := match authority_id with Some a => if empty a then default else a | None => default end;
        bl_authority_epoch := authority_epoch |}.

Section Leases.
Context (s : BigQueryLeaseStore).

Definition table_for_pipeline (pipeline_id : string) : string :=
  bl_table_prefix s +:+ of_chars (take 16 (chars (sha256_hex (encode pipeline_id)))).

Definition ensure_table (t : string) : M bq_world unit := fun p =>
  if bool_decide (t ∈ rd_leases p.1) then (Ok tt, p)
  else (_ ← job (create_leases t);
        mark_ready (fun r => {| rd_leases := t :: rd_leases r; rd_watermarks := rd_watermarks r |})) p.

Definition bq_acquire (pipeline_id run_id : string) : M bq_world (option LeaseHandle) :=
  let table := table_for_pipeline pipeline_id in
  _ ← ensure_table table;
  _ ← run_mutation_with_retry (job (merge_lease table pipeline_id));
  affected ← run_mutation_with_retry (job (update_leases table pipeline_id lapsed (claimed run_id (seconds (bl_lease_seconds s)))));
  if negb (affected =? 1) then mret None
  else
    rows ← job (select_tokens table pipeline_id run_id);
    match rows with
    | [token] =>
        if token <=? 0 then mret None
        else
          fence ← lift (new_fencing_token {| ft_lease_table := Some table; ft_pipeline_id := pipeline_id; ft_run_id := run_id;
                                             ft_token := token; ft_authority_id := Some (bl_authority_id s);
                                             ft_authority_epoch := bl_authority_epoch s |});
          mret (Some {| lh_pipeline_id := pipeline_id; lh_run_id := run_id; lh_fencing_token := token;
                        lh_lease_seconds := bl_lease_seconds s; lh_fence := Some fence |})
    | _ => mret None
    end.

Definition bq_update (lease : LeaseHandle) (where_ : Z -> lease_row -> bool) (set : Z -> lease_row -> lease_row) : M bq_world bool :=
  let table := table_for_pipeline (lh_pipeline_id lease) in
  _ ← ensure_table table;
  affected ← run_mutation_with_retry (job (update_leases table (lh_pipeline_id lease) where_ set));
  mret (affected =? 1).
Definition bq_heartbeat (lease : LeaseHandle) : M bq_world bool :=
  bq_update lease (owned_now lease) (renewed (seconds (bl_lease_seconds s))).
Definition bq_release (lease : LeaseHandle) : M bq_world bool := bq_update lease (fun _ => owned lease) released.

#[export] Instance bigquery_leases : LeaseStore bq_world := {
  lease_seconds := bl_lease_seconds s;
  acquire := bq_acquire;
  heartbeat := bq_heartbeat;
  release := bq_release;
}.
End Leases.

(** ** BigQueryWatermarkStore *)

Definition ensure_watermarks : M bq_world unit := fun p =>
  if rd_watermarks p.1 then (Ok tt, p)
  else (_ ← job create_watermarks; mark_ready (fun r => {| rd_leases := rd_leases r; rd_watermarks := true |})) p.

Definition select_cursor (source entity : string) : M bq_db (option string) := fun d =>
  match bq_watermarks d with
  | None => (no_table, d)
  | Some rows => (Ok (assoc_row (source, entity) rows), d)
  end.

(** MERGE into the watermarks: the rows with [when_matched] are updated, a row is
    inserted if there is none and [when_absent]; how many changed.  The commit is
    recorded for the proofs. *)
Definition merge_watermark (source entity : string) (when_matched : string -> bool) (when_absent : bool) (cursor : string)
    (fence : option FencingToken) : M bq_db Z :=
  _ ← current_timestamp;
  bq_statement (fun d =>
    match bq_watermarks d with
    | None => (no_table, d)
    | Some rows =>
        let k := (source, entity) in
        let expected := assoc_row k rows in
        let n := if existsb (has_key k) rows then count_chosen k when_matched rows else if when_absent then 1 else 0 in
        let rows' := if existsb (has_key k) rows then update_chosen k when_matched (fun _ => cursor) rows
                     else if when_absent then rows ++ [(k, cursor)] else rows in
        (Ok n, BqDb (bq_leases d) (Some rows') (bq_clock d) (bq_ticks d)
                 (bq_commits d ++ (if n =? 0 then [] else [Commit source entity expected cursor fence])))
    end).

(** The row is touched, not changed: [SET heartbeat_at = heartbeat_at]. *)
Definition fencing_touch (table : string) (fence : FencingToken) : M bq_db unit :=
  touched ← update_leases table (ft_pipeline_id fence)
    (fun now r => bool_decide (lr_run_id r = Some (ft_run_id fence)) && (lr_fencing_token r =? ft_token fence)
                  && (now <? lr_lease_expires_at r))
    (fun _ r => r);
  assert_rows touched "Dander pipeline lease lost".

(** [fenced_dml]: the touch, the finalizer and its assertion in one transaction. *)
Definition fenced_dml {A} (fence : FencingToken) (finalizer : M bq_db A) : result (M bq_db A) :=
  match ft_lease_table fence with
  | None => raise_ ValueError "State-side BigQuery fencing requires a BigQuery lease table"
  | Some table => Ok (_ ← fencing_touch table fence; finalizer)
  end.

Definition merge_expected (source entity : string) (expected : option string) (cursor : string) (fence : option FencingToken)
    : M bq_db Z :=
  merge_watermark source entity (fun stored => bool_decide (Some stored = expected)) (is_none expected) cursor fence.

(** The statement [compare_and_set] submits. *)
Definition compare_statement (source entity : string) (expected : option string) (cursor : string)
    (fence : option FencingToken) : result (M bq_db Z) :=
  let merge := merge_expected source entity expected cursor fence in
  match fence with
  | None => Ok merge
  | Some fence =>
      fenced_dml fence (changed ← merge; _ ← assert_rows changed "Dander watermark boundary changed"; mret changed)
  end.

Definition bq_get_cursor (source entity : string) : M bq_world (option string) :=
  _ ← ensure_watermarks;
  job (select_cursor source entity).
Definition bq_set_cursor (source entity cursor : string) : M bq_world unit :=
  _ ← ensure_watermarks;
  _ ← run_mutation_with_retry (job (merge_watermark source entity (fun _ => true) true cursor None));
  mret tt.
Definition bq_compare_and_set (source entity : string) (expected : option string) (cursor : string)
    (fence : option FencingToken) : M bq_world bool :=
  _ ← ensure_watermarks;
  statement ← lift (compare_statement source entity expected cursor fence);
  affected ← run_mutation_with_retry (job statement);
  mret (is_some fence || (affected =? 1)).

#[export] Instance bigquery_watermarks : WatermarkStore bq_world := {
  get_cursor := bq_get_cursor;
  set_cursor := bq_set_cursor;
  compare_and_set := bq_compare_and_set;
}.
