(* ===== verification/StateBigQuerySpec.v ===== *)
(** * The BigQuery state provider keeps its promises

    Tables without keys hold at most one row per pipeline and per entity, because
    rows are only merged; hence the stores of [StateBigQuery] implement the
    interface of [StatePort] for a provider that fences its cursor commits. *)

From S2P Require Import Prelude Transactions Regex PyStr Sha256 StatePort LedgerSpec StatePg StatePgSpec StateBigQuery.

Local Open Scope string_scope.
Local Open Scope Z_scope.
Local Open Scope list_scope.

(** ** Tables as association lists *)

Section Assoc.
Context {K V : Type} `{EqDecision K}.
Implicit Types (rows : list (K * V)) (p q : K).

Lemma assoc_nil_iff p rows : assoc_row p rows = None <-> p ∉ rows.*1.
Proof.
  unfold assoc_row. induction rows as [|[q v] rows IH]; cbn; [split; [set_solver|done]|].
  unfold has_key at 1; cbn. case_bool_decide as D; cbn; [subst; split; [done|]; set_solver|].
  rewrite IH, not_elem_of_cons. naive_solver.
Qed.
Lemma existsb_key p rows : existsb (has_key p) rows = is_some (assoc_row p rows).
Proof.
  unfold assoc_row, has_key. induction rows as [|[q v] rows IH]; cbn; [done|]. by case_bool_decide.
Qed.
Lemma assoc_app p q v rows : assoc_row q rows = None -> assoc_row p (rows ++ [(q, v)]) = if decide (p = q) then Some v else assoc_row p rows.
Proof.
  unfold assoc_row, has_key. induction rows as [|[k u] rows IH]; cbn.
  - intros _. case_bool_decide; case_decide; subst; done.
  - intros H. case_bool_decide; [done|]. specialize (IH H). case_bool_decide; cbn; [|done]. case_decide; congruence.
Qed.
Lemma assoc_map p q (f : V -> bool) (g : V -> V) rows :
  assoc_row q (update_chosen p f g rows) =
  if decide (q = p) then (fun r => if f r then g r else r) <$> assoc_row p rows else assoc_row q rows.
Proof.
  unfold assoc_row, update_chosen, chosen, has_key. induction rows as [|[k u] rows IH]; cbn; [by case_decide|].
  destruct (bool_decide (k = p)) eqn:Hp, (bool_decide (k = q)) eqn:Hq; cbn; destruct (f u) eqn:Ef; cbn; rewrite ?Hq; cbn; to_prop;
    rewrite ?IH; repeat case_decide; subst; cbn; rewrite ?Ef; congruence.
Qed.
Lemma keys_map p (f : V -> bool) (g : V -> V) rows :
  (update_chosen p f g rows).*1 = rows.*1.
Proof. unfold update_chosen. induction rows as [|[k u] rows IH]; cbn; [done|]. destruct (chosen _ _ _); cbn; by f_equal. Qed.
Lemma filter_chosen p (f : V -> bool) rows :
  NoDup rows.*1 ->
  filter (fun x => chosen p f x = true) rows = match assoc_row p rows with
                                                               | Some r => if f r then [(p, r)] else []
                                                               | None => []
                                                               end.
Proof.
  unfold assoc_row. induction rows as [|[k u] rows IH]; [done|]. rewrite fmap_cons, NoDup_cons. intros [Hn Hd].
  rewrite filter_cons. change (chosen p f (k, u)) with (has_key p (k, u) && f u). cbn [find].
  destruct (has_key p (k, u)) eqn:Hk; cbn; [|by apply IH].
  apply bool_decide_eq_true in Hk; cbn in Hk; subst k.
  assert (filter (fun x => chosen p f x = true) rows = []) as ->; [|by destruct (f u); case_decide].
  apply filter_forall_nil, Forall_forall. intros x Hx [Hk _]%andb_true_iff. apply bool_decide_eq_true in Hk.
  apply Hn. cbn. rewrite <- Hk. by apply list_elem_of_fmap_2.
Qed.
Lemma count_chosen_eq p (f : V -> bool) rows :
  NoDup rows.*1 -> count_chosen p f rows = match assoc_row p rows with Some r => if f r then 1 else 0 | None => 0 end.
Proof. intros H. unfold count_chosen. rewrite filter_chosen by done. destruct (assoc_row p rows) as [r|]; [|done]. by destruct (f r). Qed.
End Assoc.

(** ** The ledger of the tables *)

#[local] Opaque table_for_pipeline.

Section Store.
Context (s : BigQueryLeaseStore).
Abbreviation table := (table_for_pipeline s).

Definition bq_row (d : bq_db) (p : string) : option lease_row := bq_leases d !! table p ≫= assoc_row p.
Definition bq_cursor (d : bq_db) (source entity : string) : option string := bq_watermarks d ≫= assoc_row (source, entity).
Definition bq_ledger (d : bq_db) : ledger :=
  Ledger (bq_clock d) (fun p => match bq_row d p with Some r => tenancy_of_row r | None => vacant end) (bq_commits d).

Record bq_good (d : bq_db) : Prop := {
  bg_clock : 0 <= bq_clock d;
  bg_leases t rows : bq_leases d !! t = Some rows -> NoDup rows.*1 /\ Forall (fun p => token_check (lr_fencing_token p.2) = true) rows;
  bg_watermarks rows : bq_watermarks d = Some rows -> NoDup rows.*1;
  bg_cursors x e : cursor_of (bq_commits d) x e = bq_cursor d x e;
}.

Definition bigquery_authority : authority :=
  {| au_term := seconds (bl_lease_seconds s); au_server_time := true; au_fences := true |}.
Abbreviation au := bigquery_authority.
(** The tokens of this provider name the table of their pipeline. *)
Definition bq_issued (f : FencingToken) : Prop := ft_lease_table f = Some (table (ft_pipeline_id f)).

(** ** Statements *)

(** A statement keeps the tables good; [R] relates the ledgers. *)
Definition bq_statement_ok {A} (m : M bq_db A) (R : A -> relation ledger) : Prop :=
  forall d, bq_good d ->
  match m d with
  | (Ok a, d') => bq_good d' /\ R a (bq_ledger d) (bq_ledger d')
  | (Raise _, _) => True
  end.

Lemma current_timestamp_spec d :
  exists now d', current_timestamp d = (Ok now, d') /\ now = bq_clock d' /\ bq_clock d <= bq_clock d' /\
    bq_leases d' = bq_leases d /\ bq_watermarks d' = bq_watermarks d /\ bq_commits d' = bq_commits d.
Proof.
  unfold current_timestamp. destruct (bq_ticks d) as [|n ns]; eexists _, _; (split; [reflexivity|]); cbn; split_and!; try done; lia.
Qed.
Lemma timestamp_good d d' :
  bq_clock d <= bq_clock d' -> bq_leases d' = bq_leases d -> bq_watermarks d' = bq_watermarks d -> bq_commits d' = bq_commits d ->
  bq_good d -> bq_good d' /\ idles (bq_ledger d) (bq_ledger d').
Proof.
  intros E0 E1 E2 E3 []. split.
  - split; unfold bq_cursor; rewrite ?E1, ?E2, ?E3; auto; lia.
  - unfold idles, bq_ledger, bq_row; cbn. by rewrite E1.
Qed.

Lemma with_table_good t rows d :
  NoDup rows.*1 -> Forall (fun p => token_check (lr_fencing_token p.2) = true) rows -> bq_good d -> bq_good (with_table t rows d).
Proof.
  intros Hn Ht []. split; [done| |done|done]. cbn. intros u rows'. destruct (decide (u = t)) as [->|Hu].
  - rewrite lookup_insert_eq. by intros [= <-].
  - rewrite lookup_insert_ne by done. apply bg_leases0.
Qed.
Lemma bq_row_with_table t rows d p :
  bq_row (with_table t rows d) p = if decide (table p = t) then assoc_row p rows else bq_row d p.
Proof.
  unfold bq_row. cbn. case_decide as D; [by rewrite D, lookup_insert_eq|]. by rewrite lookup_insert_ne.
Qed.

Lemma create_leases_ok t : bq_statement_ok (create_leases t) (fun _ => idles).
Proof.
  intros d Hg. unfold create_leases. destruct (bq_leases d !! t) as [rows|] eqn:E; [by unfold idles|].
  split; [by apply with_table_good; [constructor..|]|]. unfold idles, bq_ledger; cbn. split_and!; [done..|].
  intros p. rewrite bq_row_with_table. case_decide as D; [|done]. unfold bq_row. by rewrite D, E.
Qed.

Lemma merge_lease_ok p : bq_statement_ok (merge_lease (table p) p) (fun _ => idles).
Proof.
  intros d Hg. unfold merge_lease. destruct (bq_leases d !! table p) as [rows|] eqn:E; [|done].
  rewrite existsb_key.
  destruct (assoc_row p rows) as [r|] eqn:Er; cbn; [by unfold idles|].
  destruct (bg_leases _ Hg _ _ E) as [Hn Ht]. split.
  - apply with_table_good; [|apply Forall_app; split; [done|by repeat constructor]|done].
    rewrite fmap_app. apply NoDup_app. split_and!; [done| |by repeat constructor; set_solver].
    intros q Hq ->%list_elem_of_singleton. by apply assoc_nil_iff in Er.
  - unfold idles, bq_ledger; cbn. split_and!; [done..|]. intros q. rewrite bq_row_with_table.
    case_decide as D; [|done]. rewrite assoc_app by done. unfold bq_row. rewrite D, E. cbn.
    case_decide; subst; [by rewrite Er|done].
Qed.

(** UPDATE over the rows of a pipeline changes at most one. *)
Lemma update_leases_spec d p where_ set_ :
  bq_good d ->
  match update_leases (table p) p where_ set_ d with
  | (Ok n, d') =>
      bq_good d' /\
      exists d1, bq_good d1 /\ idles (bq_ledger d) (bq_ledger d1) /\ (forall q, bq_row d1 q = bq_row d q) /\
      bq_commits d' = bq_commits d /\ bq_watermarks d' = bq_watermarks d /\
      (n = 0 /\ idles (bq_ledger d1) (bq_ledger d') \/
       n = 1 /\ exists r, bq_row d p = Some r /\ where_ (bq_clock d1) r = true /\
                turns p (tenancy_of_row (set_ (bq_clock d1) r)) (bq_ledger d1) (bq_ledger d'))
  | (Raise _, _) => True
  end.
Proof.
  intros Hg. unfold update_leases, mbind, M_bind, bq_statement.
  destruct (current_timestamp_spec d) as (now & d1 & -> & -> & Hc & Hl & Hw & Hm).
  destruct (timestamp_good _ _ Hc Hl Hw Hm Hg) as [Hg1 Hi].
  destruct (bq_leases d1 !! table p) as [rows|] eqn:E; [|done]. set (now := bq_clock d1) in *. cbv zeta.
  destruct (forallb _ _) eqn:Ef; [|done]. apply forallb_Forall in Ef.
  destruct (bg_leases _ Hg1 _ _ E) as [Hn _]. rewrite count_chosen_eq by done.
  split; [apply with_table_good; [by rewrite keys_map|done|done]|].
  assert (forall q, bq_row d1 q = bq_row d q) as Hq by (intros q; unfold bq_row; by rewrite Hl).
  exists d1. split_and!; [done..|]. unfold idles, turns, bq_ledger; cbn.
  assert (bq_row d p = assoc_row p rows) as Hp by (rewrite <- Hq; unfold bq_row; by rewrite E).
  assert (forall q, bq_row (with_table (table p) (update_chosen p (where_ now) (set_ now) rows) d1) q =
          if decide (q = p) then (fun r => if where_ now r then set_ now r else r) <$> bq_row d p else bq_row d1 q) as Hrow.
  { intros q. rewrite bq_row_with_table, assoc_map, Hp. case_decide as D.
    - case_decide; [done|]. unfold bq_row. by rewrite D, E.
    - case_decide; [congruence|done]. }
  destruct (assoc_row p rows) as [r|] eqn:Er; [destruct (where_ now r) eqn:Ew|].
  - right. split; [done|]. exists r. rewrite Hp. split_and!; [done..| |].
    + rewrite Hrow, decide_True, Hp by done. cbn. by rewrite Ew.
    + intros q Hne. by rewrite Hrow, decide_False.
  - left. split; [done|]. split_and!; [done..|]. intros q. rewrite Hrow. case_decide as D; [|done].
    subst q. rewrite Hp, Hq, Hp. cbn. by rewrite Ew.
  - left. split; [done|]. split_and!; [done..|]. intros q. rewrite Hrow. case_decide as D; [|done].
    subst q. by rewrite Hp, Hq, Hp.
Qed.

Lemma update_leases_ok p where_ set_ R :
  (forall l l', idles l l' -> R 0 l l') ->
  (forall d r d', bq_row d p = Some r -> where_ (bq_clock d) r = true ->
     turns p (tenancy_of_row (set_ (bq_clock d) r)) (bq_ledger d) (bq_ledger d') -> R 1 (bq_ledger d) (bq_ledger d')) ->
  (forall n l l1 l', idles l l1 -> R n l1 l' -> R n l l') ->
  bq_statement_ok (update_leases (table p) p where_ set_) R.
Proof.
  intros H0 H1 HR d Hg. pose proof (update_leases_spec d p where_ set_ Hg) as H.
  destruct (update_leases _ _ _ _ d) as [[n|e] d']; [|done].
  destruct H as (Hg' & d1 & Hg1 & Hi & Hq & _ & _ & [[-> Hi']|(-> & r & Hr & Hw & T)]).
  - split; [done|]. eapply HR; [done|by apply H0].
  - split; [done|]. eapply HR; [done|]. eapply H1; [by rewrite Hq|done|done].
Qed.

Lemma select_tokens_ok p run :
  bq_statement_ok (select_tokens (table p) p run) (fun ts l l' =>
    idles l l' /\ forall t, ts = [t] -> holds (lg_tenancy l' p) run t).
Proof.
  intros d Hg. unfold select_tokens, mbind, M_bind, bq_statement.
  destruct (current_timestamp_spec d) as (now & d1 & -> & -> & Hc & Hl & Hw & Hm).
  destruct (timestamp_good _ _ Hc Hl Hw Hm Hg) as [Hg1 Hi].
  destruct (bq_leases d1 !! table p) as [rows|] eqn:E; [|done].
  destruct (bg_leases _ Hg1 _ _ E) as [Hn _]. rewrite filter_chosen by done.
  split; [done|]. split; [done|]. intros t. cbn. unfold bq_row. rewrite E. cbn.
  destruct (assoc_row p rows) as [r|]; [|done]. destruct (_ && _) eqn:Er; [|done]. cbn. intros [= <-].
  apply andb_true_iff in Er as [Er _]. by apply bool_decide_eq_true in Er.
Qed.

Lemma fencing_touch_ok f :
  bq_issued f -> bq_statement_ok (fencing_touch (table (ft_pipeline_id f)) f) (fun _ l l' => idles l l' /\ fence_current l' f).
Proof.
  intros Hf d Hg. unfold fencing_touch, mbind, M_bind. set (p := ft_pipeline_id f).
  pose proof (update_leases_spec d p (fun now r => bool_decide (lr_run_id r = Some (ft_run_id f)) && (lr_fencing_token r =? ft_token f)
                                            && (now <? lr_lease_expires_at r)) (fun _ r => r) Hg) as H.
  destruct (update_leases _ _ _ _ d) as [[n|e] d']; [|done]. unfold assert_rows.
  destruct H as (Hg' & d1 & Hg1 & Hi & Hq & _ & _ & [[-> Hi']|(-> & r & Hr & Hw & T)]); [done|]. cbn.
  apply andb_true_iff in Hw as [[Ho Ht]%andb_true_iff _]. apply bool_decide_eq_true in Ho. apply Z.eqb_eq in Ht.
  destruct T as (Tc & Tm & Tp & Tq). split; [done|]. split.
  - destruct Hi as (? & ? & Hi). unfold idles. rewrite Tc, Tm. split_and!; [done..|]. intros q. rewrite <- Hi.
    destruct (decide (q = p)) as [->|]; [|by apply Tq]. rewrite Tp. cbn. by rewrite Hq, Hr.
  - unfold fence_current, holds. fold p. rewrite Tp. by split.
Qed.

(** MERGE into the watermarks: one commit happens, or nothing. *)
Lemma merge_watermark_ok x e when_matched when_absent cursor fence :
  let applies v := match v with Some c => when_matched c | None => when_absent end in
  bq_statement_ok (merge_watermark x e when_matched when_absent cursor fence) (fun n l l' =>
    n = 0 /\ idles l l' /\ applies (cursor_of (lg_commits l') x e) = false \/
    n = 1 /\ exists l1 v, idles l l1 /\ applies v = true /\ cursor_of (lg_commits l1) x e = v /\
      lg_clock l' = lg_clock l1 /\ lg_commits l' = lg_commits l1 ++ [Commit x e v cursor fence] /\
      forall p, lg_tenancy l' p = lg_tenancy l1 p).
Proof.
  intros applies d Hg. unfold merge_watermark, mbind, M_bind, bq_statement.
  destruct (current_timestamp_spec d) as (now & d1 & -> & _ & Hc & Hl & Hw & Hm).
  destruct (timestamp_good _ _ Hc Hl Hw Hm Hg) as [Hg1 Hi].
  destruct (bq_watermarks d1) as [rows|] eqn:E; [|done]. cbv zeta.
  pose proof (bg_watermarks _ Hg1 _ E) as Hn. rewrite existsb_key, count_chosen_eq by done.
  assert (cursor_of (bq_commits d1) x e = assoc_row (x, e) rows) as Hcur.
  { rewrite (bg_cursors _ Hg1). unfold bq_cursor. by rewrite E. }
  set (rows' := if is_some _ then _ else _). set (n := if is_some _ then _ else _).
  assert (n = if applies (assoc_row (x, e) rows) then 1 else 0) as En by (by subst n; destruct (assoc_row (x, e) rows)).
  assert (NoDup rows'.*1 /\ forall k, assoc_row k rows' = if applies (assoc_row (x, e) rows) && bool_decide (k = (x, e)) then Some cursor
                                                          else assoc_row k rows) as [Hn' Hrows].
  { subst rows'. destruct (assoc_row (x, e) rows) as [c|] eqn:Er; cbn [is_some].
    - split; [by rewrite keys_map|]. intros k. rewrite assoc_map. case_decide as D; [subst k; rewrite bool_decide_true by done|].
      + rewrite Er. cbn. by destruct (when_matched c).
      + rewrite bool_decide_false by done. by rewrite andb_false_r.
    - destruct when_absent; [|by split]. split.
      + rewrite fmap_app. apply NoDup_app. split_and!; [done| |by repeat constructor; set_solver].
        intros q Hq ->%list_elem_of_singleton. by apply assoc_nil_iff in Er.
      + intros k. rewrite assoc_app by done. cbn. case_decide; [by rewrite bool_decide_true|by rewrite bool_decide_false]. }
  rewrite En. destruct (applies (assoc_row (x, e) rows)) eqn:Ea;
    [change (1 =? 0) with false|change (0 =? 0) with true; rewrite app_nil_r]; cbv iota.
  - split; [split; [apply Hg1|apply Hg1|by intros ? [= <-]|]|].
    + intros x' e'. cbn [bq_commits]. rewrite cursor_of_snoc. unfold bq_cursor at 1; cbn. rewrite Hrows. cbn.
      rewrite (bg_cursors _ Hg1). unfold bq_cursor. rewrite E. cbn. unfold concerns; cbn.
      repeat case_bool_decide; cbn; congruence.
    + right. split; [done|]. exists (bq_ledger d1), (assoc_row (x, e) rows). by split_and!.
  - assert (forall k, assoc_row k rows' = assoc_row k rows) as Hsame by (intros k; by rewrite Hrows).
    split; [split; [apply Hg1|apply Hg1|by intros ? [= <-]|]|].
    + intros x' e'. cbn [bq_commits]. rewrite (bg_cursors _ Hg1). unfold bq_cursor. cbn [bq_watermarks]. rewrite E.
      symmetry. apply Hsame.
    + left. split_and!; [done..|]. change (applies (cursor_of (bq_commits d1) x e) = false). by rewrite Hcur.
Qed.

(** ** Jobs *)

Abbreviation ok := (fun p : bq_world => state_ok au bq_good bq_ledger p.2).
Abbreviation ledger_of := (fun p : bq_world => state_ledger bq_ledger p.2).
Abbreviation steps := (steps_with au ok ledger_of).

Lemma job_steps {A} (body : M bq_db A) R S p :
  happenings au S -> bq_statement_ok body R ->
  (forall a l l', R a l l' -> match S a with Some T => meanwhile au T l l' | None => ledger_le au l l' end) ->
  steps (job body) p S.
Proof.
  intros HS Hb HR Hok. unfold job. pose proof (transact_steps au bq_good bq_ledger (atomically body) S p.2 HS) as H.
  assert (body_steps au bq_good bq_ledger (state_ledger bq_ledger p.2) (atomically body) S) as Hbody.
  { intros d Hg _. specialize (Hb d Hg). unfold atomically. destruct (body d) as [[a|e] d']; [|done].
    destruct Hb as [Hg' Hr]. split; [done|]. by apply HR in Hr. }
  specialize (H Hbody Hok). by destruct (transact _ _) as [[a|e] w].
Qed.

(** A retried mutation did what its last attempt did. *)
Lemma attempts_steps {A} n (m : M bq_world A) (S : A -> option (relation ledger)) :
  (forall p, steps m p S) -> forall p, steps (attempts n m) p S.
Proof.
  intros Hm. induction n as [|n IH]; intros p Hok; [by split|]. cbn [attempts]. unfold try_except.
  specialize (Hm p Hok). destruct (m p) as [[a|e] p']; [done|]. destruct Hm as [Hok' Hl].
  destruct (_ || _); [done|]. specialize (IH p' Hok'). destruct (attempts n m p') as [[a|e'] p'']; (split; [apply IH|]).
  - destruct IH as [_ IH]. destruct (S a); [by eapply meanwhile_extend|by etrans].
  - destruct IH as [_ IH]. by etrans.
Qed.

Lemma steps_seq {A B} (m : M bq_world A) (k : A -> M bq_world B) R S p :
  happenings au R -> steps m p R -> (forall a p, steps (k a) p S) -> steps (m ≫= k) p S.
Proof.
  intros HR Hm Hk Hok. specialize (Hm Hok). unfold mbind, M_bind. destruct (m p) as [[a|e] p']; [|done].
  destruct Hm as [Hok' Hm]. specialize (Hk a p' Hok').
  assert (ledger_le au (ledger_of p) (ledger_of p')) as Hl.
  { destruct (R a) as [T|] eqn:E; [|done]. eapply meanwhile_le; [|exact Hm]. intros; by eapply HR. }
  destruct (k a p') as [[b|e] p'']; (split; [apply Hk|]); destruct Hk as [_ Hk]; [|by etrans].
  destruct (S b); [by eapply meanwhile_extend|by etrans].
Qed.
Lemma steps_mark f p : steps (mark_ready f) p (fun _ => None).
Proof. done. Qed.
Lemma steps_raise {A} (e : exn) S p : steps (lift (Raise e) : M bq_world A) p S.
Proof. done. Qed.
Lemma happenings_none {A} : happenings au (fun _ : A => None).
Proof. by intros a S l l' [=]. Qed.

Lemma ensure_table_steps t p : steps (ensure_table t) p (fun _ => None).
Proof.
  intros Hok. unfold ensure_table. case_bool_decide; [done|].
  refine (steps_seq _ _ (fun _ => None) (fun _ => None) p happenings_none _ _ Hok); [|intros; apply steps_mark].
  eapply job_steps; [apply happenings_none|apply create_leases_ok|by intros [] l l' Hi; apply idles_le].
Qed.
Lemma ensure_watermarks_steps p : steps ensure_watermarks p (fun _ => None).
Proof.
  intros Hok. unfold ensure_watermarks. destruct (rd_watermarks p.1); [done|].
  refine (steps_seq _ _ (fun _ => None) (fun _ => None) p happenings_none _ _ Hok); [|intros; apply steps_mark].
  eapply (job_steps _ (fun _ => idles)); [apply happenings_none| |by intros [] l l' H; apply idles_le].
  intros d Hg. unfold create_watermarks. destruct (bq_watermarks d) eqn:E; [by unfold idles|]. split; [|by unfold idles].
  destruct Hg. split; [done|done|intros rows [= <-]; constructor|]. intros x e. cbn [bq_commits].
  rewrite bg_cursors0. unfold bq_cursor. by rewrite E.
Qed.

(** ** Leases *)

Lemma claim_ok p run :
  bq_statement_ok (update_leases (table p) p lapsed (claimed run (seconds (bl_lease_seconds s))))
    (fun n l l' => n = 0 /\ ledger_le au l l' \/
       n = 1 /\ exists h, lh_pipeline_id h = p /\ lh_run_id h = run /\ meanwhile au (grants au h) l l').
Proof.
  apply update_leases_ok.
  - intros l l' H. left. split; [done|by apply idles_le].
  - intros d r d' Hr Hw T. right. split; [done|].
    exists {| lh_pipeline_id := p; lh_run_id := run; lh_fencing_token := lr_fencing_token r + 1; lh_lease_seconds := 0; lh_fence := None |}.
    split_and!; [done..|]. eapply meanwhile_between; [reflexivity| |reflexivity]. exists (bq_clock d).
    cbn. rewrite Hr. split_and!; [done|by apply Z.leb_le|done|done].
  - intros n l l1 l' Hi [[-> H]|(-> & h & ? & ? & M)]; [left|right]; (split; [done|]).
    + etrans; [by apply idles_le|done].
    + exists h. split_and!; [done..|]. eapply meanwhile_extend; [by apply idles_le|exact M|done].
Qed.

(** The tenancy a run holds now although a smaller token was the last one then
    was granted in between. *)
Lemma granted_between l l' h :
  ledger_le au l l' -> tn_token (lg_tenancy l (lh_pipeline_id h)) < lh_fencing_token h -> current l' h -> meanwhile au (grants au h) l l'.
Proof.
  induction 1 as [l|l l1 l' H H2 IH]; intros Ht Hc; [destruct Hc; lia|].
  destruct (Z.lt_ge_cases (tn_token (lg_tenancy l1 (lh_pipeline_id h))) (lh_fencing_token h)) as [Hlt|Hge].
  { eapply meanwhile_extend; [by apply rtc_once|by apply IH|done]. }
  destruct (le_tenancy _ _ _ (lh_pipeline_id h) H2) as [Hx|[E Hh]]; destruct Hc as [Hc1 Hc2]; [lia|].
  assert (tn_holder (lg_tenancy l1 (lh_pipeline_id h)) = Some (lh_run_id h)) as Hh1 by (destruct Hh; congruence).
  eapply meanwhile_between; [reflexivity| |exact H2].
  destruct H as [(?&?&T)|g (now&R&?&Hg&T)|g (now&R&[Cg Ct]&?&T)|g (now&R&[Cg Ct]&T)|c (?&?&?&?&T)].
  - rewrite <- T in Ht. lia.
  - pose proof (turns_at _ _ _ _ (lh_pipeline_id h) T) as X. case_decide as D; [|rewrite X in *; lia].
    rewrite X in *. cbn in *. exists now. rewrite D. split_and!; [done|done|lia|].
    injection Hh1 as <-. by replace (lh_fencing_token h) with (lh_fencing_token g) by lia.
  - pose proof (turns_at _ _ _ _ (lh_pipeline_id h) T) as X. case_decide as D; rewrite X in *; [rewrite D in *; cbn in *; lia|lia].
  - pose proof (turns_at _ _ _ _ (lh_pipeline_id h) T) as X. case_decide as D; rewrite X in *; [done|lia].
  - rewrite <- T in Ht. lia.
Qed.

Definition acquired (p run : string) (h : LeaseHandle) : Prop :=
  lh_pipeline_id h = p /\ lh_run_id h = run /\ forall f, lh_fence h = Some f -> bq_issued f /\ fenced_by h f.

(** What [acquire] does once it claimed the row: read the token back. *)
Definition read_back (p run : string) (affected : Z) : M bq_world (option LeaseHandle) :=
  if negb (affected =? 1) then mret None
  else
    rows ← job (select_tokens (table p) p run);
    match rows with
    | [token] =>
        if token <=? 0 then mret None
        else
          fence ← lift (new_fencing_token {| ft_lease_table := Some (table p); ft_pipeline_id := p; ft_run_id := run;
                                             ft_token := token; ft_authority_id := Some (bl_authority_id s);
                                             ft_authority_epoch := bl_authority_epoch s |});
          mret (Some {| lh_pipeline_id := p; lh_run_id := run; lh_fencing_token := token;
                        lh_lease_seconds := bl_lease_seconds s; lh_fence := Some fence |})
    | _ => mret None
    end.

Lemma select_steps p run q :
  steps (job (select_tokens (table p) p run)) q
    (fun ts => Some (fun l l' => idles l l' /\ forall t, ts = [t] -> holds (lg_tenancy l' p) run t)).
Proof.
  eapply job_steps; [|apply select_tokens_ok|].
  - intros a S l l' [= <-] [Hi _]. by apply idles_le.
  - intros a l l' HR. eapply meanwhile_between; [reflexivity|exact HR|reflexivity].
Qed.

Lemma read_back_spec p run n q l0 :
  ok q -> ledger_le au l0 (ledger_of q) -> (n = 1 -> tn_token (lg_tenancy l0 p) < tn_token (lg_tenancy (ledger_of q) p)) ->
  match read_back p run n q with
  | (Ok (Some h), q') => ok q' /\ acquired p run h /\ meanwhile au (grants au h) l0 (ledger_of q')
  | (_, q') => ok q' /\ ledger_le au l0 (ledger_of q')
  end.
Proof.
  intros Hq Hl Ht. unfold read_back. destruct (n =? 1) eqn:En; cbn [negb]; [|done]. apply Z.eqb_eq in En. specialize (Ht En).
  pose proof (select_steps p run q Hq) as H.
  unfold mbind, M_bind. destruct (job _ q) as [[ts|e] q']; [|split; [apply H|etrans; [exact Hl|apply H]]].
  destruct H as [Hq' (l1 & l2 & H1 & [Hi Hh] & H2)]. assert (ledger_le au l0 (ledger_of q')) as Hle.
  { etrans; [exact Hl|]. etrans; [exact H1|]. etrans; [by apply idles_le|exact H2]. }
  destruct ts as [|t [|? ?]]; try done. destruct (t <=? 0) eqn:Et; [done|]. cbn [lift].
  unfold lift, new_fencing_token. destruct (FencingToken_post_init _) as [[]|e]; cbn [mbind result_bind]; [|done].
  set (h := {| lh_pipeline_id := p |}). split; [done|]. split; [split_and!; [done..|by intros f [= <-]]|].
  specialize (Hh t eq_refl).
  assert (ledger_le au l0 l2) as L2 by (etrans; [exact Hl|]; etrans; [exact H1|]; by apply idles_le).
  eapply meanwhile_extend; [reflexivity| |exact H2]. apply granted_between; [done| |exact Hh].
  destruct Hh as [_ Hh]. cbn. rewrite <- Hh. pose proof (le_token _ _ _ p H1).
  pose proof (le_token _ _ _ p (idles_le au _ _ Hi)). cbv beta in *. lia.
Qed.

Lemma claim_steps p run q :
  steps (run_mutation_with_retry (job (update_leases (table p) p lapsed (claimed run (seconds (bl_lease_seconds s)))))) q
    (fun n => if n =? 1 then Some (fun l l' => exists h, lh_pipeline_id h = p /\ grants au h l l') else None).
Proof.
  apply attempts_steps. intros q'. eapply job_steps; [|apply claim_ok|].
  - intros n S l l' H. destruct (n =? 1); [|done]. injection H as <-. intros (h & _ & G). by eapply grants_le.
  - intros n l l' [[-> H]|(-> & h & ? & ? & M)]; [done|]. cbn. eapply meanwhile_impl, M. eauto.
Qed.

Lemma acquire_steps p run q :
  steps (bq_acquire s p run) q (fun o =>
    match o with
    | Some h => Some (fun l l' => lh_pipeline_id h = p /\ lh_run_id h = run /\ grants au h l l' /\
                                  forall f, lh_fence h = Some f -> bq_issued f /\ fenced_by h f)
    | None => None
    end).
Proof.
  change (bq_acquire s p run) with
    (_ ← ensure_table (table p); _ ← run_mutation_with_retry (job (merge_lease (table p) p));
     n ← run_mutation_with_retry (job (update_leases (table p) p lapsed (claimed run (seconds (bl_lease_seconds s)))));
     read_back p run n).
  apply (steps_seq _ _ (fun _ => None)); [apply happenings_none|apply ensure_table_steps|]. intros [] q1.
  apply (steps_seq _ _ (fun _ => None)); [apply happenings_none| |].
  { apply attempts_steps. intros q'. eapply job_steps; [apply happenings_none|apply merge_lease_ok|]. intros [] l l' H. by apply idles_le. }
  intros [] q2 Hq2. pose proof (claim_steps p run q2 Hq2) as H. unfold mbind at 1, M_bind at 1.
  destruct (run_mutation_with_retry _ q2) as [[n|e] q3]; [|done]. destruct H as [Hq3 H].
  pose proof (read_back_spec p run n q3 (ledger_of q2) Hq3) as Hr. cbv beta in *.
  destruct (n =? 1) eqn:En; [|unfold read_back in *; by rewrite En in *].
  destruct H as (l1 & l2 & H1 & (h & <- & G) & H2).
  specialize (Hr ltac:(etrans; [exact H1|]; etrans; [by eapply grants_le|exact H2])).
  pose proof (grants_token _ _ _ _ G). pose proof (grants_current _ _ _ _ G) as [_ Hc].
  pose proof (le_token _ _ _ (lh_pipeline_id h) H1). pose proof (le_token _ _ _ (lh_pipeline_id h) H2).
  specialize (Hr ltac:(intros _; lia)).
  destruct (read_back _ _ _ q3) as [[[g|]|e] q4]; [|done..]. destruct Hr as (Hq4 & (? & ? & ?) & M). split; [done|].
  eapply meanwhile_impl, M. intros. by split_and!.
Qed.

Lemma update_steps h where_ set_ T q :
  (forall l l', T l l' -> ledger_le au l l') ->
  (forall d r d', bq_row d (lh_pipeline_id h) = Some r -> where_ (bq_clock d) r = true ->
     turns (lh_pipeline_id h) (tenancy_of_row (set_ (bq_clock d) r)) (bq_ledger d) (bq_ledger d') -> T (bq_ledger d) (bq_ledger d')) ->
  steps (bq_update s h where_ set_) q (if_true T).
Proof.
  intros HT H. apply (steps_seq _ _ (fun _ => None)); [apply happenings_none|apply ensure_table_steps|]. intros [] q1.
  set (R n l l' := n = 0 /\ idles l l' \/ n = 1 /\ exists l1, idles l l1 /\ T l1 l').
  eapply (steps_answer _ _ _ _ _ (fun n => if_true T (n =? 1))); [|apply attempts_steps; intros q'|].
  - intros n S l l'. destruct (n =? 1); [|done]. intros [= <-] ?. by apply HT.
  - eapply (job_steps _ R); [intros n S l l'; destruct (n =? 1); [|done]; intros [= <-] ?; by apply HT|apply update_leases_ok|].
    + intros l l' Hi. by left.
    + intros d r d' Hr Hw Ht. right. split; [done|]. eexists. split; [|by eapply H]. by unfold idles.
    + intros n l l1 l' Hi [[-> Hi']|(-> & l2 & Hi' & Ht)]; [left|right]; (split; [done|]).
      * destruct Hi as (? & E & E'), Hi' as (? & F & F'). unfold idles. split_and!; [lia|congruence|]. intros x. by rewrite F', E'.
      * exists l2. split; [|done]. destruct Hi as (? & E & E'), Hi' as (? & F & F'). unfold idles. split_and!; [lia|congruence|].
        intros x. by rewrite F', E'.
    + intros n l l' [[-> Hi]|(-> & l1 & Hi & Ht)]; cbn; [by apply idles_le|].
      eapply meanwhile_between; [by apply idles_le|exact Ht|reflexivity].
  - intros n q'. cbn. split; [done|]. destruct (n =? 1); cbn; [|done]. by exists T.
Qed.

Lemma owned_bq h r d : bq_row d (lh_pipeline_id h) = Some r -> owned h r = true -> current (bq_ledger d) h.
Proof.
  intros Hr [Ho Ht]%andb_true_iff. apply bool_decide_eq_true in Ho. apply Z.eqb_eq in Ht.
  unfold current, holds, bq_ledger; cbn. by rewrite Hr.
Qed.

#[export] Instance bigquery_lease_laws : LeaseLaws au bq_issued ok ledger_of (bigquery_leases s).
Proof.
  split.
  - intros p run q. apply acquire_steps.
  - intros h q. apply update_steps; [apply renews_le|]. intros d r d' Hr [Ho Hn]%andb_true_iff T.
    pose proof (owned_bq _ _ _ Hr Ho) as Hc. exists (bq_clock d). split_and!; [done..| |].
    + cbn. rewrite Hr. by apply Z.ltb_lt.
    + apply andb_true_iff in Ho as [Ho Ht]. apply bool_decide_eq_true in Ho. apply Z.eqb_eq in Ht.
      unfold tenancy_of_row in T; cbn [renewed released lr_run_id lr_fencing_token lr_lease_expires_at] in T. by rewrite Ho, Ht in T.
  - intros h q. apply update_steps; [apply gives_up_le|]. intros d r d' Hr Ho T.
    pose proof (owned_bq _ _ _ Hr Ho) as Hc. exists (bq_clock d). split_and!; [done..|].
    apply andb_true_iff in Ho as [_ Ht]. apply Z.eqb_eq in Ht. unfold tenancy_of_row in T; cbn [renewed released lr_run_id lr_fencing_token lr_lease_expires_at] in T. by rewrite Ht in T.
Qed.

(** ** Watermarks *)

Definition expects (expected : option string) (v : option string) : bool :=
  match v with Some c => bool_decide (Some c = expected) | None => is_none expected end.
Lemma expects_eq expected v : expects expected v = bool_decide (v = expected).
Proof. destruct v, expected; cbn; repeat case_bool_decide; congruence. Qed.

(** The merge of [compare_and_set], in a transaction that has verified the fence. *)
Lemma merge_expected_ok x e expected cursor fence :
  bq_statement_ok (merge_expected x e expected cursor fence) (fun n l l' =>
    (forall f, fence = Some f -> fence_current l f) ->
    (n = 0 /\ idles l l' /\ cursor_of (lg_commits l') x e <> expected) \/
    (n = 1 /\ meanwhile au (commits au (Commit x e expected cursor fence)) l l')).
Proof.
  intros d Hg. pose proof (merge_watermark_ok x e (fun c => bool_decide (Some c = expected)) (is_none expected) cursor fence d Hg) as H.
  unfold merge_expected. destruct (merge_watermark _ _ _ _ _ _ d) as [[n|er] d']; [|done]. destruct H as [Hg' H]. split; [done|].
  intros Hf. destruct H as [(-> & Hi & Ha)|(-> & l1 & v & Hi & Ha & Hv & Hc & Hm & Ht)]; [left|right].
  - split_and!; [done..|]. intros E. rewrite E in Ha. change (expects expected expected = false) in Ha.
    by rewrite expects_eq, bool_decide_true in Ha.
  - split; [done|]. eapply meanwhile_between; [by apply idles_le| |reflexivity].
    assert (v = expected) as -> by (change (expects expected v = true) in Ha; by rewrite expects_eq, bool_decide_eq_true in Ha).
    unfold commits; cbn. split_and!; [by rewrite Hv| |done..]. intros f _ E.
    specialize (Hf f E). unfold fence_current in *. destruct Hi as (_ & _ & Hi). by rewrite Hi.
Qed.

Lemma fenced_statement_ok x e expected cursor f :
  bq_issued f ->
  bq_statement_ok (_ ← fencing_touch (table (ft_pipeline_id f)) f;
                   changed ← merge_expected x e expected cursor (Some f);
                   _ ← assert_rows changed "Dander watermark boundary changed"; mret changed)
    (fun _ => meanwhile au (commits au (Commit x e expected cursor (Some f)))).
Proof.
  intros Hf d Hg. unfold mbind, M_bind at 1. pose proof (fencing_touch_ok f Hf d Hg) as H.
  destruct (fencing_touch _ _ d) as [[[]|er] d1]; [|done]. destruct H as (Hg1 & Hi & Hc).
  unfold M_bind at 1. pose proof (merge_expected_ok x e expected cursor (Some f) d1 Hg1) as H.
  destruct (merge_expected _ _ _ _ _ d1) as [[n|er] d2]; [|done]. destruct H as [Hg2 H].
  specialize (H ltac:(by intros ? [= <-])). unfold assert_rows, M_bind.
  destruct H as [(-> & _)|(-> & M)]; [done|]. cbn. split; [done|].
  eapply meanwhile_extend; [by apply idles_le|exact M|reflexivity].
Qed.

(** The commit [compare_and_set] promises when it returns [true]. *)
Lemma compare_steps x e expected cursor fence q statement :
  (forall f, fence = Some f -> bq_issued f) -> compare_statement x e expected cursor fence = Ok statement ->
  steps (job statement) q (fun n =>
    Some (if is_some fence || (n =? 1) then commits au (Commit x e expected cursor fence)
          else fun l l' => cursor_of (lg_commits l) x e <> expected /\ idles l l')).
Proof.
  intros Hf Hs. unfold compare_statement in Hs.
  assert (forall n, happenings au (fun _ : n => Some (commits au (Commit x e expected cursor fence)))) as Hhap
    by (intros n a S l l' [= <-]; apply commits_le).
  assert (happenings au (fun n : Z => Some (if is_some fence || (n =? 1) then commits au (Commit x e expected cursor fence)
          else fun l l' => cursor_of (lg_commits l) x e <> expected /\ idles l l'))) as HR.
  { intros n S l l' [= <-]. destruct (_ || _); [apply commits_le|]. intros [_ Hi]. by apply idles_le. }
  destruct fence as [f|].
  - unfold fenced_dml in Hs. rewrite (Hf f eq_refl) in Hs. injection Hs as <-.
    eapply job_steps; [exact HR|by apply fenced_statement_ok, Hf|]. by intros n l l' M.
  - injection Hs as <-. eapply job_steps; [exact HR|apply merge_expected_ok|]. intros n l l' H.
    specialize (H ltac:(by intros ? [=])). destruct H as [(-> & Hi & Hc)|(-> & M)]; cbn; [|done].
    eapply meanwhile_between; [by apply idles_le| |reflexivity]. by unfold idles.
Qed.

#[export] Instance bigquery_watermark_laws : WatermarkLaws au bq_issued ok ledger_of bigquery_watermarks.
Proof.
  split.
  - intros x e q. apply (steps_seq _ _ (fun _ => None)); [apply happenings_none|apply ensure_watermarks_steps|]. intros [] q1.
    eapply (job_steps _ (fun c l l' => cursor_of (lg_commits l) x e = c /\ idles l l')).
    + intros a S l l' [= <-] [_ Hi]. by apply idles_le.
    + intros d Hg. unfold select_cursor. destruct (bq_watermarks d) as [rows|] eqn:E; [|done]. split; [done|].
      split; [|by unfold idles]. change (cursor_of (bq_commits d) x e = assoc_row (x, e) rows). rewrite (bg_cursors _ Hg).
      unfold bq_cursor. by rewrite E.
    + intros c l l' H. eapply meanwhile_between; [reflexivity|exact H|reflexivity].
  - intros x e c q. apply (steps_seq _ _ (fun _ => None)); [apply happenings_none|apply ensure_watermarks_steps|]. intros [] q1.
    eapply (steps_answer _ _ _ _ _ (fun _ => Some (fun l l' => exists v, commits au (Commit x e v c None) l l'))).
    + intros n S l l' [= <-] [v H]. by eapply commits_le.
    + apply attempts_steps. intros q2. eapply job_steps; [|apply merge_watermark_ok|].
      * intros n S l l' [= <-] [v H]. by eapply commits_le.
      * intros n l l' [(_ & _ & H)|(_ & l1 & v & Hi & _ & Hv & Hc & Hm & Ht)]; [by destruct (cursor_of _ _ _)|].
        eapply meanwhile_between; [by apply idles_le| |reflexivity]. exists v. unfold commits; cbn. by rewrite Hv.
    + intros n q2. cbn. split; [done|]. eexists. by split.
  - intros x e v c f q Hf. apply (steps_seq _ _ (fun _ => None)); [apply happenings_none|apply ensure_watermarks_steps|]. intros [] q1.
    unfold mbind, M_bind, lift. destruct (compare_statement x e v c f) as [st|er] eqn:E; [|by intros Hq; split].
    eapply (steps_answer au ok ledger_of (run_mutation_with_retry (job st)) (fun n => mret (is_some f || (n =? 1))));
      [|apply attempts_steps; intros q2; by apply compare_steps|].
    + intros n S l l' [= <-]. destruct (_ || _); [apply commits_le|]. intros [_ Hi]. by apply idles_le.
    + intros n q2. cbn. split; [done|]. eexists. split; [done|]. by destruct (_ || _).
Qed.
End Store.
