(* ===== verification/LeaseGuard.v ===== *)
(** * The lease guard of a run ([LeaseHeartbeat] in [state/lease.py])

    A run renews its lease in the background and verifies it before every
    finalization boundary; after any doubt it has lost the lease for good.  The
    guard is verified against the interface of [StatePort]: whoever keeps those
    promises, a superseded owner fails every verification. *)

From S2P Require Import Prelude Transactions PyStr StatePort LedgerSpec.

Local Open Scope string_scope.
Local Open Scope Z_scope.
Local Open Scope list_scope.

(** [_lost], and whether the background thread is still beating. *)
Record guard : Type := { gd_lost : bool; gd_beating : bool }.
Definition new_guard (background : bool) : guard := {| gd_lost := false; gd_beating := background |}.
Definition lose (g : guard) : guard := {| gd_lost := true; gd_beating := gd_beating g |}.
Definition stop_beating (g : guard) : guard := {| gd_lost := gd_lost g; gd_beating := false |}.

Section Guard.
Context {W : Type} {LS : LeaseStore W} (lease : LeaseHandle).

Definition ownership_lost : exn := Exn LeaseLostError "Pipeline lease ownership was lost" [].

Definition verify : M (guard * W) unit := fun p =>
  if gd_lost p.1 then (Raise ownership_lost, p)
  else
    match heartbeat lease p.2 with
    | (Raise _, w) => (raise_ LeaseLostError "Pipeline lease heartbeat failed", (lose p.1, w))
    | (Ok owned, w) => if owned : bool then (Ok tt, (p.1, w)) else (Raise ownership_lost, (lose p.1, w))
    end.

(** One turn of [_heartbeat_loop] after its wait; the thread ends when the lease
    is lost. *)
Definition beat : M (guard * W) unit := fun p =>
  if negb (gd_beating p.1) then (Ok tt, p)
  else if gd_lost p.1 then (Ok tt, (stop_beating p.1, p.2))
  else
    match heartbeat lease p.2 with
    | (Ok true, w) => (Ok tt, (p.1, w))
    | (_, w) => (Ok tt, (stop_beating (lose p.1), w))
    end.

(** [__exit__]: an error of the release is only logged. *)
Definition exit_guard : M (guard * W) unit := fun p =>
  let '(_, w) := release lease p.2 in (Ok tt, (stop_beating p.1, w)).

(** The turns the background thread takes while the run does something else. *)
Fixpoint beats (n : nat) : M (guard * W) unit :=
  match n with
  | O => mret tt
  | S n => _ ← beat; beats n
  end.
End Guard.

(** ** What the guard guarantees *)

Section Laws.
Context {W : Type} {LS : LeaseStore W} {WS : WatermarkStore W} (au : authority) (issued : FencingToken -> Prop).
Context (inv : W -> Prop) (ledger_of : W -> ledger).
Context {LL : LeaseLaws au issued inv ledger_of LS} {WL : WatermarkLaws au issued inv ledger_of WS}.
Abbreviation le := (ledger_le au).

(** An operation only takes steps. *)
Lemma acquire_granted p run w h w' :
  inv w -> acquire p run w = (Ok (Some h), w') ->
  inv w' /\ lh_pipeline_id h = p /\ lh_run_id h = run /\ (forall f, lh_fence h = Some f -> issued f /\ fenced_by h f) /\
  exists l l', le (ledger_of w) l /\ grants au h l l' /\ le l' (ledger_of w').
Proof.
  intros Hi E. pose proof (ll_acquire au issued inv ledger_of p run w Hi) as H. rewrite E in H.
  destruct H as [Hi' (l & l' & H1 & (? & ? & G & Hf) & H2)]. split_and!; [done..|]. by exists l, l'.
Qed.

Lemma heartbeat_steps h w : inv w ->
  inv (heartbeat h w).2 /\ le (ledger_of w) (ledger_of (heartbeat h w).2) /\
  ((heartbeat h w).1 = Ok true -> meanwhile au (renews au h) (ledger_of w) (ledger_of (heartbeat h w).2)).
Proof.
  intros Hi. pose proof (ll_heartbeat au issued inv ledger_of h w Hi) as H.
  destruct (heartbeat h w) as [[[]|e] w']; cbn in *; destruct H as [? H]; split_and!; try done.
  eapply meanwhile_le; [|exact H]. apply renews_le.
Qed.

Lemma superseded_heartbeat h w : inv w -> superseded (ledger_of w) h -> (heartbeat h w).1 <> Ok true.
Proof.
  intros Hi Hs E. destruct (heartbeat_steps h w Hi) as (_ & _ & M). specialize (M E).
  eapply (superseded_refuses au h); [exact Hs| |exact M]. by intros a b (now & _ & Hc & _).
Qed.
Lemma superseded_release h w : inv w -> superseded (ledger_of w) h -> (release h w).1 <> Ok true.
Proof.
  intros Hi Hs E. pose proof (ll_release au issued inv ledger_of h w Hi) as H.
  destruct (release h w) as [r w']; cbn in E; subst r. destruct H as [_ M].
  eapply (superseded_refuses au h); [exact Hs| |exact M]. by intros a b (now & _ & Hc & _).
Qed.
Lemma superseded_commit h f s e x c w :
  au_fences au = true -> issued f -> fenced_by h f -> inv w -> superseded (ledger_of w) h ->
  (compare_and_set s e x c (Some f) w).1 <> Ok true.
Proof.
  intros Ha Hf (E1 & E2 & E3) Hi Hs E.
  pose proof (wl_compare_and_set au issued inv ledger_of s e x c (Some f) w ltac:(by intros t [= <-]) Hi) as H.
  destruct (compare_and_set _ _ _ _ _ w) as [r w']; cbn in E; subst r. destruct H as [_ M].
  eapply (superseded_refuses au h); [exact Hs| |exact M]. intros a b (_ & Hc & _). specialize (Hc f Ha eq_refl).
  unfold fence_current in Hc. by rewrite E1, E2, E3 in Hc.
Qed.

(** Once lost, always lost; [verify] fails closed. *)
Definition lost_or_superseded (h : LeaseHandle) (p : guard * W) : Prop := gd_lost p.1 = true \/ superseded (ledger_of p.2) h.

Lemma verify_lost h p : inv p.2 -> lost_or_superseded h p ->
  exists m p', verify h p = (Raise (Exn LeaseLostError m []), p') /\ gd_lost p'.1 = true /\ inv p'.2 /\ le (ledger_of p.2) (ledger_of p'.2).
Proof.
  intros Hi Hl. unfold verify. destruct (gd_lost p.1) eqn:E; [by eexists _, _|].
  destruct Hl as [|Hs]; [congruence|]. pose proof (superseded_heartbeat h p.2 Hi Hs) as Hn.
  destruct (heartbeat_steps h p.2 Hi) as (Hi' & Hl' & _).
  destruct (heartbeat h p.2) as [[[]|e] w']; cbn in *; [done|by eexists _, _..].
Qed.
Lemma beats_steps h n p : inv p.2 ->
  exists p', beats h n p = (Ok tt, p') /\ inv p'.2 /\ le (ledger_of p.2) (ledger_of p'.2) /\ (gd_lost p.1 = true -> gd_lost p'.1 = true).
Proof.
  revert p. induction n as [|n IH]; intros p Hi; [by eexists|].
  assert (exists p', beat h p = (Ok tt, p') /\ inv p'.2 /\ le (ledger_of p.2) (ledger_of p'.2) /\ (gd_lost p.1 = true -> gd_lost p'.1 = true))
    as (p1 & E & Hi1 & Hl1 & Hk1).
  { unfold beat. destruct (gd_beating p.1); cbn [negb]; [|by eexists]. destruct (gd_lost p.1) eqn:El; [by eexists|].
    destruct (heartbeat_steps h p.2 Hi) as (Hi' & Hl' & _). destruct (heartbeat h p.2) as [[[]|e] w']; by eexists. }
  destruct (IH p1 Hi1) as (p2 & E2 & Hi2 & Hl2 & Hk2). exists p2. cbn. unfold mbind, M_bind. rewrite E.
  split_and!; [done|done|by etrans|auto].
Qed.

(** C27: a lease is exclusive. Whatever happens between two successful
    acquisitions of a pipeline, the later one has the larger token, and from then
    on, at any time and under any interference, the earlier owner is fenced off:
    its guard raises LeaseLostError at every verification, before and after any
    number of background beats, its release reports that it owns nothing, and a
    provider that fences commits none of its cursors. *)
Theorem owner_exclusive p run1 run2 h1 h2 w w1 w2 w3 w4
    (Hw : inv w) (Hw2 : inv w2) (Hw4 : inv w4)
    (H1 : acquire p run1 w = (Ok (Some h1), w1)) (H12 : le (ledger_of w1) (ledger_of w2))
    (H2 : acquire p run2 w2 = (Ok (Some h2), w3)) (H34 : le (ledger_of w3) (ledger_of w4)) :
  lh_fencing_token h1 < lh_fencing_token h2 /\
  (forall g n, exists m, (_ ← beats h1 n; verify h1) (g, w4) = (Raise (Exn LeaseLostError m []), ((_ ← beats h1 n; verify h1) (g, w4)).2)) /\
  (release h1 w4).1 <> Ok true /\
  (au_fences au = true -> forall f s e x c, lh_fence h1 = Some f -> (compare_and_set s e x c (Some f) w4).1 <> Ok true).
Proof.
  destruct (acquire_granted _ _ _ _ _ Hw H1) as (_ & E1 & _ & Hf & l0 & l1 & _ & G1 & L1).
  destruct (acquire_granted _ _ _ _ _ Hw2 H2) as (_ & E2 & _ & _ & l2 & l3 & L2 & G2 & L3).
  destruct (later_grant au h1 h2 l0 l1 l2 l3 G1) as [Ht Hs]; [by etrans; [|etrans]|done|congruence|].
  assert (superseded (ledger_of w4) h1) as Hs4 by (eapply superseded_le, Hs; by etrans).
  split_and!; [done| |by apply superseded_release|].
  - intros g n. destruct (beats_steps h1 n (g, w4) Hw4) as (q & Eq & Hq & Hl & _).
    destruct (verify_lost h1 q Hq) as (m & q' & Ev & _); [right; by eapply superseded_le|].
    exists m. unfold mbind, M_bind. rewrite Eq, Ev. done.
  - intros Ha f s e x c Hfence. destruct (Hf f Hfence) as [Hi Hb]. by eapply superseded_commit.
Qed.

(** C28: a verification covers a full term. With the server's clock, after a
    verification that succeeded no run is granted the pipeline until the lease
    time has passed since the call, unless the owner itself gave the lease up. *)
Theorem verified_term h g w w' w2 w3 run h'
    (Hs : au_server_time au = true) (Hn : 0 <= au_term au) (Hb : terms_bounded au (ledger_of w)) (Hw : inv w) (Hw2 : inv w2)
    (Hv : verify h (g, w) = (Ok tt, (g, w'))) (H12 : le (ledger_of w') (ledger_of w2))
    (Ha : acquire (lh_pipeline_id h) run w2 = (Ok (Some h'), w3)) :
  lg_clock (ledger_of w) + au_term au <= lg_clock (ledger_of w3) \/
  exists k, lh_pipeline_id k = lh_pipeline_id h /\ lh_run_id k = lh_run_id h /\ lh_fencing_token k = lh_fencing_token h /\
            meanwhile au (gives_up au k) (ledger_of w) (ledger_of w3).
Proof.
  unfold verify in Hv. destruct (gd_lost _); [done|].
  destruct (heartbeat_steps h w Hw) as (_ & _ & M). cbn in Hv. destruct (heartbeat h w) as [[[]|e] u]; [|done..].
  injection Hv as <-. destruct (M eq_refl) as (l1 & l2 & L1 & R & L2); clear M.
  destruct (acquire_granted _ _ _ _ _ Hw2 Ha) as (_ & E & _ & _ & l3 & l4 & L3 & G & L4).
  assert (le l2 l3) as L23 by (etrans; [exact L2|]; by etrans). assert (le l1 l2) as L12 by by eapply renews_le.
  assert (terms_bounded au l2) as Hb2 by (eapply le_bounded; [done| |exact Hb]; by etrans).
  pose proof (le_clock _ _ _ L1). pose proof (le_clock _ _ _ L4). pose proof (grants_le _ _ _ _ G) as L34. pose proof (le_clock _ _ _ L34).
  destruct G as (now' & [_ Hr'] & He & _). specialize (Hr' Hs). rewrite E in He.
  destruct R as (now & [_ Hr] & _ & _ & (Tc & _ & Tp & _)). specialize (Hr Hs).
  assert (current l2 h) as Hc2 by (unfold current; by rewrite Tp).
  assert (tn_expires (lg_tenancy l2 (lh_pipeline_id h)) = now + au_term au) as He2 by by rewrite Tp.
  destruct (Z.lt_ge_cases (lg_clock l3) (now + au_term au)) as [Hlt|]; [|left; lia].
  destruct (le_term au l2 l3 h Hs Hn Hb2 L23 Hc2) as [[_ He3]|(k & ? & ? & ? & K)]; [lia|lia|].
  right. exists k. split_and!; [done..|]. eapply meanwhile_extend; [|exact K|].
  - by etrans.
  - by etrans.
Qed.
End Laws.
