(* ===== verification/StateInstances.v ===== *)
(** * State providers at work

    The three providers keep the contract of [StatePort]; worlds in which its
    theorems apply. *)

From S2P Require Import Prelude Transactions Regex PyStr Sha256 StatePort LedgerSpec StatePg StatePgSpec StateSqlite StateBigQuery StateBigQuerySpec LeaseGuard.

Local Open Scope string_scope.
Local Open Scope Z_scope.
Local Open Scope list_scope.

(** C26: the PostgreSQL, SQLite and BigQuery providers keep the contract of
    leases and watermarks, under interference by other processes that keep it,
    refused transactions and lost answers: leases are granted only when the term
    is over, with the next token; only the current owner renews and releases;
    cursors are committed only from the expected one and, by BigQuery, only under
    the current lease. *)
Theorem providers_keep_contract (p : PostgreSQLLeaseStore) (l : SqliteLeaseStore) (b : BigQueryLeaseStore) :
  (LeaseLaws (postgresql_authority p) any_token (state_ok (postgresql_authority p) state_good state_ledger_of)
     (state_ledger state_ledger_of) (postgresql_leases p) /\
   WatermarkLaws (postgresql_authority p) any_token (state_ok (postgresql_authority p) state_good state_ledger_of)
     (state_ledger state_ledger_of) postgresql_watermarks) /\
  (LeaseLaws (local_authority l) any_token (state_ok (local_authority l) state_good state_ledger_of)
     (state_ledger state_ledger_of) (sqlite_leases l) /\
   WatermarkLaws (local_authority l) any_token (state_ok (local_authority l) state_good state_ledger_of)
     (state_ledger state_ledger_of) sqlite_watermarks) /\
  (LeaseLaws (bigquery_authority b) (bq_issued b) (fun w => state_ok (bigquery_authority b) bq_good (bq_ledger b) w.2)
     (fun w => state_ledger (bq_ledger b) w.2) (bigquery_leases b) /\
   WatermarkLaws (bigquery_authority b) (bq_issued b) (fun w => state_ok (bigquery_authority b) bq_good (bq_ledger b) w.2)
     (fun w => state_ledger (bq_ledger b) w.2) bigquery_watermarks).
Proof. split_and!; apply _. Qed.

(** ** A PostgreSQL world *)

Definition thirty_seconds : PostgreSQLLeaseStore :=
  {| pl_lease_seconds := 30; pl_authority_id := "state:main"; pl_authority_epoch := 1 |}.
Definition advance (n : N) (d : state_db) : state_db :=
  StateDb (sd_leases d) (sd_watermarks d) (sd_clock d + Z.of_N n) (sd_ticks d) (sd_commits d).
Definition new_state_db : state_db := StateDb ∅ ∅ 1 [] [].
(** Half a minute passes between the first transaction and the next. *)
Definition pause : N := Z.to_N (seconds 31).
Definition first_world : world state_db := World new_state_db [Clear; Foreign (advance pause)].

#[local] Existing Instance postgresql_leases.
#[local] Existing Instance postgresql_watermarks.
Abbreviation pg_ok := (state_ok (postgresql_authority thirty_seconds) state_good state_ledger_of).

Lemma advance_lawful n : lawful_event (postgresql_authority thirty_seconds) state_good state_ledger_of (Foreign (advance n)).
Proof.
  intros d []. split; [split; [cbn; lia|done|done]|]. apply idles_le. split_and!; [cbn; lia|done|done].
Qed.
Lemma new_state_good : state_good new_state_db.
Proof. split; [done| |done]. intros p r H. cbn in H. by rewrite lookup_empty in H. Qed.
Lemma first_world_ok : pg_ok first_world.
Proof. split; [apply new_state_good|]. apply Forall_cons; split; [done|]. apply Forall_cons; split; [apply advance_lawful|constructor]. Qed.

Definition acquired_by (run : string) (w : world state_db) : result (option LeaseHandle) * world state_db :=
  pg_acquire thirty_seconds "nightly" run w.
Definition handle_with (run : string) (token : Z) : LeaseHandle :=
  {| lh_pipeline_id := "nightly"; lh_run_id := run; lh_fencing_token := token; lh_lease_seconds := 30;
     lh_fence := Some {| ft_lease_table := None; ft_pipeline_id := "nightly"; ft_run_id := run; ft_token := token;
                         ft_authority_id := Some "state:main"; ft_authority_epoch := 1 |} |}.

Lemma first_is {A B} (p : A * B) a : p.1 = a -> p = (a, p.2).
Proof. destruct p; cbn. by intros ->. Qed.

(** Two runs acquire the lease in turn; the second one's term has begun. *)
Definition first_owner : world state_db := (acquired_by "a" first_world).2.
Definition second_owner : world state_db := (acquired_by "b" first_owner).2.

Lemma owners_in_turn :
  pg_acquire thirty_seconds "nightly" "a" first_world = (Ok (Some (handle_with "a" 1)), first_owner) /\
  pg_acquire thirty_seconds "nightly" "b" first_owner = (Ok (Some (handle_with "b" 2)), second_owner) /\ pg_ok first_owner /\ pg_ok second_owner.
Proof.
  assert (pg_acquire thirty_seconds "nightly" "a" first_world = (Ok (Some (handle_with "a" 1)), first_owner)) as H1 by (apply first_is; by vm_compute).
  assert (pg_acquire thirty_seconds "nightly" "b" first_owner = (Ok (Some (handle_with "b" 2)), second_owner)) as H2 by (apply first_is; by vm_compute).
  pose proof (ll_acquire (LS := postgresql_leases thirty_seconds) (postgresql_authority thirty_seconds) any_token pg_ok (state_ledger state_ledger_of) "nightly" "a" first_world first_world_ok) as O1.
  cbn [acquire postgresql_leases] in O1. rewrite H1 in O1. destruct O1 as [O1 _].
  pose proof (ll_acquire (LS := postgresql_leases thirty_seconds) (postgresql_authority thirty_seconds) any_token pg_ok (state_ledger state_ledger_of) "nightly" "b" first_owner O1) as O2.
  cbn [acquire postgresql_leases] in O2. rewrite H2 in O2. destruct O2 as [O2 _]. done.
Qed.

Lemma owner_exclusive_witness :
  lh_fencing_token (handle_with "a" 1) < lh_fencing_token (handle_with "b" 2) /\
  (forall g n, exists m,
     (_ ← beats (LS := postgresql_leases thirty_seconds) (handle_with "a" 1) n;
      verify (LS := postgresql_leases thirty_seconds) (handle_with "a" 1)) (g, second_owner) =
     (Raise (Exn LeaseLostError m []),
      ((_ ← beats (LS := postgresql_leases thirty_seconds) (handle_with "a" 1) n;
        verify (LS := postgresql_leases thirty_seconds) (handle_with "a" 1)) (g, second_owner)).2)) /\
  (pg_release (handle_with "a" 1) second_owner).1 <> Ok true /\
  (au_fences (postgresql_authority thirty_seconds) = true -> forall f s e x c,
     lh_fence (handle_with "a" 1) = Some f -> (pg_compare_and_set s e x c (Some f) second_owner).1 <> Ok true).
Proof.
  destruct owners_in_turn as (H1 & H2 & O1 & O2).
  exact (owner_exclusive (LS := postgresql_leases thirty_seconds) (WS := postgresql_watermarks)
           (postgresql_authority thirty_seconds) any_token pg_ok (state_ledger state_ledger_of) "nightly" "a" "b" _ _
           first_world first_owner first_owner second_owner second_owner first_world_ok O1 O2 H1 (reflexivity _) H2 (reflexivity _)).
Defined.

(** The first owner verifies its lease at once, and loses it half a minute later. *)
Definition calm_world : world state_db := World new_state_db [Clear; Clear; Foreign (advance pause)].
Definition leased_world : world state_db := (acquired_by "a" calm_world).2.
Definition verified_world : world state_db := (pg_heartbeat thirty_seconds (handle_with "a" 1) leased_world).2.
Definition taken_world : world state_db := (acquired_by "b" verified_world).2.
Abbreviation ledger_at := (state_ledger state_ledger_of).

Lemma calm_world_ok : pg_ok calm_world.
Proof. split; [apply new_state_good|]. repeat (apply Forall_cons; split; [try done|]); [apply advance_lawful|constructor]. Qed.

Lemma verified_term_witness :
  lg_clock (ledger_at leased_world) + 30000000 <= lg_clock (ledger_at taken_world) \/
  exists k, lh_pipeline_id k = "nightly" /\ lh_run_id k = "a" /\ lh_fencing_token k = 1 /\
            meanwhile (postgresql_authority thirty_seconds) (gives_up (postgresql_authority thirty_seconds) k)
              (ledger_at leased_world) (ledger_at taken_world).
Proof.
  assert (pg_acquire thirty_seconds "nightly" "a" calm_world = (Ok (Some (handle_with "a" 1)), leased_world)) as H1
    by (apply first_is; by vm_compute).
  assert (pg_acquire thirty_seconds "nightly" "b" verified_world = (Ok (Some (handle_with "b" 2)), taken_world)) as H2
    by (apply first_is; by vm_compute).
  assert (pg_heartbeat thirty_seconds (handle_with "a" 1) leased_world = (Ok true, verified_world)) as Hh
    by (apply first_is; by vm_compute).
  pose proof (ll_acquire (LS := postgresql_leases thirty_seconds) (postgresql_authority thirty_seconds) any_token pg_ok ledger_at
                "nightly" "a" calm_world calm_world_ok) as O1.
  cbn [acquire postgresql_leases] in O1. rewrite H1 in O1. destruct O1 as [O1 M1].
  pose proof (ll_heartbeat (LS := postgresql_leases thirty_seconds) (postgresql_authority thirty_seconds) any_token pg_ok ledger_at
                (handle_with "a" 1) leased_world O1) as O2.
  cbn [heartbeat postgresql_leases] in O2. rewrite Hh in O2. destruct O2 as [O2 _].
  assert (terms_bounded (postgresql_authority thirty_seconds) (ledger_at leased_world)) as Hb.
  { eapply (le_bounded _ (ledger_at calm_world)); [done| |split; [done|by intros p]].
    eapply meanwhile_le; [|exact M1]. intros a b (_ & _ & G & _). by eapply grants_le. }
  assert (verify (LS := postgresql_leases thirty_seconds) (handle_with "a" 1) (new_guard true, leased_world) =
          (Ok tt, (new_guard true, verified_world))) as Hv by (unfold verify; cbn [heartbeat postgresql_leases gd_lost new_guard fst snd]; by rewrite Hh).
  exact (verified_term (LS := postgresql_leases thirty_seconds) (postgresql_authority thirty_seconds) any_token pg_ok ledger_at
           (handle_with "a" 1) (new_guard true) leased_world verified_world verified_world taken_world "b" (handle_with "b" 2)
           eq_refl ltac:(done) Hb O1 O2 Hv (reflexivity _) H2).
Defined.

(** The inherited [compare_and_set] is not one step: another run commits a later
    cursor between its reading and its write, it overwrites that cursor and still
    answers yes.  The providers define their own. *)
Definition commits_meanwhile (d : state_db) : state_db := (write_watermark "orders" "items" "2026-01-09" None d).2.
Definition raced_world : world state_db := World new_state_db [Clear; Foreign commits_meanwhile].
Example default_compare_and_set_races :
  let '(r, w) := default_compare_and_set (WS := postgresql_watermarks) "orders" "items" None "2026-01-05" None raced_world in
  r = Ok true /\ sd_commits (wd_durable w) =
    [Commit "orders" "items" None "2026-01-09" None; Commit "orders" "items" (Some "2026-01-09") "2026-01-05" None].
Proof. by vm_compute. Qed.

(** ** A run that acquires twice on BigQuery

    [acquire] reads its token back by run, not by token: when the term of a run
    ends between its claim and the reading, and the same run is started again
    meanwhile, both calls return a handle with the same, later token. *)
Definition bq_store : BigQueryLeaseStore :=
  {| bl_lease_seconds := 30; bl_table_prefix := "acme.state._dander_lease_"; bl_authority_id := "bigquery:acme:state"; bl_authority_epoch := 1 |}.
Definition new_bq_db : bq_db := BqDb ∅ None 1 [] [].
Definition none_ready : ready := {| rd_leases := []; rd_watermarks := false |}.
Definition bq_pause (d : bq_db) : bq_db := BqDb (bq_leases d) (bq_watermarks d) (bq_clock d + seconds 31) (bq_ticks d) (bq_commits d).
Definition restart (d : bq_db) : result (option LeaseHandle) * bq_world :=
  bq_acquire bq_store "nightly" "run-1" (none_ready, World (bq_pause d) []).
Definition slow_start : result (option LeaseHandle) :=
  (bq_acquire bq_store "nightly" "run-1" (none_ready, World new_bq_db [Clear; Clear; Clear; Foreign (fun d => wd_durable (restart d).2.2)])).1.
(** The tables between the claim of the slow call and its reading. *)
Definition claimed_db : bq_db :=
  let t := table_for_pipeline bq_store "nightly" in
  ((_ ← create_leases t; _ ← merge_lease t "nightly"; update_leases t "nightly" lapsed (claimed "run-1" (seconds 30))) new_bq_db).2.

Definition token_of (r : result (option LeaseHandle)) : option Z := match r with Ok o => lh_fencing_token <$> o | Raise _ => None end.
Example same_run_shares_token : token_of slow_start = Some 2 /\ token_of (restart claimed_db).1 = Some 2.
Proof. split; by vm_compute. Qed.
