(* ===== verification/RunHistory.v ===== *)
(** * The run history ([state/run_history.py], [PostgreSQLRunHistoryStore])

    One row per pipeline run with its stage, its counts and its outcome.  The
    interface of the protocol and its PostgreSQL, SQLite and BigQuery stores;
    timestamps are instants.  In BigQuery the table has no key. *)

From S2P Require Import Prelude Transactions PyStr StatePort StatePg.

Local Open Scope string_scope.
Local Open Scope Z_scope.
Local Open Scope list_scope.

(** ** Data *)

Inductive RunStatus : Type := RUNNING | SUCCEEDED | FAILED | SKIPPED.
Inductive RunStage : Type := INGEST | TRANSFORM | METADATA | COMPLETE.
#[export] Instance RunStatus_eq_dec : EqDecision RunStatus.
Proof. solve_decision. Defined.
#[export] Instance RunStage_eq_dec : EqDecision RunStage.
Proof. solve_decision. Defined.
Definition stage_value (s : RunStage) : string :=
  match s with INGEST => "ingest" | TRANSFORM => "transform" | METADATA => "metadata" | COMPLETE => "complete" end.

Record counts : Type := Counts {
  ct_endpoints : Z; ct_extracted : Z; ct_affected : Z; ct_models : Z; ct_assertions : Z; ct_assets : Z;
}.
Definition no_counts : counts := Counts 0 0 0 0 0 0.
Record failure : Type := Failure { fl_stage : option RunStage; fl_code : option string; fl_summary : option string }.
Definition no_failure : failure := Failure None None None.

Record RunRecord : Type := {
  hr_run_id : string; hr_pipeline_id : string; hr_source : string; hr_status : RunStatus; hr_stage : RunStage;
  hr_started_at : Z; hr_finished_at : option Z; hr_counts : counts; hr_failure : failure;
}.

Class RunHistoryStore (W : Type) : Type := {
  start_run : string -> string -> option string -> M W unit;
  restart_retryable : string -> string -> option string -> M W unit;
  checkpoint : string -> RunStage -> counts -> M W unit;
  finish : string -> RunStatus -> counts -> failure -> M W unit;
  reconcile_interrupted : string -> string -> M W unit;
  recent : Z -> option string -> M W (list RunRecord);
}.

(** ** Rows *)

(** A row without its run_id; old rows have no pipeline_id and no stage. *)
Record run_row : Type := RunRow {
  rw_pipeline_id : option string; rw_source : string; rw_status : RunStatus; rw_stage : option RunStage;
  rw_started_at : Z; rw_finished_at : option Z; rw_counts : counts; rw_failure : failure;
}.

Definition started_row (pipeline_id source : string) (now : Z) : run_row :=
  RunRow (Some pipeline_id) source RUNNING (Some INGEST) now None no_counts no_failure.
Definition restarted_row (r : run_row) : run_row :=
  RunRow (rw_pipeline_id r) (rw_source r) RUNNING (Some INGEST) (rw_started_at r) None no_counts no_failure.
Definition row_pipeline (r : run_row) : string := default (rw_source r) (rw_pipeline_id r).

Definition RETRYABLE : list string :=
  ["catalog_failed"; "destination_write_failed"; "extraction_failed"; "lease_failed"; "rate_limited"].
Definition retryable_failure (pipeline_id source : string) (r : run_row) : bool :=
  bool_decide (rw_source r = source) && bool_decide (row_pipeline r = pipeline_id) && bool_decide (rw_status r = FAILED)
  && match fl_code (rw_failure r) with Some c => bool_decide (c ∈ RETRYABLE) | None => false end.

Definition interrupted_summary : string := "A later execution acquired the expired pipeline lease.".
Definition interrupted (stage : option RunStage) (now : Z) (r : run_row) : run_row :=
  RunRow (rw_pipeline_id r) (rw_source r) FAILED (rw_stage r) (rw_started_at r) (Some now) (rw_counts r)
    (Failure stage (Some "interrupted_run") (Some interrupted_summary)).
(** [WHERE status = 'running' AND pipeline_id = ? AND run_id != ?]. *)
Definition left_running (pipeline_id current_run_id run_id : string) (r : run_row) : bool :=
  bool_decide (rw_status r = RUNNING) && bool_decide (row_pipeline r = pipeline_id) && negb (bool_decide (run_id = current_run_id)).

Definition terminal_stage (status : RunStatus) (failure_stage : option RunStage) : RunStage :=
  match status with
  | SUCCEEDED | SKIPPED => COMPLETE
  | _ => or_else failure_stage INGEST
  end.
Definition finished_row (status : RunStatus) (c : counts) (f : failure) (now : Z) (r : run_row) : run_row :=
  RunRow (rw_pipeline_id r) (rw_source r) status (Some (terminal_stage status (fl_stage f))) (rw_started_at r) (Some now) c f.
(** The hosted stores write every column, SQLite only the progress. *)
Definition hosted_checkpoint (stage : RunStage) (c : counts) (r : run_row) : run_row :=
  RunRow (rw_pipeline_id r) (rw_source r) RUNNING (Some stage) (rw_started_at r) (rw_finished_at r) c no_failure.
Definition local_checkpoint (stage : RunStage) (c : counts) (r : run_row) : run_row :=
  RunRow (rw_pipeline_id r) (rw_source r) (rw_status r) (Some stage) (rw_started_at r) (rw_finished_at r) c (rw_failure r).

Definition record_of_row (run_id : string) (r : run_row) : RunRecord :=
  {| hr_run_id := run_id; hr_pipeline_id := row_pipeline r; hr_source := rw_source r; hr_status := rw_status r;
     hr_stage := match rw_stage r with
                 | Some s => s
                 | None => match rw_status r with SUCCEEDED => COMPLETE | _ => INGEST end
                 end;
     hr_started_at := rw_started_at r; hr_finished_at := rw_finished_at r; hr_counts := rw_counts r; hr_failure := rw_failure r |}.

(** [ORDER BY started_at DESC LIMIT]; the order of equal instants is any. *)
Definition newest_first : RunRecord -> RunRecord -> bool := key_leb (fun r => - hr_started_at r) Z.leb.
Definition recent_rows (limit : Z) (pipeline_id : option string) (rows : list (string * run_row)) : list RunRecord :=
  take (Z.to_nat limit) (py_sorted newest_first (filter
    (fun r => match pipeline_id with Some p => bool_decide (hr_pipeline_id r = p) | None => true end = true)
    (map (fun p => record_of_row p.1 p.2) rows))).
Definition check_limit (limit : Z) : result unit :=
  value_reject (negb ((1 <=? limit) && (limit <=? 1000))) "limit must be between 1 and 1000".
(** [pipeline_id or source]. *)
Definition pipeline_or (pipeline_id : option string) (source : string) : string :=
  match pipeline_id with Some p => if empty p then source else p | None => source end.

(** ** PostgreSQL and SQLite *)

Record history_db : Type := HistoryDb { hd_runs : gmap string run_row; hd_clock : Z; hd_ticks : list nat }.
Definition history_clock : M history_db Z := fun d =>
  match hd_ticks d with
  | [] => (Ok (hd_clock d), d)
  | n :: ns => let now := hd_clock d + Z.of_nat n in (Ok now, HistoryDb (hd_runs d) now ns)
  end.
Definition on_runs {A} (f : gmap string run_row -> result (A * gmap string run_row)) : M history_db A := fun d =>
  match f (hd_runs d) with
  | Ok (a, runs) => (Ok a, HistoryDb runs (hd_clock d) (hd_ticks d))
  | Raise e => (Raise e, d)
  end.
Definition history_statement {A} (f : Z -> gmap string run_row -> result (A * gmap string run_row)) : M history_db A :=
  now ← history_clock; on_runs (f now).
Definition history_transaction {A} (f : Z -> gmap string run_row -> result (A * gmap string run_row)) : M (world history_db) A :=
  transact (atomically (history_statement f)).

(** The range of BIGINT and the length of failure_summary. *)
Definition in_bigint (n : Z) : bool := (- 2 ^ 63 <=? n) && (n <? 2 ^ 63).
Definition row_check (r : run_row) : bool :=
  let c := rw_counts r in
  forallb in_bigint [ct_endpoints c; ct_extracted c; ct_affected c; ct_models c; ct_assertions c; ct_assets c]
  && match fl_summary (rw_failure r) with Some s => py_len s <=? 512 | None => true end.

Definition insert_run (run_id : string) (row : Z -> run_row) (now : Z) (runs : gmap string run_row) : result (unit * gmap string run_row) :=
  match runs !! run_id with
  | Some _ => Raise driver_error
  | None => Ok (tt, <[run_id := row now]> runs)
  end.
(** UPDATE ... WHERE run_id = %s; no row is no error. *)
Definition update_run (checked : bool) (run_id : string) (set : Z -> run_row -> run_row) (now : Z) (runs : gmap string run_row)
    : result (unit * gmap string run_row) :=
  match runs !! run_id with
  | None => Ok (tt, runs)
  | Some r => if checked && negb (row_check (set now r)) then Raise driver_error else Ok (tt, <[run_id := set now r]> runs)
  end.
(** INSERT ... ON CONFLICT (run_id) DO UPDATE ... WHERE: the row count. *)
Definition restart_row (run_id pipeline_id source : string) (now : Z) (runs : gmap string run_row) : result (Z * gmap string run_row) :=
  match runs !! run_id with
  | None => Ok (1, <[run_id := started_row pipeline_id source now]> runs)
  | Some r => if retryable_failure pipeline_id source r then Ok (1, <[run_id := restarted_row r]> runs) else Ok (0, runs)
  end.
(** The RuntimeError is raised inside the transaction. *)
Definition restart_body (run_id pipeline_id source : string) (now : Z) (runs : gmap string run_row) : result (unit * gmap string run_row) :=
  '(n, runs) ← restart_row run_id pipeline_id source now runs;
  _ ← reject_if (negb (n =? 1)) RuntimeError "Run is not a matching retryable failure";
  Ok (tt, runs).
Definition reconcile_rows (stage : run_row -> option RunStage) (pipeline_id current_run_id : string) (now : Z)
    (runs : gmap string run_row) : result (unit * gmap string run_row) :=
  Ok (tt, map_imap (fun run_id r => Some (if left_running pipeline_id current_run_id run_id r then interrupted (stage r) now r else r)) runs).

Definition sql_recent (limit : Z) (pipeline_id : option string) : M (world history_db) (list RunRecord) :=
  _ ← lift (check_limit limit);
  history_transaction (fun _ runs => Ok (recent_rows limit pipeline_id (map_to_list runs), runs)).
Definition sql_start (run_id source : string) (pipeline_id : option string) : M (world history_db) unit :=
  history_transaction (insert_run run_id (started_row (pipeline_or pipeline_id source) source)).
Definition sql_restart (run_id source : string) (pipeline_id : option string) : M (world history_db) unit :=
  history_transaction (restart_body run_id (pipeline_or pipeline_id source) source).
Definition sql_finish (checked : bool) (run_id : string) (status : RunStatus) (c : counts) (f : failure) : M (world history_db) unit :=
  history_transaction (update_run checked run_id (finished_row status c f)).

Definition postgresql_history : RunHistoryStore (world history_db) := {|
  start_run := sql_start;
  restart_retryable := sql_restart;
  checkpoint run_id stage c := history_transaction (update_run true run_id (fun _ => hosted_checkpoint stage c));
  finish := sql_finish true;
  reconcile_interrupted p current := history_transaction (reconcile_rows rw_stage p current);
  recent := sql_recent;
|}.
Definition sqlite_history : RunHistoryStore (world history_db) := {|
  start_run := sql_start;
  restart_retryable := sql_restart;
  checkpoint run_id stage c := history_transaction (update_run false run_id (fun _ => local_checkpoint stage c));
  finish := sql_finish false;
  reconcile_interrupted p current := history_transaction (reconcile_rows (fun r => Some (or_else (rw_stage r) INGEST)) p current);
  recent := sql_recent;
|}.

(** ** BigQuery *)

Record runs_table : Type := RunsTable { rt_columns : list string; rt_rows : list (string * run_row) }.
Record bq_history_db : Type := BqHistoryDb { bh_table : option runs_table; bh_clock : Z; bh_ticks : list nat }.

Definition additive_columns : list string :=
  ["pipeline_id"; "stage"; "models"; "assertions"; "assets"; "failure_stage"; "failure_code"; "failure_summary"].
Definition base_columns : list string :=
  ["run_id"; "source_name"; "status"; "started_at"; "finished_at"; "endpoints"; "extracted"; "affected"].

Definition bh_clock_timestamp : M bq_history_db Z := fun d =>
  match bh_ticks d with
  | [] => (Ok (bh_clock d), d)
  | n :: ns => let now := bh_clock d + Z.of_nat n in (Ok now, BqHistoryDb (bh_table d) now ns)
  end.
(** A statement on a table that exists and has the columns it names. *)
Definition on_table {A} (columns : list string) (f : list (string * run_row) -> result (A * list (string * run_row))) : M bq_history_db A := fun d =>
  match bh_table d with
  | Some t =>
      if forallb (fun c => bool_decide (c ∈ rt_columns t)) columns
      then match f (rt_rows t) with
           | Ok (a, rows) => (Ok a, BqHistoryDb (Some (RunsTable (rt_columns t) rows)) (bh_clock d) (bh_ticks d))
           | Raise e => (Raise e, d)
           end
      else (Raise driver_error, d)
  | None => (Raise driver_error, d)
  end.

(** The flag is the store's [_ready]; no job of this store is retried. *)
Abbreviation bh_world := (bool * world bq_history_db)%type.
Definition history_job {A} (body : M bq_history_db A) : M bh_world A := fun p =>
  let '(r, w) := transact (atomically body) p.2 in (r, (p.1, w)).

Definition create_runs : M bq_history_db unit := fun d =>
  match bh_table d with
  | Some _ => (Ok tt, d)
  | None => (Ok tt, BqHistoryDb (Some (RunsTable (base_columns ++ additive_columns) [])) (bh_clock d) (bh_ticks d))
  end.
Definition get_columns : M bq_history_db (list string) := fun d =>
  match bh_table d with Some t => (Ok (rt_columns t), d) | None => (Raise driver_error, d) end.
Definition add_columns (columns : list string) : M bq_history_db unit := fun d =>
  match bh_table d with
  | Some t => (Ok tt, BqHistoryDb (Some (RunsTable (rt_columns t ++ filter (fun c => c ∉ rt_columns t) columns) (rt_rows t))) (bh_clock d) (bh_ticks d))
  | None => (Raise driver_error, d)
  end.

Definition mark_initialized : M bh_world unit := fun p => (Ok tt, (true, p.2)).
Definition ensure_runs : M bh_world unit := fun p =>
  if p.1 then (Ok tt, p)
  else
    (_ ← history_job create_runs;
     existing ← history_job get_columns;
     let missing := filter (fun c => casefold c ∉ map casefold existing) additive_columns in
     _ ← (if bool_decide (missing = []) then mret tt else history_job (add_columns missing));
     mark_initialized) p.

(** A statement that may use the time. *)
Definition timed_job {A} (columns : list string) (f : Z -> list (string * run_row) -> result (A * list (string * run_row))) : M bh_world A :=
  history_job (now ← bh_clock_timestamp; on_table columns (f now)).

(** UPDATE: every row that matches. *)
Definition map_rows (which : string * run_row -> bool) (set : run_row -> run_row) (rows : list (string * run_row)) : list (string * run_row) :=
  map (fun p => if which p then (p.1, set p.2) else p) rows.
Definition update_rows (which : string * run_row -> bool) (set : Z -> run_row -> run_row) (now : Z) (rows : list (string * run_row))
    : result (unit * list (string * run_row)) :=
  Ok (tt, map_rows which (set now) rows).
Definition of_run (run_id : string) (p : string * run_row) : bool := bool_decide (p.1 = run_id).

(** The script of [restart_retryable]: an assertion, then a MERGE. *)
Definition restart_rows (run_id pipeline_id source : string) (now : Z) (rows : list (string * run_row))
    : result (unit * list (string * run_row)) :=
  let matching := filter (fun p => of_run run_id p = true) rows in
  _ ← reject_if (negb (bool_decide (matching = []) ||
                       bool_decide (length matching = 1%nat) && existsb (fun p => retryable_failure pipeline_id source p.2) matching))
        BadRequest "run is not a matching retryable failure";
  if bool_decide (matching = []) then Ok (tt, rows ++ [(run_id, started_row pipeline_id source now)])
  else update_rows (of_run run_id) (fun _ => restarted_row) now rows.

Definition bq_update_run (run_id : string) (set : Z -> run_row -> run_row) : M bh_world unit :=
  _ ← ensure_runs;
  timed_job (base_columns ++ additive_columns) (update_rows (of_run run_id) set).

Definition bigquery_history (initialize_on_read : bool) : RunHistoryStore bh_world := {|
  start_run run_id source pipeline_id :=
    _ ← ensure_runs;
    timed_job (base_columns ++ ["pipeline_id"; "stage"; "models"; "assertions"; "assets"; "failure_stage"])
      (fun now rows => Ok (tt, rows ++ [(run_id, started_row (pipeline_or pipeline_id source) source now)]));
  restart_retryable run_id source pipeline_id :=
    _ ← ensure_runs;
    timed_job (base_columns ++ additive_columns) (restart_rows run_id (pipeline_or pipeline_id source) source);
  checkpoint run_id stage c := bq_update_run run_id (fun _ => hosted_checkpoint stage c);
  finish run_id status c f := bq_update_run run_id (finished_row status c f);
  reconcile_interrupted pipeline_id current :=
    _ ← ensure_runs;
    timed_job (base_columns ++ additive_columns)
      (fun now => update_rows (fun p => left_running pipeline_id current p.1 p.2)
                    (fun now r => interrupted (Some (or_else (rw_stage r) INGEST)) now r) now);
  recent limit pipeline_id :=
    _ ← lift (check_limit limit);
    _ ← (if initialize_on_read then ensure_runs else mret tt);
    timed_job (base_columns ++ ["pipeline_id"; "stage"; "models"; "assertions"; "assets"; "failure_stage"])
      (fun _ rows => Ok (recent_rows limit pipeline_id rows, rows));
|}.
