(* ===== verification/RunHistorySpec.v ===== *)
(** * What the run history records

    A restart happens exactly for absent runs and matching retryable failures;
    the reconciliation settles exactly the abandoned runs of its pipeline; the
    BigQuery store, whose table has no key, agrees with the keyed stores as long
    as no run was inserted twice. *)

From S2P Require Import Prelude Transactions PyStr StatePort StatePg RunHistory.

Local Open Scope string_scope.
Local Open Scope Z_scope.
Local Open Scope list_scope.

Definition may_restart (pipeline_id source : string) (r : option run_row) : bool :=
  match r with None => true | Some r => retryable_failure pipeline_id source r end.
Definition restarted (pipeline_id source : string) (now : Z) (r : option run_row) : run_row :=
  match r with None => started_row pipeline_id source now | Some r => restarted_row r end.

Lemma restart_body_eq run_id pipeline_id source now runs :
  restart_body run_id pipeline_id source now runs =
  if may_restart pipeline_id source (runs !! run_id)
  then Ok (tt, <[run_id := restarted pipeline_id source now (runs !! run_id)]> runs)
  else raise_ RuntimeError "Run is not a matching retryable failure".
Proof.
  unfold restart_body, restart_row, may_restart. destruct (runs !! run_id) as [r|]; [|done].
  by destruct (retryable_failure _ _ _).
Qed.

Lemma reconcile_lookup stage pipeline_id current now runs run_id :
  exists runs', reconcile_rows stage pipeline_id current now runs = Ok (tt, runs') /\
    runs' !! run_id = (fun r => if left_running pipeline_id current run_id r then interrupted (stage r) now r else r) <$> runs !! run_id.
Proof. eexists. split; [done|]. rewrite map_lookup_imap. by destruct (runs !! run_id). Qed.

(** A settled row is not settled again. *)
Lemma interrupted_settled pipeline_id current run_id stage now r :
  left_running pipeline_id current run_id (interrupted stage now r) = false.
Proof. done. Qed.

(** The keyed run history. A restart is accepted exactly when the run is
    absent or a failed run of the same pipeline and source with a retryable code,
    and then the run is running from its first stage with no trace of the
    failure; otherwise it raises and changes nothing. A reconciliation fails
    exactly the running rows of the pipeline other than the caller's as
    interrupted, and leaves every other row. A finished run has its status, its
    counts and its failure, and an unknown run is ignored. *)
Theorem keyed_history now runs run_id pipeline_id source current stage status c f :
  restart_body run_id pipeline_id source now runs =
    (if may_restart pipeline_id source (runs !! run_id)
     then Ok (tt, <[run_id := restarted pipeline_id source now (runs !! run_id)]> runs)
     else raise_ RuntimeError "Run is not a matching retryable failure") /\
  (exists runs', reconcile_rows stage pipeline_id current now runs = Ok (tt, runs') /\
     forall i, (runs' !! i = (fun r => if left_running pipeline_id current i r then interrupted (stage r) now r else r) <$> runs !! i) /\
               forall r, runs' !! i = Some r -> left_running pipeline_id current i r = false) /\
  update_run false run_id (finished_row status c f) now runs =
    Ok (tt, match runs !! run_id with
            | Some r => <[run_id := RunRow (rw_pipeline_id r) (rw_source r) status (Some (terminal_stage status (fl_stage f)))
                                      (rw_started_at r) (Some now) c f]> runs
            | None => runs
            end).
Proof.
  split_and!.
  - apply restart_body_eq.
  - eexists. split; [done|]. intros i. rewrite map_lookup_imap. destruct (runs !! i) as [r|]; cbn; [|done].
    split; [done|]. intros r' [= <-]. by destruct (left_running _ _ _ r) eqn:E.
  - unfold update_run. by destruct (runs !! run_id).
Qed.

(** ** Rows without a key *)

(** A list of rows in which no run occurs twice is a map. *)
Definition table_map (rows : list (string * run_row)) : gmap string run_row := list_to_map rows.

Lemma update_rows_lookup (which : string * run_row -> bool) (set_ : run_row -> run_row) rows i :
  table_map (map_rows which set_ rows) !! i =
  (fun r => if which (i, r) then set_ r else r) <$> table_map rows !! i.
Proof.
  unfold table_map, map_rows. induction rows as [|[j r] rows IH]; [done|]. rewrite map_cons.
  assert ((if which (j, r) then ((j, r).1, set_ (j, r).2) else (j, r)) = (j, if which (j, r) then set_ r else r)) as -> by by destruct (which _).
  cbn [list_to_map foldr fst snd uncurry]. destruct (decide (i = j)) as [->|Hi].
  - by rewrite !lookup_insert_eq.
  - by rewrite !lookup_insert_ne.
Qed.
Lemma update_rows_keys (which : string * run_row -> bool) (set_ : run_row -> run_row) (rows : list (string * run_row)) :
  (map_rows which set_ rows).*1 = rows.*1.
Proof. unfold map_rows. induction rows as [|p rows IH]; cbn; [done|]. rewrite IH. by destruct (which p). Qed.

Lemma of_run_rows run_id rows : NoDup rows.*1 ->
  filter (fun p => of_run run_id p = true) rows = match table_map rows !! run_id with Some r => [(run_id, r)] | None => [] end.
Proof.
  unfold table_map. induction rows as [|[j r] rows IH]; [done|]. rewrite fmap_cons, NoDup_cons. intros [Hn Hd].
  specialize (IH Hd). cbn [list_to_map foldr fst snd uncurry]. destruct (decide (j = run_id)) as [->|Hj].
  - rewrite filter_cons_True by (by apply bool_decide_eq_true). rewrite IH, lookup_insert_eq.
    by rewrite (not_elem_of_list_to_map_1 rows run_id Hn).
  - rewrite filter_cons_False by (by intros H%bool_decide_eq_true). by rewrite IH, lookup_insert_ne.
Qed.

(** Both refuse, or both lead to the same rows, and the list still has no
    duplicates. *)
Definition same_outcome (a : result (unit * list (string * run_row))) (b : result (unit * gmap string run_row)) : Prop :=
  match a, b with
  | Ok (_, rows), Ok (_, runs) => NoDup rows.*1 /\ table_map rows = runs
  | Raise _, Raise _ => True
  | _, _ => False
  end.
Definition stage_or_ingest (r : run_row) : option RunStage := Some (or_else (rw_stage r) INGEST).

(** The BigQuery history agrees with the keyed ones. On a table without
    duplicates, restarts are accepted for the same runs, and restarts,
    outcomes, progress and reconciliations lead to the same rows and no
    duplicates. *)
Theorem histories_agree rows now run_id pipeline_id source current set_ (Hd : NoDup rows.*1) :
  same_outcome (restart_rows run_id pipeline_id source now rows) (restart_body run_id pipeline_id source now (table_map rows)) /\
  same_outcome (update_rows (of_run run_id) set_ now rows) (update_run false run_id set_ now (table_map rows)) /\
  same_outcome (update_rows (fun p => left_running pipeline_id current p.1 p.2) (fun now r => interrupted (stage_or_ingest r) now r) now rows)
    (reconcile_rows stage_or_ingest pipeline_id current now (table_map rows)).
Proof.
  unfold same_outcome. split_and!.
  - rewrite restart_body_eq. unfold restart_rows. rewrite of_run_rows by done.
    destruct (table_map rows !! run_id) as [r|] eqn:E; cbn [may_restart].
    + rewrite (bool_decide_false ([(run_id, r)] = [])) by done. cbn. rewrite orb_false_r.
      destruct (retryable_failure pipeline_id source r) eqn:Er; cbn; [|done].
      split; [by rewrite update_rows_keys|]. apply map_eq. intros i. rewrite update_rows_lookup.
      destruct (decide (i = run_id)) as [->|Hi].
      * rewrite E, lookup_insert_eq. unfold of_run; cbn. by rewrite bool_decide_true.
      * rewrite lookup_insert_ne by done. unfold of_run; cbn. rewrite bool_decide_false by done. by destruct (table_map rows !! i).
    + cbn. assert (run_id ∉ rows.*1) as Hn by by apply not_elem_of_list_to_map_2. split.
      * rewrite fmap_app. apply NoDup_app. split_and!; [done| |by repeat constructor; set_solver].
        by intros q Hq ->%list_elem_of_singleton.
      * unfold table_map. rewrite list_to_map_snoc by done. done.
  - unfold update_rows, update_run. cbn [andb]. destruct (table_map rows !! run_id) as [r|] eqn:E;
      (split; [by rewrite update_rows_keys|]); apply map_eq; intros i; rewrite update_rows_lookup; unfold of_run; cbn;
      (destruct (decide (i = run_id)) as [->|Hi];
        [rewrite E, ?lookup_insert_eq, ?bool_decide_true by done|rewrite ?lookup_insert_ne, bool_decide_false by done;
         by destruct (table_map rows !! i)]); done.
  - unfold update_rows, reconcile_rows. split; [by rewrite update_rows_keys|]. apply map_eq. intros i.
    rewrite update_rows_lookup, map_lookup_imap. by destruct (table_map rows !! i).
Qed.


(** ** Examples *)

Definition running_row : run_row := started_row "nightly" "orders" 1.
Definition failed_row : run_row := finished_row FAILED no_counts (Failure (Some INGEST) (Some "rate_limited") None) 5 running_row.

Lemma histories_agree_witness :
  let rows := [("run-1", failed_row); ("run-2", running_row)] in
  same_outcome (restart_rows "run-1" "nightly" "orders" 9 rows) (restart_body "run-1" "nightly" "orders" 9 (table_map rows)) /\
  same_outcome (update_rows (of_run "run-1") (fun _ => hosted_checkpoint TRANSFORM no_counts) 9 rows)
    (update_run false "run-1" (fun _ => hosted_checkpoint TRANSFORM no_counts) 9 (table_map rows)) /\
  same_outcome (update_rows (fun p => left_running "nightly" "run-3" p.1 p.2) (fun now r => interrupted (stage_or_ingest r) now r) 9 rows)
    (reconcile_rows stage_or_ingest "nightly" "run-3" 9 (table_map rows)).
Proof. apply (histories_agree [("run-1", failed_row); ("run-2", running_row)] 9 "run-1" "nightly" "orders" "run-3" (fun _ => hosted_checkpoint TRANSFORM no_counts)). apply has_dup_false. reflexivity. Defined.

(** A run that was reconciled as interrupted and still reports progress is
    running again in the hosted stores, although it has an end; the local store
    keeps the outcome. *)
Example hosted_checkpoint_revives :
  let gone := interrupted (Some INGEST) 7 running_row in
  rw_status (hosted_checkpoint TRANSFORM no_counts gone) = RUNNING /\ rw_finished_at (hosted_checkpoint TRANSFORM no_counts gone) = Some 7 /\
  rw_status (local_checkpoint TRANSFORM no_counts gone) = FAILED.
Proof. done. Qed.
