(* ===== verification/Failure.v ===== *)
(** * Failure summaries ([state/failure.py])

    An exception is classified by the classes, the statuses and a few known
    phrases of its cause chain, and never quoted.  Exceptions are objects of a
    store: a chain may run in a circle. *)

From S2P Require Import Prelude Regex PyStr RunHistory StatePort.

Local Open Scope string_scope.
Local Open Scope Z_scope.
Local Open Scope list_scope.

(** What the classification reads of an exception: the name of its class,
    [str(error)], the integers among its attributes, and the objects it was
    raised from and while handling. *)
Record error_object : Type := {
  eo_class : string;
  eo_text : string;
  eo_response_status_code : option Z;
  eo_response_http_status : option Z;      (* response["ResponseMetadata"]["HTTPStatusCode"] *)
  eo_status_code : option Z;
  eo_status : option Z;
  eo_cause : option nat;
  eo_context : option nat;
}.
Abbreviation objects := (gmap nat error_object).

Definition MAX_SUMMARY_LENGTH : nat := 512.
Definition MAX_EXCEPTION_CHAIN : nat := 8.
Definition MAX_EXCEPTION_CLASS_LENGTH : Z := 128.
(** [^[A-Za-z_][A-Za-z0-9_]*$] *)
Definition SAFE_EXCEPTION_CLASS : re := plain_word.

(** The loop of [_exception_chain]: at most [room] more objects, none twice. *)
Fixpoint chain_from (os : objects) (room : nat) (seen : list nat) (current : option nat) : list error_object :=
  match room, current with
  | S room, Some i =>
      if bool_decide (i ∈ seen) then []
      else match os !! i with
           | Some e => e :: chain_from os room (i :: seen) (or_opt (eo_cause e) (eo_context e))
           | None => []
           end
  | _, _ => []
  end.
Definition exception_chain (os : objects) (error : nat) : list error_object := chain_from os MAX_EXCEPTION_CHAIN [] (Some error).

Definition valid_status (o : option Z) : option Z :=
  match o with Some v => if (100 <=? v) && (v <=? 599) then Some v else None | None => None end.
Definition status_code (e : error_object) : option Z :=
  or_opt (valid_status (eo_response_status_code e)) (or_opt (valid_status (eo_response_http_status e))
    (or_opt (valid_status (eo_status_code e)) (valid_status (eo_status e)))).
Definition safe_exception_class (e : error_object) : string :=
  if (py_len (eo_class e) <=? MAX_EXCEPTION_CLASS_LENGTH) && fullmatch SAFE_EXCEPTION_CLASS (eo_class e) then eo_class e else "Exception".
Definition has_known_phrase (chain : list error_object) (phrase : string) : bool :=
  existsb (fun e => contains phrase (to_lower (eo_text e))) chain.

Record FailureDetails : Type := {
  fd_code : string;
  fd_summary : string;
  fd_exception_class_chain : list string;
  fd_status_code : option Z;
}.
(** [next(... for item in chain if ... is not None, None)]. *)
Fixpoint first_status (chain : list error_object) : option Z :=
  match chain with
  | [] => None
  | e :: chain => or_opt (status_code e) (first_status chain)
  end.
Definition truncated (n : nat) (s : string) : string := of_chars (take n (chars s)).
Definition details (chain : list error_object) (code summary : string) : FailureDetails :=
  {| fd_code := code;
     fd_summary := truncated MAX_SUMMARY_LENGTH (join " " (split_words summary));
     fd_exception_class_chain := map safe_exception_class chain;
     fd_status_code := first_status chain |}.

Definition has_status (chain : list error_object) (n : Z) : bool := existsb (fun e => bool_decide (status_code e = Some n)) chain.
Definition has_class (chain : list error_object) (names : list string) : bool := existsb (fun e => bool_decide (eo_class e ∈ names)) chain.

Definition classify_chain (chain : list error_object) (stage : RunStage) (run_id : string) : FailureDetails :=
  let details := details chain in
  let logs := "Inspect logs for run " +:+ run_id +:+ "." in
  if has_class chain ["RuntimeCancelledError"] then
    details "interrupted_run" ("The runtime received a cancellation signal. A fresh run can retry safely; inspect logs for run " +:+ run_id +:+ ".")
  else if has_status chain 401 || has_class chain ["FargateIdentityError"; "NoCredentialsError"; "PartialCredentialsError"; "Unauthenticated"; "Unauthorized"] then
    details "authentication_failed" "Authentication failed. Verify the configured secret and provider credentials."
  else if has_status chain 403 || has_class chain ["Forbidden"; "PermissionDenied"] then
    details "permission_denied" "Permission was denied. Verify the selected provider permissions for this pipeline."
  else if has_status chain 429 || has_class chain ["TooManyRequests"; "ResourceExhausted"] then
    details "rate_limited" "The source throttled this run after bounded retries. Retry after its limit resets."
  else if has_class chain ["LeaseLostError"; "WatermarkConflictError"] then
    details "lease_failed" "Pipeline ownership or cursor fencing was lost. A fresh run can retry safely."
  else if has_class chain ["RedshiftConnectionUnavailableError"] then
    details "destination_write_failed" "Redshift was temporarily unavailable. A fresh run can retry safely."
  else if has_class chain ["RawSchemaError"; "CursorValueError"; "WarehouseSchemaSupportError"] then
    details "source_schema_failed" ("The declared source schema is unsupported or a record did not match it. " +:+ logs)
  else if has_class chain ["BigQueryWriteError"; "DestinationWriteError"; "WarehouseWriteError"] then
    details "destination_write_failed" ("The destination rejected a write. " +:+ logs)
  else if has_class chain ["TransformProjectError"; "TransformRunError"; "GraphRuntimeError"] then
    details "transform_failed" ("A transform failed. " +:+ logs)
  else if has_class chain ["CatalogPublishError"; "SemanticRegistryError"] then
    details "catalog_failed" ("Metadata or catalog publication failed. " +:+ logs)
  else if bool_decide (stage = TRANSFORM) then
    if has_known_phrase chain "data tests failed" then details "test_failed" ("Data tests failed. " +:+ logs)
    else details "transform_failed" ("A transform failed. " +:+ logs)
  else if bool_decide (stage = METADATA) then
    details "catalog_failed" ("Metadata or catalog publication failed. " +:+ logs)
  else if has_class chain ["EnterpriseSourceError"] then
    if has_known_phrase chain "authentication failed" then
      details "authentication_failed" "Authentication failed. Verify the configured secret and provider credentials."
    else if has_known_phrase chain "permission denied" then
      details "permission_denied" "Permission was denied. Verify the provider permissions for this pipeline."
    else details "extraction_failed" ("Source extraction failed after bounded retries. " +:+ logs)
  else
    details "unexpected_error" ("The " +:+ stage_value stage +:+ " stage failed unexpectedly. Inspect launcher logs for run " +:+ run_id +:+ ".").
Definition classify_failure (os : objects) (error : nat) (stage : RunStage) (run_id : string) : FailureDetails :=
  classify_chain (exception_chain os error) stage run_id.

(** ** The summary is bounded and quotes nothing *)

Definition failure_codes : list string :=
  ["interrupted_run"; "authentication_failed"; "permission_denied"; "rate_limited"; "lease_failed"; "destination_write_failed";
   "source_schema_failed"; "transform_failed"; "catalog_failed"; "test_failed"; "extraction_failed"; "unexpected_error"].

(** The texts of two objects are alike for the classification. *)
Definition known_phrases : list string := ["data tests failed"; "authentication failed"; "permission denied"].
Definition like (e f : error_object) : Prop :=
  (eo_class e, eo_response_status_code e, eo_response_http_status e, eo_status_code e, eo_status e, eo_cause e, eo_context e) =
  (eo_class f, eo_response_status_code f, eo_response_http_status f, eo_status_code f, eo_status f, eo_cause f, eo_context f) /\
  Forall (fun phrase => contains phrase (to_lower (eo_text e)) = contains phrase (to_lower (eo_text f))) known_phrases.

Lemma chain_length os room seen i : (length (chain_from os room seen i) <= room)%nat.
Proof.
  revert seen i. induction room as [|room IH]; intros seen [i|]; cbn; try lia.
  case_bool_decide; cbn; [lia|]. destruct (os !! i); cbn; [|lia]. by apply le_n_S.
Qed.

Lemma details_cases (P : FailureDetails -> Prop) chain stage run_id :
  (forall code summary, code ∈ failure_codes -> P (details chain code summary)) -> P (classify_chain chain stage run_id).
Proof.
  intros H. unfold classify_chain. cbv zeta.
  repeat match goal with |- P (if ?b then _ else _) => destruct b end; apply H; apply (bool_decide_eq_true_1 _); reflexivity.
Qed.

Lemma chain_like os os' :
  (forall i, option_Forall2 like (os !! i) (os' !! i)) ->
  forall room seen i, Forall2 like (chain_from os room seen i) (chain_from os' room seen i).
Proof.
  intros H. induction room as [|room IH]; intros seen [i|]; cbn; try constructor.
  case_bool_decide; [constructor|]. specialize (H i). destruct H as [e f Hl|]; [|constructor].
  constructor; [done|]. destruct Hl as [E _]. injection E as _ _ _ _ _ -> ->. apply IH.
Qed.

Section Like.
Context (c d : list error_object) (H : Forall2 like c d).
Lemma like_exists (f g : error_object -> bool) : (forall e e', like e e' -> f e = g e') -> existsb f c = existsb g d.
Proof. intros Hf. clear -H Hf. induction H as [|e e' c' d' Hl Ht IH]; cbn; [done|]. by rewrite (Hf e e' Hl), IH. Qed.
Lemma like_status e f : like e f -> status_code e = status_code f.
Proof. intros [E _]. injection E as _ E1 E2 E3 E4 _ _. unfold status_code. by rewrite E1, E2, E3, E4. Qed.
Lemma like_phrase phrase : phrase ∈ known_phrases -> has_known_phrase c phrase = has_known_phrase d phrase.
Proof. intros Hp. apply like_exists. intros e e' [_ Hl]. rewrite Forall_forall in Hl. by apply Hl. Qed.
Lemma like_class names : has_class c names = has_class d names.
Proof. apply like_exists. intros e e' [E _]. injection E as -> _. done. Qed.
Lemma like_has_status n : has_status c n = has_status d n.
Proof. apply like_exists. intros e e' Hl. by rewrite (like_status _ _ Hl). Qed.
Lemma like_details code summary : details c code summary = details d code summary.
Proof.
  unfold details. f_equal.
  - clear -H. induction H as [|e e' c' d' [E _] Ht IH]; cbn; [done|]. rewrite IH by done. injection E as E _. unfold safe_exception_class. by rewrite E.
  - clear -H. induction H as [|e e' c' d' Hl Ht IH]; cbn; [done|]. by rewrite (like_status _ _ Hl), IH.
Qed.
Lemma like_classify stage run_id : classify_chain c stage run_id = classify_chain d stage run_id.
Proof.
  assert (forall phrase, bool_decide (phrase ∈ known_phrases) = true -> has_known_phrase c phrase = has_known_phrase d phrase) as Hp
    by (intros phrase Hb; apply like_phrase; by apply bool_decide_eq_true_1 in Hb).
  unfold classify_chain. cbv zeta. rewrite !like_class, !like_has_status, !Hp by reflexivity.
  by rewrite !like_details.
Qed.
End Like.

(** C34: a failure summary is sanitized. Whatever the exception, the code is one
    of twelve, the summary has at most 512 characters, the chain at most eight
    class names, each an identifier of at most 128 characters, and the status
    is an HTTP status; and nothing of the exception's text gets into it: two
    exceptions that differ only in texts that contain the same of three known
    phrases have the same summary. *)
Theorem failure_sanitized os os' error stage run_id :
  let d := classify_failure os error stage run_id in
  fd_code d ∈ failure_codes /\
  (length (chars (fd_summary d)) <= 512)%nat /\
  (length (fd_exception_class_chain d) <= 8)%nat /\
  Forall (fun c => c = "Exception" \/ py_len c <= 128 /\ fullmatch SAFE_EXCEPTION_CLASS c = true) (fd_exception_class_chain d) /\
  (forall n, fd_status_code d = Some n -> 100 <= n <= 599) /\
  ((forall i, option_Forall2 like (os !! i) (os' !! i)) -> classify_failure os' error stage run_id = d).
Proof.
  cbv zeta. unfold classify_failure. set (chain := exception_chain os error).
  assert (length chain <= 8)%nat as Hlen by apply chain_length.
  split; [by apply details_cases|]. split; [|split; [|split; [|split]]].
  - apply details_cases. intros code summary _. cbn. unfold truncated. rewrite chars_of_chars. rewrite length_take. lia.
  - apply details_cases. intros code summary _. cbn. by rewrite length_map.
  - apply details_cases. intros code summary _. cbn. apply Forall_map, Forall_true. intros e. unfold compose, safe_exception_class.
    destruct (_ && _) eqn:E; [|by left]. right. apply andb_true_iff in E as [E ->]. split; [by apply Z.leb_le|done].
  - apply details_cases. intros code summary _ n. clear Hlen. clearbody chain. cbn. induction chain as [|e chain IH]; cbn; [done|].
    destruct (status_code e) as [v|] eqn:E; [|apply IH]. intros [= <-]. revert E. unfold status_code.
    assert (forall o k, or_opt (valid_status o) k = Some v -> 100 <= v <= 599 \/ k = Some v) as Hv.
    { intros [x|] k; cbn; [|by right]. destruct (_ && _) eqn:E; cbn; [|by right]. intros [= ->].
      apply andb_true_iff in E as [?%Z.leb_le ?%Z.leb_le]. left. lia. }
    intros [|[|[|E]%Hv]%Hv]%Hv; try done. destruct (eo_status e) as [x|]; cbn in E; [|done].
    destruct (_ && _) eqn:Ex; [|done]. injection E as ->. apply andb_true_iff in Ex as [?%Z.leb_le ?%Z.leb_le]. lia.
  - intros H. symmetry. apply like_classify. by apply chain_like.
Qed.
