(* ===== verification/Ingestion.v ===== *)
(** * Extraction and loading ([runtime.py])

    [PipelineRunner] runs every endpoint of a source: it reads the watermark,
    extracts, writes in batches or at once, and commits the new cursor last.  The
    source, the writer and the destination's target fence are parameters with the
    operations of their protocols; records arrive as the stream that
    [_normalized_records] yields, so declared schemas are the source's matter.
    The calls made are recorded for the proofs. *)

From S2P Require Import Prelude Regex PyStr StatePort RunHistory.

Local Open Scope string_scope.
Local Open Scope Z_scope.
Local Open Scope list_scope.

(** ** Records *)

(** What the runner tells apart in a field; [VOther] is any other scalar with its
    text ([isoformat()] of a datetime, [str] of the rest). *)
Inductive value : Type :=
  | VNone | VBool (b : bool) | VInt (n : Z) | VStr (s : string) | VOther (text : string) | VList | VDict.
Definition record : Type := list (string * value).
Definition field_of (name : string) (r : record) : value :=
  match find (fun p => bool_decide (p.1 = name)) r with Some p => p.2 | None => VNone end.

(** [str(value)] of a scalar. *)
Definition cursor_text (v : value) : option string :=
  match v with
  | VNone | VList | VDict => None
  | VBool b => Some (if b then "True" else "False")
  | VInt n => Some (py_str n)
  | VStr s | VOther s => Some s
  end.

Record endpoint : Type := {
  en_name : string;
  en_primary_key : list string;
  en_incremental_cursor : option string;
  en_cursor_param : option string;
}.

(** What an extraction yields: records, then the end or an error. *)
Record stream : Type := { sm_records : list record; sm_error : option exn }.

(** ** Observing *)

Record observation : Type := { ob_extracted : Z; ob_maximum_cursor : option string }.
Definition no_observation : observation := {| ob_extracted := 0; ob_maximum_cursor := None |}.

(** [max(a, b)] of two strings. *)
Definition str_max (a b : string) : string := if str_leb b a then a else b.

Definition cursor_missing (e : endpoint) (index : Z) (field : string) : exn :=
  Exn CursorValueError ("Endpoint " +:+ py_repr (en_name e) +:+ " record " +:+ py_str index +:+ " has no scalar cursor field " +:+ py_repr field) [].

Definition observe (e : endpoint) (o : observation) (r : record) : result observation :=
  let n := ob_extracted o + 1 in
  match en_incremental_cursor e with
  | None => Ok {| ob_extracted := n; ob_maximum_cursor := ob_maximum_cursor o |}
  | Some field =>
      match cursor_text (field_of field r) with
      | None => Raise (cursor_missing e (ob_extracted o) field)
      | Some cursor =>
          Ok {| ob_extracted := n;
                ob_maximum_cursor := Some (match ob_maximum_cursor o with Some m => str_max m cursor | None => cursor end) |}
      end
  end.
Fixpoint observe_all (e : endpoint) (o : observation) (rs : list record) : result observation :=
  match rs with
  | [] => Ok o
  | r :: rs => o ← observe e o r; observe_all e o rs
  end.

(** [_observed_records]: the stream stops at the first record that cannot be
    observed. *)
Fixpoint observed_from (e : endpoint) (o : observation) (rs : list record) (error : option exn) : stream :=
  match rs with
  | [] => {| sm_records := []; sm_error := error |}
  | r :: rs =>
      match observe e o r with
      | Ok o => let s := observed_from e o rs error in {| sm_records := r :: sm_records s; sm_error := sm_error s |}
      | Raise x => {| sm_records := []; sm_error := Some x |}
      end
  end.
Definition observed_records (e : endpoint) (s : stream) : stream := observed_from e no_observation (sm_records s) (sm_error s).

(** ** The collaborators *)

Record RelationRef : Type := { rl_catalog : string; rl_namespace : string; rl_name : string }.
Record WriteTarget : Type := {
  wt_relation : RelationRef;
  wt_business_key : list string;
  wt_fence : option FencingToken;
  wt_publication_fence : option TargetFence;
}.

(** [WritePattern]; a streaming writer says how many records it consumed. *)
Record WritePattern (W Tm : Type) : Type := {
  wp_supports_batched_writes : bool;
  wp_accepts_streaming_input : bool;
  wp_requires_publication_fence : bool;
  wp_write : list record -> WriteTarget -> M W Z;
  wp_write_stream : stream -> WriteTarget -> M W (Z * nat);
  wp_drain_telemetry : M W (list Tm);
}.
Arguments wp_supports_batched_writes {W Tm}.
Arguments wp_accepts_streaming_input {W Tm}.
Arguments wp_requires_publication_fence {W Tm}.
Arguments wp_write {W Tm}.
Arguments wp_write_stream {W Tm}.
Arguments wp_drain_telemetry {W Tm}.

(** [OwnershipGuard]. *)
Record Ownership (W : Type) : Type := { ow_fence : option FencingToken; ow_verify : M W unit }.
Arguments ow_fence {W}.
Arguments ow_verify {W}.

Record EndpointRunResult (Tm : Type) : Type := {
  er_endpoint : string;
  er_extracted : Z;
  er_affected : Z;
  er_committed_cursor : option string;
  er_telemetry : list Tm;
}.
Arguments er_endpoint {Tm}.
Arguments er_extracted {Tm}.
Arguments er_affected {Tm}.
Arguments er_committed_cursor {Tm}.
Arguments er_telemetry {Tm}.

Record PipelineRunner (W Tm : Type) : Type := {
  pn_source : string;
  pn_endpoints : list endpoint;
  pn_extract : string -> option string -> M W stream;          (* source.extract(name, since) *)
  pn_writer : WritePattern W Tm;
  pn_target_fence : option (RelationRef -> FencingToken -> M W TargetFence);
  pn_relations : gmap string RelationRef;
  pn_endpoint_names : option (list string);
  pn_resume_from_watermark : bool;
  pn_batch_rows : Z;
}.
Arguments pn_source {W Tm}.
Arguments pn_endpoints {W Tm}.
Arguments pn_extract {W Tm}.
Arguments pn_writer {W Tm}.
Arguments pn_target_fence {W Tm}.
Arguments pn_relations {W Tm}.
Arguments pn_endpoint_names {W Tm}.
Arguments pn_resume_from_watermark {W Tm}.
Arguments pn_batch_rows {W Tm}.
Record PipelineRunResult (Tm : Type) : Type := { pr_run_id : string; pr_source : string; pr_endpoints : list (EndpointRunResult Tm) }.
Arguments pr_run_id {Tm}.
Arguments pr_source {Tm}.
Arguments pr_endpoints {Tm}.

(** [__init__]; the first missing and the first unknown name in sorted order. *)
Definition first_name (l : list string) : option string := head (py_sorted str_leb l).
Definition missing_names (l known : list string) : list string := filter (fun n => n ∉ known) l.
Definition name_reject (names : list string) (m : string) : result unit :=
  match first_name names with Some n => raise_ ValueError (m +:+ py_repr n) | None => Ok tt end.
Definition check_endpoint_names (names : option (list string)) (configured : list string) : result unit :=
  match names with
  | None => Ok tt
  | Some requested =>
      _ ← value_reject (bool_decide (requested = [])) "endpoint_names must select at least one endpoint";
      _ ← value_reject (has_dup requested) "endpoint_names must not contain duplicates";
      name_reject (missing_names requested configured) "Unknown configured endpoint: "
  end.
Definition default_relations (source project dataset : string) (configured : list string) : gmap string RelationRef :=
  list_to_map (map (fun n => (n, {| rl_catalog := project; rl_namespace := dataset; rl_name := source +:+ "_" +:+ n |})) configured).
Definition endpoint_relations (source : string) (relations : option (gmap string RelationRef)) (project dataset : option string)
    (configured : list string) : result (gmap string RelationRef) :=
  match relations with
  | None =>
      match project, dataset with
      | Some p, Some d => Ok (default_relations source p d configured)
      | _, _ => raise_ ValueError "PipelineRunner requires endpoint_relations or legacy project/dataset"
      end
  | Some relations =>
      _ ← value_reject (is_some project || is_some dataset) "PipelineRunner cannot combine endpoint_relations with project/dataset";
      Ok relations
  end.
Definition new_pipeline_runner {W Tm} (source : string) (endpoints : list endpoint) (extract : string -> option string -> M W stream)
    (writer : WritePattern W Tm) (target_fence : option (RelationRef -> FencingToken -> M W TargetFence))
    (relations : option (gmap string RelationRef)) (project dataset : option string) (names : option (list string))
    (resume : bool) (batch_rows : Z) : result (PipelineRunner W Tm) :=
  _ ← value_reject (negb ((1 <=? batch_rows) && (batch_rows <=? 100000))) "batch_rows must be an integer from 1 to 100000";
  let configured := map en_name endpoints in
  relations ← endpoint_relations source relations project dataset configured;
  let keys := (map_to_list relations).*1 in
  _ ← name_reject (missing_names configured keys) "Missing target relation for endpoint: ";
  _ ← name_reject (missing_names keys configured) "Unknown target relation endpoint: ";
  _ ← check_endpoint_names names configured;
  Ok {| pn_source := source; pn_endpoints := endpoints; pn_extract := extract; pn_writer := writer; pn_target_fence := target_fence;
        pn_relations := relations; pn_endpoint_names := names; pn_resume_from_watermark := resume; pn_batch_rows := batch_rows |}.

(** ** One endpoint *)

(** The calls of an endpoint's run with what they answered. *)
Inductive event : Type :=
  | EvCursor (answer : result (option string))
  | EvVerify (ok : bool)
  | EvClaim (ok : bool)
  | EvExtract (answer : result stream)
  | EvWrite (rs : list record) (ok : bool)
  | EvCommit (expected : option string) (cursor : string) (answer : result bool).

Section Run.
Context {W Tm : Type} {WS : WatermarkStore W} (pn : PipelineRunner W Tm) (own : option (Ownership W)).
Abbreviation St := (W * list event)%type.

(** A call and its record. *)
Definition call {A} (m : M W A) (ev : result A -> event) : M St A := fun s =>
  let '(r, w) := m s.1 in (r, (w, s.2 ++ [ev r])).
(** A call that is not recorded. *)
Definition quietly {A} (m : M W A) : M St A := fun s => let '(r, w) := m s.1 in (r, (w, s.2)).

Definition verify_ownership : M St unit :=
  match own with Some o => call (ow_verify o) (fun r => EvVerify (is_ok r)) | None => mret tt end.

Definition truthy (o : option string) : bool := match o with Some s => negb (empty s) | None => false end.

(** [_write_with_telemetry]. *)
Definition write_with_telemetry {A} (write : M St A) : M St (A * list Tm) :=
  _ ← quietly (wp_drain_telemetry (pn_writer pn));
  affected ← try_except write (fun e =>
    _ ← try_except (_ ← quietly (wp_drain_telemetry (pn_writer pn)); mret tt) (fun _ => mret tt);
    lift (Raise e));
  telemetry ← quietly (wp_drain_telemetry (pn_writer pn));
  mret (affected, telemetry).
Definition write_records (target : WriteTarget) (rs : list record) : M St (Z * list Tm) :=
  write_with_telemetry (call (wp_write (pn_writer pn) rs target) (fun r => EvWrite rs (is_ok r))).
Definition write_stream (target : WriteTarget) (s : stream) : M St ((Z * nat) * list Tm) :=
  write_with_telemetry (call (wp_write_stream (pn_writer pn) s target)
    (fun r => match r with Ok (_, n) => EvWrite (take n (sm_records s)) true | Raise _ => EvWrite [] false end)).

(** [batched(records, n)]: the full batches and what is left; [room] is what the
    current batch still takes. *)
Fixpoint batches (n room : nat) (batch rs : list record) : list (list record) * list record :=
  match rs with
  | [] => ([], rev batch)
  | r :: rs =>
      match room with
      | S (S k) => batches n (S k) (r :: batch) rs
      | _ => let '(bs, rest) := batches n n [] rs in (rev (r :: batch) :: bs, rest)
      end
  end.

Definition write_batch (target : WriteTarget) (rs : list record) : M St (Z * list Tm) :=
  _ ← verify_ownership; write_records target rs.
Fixpoint write_all (target : WriteTarget) (bs : list (list record)) : M St (Z * list Tm) :=
  match bs with
  | [] => mret (0, [])
  | b :: bs =>
      '(n, t) ← write_batch target b;
      '(m, u) ← write_all target bs;
      mret (n + m, t ++ u)
  end.
(** [_write_batched]: an error of the stream comes after the batches before it. *)
Definition write_batched (target : WriteTarget) (s : stream) : M St (Z * list Tm) :=
  let '(full, rest) := batches (Z.to_nat (pn_batch_rows pn)) (Z.to_nat (pn_batch_rows pn)) [] (sm_records s) in
  '(n, t) ← write_all target full;
  match sm_error s with
  | Some e => lift (Raise e)
  | None =>
      if bool_decide (rest = []) && negb (bool_decide (full = [])) then mret (n, t)
      else '(m, u) ← write_batch target rest; mret (n + m, t ++ u)
  end.

(** The write of an endpoint: rows affected, telemetry, and the records the
    runner has observed by then. *)
Definition write_observed (target : WriteTarget) (s : stream) : M St (Z * list Tm * list record) :=
  if wp_supports_batched_writes (pn_writer pn) then
    '(n, t) ← write_batched target s; mret (n, t, sm_records s)
  else if wp_accepts_streaming_input (pn_writer pn) then
    _ ← verify_ownership;
    '((n, k), t) ← write_stream target s; mret (n, t, take k (sm_records s))
  else
    _ ← (match sm_error s with Some e => lift (Raise e) | None => mret tt end);
    _ ← verify_ownership;
    '(n, t) ← write_records target (sm_records s); mret (n, t, sm_records s).

Definition claim_target (target : WriteTarget) : M St WriteTarget :=
  if wp_requires_publication_fence (pn_writer pn) then
    match own, pn_target_fence pn with
    | Some o, Some claim =>
        match ow_fence o with
        | Some f =>
            tf ← call (claim (wt_relation target) f) (fun r => EvClaim (is_ok r));
            mret {| wt_relation := wt_relation target; wt_business_key := wt_business_key target; wt_fence := wt_fence target;
                    wt_publication_fence := Some tf |}
        | None => raiseM RuntimeError "Hosted destination writes require target-fence ownership"
        end
    | _, _ => raiseM RuntimeError "Hosted destination writes require target-fence ownership"
    end
  else mret target.

Definition cursor_to_commit (e : endpoint) (stored : option string) (maximum : string) : string :=
  match stored with
  | Some c => if bool_decide (en_cursor_param e = Some "") || negb (pn_resume_from_watermark pn) then str_max c maximum else maximum
  | None => maximum
  end.

Definition watermark_conflict (e : endpoint) : exn :=
  Exn WatermarkConflictError ("Watermark boundary changed for endpoint " +:+ py_repr (en_name e)) [].

(** The last step: the cursor, if there is one. *)
Definition commit_cursor (e : endpoint) (stored : option string) (o : observation) : M St (option string) :=
  match ob_maximum_cursor o with
  | Some maximum =>
      if ob_extracted o =? 0 then mret None
      else
        _ ← verify_ownership;
        let cursor := cursor_to_commit e stored maximum in
        committed ← call (compare_and_set (pn_source pn) (en_name e) stored cursor (match own with Some o => ow_fence o | None => None end))
                      (EvCommit stored cursor);
        if committed : bool then mret (Some cursor) else lift (Raise (watermark_conflict e))
  | None => mret None
  end.

Definition run_endpoint (e : endpoint) : M St (EndpointRunResult Tm) :=
  relation ← lift (match pn_relations pn !! en_name e with Some r => Ok r | None => raise_ KeyError (py_repr (en_name e)) end);
  let target := {| wt_relation := relation; wt_business_key := en_primary_key e;
                   wt_fence := match own with Some o => ow_fence o | None => None end; wt_publication_fence := None |} in
  stored ← (if truthy (en_incremental_cursor e) then call (get_cursor (pn_source pn) (en_name e)) EvCursor else mret None);
  let since := if pn_resume_from_watermark pn then stored else None in
  _ ← verify_ownership;
  target ← claim_target target;
  extracted ← call (pn_extract pn (en_name e) since) EvExtract;
  let observed := observed_records e extracted in
  '(affected, telemetry, consumed) ← write_observed target observed;
  o ← lift (observe_all e no_observation consumed);
  committed ← commit_cursor e stored o;
  mret {| er_endpoint := en_name e; er_extracted := ob_extracted o; er_affected := affected;
          er_committed_cursor := committed; er_telemetry := telemetry |}.

(** ** The run *)

Definition selected_endpoint (e : endpoint) : bool :=
  match pn_endpoint_names pn with Some names => bool_decide (en_name e ∈ names) | None => true end.

(** The loop keeps what was completed when an endpoint fails. *)
Fixpoint run_endpoints (es : list endpoint) (completed : list (EndpointRunResult Tm)) : M St (list (EndpointRunResult Tm) * option exn) :=
  match es with
  | [] => mret (completed, None)
  | e :: es =>
      if negb (selected_endpoint e) then run_endpoints es completed
      else fun s => match run_endpoint e s with
                    | (Ok r, s') => run_endpoints es (completed ++ [r]) s'
                    | (Raise x, s') => (Ok (completed, Some x), s')
                    end
  end.

Definition summed (f : EndpointRunResult Tm -> Z) (rs : list (EndpointRunResult Tm)) : Z := foldr Z.add 0 (map f rs).

(** [_finish_history] of a runner with its own history. *)
Definition finish_history (history : option (RunHistoryStore W)) (run_id : string) (completed : list (EndpointRunResult Tm))
    (status : RunStatus) : M St unit :=
  match history with
  | None => mret tt
  | Some h =>
      quietly (@finish W h run_id status
        (Counts (Z.of_nat (length completed)) (summed er_extracted completed) (summed er_affected completed) 0 0 0) no_failure)
  end.

Definition run_pipeline (history : option (RunHistoryStore W)) (run_id : string) : M St (PipelineRunResult Tm) :=
  _ ← (match history with Some h => quietly (@start_run W h run_id (pn_source pn) None) | None => mret tt end);
  '(completed, error) ← run_endpoints (pn_endpoints pn) [];
  match error with
  | Some e => _ ← try_except (finish_history history run_id completed FAILED) (fun _ => mret tt); lift (Raise e)
  | None =>
      _ ← finish_history history run_id completed SUCCEEDED;
      mret {| pr_run_id := run_id; pr_source := pn_source pn; pr_endpoints := completed |}
  end.
End Run.
