(* ===== verification/Traces.v ===== *)
(** * Traces of calls

    A computation that records its calls in its state only appends to the
    record.  [steps] relates the state before, the answer, the calls appended and
    the state after; the rest are the two disciplines the runtime keeps: nothing
    follows a failure, and an effect directly follows a permission. *)

From S2P Require Import Prelude.

Local Open Scope list_scope.

Section Steps.
Context {S E : Type} (tr : S -> list E).

Definition steps {A} (m : M S A) (P : S -> result A -> list E -> S -> Prop) : Prop :=
  forall s, exists t, tr (m s).2 = tr s ++ t /\ P s (m s).1 t (m s).2.

(** The rule of a sequence: what follows an answer is judged with what was
    appended before it. *)
Lemma steps_bind {A B} (m : M S A) (k : A -> M S B) P Q :
  steps m P -> (forall s e t s', P s (Raise e) t s' -> Q s (Raise e) t s') ->
  (forall s a t s1, P s (Ok a) t s1 -> exists u, tr (k a s1).2 = tr s1 ++ u /\ Q s (k a s1).1 (t ++ u) (k a s1).2) ->
  steps (m ≫= k) Q.
Proof.
  intros Hm He Hk s. destruct (Hm s) as (t & Et & Ht). unfold mbind, M_bind. destruct (m s) as [[a|e] s1]; cbn in *.
  - destruct (Hk s a t s1 Ht) as (u & Eu & Hu). exists (t ++ u). by rewrite Eu, Et, app_assoc.
  - exists t. auto.
Qed.
Lemma steps_impl {A} (m : M S A) (P Q : S -> result A -> list E -> S -> Prop) :
  steps m P -> (forall s r t s', P s r t s' -> Q s r t s') -> steps m Q.
Proof. intros Hm H s. destruct (Hm s) as (t & ? & ?%H). by exists t. Qed.
Lemma steps_and {A} (m : M S A) (P Q : S -> result A -> list E -> S -> Prop) :
  steps m P -> steps m Q -> steps m (fun s r t s' => P s r t s' /\ Q s r t s').
Proof.
  intros H1 H2 s. destruct (H1 s) as (t & E1 & ?), (H2 s) as (u & E2 & ?). exists t.
  rewrite E1 in E2. apply app_inv_head in E2 as <-. done.
Qed.
Lemma steps_lift {A} (r : result A) (P : S -> result A -> list E -> S -> Prop) : (forall s, P s r [] s) -> steps (lift r) P.
Proof. intros H s. exists []. by rewrite app_nil_r. Qed.
Lemma steps_ret {A} (a : A) (P : S -> result A -> list E -> S -> Prop) : (forall s, P s (Ok a) [] s) -> steps (mret a) P.
Proof. intros H s. exists []. by rewrite app_nil_r. Qed.

(** What is judged by success only composes. *)
Definition post : Type := S -> bool -> list E -> S -> Prop.
Definition follows {A} (P : post) (s : S) (r : result A) (t : list E) (s' : S) : Prop := P s (is_ok r) t s'.
Definition composes (P : post) : Prop := forall s t s1 b u s2, P s true t s1 -> P s1 b u s2 -> P s b (t ++ u) s2.
Lemma steps_then {A B} (P : post) (m : M S A) (k : A -> M S B) :
  composes P -> steps m (follows P) -> (forall a, steps (k a) (follows P)) -> steps (m ≫= k) (follows P).
Proof.
  intros HP Hm Hk. eapply steps_bind; [exact Hm|done|]. intros s a t s1 Ht. destruct (Hk a s1) as (u & Eu & Hu).
  exists u. split; [done|]. by eapply HP.
Qed.
End Steps.

(** ** Disciplines *)

Section Order.
Context {E : Type} (failed effect : E -> bool) (permit : E).

(** Nothing follows a failure. *)
Definition stops (t : list E) : Prop := forall t1 ev t2, t = t1 ++ ev :: t2 -> failed ev = true -> t2 = [].
(** Each effect comes right after a permission. *)
Definition guarded (t : list E) : Prop :=
  forall t1 ev t2, t = t1 ++ ev :: t2 -> effect ev = true -> exists t0, t1 = t0 ++ [permit].
Definition fine (t : list E) : Prop := Forall (fun ev => failed ev = false) t.

Lemma stops_app t u : fine t -> stops u -> stops (t ++ u).
Proof.
  intros Ht Hu t1 ev t2 E' Hf. destruct (app_eq_inv _ _ _ _ E') as [(k & -> & Ek)|(k & -> & ->)]; [|by eapply Hu].
  destruct k as [|ev' k]; cbn in Ek.
  - subst u. by apply (Hu [] ev t2).
  - injection Ek as <- ->. apply Forall_app in Ht as [_ [Hn _]%Forall_cons_1]. congruence.
Qed.
Lemma guarded_app t u : guarded t -> guarded u -> guarded (t ++ u).
Proof.
  intros Ht Hu t1 ev t2 E' Hf. destruct (app_eq_inv _ _ _ _ E') as [(k & -> & Ek)|(k & -> & ->)].
  - destruct k as [|ev' k]; cbn in Ek.
    + subst u. destruct (Hu [] ev t2 eq_refl Hf) as [[|? ?] ?]; done.
    + injection Ek as <- ->. by eapply Ht.
  - destruct (Hu k ev t2 eq_refl Hf) as [t0 ->]. exists (t ++ t0). by rewrite app_assoc.
Qed.
Lemma guarded_nil : guarded [].
Proof. by intros [|? ?] ? ?. Qed.
Lemma fine_nil : fine [].
Proof. unfold fine. constructor. Qed.
Lemma fine_one ev : failed ev = false -> fine [ev].
Proof. intros. unfold fine. by repeat constructor. Qed.
Lemma fine_app t u : fine t -> fine u -> fine (t ++ u).
Proof. intros. by apply Forall_app. Qed.
Lemma fine_stops t : fine t -> stops t.
Proof. intros H t1 ev t2 -> Hf. apply Forall_app in H as [_ [Hn _]%Forall_cons_1]. congruence. Qed.
Lemma stops_one ev : stops [ev].
Proof. intros [|? [|? ?]] ? ? E'; by simplify_list_eq. Qed.
Lemma guarded_one ev : effect ev = false -> guarded [ev].
Proof. intros H [|? [|? ?]] ? ? E' ?; simplify_list_eq; congruence. Qed.
Lemma guarded_pair ev : effect permit = false -> guarded [permit; ev].
Proof. intros H [|? [|? [|? ?]]] ev' ? E' ?; simplify_list_eq; [congruence|by exists []]. Qed.
End Order.
