(* ===== verification/IngestionSpec.v ===== *)
(** * What a run does to the destination, in which order

    Facts about the calls of [Ingestion], for any source, writer, target fence
    and lease guard: each computation is given the trace of calls it may append. *)

From S2P Require Import Prelude Regex PyStr StatePort RunHistory Ingestion Traces.

Local Open Scope string_scope.
Local Open Scope Z_scope.
Local Open Scope list_scope.

(** ** Cursors *)

Lemma str_max_ub a b : str_leb a (str_max a b) = true /\ str_leb b (str_max a b) = true.
Proof. unfold str_max. destruct (str_leb b a) eqn:E, (leb_total (leb := str_leb) a b), (leb_total (leb := str_leb) a a), (leb_total (leb := str_leb) b b); by split; congruence. Qed.
Lemma str_max_in a b : str_max a b = a \/ str_max a b = b.
Proof. unfold str_max. destruct (str_leb b a); auto. Qed.

(** [c] is a greatest cursor of the records. *)
Definition record_cursor (e : endpoint) (r : record) : option string := field ← en_incremental_cursor e; cursor_text (field_of field r).
Definition maximal (e : endpoint) (rs : list record) (c : string) : Prop :=
  (exists r, r ∈ rs /\ record_cursor e r = Some c) /\
  forall r, r ∈ rs -> exists x, record_cursor e r = Some x /\ str_leb x c = true.
(** What an observation knows of the records seen. *)
Definition seen (e : endpoint) (rs : list record) (o : observation) : Prop :=
  ob_extracted o = Z.of_nat (length rs) /\
  match ob_maximum_cursor o with Some c => maximal e rs c | None => en_incremental_cursor e = None \/ rs = [] end.

Lemma observe_seen e rs o r o' : seen e rs o -> observe e o r = Ok o' -> seen e (rs ++ [r]) o'.
Proof.
  intros [Hn Hm] H. unfold observe in H. unfold seen. rewrite length_app; cbn [length].
  destruct (en_incremental_cursor e) as [f|] eqn:Ef.
  - destruct (cursor_text (field_of f r)) as [c|] eqn:Ec; [|done]. injection H as <-. cbn. split; [lia|].
    assert (record_cursor e r = Some c) as Er by (unfold record_cursor; by rewrite Ef).
    destruct (ob_maximum_cursor o) as [m|].
    + destruct Hm as [(q & Hq & Eq) Hle], (str_max_ub m c) as [U1 U2]. split.
      * destruct (str_max_in m c) as [-> | ->]; [exists q|exists r]; (split; [set_solver|done]).
      * intros q' [Hq'|Hq'%list_elem_of_singleton]%elem_of_app; [|subst; by exists c].
        destruct (Hle q' Hq') as (x & ? & ?). exists x. split; [done|]. by eapply leb_trans.
    + destruct Hm as [|Hm]; [done|]. subst rs. split; [exists r; split; [by left|done]|].
      intros q Hq%list_elem_of_singleton. subst q. exists c. split; [done|]. by destruct (leb_total (leb := str_leb) c c).
  - injection H as <-. cbn. split; [lia|]. destruct (ob_maximum_cursor o) as [m|]; [|by left].
    destruct Hm as [(q & _ & Eq) _]. unfold record_cursor in Eq. by rewrite Ef in Eq.
Qed.
Lemma observe_all_seen e rs rs0 o o' : seen e rs0 o -> observe_all e o rs = Ok o' -> seen e (rs0 ++ rs) o'.
Proof.
  revert rs0 o. induction rs as [|r rs IH]; intros rs0 o Hs H; [injection H as <-; by rewrite app_nil_r|].
  cbn in H. destruct (observe e o r) as [o1|] eqn:E; [|done]. rewrite cons_middle, app_assoc.
  eapply IH; [by eapply observe_seen|done].
Qed.
Lemma no_observation_seen e : seen e [] no_observation.
Proof. split; [done|by right]. Qed.

(** Observation cuts the stream, it does not change it. *)
Lemma observed_from_prefix e o rs x : exists rest, rs = sm_records (observed_from e o rs x) ++ rest.
Proof.
  revert o. induction rs as [|r rs IH]; intros o; [by exists []|]. cbn.
  destruct (observe e o r) as [o1|]; [|by exists (r :: rs)]. destruct (IH o1) as [rest E]. exists rest. cbn. by rewrite <- E.
Qed.
Lemma observed_from_complete e o rs x : sm_error (observed_from e o rs x) = None -> sm_records (observed_from e o rs x) = rs /\ x = None.
Proof.
  revert o. induction rs as [|r rs IH]; intros o; [done|]. cbn. destruct (observe e o r) as [o1|]; [|done]. cbn.
  intros [-> ->]%IH. done.
Qed.

(** ** Batches *)

Lemma batches_concat n room batch rs :
  concat (batches n room batch rs).1 ++ (batches n room batch rs).2 = rev batch ++ rs.
Proof.
  revert room batch. induction rs as [|r rs IH]; intros room batch; [by rewrite app_nil_r|]. cbn [batches].
  destruct room as [|[|k]]; [pose proof (IH n []) as E; destruct (batches n n [] rs)..|];
    [cbn in *; by rewrite <- !app_assoc, E..|]. rewrite IH. cbn. by rewrite <- app_assoc.
Qed.
Lemma batches_sizes n room batch rs : (0 < n)%nat -> (length batch + room = n)%nat -> (0 < room)%nat ->
  Forall (fun b => length b = n) (batches n room batch rs).1 /\ (length (batches n room batch rs).2 < n)%nat.
Proof.
  intros Hn. revert room batch. induction rs as [|r rs IH]; intros room batch Hl Hr; cbn [batches fst snd].
  { rewrite length_rev. split; [done|lia]. }
  destruct room as [|[|k]]; [lia| |apply IH; cbn; lia].
  destruct (IH n [] ltac:(done) ltac:(done)) as [H1 H2]. destruct (batches n n [] rs) as [bs rest]; cbn in *.
  split; [|done]. constructor; [|done]. rewrite length_app, length_rev. cbn. lia.
Qed.

(** ** Traces *)

Section Emits.
Context {W : Type}.
Abbreviation St := (W * list event)%type.

(** What a computation answers and the calls it appends are related by [P]. *)
Definition emits {A} (m : M St A) (P : result A -> list event -> Prop) : Prop := steps snd m (fun _ r t _ => P r t).
Lemma emits_bind {A B} (m : M St A) (k : A -> M St B) P Q :
  emits m P -> (forall e t, P (Raise e) t -> Q (Raise e) t) ->
  (forall a t, P (Ok a) t -> emits (k a) (fun r u => Q r (t ++ u))) -> emits (m ≫= k) Q.
Proof. intros Hm He Hk. eapply steps_bind; [exact Hm|auto|]. intros s a t s1 Ht. apply (Hk a t Ht). Qed.
Lemma emits_impl {A} (m : M St A) (P Q : _ -> _ -> Prop) : emits m P -> (forall r t, P r t -> Q r t) -> emits m Q.
Proof. intros Hm H. eapply steps_impl; [exact Hm|]. intros s r t s'. apply H. Qed.
Lemma emits_lift {A} (r : result A) (P : _ -> _ -> Prop) : P r [] -> emits (lift r) P.
Proof. intros H. by apply steps_lift. Qed.
Lemma emits_ret {A} (a : A) (P : _ -> _ -> Prop) : P (Ok a) [] -> emits (mret a) P.
Proof. intros H. by apply steps_ret. Qed.
Lemma emits_call {A} (m : M W A) ev : emits (call m ev) (fun r t => t = [ev r]).
Proof. intros s. unfold call. destruct (m s.1) as [r w]. by exists [ev r]. Qed.
Lemma emits_quietly {A} (m : M W A) : emits (quietly m) (fun _ t => t = []).
Proof. intros s. unfold quietly. destruct (m s.1) as [r w]. exists []. by rewrite app_nil_r. Qed.
(** What every answer satisfies. *)
Definition returns {A} (m : M St A) (R : A -> Prop) : Prop := forall s a, (m s).1 = Ok a -> R a.
Lemma returns_bind {A B} (m : M St A) (k : A -> M St B) R : (forall a, returns (k a) R) -> returns (m ≫= k) R.
Proof. intros H s b. unfold mbind, M_bind. destruct (m s) as [[a|] s1]; [apply H|done]. Qed.
Lemma emits_returns {A} (m : M St A) P R : emits m P -> returns m R -> emits m (fun r t => P r t /\ forall a, r = Ok a -> R a).
Proof. intros H1 H2 s. destruct (H1 s) as (t & ? & ?). exists t. split_and!; [done..|]. apply H2. Qed.

(** A handler that makes no recorded call and raises. *)
Lemma emits_reraise {A} (m : M St A) h P :
  emits m P -> (forall e, emits (h e) (fun r t => t = [] /\ r = Raise e)) -> emits (try_except m h) P.
Proof.
  intros Hm Hh s. destruct (Hm s) as (t & Et & Ht). unfold try_except. destruct (m s) as [[a|e] s1]; [by exists t|].
  destruct (Hh e s1) as (u & Eu & -> & Er). cbn in *. exists t. by rewrite Eu, Er, app_nil_r, Et.
Qed.
End Emits.

(** ** Order and guards *)

(** The call failed, or its answer ends the endpoint. *)
Definition failed (ev : event) : bool :=
  match ev with
  | EvVerify ok | EvClaim ok | EvWrite _ ok => negb ok
  | EvCursor a => negb (is_ok a)
  | EvExtract a => negb (is_ok a)
  | EvCommit _ _ a => match a with Ok b => negb b | Raise _ => true end
  end.
(** The call changes the destination or the watermark. *)
Definition effect (ev : event) : bool := match ev with EvWrite _ _ | EvCommit _ _ _ => true | _ => false end.

Abbreviation stops := (stops failed).
Abbreviation guarded := (guarded effect (EvVerify true)).
Abbreviation fine := (fine failed).

Section Run.
Context {W Tm : Type} {WS : WatermarkStore W} (pn : PipelineRunner W Tm) (own : option (Ownership W)).
Abbreviation St := (W * list event)%type.

Definition verified : list event := if is_some own then [EvVerify true] else [].
Lemma emits_verify : emits (verify_ownership own) (fun r t => is_some own = true /\ t = [EvVerify (is_ok r)] \/ own = None /\ t = [] /\ is_ok r = true).
Proof.
  unfold verify_ownership. destruct own; [|apply emits_ret; by right].
  eapply emits_impl; [apply emits_call|]. intros r t ->. by left.
Qed.
Lemma emits_verified {A} (k : M St A) P :
  emits k (fun r t => P r (verified ++ t)) -> (forall e, own <> None -> P (Raise e) [EvVerify false]) ->
  emits (_ ← verify_ownership own; k) P.
Proof.
  unfold verified. intros Hk He. eapply emits_bind; [apply emits_verify| |].
  - intros e t [[? ->]|(_ & _ & ?)]; [|done]. apply He. by destruct own.
  - intros [] t [[E ->]|(-> & -> & _)]; [by rewrite E in Hk|done].
Qed.

(** An error of the telemetry after a write hides its answer; nothing else does. *)
Definition write_answer {A} (P : result A -> list event -> Prop) (r : result (A * list Tm)) (t : list event) : Prop :=
  match r with
  | Ok (a, _) => P (Ok a) t
  | Raise e => t = [] \/ exists r0, P r0 t
  end.
Lemma emits_write {A} (w : M St A) P : emits w P -> emits (write_with_telemetry pn w) (write_answer P).
Proof.
  intros Hw. unfold write_with_telemetry. eapply emits_bind; [apply emits_quietly|by left|]. intros ? t ->. cbn [app].
  eapply emits_bind; [apply emits_reraise; [exact Hw|]| |].
  - intros e s. exists []. rewrite app_nil_r. unfold try_except, quietly, mbind, M_bind.
    destruct (wp_drain_telemetry _ _) as [[?|?] ?]; done.
  - intros e t H. right. by eexists.
  - intros b t H. eapply emits_bind; [apply emits_quietly|intros e u ->; rewrite app_nil_r; right; by eexists|].
    intros tel u ->. apply emits_ret. cbn. by rewrite !app_nil_r.
Qed.

(** *** Soundness of the order *)

Definition orderly {A} (r : result A) (t : list event) : Prop :=
  stops t /\ (is_ok r = true -> fine t) /\ (own <> None -> guarded t).
Definition sound {A} (m : M St A) : Prop := emits m orderly.

Lemma orderly_empty {A} (r : result A) : orderly r [].
Proof. split_and!; [apply fine_stops; constructor|intros _; constructor|intros _; apply guarded_nil]. Qed.
Lemma sound_bind {A B} (m : M St A) (k : A -> M St B) : sound m -> (forall a, sound (k a)) -> sound (m ≫= k).
Proof.
  intros Hm Hk. eapply emits_bind; [exact Hm| |].
  - intros e t (H1 & _ & H3). split_and!; [done|done|done].
  - intros a t (H1 & H2 & H3). specialize (H2 eq_refl). eapply emits_impl; [apply Hk|].
    intros r u (K1 & K2 & K3). split_and!; [by apply stops_app|intros ?; apply Forall_app; split; [done|by apply K2]|intros ?; apply guarded_app; auto].
Qed.
Lemma sound_ret {A} (a : A) : sound (mret a).
Proof. apply emits_ret. apply orderly_empty. Qed.
Lemma sound_lift {A} (r : result A) : sound (lift r).
Proof. apply emits_lift. apply orderly_empty. Qed.
Lemma sound_call {A} (m : M W A) ev :
  (forall r, effect (ev r) = false) -> (forall r, is_ok r = true -> failed (ev r) = false) -> sound (call m ev).
Proof.
  intros H1 H2. eapply emits_impl; [apply emits_call|]. intros r t ->.
  split_and!; [apply stops_one|intros ?; apply fine_one; auto|intros ?; by apply guarded_one].
Qed.
(** One effect after a verification. *)
Definition one_call {A} (r : result A) (t : list event) : Prop :=
  t = [] \/ exists ev, t = [ev] /\ (is_ok r = true -> failed ev = false).
Lemma sound_effect {A} (k : M St A) : emits k one_call -> sound (_ ← verify_ownership own; k).
Proof.
  intros Hk. apply emits_verified.
  - eapply emits_impl; [exact Hk|]. intros r t H. unfold verified.
    destruct own as [o|] eqn:Eo; cbn [is_some]; destruct H as [-> |(ev & -> & Hev)]; cbn [app].
    + split_and!; [apply stops_one|intros _; by apply fine_one|intros ?; by apply guarded_one].
    + split_and!; [apply (stops_app _ [_]); [by apply fine_one|apply stops_one]|intros ?; constructor; [done|apply fine_one; auto]|intros ?; by apply guarded_pair].
    + apply orderly_empty.
    + split_and!; [apply stops_one|intros ?; apply fine_one; auto|intros Hn; congruence].
  - intros e _. split_and!; [apply stops_one|done|intros ?; by apply guarded_one].
Qed.
Lemma sound_verify : sound (verify_ownership own).
Proof.
  eapply emits_impl; [apply emits_verify|]. intros r t [[_ ->]|(_ & -> & _)]; [|apply orderly_empty].
  split_and!; [apply stops_one|intros H; rewrite H; by apply fine_one|intros ?; by apply guarded_one].
Qed.
Lemma one_write {A} (m : M W A) ev :
  (forall r, is_ok r = true -> failed (ev r) = false) -> emits (write_with_telemetry pn (call m ev)) one_call.
Proof.
  intros H. eapply emits_impl; [apply emits_write, emits_call|]. intros [[a tel]|e] t Ht.
  - cbn in Ht. subst t. right. eexists. split; [done|]. auto.
  - destruct Ht as [-> |[r0 ->]]; [by left|right]. by eexists.
Qed.

Lemma one_bind {A B} (m : M St A) (k : A -> M St B) :
  emits m one_call -> (forall a, emits (k a) (fun _ t => t = [])) -> emits (m ≫= k) one_call.
Proof.
  intros Hm Hk. eapply emits_bind; [exact Hm| |].
  - intros e t [-> |(ev & -> & _)]; [by left|right; by eexists].
  - intros a t Ht. eapply emits_impl; [apply Hk|]. intros r u ->. rewrite app_nil_r.
    destruct Ht as [-> |(ev & -> & H)]; [by left|right; exists ev; auto].
Qed.

Lemma write_batch_sound target b : sound (write_batch pn own target b).
Proof. apply sound_effect, one_write. by intros []. Qed.
Lemma write_all_sound target bs : sound (write_all pn own target bs).
Proof.
  induction bs as [|b bs IH]; [apply sound_ret|]. apply sound_bind; [apply write_batch_sound|]. intros [n t].
  apply sound_bind; [done|]. intros [m u]. apply sound_ret.
Qed.
Lemma write_observed_sound target s : sound (write_observed pn own target s).
Proof.
  unfold write_observed. destruct (wp_supports_batched_writes _); [|destruct (wp_accepts_streaming_input _)].
  - apply sound_bind; [|intros [n t]; apply sound_ret]. unfold write_batched.
    destruct (batches _ _ _ _) as [full rest]. apply sound_bind; [apply write_all_sound|]. intros [n t].
    destruct (sm_error s); [apply sound_lift|]. case_match; [apply sound_ret|].
    apply sound_bind; [apply write_batch_sound|]. intros [m u]. apply sound_ret.
  - apply sound_effect, one_bind; [apply one_write; by intros [[]|]|]. intros [[n k] t]. by apply emits_ret.
  - apply sound_bind; [destruct (sm_error s); [apply sound_lift|apply sound_ret]|]. intros _.
    apply sound_effect, one_bind; [apply one_write; by intros []|]. intros [n t]. by apply emits_ret.
Qed.
Lemma claim_target_sound target : sound (claim_target pn own target).
Proof.
  unfold claim_target. destruct (wp_requires_publication_fence _); [|apply sound_ret].
  destruct own as [o|], (pn_target_fence pn); try apply sound_lift. destruct (ow_fence o); [|apply sound_lift].
  apply sound_bind; [by apply sound_call; intros []|intros tf; apply sound_ret].
Qed.
Lemma commit_cursor_sound e stored o : sound (commit_cursor pn own e stored o).
Proof.
  unfold commit_cursor. destruct (ob_maximum_cursor o) as [c|]; [|apply sound_ret]. case_match; [apply sound_ret|].
  apply sound_effect. eapply emits_bind; [apply emits_call| |].
  - intros x t ->. right. by eexists.
  - intros b t ->. destruct b; [apply emits_ret|apply emits_lift]; right; by eexists.
Qed.
Lemma run_endpoint_sound e : sound (run_endpoint pn own e).
Proof.
  unfold run_endpoint. apply sound_bind; [apply sound_lift|]. intros relation.
  apply sound_bind; [destruct (truthy _); [by apply sound_call; intros []|apply sound_ret]|]. intros stored.
  apply sound_bind; [apply sound_verify|]. intros _. apply sound_bind; [apply claim_target_sound|]. intros target.
  apply sound_bind; [by apply sound_call; intros []|]. intros extracted.
  apply sound_bind; [apply write_observed_sound|]. intros [[affected telemetry] consumed].
  apply sound_bind; [apply sound_lift|]. intros o. apply sound_bind; [apply commit_cursor_sound|]. intros committed. apply sound_ret.
Qed.

(** *** The whole run *)

Lemma run_endpoint_names e : returns (run_endpoint pn own e) (fun res => er_endpoint res = en_name e).
Proof.
  unfold run_endpoint. do 5 (apply returns_bind; intros ?). apply returns_bind; intros [[? ?] ?].
  do 2 (apply returns_bind; intros ?). by intros ? ? [= <-].
Qed.
Definition selected : list endpoint := filter (fun e => selected_endpoint pn e = true) (pn_endpoints pn).
Definition loop_post (es : list endpoint) (done_ : list (EndpointRunResult Tm)) (r : result (list (EndpointRunResult Tm) * option exn)) (t : list event) : Prop :=
  stops t /\ (own <> None -> guarded t) /\
  forall res x, r = Ok (res, x) -> x = None ->
    fine t /\ map er_endpoint res = map er_endpoint done_ ++ map en_name (filter (fun e => selected_endpoint pn e = true) es).
Lemma run_endpoints_post es done_ : emits (run_endpoints pn own es done_) (loop_post es done_).
Proof.
  revert done_. induction es as [|e es IH]; intros done_; cbn [run_endpoints].
  { apply emits_ret. split_and!; [apply fine_stops; constructor|intros _; apply guarded_nil|].
    intros res x [= <- <-] _. split; [constructor|]. by rewrite app_nil_r. }
  destruct (selected_endpoint pn e) eqn:Ee; cbn [negb].
  - intros s. destruct (emits_returns _ _ _ (run_endpoint_sound e) (run_endpoint_names e) s) as (t & Et & (H1 & H2 & H3) & Hn).
    destruct (run_endpoint pn own e s) as [[res|x] s1]; cbn in *.
    + destruct (IH (done_ ++ [res]) s1) as (u & Eu & K1 & K2 & K3). exists (t ++ u). rewrite Eu, Et, app_assoc.
      specialize (H2 eq_refl). unfold loop_post. split_and!; [done|by apply stops_app|intros ?; apply guarded_app; auto|].
      intros res' x' Er Ex. destruct (K3 res' x' Er Ex) as [Hf Hm]. split; [by apply Forall_app|].
      rewrite Hm, filter_cons_True, map_app by done. cbn. by rewrite (Hn res), <- app_assoc.
    + exists t. unfold loop_post. split_and!; [done..|]. by intros ? ? [= <- <-].
  - eapply emits_impl; [apply IH|]. unfold loop_post. intros r t. by rewrite filter_cons_False by congruence.
Qed.

(** C31: a run stops at the first failure and acts only as owner. Whatever the
    source, the writer, the target fence, the watermark store and the lease guard
    answer: nothing is called after a call that failed (a lost lease, a write or
    a commit among them), every write and every commit of an owned run directly
    follows a verification that succeeded, and a run that returns completed all
    the selected endpoints in their order without one failed call. *)
Theorem run_stops history run_id s :
  exists t, (run_pipeline pn own history run_id s).2.2 = s.2 ++ t /\
    (forall t1 ev t2, t = t1 ++ ev :: t2 -> failed ev = true -> t2 = []) /\
    (own <> None -> forall t1 ev t2, t = t1 ++ ev :: t2 -> effect ev = true -> exists t0, t1 = t0 ++ [EvVerify true]) /\
    forall res, (run_pipeline pn own history run_id s).1 = Ok res ->
      (forall ev, ev ∈ t -> failed ev = false) /\
      map er_endpoint (pr_endpoints res) = map en_name (filter (fun e => selected_endpoint pn e = true) (pn_endpoints pn)).
Proof.
  assert (emits (run_pipeline pn own history run_id) (fun r t => stops t /\ (own <> None -> guarded t) /\
    forall res, r = Ok res -> fine t /\ map er_endpoint (pr_endpoints res) = map en_name selected)) as H.
  { unfold run_pipeline. assert (forall A (m : M St A), emits m (fun _ t => t = []) -> sound m) as Hq.
    { intros A m Hm. eapply emits_impl; [exact Hm|]. intros r t ->. apply orderly_empty. }
    eapply emits_bind; [instantiate (1 := fun _ t => t = []); destruct history; [apply emits_quietly|by apply emits_ret]| |].
    { intros e t ->. destruct (orderly_empty (A := unit) (Raise e)) as (? & ? & ?). by split_and!. }
    intros [] t ->. cbn [app]. eapply emits_bind; [apply run_endpoints_post|intros e t (? & ? & ?); by split_and!|].
    intros [res [x|]] t (H1 & H2 & H3); [|destruct (H3 res None eq_refl eq_refl) as [Hf Hm]].
    - eapply emits_bind; [instantiate (1 := fun _ t => t = [])| |].
      + intros s0. unfold try_except, finish_history, quietly. destruct history; [|exists []; by rewrite app_nil_r].
        destruct (finish _ _ _ _ _) as [[?|?] ?]; exists []; by rewrite app_nil_r.
      + intros e u ->. by rewrite app_nil_r.
      + intros [] u ->. apply emits_lift. by rewrite !app_nil_r.
    - eapply emits_bind; [instantiate (1 := fun _ t => t = []); unfold finish_history; destruct history; [apply emits_quietly|by apply emits_ret]| |].
      + intros e u ->. by rewrite app_nil_r.
      + intros [] u ->. apply emits_ret. rewrite !app_nil_r. split_and!; [done..|]. by intros ? [= <-]. }
  destruct (H s) as (t & Et & H1 & H2 & H3). exists t. split_and!; [done..|].
  intros res Er. destruct (H3 res Er) as [Hf Hm]. split; [|done]. by intros ev Hev; eapply Forall_forall in Hf.
Qed.

(** *** What a commit says *)

Definition no_commit (t : list event) : Prop := forall x c a, EvCommit x c a ∉ t.
Lemma no_commit_app t u : no_commit t -> no_commit u -> no_commit (t ++ u).
Proof. intros H1 H2 x c a [?|?]%elem_of_app; [by eapply H1|by eapply H2]. Qed.
Lemma no_commit_nil : no_commit [].
Proof. intros x c a H. by apply elem_of_nil in H. Qed.
Lemma no_commit_one ev : (forall x c a, ev <> EvCommit x c a) -> no_commit [ev].
Proof. intros H x c a E%list_elem_of_singleton. by eapply H. Qed.
Lemma no_commit_verified : no_commit verified.
Proof. unfold verified. destruct own; [by apply no_commit_one|apply no_commit_nil]. Qed.

(** The calls of the successful writes of some batches. *)
Definition writes (bs : list (list record)) : list event := concat (map (fun b => verified ++ [EvWrite b true]) bs).
(** No commit, and [T] if the computation answers. *)
Definition loads {A} (T : A -> list event -> Prop) (r : result A) (t : list event) : Prop :=
  no_commit t /\ forall a, r = Ok a -> T a t.
Lemma loads_bind {A B} (m : M St A) (k : A -> M St B) T U :
  emits m (loads T) -> (forall a t, T a t -> emits (k a) (loads (fun b u => U b (t ++ u)))) -> emits (m ≫= k) (loads U).
Proof.
  intros Hm Hk. eapply emits_bind; [exact Hm|by intros e t []|]. intros a t [H1 H2].
  eapply emits_impl; [apply (Hk a t); auto|]. intros r u [K1 K2]. split; [by apply no_commit_app|done].
Qed.
Lemma loads_ret {A} (a : A) (T : A -> list event -> Prop) : T a [] -> emits (mret a : M St A) (loads T).
Proof. intros H. apply emits_ret. split; [apply no_commit_nil|]. by intros ? [= <-]. Qed.
Lemma loads_raise {A} e (T : A -> list event -> Prop) : emits (lift (Raise e) : M St A) (loads T).
Proof. apply emits_lift. split; [apply no_commit_nil|done]. Qed.
Lemma loads_lift {A} (r : result A) (T : A -> list event -> Prop) : (forall a, r = Ok a -> T a []) -> emits (lift r : M St A) (loads T).
Proof. intros H. apply emits_lift. split; [apply no_commit_nil|done]. Qed.
Lemma loads_verified {A} (k : M St A) T : emits k (loads (fun a u => T a (verified ++ u))) -> emits (_ ← verify_ownership own; k) (loads T).
Proof.
  intros Hk. apply emits_verified; [|intros e _; split; [by apply no_commit_one|done]].
  eapply emits_impl; [exact Hk|]. intros r u [K1 K2]. split; [by apply no_commit_app; [apply no_commit_verified|]|done].
Qed.
Lemma emits_verified_alone : emits (verify_ownership own) (loads (fun _ t => t = verified)).
Proof.
  eapply emits_impl; [apply emits_verify|]. unfold verified. intros r t [[E ->]|(E & -> & _)]; rewrite E.
  - split; [by apply no_commit_one|]. by intros a ->.
  - by split; [apply no_commit_nil|].
Qed.
Lemma loads_call {A} (m : M W A) ev (T : A -> list event -> Prop) :
  (forall r x c a, ev r <> EvCommit x c a) -> (forall a, T a [ev (Ok a)]) -> emits (call m ev) (loads T).
Proof.
  intros H1 H2. eapply emits_impl; [apply emits_call|]. intros r t ->. split; [by apply no_commit_one|]. intros a ->. apply H2.
Qed.
Lemma loads_write {A} (m : M W A) ev (T : A -> list event -> Prop) :
  (forall r x c a, ev r <> EvCommit x c a) -> (forall a, T a [ev (Ok a)]) ->
  emits (write_with_telemetry pn (call m ev)) (loads (fun p t => T p.1 t)).
Proof.
  intros H1 H2. eapply emits_impl; [apply emits_write, emits_call|]. intros [[a tel]|e] t Ht.
  - cbn in Ht. subst t. split; [by apply no_commit_one|]. intros ? [= <-]. apply H2.
  - split; [|done]. destruct Ht as [-> |[r0 ->]]; [apply no_commit_nil|by apply no_commit_one].
Qed.

Lemma write_batch_loads target b : emits (write_batch pn own target b) (loads (fun _ t => t = writes [b])).
Proof.
  apply loads_verified. eapply emits_impl; [apply (loads_write _ _ (fun _ t => t = [EvWrite b true])); [by intros ? [] | done]|].
  intros r u [H1 H2]. split; [done|]. intros a Ha. rewrite (H2 a Ha). unfold writes. cbn. by rewrite app_nil_r.
Qed.
Lemma writes_cons b bs : writes (b :: bs) = writes [b] ++ writes bs.
Proof. unfold writes. cbn. by rewrite app_nil_r. Qed.
Lemma writes_app bs cs : writes (bs ++ cs) = writes bs ++ writes cs.
Proof. unfold writes. by rewrite map_app, concat_app. Qed.
Lemma write_all_loads target bs : emits (write_all pn own target bs) (loads (fun _ t => t = writes bs)).
Proof.
  induction bs as [|b bs IH]; [by apply loads_ret|]. eapply loads_bind; [apply write_batch_loads|]. intros [n t] ? ->.
  eapply loads_bind; [exact IH|]. intros [m u] ? ->. apply loads_ret. by rewrite app_nil_r, (writes_cons b bs).
Qed.

(** What has been written when a write answers: of a batched or buffered writer
    the whole extraction, in batches of at most [batch_rows]; of a streaming
    writer what it consumed. *)
Definition streaming : bool := negb (wp_supports_batched_writes (pn_writer pn)) && wp_accepts_streaming_input (pn_writer pn).
Definition loaded (s : stream) (bs : list (list record)) : Prop :=
  if streaming then concat bs `prefix_of` sm_records s
  else concat bs = sm_records s /\ sm_error s = None /\
       (wp_supports_batched_writes (pn_writer pn) = true -> 1 <= pn_batch_rows pn -> Forall (fun b => Z.of_nat (length b) <= pn_batch_rows pn) bs).
Definition wrote (s : stream) (a : Z * list Tm * list record) (t : list event) : Prop :=
  exists bs, t = writes bs /\ concat bs = a.2 /\ loaded s bs.

Lemma write_batched_loads target s : wp_supports_batched_writes (pn_writer pn) = true ->
  emits (write_batched pn own target s) (loads (fun _ t => exists bs, t = writes bs /\ concat bs = sm_records s /\ loaded s bs)).
Proof.
  intros Hb. unfold write_batched. pose proof (batches_concat (Z.to_nat (pn_batch_rows pn)) (Z.to_nat (pn_batch_rows pn)) [] (sm_records s)) as Hc.
  pose proof (batches_sizes (Z.to_nat (pn_batch_rows pn)) (Z.to_nat (pn_batch_rows pn)) [] (sm_records s)) as Hl.
  destruct (batches _ _ _ _) as [full rest]; cbn in Hc, Hl.
  assert (forall bs, concat bs = sm_records s -> sm_error s = None -> (bs = full \/ bs = full ++ [rest]) -> loaded s bs) as Hd.
  { intros bs H1 H2 H3. unfold loaded, streaming. rewrite Hb. cbn. split_and!; [done..|]. intros _ H0.
    destruct Hl as [H4 H5]; [lia..|]. assert (Forall (fun b => Z.of_nat (length b) <= pn_batch_rows pn) full).
    { eapply Forall_impl; [exact H4|]. intros b E. cbn in *. lia. }
    destruct H3 as [-> | ->]; [done|]. apply Forall_app. split; [done|]. constructor; [lia|done]. }
  eapply loads_bind; [apply write_all_loads|]. intros [n t] ? ->. destruct (sm_error s); [apply loads_raise|].
  destruct (bool_decide (rest = []) && _) eqn:E.
  - apply andb_prop in E as [E%bool_decide_eq_true _]. subst rest. rewrite app_nil_r in Hc.
    apply loads_ret. rewrite app_nil_r. exists full. auto.
  - eapply loads_bind; [apply write_batch_loads|]. intros [m u] ? ->. apply loads_ret.
    exists (full ++ [rest]). rewrite writes_app, concat_app. cbn. rewrite !app_nil_r. split_and!; [done..|].
    apply Hd; auto. by rewrite concat_app; cbn; rewrite app_nil_r.
Qed.

Lemma write_one_loads {X} (m : M W X) ev b (k : X * list Tm -> M St (Z * list Tm * list record)) s :
  (forall r x c a, ev r <> EvCommit x c a) -> (forall a, ev (Ok a) = EvWrite (b a) true /\ forall tel, loaded s [b a] /\ exists n t, k (a, tel) = mret (n, t, b a)) ->
  emits (_ ← verify_ownership own; p ← write_with_telemetry pn (call m ev); k p) (loads (wrote s)).
Proof.
  intros H1 H2. apply loads_verified.
  eapply loads_bind; [apply (loads_write _ _ (fun a t => t = [EvWrite (b a) true])); [done|intros a; by destruct (H2 a) as [-> _]]|].
  intros [a tel] ? ->. destruct (H2 a) as [_ Hk]. destruct (Hk tel) as (Hl & n & t & ->). apply loads_ret.
  exists [b a]. split_and!; [|by cbn; rewrite app_nil_r|done]. unfold writes. cbn. by rewrite !app_nil_r.
Qed.
Lemma write_observed_loads target s : emits (write_observed pn own target s) (loads (wrote s)).
Proof.
  unfold write_observed. destruct (wp_supports_batched_writes _) eqn:Eb; [|destruct (wp_accepts_streaming_input _) eqn:Es].
  - eapply loads_bind; [by apply write_batched_loads|]. intros [n t] ? (bs & -> & Hc & Hl).
    apply loads_ret. exists bs. by rewrite app_nil_r.
  - eapply (write_one_loads _ _ (fun a => take a.2 (sm_records s)) (fun '((n, k), t) => mret (n, t, take k (sm_records s)))).
    + by intros [[]|].
    + intros [n k]. split; [done|]. intros tel. split; [|by eexists _, _]. unfold loaded, streaming. rewrite Eb, Es. cbn.
      rewrite app_nil_r. exists (drop k (sm_records s)). by rewrite take_drop.
  - destruct (sm_error s) eqn:Ee; [exact (loads_raise _ _)|].
    eapply (write_one_loads _ _ (fun _ => sm_records s) (fun '(n, t) => mret (n, t, sm_records s))); [by intros []|].
    intros n. split; [done|]. intros tel. split; [|by eexists _, _]. unfold loaded, streaming. rewrite Eb, Es, Ee. cbn. by rewrite app_nil_r.
Qed.

(** The boundary a commit sets: the greatest cursor of the records written, in
    the order of texts; where the source does not filter by the stored boundary,
    the greater of the two. So no record written lies above it, and there it
    never goes back. *)
Definition keeps_boundary (e : endpoint) : bool := bool_decide (en_cursor_param e = Some "") || negb (pn_resume_from_watermark pn).
Definition boundary (e : endpoint) (stored : option string) (rs : list record) (c : string) : Prop :=
  (exists m, maximal e rs m /\
     c = match stored with Some p => if keeps_boundary e then (if str_leb m p then p else m) else m | None => m end) /\
  (forall r, r ∈ rs -> exists x, record_cursor e r = Some x /\ str_leb x c = true) /\
  (forall p, stored = Some p -> keeps_boundary e = true -> str_leb p c = true) /\
  ((exists r, r ∈ rs /\ record_cursor e r = Some c) \/ keeps_boundary e = true /\ stored = Some c).
Lemma cursor_boundary e stored rs m : maximal e rs m -> boundary e stored rs (cursor_to_commit pn e stored m).
Proof.
  intros Hmax. split; [by exists m|]. destruct Hmax as [(r & Hr & Er) Hle].
  unfold cursor_to_commit, keeps_boundary. destruct stored as [p|]; [|split_and!; [done|done|left; by exists r]].
  destruct (_ || _); [|split_and!; [done|done|left; by exists r]]. destruct (str_max_ub p m) as [U1 U2]. split_and!.
  - intros q (x & Ex & Hx)%Hle. exists x. split; [done|]. by eapply leb_trans.
  - by intros ? [= <-] _.
  - destruct (str_max_in p m) as [-> | ->]; [by right|left; by exists r].
Qed.

Definition reads (e : endpoint) (stored : option string) : list event :=
  if truthy (en_incremental_cursor e) then [EvCursor (Ok stored)] else [].
Definition claims : list event := if wp_requires_publication_fence (pn_writer pn) then [EvClaim true] else [].
(** The calls of an endpoint: either no cursor is committed, or one is, last. *)
Definition commit_last (e : endpoint) (r : result (EndpointRunResult Tm)) (t : list event) : Prop :=
  no_commit t /\ (forall res, r = Ok res -> er_committed_cursor res = None) \/
  exists stored st bs c a,
    t = reads e stored ++ verified ++ claims ++ [EvExtract (Ok st)] ++ writes bs ++ verified ++ [EvCommit stored c a] /\
    (truthy (en_incremental_cursor e) = false -> stored = None) /\
    (streaming = true -> concat bs `prefix_of` sm_records st) /\
    (streaming = false -> concat bs = sm_records st /\ sm_error st = None) /\
    concat bs <> [] /\ boundary e stored (concat bs) c /\
    (forall res, r = Ok res -> a = Ok true /\ er_committed_cursor res = Some c /\ er_extracted res = Z.of_nat (length (concat bs))) /\
    (a = Ok true -> is_ok r = true).

Definition continues (e : endpoint) (t : list event) (m : M St (EndpointRunResult Tm)) : Prop := emits m (fun r u => commit_last e r (t ++ u)).
Lemma continues_bind {A} e t (m : M St A) (k : A -> M St (EndpointRunResult Tm)) T :
  no_commit t -> emits m (loads T) -> (forall a u, T a u -> no_commit (t ++ u) -> continues e (t ++ u) (k a)) -> continues e t (m ≫= k).
Proof.
  intros Ht Hm Hk. eapply emits_bind; [exact Hm| |].
  - intros x u [H _]. left. split; [by apply no_commit_app|done].
  - intros a u [H1 H2]. eapply emits_impl; [apply Hk; [by apply H2|by apply no_commit_app]|]. intros r v H. cbn. by rewrite app_assoc.
Qed.
Lemma claim_target_loads target : emits (claim_target pn own target) (loads (fun _ t => t = claims)).
Proof.
  unfold claim_target, claims. destruct (wp_requires_publication_fence _); [|by apply loads_ret].
  destruct own as [o|], (pn_target_fence pn); try apply loads_raise. destruct (ow_fence o); [|apply loads_raise].
  eapply loads_bind; [by apply (loads_call _ _ (fun _ t => t = [EvClaim true]))|]. intros tf ? ->. by apply loads_ret.
Qed.
(** The calls of a commit: none without a cursor, a lost lease, or the commit. *)
Lemma commit_cursor_emits e stored o : emits (commit_cursor pn own e stored o) (fun r t =>
  t = [] /\ (forall c, r = Ok c -> c = None) \/ t = [EvVerify false] /\ is_ok r = false \/
  exists m a, ob_extracted o <> 0 /\ ob_maximum_cursor o = Some m /\ t = verified ++ [EvCommit stored (cursor_to_commit pn e stored m) a] /\
    (forall c, r = Ok c -> a = Ok true /\ c = Some (cursor_to_commit pn e stored m)) /\ (a = Ok true -> is_ok r = true)).
Proof.
  unfold commit_cursor. destruct (ob_maximum_cursor o) as [m|]; [|apply emits_ret; left; split; [done|by intros ? [= <-]]].
  destruct (ob_extracted o =? 0) eqn:E; [apply emits_ret; left; split; [done|by intros ? [= <-]]|].
  apply emits_verified; [|intros x _; right; left; done]. cbv zeta. eapply emits_bind; [apply emits_call| |].
  - intros x t ->. do 2 right. exists m, (Raise x). split_and!; [lia|done|done|done|done].
  - intros b t ->. destruct b; [apply emits_ret|apply emits_lift]; do 2 right; [exists m, (Ok true)|exists m, (Ok false)];
      rewrite app_nil_r; split_and!; try done; [lia| |lia]. by intros ? [= <-].
Qed.

Lemma loaded_observed e st bs : loaded (observed_records e st) bs ->
  (streaming = true -> concat bs `prefix_of` sm_records st) /\ (streaming = false -> concat bs = sm_records st /\ sm_error st = None).
Proof.
  unfold loaded, observed_records. destruct (observed_from_prefix e no_observation (sm_records st) (sm_error st)) as [rest Er].
  pose proof (observed_from_complete e no_observation (sm_records st) (sm_error st)) as Hc.
  destruct streaming; [|intros (-> & He & _); split; [done|intros _; auto]]. intros [more Hm]. split; [intros _|done].
  exists (more ++ rest). by rewrite app_assoc, <- Hm.
Qed.
Definition written_calls e stored st bs : list event := reads e stored ++ verified ++ claims ++ [EvExtract (Ok st)] ++ writes bs.
Lemma commit_ends e stored st bs o n tel :
  (truthy (en_incremental_cursor e) = false -> stored = None) -> loaded (observed_records e st) bs -> seen e (concat bs) o ->
  no_commit (written_calls e stored st bs) ->
  continues e (written_calls e stored st bs)
    (committed ← commit_cursor pn own e stored o;
     mret {| er_endpoint := en_name e; er_extracted := ob_extracted o; er_affected := n; er_committed_cursor := committed; er_telemetry := tel |}).
Proof.
  intros Hst Hl [Hn Hs] Hc. destruct (loaded_observed e st bs Hl) as [L1 L2].
  assert (forall r t, (t = [] /\ (forall res, r = Ok res -> er_committed_cursor res = None) \/ t = [EvVerify false] /\ is_ok r = false \/
    exists m a, ob_extracted o <> 0 /\ ob_maximum_cursor o = Some m /\ t = verified ++ [EvCommit stored (cursor_to_commit pn e stored m) a] /\
      (forall res, r = Ok res -> a = Ok true /\ er_committed_cursor res = Some (cursor_to_commit pn e stored m) /\ er_extracted res = ob_extracted o) /\
      (a = Ok true -> is_ok r = true)) -> commit_last e r (written_calls e stored st bs ++ t)) as H.
  { intros r t [[-> H]|[[-> H]|(m & a & H0 & Em & -> & H1 & H2)]].
    - left. split; [by rewrite app_nil_r|done].
    - left. split; [apply no_commit_app; [done|by apply no_commit_one]|]. by intros res ->.
    - right. exists stored, st, bs, (cursor_to_commit pn e stored m), a. rewrite Em in Hs.
      split_and!; [unfold written_calls; by rewrite <- !app_assoc|done..| |by apply cursor_boundary| |done].
      + intros E. rewrite E in Hn. done.
      + intros res Er. destruct (H1 res Er) as (? & ? & ->). auto. }
  eapply emits_bind; [apply commit_cursor_emits| |].
  - intros x t [[-> _]|[[-> _]|(m & a & H0 & Em & -> & H1 & H2)]]; apply H; [by left|right; by left|].
    do 2 right. exists m, a. by split_and!.
  - intros c t Ht. apply emits_ret. rewrite app_nil_r. apply H. destruct Ht as [[-> H1]|[[_ ?]|(m & a & H0 & Em & -> & H1 & H2)]]; [|done|].
    + left. split; [done|]. intros ? [= <-]. cbn. by apply H1.
    + do 2 right. exists m, a. split_and!; [done..| |done]. intros ? [= <-]. cbn. destruct (H1 c eq_refl). auto.
Qed.

(** C30: a cursor is committed after its records. Whatever the collaborators
    answer, an endpoint's run either commits no cursor, or its calls are exactly:
    the read of the stored boundary, a verification, the claim of the target,
    the extraction, the writes of the batches - every one answered, each after a
    verification -, a last verification and one compare-and-set, which nothing
    follows. The batches are then the whole extraction, which ended without an
    error (what the writer consumed of it, if it streams); the compare-and-set
    expects the boundary read at the start; the new boundary is the greatest
    cursor of the records of those batches, in the order of texts - or, where the
    source does not filter by the stored boundary, the greater of that cursor and
    the stored boundary, so that it never goes back -; and the run succeeds
    exactly when the compare-and-set answers yes. *)
Theorem cursor_after_write e s :
  exists t, (run_endpoint pn own e s).2.2 = s.2 ++ t /\ commit_last e (run_endpoint pn own e s).1 t.
Proof.
  assert (continues e [] (run_endpoint pn own e)) as H; [|exact (H s)]. unfold run_endpoint.
  eapply continues_bind; [apply no_commit_nil|by eapply (loads_lift _ (fun _ t => t = []))|]. intros relation ? -> H0.
  eapply (continues_bind _ _ _ _ (fun st t => t = reads e st /\ (truthy (en_incremental_cursor e) = false -> st = None))); [done| |].
  { unfold reads. destruct (truthy _); [by apply loads_call|by apply loads_ret]. }
  intros stored ? [-> Hst] H1. eapply (continues_bind _ _ _ _ (fun _ t => t = verified)); [done|apply emits_verified_alone|].
  intros _ ? -> H2. eapply continues_bind; [done|apply claim_target_loads|]. intros target ? -> H3.
  eapply (continues_bind _ _ _ _ (fun st t => t = [EvExtract (Ok st)])); [done|by apply loads_call|].
  intros st ? -> H4. eapply continues_bind; [done|apply write_observed_loads|]. intros [[n tel] consumed] ? (bs & -> & Hc & Hl) H5.
  cbn in Hc. subst consumed. eapply (continues_bind _ _ _ _ (fun o t => t = [] /\ seen e (concat bs) o)); [done| |].
  { apply loads_lift. intros o Ho. split; [done|]. eapply (observe_all_seen _ _ [] _ _ (no_observation_seen e)), Ho. }
  intros o ? [-> Hs] H6. match goal with |- continues _ ?t _ => assert (t = written_calls e stored st bs) as E end.
  { unfold written_calls. cbn. by rewrite app_nil_r, <- !app_assoc. }
  rewrite E in *. by apply commit_ends.
Qed.
End Run.

(** ** A run evaluated

    Three records in batches of two, with a guard that still owns the lease; and
    the same when another run has moved the boundary meanwhile. *)
#[local] Instance one_cursor : WatermarkStore (option string) := {|
  get_cursor _ _ := fun w => (Ok w, w);
  set_cursor _ _ c := fun w => (Ok tt, Some c);
  compare_and_set _ _ x c _ := fun w => if bool_decide (w = x) then (Ok true, Some c) else (Ok false, w);
|}.
Definition items : endpoint := {| en_name := "items"; en_primary_key := ["id"]; en_incremental_cursor := Some "at"; en_cursor_param := Some "since" |}.
Definition item (n : Z) (at_ : string) : record := [("id", VInt n); ("at", VStr at_)].
Definition three_items : list record := [item 1 "2026-01-02"; item 2 "2026-01-04"; item 3 "2026-01-03"].
Definition counting_writer {W} : WritePattern W unit := {|
  wp_supports_batched_writes := true; wp_accepts_streaming_input := false; wp_requires_publication_fence := false;
  wp_write := fun rs _ w => (Ok (Z.of_nat (length rs)), w);
  wp_write_stream := fun s _ w => (Ok (0, 0%nat), w);
  wp_drain_telemetry := fun w => (Ok [], w) |}.
Definition runner_with {W} (extract : string -> option string -> M W stream) : result (PipelineRunner W unit) :=
  new_pipeline_runner "shop" [items] extract counting_writer None None (Some "acme") (Some "raw") None true 2.
Definition still_owner : Ownership (option string) := {| ow_fence := None; ow_verify := fun w => (Ok tt, w) |}.
(** The extraction; [moved] is what another run leaves in the watermark meanwhile. *)
Definition extract_items (moved : option string) (_ : string) (_ : option string) : M (option string) stream :=
  fun w => (Ok {| sm_records := three_items; sm_error := None |}, or_opt moved w).
Definition sample_run (moved : option string) : result (result (PipelineRunResult unit) * (option string * list event)) :=
  pn ← runner_with (extract_items moved); Ok (run_pipeline pn (Some still_owner) None "run-1" (Some "2026-01-01", [])).
Definition until_commit : list event :=
  [EvCursor (Ok (Some "2026-01-01")); EvVerify true; EvExtract (Ok {| sm_records := three_items; sm_error := None |});
   EvVerify true; EvWrite (take 2 three_items) true; EvVerify true; EvWrite (drop 2 three_items) true; EvVerify true].

Example sample_run_commits :
  sample_run None =
  Ok (Ok {| pr_run_id := "run-1"; pr_source := "shop";
            pr_endpoints := [{| er_endpoint := "items"; er_extracted := 3; er_affected := 3; er_committed_cursor := Some "2026-01-04"; er_telemetry := [] |}] |},
      (Some "2026-01-04", until_commit ++ [EvCommit (Some "2026-01-01") "2026-01-04" (Ok true)])).
Proof. by vm_compute. Qed.
Example sample_run_conflicts :
  sample_run (Some "2026-01-09") =
  Ok (Raise (watermark_conflict items), (Some "2026-01-09", until_commit ++ [EvCommit (Some "2026-01-01") "2026-01-04" (Ok false)])).
Proof. by vm_compute. Qed.
