(* ===== verification/Executor.v ===== *)
(** * A pipeline from its source to its metadata ([executor.py])

    [PipelineExecutor] runs one pipeline under its lease: ingestion, transforms,
    metadata publication and the record of the outcome in the run history.  The
    transform runner, the compiler of the metadata and the publishers are
    parameters; the ingestion is any runner, [pipeline_ingestion] the one of
    [Ingestion].  The calls made are recorded for the proofs. *)

From S2P Require Import Prelude Regex PyStr StatePort LeaseGuard RunHistory Failure Ingestion.

Local Open Scope string_scope.
Local Open Scope Z_scope.
Local Open Scope list_scope.

Record TransformRunResult (Tm : Type) : Type := { tr_models : list string; tr_assertions : Z; tr_telemetry : list Tm }.
Arguments tr_models {Tm}.
Arguments tr_assertions {Tm}.
Arguments tr_telemetry {Tm}.

(** The durations, which only report, are left out. *)
Record PipelineExecutionResult (Tm : Type) : Type := {
  xr_run_id : string;
  xr_pipeline_id : string;
  xr_ingestion : PipelineRunResult Tm;
  xr_models : list string;
  xr_assertions : Z;
  xr_assets : Z;
  xr_skipped : bool;
  xr_telemetry : list Tm;
}.
Arguments xr_run_id {Tm}.
Arguments xr_pipeline_id {Tm}.
Arguments xr_ingestion {Tm}.
Arguments xr_models {Tm}.
Arguments xr_assertions {Tm}.
Arguments xr_assets {Tm}.
Arguments xr_skipped {Tm}.
Arguments xr_telemetry {Tm}.

(** [LeaseHeartbeat]: its store and its lease; its state is a [guard]. *)
Record LeaseHeartbeat (W : Type) : Type := { hb_store : LeaseStore W; hb_lease : LeaseHandle }.
Arguments hb_store {W}.
Arguments hb_lease {W}.

(** The ownership guard the collaborators are handed. *)
Definition ownership_of {W} (h : LeaseHeartbeat W) : Ownership (guard * W) :=
  {| ow_fence := lh_fence (hb_lease h); ow_verify := @verify W (hb_store h) (hb_lease h) |}.

(** Collaborators act on the world and on the guard they were handed, whose
    background thread beats while they work. *)
Record PipelineExecutor (W Tm Asset Manifest : Type) : Type := {
  ex_pipeline_id : string;
  ex_source : string;
  ex_ingestion : option (string -> option (Ownership (guard * W)) -> M (guard * W) (PipelineRunResult Tm));
  ex_history : RunHistoryStore W;
  ex_catalog : string;
  ex_raw_namespace : string;
  ex_source_relations : list (string * RelationRef);
  ex_selected_models : option (list string);
  ex_build_models : bool;
  ex_transform_runner : option (option (Ownership (guard * W)) -> M (guard * W) (TransformRunResult Tm));
  ex_compile : M (guard * W) (list Asset);              (* TransformProject.load, MetadataSpine.compile *)
  ex_manifest : list Asset -> M (guard * W) Manifest;   (* MetadataSpine.pipeline_manifest *)
  ex_metadata_store : option (string -> string -> Manifest -> M (guard * W) unit);
  ex_registry_output : option (Manifest -> M (guard * W) unit);
  ex_catalog_publisher : option (Asset -> M (guard * W) unit);
  ex_leases : option (LeaseStore W);
  ex_repair_window : bool;
  ex_describe : exn -> objects * nat;                   (* an exception as an object *)
}.
Arguments ex_pipeline_id {W Tm Asset Manifest}.
Arguments ex_source {W Tm Asset Manifest}.
Arguments ex_ingestion {W Tm Asset Manifest}.
Arguments ex_history {W Tm Asset Manifest}.
Arguments ex_catalog {W Tm Asset Manifest}.
Arguments ex_raw_namespace {W Tm Asset Manifest}.
Arguments ex_source_relations {W Tm Asset Manifest}.
Arguments ex_selected_models {W Tm Asset Manifest}.
Arguments ex_build_models {W Tm Asset Manifest}.
Arguments ex_transform_runner {W Tm Asset Manifest}.
Arguments ex_compile {W Tm Asset Manifest}.
Arguments ex_manifest {W Tm Asset Manifest}.
Arguments ex_metadata_store {W Tm Asset Manifest}.
Arguments ex_registry_output {W Tm Asset Manifest}.
Arguments ex_catalog_publisher {W Tm Asset Manifest}.
Arguments ex_leases {W Tm Asset Manifest}.
Arguments ex_repair_window {W Tm Asset Manifest}.
Arguments ex_describe {W Tm Asset Manifest}.

(** ** [__init__] *)

(** The relations of a source share one catalog and one namespace. *)
Definition check_execution_modes (repair has_ingestion build has_runner : bool) : result unit :=
  _ ← value_reject (repair && (has_ingestion || negb build)) "Date repair must build graph outputs without an ingestion runner";
  _ ← value_reject (negb has_ingestion && negb repair) "Ordinary pipeline execution requires an ingestion runner";
  value_reject (build && negb has_runner) "A transform runner is required when build_models is enabled".
Definition catalog_or_project (catalog project : option string) : result (option string) :=
  match catalog, project with
  | None, _ => Ok project
  | Some c, Some p => _ ← value_reject (negb (bool_decide (p = c))) "catalog and legacy project must match"; Ok catalog
  | Some _, None => Ok catalog
  end.
Definition conflicts (given : option string) (value : string) : bool :=
  match given with Some g => negb (bool_decide (g = value)) | None => false end.
(** The catalog, the namespace and the relation of each endpoint. *)
Definition resolve_relations (source : string) (configured : list string) (catalog raw_namespace : option string)
    (relations : option (list (string * RelationRef))) : result (string * string * list (string * RelationRef)) :=
  match relations with
  | Some relations =>
      _ ← name_reject (missing_names configured relations.*1) "Missing source relation for endpoint: ";
      _ ← name_reject (missing_names relations.*1 configured) "Unknown source relation endpoint: ";
      match relations with
      | [] => raise_ ValueError "PipelineExecutor requires at least one source relation"
      | (_, canonical) :: _ =>
          _ ← value_reject (existsb (fun p => negb (bool_decide ((rl_catalog p.2, rl_namespace p.2) = (rl_catalog canonical, rl_namespace canonical)))) relations)
                "Pipeline source relations must share one catalog and raw namespace";
          _ ← value_reject (conflicts catalog (rl_catalog canonical)) "catalog conflicts with canonical source relations";
          _ ← value_reject (conflicts raw_namespace (rl_namespace canonical)) "raw_namespace conflicts with canonical source relations";
          Ok (rl_catalog canonical, rl_namespace canonical, relations)
      end
  | None =>
      match catalog with
      | None => raise_ ValueError "PipelineExecutor requires a warehouse catalog"
      | Some c =>
          let raw := match raw_namespace with Some n => if empty n then "raw" else n | None => "raw" end in
          Ok (c, raw, map (fun n => (n, {| rl_catalog := c; rl_namespace := raw; rl_name := source +:+ "_" +:+ n |})) configured)
      end
  end.

Definition new_pipeline_executor {W Tm Asset Manifest : Type} (pipeline_id source : string) (endpoints : list string)
    (ingestion : option (string -> option (Ownership (guard * W)) -> M (guard * W) (PipelineRunResult Tm)))
    (history : RunHistoryStore W) (catalog project raw_namespace : option string) (relations : option (list (string * RelationRef)))
    (selected_models : option (list string)) (build_models : bool)
    (transform_runner : option (option (Ownership (guard * W)) -> M (guard * W) (TransformRunResult Tm)))
    (compile : M (guard * W) (list Asset)) (manifest : list Asset -> M (guard * W) Manifest)
    (metadata_store : option (string -> string -> Manifest -> M (guard * W) unit)) (registry_output : option (Manifest -> M (guard * W) unit))
    (catalog_publisher dataplex_publisher : option (Asset -> M (guard * W) unit)) (leases : option (LeaseStore W)) (repair_window : bool)
    (describe : exn -> objects * nat) : result (PipelineExecutor W Tm Asset Manifest) :=
  _ ← check_execution_modes repair_window (is_some ingestion) build_models (is_some transform_runner);
  catalog ← catalog_or_project catalog project;
  _ ← value_reject (is_some catalog_publisher && is_some dataplex_publisher) "catalog_publisher and legacy dataplex_publisher are mutually exclusive";
  '(catalog, raw_namespace, relations) ← resolve_relations source endpoints catalog raw_namespace relations;
  Ok {| ex_pipeline_id := pipeline_id; ex_source := source; ex_ingestion := ingestion; ex_history := history; ex_catalog := catalog;
        ex_raw_namespace := raw_namespace; ex_source_relations := relations; ex_selected_models := selected_models;
        ex_build_models := build_models; ex_transform_runner := transform_runner; ex_compile := compile; ex_manifest := manifest;
        ex_metadata_store := metadata_store; ex_registry_output := registry_output;
        ex_catalog_publisher := or_opt catalog_publisher dataplex_publisher; ex_leases := leases; ex_repair_window := repair_window;
        ex_describe := describe |}.

(** ** [execute] *)

(** The calls of an execution with what they answered. *)
Inductive step : Type :=
  | XStart (ok : bool)
  | XAcquire (answer : result (option LeaseHandle))
  | XReconcile (ok : bool)
  | XIngest (ok : bool)
  | XCheckpoint (stage : RunStage) (ok : bool)
  | XVerify (ok : bool)
  | XBuild (ok : bool)
  | XCompile (ok : bool)
  | XMetadata (ok : bool)
  | XRegistry (ok : bool)
  | XCatalog (ok : bool)
  | XFinish (status : RunStatus) (c : counts) (f : failure) (ok : bool)
  | XRelease.

(** The local variables of [execute] that its handlers read, and the calls. *)
Record execution (W : Type) : Type := Execution {
  xe_world : guard * W;
  xe_stage : RunStage;
  xe_counts : counts;
  xe_heartbeat : option (LeaseHeartbeat W);
  xe_trace : list step;
}.
Arguments Execution {W}.
Arguments xe_world {W}.
Arguments xe_stage {W}.
Arguments xe_counts {W}.
Arguments xe_heartbeat {W}.
Arguments xe_trace {W}.

Section Execute.
Context {W Tm Asset Manifest : Type} (ex : PipelineExecutor W Tm Asset Manifest).
Abbreviation St := (execution W).

(** A call on the world and its guard, and its record. *)
Definition perform {A} (m : M (guard * W) A) (ev : result A -> step) : M St A := fun s =>
  let '(r, w) := m (xe_world s) in
  (r, Execution w (xe_stage s) (xe_counts s) (xe_heartbeat s) (xe_trace s ++ [ev r])).
(** A call that has no guard. *)
Definition unguarded {A} (m : M W A) : M (guard * W) A := fun p => let '(r, w) := m p.2 in (r, (p.1, w)).
Definition perform_ok {A} (m : M (guard * W) A) (ev : bool -> step) : M St A := perform m (fun r => ev (is_ok r)).

Definition enter_stage (stage : RunStage) : M St unit := fun s =>
  (Ok tt, Execution (xe_world s) stage (xe_counts s) (xe_heartbeat s) (xe_trace s)).
Definition count (f : counts -> counts) : M St unit := fun s =>
  (Ok tt, Execution (xe_world s) (xe_stage s) (f (xe_counts s)) (xe_heartbeat s) (xe_trace s)).
(** [heartbeat = LeaseHeartbeat(...)] and [__enter__]. *)
Definition hold (h : LeaseHeartbeat W) : M St unit := fun s =>
  (Ok tt, Execution (new_guard true, (xe_world s).2) (xe_stage s) (xe_counts s) (Some h) (xe_trace s)).

Definition with_ingested (r : PipelineRunResult Tm) (c : counts) : counts :=
  Counts (Z.of_nat (length (pr_endpoints r))) (summed er_extracted (pr_endpoints r)) (summed er_affected (pr_endpoints r))
    (ct_models c) (ct_assertions c) (ct_assets c).
Definition with_transformed (r : TransformRunResult Tm) (c : counts) : counts :=
  Counts (ct_endpoints c) (ct_extracted c) (ct_affected c) (Z.of_nat (length (tr_models r))) (tr_assertions r) (ct_assets c).
Definition with_assets (assets : list Asset) (c : counts) : counts :=
  Counts (ct_endpoints c) (ct_extracted c) (ct_affected c) (ct_models c) (ct_assertions c) (Z.of_nat (length assets)).

Definition guarding : M St (option (LeaseHeartbeat W)) := fun s => (Ok (xe_heartbeat s), s).
Definition verify_heartbeat : M St unit :=
  h ← guarding;
  match h with Some h => perform_ok (ow_verify (ownership_of h)) XVerify | None => mret tt end.
Definition finish_run (run_id : string) (status : RunStatus) (c : counts) (f : failure) : M St unit :=
  perform_ok (unguarded (@finish W (ex_history ex) run_id status c f)) (XFinish status c f).
Definition checkpoint_stage (run_id : string) (stage : RunStage) : M St unit :=
  _ ← enter_stage stage;
  c ← (fun s : St => (Ok (xe_counts s), s));
  perform_ok (unguarded (@checkpoint W (ex_history ex) run_id stage c)) (XCheckpoint stage).

(** Whether the run goes on. *)
Definition take_lease (run_id : string) : M St bool :=
  match ex_leases ex with
  | None => mret true
  | Some store =>
      lease ← perform (unguarded (@acquire W store (ex_pipeline_id ex) run_id)) XAcquire;
      match lease with
      | None => _ ← finish_run run_id SKIPPED no_counts no_failure; mret false
      | Some lease =>
          _ ← hold {| hb_store := store; hb_lease := lease |};
          _ ← perform_ok (unguarded (@reconcile_interrupted W (ex_history ex) (ex_pipeline_id ex) run_id)) XReconcile;
          mret true
      end
  end.

Definition nothing_ingested (run_id : string) : PipelineRunResult Tm :=
  {| pr_run_id := run_id; pr_source := ex_source ex; pr_endpoints := [] |}.
Definition nothing_transformed : TransformRunResult Tm := {| tr_models := []; tr_assertions := 0; tr_telemetry := [] |}.
Definition ingest (run_id : string) : M St (PipelineRunResult Tm) :=
  r ← (if ex_repair_window ex then mret (nothing_ingested run_id)
       else match ex_ingestion ex with
            | Some run => h ← guarding; perform_ok (run run_id (ownership_of <$> h)) XIngest
            | None => raiseM AssertionError ""
            end);
  _ ← count (with_ingested r);
  mret r.
Definition transform (run_id : string) : M St (TransformRunResult Tm) :=
  if negb (ex_build_models ex) then mret nothing_transformed
  else
    _ ← checkpoint_stage run_id TRANSFORM;
    match ex_transform_runner ex with
    | None => raiseM AssertionError ""
    | Some build =>
        _ ← verify_heartbeat;
        h ← guarding;
        r ← perform_ok (build (ownership_of <$> h)) XBuild;
        _ ← count (with_transformed r);
        mret r
    end.

(** A publication, each after a verification. *)
Definition publish (m : M (guard * W) unit) (ev : bool -> step) : M St unit := _ ← verify_heartbeat; perform_ok m ev.
Definition publish_if {A} (publisher : option A) (call : A -> M (guard * W) unit) (ev : bool -> step) : M St unit :=
  match publisher with Some p => publish (call p) ev | None => mret tt end.
Fixpoint publish_assets (send : Asset -> M (guard * W) unit) (assets : list Asset) : M St unit :=
  match assets with
  | [] => mret tt
  | a :: assets => _ ← publish (send a) XCatalog; publish_assets send assets
  end.
Definition publishes_metadata : bool :=
  is_some (ex_metadata_store ex) || is_some (ex_registry_output ex) || is_some (ex_catalog_publisher ex).
Definition publish_metadata (run_id : string) : M St (list Asset) :=
  if negb publishes_metadata then mret []
  else
    _ ← checkpoint_stage run_id METADATA;
    assets ← (if bool_decide (ex_selected_models ex = Some []) && negb (ex_build_models ex) then mret []
              else perform_ok (ex_compile ex) XCompile);
    manifest ← perform_ok (ex_manifest ex assets) XCompile;
    _ ← count (with_assets assets);
    _ ← publish_if (ex_metadata_store ex) (fun store => store (ex_pipeline_id ex) run_id manifest) XMetadata;
    _ ← publish_if (ex_registry_output ex) (fun send => send manifest) XRegistry;
    _ ← (match ex_catalog_publisher ex with Some send => publish_assets send assets | None => mret tt end);
    mret assets.

Definition succeed (run_id : string) : M St unit :=
  _ ← verify_heartbeat;
  c ← (fun s : St => (Ok (xe_counts s), s));
  finish_run run_id SUCCEEDED c no_failure.

Definition skipped_result (run_id : string) : PipelineExecutionResult Tm :=
  {| xr_run_id := run_id; xr_pipeline_id := ex_pipeline_id ex; xr_ingestion := nothing_ingested run_id;
     xr_models := []; xr_assertions := 0; xr_assets := 0; xr_skipped := true; xr_telemetry := [] |}.
Definition run_telemetry (r : PipelineRunResult Tm) : list Tm := concat (map er_telemetry (pr_endpoints r)).
(** The body of the [try]. *)
Definition run_stages (run_id : string) : M St (PipelineExecutionResult Tm) :=
  owner ← take_lease run_id;
  if negb owner then mret (skipped_result run_id)
  else
    ingestion ← ingest run_id;
    transformed ← transform run_id;
    assets ← publish_metadata run_id;
    _ ← succeed run_id;
    mret {| xr_run_id := run_id; xr_pipeline_id := ex_pipeline_id ex; xr_ingestion := ingestion; xr_models := tr_models transformed;
            xr_assertions := tr_assertions transformed; xr_assets := Z.of_nat (length assets); xr_skipped := false;
            xr_telemetry := run_telemetry ingestion ++ tr_telemetry transformed |}.

Definition failure_of (e : exn) (stage : RunStage) (run_id : string) : failure :=
  let '(os, error) := ex_describe ex e in
  let d := classify_failure os error stage run_id in
  Failure (Some stage) (Some (fd_code d)) (Some (fd_summary d)).
(** The handler: an error of the history is only logged. *)
Definition record_failure {A} (run_id : string) (e : exn) : M St A := fun s =>
  (_ ← try_except (finish_run run_id FAILED (xe_counts s) (failure_of e (xe_stage s) run_id)) (fun _ => mret tt);
   lift (Raise e)) s.
(** The [finally]. *)
Definition release_heartbeat : M St unit :=
  h ← guarding;
  match h with Some h => perform (@exit_guard W (hb_store h) (hb_lease h)) (fun _ => XRelease) | None => mret tt end.
Definition always {A} (m : M St A) (cleanup : M St unit) : M St A := fun s =>
  let '(r, s1) := m s in
  match cleanup s1 with
  | (Ok _, s2) => (r, s2)
  | (Raise e, s2) => (Raise e, s2)
  end.

Definition first_stage : RunStage := if ex_repair_window ex then TRANSFORM else INGEST.
Definition execute_calls (run_id : string) (retry : bool) : M St (PipelineExecutionResult Tm) :=
  _ ← perform_ok (unguarded ((if retry then @restart_retryable W (ex_history ex) else @start_run W (ex_history ex))
                               run_id (ex_source ex) (Some (ex_pipeline_id ex)))) XStart;
  always (try_except (run_stages run_id) (record_failure run_id)) release_heartbeat.

Definition execute (run_id : string) (retry : bool) : M W (PipelineExecutionResult Tm) := fun w =>
  let '(r, s) := execute_calls run_id retry (Execution (new_guard false, w) first_stage no_counts None []) in (r, (xe_world s).2).
End Execute.

(** [PipelineRunner.run] as the ingestion of an execution. *)
Definition pipeline_ingestion {W Tm} {WS : WatermarkStore (guard * W)} (pn : PipelineRunner (guard * W) Tm) (run_id : string)
    (own : option (Ownership (guard * W))) : M (guard * W) (PipelineRunResult Tm) := fun w =>
  let '(r, s) := run_pipeline pn own None run_id (w, []) in (r, s.1).
