(* ===== verification/ExecutorSpec.v ===== *)
(** * One outcome for every execution

    Facts about the calls of [Executor], for any collaborators: what the stages
    append, and how their end, the handler and the release close the record. *)

From S2P Require Import Prelude Regex PyStr StatePort LeaseGuard RunHistory Failure Ingestion Traces Executor.

Local Open Scope string_scope.
Local Open Scope Z_scope.
Local Open Scope list_scope.

(** ** Kinds of calls *)

Definition failed (ev : step) : bool :=
  match ev with
  | XStart ok | XReconcile ok | XIngest ok | XCheckpoint _ ok | XVerify ok | XBuild ok | XCompile ok
  | XMetadata ok | XRegistry ok | XCatalog ok | XFinish _ _ _ ok => negb ok
  | XAcquire a => negb (is_ok a)
  | XRelease => false
  end.
(** What only the owner may do. *)
Definition finalizer (ev : step) : bool :=
  match ev with
  | XBuild _ | XMetadata _ | XRegistry _ | XCatalog _ => true
  | XFinish SUCCEEDED _ _ _ => true
  | _ => false
  end.
(** A recorded outcome; an acquired lease. *)
Definition outcome (ev : step) : bool := match ev with XFinish _ _ _ ok => ok | _ => false end.
Definition acquired (ev : step) : bool := match ev with XAcquire (Ok (Some _)) => true | _ => false end.
Definition stage_after (st : RunStage) (t : list step) : RunStage :=
  foldl (fun st ev => match ev with XCheckpoint st' _ => st' | _ => st end) st t.

Abbreviation stops := (stops failed).
Abbreviation guarded := (guarded finalizer (XVerify true)).
Abbreviation fine := (fine failed).
Definition none_of (f : step -> bool) (t : list step) : Prop := Forall (fun ev => f ev = false) t.
Lemma none_app f t u : none_of f t -> none_of f u -> none_of f (t ++ u).
Proof. intros. by apply Forall_app. Qed.
Lemma none_one f ev : f ev = false -> none_of f [ev].
Proof. intros. by repeat constructor. Qed.
Lemma none_existsb f t : none_of f t -> existsb f t = false.
Proof. apply existsb_false. Qed.

Section Spec.
Context {W Tm Asset Manifest : Type} (ex : PipelineExecutor W Tm Asset Manifest).
Abbreviation St := (execution W).
Abbreviation runs := (steps (@xe_trace W)).
Abbreviation follows := (follows (S := St) (E := step)).

(** ** The stages *)

(** What every part of the body does while a lease is held or none is needed. *)
Definition advances (s : St) (ok : bool) (t : list step) (s' : St) : Prop :=
  stops t /\ (ok = true -> fine t) /\ (is_some (xe_heartbeat s) = true -> guarded t) /\
  xe_heartbeat s' = xe_heartbeat s /\ xe_stage s' = stage_after (xe_stage s) t /\ none_of outcome t /\ none_of acquired t.
Lemma advances_composes : composes advances.
Proof.
  intros s t s1 b u s2 (A1 & A2 & A3 & A4 & A5 & A6 & A7) (B1 & B2 & B3 & B4 & B5 & B6 & B7). rewrite A4 in *. rewrite A5 in *.
  specialize (A2 eq_refl). split_and!.
  - by apply stops_app.
  - intros Hb. apply fine_app; auto.
  - intros Hh. apply guarded_app; auto.
  - done.
  - unfold stage_after. by rewrite foldl_app.
  - by apply none_app.
  - by apply none_app.
Qed.
Lemma advances_nil s b s' : xe_heartbeat s' = xe_heartbeat s -> xe_stage s' = xe_stage s -> advances s b [] s'.
Proof.
  intros. unfold advances. split_and!; [apply fine_stops, fine_nil|intros _; apply fine_nil|intros _; apply guarded_nil|done|done|by apply Forall_nil|by apply Forall_nil].
Qed.
Lemma advances_ret {A} (a : A) : runs (mret a) (follows advances).
Proof. apply steps_ret. intros s. by apply advances_nil. Qed.
Lemma advances_lift {A} (r : result A) : runs (lift r) (follows advances).
Proof. apply steps_lift. intros s. by apply advances_nil. Qed.
Lemma advances_quiet {A} (m : M St A) :
  (forall s, xe_trace (m s).2 = xe_trace s /\ xe_heartbeat (m s).2 = xe_heartbeat s /\ xe_stage (m s).2 = xe_stage s) -> runs m (follows advances).
Proof. intros H s. destruct (H s) as (H1 & H2 & H3). exists []. rewrite app_nil_r. split; [done|]. by apply advances_nil. Qed.

(** One call. *)
Lemma perform_runs {A} (m : M (guard * W) A) ev : runs (perform_ok m ev) (fun s r t s' =>
  xe_heartbeat s' = xe_heartbeat s /\ xe_stage s' = xe_stage s /\ xe_counts s' = xe_counts s /\ t = [ev (is_ok r)]).
Proof. intros s. unfold perform_ok, perform. destruct (m (xe_world s)) as [r w]. by exists [ev (is_ok r)]. Qed.

(** A call that is not a finalizer. *)
Lemma advances_call {A} (m : M (guard * W) A) ev :
  (forall ok, failed (ev ok) = negb ok /\ finalizer (ev ok) = false /\ outcome (ev ok) = false /\ acquired (ev ok) = false /\
              forall st, stage_after st [ev ok] = st) -> runs (perform_ok m ev) (follows advances).
Proof.
  intros H. eapply steps_impl; [apply perform_runs|]. intros s r t s' (E1 & E2 & _ & ->).
  destruct (H (is_ok r)) as (H1 & H2 & H3 & H4 & H5). unfold Traces.follows, advances. rewrite E2. split_and!.
  - apply stops_one.
  - intros Hr. apply fine_one. by rewrite H1, Hr.
  - intros _. by apply guarded_one.
  - done.
  - symmetry. apply (H5 (xe_stage s)).
  - by apply none_one.
  - by apply none_one.
Qed.
Lemma checkpoint_advances run_id stage : runs (checkpoint_stage ex run_id stage) (follows advances).
Proof.
  intros s. unfold checkpoint_stage, enter_stage, perform_ok, perform, unguarded, mbind, M_bind. cbn.
  destruct (checkpoint _ _ _ _) as [r w]. cbn. exists [XCheckpoint stage (is_ok r)]. split; [done|].
  unfold Traces.follows, advances. cbn. split_and!; try done.
  - apply stops_one.
  - intros Hr. apply fine_one. cbn. by rewrite Hr.
  - intros _. by apply guarded_one.
  - by apply none_one.
  - by apply none_one.
Qed.

(** The verification before a finalizer. *)
Definition verified (s : St) : list step := if is_some (xe_heartbeat s) then [XVerify true] else [].
Lemma verify_runs : runs verify_heartbeat (fun s r t s' =>
  xe_heartbeat s' = xe_heartbeat s /\ xe_stage s' = xe_stage s /\ xe_counts s' = xe_counts s /\
  (is_ok r = true /\ t = verified s \/ is_ok r = false /\ t = [XVerify false])).
Proof.
  intros s. unfold verify_heartbeat, guarding, mbind, M_bind, verified. destruct (xe_heartbeat s) as [h|] eqn:Eh; cbn [is_some].
  - destruct (perform_runs (ow_verify (ownership_of h)) XVerify s) as (t & Et & E1 & E2 & E3 & ->). rewrite Eh in E1.
    exists [XVerify (is_ok (perform_ok (ow_verify (ownership_of h)) XVerify s).1)]. split_and!; try done.
    destruct (is_ok _); auto.
  - exists []. rewrite app_nil_r. split_and!; try done. by left.
Qed.
(** One finalizer, which is no outcome, after a verification. *)
Lemma finalizer_advances {A} (k : M St A) ev :
  (forall ok, failed (ev ok) = negb ok /\ outcome (ev ok) = false /\ acquired (ev ok) = false /\ forall st, stage_after st [ev ok] = st) ->
  runs k (fun s r t s' => xe_heartbeat s' = xe_heartbeat s /\ xe_stage s' = xe_stage s /\ t = [ev (is_ok r)]) ->
  runs (_ ← verify_heartbeat; k) (follows advances).
Proof.
  intros H Hk. eapply steps_bind; [apply verify_runs| |].
  - intros s e t s' (E1 & E2 & _ & [[? _]|[_ ->]]); [done|]. unfold Traces.follows, advances.
    split_and!; try done; [apply stops_one|intros _; by apply guarded_one|by apply none_one|by apply none_one].
  - intros s [] t s1 (E1 & E2 & _ & [[_ ->]|[? _]]); [|done]. destruct (Hk s1) as (u & Eu & K1 & K2 & ->).
    exists [ev (is_ok (k s1).1)]. split; [done|]. destruct (H (is_ok (k s1).1)) as (H1 & H2 & H3 & H4).
    unfold Traces.follows, advances, verified. rewrite K1, K2, E1, E2. destruct (is_some (xe_heartbeat s)); cbn [app]; split_and!; try done.
    + apply (stops_app _ [_]); [by apply fine_one|apply stops_one].
    + intros Hr. apply (fine_app _ [_]); apply fine_one; [done|]. by rewrite H1, Hr.
    + intros _. by apply guarded_pair.
    + symmetry. apply (H4 (xe_stage s)).
    + apply (none_app _ [_]); by apply none_one.
    + apply (none_app _ [_]); by apply none_one.
    + apply stops_one.
    + intros Hr. apply fine_one. by rewrite H1, Hr.
    + by apply none_one.
    + by apply none_one.
Qed.
Lemma publish_advances m ev :
  (forall ok, failed (ev ok) = negb ok /\ outcome (ev ok) = false /\ acquired (ev ok) = false /\ forall st, stage_after st [ev ok] = st) ->
  runs (publish m ev) (follows advances).
Proof.
  intros H. eapply finalizer_advances; [exact H|]. eapply steps_impl; [apply perform_runs|].
  by intros s r t s' (? & ? & _ & ?).
Qed.

Ltac seq := apply steps_then; [apply advances_composes| |].
Lemma ingest_advances run_id : runs (ingest ex run_id) (follows advances).
Proof.
  unfold ingest. seq; [|intros r; seq; [by apply advances_quiet|intros _; apply advances_ret]].
  destruct (ex_repair_window ex); [apply advances_ret|]. destruct (ex_ingestion ex) as [run|]; [|apply advances_lift].
  seq; [by apply advances_quiet|intros h; by apply advances_call].
Qed.
Lemma transform_advances run_id : runs (transform ex run_id) (follows advances).
Proof.
  unfold transform. destruct (negb _); [apply advances_ret|]. seq; [apply checkpoint_advances|]. intros _.
  destruct (ex_transform_runner ex) as [build|]; [|apply advances_lift]. eapply (finalizer_advances _ XBuild); [done|].
  intros s. unfold guarding, perform_ok, perform, count, mbind, M_bind. cbn. destruct (build _ _) as [[r|e] w]; by eexists.
Qed.
Lemma publish_metadata_advances run_id : runs (publish_metadata ex run_id) (follows advances).
Proof.
  unfold publish_metadata. destruct (negb _); [apply advances_ret|]. seq; [apply checkpoint_advances|]. intros _.
  seq; [destruct (_ && _); [apply advances_ret|by apply advances_call]|]. intros assets.
  seq; [by apply advances_call|]. intros manifest. seq; [by apply advances_quiet|]. intros _.
  unfold publish_if. seq; [destruct (ex_metadata_store ex); [by apply publish_advances|apply advances_ret]|]. intros _.
  seq; [destruct (ex_registry_output ex); [by apply publish_advances|apply advances_ret]|]. intros _.
  seq; [|intros _; apply advances_ret]. destruct (ex_catalog_publisher ex) as [send|]; [|apply advances_ret].
  induction assets as [|a assets IH]; cbn; [apply advances_ret|]. seq; [by apply publish_advances|]. by intros _.
Qed.

(** *** The counts *)

(** What an answer says of the counts. *)
Definition tallies {A} (m : M St A) (R : counts -> A -> counts -> Prop) : Prop :=
  forall s a, (m s).1 = Ok a -> R (xe_counts s) a (xe_counts (m s).2).
Lemma tallies_bind {A B} (m : M St A) (k : A -> M St B) R Q T :
  tallies m R -> (forall a, tallies (k a) (Q a)) -> (forall c a c1 b c2, R c a c1 -> Q a c1 b c2 -> T c b c2) -> tallies (m ≫= k) T.
Proof.
  intros Hm Hk H s b. unfold mbind, M_bind. specialize (Hm s). destruct (m s) as [[a|e] s1]; [|done]. cbn in *.
  intros Hb. eapply H; [by apply Hm|]. by apply Hk.
Qed.
Definition untouched {A} (c : counts) (a : A) (c' : counts) : Prop := c' = c.
Lemma untouched_bind {A B} (m : M St A) (k : A -> M St B) T : tallies m untouched -> (forall a, tallies (k a) T) -> tallies (m ≫= k) T.
Proof. intros Hm Hk. eapply tallies_bind; [exact Hm|exact Hk|]. by intros c a c1 b c2 ->. Qed.
Lemma untouched_call {A} (m : M (guard * W) A) ev : tallies (perform_ok m ev) untouched.
Proof. intros s a _. destruct (perform_runs m ev s) as (t & _ & _ & _ & ? & _). done. Qed.
Lemma untouched_verify : tallies verify_heartbeat untouched.
Proof. intros s a _. destruct (verify_runs s) as (t & _ & _ & _ & ? & _). done. Qed.
Lemma untouched_publish m ev : tallies (publish m ev) untouched.
Proof. apply untouched_bind; [apply untouched_verify|]. intros _. apply untouched_call. Qed.
Lemma untouched_checkpoint run_id stage : tallies (checkpoint_stage ex run_id stage) untouched.
Proof. apply untouched_bind; [by intros s a _|]. intros _. apply untouched_bind; [by intros s a _|]. intros c. apply untouched_call. Qed.

Lemma ingest_tallies run_id : tallies (ingest ex run_id) (fun c r c' => c' = with_ingested r c).
Proof.
  unfold ingest. apply untouched_bind.
  - destruct (ex_repair_window ex); [by intros s a _|]. destruct (ex_ingestion ex); [|by intros s a ?].
    apply untouched_bind; [by intros s a _|]. intros h. apply untouched_call.
  - intros r s a. by intros [= <-].
Qed.
Lemma transform_tallies run_id : tallies (transform ex run_id) (fun c r c' => ct_models c = 0 -> ct_assertions c = 0 -> c' = with_transformed r c).
Proof.
  unfold transform. destruct (negb _).
  { intros s a [= <-]. cbn. destruct (xe_counts s). cbn. by intros -> ->. }
  apply untouched_bind; [apply untouched_checkpoint|]. intros _. destruct (ex_transform_runner ex); [|by intros s a ?].
  apply untouched_bind; [apply untouched_verify|]. intros _. apply untouched_bind; [by intros s a _|]. intros h.
  apply untouched_bind; [apply untouched_call|]. intros r s a. by intros [= <-].
Qed.
Lemma publish_tallies run_id : tallies (publish_metadata ex run_id) (fun c assets c' => ct_assets c = 0 -> c' = with_assets assets c).
Proof.
  unfold publish_metadata. destruct (negb _).
  { intros s a [= <-]. cbn. destruct (xe_counts s). cbn. by intros ->. }
  apply untouched_bind; [apply untouched_checkpoint|]. intros _. apply untouched_bind; [destruct (_ && _); [by intros s a _|apply untouched_call]|].
  intros assets. apply untouched_bind; [apply untouched_call|]. intros manifest.
  apply (tallies_bind _ _ (fun c _ c' => c' = with_assets assets c) (fun _ c a c' => a = assets /\ untouched c a c')); [by intros s a _| |].
  - intros _. unfold publish_if.
    assert (forall A (p : option A) call ev T (k : M St T) R, tallies k R ->
              tallies (_ ← match p with Some p => publish (call p) ev | None => mret tt end; k) R) as Hp.
    { intros A p call ev T k R Hk. apply untouched_bind; [destruct p; [apply untouched_publish|by intros s a _]|]. by intros _. }
    apply Hp, Hp, untouched_bind; [|intros _ s a; by intros [= <-]].
    destruct (ex_catalog_publisher ex) as [send|]; [|by intros s a _]. clear Hp.
    induction assets as [|a assets IH]; [by intros s a _|]. apply untouched_bind; [apply untouched_publish|]. by intros _.
  - intros c a c1 b c2 -> [-> ->] _. done.
Qed.
(** The counts a completed run reports. *)
Definition result_counts (res : PipelineExecutionResult Tm) : counts :=
  let es := pr_endpoints (xr_ingestion res) in
  Counts (Z.of_nat (length es)) (summed er_extracted es) (summed er_affected es)
    (Z.of_nat (length (xr_models res))) (xr_assertions res) (xr_assets res).

(** *** After the lease *)

(** The body once the run owns its pipeline. *)
Definition owned_stages (run_id : string) : M St (PipelineExecutionResult Tm) :=
  ingestion ← ingest ex run_id;
  transformed ← transform ex run_id;
  assets ← publish_metadata ex run_id;
  _ ← succeed ex run_id;
  mret {| xr_run_id := run_id; xr_pipeline_id := ex_pipeline_id ex; xr_ingestion := ingestion; xr_models := tr_models transformed;
          xr_assertions := tr_assertions transformed; xr_assets := Z.of_nat (length assets); xr_skipped := false;
          xr_telemetry := run_telemetry ingestion ++ tr_telemetry transformed |}.
(** How its calls end: with the recorded success, or without any outcome. *)
Definition settled (r : result (PipelineExecutionResult Tm)) (t : list step) : Prop :=
  match r with
  | Ok res => xr_skipped res = false /\ fine t /\
              exists pre, t = pre ++ [XFinish SUCCEEDED (result_counts res) no_failure true] /\ none_of outcome pre
  | Raise _ => none_of outcome t
  end.
Definition proceeds (s : St) (r : result (PipelineExecutionResult Tm)) (t : list step) (s' : St) : Prop :=
  stops t /\ (is_some (xe_heartbeat s) = true -> guarded t) /\ xe_heartbeat s' = xe_heartbeat s /\
  xe_stage s' = stage_after (xe_stage s) t /\ none_of acquired t.
Lemma advances_proceeds s e t s' : advances s false t s' -> proceeds s (Raise e) t s' /\ none_of outcome t.
Proof. intros (A1 & A2 & A3 & A4 & A5 & A6 & A7). by split_and!. Qed.

Lemma succeed_runs run_id : runs (succeed ex run_id) (fun s r t s' =>
  xe_heartbeat s' = xe_heartbeat s /\ xe_stage s' = xe_stage s /\
  (is_ok r = false /\ t = [XVerify false] \/ t = verified s ++ [XFinish SUCCEEDED (xe_counts s) no_failure (is_ok r)])).
Proof.
  unfold succeed. eapply steps_bind; [apply verify_runs| |].
  - intros s e t s' (E1 & E2 & _ & [[? _]|[_ ->]]); [done|]. auto.
  - intros s [] t s1 (E1 & E2 & E3 & [[_ ->]|[? _]]); [|done].
    destruct (perform_runs (unguarded (@finish W (ex_history ex) run_id SUCCEEDED (xe_counts s1) no_failure))
                (XFinish SUCCEEDED (xe_counts s1) no_failure) s1) as (u & Eu & K1 & K2 & _ & ->).
    eexists. split; [exact Eu|]. split_and!; [etrans; [exact K1|done]|etrans; [exact K2|done]|]. right. by rewrite <- E3.
Qed.
Lemma succeed_proceeds s b t s' : forall c, 
  (b = false /\ t = [XVerify false] \/ t = verified s ++ [XFinish SUCCEEDED c no_failure b]) ->
  xe_heartbeat s' = xe_heartbeat s -> xe_stage s' = xe_stage s ->
  stops t /\ (is_some (xe_heartbeat s) = true -> guarded t) /\ xe_stage s' = stage_after (xe_stage s) t /\ none_of acquired t /\
  (b = true -> fine t) /\ (b = false -> none_of outcome t).
Proof.
  intros c H E1 E2. destruct H as [[-> ->]| ->].
  - split_and!; [apply stops_one|intros _; by apply guarded_one|done|by apply none_one|done|intros _; by apply none_one].
  - unfold verified. destruct (is_some (xe_heartbeat s)); cbn [app]; split_and!; try done.
    + apply (stops_app _ [_]); [by apply fine_one|apply stops_one].
    + intros _. by apply guarded_pair.
    + apply (none_app _ [_]); by apply none_one.
    + intros ->. apply (fine_app _ [_]); by apply fine_one.
    + intros ->. apply (none_app _ [_]); by apply none_one.
    + apply stops_one.
    + by apply none_one.
    + intros ->. by apply fine_one.
    + intros ->. by apply none_one.
Qed.

(** [k] ends well from counts in [C]. *)
Definition ends_from (C : counts -> Prop) (k : M St (PipelineExecutionResult Tm)) : Prop :=
  runs k (fun s r t s' => proceeds s r t s' /\ (C (xe_counts s) -> settled r t)).
Lemma advance_bind {A} (m : M St A) (k : A -> M St (PipelineExecutionResult Tm)) R (C : counts -> Prop) (D : A -> counts -> Prop) :
  runs m (follows advances) -> tallies m R -> (forall a, ends_from (D a) (k a)) -> (forall c a c', C c -> R c a c' -> D a c') ->
  ends_from C (m ≫= k).
Proof.
  intros Hm Hr Hk HD. apply (steps_bind _ _ _ (fun s r t s' => advances s (is_ok r) t s' /\ forall a, r = Ok a -> R (xe_counts s) a (xe_counts s'))).
  - intros s. destruct (Hm s) as (t & Et & Ht). exists t. split_and!; [done..|]. apply Hr.
  - intros s e t s' [Ha _]. destruct (advances_proceeds s e t s' Ha). by split.
  - intros s a t s1 [(A1 & A2 & A3 & A4 & A5 & A6 & A7) Ht]. destruct (Hk a s1) as (u & Eu & (B1 & B2 & B3 & B4 & B5) & Hs).
    exists u. split; [done|]. specialize (A2 eq_refl). rewrite A4 in *. rewrite A5 in *. split.
    + split_and!; [by apply stops_app|intros ?; apply guarded_app; auto|done|unfold stage_after; by rewrite foldl_app|by apply none_app].
    + intros Hc. specialize (Hs (HD _ _ _ Hc (Ht a eq_refl))). destruct (k a s1).1 as [res|e]; [|by apply none_app].
      destruct Hs as (H1 & H2 & pre & -> & H3). split_and!; [done|by apply fine_app|].
      exists (t ++ pre). split; [by rewrite app_assoc|by apply none_app].
Qed.
Lemma owned_stages_runs run_id : ends_from (eq no_counts) (owned_stages run_id).
Proof.
  unfold owned_stages. eapply (advance_bind _ _ _ _ (fun r c => c = with_ingested r no_counts));
    [apply ingest_advances|apply ingest_tallies| |by intros c a c' <- ->]. intros r.
  eapply (advance_bind _ _ _ _ (fun tr c => c = with_transformed tr (with_ingested r no_counts)));
    [apply transform_advances|apply transform_tallies| |intros c a c' -> ->; done]. intros tr.
  eapply (advance_bind _ _ _ _ (fun assets c => c = with_assets assets (with_transformed tr (with_ingested r no_counts))));
    [apply publish_metadata_advances|apply publish_tallies| |intros c a c' -> ->; done]. intros assets.
  eapply steps_bind; [apply succeed_runs| |].
  - intros s e t s' (E1 & E2 & H). destruct (succeed_proceeds s false t s' (xe_counts s) H E1 E2)
      as (H1 & H2 & H3 & H4 & _ & H5). split; [by split_and!|]. intros _. by apply H5.
  - intros s [] t s1 (E1 & E2 & H). exists []. rewrite !app_nil_r. split; [done|].
    destruct (succeed_proceeds s true t s1 (xe_counts s) H E1 E2) as (H1 & H2 & H3 & H4 & H5 & _). split; [by split_and!|].
    destruct H as [[? _]| ->]; [done|]. intros Hc. split_and!; [done|by apply H5|]. exists (verified s). rewrite Hc. split; [done|].
    unfold verified. destruct (is_some _); [by apply none_one|by apply Forall_nil].
Qed.

(** *** The lease *)

Definition leased (s : St) (r : result bool) (t : list step) (s' : St) : Prop :=
  xe_stage s' = stage_after (xe_stage s) t /\ xe_counts s' = xe_counts s /\ stops t /\ guarded t /\
  is_some (xe_heartbeat s') = existsb acquired t /\
  match r with
  | Ok true => fine t /\ none_of outcome t /\ (ex_leases ex <> None -> is_some (xe_heartbeat s') = true)
  | Ok false => t = [XAcquire (Ok None); XFinish SKIPPED no_counts no_failure true]
  | Raise _ => none_of outcome t
  end.
Lemma calls_two ev ev' : failed ev = false -> finalizer ev = false -> finalizer ev' = false -> stops [ev; ev'] /\ guarded [ev; ev'].
Proof.
  intros. split; [apply (stops_app _ [_]); [by apply fine_one|apply stops_one]|apply (guarded_app _ _ [_]); by apply guarded_one].
Qed.
Lemma take_lease_runs run_id : runs (take_lease ex run_id) (fun s r t s' => xe_heartbeat s = None -> leased s r t s').
Proof.
  intros s. unfold take_lease. destruct (ex_leases ex) as [store|] eqn:El.
  2:{ exists []. rewrite app_nil_r. split; [done|]. intros Eh. unfold leased; cbn. rewrite Eh.
      split_and!; try done; [apply fine_stops, fine_nil|apply guarded_nil|apply fine_nil|by apply Forall_nil]. }
  unfold finish_run, hold, perform_ok, perform, unguarded, mbind, M_bind. cbn.
  destruct (acquire _ _ _) as [[[lease|]|e] w]; cbn.
  - destruct (reconcile_interrupted _ _ _) as [[[]|e] w']; cbn.
    + exists [XAcquire (Ok (Some lease)); XReconcile true]. rewrite <- app_assoc. split; [done|]. intros _. unfold leased; cbn.
      destruct (calls_two (XAcquire (Ok (Some lease))) (XReconcile true)) as [H1 H2]; [done..|]. split_and!; try done.
      * by apply (fine_app _ [_]); apply fine_one.
      * by apply (none_app _ [_]); apply none_one.
    + exists [XAcquire (Ok (Some lease)); XReconcile false]. rewrite <- app_assoc. split; [done|]. intros _. unfold leased; cbn.
      destruct (calls_two (XAcquire (Ok (Some lease))) (XReconcile false)) as [H1 H2]; [done..|]. split_and!; try done.
      by apply (none_app _ [_]); apply none_one.
  - destruct (finish _ _ _ _ _) as [[[]|e] w']; cbn.
    + exists [XAcquire (Ok None); XFinish SKIPPED no_counts no_failure true]. rewrite <- app_assoc. split; [done|]. intros Eh. unfold leased; cbn.
      rewrite Eh. destruct (calls_two (XAcquire (Ok None)) (XFinish SKIPPED no_counts no_failure true)) as [H1 H2]; [done..|]. by split_and!.
    + exists [XAcquire (Ok None); XFinish SKIPPED no_counts no_failure false]. rewrite <- app_assoc. split; [done|]. intros Eh. unfold leased; cbn.
      rewrite Eh. destruct (calls_two (XAcquire (Ok None)) (XFinish SKIPPED no_counts no_failure false)) as [H1 H2]; [done..|].
      split_and!; try done. by apply (none_app _ [_]); apply none_one.
  - exists [XAcquire (Raise e)]. split; [done|]. intros Eh. unfold leased; cbn. rewrite Eh.
    split_and!; try done; [apply stops_one|by apply guarded_one|by apply none_one].
Qed.

(** *** The whole execution *)

Definition ended (r : result (PipelineExecutionResult Tm)) (t : list step) : Prop :=
  match r with
  | Ok res =>
      if xr_skipped res then t = [XAcquire (Ok None); XFinish SKIPPED no_counts no_failure true]
      else fine t /\ exists pre, t = pre ++ [XFinish SUCCEEDED (result_counts res) no_failure true] /\ none_of outcome pre
  | Raise _ => none_of outcome t
  end.
Definition body_ends (s : St) (r : result (PipelineExecutionResult Tm)) (t : list step) (s' : St) : Prop :=
  xe_stage s' = stage_after (xe_stage s) t /\ stops t /\ (ex_leases ex <> None -> guarded t) /\
  is_some (xe_heartbeat s') = existsb acquired t /\ ended r t.
Lemma run_stages_runs run_id : runs (run_stages ex run_id) (fun s r t s' =>
  xe_heartbeat s = None -> xe_counts s = no_counts -> body_ends s r t s').
Proof.
  change (run_stages ex run_id) with (take_lease ex run_id ≫= fun owner : bool => if negb owner then mret (skipped_result ex run_id) else owned_stages run_id).
  eapply steps_bind; [apply take_lease_runs| |].
  - intros s e t s' H Eh _. destruct (H Eh) as (H1 & _ & H2 & H3 & H4 & H5). unfold body_ends. by split_and!.
  - intros s owner t s1 H. destruct owner; cbn [negb].
    + destruct (owned_stages_runs run_id s1) as (u & Eu & (B1 & B2 & B3 & B4 & B5) & Hs). exists u. split; [exact Eu|].
      intros Eh Ec. destruct (H Eh) as (H1 & E2 & H2 & H3 & H4 & H5 & H6 & H7). rewrite E2 in Hs. specialize (Hs (eq_sym Ec)).
      unfold body_ends. rewrite B4, B3, H1, existsb_app, (none_existsb _ _ B5), orb_false_r. split_and!.
      * unfold stage_after. by rewrite foldl_app.
      * by apply stops_app.
      * intros Hl. apply guarded_app; auto.
      * done.
      * destruct (owned_stages run_id s1).1 as [res|e]; [|by apply none_app].
        destruct Hs as (E & H8 & pre & -> & H9). cbn. rewrite E. split; [by apply fine_app|]. exists (t ++ pre).
        split; [by rewrite app_assoc|by apply none_app].
    + exists []. rewrite !app_nil_r. split; [done|]. intros Eh _. destruct (H Eh) as (H1 & _ & H2 & H3 & H4 & ->).
      unfold body_ends. by split_and!.
Qed.

(** The release that closes a run that had the lease. *)
Definition released (t : list step) : list step := if existsb acquired t then [XRelease] else [].
(** The outcome of an execution and its calls. *)
Definition one_outcome (run_id : string) (r : result (PipelineExecutionResult Tm)) (t : list step) : Prop :=
  match r with
  | Ok res =>
      if xr_skipped res then t = [XStart true; XAcquire (Ok None); XFinish SKIPPED no_counts no_failure true]
      else exists pre, t = XStart true :: pre ++ XFinish SUCCEEDED (result_counts res) no_failure true :: released pre /\
                       fine pre /\ none_of outcome pre
  | Raise e =>
      t = [XStart false] \/
      exists pre c ok, t = XStart true :: pre ++ XFinish FAILED c (failure_of ex e (stage_after (first_stage ex) pre) run_id) ok :: released pre /\
                       stops pre /\ none_of outcome pre
  end.

Lemma release_runs (s : St) : (release_heartbeat s).1 = Ok tt /\
  xe_trace (release_heartbeat s).2 = xe_trace s ++ (if is_some (xe_heartbeat s) then [XRelease] else []).
Proof.
  unfold release_heartbeat, guarding, mbind, M_bind. destruct (xe_heartbeat s) as [h|]; [|by rewrite app_nil_r].
  unfold perform, exit_guard. destruct (release _ _) as [r w]. done.
Qed.
Lemma record_failure_runs {A} run_id e (s : St) : exists ok s', @record_failure W Tm Asset Manifest ex A run_id e s = (Raise e, s') /\
  xe_trace s' = xe_trace s ++ [XFinish FAILED (xe_counts s) (failure_of ex e (xe_stage s) run_id) ok] /\ xe_heartbeat s' = xe_heartbeat s.
Proof.
  unfold record_failure, try_except, finish_run, mbind, M_bind, perform_ok, perform, unguarded.
  destruct (finish _ _ _ _ _) as [[[]|x] w]; by eexists _, _.
Qed.

(** C32: every execution has one outcome. Whatever the history, the lease store
    and the collaborators answer, an execution that is recorded as started ends
    in one of three ways: skipped, with nothing done but the record of it, when
    another run holds the lease; successful, with every call answered and the
    success recorded once, with the counts it returns; or failed, when the first
    call that fails ends the stages and the failure is recorded once, with the
    stage it happened in and its sanitized summary. Nothing else is recorded, the
    lease is released last and exactly if it was acquired, and under a lease the
    transforms, every publication and the success directly follow a verification
    that succeeded. *)
Theorem execution_outcome run_id retry w :
  let '(r, s) := execute_calls ex run_id retry (Execution (new_guard false, w) (first_stage ex) no_counts None []) in
  one_outcome run_id r (xe_trace s) /\ (ex_leases ex <> None -> guarded (xe_trace s)).
Proof.
  unfold execute_calls, perform_ok, perform, mbind, M_bind. cbn.
  destruct (unguarded _ _) as [[[]|e] w1]; cbn; [|split; [by left|intros _; by apply guarded_one]].
  set (s0 := Execution _ _ _ _ _). destruct (run_stages_runs run_id s0) as (t & Et & Hb). specialize (Hb eq_refl eq_refl).
  destruct Hb as (H1 & H2 & H3 & H4 & H5). cbn in Et, H1. unfold always, try_except.
  destruct (run_stages ex run_id s0) as [[res|e] s1]; cbn in *.
  - destruct (release_runs s1) as [R1 R2]. destruct (release_heartbeat s1) as [[[]|x] s2]; [|done]. cbn in *. rewrite R2, Et, H4. split.
    + destruct (xr_skipped res) eqn:Es; [by subst t|]. destruct H5 as [Hf (pre & -> & Hp)]. exists pre. apply Forall_app in Hf as [Hf _].
      split_and!; [|done|done]. unfold released. rewrite existsb_app. cbn. rewrite orb_false_r. by rewrite <- app_assoc.
    + intros Hl. apply (guarded_app _ _ [_]); [by apply guarded_one|].
      apply guarded_app; [by apply H3|]. destruct (existsb _ _); [by apply guarded_one|apply guarded_nil].
  - destruct (@record_failure_runs (PipelineExecutionResult Tm) run_id e s1) as (ok & s2 & -> & F2 & F3).
    destruct (release_runs s2) as [R1 R2]. destruct (release_heartbeat s2) as [[[]|x] s3]; [|done]. cbn in *.
    rewrite R2, F2, F3, Et, H1, H4. split.
    + right. exists t, (xe_counts s1), ok. split_and!; [|done|done]. unfold released. by rewrite <- !app_assoc.
    + intros Hl. rewrite <- app_assoc. apply (guarded_app _ _ [_]); [by apply guarded_one|].
      apply guarded_app; [by apply H3|]. apply (guarded_app _ _ [_]); [by apply guarded_one|].
      destruct (existsb _ _); [by apply guarded_one|apply guarded_nil].
Qed.
End Spec.
