(* ===== verification/Superseded.v ===== *)
(** * A superseded owner stops

    What an execution and the runner of its endpoints still do once a later
    acquisition has overtaken their lease ([executor.py], [runtime.py] and the
    guard of [state/lease.py] together): every step up to the next verification,
    and nothing that finalizes. *)

From S2P Require Import Prelude Regex PyStr StatePort LedgerSpec LeaseGuard RunHistory Failure Ingestion IngestionSpec Traces Executor ExecutorSpec.

Local Open Scope string_scope.
Local Open Scope Z_scope.
Local Open Scope list_scope.

(** What touches the destination or its source as the owner: the claim of the
    target, the extraction, a write, a commit of the cursor. *)
Definition owned_call (ev : event) : bool :=
  match ev with
  | EvClaim _ | EvExtract _ | EvWrite _ _ | EvCommit _ _ _ => true
  | EvCursor _ | EvVerify _ => false
  end.

Section Superseded.
Context {W Tm : Type} (au : authority) (issued : FencingToken -> Prop) (inv : W -> Prop) (ledger_of : W -> ledger).
Context (h : LeaseHeartbeat W) {LL : LeaseLaws au issued inv ledger_of (hb_store h)}.

(** A world whose invariant holds and in which the lease is lost or superseded. *)
Definition overtaken_at (p : guard * W) : Prop := inv p.2 /\ lost_or_superseded ledger_of (hb_lease h) p.

(** A collaborator keeps the invariant of the lease store, takes the ledger only
    forward and never clears a guard that was lost. *)
Definition onward {A} (m : M (guard * W) A) : Prop := forall p, inv p.2 ->
  inv (m p).2.2 /\ ledger_le au (ledger_of p.2) (ledger_of (m p).2.2) /\ (gd_lost p.1 = true -> gd_lost (m p).2.1 = true).
(** It does not bring an overtaken lease back. *)
Definition leaves_overtaken {A} (m : M (guard * W) A) : Prop := forall p, overtaken_at p -> overtaken_at (m p).2.
Lemma onward_leaves {A} (m : M (guard * W) A) : onward m -> leaves_overtaken m.
Proof.
  intros H p [Hi Hl]. destruct (H p Hi) as (Hi' & Hle & Hg). split; [done|].
  destruct Hl as [Hl|Hs]; [left; auto|right; by eapply superseded_le].
Qed.

Lemma overtaken_verify p : overtaken_at p ->
  exists m p', ow_verify (ownership_of h) p = (Raise (Exn LeaseLostError m []), p') /\ overtaken_at p'.
Proof.
  intros [Hi Hl]. destruct (verify_lost (LS := hb_store h) au issued inv ledger_of (hb_lease h) p Hi Hl) as (m & p' & E & Hg & Hi' & _).
  exists m, p'. split; [exact E|]. split; [done|by left].
Qed.

(** ** In the runner *)

Section Runner.
Context {WS : WatermarkStore (guard * W)} (pn : PipelineRunner (guard * W) Tm).
Context (Hcursor : forall s e, leaves_overtaken (get_cursor s e)).
Abbreviation owner := (Some (ownership_of h)).

(** From an overtaken world: calls that the owner alone may make are not made. *)
Definition inert {A} (m : M ((guard * W) * list event) A) : Prop := forall s, overtaken_at s.1 ->
  exists t, (m s).2.2 = s.2 ++ t /\ Forall (fun ev => owned_call ev = false) t /\ overtaken_at (m s).2.1.
(** And nothing is answered. *)
Definition refused {A} (m : M ((guard * W) * list event) A) : Prop := inert m /\ forall s, overtaken_at s.1 -> is_ok (m s).1 = false.

Lemma refused_verify {A} (k : M ((guard * W) * list event) A) : refused (_ ← verify_ownership owner; k).
Proof.
  assert (forall s, overtaken_at s.1 -> exists e w', (_ ← verify_ownership owner; k) s = (Raise e, (w', s.2 ++ [EvVerify false])) /\ overtaken_at w') as H.
  { intros s Hs. destruct (overtaken_verify s.1 Hs) as (m & w' & E & Hw'). exists (Exn LeaseLostError m []), w'. split; [|done].
    unfold verify_ownership, call, mbind, M_bind. by rewrite E. }
  split; intros s Hs; destruct (H s Hs) as (e & w' & -> & Hw'); [|done]. exists [EvVerify false]. split; [done|]. split; [by repeat constructor|done].
Qed.
Lemma refused_bind {A B} (m : M ((guard * W) * list event) A) (k : A -> M ((guard * W) * list event) B) :
  inert m -> (forall a, refused (k a)) -> refused (m ≫= k).
Proof.
  intros Hm Hk. assert (forall s, overtaken_at s.1 -> is_ok ((m ≫= k) s).1 = false /\
    exists t, ((m ≫= k) s).2.2 = s.2 ++ t /\ Forall (fun ev => owned_call ev = false) t /\ overtaken_at ((m ≫= k) s).2.1) as H.
  { intros s Hs. destruct (Hm s Hs) as (t & Et & Ht & Hs'). unfold mbind, M_bind. destruct (m s) as [[a|e] s1]; cbn in *.
    - destruct (Hk a) as [H1 H2]. destruct (H1 s1 Hs') as (u & Eu & Hu & Hs''). split; [by apply H2|].
      exists (t ++ u). split; [by rewrite Eu, Et, app_assoc|]. split; [by apply Forall_app|done].
    - split; [done|]. by exists t. }
  split; intros s Hs; by apply H.
Qed.
Lemma inert_quiet {A} (r : result A) : inert (lift r).
Proof. intros s Hs. exists []. rewrite app_nil_r. split; [done|]. split; [by apply Forall_nil|done]. Qed.

Lemma run_endpoint_refused e : refused (run_endpoint pn owner e).
Proof.
  unfold run_endpoint. apply refused_bind; [apply inert_quiet|]. intros relation.
  apply refused_bind; [|intros stored; apply refused_verify].
  destruct (truthy _); [|apply (inert_quiet (Ok None))]. intros s Hs. unfold call.
  pose proof (Hcursor (pn_source pn) (en_name e) s.1 Hs) as H. destruct (get_cursor _ _ s.1) as [r w]; cbn in *.
  exists [EvCursor r]. split; [done|]. split; [by repeat constructor|done].
Qed.
Lemma write_batch_refused target rs : refused (write_batch pn owner target rs).
Proof. apply refused_verify. Qed.
Lemma refused_raise {A} e : refused (lift (Raise e : result A)).
Proof. split; [apply inert_quiet|done]. Qed.
Lemma refused_first {A B} (m : M ((guard * W) * list event) A) (k : A -> M ((guard * W) * list event) B) : refused m -> refused (m ≫= k).
Proof.
  intros [H1 H2]. split; intros s Hs; specialize (H1 s Hs); specialize (H2 s Hs); unfold mbind, M_bind;
    by destruct (m s) as [[a|e] s1].
Qed.
Lemma write_observed_refused target st : refused (write_observed pn owner target st).
Proof.
  unfold write_observed. destruct (wp_supports_batched_writes _); [|destruct (wp_accepts_streaming_input _)].
  - apply refused_first. unfold write_batched. destruct (batches _ _ _ _) as [[|b full] rest].
    + apply refused_bind; [apply (inert_quiet (Ok _))|]. intros [n t]. destruct (sm_error st); [apply refused_raise|].
      rewrite andb_false_r. apply refused_first, write_batch_refused.
    + apply refused_first. cbn [write_all]. apply refused_first, write_batch_refused.
  - apply refused_verify.
  - apply refused_bind; [destruct (sm_error st); [apply inert_quiet|apply (inert_quiet (Ok tt))]|]. intros _. apply refused_verify.
Qed.
Lemma commit_cursor_refused e stored o : inert (commit_cursor pn owner e stored o) /\
  forall s c, overtaken_at s.1 -> (commit_cursor pn owner e stored o s).1 = Ok c -> c = None.
Proof.
  unfold commit_cursor. assert (inert (mret (None : option string) : M ((guard * W) * list event) _)) as H by apply (inert_quiet (Ok None)).
  destruct (ob_maximum_cursor o) as [c|]; [|split; [done|by intros s c _ [= <-]]].
  destruct (ob_extracted o =? 0); [split; [done|by intros s c' _ [= <-]]|].
  match goal with |- context [verify_ownership owner ≫= ?k] => pose proof (refused_verify (k tt)) as [H1 H2] end.
  split; [exact H1|]. intros s c' Hs E. specialize (H2 s Hs). unfold mbind, M_bind in *. by rewrite E in H2.
Qed.

(** The whole ingestion, as the executor calls it. *)
Lemma run_endpoints_inert es completed : inert (run_endpoints pn owner es completed).
Proof.
  revert completed. induction es as [|e es IH]; intros completed; [apply (inert_quiet (Ok _))|]. cbn [run_endpoints].
  destruct (negb _); [apply IH|]. intros s Hs. destruct (run_endpoint_refused e) as [H1 H2]. specialize (H1 s Hs). specialize (H2 s Hs).
  destruct (run_endpoint pn owner e s) as [[res|x] s1]; [done|]. exact H1.
Qed.
Lemma pipeline_ingestion_leaves run_id : leaves_overtaken (pipeline_ingestion pn run_id owner).
Proof.
  intros p Hp. unfold pipeline_ingestion, run_pipeline, mbind, M_bind. cbn [mret M_ret].
  destruct (run_endpoints_inert (pn_endpoints pn) [] (p, []) Hp) as (t & _ & _ & H).
  destruct (run_endpoints pn owner (pn_endpoints pn) [] (p, [])) as [[[completed [x|]]|x] s1]; exact H.
Qed.
End Runner.

(** ** In the executor *)

Section Executor.
Context {Asset Manifest : Type} (ex : PipelineExecutor W Tm Asset Manifest).
Abbreviation St := (execution W).

(** An execution that holds [h] and was overtaken. *)
Definition overtaken (s : St) : Prop := xe_heartbeat s = Some h /\ overtaken_at (xe_world s).
(** From there no build, publication or success follows, and the lease stays lost. *)
Definition finalizes_nothing {A} (m : M St A) : Prop := forall s, overtaken s ->
  exists t, xe_trace (m s).2 = xe_trace s ++ t /\ none_of finalizer t /\ overtaken (m s).2.
Definition fails {A} (m : M St A) : Prop := forall s, overtaken s -> is_ok (m s).1 = false.

Lemma nothing_then {A B} (m : M St A) (k : A -> M St B) :
  finalizes_nothing m -> (forall a, finalizes_nothing (k a)) -> finalizes_nothing (m ≫= k).
Proof.
  intros Hm Hk s Hs. destruct (Hm s Hs) as (t & Et & Ht & Hs'). unfold mbind, M_bind. destruct (m s) as [[a|e] s1]; cbn in *.
  - destruct (Hk a s1 Hs') as (u & Eu & Hu & Hs''). exists (t ++ u). split; [by rewrite Eu, Et, app_assoc|]. split; [by apply none_app|done].
  - by exists t.
Qed.
Lemma fails_then {A B} (m : M St A) (k : A -> M St B) : finalizes_nothing m -> (forall a, fails (k a)) -> fails (m ≫= k).
Proof.
  intros Hm Hk s Hs. destruct (Hm s Hs) as (t & _ & _ & Hs'). unfold mbind, M_bind. destruct (m s) as [[a|e] s1]; [|done]. by apply Hk.
Qed.
Lemma fails_first {A B} (m : M St A) (k : A -> M St B) : fails m -> fails (m ≫= k).
Proof. intros Hm s Hs. specialize (Hm s Hs). unfold mbind, M_bind. by destruct (m s) as [[a|e] s1]. Qed.

Lemma nothing_quiet {A} (m : M St A) :
  (forall s, xe_trace (m s).2 = xe_trace s /\ xe_heartbeat (m s).2 = xe_heartbeat s /\ xe_world (m s).2 = xe_world s) -> finalizes_nothing m.
Proof. intros H s [Hh Hw]. destruct (H s) as (E1 & E2 & E3). exists []. rewrite app_nil_r. split; [done|]. split; [by apply Forall_nil|]. unfold overtaken. by rewrite E2, E3. Qed.
Lemma nothing_call {A} (m : M (guard * W) A) ev :
  leaves_overtaken m -> (forall ok, finalizer (ev ok) = false) -> finalizes_nothing (perform_ok m ev).
Proof.
  intros Hm Hev s [Hh Hw]. specialize (Hm (xe_world s) Hw). unfold perform_ok, perform. destruct (m (xe_world s)) as [r w].
  exists [ev (is_ok r)]. split; [done|]. split; [by apply none_one|by split].
Qed.

(** Whatever was to follow a verification does not. *)
Lemma verification_ends {A} (k : M St A) : finalizes_nothing (_ ← verify_heartbeat; k) /\ fails (_ ← verify_heartbeat; k).
Proof.
  assert (forall s, overtaken s -> exists e s', (_ ← verify_heartbeat; k) s = (Raise e, s') /\
            xe_trace s' = xe_trace s ++ [XVerify false] /\ overtaken s') as H.
  { intros s [Hh Hw]. destruct (overtaken_verify (xe_world s) Hw) as (m & w' & E & Hw').
    exists (Exn LeaseLostError m []), (Execution w' (xe_stage s) (xe_counts s) (Some h) (xe_trace s ++ [XVerify false])).
    split; [|split; [done|by split]]. unfold verify_heartbeat, guarding, perform_ok, perform, mbind, M_bind. rewrite Hh, E. by rewrite Hh. }
  split; intros s Hs; destruct (H s Hs) as (e & s' & -> & E & Hs'); [|done]. exists [XVerify false]. split; [done|]. split; [by apply none_one|done].
Qed.
Lemma publish_nothing m ev : finalizes_nothing (publish m ev).
Proof. apply verification_ends. Qed.
Lemma publish_assets_nothing (send : Asset -> M (guard * W) unit) (assets : list Asset) : finalizes_nothing (publish_assets send assets : M St unit).
Proof.
  induction assets as [|a assets IH]; cbn; [by apply nothing_quiet|]. apply nothing_then; [apply publish_nothing|]. by intros _.
Qed.
Lemma succeed_nothing run_id : finalizes_nothing (succeed ex run_id) /\ fails (succeed ex run_id).
Proof. apply verification_ends. Qed.

(** The collaborators of an execution that it may still call. *)
Record collaborates (run_id : string) : Prop := {
  co_ingestion run : ex_ingestion ex = Some run -> leaves_overtaken (run run_id (Some (ownership_of h)));
  co_checkpoint stage c : leaves_overtaken (unguarded (@checkpoint W (ex_history ex) run_id stage c));
  co_compile : leaves_overtaken (ex_compile ex);
  co_manifest assets : leaves_overtaken (ex_manifest ex assets);
}.
Context (run_id : string) (Hco : collaborates run_id).

Lemma checkpoint_nothing stage : finalizes_nothing (checkpoint_stage ex run_id stage).
Proof.
  apply nothing_then; [by apply nothing_quiet|]. intros _. apply nothing_then; [by apply nothing_quiet|]. intros c.
  apply nothing_call; [apply (co_checkpoint _ Hco)|done].
Qed.
Lemma ingest_nothing : finalizes_nothing (ingest ex run_id).
Proof.
  unfold ingest. apply nothing_then; [|intros r; apply nothing_then; [by apply nothing_quiet|intros _; by apply nothing_quiet]].
  destruct (ex_repair_window ex); [by apply nothing_quiet|]. destruct (ex_ingestion ex) as [run|] eqn:Er; [|by apply nothing_quiet].
  intros s [Hh Hw]. unfold guarding, mbind, M_bind. rewrite Hh. cbn [fmap option_fmap option_map].
  apply (nothing_call (run run_id (Some (ownership_of h))) XIngest); [by apply (co_ingestion _ Hco)|done|by split].
Qed.
Lemma transform_nothing : finalizes_nothing (transform ex run_id).
Proof.
  unfold transform. destruct (negb _); [by apply nothing_quiet|]. apply nothing_then; [apply checkpoint_nothing|]. intros _.
  destruct (ex_transform_runner ex); [apply verification_ends|by apply nothing_quiet].
Qed.
Lemma publish_metadata_nothing : finalizes_nothing (publish_metadata ex run_id).
Proof.
  unfold publish_metadata. destruct (negb _); [by apply nothing_quiet|]. apply nothing_then; [apply checkpoint_nothing|]. intros _.
  apply nothing_then; [destruct (_ && _); [by apply nothing_quiet|apply nothing_call; [apply (co_compile _ Hco)|done]]|]. intros assets.
  apply nothing_then; [apply nothing_call; [apply (co_manifest _ Hco)|done]|]. intros manifest.
  apply nothing_then; [by apply nothing_quiet|]. intros _. unfold publish_if.
  apply nothing_then; [destruct (ex_metadata_store ex); [apply publish_nothing|by apply nothing_quiet]|]. intros _.
  apply nothing_then; [destruct (ex_registry_output ex); [apply publish_nothing|by apply nothing_quiet]|]. intros _.
  apply nothing_then; [destruct (ex_catalog_publisher ex); [apply publish_assets_nothing|by apply nothing_quiet]|]. intros _. by apply nothing_quiet.
Qed.

(** The body of an execution, from the ingestion, the transforms or the
    publication on. *)
Lemma owned_stages_nothing : finalizes_nothing (owned_stages ex run_id) /\ fails (owned_stages ex run_id).
Proof.
  split; unfold owned_stages.
  - apply nothing_then; [apply ingest_nothing|]. intros r. apply nothing_then; [apply transform_nothing|]. intros tr.
    apply nothing_then; [apply publish_metadata_nothing|]. intros assets. apply nothing_then; [apply succeed_nothing|]. intros _. by apply nothing_quiet.
  - apply fails_then; [apply ingest_nothing|]. intros r. apply fails_then; [apply transform_nothing|]. intros tr.
    apply fails_then; [apply publish_metadata_nothing|]. intros assets. apply fails_first, succeed_nothing.
Qed.
End Executor.

(** C33: a superseded owner finalizes nothing. Once a later acquisition has
    overtaken the lease of an execution, whichever part of its body comes next -
    the whole body, the transforms, the publication of the metadata or of the
    assets, the record of the success - builds nothing, publishes nothing, records
    no success and leaves the lease lost; and the body as a whole, the transforms
    followed by the rest, the publication followed by the success and the success
    alone all end in an error. The runner under that lease claims no target,
    extracts nothing, writes nothing and commits no cursor: an endpoint, a batch
    and the write of an extraction end in an error, and so it stays. The
    collaborators are assumed only not to bring the lost lease back. *)
Theorem superseded_owner_stops {Asset Manifest : Type} (ex : PipelineExecutor W Tm Asset Manifest) (run_id : string)
    (Hco : collaborates ex run_id) :
  (finalizes_nothing (owned_stages ex run_id) /\ fails (owned_stages ex run_id)) /\
  (finalizes_nothing (transform ex run_id) /\
   fails (_ ← transform ex run_id; _ ← publish_metadata ex run_id; succeed ex run_id)) /\
  (finalizes_nothing (publish_metadata ex run_id) /\ fails (_ ← publish_metadata ex run_id; succeed ex run_id)) /\
  (forall (send : Asset -> M (guard * W) unit) (assets : list Asset), finalizes_nothing (publish_assets send assets)) /\
  (finalizes_nothing (succeed ex run_id) /\ fails (succeed ex run_id)) /\
  forall (WS : WatermarkStore (guard * W)) (pn : PipelineRunner (guard * W) Tm),
    (forall x e, leaves_overtaken (get_cursor x e)) ->
    (forall e, refused (run_endpoint pn (Some (ownership_of h)) e)) /\
    (forall target rs, refused (write_batch pn (Some (ownership_of h)) target rs)) /\
    (forall target st, refused (write_observed pn (Some (ownership_of h)) target st)) /\
    (forall e stored o, inert (commit_cursor pn (Some (ownership_of h)) e stored o)).
Proof.
  pose proof (transform_nothing ex run_id Hco) as T1. pose proof (publish_metadata_nothing ex run_id Hco) as P1.
  pose proof (succeed_nothing ex run_id) as [S1 S2].
  split_and!; try done; try (by apply owned_stages_nothing).
  - apply fails_then; [done|]. intros _. by apply fails_then.
  - by apply fails_then.
  - intros send assets. apply publish_assets_nothing.
  - intros WS pn Hcur. split_and!; intros.
    + by apply run_endpoint_refused.
    + apply write_batch_refused.
    + apply write_observed_refused.
    + apply commit_cursor_refused.
Qed.
End Superseded.
