(* ===== verification/ExecutorInstances.v ===== *)
(** * Executions on PostgreSQL state

    The executor, the runner and the PostgreSQL stores put together: executions
    evaluated, and the composed property of a superseded owner at work. *)

From S2P Require Import Prelude Transactions Regex PyStr StatePort LedgerSpec StatePg StatePgSpec LeaseGuard StateInstances RunHistory Failure Ingestion Traces IngestionSpec Executor ExecutorSpec Superseded.

Local Open Scope string_scope.
Local Open Scope Z_scope.
Local Open Scope list_scope.

(** The leases and watermarks of a database, and its run history. *)
Abbreviation site := (world state_db * world history_db)%type.
Definition on_state {A} (m : M (world state_db) A) : M site A := fun w => let '(r, x) := m w.1 in (r, (x, w.2)).
Definition on_history {A} (m : M (world history_db) A) : M site A := fun w => let '(r, x) := m w.2 in (r, (w.1, x)).
Definition site_leases : LeaseStore site := {|
  lease_seconds := 30;
  acquire p r := on_state (pg_acquire thirty_seconds p r);
  heartbeat h := on_state (pg_heartbeat thirty_seconds h);
  release h := on_state (pg_release h);
|}.
Definition site_history : RunHistoryStore site := {|
  start_run r s p := on_history (@start_run _ postgresql_history r s p);
  restart_retryable r s p := on_history (@restart_retryable _ postgresql_history r s p);
  checkpoint r st c := on_history (@checkpoint _ postgresql_history r st c);
  finish r st c f := on_history (@finish _ postgresql_history r st c f);
  reconcile_interrupted p r := on_history (@reconcile_interrupted _ postgresql_history p r);
  recent n p := on_history (@recent _ postgresql_history n p);
|}.
#[local] Instance guarded_watermarks : WatermarkStore (guard * site) := {|
  get_cursor s e := unguarded (on_state (pg_get_cursor s e));
  set_cursor s e c := unguarded (on_state (pg_set_cursor s e c));
  compare_and_set s e x c f := unguarded (on_state (pg_compare_and_set s e x c f));
|}.

(** An exception as an object: its class, where it matters here. *)
Definition describe_error (e : exn) : objects * nat :=
  ({[0%nat := {| eo_class := if bool_decide (exn_cls e = LeaseLostError) then "LeaseLostError" else "Exception"; eo_text := exn_msg e;
                 eo_response_status_code := None; eo_response_http_status := None; eo_status_code := None; eo_status := None;
                 eo_cause := None; eo_context := None |}]}, 0%nat).

Definition extract_all (_ : string) (_ : option string) : M (guard * site) stream := fun w => (Ok {| sm_records := three_items; sm_error := None |}, w).
(** A pipeline that loads three records, builds one model in [build] and
    publishes its metadata. *)
Definition sample_executor (build : M (guard * site) (TransformRunResult unit)) : result (PipelineExecutor site unit unit unit) :=
  pn ← runner_with extract_all;
  new_pipeline_executor "nightly" "shop" ["items"] (Some (pipeline_ingestion pn)) site_history None (Some "acme") (Some "raw") None
    None true (Some (fun _ => build)) (fun w => (Ok [tt], w)) (fun _ w => (Ok tt, w)) (Some (fun _ _ _ w => (Ok tt, w))) None
    (Some (fun _ w => (Ok tt, w))) None (Some site_leases) false describe_error.
Definition one_model : TransformRunResult unit := {| tr_models := ["orders"]; tr_assertions := 2; tr_telemetry := [] |}.
Definition builds : M (guard * site) (TransformRunResult unit) := fun w => (Ok one_model, w).
(** A build so slow that another run takes the pipeline meanwhile. *)
Definition builds_slowly : M (guard * site) (TransformRunResult unit) := fun w =>
  (Ok one_model, (w.1, ((acquired_by "b" (World (advance pause (wd_durable w.2.1)) [])).2, w.2.2))).

Definition new_site : site := (World new_state_db [], World (HistoryDb ∅ 0 []) []).
Definition executed (build : M (guard * site) (TransformRunResult unit)) (run_id : string) (w : site) : result (result bool * list step) :=
  ex ← sample_executor build;
  let '(r, s) := execute_calls ex run_id false (Execution (new_guard false, w) INGEST no_counts None []) in
  Ok (match r with Ok res => Ok (xr_skipped res) | Raise e => Raise e end, xe_trace s).
Definition until_build (run_id : string) (token : Z) : list step :=
  [XStart true; XAcquire (Ok (Some (handle_with run_id token))); XReconcile true; XIngest true; XCheckpoint TRANSFORM true; XVerify true; XBuild true;
   XCheckpoint METADATA true; XCompile true; XCompile true].

Example sample_execution :
  executed builds "a" new_site =
  Ok (Ok false, until_build "a" 1 ++ [XVerify true; XMetadata true; XVerify true; XCatalog true; XVerify true;
                                      XFinish SUCCEEDED (Counts 1 3 3 1 2 1) no_failure true; XRelease]).
Proof. by vm_compute. Qed.
(** While another run owns the pipeline, the execution is skipped. *)
Example overlapping_execution :
  executed builds "b" ((acquired_by "a" (World new_state_db [])).2, World (HistoryDb ∅ 0 []) []) =
  Ok (Ok true, [XStart true; XAcquire (Ok None); XFinish SKIPPED no_counts no_failure true]).
Proof. by vm_compute. Qed.
(** An owner overtaken during its build publishes nothing and fails as a retryable
    loss of the lease. *)
Definition lease_failure : failure :=
  Failure (Some METADATA) (Some "lease_failed") (Some "Pipeline ownership or cursor fencing was lost. A fresh run can retry safely.").
Example overtaken_execution :
  executed builds_slowly "a" new_site =
  Ok (Raise ownership_lost, until_build "a" 1 ++ [XVerify false; XFinish FAILED (Counts 1 3 3 1 2 1) lease_failure true; XRelease]).
Proof. by vm_compute. Qed.

(** The same loss, by the theorem: the first owner of [StateInstances] when the
    second one has the lease. *)
Lemma on_state_steps {A} (au : authority) inv ledger_of (m : M (world state_db) A) w R :
  steps_with au inv ledger_of m w.1 R -> steps_with au (fun w : site => inv w.1) (fun w => ledger_of w.1) (on_state m) w R.
Proof. intros H Hi. specialize (H Hi). unfold on_state. by destruct (m w.1) as [[a|e] x]. Qed.
#[local] Instance site_lease_laws :
  LeaseLaws (postgresql_authority thirty_seconds) any_token (fun w : site => pg_ok w.1) (fun w => ledger_at w.1) site_leases.
Proof.
  split; intros; apply on_state_steps.
  - apply (ll_acquire (LS := postgresql_leases thirty_seconds) (postgresql_authority thirty_seconds) any_token pg_ok ledger_at).
  - apply (ll_heartbeat (LS := postgresql_leases thirty_seconds) (postgresql_authority thirty_seconds) any_token pg_ok ledger_at).
  - apply (ll_release (LS := postgresql_leases thirty_seconds) (postgresql_authority thirty_seconds) any_token pg_ok ledger_at).
Qed.

Definition first_heartbeat : LeaseHeartbeat site := {| hb_store := site_leases; hb_lease := handle_with "a" 1 |}.
Abbreviation leaves := (leaves_overtaken (fun w : site => pg_ok w.1) (fun w => ledger_at w.1) first_heartbeat).
Abbreviation forward := (onward (postgresql_authority thirty_seconds) (fun w : site => pg_ok w.1) (fun w => ledger_at w.1)).
Lemma forward_leaves {A} (m : M (guard * site) A) : forward m -> leaves m.
Proof. apply onward_leaves. Qed.
Lemma history_forward {A} (m : M (world history_db) A) : forward (unguarded (on_history m)).
Proof. intros [g w] Hi. unfold unguarded, on_history. cbn. by destruct (m w.2) as [r x]. Qed.
Lemma cursor_forward x e : forward (get_cursor x e).
Proof.
  intros [g w] Hi. cbn. unfold unguarded, on_state. cbn in *.
  pose proof (wl_get (WS := postgresql_watermarks) (postgresql_authority thirty_seconds) any_token pg_ok ledger_at x e w.1 Hi) as H.
  cbn [get_cursor postgresql_watermarks] in H. destruct (pg_get_cursor x e w.1) as [[c|err] d]; destruct H as [Hd H]; cbn; [|done].
  split_and!; [done| |done]. eapply meanwhile_le; [|exact H]. intros l l' [_ Hidle]. by apply idles_le.
Qed.

(** The executor of the pipeline above, with the build that is never reached. *)
Definition pipeline_of (pn : PipelineRunner (guard * site) unit) : PipelineExecutor site unit unit unit := {|
  ex_pipeline_id := "nightly"; ex_source := "shop"; ex_ingestion := Some (pipeline_ingestion pn); ex_history := site_history;
  ex_catalog := "acme"; ex_raw_namespace := "raw"; ex_source_relations := [("items", {| rl_catalog := "acme"; rl_namespace := "raw"; rl_name := "shop_items" |})];
  ex_selected_models := None; ex_build_models := true; ex_transform_runner := Some (fun _ => builds); ex_compile := fun w => (Ok [tt], w);
  ex_manifest := fun _ w => (Ok tt, w); ex_metadata_store := Some (fun _ _ _ w => (Ok tt, w)); ex_registry_output := None;
  ex_catalog_publisher := Some (fun _ w => (Ok tt, w)); ex_leases := Some site_leases; ex_repair_window := false; ex_describe := describe_error |}.
Lemma pipeline_collaborates pn :
  collaborates (fun w : site => pg_ok w.1) (fun w => ledger_at w.1) first_heartbeat (pipeline_of pn) "a".
Proof.
  split; cbn.
  - intros run [= <-]. apply (pipeline_ingestion_leaves (postgresql_authority thirty_seconds) any_token _ _ first_heartbeat (LL := site_lease_laws)).
    intros x e. apply forward_leaves, cursor_forward.
  - intros stage c. apply forward_leaves, history_forward.
  - by intros p Hp.
  - by intros _ p Hp.
Qed.
Definition overtaken_run : execution site :=
  Execution (new_guard true, (second_owner, World (HistoryDb ∅ 0 []) [])) INGEST no_counts (Some first_heartbeat) [].
Lemma overtaken_run_is : overtaken (fun w : site => pg_ok w.1) (fun w => ledger_at w.1) first_heartbeat overtaken_run.
Proof.
  destruct owners_in_turn as (_ & _ & _ & O2). split; [reflexivity|]. split; [exact O2|]. right. left. by vm_compute.
Qed.

Lemma superseded_owner_stops_witness :
  exists pn, runner_with extract_all = Ok pn /\ sample_executor builds = Ok (pipeline_of pn) /\
    is_ok (owned_stages (pipeline_of pn) "a" overtaken_run).1 = false /\
    exists t, xe_trace (publish_metadata (pipeline_of pn) "a" overtaken_run).2 = [] ++ t /\ none_of finalizer t.
Proof.
  eexists. split; [reflexivity|]. split; [reflexivity|]. match goal with |- context [pipeline_of ?q] => set (pn := q) end.
  destruct (superseded_owner_stops (postgresql_authority thirty_seconds) any_token (fun w : site => pg_ok w.1) (fun w => ledger_at w.1)
              first_heartbeat (LL := site_lease_laws) (pipeline_of pn) "a" (pipeline_collaborates pn)) as ((_ & O) & _ & (P & _) & _).
  split; [exact (O overtaken_run overtaken_run_is)|].
  destruct (P overtaken_run overtaken_run_is) as (t & Et & Ht & _). exists t. split; [exact Et|exact Ht].
Defined.
