(* ===== verification/ObjectStore.v ===== *)
(** * A bucket with conditional writes (the Amazon S3 client behind
    [control/s3_run_store.py])

    The client library is not part of the repository: its four calls are an
    interface over an arbitrary world, and its documented behaviour - atomic
    conditional writes, strongly consistent reads, entity tags that identify
    the content - is stated as laws over the versions of every object.  A call
    may fail at any time, before or after it took effect, and other clients act
    before and after it. *)

From S2P Require Import Prelude Regex PyStr.

Local Open Scope string_scope.
Local Open Scope Z_scope.
Local Open Scope list_scope.

(** ** The calls *)

(** What the code looks at in the [response] of an exception of the client:
    [Error.Code] and [ResponseMetadata.HTTPStatusCode]. *)
Record client_error : Type := ClientError { ce_code : option string; ce_status : option Z }.

Inductive answer (A : Type) : Type :=
  | Answered (a : A)
  | Failed (e : client_error).
Arguments Answered {A} a.
Arguments Failed {A} e.

(** [IfNoneMatch="*"] or [IfMatch=etag]. *)
Inductive precondition : Type :=
  | IfNoneMatch
  | IfMatch (etag : string).

(** [Bucket] and, when configured, [ExpectedBucketOwner]. *)
Record location : Type := Location { lc_bucket : string; lc_owner : option string }.

(** Response entries are [None] when they are missing or of another type. *)
Record head_response : Type := HeadResponse { hr_etag : option string; hr_length : option Z }.

Inductive chunk : Type :=
  | Bytes (data : list Z)
  | NotBytes
  | ReadFails.

(** A response stream: the first [read(n)], the [read(1)] after it, and whether
    [close()] returns. *)
Record body : Type := Body { bd_read : Z -> chunk; bd_more : chunk; bd_closes : bool }.
Record get_response : Type := GetResponse { gr_etag : option string; gr_body : option body }.
(** [Contents] as the [Key] of each entry, [IsTruncated]. *)
Record list_response : Type := ListResponse { lr_contents : option (list (option string)); lr_truncated : option bool }.

Class S3Client (W : Type) : Type := {
  put_object : location -> string -> list Z -> precondition -> W -> answer (option string) * W;
  head_object : location -> string -> W -> answer head_response * W;
  get_object : location -> string -> string -> Z -> W -> answer get_response * W;   (* Key, IfMatch, last byte of Range *)
  list_objects_v2 : location -> string -> Z -> option string -> W -> answer list_response * W;
}.

(** ** Objects and their versions *)

Record version : Type := Version { vr_data : list Z; vr_etag : string }.
#[export] Instance version_eq_dec : EqDecision version.
Proof. solve_decision. Defined.

(** Every version of each object, the current one first.  Objects are never
    deleted here: the code under verification has no such call. *)
Abbreviation bucket := (gmap string (list version)).

Definition versions (b : bucket) (k : string) : list version := default [] (b !! k).
Definition current (b : bucket) (k : string) : option version := head (versions b k).
Definition put_version (k : string) (v : version) (b : bucket) : bucket := <[k := v :: versions b k]> b.

Definition condition (b : bucket) (k : string) (c : precondition) : Prop :=
  match c with
  | IfNoneMatch => current b k = None
  | IfMatch etag => exists v, current b k = Some v /\ vr_etag v = etag
  end.
#[export] Instance condition_dec b k c : Decision (condition b k c).
Proof.
  destruct c as [|etag]; cbn; [apply _|]. destruct (current b k) as [v|]; [|right; naive_solver].
  destruct (decide (vr_etag v = etag)); [left; eauto|right; naive_solver].
Defined.

Lemma versions_put_eq k v b : versions (put_version k v b) k = v :: versions b k.
Proof. unfold versions at 1, put_version. by rewrite lookup_insert_eq. Qed.
Lemma versions_put_ne k j v b : j <> k -> versions (put_version k v b) j = versions b j.
Proof. intros H. unfold versions, put_version. by rewrite lookup_insert_ne. Qed.
Lemma current_put_eq k v b : current (put_version k v b) k = Some v.
Proof. unfold current. by rewrite versions_put_eq. Qed.
Lemma current_put_ne k j v b : j <> k -> current (put_version k v b) j = current b j.
Proof. intros H. unfold current. by rewrite versions_put_ne. Qed.
Lemma current_version b k v : current b k = Some v -> v ∈ versions b k.
Proof. unfold current. destruct (versions b k); [done|]. intros [= ->]. left. Qed.
Lemma no_current b k : current b k = None -> versions b k = [].
Proof. unfold current. by destruct (versions b k). Qed.

Lemma elem_of_versions_put k v b j u :
  u ∈ versions (put_version k v b) j -> (j = k /\ u = v) \/ u ∈ versions b j.
Proof.
  destruct (decide (j = k)) as [->|Hj]; [rewrite versions_put_eq|by rewrite versions_put_ne; [right|]].
  intros [->|H]%elem_of_cons; auto.
Qed.

(** ** The documented behaviour *)

(** An entity tag is printable text and names one content among the versions
    of an object. *)
Definition etag_of (b : bucket) (k : string) (data : list Z) (etag : string) : Prop :=
  blank etag = false /\ forall v, v ∈ versions b k -> vr_etag v = etag -> vr_data v = data.

(** The stream delivers the whole of [data] when it has been read to its end. *)
Definition delivers (data : list Z) (s : body) : Prop :=
  forall n chunk, 0 < n -> bd_read s n = Bytes chunk -> bd_more s = Bytes [] -> chunk = data.

Definition put_effect (k : string) (data : list Z) (c : precondition) (b : bucket)
    (a : answer (option string)) (b' : bucket) : Prop :=
  match a with
  | Answered e => exists etag, e = Some etag /\ condition b k c /\ etag_of b k data etag /\
                    b' = put_version k (Version data etag) b
  | Failed _ => b' = b \/
      exists etag, condition b k c /\ etag_of b k data etag /\ b' = put_version k (Version data etag) b
  end.

Definition get_effect (k etag : string) (last : Z) (b : bucket) (a : answer get_response) (b' : bucket) : Prop :=
  b' = b /\
  match a with
  | Answered r => exists v, current b k = Some v /\ vr_etag v = etag /\ gr_etag r = Some etag /\
      forall s, gr_body r = Some s -> delivers (take (Z.to_nat (last + 1)) (vr_data v)) s
  | Failed _ => True
  end.

Section Service.
Context {W X : Type} {C : S3Client W}.
(** What else happens to the bucket and to the rest [X] of the world. *)
Context (R : relation (bucket * X)).

(** A request takes effect at one instant; others act before and after it. *)
Definition answers {A} (ok : W -> Prop) (state : W -> bucket * X) (m : W -> answer A * W)
    (effect : bucket -> answer A -> bucket -> Prop) : Prop :=
  forall w, ok w ->
  match m w with
  | (a, w') => ok w' /\ exists b x b', R (state w) (b, x) /\ effect b a b' /\ R (b', x) (state w')
  end.

Record s3_service (l : location) (ok : W -> Prop) (state : W -> bucket * X) : Prop := {
  put_law k data c : answers ok state (put_object l k data c) (put_effect k data c);
  head_law k : answers ok state (head_object l k) (fun b _ b' => b' = b);
  get_object_law k etag last : answers ok state (get_object l k etag last) (get_effect k etag last);
  list_objects_law p n after : answers ok state (list_objects_v2 l p n after) (fun b _ b' => b' = b);
}.
End Service.

(** ** A quiet period: the next requests meet no interference and no failure *)

Section Quiet.
Context {W X : Type} {C : S3Client W}.

(** [calm n w]: the next [n] requests are answered at once. *)
Record s3_quiet (l : location) (calm : nat -> W -> Prop) (state : W -> bucket * X) : Prop := {
  quiet_put w n k data c : calm (S n) w ->
    match put_object l k data c w with
    | (a, w') => calm n w' /\
        if decide (condition (state w).1 k c)
        then exists etag, a = Answered (Some etag) /\ blank etag = false /\ py_len etag <= 512 /\
               has_char newline etag = false /\ state w' = (put_version k (Version data etag) (state w).1, (state w).2)
        else state w' = state w /\ exists status, a = Failed (ClientError (Some "PreconditionFailed") status)
    end;
  quiet_head w n k : calm (S n) w ->
    match head_object l k w with
    | (a, w') => calm n w' /\ state w' = state w /\
        match current (state w).1 k with
        | Some v => a = Answered (HeadResponse (Some (vr_etag v)) (Some (Z.of_nat (length (vr_data v)))))
        | None => exists status, a = Failed (ClientError (Some "404") status)
        end
    end;
  quiet_get w n k last v : calm (S n) w -> 0 <= last -> current (state w).1 k = Some v ->
    match get_object l k (vr_etag v) last w with
    | (a, w') => calm n w' /\ state w' = state w /\
        exists s, a = Answered (GetResponse (Some (vr_etag v)) (Some s)) /\ bd_closes s = true /\ bd_more s = Bytes [] /\
          forall m, last < m -> bd_read s m = Bytes (take (Z.to_nat (last + 1)) (vr_data v))
    end;
}.
End Quiet.
