(* ===== verification/RunBounds.v ===== *)
(** * Every run fits its store

    The readers of [control/orchestration_serialization.py] refuse records beyond
    a size bound, and the object store writes records without looking at their
    size.  Here: the canonical text of a valid run or attempt is always within
    the bound of its reader, so what is written can be read. *)

From S2P Require Import Prelude Regex PyStr Sha256 PyTime Json JsonParse JsonRead Identifiers Projection PhysicalPlan Graph Orchestration RunCodec TriggerCodec.

Local Open Scope string_scope.
Local Open Scope Z_scope.
Local Open Scope list_scope.

(** ** Bounds on the text of a value *)

Definition within (v : json) (n : Z) : Prop := Z.of_nat (length (chars (dumps false v))) <= n.
Definition short (s : string) (n : Z) : Prop := Z.of_nat (String.length s) <= n.

Lemma within_le v m n : within v m -> m <= n -> within v n.
Proof. unfold within. lia. Qed.

Lemma within_str s n : short s n -> within (JStr s) (2 + 6 * n).
Proof. unfold short, within. cbn [dumps]. pose proof (quoted_length false s). lia. Qed.

Lemma within_int z : printable z -> within (JInt z) 4302.
Proof.
  unfold printable, within. intros H. cbn [dumps]. unfold py_str. rewrite chars_of_chars.
  pose proof (dec_chars_length (Z.abs z)) as L. pose proof max_str_digits_value as M.
  destruct (Z.ltb_spec z 0); cbn [length]; rewrite ?(Z.abs_neq z), ?(Z.abs_eq z) in L by lia; specialize (L ltac:(lia)); lia.
Qed.

Lemma within_bounded z : 0 <= z <= MAX_RESULT_INTEGER -> within (JInt z) 19.
Proof. unfold within. intros H. apply int_length in H. cbn [dumps]. lia. Qed.

Lemma within_jopt {A} (f : A -> json) (o : option A) n :
  (forall a, o = Some a -> within (f a) n) -> 4 <= n -> within (jopt f o) n.
Proof. destruct o; cbn; intros H Hn; [by apply H|exact Hn]. Qed.

Lemma within_sorted v n : json_ok v -> within v n -> within (sorted_json v) n.
Proof. intros Hv. unfold within. by rewrite dumps_sorted. Qed.

(** The room the members of an object take. *)
Definition room (l : list (string * json)) (m : Z) : Prop :=
  Z.of_nat (total (map (fun kv => length (chars (member_text false kv)) + 1)%nat l)) <= m.

Lemma room_nil : room [] 0.
Proof. done. Qed.

Lemma room_cons k v l n m : within v n -> room l m -> room ((k, v) :: l) (4 + 6 * Z.of_nat (String.length k) + n + m).
Proof. unfold within, room. cbn [map total foldr]. pose proof (member_length false k v). unfold total. lia. Qed.

Lemma room_app l l' m m' : room l m -> room l' m' -> room (l ++ l') (m + m').
Proof.
  unfold room. rewrite map_app. generalize (map (fun kv => length (chars (member_text false kv)) + 1)%nat l).
  generalize (map (fun kv => length (chars (member_text false kv)) + 1)%nat l'). intros ts us.
  assert (total (us ++ ts) = total us + total ts)%nat as -> by (unfold total; induction us as [|u us IH]; cbn in *; lia). lia.
Qed.

Lemma room_le l m n : room l m -> m <= n -> room l n.
Proof. unfold room. lia. Qed.

Lemma within_obj l m : room l m -> within (JObj l) (2 + m).
Proof. unfold within, room. pose proof (dumps_obj_length false l). lia. Qed.

Lemma canonical_length v n : within v n -> Z.of_nat (length (canonical_json v)) <= 2 * n.
Proof. unfold within, canonical_json, dumps_unicode. pose proof (encode_length (dumps false v)). lia. Qed.

(** ** Bounds on the parts *)

Lemma opaque_short s : opaque_id s = true -> short s 128.
Proof. unfold short. rewrite <- length_chars. intros (c & l & -> & _ & Hl & _)%opaque_id_spec. cbn. lia. Qed.
Lemma portable_short s : portable_id s = true -> short s 63.
Proof. intros H%portable_id_length. unfold short. lia. Qed.
Lemma sha256_short s : is_sha256 s = true -> short s 64.
Proof. unfold short. rewrite <- length_chars. intros [H _]%is_sha256_spec. lia. Qed.
Lemma timestamp_short d : utc_value d -> short (timestamp d) 27.
Proof. intros H%timestamp_length. unfold short. lia. Qed.

(** Bounds every member of an object in turn; what is left are the facts about
    the strings and the numbers. *)
Ltac room_tac :=
  repeat (apply room_cons;
    [lazymatch goal with
     | |- within (jopt (fun _ => JStr _) _) _ => apply within_jopt; [intros ? ?; apply within_str|]
     | |- within (jopt JStr _) _ => apply within_jopt; [intros ? ?; apply within_str|]
     | |- within (jopt JInt _) _ => apply within_jopt; [intros ? ?|]
     | |- within (JStr _) _ => apply within_str
     | |- _ => idtac
     end|]);
  try apply room_nil.

Lemma within_window w : window_value w -> within (repair_window_dump w) 600.
Proof.
  intros (H1 & H2 & H3). assert (forall d, min_days <= d <= max_days -> short (date_isoformat (civil_from_days d)) 10) as Hs.
  { intros d Hd. destruct (civil_from_days d) as [[y m] day] eqn:Ed. destruct (civil_roundtrip _ _ _ _ Ed) as (_ & Hm & Hday).
    pose proof (civil_year _ _ _ _ Hd Ed) as Hy.
    assert (days_in_month y m <= 31) as Hdim by (unfold days_in_month; destruct (m =? 2), (is_leap y); try lia; case_bool_decide; lia).
    unfold short, date_isoformat. cbn [fst snd]. rewrite <- length_chars, !chars_app, !length_app, !pad_left_length by (cbn; lia). cbn. lia. }
  unfold repair_window_dump. eapply within_le; [apply within_obj; room_tac; apply Hs; lia|cbn; lia].
Qed.

Lemma within_trigger t : trigger_value t -> within (codec_trigger_payload t) 3000.
Proof.
  intros [Hp Ho Hw]. pose proof (trigger_occurrence t) as Hu. specialize (fun d => Hu d Hp).
  unfold RunTrigger_post_init, require_portable, require_opaque, contract_reject in Hp.
  assert (portable_id (tg_trigger_id t) = true) as Hid by (inv_ok; by to_prop).
  assert (forall r, tg_replay_of_run_id t = Some r -> opaque_id r = true) as Hr.
  { intros r Hr. inv_ok. match goal with H : forall a, tg_replay_of_run_id t = Some a -> _ |- _ => specialize (H r Hr) end.
    inv_ok. done. }
  unfold codec_trigger_payload. eapply within_le.
  - apply within_obj, room_app.
    + room_tac.
      * instantiate (1 := 20). by destruct (tg_kind t); vm_compute.
      * by apply portable_short.
      * apply timestamp_short. split; [by apply Hu|by apply Ho].
      * lia.
      * by apply opaque_short, Hr.
      * lia.
    + instantiate (1 := 700). destruct (tg_repair_window t) as [w|].
      * eapply room_le; [room_tac; apply within_window; by apply Hw|cbn; lia].
      * eapply room_le; [apply room_nil|lia].
  - cbn. lia.
Qed.

Lemma opaque_value_short v label : require_opaque_value (Some v) label = Ok tt -> short v 1024.
Proof. unfold require_opaque_value, contract_reject, short. rewrite reject_if_tt, !orb_false_iff, Z.ltb_ge. unfold py_len, MAX_OPAQUE_VALUE. lia. Qed.

Lemma within_handle h : BackendHandle_post_init h = Ok tt -> within (handle_payload h) 7200.
Proof.
  unfold BackendHandle_post_init, require_opaque, contract_reject. intros [Hb He%opaque_value_short]%seq_ok.
  apply reject_if_tt, negb_false_iff in Hb. unfold handle_payload.
  eapply within_le; [apply within_obj; room_tac; [by apply opaque_short|exact He]|cbn; lia].
Qed.

Lemma within_placement d : PlacementDecision_post_init d = Ok tt -> within (placement_decision_payload d) 3000.
Proof.
  unfold PlacementDecision_post_init, require_portable, contract_reject. intros H. inv_ok. to_prop.
  match goal with H : for_each _ [("estimated cost", _); _] = Ok _ |- _ => apply for_each_ok in H as Hb end.
  repeat (apply Forall_cons in Hb as [? Hb]). cbn [snd fst] in *.
  repeat match goal with H : when_some _ _ = Ok _ |- _ => rewrite when_some_ok in H end.
  unfold placement_decision_payload. eapply within_le.
  - apply within_obj. room_tac.
    + instantiate (1 := 60). match goal with H : pd_schema d = _ |- _ => rewrite H end. by vm_compute.
    + instantiate (1 := 60). by destruct (pd_mode d); vm_compute.
    + by apply portable_short.
    + match goal with H : forall a, pd_selected_locality d = Some a -> _ |- _ => specialize (H _ ltac:(eassumption)) end.
      inv_ok. by apply portable_short.
    + lia.
    + match goal with H : forall a, pd_estimated_cost_microusd d = Some a -> _ |- _ => specialize (H _ ltac:(eassumption)) end.
      inv_ok. by apply within_bounded, out_of_range_false.
    + lia.
    + match goal with H : forall a, pd_preferred_locality d = Some a -> _ |- _ => specialize (H _ ltac:(eassumption)) end.
      inv_ok. by apply portable_short.
    + lia.
    + match goal with H : forall a, pd_max_cost_microusd d = Some a -> _ |- _ => specialize (H _ ltac:(eassumption)) end.
      inv_ok. by apply within_bounded, out_of_range_false.
    + lia.
    + apply within_bounded. unfold MAX_RESULT_INTEGER. lia.
  - cbn. lia.
Qed.

Lemma size_class_texts d : SizeClassDecision_post_init d = Ok tt ->
  portable_id (sd_selected_size_class d) = true /\ forall s, sd_estimate_source d = Some s -> portable_id s = true.
Proof.
  unfold SizeClassDecision_post_init, require_portable, contract_reject. intros H. inv_ok. to_prop. split; [done|].
  intros s Hs. match goal with H : forall a, sd_estimate_source d = Some a -> _ |- _ => specialize (H s Hs) end. inv_ok. done.
Qed.

Lemma within_size d : size_value d -> within (size_class_decision_payload d) 18000.
Proof.
  intros [H Ho Hcpu Hmem Hst]. destruct (size_class_schema d H) as (Es & Hu & He & Hm & Hc). destruct (size_class_texts d H) as [Hp Hsrc].
  unfold size_class_decision_payload, size_class_decision_fields. cbn [app]. eapply within_le.
  - apply within_obj. room_tac.
    + instantiate (1 := 60). rewrite Es. by vm_compute.
    + instantiate (1 := 60). by destruct (sd_mode d); vm_compute.
    + by apply portable_short.
    + by apply within_bounded, He.
    + lia.
    + by apply portable_short, Hsrc.
    + lia.
    + apply timestamp_short. split; [by apply Hu|by apply Ho].
    + lia.
    + by apply within_bounded.
    + by apply within_int.
    + by apply within_int.
    + by apply within_int, Hst.
    + lia.
    + apply within_bounded. unfold MAX_RESULT_INTEGER. lia.
  - cbn. lia.
Qed.

Lemma within_summary s : ExecutionResultSummary_post_init s = Ok tt -> within (sorted_json (summary_json s)) 5000.
Proof.
  intros H. apply within_sorted; [by apply summary_json_ok|]. destruct (summary_bounds s H) as [_ Hb].
  unfold summary_json, execution_result_summary_payload. eapply within_le.
  - apply within_obj. room_tac; [instantiate (1 := 60); by vm_compute|].
    apply within_obj, room_app; [|instantiate (1 := 100); unfold room; destruct (rs_skipped s); by vm_compute].
    unfold summary_counts in *. cbn [fmap list_fmap prod_map fst snd id] in *.
    repeat (apply Forall_cons in Hb as [? Hb]; cbn [snd] in *; apply room_cons; [by apply within_bounded|]). apply room_nil.
  - cbn. lia.
Qed.

(** ** Runs and attempts *)

Lemma run_texts r : RunRecord_post_init r = Ok tt ->
  opaque_id (rr_run_id r) = true /\ Forall (fun s => portable_id s = true) [rr_environment r; rr_project r; rr_graph r; rr_plan_id r] /\
  Forall (fun s => is_sha256 s = true) [rr_graph_content_sha256 r; rr_plan_revision r; rr_idempotency_key_sha256 r; rr_submission_sha256 r] /\
  short (rr_graph_revision r) 512 /\ (forall s, rr_stage r = Some s -> short s 128) /\
  (forall s, rr_current_attempt_id r = Some s -> attempt_identity (rr_run_id r) (rr_attempt_count r) = Ok s).
Proof.
  unfold RunRecord_post_init, require_opaque, require_portable, Orchestration.require_sha256, require_optional_summary, contract_reject. intros H. inv_ok.
  repeat match goal with H : for_each _ [(_, rr_environment r); _; _; _] = Ok _ |- _ => apply for_each_ok in H as Hp; clear H end.
  repeat match goal with H : for_each _ [(_, rr_graph_content_sha256 r); _; _; _] = Ok _ |- _ => apply for_each_ok in H as Hs; clear H end.
  repeat (apply Forall_cons in Hp as [? Hp]). repeat (apply Forall_cons in Hs as [? Hs]). cbn [snd fst] in *. clear Hp Hs.
  repeat match goal with H : reject_if (negb _) _ _ = Ok _ |- _ => apply reject_if_ok, negb_false_iff in H end.
  split_and!; [done|by repeat constructor|by repeat constructor|..].
  - match goal with H : (512 <? py_len _) = false |- _ => apply Z.ltb_ge in H; exact H end.
  - intros s Hs. match goal with H : forall a, rr_stage r = Some a -> _ |- _ => specialize (H s Hs) end. inv_ok. to_prop. done.
  - intros s Hs. match goal with H : forall a, rr_current_attempt_id r = Some a -> _ |- _ => specialize (H s Hs) end. inv_ok. to_prop.
    by subst.
Qed.

Lemma attempt_identity_short r n s : printable n -> attempt_identity r n = Ok s -> short s 4400.
Proof.
  intros Hn (Hp & _ & ->)%attempt_identity_ok. pose proof (within_int n Hn) as H. unfold within in H. cbn [dumps] in H.
  unfold short, first_chars. rewrite <- length_chars. cbn [join]. rewrite !chars_app, !length_app, chars_of_chars, length_take. cbn [chars length]. lia.
Qed.

Lemma within_run r : run_value r -> within (run_record_json V5 r (summary_payload V5 r)) 131072.
Proof.
  intros Hr. destruct (run_texts r (rv_post r Hr)) as (Hi & Hp & Hs & Hg & Hst & Hc).
  destruct (run_times r (rv_post r Hr)) as (U1 & U2 & U3 & U4). destruct (rv_times r Hr) as (T1 & T2 & T3).
  repeat (apply Forall_cons in Hp as [? Hp]). repeat (apply Forall_cons in Hs as [? Hs]). clear Hp Hs.
  unfold run_record_json, run_record_fields, has_summary, has_placement, has_size_class. cbn [app].
  eapply within_le.
  - apply within_obj. room_tac; [instantiate (1 := 60); by vm_compute|]. apply within_obj.
    room_tac; try exact Hg; try (by apply opaque_short); try (by apply portable_short); try (by apply sha256_short);
      try (apply timestamp_short; split; [done|assumption]).
    + by apply within_trigger, rv_trigger.
    + by apply within_int, (rv_deadline r Hr).
    + lia.
    + instantiate (1 := 20). by destruct (rr_run_state r); vm_compute.
    + instantiate (1 := 20). by destruct (rr_outcome r); vm_compute.
    + instantiate (1 := 20). by destruct (rr_results_state r); vm_compute.
    + instantiate (1 := 20). by destruct (rr_cleanup_state r); vm_compute.
    + apply timestamp_short. split; [by apply U4|by apply (rv_terminal r Hr)].
    + lia.
    + by apply Hst.
    + lia.
    + by apply within_int, rv_attempts.
    + by eapply attempt_identity_short; [apply rv_attempts|apply Hc].
    + lia.
    + apply within_jopt; [intros h Hh; by apply within_handle, (rv_handle r Hr)|lia].
    + unfold summary_payload. cbn [has_summary]. apply within_jopt; [intros s Hs; by apply within_summary, (rv_summary r Hr)|lia].
    + apply within_jopt; [intros d Hd; by apply within_placement, (rv_placement r Hr)|lia].
    + apply within_jopt; [intros d Hd; by apply within_size, (rv_size r Hr)|lia].
  - cbn. lia.
Qed.

Lemma run_record_length r data : run_value r -> serialize_run_record r = Ok data -> Z.of_nat (length data) <= MAX_RUN_BYTES.
Proof.
  intros Hr Hs. unfold serialize_run_record in Hs. rewrite serialize_as_ok in Hs by done. injection Hs as <-.
  pose proof (canonical_length _ _ (within_run r Hr)). unfold MAX_RUN_BYTES. lia.
Qed.

Lemma run_record_back r data : run_value r -> serialize_run_record r = Ok data -> deserialize_run_record data = Ok r.
Proof. intros Hr Hs. apply (run_record_reads V5); [done|by split|done|by apply (run_record_length r)]. Qed.

Lemma within_attempt a : attempt_value a -> within (attempt_record_json a) 40000.
Proof.
  intros Ha. pose proof (av_post a Ha) as Hp. unfold AttemptRecord_post_init, require_opaque, require_portable, Orchestration.require_sha256, contract_reject in Hp.
  apply seq_ok in Hp as [H1 Hp]. apply seq_ok in Hp as [H2 Hp]. apply seq_ok in Hp as [H3 Hp]. apply seq_ok in Hp as [H4 Hp].
  apply seq_ok in Hp as [H5 _]. apply reject_if_tt, negb_false_iff in H1, H2, H3, H4, H5.
  unfold attempt_record_json. eapply within_le.
  - apply within_obj. room_tac; [instantiate (1 := 60); by vm_compute|]. apply within_obj.
    room_tac; try (by apply opaque_short); try (by apply portable_short); try (by apply sha256_short).
    + by apply within_int, av_number.
    + by apply within_trigger, av_trigger.
    + apply timestamp_short. split; [by apply attempt_created_utc, av_post|by apply av_created].
  - cbn. lia.
Qed.

Lemma attempt_record_length a : attempt_value a -> Z.of_nat (length (serialize_attempt_record a)) <= MAX_ATTEMPT_BYTES.
Proof. intros Ha. pose proof (canonical_length _ _ (within_attempt a Ha)). unfold serialize_attempt_record, MAX_ATTEMPT_BYTES. lia. Qed.

(** C9: a record never outgrows its bound: the canonical encoding of every run
    that its constructor admits is within the 256 KiB its reader accepts, that of
    every attempt within 128 KiB, and so both can always be read back - whatever
    their texts and numbers, as long as the numbers can be printed at all. *)
Theorem records_fit :
  (forall r data, run_value r -> serialize_run_record r = Ok data ->
     Z.of_nat (length data) <= MAX_RUN_BYTES /\ deserialize_run_record data = Ok r) /\
  (forall a, attempt_value a ->
     Z.of_nat (length (serialize_attempt_record a)) <= MAX_ATTEMPT_BYTES /\
     deserialize_attempt_record (serialize_attempt_record a) = Ok a).
Proof.
  split; [intros r data Hr Hs|intros a Ha].
  - split; [by apply (run_record_length r)|by apply run_record_back].
  - pose proof (attempt_record_length a Ha). split; [done|by apply attempt_record_reads].
Qed.
