(* ===== verification/RunStoreS3.v ===== *)
(** * The S3 run store ([control/s3_run_store.py])

    Runs, attempts and idempotency claims as objects of one bucket: every write
    is conditional on the object being absent or on the entity tag the caller
    read, and a creation interrupted between its two objects is completed by
    whoever finds the first. *)

From S2P Require Import Prelude Regex PyStr Sha256 PyTime Json JsonParse JsonRead Base64 Identifiers PhysicalPlan Graph Orchestration RunCodec RunTransition Contract ObjectStore.

Local Open Scope string_scope.
Local Open Scope Z_scope.
Local Open Scope list_scope.

Definition RUN_IDEMPOTENCY_SCHEMA : string := "io.dander.control.run-idempotency/v1".
Definition MUTATION_IDEMPOTENCY_SCHEMA : string := "io.dander.control.mutation-idempotency/v1".
Definition S3_MAX_IDEMPOTENCY_BYTES : Z := MAX_RUN_BYTES + 64 * 1024.
Definition S3_MAX_MUTATION_BYTES : Z := 16 * 1024.

Definition s3_corrupt (b : bool) (m : string) : result unit := reject_if b RunStoreCorruptionError m.
Definition s3_conflict {W A} (m : string) : M W A := raiseM RunStoreConflictError m.

(** ** The binding ([S3RunStore.__init__]) *)

Definition S3_PREFIX : re :=
  Cat (Cls alnum) (Cat (Upto (Cls (either alnum (one_of "._/-"))) 510) (Cls alnum)).
Definition GENERAL_PURPOSE_BUCKET : re :=
  Cat (Cls lower_digit) (Cat (between 1 61 (Cls (either lower_digit (one_of ".-")))) (Cls lower_digit)).
Definition EXPECTED_OWNER : re := exactly 12 (Cls digit).

Record S3RunStore : Type := { ss_bucket : string; ss_prefix : string; ss_owner : option string }.

Definition endswith (suffix s : string) : bool :=
  bool_decide (drop (String.length s - String.length suffix) (chars s) = chars suffix).

(** [s.strip("/")]. *)
Fixpoint lstrip_char (c : ascii) (l : list ascii) : list ascii :=
  match l with [] => [] | d :: l' => if Ascii.eqb d c then lstrip_char c l' else l end.
Definition strip_char (c : ascii) (s : string) : string :=
  of_chars (rev (lstrip_char c (rev (lstrip_char c (chars s))))).

(** The client is the one given; the default client is built by the library. *)
Definition new_s3_run_store (bucket prefix : string) (expected_bucket_owner : option string) (timeout_positive : bool)
    : result S3RunStore :=
  _ ← s3_corrupt (negb (fullmatch GENERAL_PURPOSE_BUCKET bucket) || contains ".." bucket || contains ".-" bucket
                  || contains "-." bucket || endswith "--x-s3" bucket)
        "The S3 run-store binding must name a general-purpose bucket.";
  let prefix := strip_char "/" prefix in
  _ ← s3_corrupt (empty prefix || negb (fullmatch S3_PREFIX prefix)
                  || existsb (fun part => bool_decide (part ∈ [""; "."; ".."])) (split_on "/" prefix))
        "The S3 run-store prefix binding is invalid.";
  _ ← when_some expected_bucket_owner (fun owner =>
        s3_corrupt (negb (fullmatch EXPECTED_OWNER owner)) "The S3 run-store owner binding is invalid.");
  _ ← s3_corrupt (negb timeout_positive) "The S3 run-store timeout is invalid.";
  Ok {| ss_bucket := bucket; ss_prefix := prefix; ss_owner := expected_bucket_owner |}.

(** ** Checks *)

Definition s3_mapping (v : json) : result (list (string * json)) :=
  match v with JObj l => Ok l | _ => raise_ RunStoreCorruptionError "An S3 run-store object is invalid." end.

Definition s3_checked (valid : string -> bool) (m : string) (value : json) : result string :=
  match value with
  | JStr s => if valid s then Ok s else raise_ RunStoreCorruptionError m
  | _ => raise_ RunStoreCorruptionError m
  end.
Definition s3_checked_portable (value : json) (label : string) : result string :=
  s3_checked portable_id ("The S3 run-store " +:+ label +:+ " identifier is invalid.") value.
Definition s3_checked_opaque (value : json) (label : string) : result string :=
  s3_checked opaque_id ("The S3 run-store " +:+ label +:+ " identifier is invalid.") value.
Definition s3_checked_sha256 (value : json) (label : string) : result string :=
  s3_checked is_sha256 ("The S3 run-store " +:+ label +:+ " identity is invalid.") value.

Definition checked_etag (value : option string) : result string :=
  match value with
  | Some e =>
      if empty e || (512 <? py_len e) || has_char newline e
      then raise_ RunStoreCorruptionError "An S3 run-store object has an invalid ETag." else Ok e
  | None => raise_ RunStoreCorruptionError "An S3 run-store object has an invalid ETag."
  end.

(** ** Errors of the client *)

Definition is_not_found (e : client_error) : bool :=
  match ce_code e with
  | Some code => bool_decide (code ∈ ["404"; "NoSuchKey"; "NotFound"])
  | None => bool_decide (ce_status e = Some 404)
  end.

Definition is_conditional_conflict (e : client_error) : bool :=
  match ce_code e with
  | Some code =>
      bool_decide (code ∈ ["404"; "409"; "412"; "ConditionalRequestConflict"; "NoSuchKey"; "NotFound"; "PreconditionFailed"])
  | None => match ce_status e with Some s => bool_decide (s ∈ [404; 409; 412]) | None => false end
  end.

(** ** Idempotency entries *)

Record IdempotencyEntry : Type := {
  ie_environment : string;
  ie_project : string;
  ie_key_sha256 : string;
  ie_run_id : string;
  ie_submission_sha256 : string;
  ie_initial_record : RunRecord;
}.

Definition entry_fields (e : IdempotencyEntry) (initial : json) : list (string * json) :=
  [("schema", JStr RUN_IDEMPOTENCY_SCHEMA); ("environment", JStr (ie_environment e));
   ("project", JStr (ie_project e)); ("key_sha256", JStr (ie_key_sha256 e)); ("run_id", JStr (ie_run_id e));
   ("submission_sha256", JStr (ie_submission_sha256 e)); ("initial_record", initial)].
Definition entry_json (e : IdempotencyEntry) (initial : json) : json := JObj (entry_fields e initial).

(** [json.loads] is applied to text that [json.dumps] wrote. *)
Definition serialize_entry (e : IdempotencyEntry) : result (list Z) :=
  data ← serialize_run_record (ie_initial_record e);
  initial ← json_loads data;
  Ok (canonical_json (entry_json e initial)).

Definition deserialize_entry (data : list Z) : result IdempotencyEntry :=
  reading RunStoreCorruptionError "An S3 run idempotency object is invalid." (
    _ ← s3_corrupt (bool_decide (data = []) || (S3_MAX_IDEMPOTENCY_BYTES <? Z.of_nat (length data)))
          "An S3 run idempotency object exceeds its bound.";
    raw ← json_loads data;
    values ← s3_mapping raw;
    _ ← s3_corrupt (negb (schema_in [RUN_IDEMPOTENCY_SCHEMA] values)) "An S3 run idempotency object is invalid.";
    initial ← field "initial_record" values;
    environment ← (v ← field "environment" values; s3_checked_portable v "environment");
    project ← (v ← field "project" values; s3_checked_portable v "project");
    key_sha256 ← (v ← field "key_sha256" values; s3_checked_sha256 v "idempotency key");
    run_id ← (v ← field "run_id" values; s3_checked_opaque v "run");
    submission_sha256 ← (v ← field "submission_sha256" values; s3_checked_sha256 v "submission");
    initial_record ← deserialize_run_record (canonical_json initial);
    let entry := {| ie_environment := environment; ie_project := project; ie_key_sha256 := key_sha256;
                    ie_run_id := run_id; ie_submission_sha256 := submission_sha256;
                    ie_initial_record := initial_record |} in
    _ ← s3_corrupt
          (negb (bool_decide (rr_environment initial_record = environment))
           || negb (bool_decide (rr_project initial_record = project))
           || negb (bool_decide (rr_idempotency_key_sha256 initial_record = key_sha256))
           || negb (bool_decide (rr_run_id initial_record = run_id))
           || negb (bool_decide (rr_submission_sha256 initial_record = submission_sha256)))
          "An S3 run idempotency object is inconsistent.";
    _ ← s3_corrupt (negb (bool_decide (data = canonical_json (entry_json entry initial))))
          "An S3 run idempotency object is not canonical.";
    Ok entry).

Record MutationEntry : Type := {
  me_key_sha256 : string;
  me_operation : string;
  me_run_id : string;
  me_result : list (string * json);
}.

Definition mutation_fields (e : MutationEntry) : list (string * json) :=
  [("schema", JStr MUTATION_IDEMPOTENCY_SCHEMA); ("key_sha256", JStr (me_key_sha256 e));
   ("operation", JStr (me_operation e)); ("run_id", JStr (me_run_id e)); ("result", JObj (me_result e))].
Definition serialize_mutation (e : MutationEntry) : list Z := canonical_json (JObj (mutation_fields e)).

Definition deserialize_mutation (data : list Z) : result MutationEntry :=
  reading RunStoreCorruptionError "An S3 mutation idempotency object is invalid." (
    _ ← s3_corrupt (bool_decide (data = []) || (S3_MAX_MUTATION_BYTES <? Z.of_nat (length data)))
          "An S3 mutation idempotency object exceeds its bound.";
    values ← (raw ← json_loads data; s3_mapping raw);
    _ ← s3_corrupt (negb (schema_in [MUTATION_IDEMPOTENCY_SCHEMA] values)) "An S3 mutation idempotency object is invalid.";
    key_sha256 ← (v ← field "key_sha256" values; s3_checked_sha256 v "mutation key");
    operation ← (v ← field "operation" values; s3_checked_portable v "mutation operation");
    run_id ← (v ← field "run_id" values; s3_checked_opaque v "run");
    result_value ← (v ← field "result" values; s3_mapping v);
    let entry := {| me_key_sha256 := key_sha256; me_operation := operation; me_run_id := run_id; me_result := result_value |} in
    _ ← s3_corrupt (negb (bool_decide (data = serialize_mutation entry)))
          "An S3 mutation idempotency object is not canonical.";
    Ok entry).

(** ** Cursors *)

Definition s3_encode_cursor (name : string) : string := of_chars (b64_encode (encode name)).

(** [name[len(prefix):-5]]. *)
Definition run_id_of_name (prefix name : string) : string :=
  of_chars (take (length (chars name) - 5 - length (chars prefix)) (drop (length (chars prefix)) (chars name))).

Definition s3_decode_cursor (cursor prefix : string) : result string :=
  _ ← s3_corrupt (empty cursor || (1024 <? py_len cursor)) "The S3 run-store cursor is invalid.";
  match data ← b64_decode_any (chars cursor); decode data with
  | None => raise_ RunStoreCorruptionError "The S3 run-store cursor is invalid."
  | Some name =>
      _ ← s3_corrupt (negb (startswith prefix name) || negb (endswith ".json" name)) "The S3 run-store cursor is invalid.";
      _ ← s3_checked_opaque (JStr (run_id_of_name prefix name)) "run";
      Ok name
  end.

(** ** The store *)

Section Store.
Context {W : Type} {C : S3Client W} (self : S3RunStore).

(** [_request]. *)
Definition bucket_location : location := Location (ss_bucket self) (ss_owner self).

Definition run_prefix : string := ss_prefix self +:+ "/runs/".
Definition run_name (run_id : string) : string := run_prefix +:+ run_id +:+ ".json".
Definition attempt_path (run_id attempt_id : string) : string :=
  ss_prefix self +:+ "/attempts/" +:+ run_id +:+ "/" +:+ attempt_id +:+ ".json".
Definition attempt_name (run_id attempt_id : string) : result string :=
  run_id ← s3_checked_opaque (JStr run_id) "run";
  attempt_id ← s3_checked_opaque (JStr attempt_id) "attempt";
  Ok (attempt_path run_id attempt_id).
Definition idempotency_path (environment project key_sha256 : string) : string :=
  ss_prefix self +:+ "/idempotency/runs/" +:+ environment +:+ "/" +:+ project +:+ "/" +:+ key_sha256 +:+ ".json".
Definition idempotency_name (environment project key_sha256 : string) : result string :=
  environment ← s3_checked_portable (JStr environment) "environment";
  project ← s3_checked_portable (JStr project) "project";
  key_sha256 ← s3_checked_sha256 (JStr key_sha256) "idempotency key";
  Ok (idempotency_path environment project key_sha256).
Definition mutation_path (key_sha256 : string) : string :=
  ss_prefix self +:+ "/idempotency/mutations/" +:+ key_sha256 +:+ ".json".
Definition mutation_name (key_sha256 : string) : result string :=
  key_sha256 ← s3_checked_sha256 (JStr key_sha256) "mutation key"; Ok (mutation_path key_sha256).

(** A call of the client; its exceptions are values here. *)
Definition request {A} (call : W -> answer A * W) : M W (answer A) := fun w => let '(a, w') := call w in (Ok a, w').

Record ObjectHead : Type := { oh_etag : string; oh_size : Z }.

Definition s3_head_object (name : string) : M W (option ObjectHead) :=
  response ← request (head_object bucket_location name);
  match response with
  | Failed error => if is_not_found error then mret None else raiseM RunStoreError "The S3 run-store metadata read failed."
  | Answered r =>
      etag ← lift (checked_etag (hr_etag r));
      size ← lift (match hr_length r with
                   | Some n => _ ← s3_corrupt (n <? 0) "The S3 run-store object size is invalid."; Ok n
                   | None => raise_ RunStoreCorruptionError "The S3 run-store object size is invalid."
                   end);
      mret (Some {| oh_etag := etag; oh_size := size |})
  end.

(** Both reads of the body, then [close()], which runs whatever they do. *)
Definition drain (max_bytes : Z) (s : body) : result (list Z) :=
  let reads := match bd_read s (max_bytes + 1) with
               | ReadFails => None
               | data => match bd_more s with ReadFails => None | extra => Some (data, extra) end
               end in
  if negb (bd_closes s) then raise_ RunStoreError "The S3 run-store body close failed."
  else
    match reads with
    | None => raise_ RunStoreError "The S3 run-store body read failed."
    | Some (Bytes data, Bytes extra) =>
        _ ← s3_corrupt ((max_bytes <? Z.of_nat (length data)) || negb (bool_decide (extra = [])))
              "An S3 run-store object exceeds its bound.";
        Ok data
    | Some _ => raise_ RunStoreCorruptionError "The S3 run-store body is invalid."
    end.

(** [_read_object]: the object whose tag the metadata named, tried three times. *)
Fixpoint read_object_at (tries : nat) (name : string) (max_bytes : Z) : M W (option (list Z * string)) :=
  match tries with
  | O => s3_conflict "The S3 run-store object changed during the read."
  | S tries =>
      head ← s3_head_object name;
      match head with
      | None => mret None
      | Some head =>
          _ ← lift (s3_corrupt (max_bytes <? oh_size head) "An S3 run-store object exceeds its bound.");
          response ← request (get_object bucket_location name (oh_etag head) max_bytes);
          match response with
          | Failed error =>
              if is_conditional_conflict error then read_object_at tries name max_bytes
              else raiseM RunStoreError "The S3 run-store read failed."
          | Answered r =>
              response_etag ← lift (checked_etag (gr_etag r));
              if negb (bool_decide (response_etag = oh_etag head)) then read_object_at tries name max_bytes
              else
                match gr_body r with
                | None => raiseM RunStoreCorruptionError "The S3 run-store body is invalid."
                | Some stream => data ← lift (drain max_bytes stream); mret (Some (data, oh_etag head))
                end
          end
      end
  end.
Definition read_object : string -> Z -> M W (option (list Z * string)) := read_object_at 3.

(** [_write_object]; [None] is a creation. *)
Definition write_object (name : string) (data : list Z) (expected_etag : option string) : M W string :=
  condition ← lift (match expected_etag with
                    | None => Ok IfNoneMatch
                    | Some e => e ← checked_etag (Some e); Ok (IfMatch e)
                    end);
  response ← request (put_object bucket_location name data condition);
  match response with
  | Answered etag => lift (checked_etag etag)
  | Failed error =>
      if is_conditional_conflict error then s3_conflict "The S3 run-store precondition failed."
      else raiseM RunStoreError "The S3 run-store write failed."
  end.

(** [except RunStoreConflictError: h]. *)
Definition on_conflict {A} (m : M W A) (h : M W A) : M W A :=
  try_except m (fun e => if catches RunStoreConflictError e then h else lift (Raise e)).

(** ** Replays *)

Definition s3_validate_initial_record (r : RunRecord) : result unit :=
  reject_if (negb (bool_decide (rr_run_state r = QUEUED)) || negb (rr_attempt_count r =? 0)
             || is_some (rr_backend_handle r))
    RunStoreConflictError "A run claim must contain a pristine queued snapshot.".

Definition s3_validate_replay (entry : IdempotencyEntry) (r : RunRecord) : result unit :=
  _ ← s3_corrupt (negb (bool_decide (ie_environment entry = rr_environment r))
                  || negb (bool_decide (ie_project entry = rr_project r))
                  || negb (bool_decide (ie_key_sha256 entry = rr_idempotency_key_sha256 r))
                  || negb (bool_decide (ie_run_id entry = rr_run_id r)))
        "An S3 run idempotency object is addressed incorrectly.";
  reject_if (negb (bool_decide (ie_submission_sha256 entry = rr_submission_sha256 r)))
    RunStoreIdempotencyConflictError "The idempotency key belongs to a different logical submission.".

Definition s3_validate_snapshot_replay (entry : IdempotencyEntry) (r : RunRecord) : result unit :=
  s3_corrupt (negb (bool_decide (ie_run_id entry = rr_run_id r))
              || negb (bool_decide (ie_environment entry = rr_environment r))
              || negb (bool_decide (ie_project entry = rr_project r))
              || negb (bool_decide (ie_key_sha256 entry = rr_idempotency_key_sha256 r))
              || negb (bool_decide (ie_submission_sha256 entry = rr_submission_sha256 r)))
    "An S3 run snapshot contradicts its idempotency claim.".

(** ** The operations *)

Definition s3_get (run_id : string) : M W (option StoredRun) :=
  run_id ← lift (s3_checked_opaque (JStr run_id) "run");
  loaded ← read_object (run_name run_id) MAX_RUN_BYTES;
  match loaded with
  | None => mret None
  | Some (data, etag) =>
      record ← lift (map_error OrchestrationSerializationError RunStoreCorruptionError
                       "An S3 run snapshot is invalid." (deserialize_run_record data));
      _ ← lift (s3_corrupt (negb (bool_decide (rr_run_id record = run_id)))
                  "An S3 run snapshot is addressed incorrectly.");
      stored ← lift (new_stored_run {| st_record := record; st_revision := etag |});
      mret (Some stored)
  end.

(** The part that [claim] and [find_idempotency] share once they hold an entry:
    the snapshot it names, created from the entry when it is missing; the flag
    says that the creation met one made by another client. *)
Definition s3_snapshot_of (unsettled : string) (entry : IdempotencyEntry) : M W (StoredRun * bool) :=
  existing ← s3_get (ie_run_id entry);
  match existing with
  | Some stored => _ ← lift (s3_validate_snapshot_replay entry (st_record stored)); mret (stored, false)
  | None =>
      on_conflict
        (data ← lift (serialize_run_record (ie_initial_record entry));
         revision ← write_object (run_name (ie_run_id entry)) data None;
         stored ← lift (new_stored_run {| st_record := ie_initial_record entry; st_revision := revision |});
         mret (stored, false))
        (existing ← s3_get (ie_run_id entry);
         match existing with
         | None => s3_conflict unsettled
         | Some stored => _ ← lift (s3_validate_snapshot_replay entry (st_record stored)); mret (stored, true)
         end)
  end.

Definition entry_of (r : RunRecord) : IdempotencyEntry :=
  {| ie_environment := rr_environment r; ie_project := rr_project r; ie_key_sha256 := rr_idempotency_key_sha256 r;
     ie_run_id := rr_run_id r; ie_submission_sha256 := rr_submission_sha256 r; ie_initial_record := r |}.

Definition s3_claim (r : RunRecord) : M W RunClaim :=
  _ ← lift (s3_validate_initial_record r);
  name ← lift (idempotency_name (rr_environment r) (rr_project r) (rr_idempotency_key_sha256 r));
  claimed ← on_conflict
    (data ← lift (serialize_entry (entry_of r));
     _ ← write_object name data None;
     mret (entry_of r, true))
    (loaded ← read_object name S3_MAX_IDEMPOTENCY_BYTES;
     match loaded with
     | None => s3_conflict "The S3 run idempotency claim did not converge."
     | Some (data, _) =>
         entry ← lift (deserialize_entry data);
         _ ← lift (s3_validate_replay entry r);
         mret (entry, false)
     end);
  snapshot ← s3_snapshot_of "The S3 run snapshot create did not converge." claimed.1;
  mret {| rc_stored := snapshot.1; rc_created := claimed.2 && negb snapshot.2 |}.

Definition s3_find_idempotency (environment project idempotency_key_sha256 : string) : M W (option StoredRun) :=
  environment ← lift (s3_checked_portable (JStr environment) "environment");
  project ← lift (s3_checked_portable (JStr project) "project");
  key_sha256 ← lift (s3_checked_sha256 (JStr idempotency_key_sha256) "idempotency key");
  name ← lift (idempotency_name environment project key_sha256);
  loaded ← read_object name S3_MAX_IDEMPOTENCY_BYTES;
  match loaded with
  | None => mret None
  | Some (data, _) =>
      entry ← lift (deserialize_entry data);
      _ ← lift (s3_corrupt (negb (bool_decide (ie_environment entry = environment))
                            || negb (bool_decide (ie_project entry = project))
                            || negb (bool_decide (ie_key_sha256 entry = key_sha256)))
                  "An S3 run idempotency object is addressed incorrectly.");
      snapshot ← s3_snapshot_of "The S3 run snapshot recovery did not converge." entry;
      mret (Some snapshot.1)
  end.

Definition s3_save (stored : StoredRun) (r : RunRecord) : M W StoredRun :=
  _ ← lift (reject_if (negb (same_run_identity (st_record stored) r)) RunStoreConflictError
              "A run snapshot cannot change its durable identity.");
  data ← lift (serialize_run_record r);
  revision ← write_object (run_name (rr_run_id r)) data (Some (st_revision stored));
  lift (new_stored_run {| st_record := r; st_revision := revision |}).

Definition s3_append_attempt (a : AttemptRecord) : M W unit :=
  name ← lift (attempt_name (ar_run_id a) (ar_attempt_id a));
  let data := serialize_attempt_record a in
  on_conflict
    (_ ← write_object name data None; mret tt)
    (loaded ← read_object name MAX_ATTEMPT_BYTES;
     match loaded with
     | None => s3_conflict "The S3 attempt append did not converge."
     | Some (found, _) =>
         existing ← lift (map_error OrchestrationSerializationError RunStoreCorruptionError
                            "An S3 attempt record is invalid." (deserialize_attempt_record found));
         lift (reject_if (negb (bool_decide (serialize_attempt_record existing = data))) RunStoreConflictError
                 "The attempt identity already contains different immutable input.")
     end).

Definition s3_claim_mutation (key_sha256 operation run_id : string) (result : list Z) : M W (list Z) :=
  key_sha256 ← lift (s3_checked_sha256 (JStr key_sha256) "mutation key");
  operation ← lift (s3_checked_portable (JStr operation) "mutation operation");
  run_id ← lift (s3_checked_opaque (JStr run_id) "run");
  decoded ← lift (map_error ValueError RunStoreCorruptionError "The mutation result is invalid." (json_loads result));
  result_value ← lift (s3_mapping decoded);
  let entry := {| me_key_sha256 := key_sha256; me_operation := operation; me_run_id := run_id; me_result := result_value |} in
  let data := serialize_mutation entry in
  _ ← lift (s3_corrupt (S3_MAX_MUTATION_BYTES <? Z.of_nat (length data)) "The mutation result exceeds its durable bound.");
  name ← lift (mutation_name key_sha256);
  on_conflict
    (_ ← write_object name data None; mret (canonical_json (JObj result_value)))
    (loaded ← read_object name S3_MAX_MUTATION_BYTES;
     match loaded with
     | None => s3_conflict "The S3 mutation idempotency claim did not converge."
     | Some (found, _) =>
         existing ← lift (deserialize_mutation found);
         _ ← lift (reject_if (negb (bool_decide (me_key_sha256 existing = key_sha256))
                              || negb (bool_decide (me_operation existing = operation))
                              || negb (bool_decide (me_run_id existing = run_id)))
                     RunStoreIdempotencyConflictError "The mutation idempotency key belongs to a different operation.");
         mret (canonical_json (JObj (me_result existing)))
     end).

(** ** Listing *)

Definition list_entries (after : option string) (max_keys : Z) : M W (list (option string) * bool) :=
  response ← request (list_objects_v2 bucket_location run_prefix max_keys after);
  match response with
  | Failed _ => raiseM RunStoreError "The S3 run-store list failed."
  | Answered r =>
      match lr_contents r, lr_truncated r with
      | Some contents, Some truncated => mret (contents, truncated)
      | _, _ => raiseM RunStoreCorruptionError "The S3 run-store page is invalid."
      end
  end.

Definition s3_listed_run (entry : option string) : M W StoredRun :=
  name ← lift (match entry with
               | Some name =>
                   _ ← s3_corrupt (negb (startswith run_prefix name) || negb (endswith ".json" name))
                         "The S3 run-store object layout is invalid.";
                   Ok name
               | None => raise_ RunStoreCorruptionError "The S3 run-store object layout is invalid."
               end);
  run_id ← lift (s3_checked_opaque (JStr (run_id_of_name run_prefix name)) "run");
  stored ← s3_get run_id;
  match stored with
  | Some stored => mret stored
  | None => s3_conflict "An S3 run snapshot disappeared during pagination."
  end.

Fixpoint s3_listed_runs (selected : list (option string)) : M W (list StoredRun) :=
  match selected with
  | [] => mret []
  | entry :: selected => stored ← s3_listed_run entry; items ← s3_listed_runs selected; mret (stored :: items)
  end.

Definition s3_list (cursor : option string) (limit : Z) : M W StoredRunPage :=
  _ ← lift (s3_corrupt (negb ((1 <=? limit) && (limit <=? 100))) "The S3 run-store page size is invalid.");
  start_after ← lift (match cursor with
                      | Some c => name ← s3_decode_cursor c run_prefix; Ok (Some name)
                      | None => Ok None
                      end);
  listed ← list_entries start_after (limit + 1);
  let '(entries, truncated) := listed in
  _ ← lift (s3_corrupt (truncated && bool_decide (entries = [])) "The S3 run-store page is invalid.");
  let selected := take (Z.to_nat limit) entries in
  items ← s3_listed_runs selected;
  let has_more := (limit <? Z.of_nat (length entries)) || truncated in
  let next_cursor := if negb (bool_decide (items = [])) && has_more
                     then s3_encode_cursor <$> mjoin (last selected) else None in
  let page := {| pg_items := items; pg_next_cursor := next_cursor |} in
  _ ← lift (StoredRunPage_post_init page);
  mret page.

#[export] Instance s3_store : RunStore W := {
  claim := s3_claim;
  get := s3_get;
  find_idempotency := s3_find_idempotency;
  save := s3_save;
  append_attempt := s3_append_attempt;
  list_runs := s3_list;
  list_pending := None;
  claim_mutation := s3_claim_mutation;
  close_store := mret tt;
}.
End Store.
