(* ===== verification/RunStoreS3Spec.v ===== *)
(** * The S3 run store keeps the contract ([control/s3_run_store.py])

    What the objects of the bucket say about runs and attempts, the invariant of
    the bucket, and the promises of [Contract] for every operation of
    [RunStoreS3] - over any client that behaves as [ObjectStore] says, with
    requests that fail before or after they take effect and with other clients
    acting between any two requests. *)

From S2P Require Import Prelude Regex PyStr Sha256 PyTime Json JsonParse JsonRead Base64 Identifiers PhysicalPlan Graph Orchestration RunCodec RunTransition TriggerCodec RunBounds Contract RunStorePg RunStorePgSpec ObjectStore RunStoreS3.

Local Open Scope string_scope.
Local Open Scope Z_scope.
Local Open Scope list_scope.

#[local] Arguments deserialize_run_record : simpl never.
#[local] Arguments serialize_run_record : simpl never.
#[local] Arguments serialize_attempt_record : simpl never.
#[local] Arguments deserialize_attempt_record : simpl never.
#[local] Arguments deserialize_entry : simpl never.
#[local] Arguments serialize_entry : simpl never.
#[local] Arguments RunRecord_post_init : simpl never.

(** ** Maps given by a function on a list of keys *)

Section Keyed.
Context {K A : Type} `{Countable K}.

Definition keyed (f : K -> option A) (ks : list K) : gmap K A :=
  list_to_map (omap (fun k => (fun a => (k, a)) <$> f k) ks).

Lemma lookup_keyed f ks k : (is_Some (f k) -> k ∈ ks) -> keyed f ks !! k = f k.
Proof.
  intros Hk. unfold keyed. induction ks as [|j ks IH]; cbn.
  - destruct (f k) as [a|]; [|done]. destruct (not_elem_of_nil k); auto.
  - destruct (f j) as [a|] eqn:Ej; cbn.
    + destruct (decide (j = k)) as [->|Hne]; [by rewrite lookup_insert_eq, Ej|].
      rewrite lookup_insert_ne by done. apply IH. intros Hs. destruct (proj1 (elem_of_cons _ _ _) (Hk Hs)); congruence.
    + apply IH. intros Hs. destruct (proj1 (elem_of_cons _ _ _) (Hk Hs)) as [->|]; [|done]. rewrite Ej in Hs. by destruct Hs.
Qed.
End Keyed.

(** ** Names *)

Lemma append_inj_r p s t : p +:+ s = p +:+ t -> s = t.
Proof. induction p as [|c p IH]; cbn; [done|]. intros [= E]. auto. Qed.
Lemma append_inj_l s t u : s +:+ u = t +:+ u -> s = t.
Proof. intros E%(f_equal chars). rewrite !chars_app in E. apply app_inv_tail in E. by apply chars_inj. Qed.

Lemma append_cat p s t : (p +:+ s) +:+ t = p +:+ s +:+ t.
Proof. induction p as [|c p IH]; [done|]. exact (f_equal (String c) IH). Qed.

(** ** Idempotency entries *)

(** An entry repeats what its initial record says. *)
Record entry_value (e : IdempotencyEntry) : Prop := {
  ev_record : run_value (ie_initial_record e);
  ev_entry : e = entry_of (ie_initial_record e);
}.

(** The bytes of an entry, and that they fit the bound of the reader. *)
Lemma entry_bytes e : entry_value e ->
  let J := run_record_json V5 (ie_initial_record e) (summary_payload V5 (ie_initial_record e)) in
  serialize_entry e = Ok (canonical_json (entry_json e (sorted_json J))) /\
  json_ok (entry_json e (sorted_json J)) /\
  Z.of_nat (length (canonical_json (entry_json e (sorted_json J)))) <= S3_MAX_IDEMPOTENCY_BYTES.
Proof.
  intros [Hr He] J. pose proof (run_json_ok V5 _ Hr) as HJ. fold J in HJ. split_and!.
  - unfold serialize_entry, serialize_run_record. rewrite serialize_as_ok by done. fold J. cbn [mbind result_bind].
    assert (json_loads (canonical_json J) = Ok (sorted_json J)) as -> by by apply json_loads_canonical. done.
  - unfold entry_json, entry_fields. json_ok_fields. by apply json_ok_sorted.
  - destruct (run_identifiers _ (rv_post _ Hr)) as (Hi & Hp & Hq & Hk & Hs).
    assert (within (entry_json e (sorted_json J)) (131072 + 4000)) as Hw.
    { rewrite He. unfold entry_json, entry_fields, entry_of. cbn [ie_environment ie_project ie_key_sha256 ie_run_id ie_submission_sha256].
      eapply within_le; [apply within_obj; room_tac|].
      - instantiate (1 := 60). by vm_compute.
      - by apply portable_short.
      - by apply portable_short.
      - by apply sha256_short.
      - by apply opaque_short.
      - by apply sha256_short.
      - apply within_sorted; [exact HJ|by apply within_run].
      - cbn. lia. }
    pose proof (canonical_length _ _ Hw). unfold S3_MAX_IDEMPOTENCY_BYTES, MAX_RUN_BYTES. lia.
Qed.

Lemma entry_reads e data : entry_value e -> serialize_entry e = Ok data -> deserialize_entry data = Ok e.
Proof.
  intros He Hs. destruct (entry_bytes e He) as (Hb & Hok & Hlen). rewrite Hs in Hb.
  assert (forall u v : list Z, Ok u = Ok v -> u = v) as Hinj by (by intros u v [= ->]). apply Hinj in Hb as Hdata. clear Hb Hinj.
  destruct He as [Hr Heq]. destruct (run_identifiers _ (rv_post _ Hr)) as (Hi & Hp & Hq & Hk & Hsub).
  pose proof (run_json_ok V5 _ Hr) as HJ. pose proof (serialize_as_ok V5 _ Hr) as HJs.
  pose proof (run_record_back _ _ Hr HJs) as HJr. clear HJs. cbv zeta in *.
  remember (run_record_json V5 (ie_initial_record e) (summary_payload V5 (ie_initial_record e))) as J eqn:EJ. clear EJ.
  unfold deserialize_entry. apply reading_ok.
  eapply (bind_get _ _ tt).
  { apply reject_if_tt, orb_false_iff. split; [|rewrite Hdata; by apply Z.ltb_ge]. apply bool_decide_eq_false. rewrite Hdata.
    unfold entry_json, canonical_json, dumps_unicode. rewrite dumps_obj. apply encode_nonempty. }
  cbv beta. eapply bind_get; [rewrite Hdata; by apply json_loads_canonical|cbv beta].
  eapply (bind_get _ _ (sorted_fields (entry_fields e (sorted_json J)))); [unfold entry_json; by rewrite sorted_json_obj|cbv beta].
  eapply (bind_get _ _ tt).
  { apply reject_if_tt, negb_false_iff, (schema_in_sorted _ _ RUN_IDEMPOTENCY_SCHEMA); [vm_compute; reflexivity|reflexivity|by left]. }
  cbv beta. eapply bind_get; [eapply field_sorted; [vm_compute; reflexivity|reflexivity]|cbv beta]. rewrite sorted_sorted.
  destruct e as [env proj key id sub r]. cbn [ie_initial_record entry_of] in *. injection Heq as -> -> -> -> ->.
  unfold s3_checked_portable, s3_checked_sha256, s3_checked_opaque.
  do 5 (eapply bind_get; [eapply bind_get; [eapply field_sorted; [vm_compute; reflexivity|reflexivity]|];
    cbn [sorted_json s3_checked ie_environment ie_project ie_key_sha256 ie_run_id ie_submission_sha256]; by rewrite ?Hi, ?Hp, ?Hq, ?Hk, ?Hsub|cbv beta]).
  eapply bind_get; [unfold canonical_json, dumps_unicode; rewrite dumps_sorted by done; exact HJr|cbv beta zeta].
  by rewrite !bool_decide_true by done.
Qed.

Lemma reading_own {A} own m (r : result A) :
  exn_subclass own own = true -> raises (fun e => catches own e = true \/ caught e) r -> only own (reading own m r).
Proof.
  intros Ho. unfold reading. destruct r as [a|e]; [done|]. cbn [raises]. destruct (catches own e) eqn:Ec; [by cbn|].
  intros [H|H]; [congruence|]. unfold caught in H. by rewrite H.
Qed.

(** The errors the two readers of entries re-raise or translate. *)
Definition corrupt_or_caught (e : exn) : Prop := catches RunStoreCorruptionError e = true \/ caught e.

Lemma s3_corrupt_own b m : raises corrupt_or_caught (s3_corrupt b m).
Proof. destruct b; [by left|done]. Qed.
Lemma s3_checked_own f m v : raises corrupt_or_caught (s3_checked f m v).
Proof. unfold s3_checked, raise_. destruct v; try by left. destruct (f s); [done|by left]. Qed.
Lemma s3_mapping_own v : raises corrupt_or_caught (s3_mapping v).
Proof. destruct v; try by left. done. Qed.

Lemma entry_raises data : raises read_error (deserialize_entry data).
Proof.
  apply (raises_impl (fun e => catches RunStoreCorruptionError e = true)).
  { intros [c m l]. unfold read_error, catches. cbn [exn_cls]. destruct c; done. }
  unfold deserialize_entry. apply reading_own; [done|]. change (fun e => _ \/ caught e) with corrupt_or_caught.
  assert (forall {A} (r : result A), raises caught r -> raises corrupt_or_caught r) as Hl by (intros A [a|e]; cbn; unfold corrupt_or_caught; auto).
  repeat first
    [ apply s3_corrupt_own | apply s3_checked_own | apply Hl, json_loads_caught | apply Hl, field_caught | apply s3_mapping_own
    | apply Hl, serror_caught, run_record_raises | exact I | apply raises_bind; [|intros ? _] ].
Qed.

(** ** What the objects say *)

(** The rest of the world: provider executions and schedule messages. *)
Record rest : Type := Rest {
  re_executions : gmap (string * string) BackendHandle;
  re_deliveries : gmap string (list Z);
  re_acknowledged : list (list Z);
}.
Abbreviation shared := (bucket * rest)%type.

Section Spec.
Context (self : S3RunStore).

Lemma run_name_inj i j : run_name self i = run_name self j -> i = j.
Proof. unfold run_name. intros E%append_inj_r. by apply append_inj_l in E. Qed.

(** Objects of different kinds have different names. *)
Lemma run_not_attempt i j a : run_name self i <> attempt_path self j a.
Proof. unfold run_name, run_prefix, attempt_path. rewrite append_cat. by intros E%append_inj_r. Qed.
Lemma run_not_entry i e p k : run_name self i <> idempotency_path self e p k.
Proof. unfold run_name, run_prefix, idempotency_path. rewrite append_cat. by intros E%append_inj_r. Qed.
Lemma run_not_mutation i k : run_name self i <> mutation_path self k.
Proof. unfold run_name, run_prefix, mutation_path. rewrite append_cat. by intros E%append_inj_r. Qed.
Lemma attempt_not_entry j a e p k : attempt_path self j a <> idempotency_path self e p k.
Proof. unfold attempt_path, idempotency_path. by intros E%append_inj_r. Qed.
Lemma attempt_not_mutation j a k : attempt_path self j a <> mutation_path self k.
Proof. unfold attempt_path, mutation_path. by intros E%append_inj_r. Qed.
Lemma entry_not_mutation e p k k' : idempotency_path self e p k <> mutation_path self k'.
Proof. unfold idempotency_path, mutation_path. by intros E%append_inj_r. Qed.

Definition snapshot_in (k : string) (v : version) : option StoredRun :=
  match deserialize_run_record (vr_data v) with
  | Ok r => if bool_decide (run_name self (rr_run_id r) = k) then Some {| st_record := r; st_revision := vr_etag v |} else None
  | Raise _ => None
  end.
Definition attempt_in (k : string) (v : version) : option AttemptRecord :=
  match deserialize_attempt_record (vr_data v) with
  | Ok a => if bool_decide (attempt_path self (ar_run_id a) (ar_attempt_id a) = k) then Some a else None
  | Raise _ => None
  end.
Definition entry_path (e : IdempotencyEntry) : string :=
  idempotency_path self (ie_environment e) (ie_project e) (ie_key_sha256 e).
Definition entry_scope (e : IdempotencyEntry) : string * string * string :=
  (ie_environment e, ie_project e, ie_key_sha256 e).
Definition run_scope (r : RunRecord) : string * string * string :=
  (rr_environment r, rr_project r, rr_idempotency_key_sha256 r).

Definition all_in {A} (f : string -> version -> option A) (b : bucket) : list A :=
  map_to_list b ≫= fun p => omap (f p.1) p.2.

Lemma elem_of_all_in {A} (f : string -> version -> option A) b a :
  a ∈ all_in f b <-> exists k v, v ∈ versions b k /\ f k v = Some a.
Proof.
  unfold all_in. rewrite list_elem_of_bind. split.
  - intros ([k vs] & Ha & Hk). cbn in Ha. apply list_elem_of_omap in Ha as (v & Hv & E).
    exists k, v. apply elem_of_map_to_list in Hk. unfold versions. by rewrite Hk.
  - intros (k & v & Hv & E). unfold versions in Hv. destruct (b !! k) as [vs|] eqn:Hk; [|by apply not_elem_of_nil in Hv].
    exists (k, vs). split; [|by apply elem_of_map_to_list]. apply list_elem_of_omap. by exists v.
Qed.

Definition run_at (b : bucket) (i : string) : option RunRecord :=
  v ← current b (run_name self i); st ← snapshot_in (run_name self i) v; Some (st_record st).
Definition attempt_at (b : bucket) (k : string * string) : option AttemptRecord :=
  v ← current b (attempt_path self k.1 k.2); a ← attempt_in (attempt_path self k.1 k.2) v;
  if bool_decide ((ar_run_id a, ar_attempt_id a) = k) then Some a else None.
Definition entry_at (b : bucket) (k : string * string * string) : option IdempotencyEntry :=
  v ← current b (idempotency_path self k.1.1 k.1.2 k.2);
  match deserialize_entry (vr_data v) with
  | Ok e => if bool_decide (entry_scope e = k) then Some e else None
  | Raise _ => None
  end.

(** The abstraction: every version of the run objects, and what is current. *)
Definition snapshots (b : bucket) : list StoredRun := all_in snapshot_in b.
Definition shared_view (s : shared) : view :=
  {| v_runs := keyed (run_at s.1) ((fun st => rr_run_id (st_record st)) <$> snapshots s.1);
     v_snapshots := snapshots s.1;
     v_attempts := keyed (attempt_at s.1) ((fun a => (ar_run_id a, ar_attempt_id a)) <$> all_in attempt_in s.1);
     v_executions := re_executions s.2; v_deliveries := re_deliveries s.2; v_acknowledged := re_acknowledged s.2 |}.

Lemma snapshot_in_some k v st : snapshot_in k v = Some st <->
  deserialize_run_record (vr_data v) = Ok (st_record st) /\ st_revision st = vr_etag v /\ run_name self (rr_run_id (st_record st)) = k.
Proof.
  unfold snapshot_in. destruct (deserialize_run_record (vr_data v)) as [r|e]; [|by split; [|intros [? _]]].
  case_bool_decide as E; (split; [|]).
  - intros [= <-]. done.
  - intros ([= ->] & Hr & _). destruct st. cbn in *. by subst.
  - done.
  - intros ([= ->] & _ & Hk). done.
Qed.

Lemma elem_of_snapshots b st : st ∈ snapshots b <->
  exists v, v ∈ versions b (run_name self (rr_run_id (st_record st))) /\
    deserialize_run_record (vr_data v) = Ok (st_record st) /\ st_revision st = vr_etag v.
Proof.
  unfold snapshots. rewrite elem_of_all_in. split.
  - intros (k & v & Hv & (Hd & Hr & <-)%snapshot_in_some). by exists v.
  - intros (v & Hv & Hd & Hr). exists (run_name self (rr_run_id (st_record st))), v. split; [done|]. by apply snapshot_in_some.
Qed.

Lemma run_at_some b i r : run_at b i = Some r <->
  exists v, current b (run_name self i) = Some v /\ deserialize_run_record (vr_data v) = Ok r /\ rr_run_id r = i.
Proof.
  unfold run_at. split.
  - intros (v & Hv & (st & (Hd & Hr & Hi)%snapshot_in_some & [= <-])%bind_Some)%bind_Some. exists v. by apply run_name_inj in Hi.
  - intros (v & Hv & Hd & Hi). rewrite Hv. cbn. apply bind_Some. exists {| st_record := r; st_revision := vr_etag v |}.
    split; [|done]. apply snapshot_in_some. cbn. by rewrite Hi.
Qed.

Lemma view_runs s i : v_runs (shared_view s) !! i = run_at s.1 i.
Proof.
  cbn. apply lookup_keyed. intros [r (v & Hv & Hd & Hi)%run_at_some].
  apply list_elem_of_fmap. exists {| st_record := r; st_revision := vr_etag v |}. split; [done|].
  apply elem_of_snapshots. exists v. cbn. rewrite Hi. by apply current_version in Hv.
Qed.

Lemma attempt_at_some b k a : attempt_at b k = Some a <->
  exists v, current b (attempt_path self k.1 k.2) = Some v /\ deserialize_attempt_record (vr_data v) = Ok a /\
    (ar_run_id a, ar_attempt_id a) = k.
Proof.
  unfold attempt_at, attempt_in. split.
  - intros (v & Hv & (x & Hx & Ha)%bind_Some)%bind_Some. exists v.
    destruct (deserialize_attempt_record (vr_data v)) as [y|e]; [|done]. by repeat (case_bool_decide; simplify_eq/=).
  - intros (v & Hv & Hd & <-). rewrite Hv. cbn. rewrite Hd. rewrite bool_decide_true by done. cbn. by rewrite bool_decide_true.
Qed.

Lemma view_attempts s k : v_attempts (shared_view s) !! k = attempt_at s.1 k.
Proof.
  cbn. apply lookup_keyed. intros [a (v & Hv & Hd & Hk)%attempt_at_some].
  apply list_elem_of_fmap. exists a. split; [done|]. apply elem_of_all_in. exists (attempt_path self k.1 k.2), v.
  split; [by apply current_version|]. unfold attempt_in. rewrite Hd, bool_decide_true; [done|]. by rewrite <- Hk.
Qed.

Lemma entry_at_some b k e : entry_at b k = Some e <->
  exists v, current b (idempotency_path self k.1.1 k.1.2 k.2) = Some v /\ deserialize_entry (vr_data v) = Ok e /\ entry_scope e = k.
Proof.
  unfold entry_at. split.
  - intros (v & Hv & He)%bind_Some. exists v. destruct (deserialize_entry (vr_data v)) as [x|]; [|done].
    case_bool_decide; [|done]. by injection He as ->.
  - intros (v & Hv & Hd & Hk). rewrite Hv. cbn. by rewrite Hd, bool_decide_true.
Qed.

(** ** The invariant *)

Record bucket_ok (b : bucket) : Prop := {
  bo_tags k v v' : v ∈ versions b k -> v' ∈ versions b k -> vr_etag v = vr_etag v' -> vr_data v = vr_data v';
  bo_blank k v : v ∈ versions b k -> blank (vr_etag v) = false;
  bo_runs i v : v ∈ versions b (run_name self i) ->
    exists r e, run_value r /\ serialize_run_record r = Ok (vr_data v) /\ rr_run_id r = i /\
      entry_at b (run_scope r) = Some e /\ evolves (ie_initial_record e) r;
  bo_entries e p k v : v ∈ versions b (idempotency_path self e p k) ->
    current b (idempotency_path self e p k) = Some v /\
    exists x, entry_value x /\ serialize_entry x = Ok (vr_data v) /\ entry_path x = idempotency_path self e p k;
  bo_attempts i a v : v ∈ versions b (attempt_path self i a) ->
    current b (attempt_path self i a) = Some v /\
    exists x, attempt_permitted x /\ vr_data v = serialize_attempt_record x /\
      attempt_path self (ar_run_id x) (ar_attempt_id x) = attempt_path self i a;
}.

Definition good (s : shared) : Prop := bucket_ok s.1 /\ view_ok (shared_view s).

(** The objects of this store. *)
Definition owned (k : string) : Prop :=
  (exists i, k = run_name self i) \/ (exists i a, k = attempt_path self i a) \/ (exists e p x, k = idempotency_path self e p x).

(** Later states: the view moves forward, this store's versions are kept and its
    claims stand. *)
Record later (s s' : shared) : Prop := {
  lt_view : view_le (shared_view s) (shared_view s');
  lt_versions k v : owned k -> v ∈ versions s.1 k -> v ∈ versions s'.1 k;
  lt_entries k e : entry_at s.1 k = Some e -> entry_at s'.1 k = Some e;
}.

#[export] Instance later_preorder : PreOrder later.
Proof.
  split; [by intros s|]. intros s1 s2 s3 [V1 H1 E1] [V2 H2 E2]. split; [by etrans|auto|auto].
Qed.

(** What other clients may do: anything that keeps the invariant and only moves
    forward - in particular the operations of this store. *)
Definition interference (s s' : shared) : Prop := good s -> good s' /\ later s s'.

Lemma run_version b i v : bucket_ok b -> v ∈ versions b (run_name self i) ->
  exists r, run_value r /\ serialize_run_record r = Ok (vr_data v) /\ deserialize_run_record (vr_data v) = Ok r /\ rr_run_id r = i.
Proof.
  intros Hb Hv. destruct (bo_runs b Hb i v Hv) as (r & e & Hr & Hs & Hi & _). exists r. split_and!; try done.
  by apply run_record_back.
Qed.

Lemma version_snapshot b i v r : v ∈ versions b (run_name self i) -> deserialize_run_record (vr_data v) = Ok r ->
  rr_run_id r = i -> {| st_record := r; st_revision := vr_etag v |} ∈ snapshots b.
Proof. intros Hv Hd <-. apply elem_of_snapshots. by exists v. Qed.

(** A snapshot of a good bucket is a version of its run, claimed by an entry. *)
Lemma snapshot_claimed b st : bucket_ok b -> st ∈ snapshots b ->
  exists e, entry_at b (run_scope (st_record st)) = Some e /\ evolves (ie_initial_record e) (st_record st).
Proof.
  intros Hb (v & Hv & Hd & _)%elem_of_snapshots. destruct (bo_runs b Hb _ v Hv) as (r & e & Hr & Hs & Hi & He & Hev).
  rewrite (run_record_back r _ Hr Hs) in Hd. injection Hd as <-. by exists e.
Qed.

(** ** Writing a run *)

Section PutRun.
Context (b : bucket) (x : rest) (r : RunRecord) (data : list Z) (etag : string) (e : IdempotencyEntry).
Let i := rr_run_id r.
Let b' := put_version (run_name self i) (Version data etag) b.
Context (Hgood : good (b, x)) (Hr : run_value r) (Hs : serialize_run_record r = Ok data)
  (Htag : etag_of b (run_name self i) data etag) (Hold : forall r0, run_at b i = Some r0 -> evolves r0 r)
  (He : entry_at b (run_scope r) = Some e) (Hev : evolves (ie_initial_record e) r).

Lemma put_run_at j : run_at b' j = if decide (j = i) then Some r else run_at b j.
Proof.
  destruct (decide (j = i)) as [->|Hj].
  - apply run_at_some. exists (Version data etag). unfold b'. rewrite current_put_eq. split_and!; [done|by apply run_record_back|done].
  - unfold run_at, b'. rewrite current_put_ne; [done|]. by intros E%run_name_inj.
Qed.
Lemma put_run_attempts k : attempt_at b' k = attempt_at b k.
Proof. unfold attempt_at, b'. rewrite current_put_ne; [done|]. intros E. by apply (run_not_attempt i k.1 k.2). Qed.
Lemma put_run_entries k : entry_at b' k = entry_at b k.
Proof. unfold entry_at, b'. rewrite current_put_ne; [done|]. intros E. by apply (run_not_entry i k.1.1 k.1.2 k.2). Qed.

Lemma put_run_snapshots st : st ∈ snapshots b' <-> st = {| st_record := r; st_revision := etag |} \/ st ∈ snapshots b.
Proof.
  rewrite !elem_of_snapshots. split.
  - intros (v & [[Hk ->]|Hv]%elem_of_versions_put & Hd & Ht); [left|right; by exists v].
    cbn in Hd, Ht. rewrite (run_record_back r data Hr Hs) in Hd. destruct st. cbn in *. congruence.
  - intros [->|(v & Hv & Hd & Ht)]; cbn [st_record st_revision].
    + exists (Version data etag). unfold b'. fold i. rewrite versions_put_eq. split_and!; [left|by apply run_record_back|done].
    + exists v. split_and!; try done. unfold b'. destruct (decide (run_name self (rr_run_id (st_record st)) = run_name self i)) as [E|E].
      * rewrite E in Hv |- *. rewrite versions_put_eq. by right.
      * by rewrite versions_put_ne.
Qed.

Lemma put_run_later : later (b, x) (b', x).
Proof.
  split.
  - split; try reflexivity; try done.
    + intros j r0. rewrite !view_runs. cbn [fst]. rewrite put_run_at. intros H. destruct (decide (j = i)) as [->|]; [exists r; auto|by exists r0].
    + intros st Hst. by apply put_run_snapshots; right.
    + apply map_subseteq_spec. intros k a. rewrite !view_attempts. cbn [fst]. by rewrite put_run_attempts.
  - intros k v _ Hv. cbn [fst] in *. unfold b'. destruct (decide (k = run_name self i)) as [->|Hk].
    + rewrite versions_put_eq. by right.
    + by rewrite versions_put_ne.
  - intros k y. cbn [fst]. by rewrite put_run_entries.
Qed.

Lemma put_run_ok : bucket_ok b'.
Proof.
  destruct Hgood as [[T B U E A] _]. destruct Htag as [Hblank Hsame]. cbn [fst] in *. split.
  - intros k v v' [[-> ->]|Hv]%elem_of_versions_put [[Hk ->]|Hv']%elem_of_versions_put Heq; cbn in *; try done.
    + symmetry. by apply Hsame.
    + subst k. by apply Hsame.
    + by apply (T k).
  - intros k v [[-> ->]|Hv]%elem_of_versions_put; [done|by apply (B k)].
  - intros j v [[Hk ->]|Hv]%elem_of_versions_put.
    + apply run_name_inj in Hk as ->. exists r, e. by rewrite put_run_entries.
    + destruct (U j v Hv) as (r0 & e0 & ?). exists r0, e0. by rewrite put_run_entries.
  - intros y p k v [[Hk _]|Hv]%elem_of_versions_put; [by destruct (run_not_entry i y p k)|].
    destruct (E y p k v Hv) as [Hc Hx]. split; [|exact Hx]. unfold b'. rewrite current_put_ne; [exact Hc|]. intros Heq. by apply (run_not_entry i y p k).
  - intros j a v [[Hk _]|Hv]%elem_of_versions_put; [by destruct (run_not_attempt i j a)|].
    destruct (A j a v Hv) as [Hc Hx]. split; [|exact Hx]. unfold b'. rewrite current_put_ne; [exact Hc|]. intros Heq. by apply (run_not_attempt i j a).
Qed.

Lemma put_run_good : good (b', x).
Proof.
  pose proof put_run_later as L. destruct Hgood as [Hb [VR VS VA VE VK]]. split; [exact put_run_ok|]. split.
  - intros j r0. rewrite view_runs. cbn [fst]. rewrite put_run_at. destruct (decide (j = i)) as [->|].
    + by intros [= <-].
    + intros H. apply VR. by rewrite view_runs.
  - intros st. change (v_snapshots (shared_view (b', x))) with (snapshots b'). rewrite put_run_snapshots. intros [->|Hst].
    + split; [exact Hr|]. exists r. rewrite view_runs. cbn. rewrite put_run_at. by rewrite decide_True.
    + destruct (VS st Hst) as [Hv (r0 & Hr0 & Hev0)]. split; [done|].
      destruct (vl_runs _ _ (lt_view _ _ L) _ _ Hr0) as (r1 & Hr1 & Hev1). exists r1. split; [done|by etrans].
  - intros k a. rewrite view_attempts. cbn [fst]. rewrite put_run_attempts. intros H. apply VA. by rewrite view_attempts.
  - intros k Hk. rewrite view_attempts. cbn [fst]. rewrite put_run_attempts. rewrite <- (view_attempts (b, x)). by apply VE.
  - intros y Hy. eapply handed_over_stable; [exact (lt_view _ _ L)|]. by apply VK.
Qed.
End PutRun.

(** ** Writing a new object of another kind *)

Section PutNew.
Context (b : bucket) (x : rest) (k : string) (v : version).
Let b' := put_version k v b.
Context (Hgood : good (b, x)) (Hnew : current b k = None) (Hblank : blank (vr_etag v) = false)
  (Hrun : forall i, run_name self i <> k)
  (Hentry : forall e p y, k = idempotency_path self e p y ->
     exists z, entry_value z /\ serialize_entry z = Ok (vr_data v) /\ entry_path z = k)
  (Hattempt : forall i a, k = attempt_path self i a ->
     exists z, attempt_permitted z /\ vr_data v = serialize_attempt_record z /\
       attempt_path self (ar_run_id z) (ar_attempt_id z) = k).

Lemma new_run_at j : run_at b' j = run_at b j.
Proof. unfold run_at, b'. by rewrite current_put_ne. Qed.
Lemma new_snapshots st : st ∈ snapshots b' <-> st ∈ snapshots b.
Proof. rewrite !elem_of_snapshots. unfold b'. setoid_rewrite versions_put_ne; [done|apply Hrun]. Qed.

(** Whatever was current somewhere still is. *)
Lemma new_current j u : current b j = Some u -> current b' j = Some u.
Proof. intros H. unfold b'. rewrite current_put_ne; [done|]. intros ->. congruence. Qed.
Lemma new_attempts j a : attempt_at b j = Some a -> attempt_at b' j = Some a.
Proof. rewrite !attempt_at_some. intros (u & Hu & H). exists u. split; [by apply new_current|done]. Qed.
Lemma new_entries j e : entry_at b j = Some e -> entry_at b' j = Some e.
Proof. rewrite !entry_at_some. intros (u & Hu & H). exists u. split; [by apply new_current|done]. Qed.

Lemma new_later : later (b, x) (b', x).
Proof.
  split.
  - split; try reflexivity; try done.
    + intros j r0. rewrite !view_runs. cbn [fst]. rewrite new_run_at. intros H. by exists r0.
    + intros st Hst. by apply new_snapshots.
    + apply map_subseteq_spec. intros j a. rewrite !view_attempts. apply new_attempts.
  - intros j u _ Hu. cbn [fst] in *. unfold b'. destruct (decide (j = k)) as [->|Hj]; [rewrite versions_put_eq; by right|by rewrite versions_put_ne].
  - intros j e. cbn [fst]. apply new_entries.
Qed.

Lemma new_good : good (b', x).
Proof.
  pose proof new_later as L. destruct Hgood as [[T B U E A] [VR VS VA VE VK]]. cbn [fst] in *.
  pose proof (no_current _ _ Hnew) as Hnone. split; split.
  - intros j u u' [[-> ->]|Hu]%elem_of_versions_put [[Hk ->]|Hu']%elem_of_versions_put Heq; try done.
    + rewrite Hnone in Hu'. by apply not_elem_of_nil in Hu'.
    + subst j. rewrite Hnone in Hu. by apply not_elem_of_nil in Hu.
    + by apply (T j).
  - intros j u [[-> ->]|Hu]%elem_of_versions_put; [done|by apply (B j)].
  - intros j u [[Hk _]|Hu]%elem_of_versions_put; [by destruct (Hrun j)|].
    destruct (U j u Hu) as (r & e & Hr & Hs & Hi & He & Hev). exists r, e. split_and!; try done. by apply new_entries.
  - intros e p y u [[Hk ->]|Hu]%elem_of_versions_put.
    + unfold b'. rewrite Hk. split; [apply current_put_eq|by apply (Hentry e p y)].
    + destruct (E e p y u Hu) as [Hc Hx]. split; [by apply new_current|exact Hx].
  - intros i a u [[Hk ->]|Hu]%elem_of_versions_put.
    + unfold b'. rewrite Hk. split; [apply current_put_eq|by apply (Hattempt i a)].
    + destruct (A i a u Hu) as [Hc Hx]. split; [by apply new_current|exact Hx].
  - intros j r0. rewrite view_runs. cbn [fst]. rewrite new_run_at. intros H. apply VR. by rewrite view_runs.
  - intros st. change (v_snapshots (shared_view (b', x))) with (snapshots b'). rewrite new_snapshots. intros Hst.
    destruct (VS st Hst) as [Hv (r0 & Hr0 & Hev)]. split; [done|]. exists r0. rewrite view_runs in Hr0 |- *. cbn [fst] in *.
    by rewrite new_run_at.
  - intros j a. rewrite view_attempts. cbn [fst]. intros H. apply attempt_at_some in H as (u & Hu & Hd & Hj). split; [done|].
    destruct (decide (attempt_path self j.1 j.2 = k)) as [Ek|Ek].
    + unfold b' in Hu. rewrite Ek, current_put_eq in Hu. injection Hu as <-.
      destruct (Hattempt j.1 j.2) as (z & Hz & Hdata & _); [done|]. rewrite Hdata in Hd.
      rewrite attempt_record_reads in Hd by (try apply attempt_record_length; apply Hz). by injection Hd as <-.
    + apply (VA j). rewrite view_attempts. cbn [fst]. apply attempt_at_some. exists u. split; [|done].
      unfold b' in Hu. by rewrite current_put_ne in Hu.
  - intros j Hj. apply VE in Hj as [a Ha]. exists a. rewrite view_attempts in Ha |- *. by apply new_attempts.
  - intros y Hy. eapply handed_over_stable; [exact (lt_view _ _ L)|]. by apply VK.
Qed.
End PutNew.

(** ** Judgements over any client that behaves *)

Section Client.
Context {W : Type} {C : S3Client W} (ok : W -> Prop) (state : W -> shared).
Context (svc : s3_service interference (bucket_location self) ok state).

Definition held {A} (P : shared -> Prop) (m : M W A) (Q : A -> shared -> Prop) (E : exn -> Prop) : Prop :=
  forall w, ok w -> good (state w) -> P (state w) ->
  match m w with
  | (r, w') => (ok w' /\ good (state w')) /\ later (state w) (state w') /\
               match r with Ok a => Q a (state w') | Raise e => E e end
  end.

(** Facts about the bucket that other clients do not undo. *)
Class Lasting (P : shared -> Prop) : Prop := lasting s s' : later s s' -> P s -> P s'.

#[export] Instance lasting_pure (P : Prop) : Lasting (fun _ => P).
Proof. by intros s s' _ HP. Qed.
#[export] Instance lasting_and P Q : Lasting P -> Lasting Q -> Lasting (fun s => P s /\ Q s).
Proof. intros HP HQ s s' L [H1 H2]. split; by eapply lasting. Qed.
#[export] Instance lasting_forall {A} (P : A -> shared -> Prop) : (forall a, Lasting (P a)) -> Lasting (fun s => forall a, P a s).
Proof. intros HP s s' L H a. eapply lasting; [exact L|apply H]. Qed.
#[export] Instance lasting_exists {A} (P : A -> shared -> Prop) : (forall a, Lasting (P a)) -> Lasting (fun s => exists a, P a s).
Proof. intros HP s s' L [a H]. exists a. by eapply lasting. Qed.
#[export] Instance lasting_impl (P : Prop) Q : Lasting Q -> Lasting (fun s => P -> Q s).
Proof. intros HQ s s' L H HP. eapply lasting; [exact L|by apply H]. Qed.
#[export] Instance lasting_view P : Stable P -> Lasting (fun s => P (shared_view s)).
Proof. intros HP s s' L H. eapply stable; [exact (lt_view _ _ L)|exact H]. Qed.
#[export] Instance lasting_genuine st : Lasting (fun s => genuine (shared_view s) st).
Proof. exact (lasting_view (fun v => genuine v st) _). Qed.
#[export] Instance lasting_attempt k a : Lasting (fun s => v_attempts (shared_view s) !! k = Some a).
Proof. exact (lasting_view (fun v => v_attempts v !! k = Some a) _). Qed.
#[export] Instance lasting_version k v : owned k -> Lasting (fun s => v ∈ versions s.1 k).
Proof. intros Hk s s' L H. by eapply lt_versions. Qed.
#[export] Instance lasting_entry k e : Lasting (fun s => entry_at s.1 k = Some e).
Proof. intros s s' L H. by eapply lt_entries. Qed.

Lemma held_conseq {A} (P P' : shared -> Prop) (m : M W A) (Q Q' : A -> shared -> Prop) E :
  held P m Q E -> (forall s, good s -> P' s -> P s) -> (forall a s, good s -> Q a s -> Q' a s) -> held P' m Q' E.
Proof.
  intros H HP HQ w Hw Hg Hp. specialize (H w Hw Hg (HP _ Hg Hp)). destruct (m w) as [[a|e] w'];
    destruct H as ([Ho Hg'] & L & R); (split; [done|split; [done|]]); auto.
Qed.

Lemma held_pre {A} (P P' : shared -> Prop) (m : M W A) (Q : A -> shared -> Prop) E :
  (forall s, good s -> P' s -> P s) -> held P m Q E -> held P' m Q E.
Proof. intros HP H. by eapply held_conseq. Qed.
Lemma held_known {A} (F : Prop) (P : shared -> Prop) (m : M W A) (Q : A -> shared -> Prop) E :
  (forall s, good s -> P s -> F) -> (F -> held P m Q E) -> held P m Q E.
Proof. intros HF H w Hw Hg Hp. by apply (H (HF _ Hg Hp)). Qed.
Lemma held_any {A} (P : shared -> Prop) (m : M W A) (Q : A -> shared -> Prop) E : held (fun _ => True) m Q E -> held P m Q E.
Proof. intros H. by eapply held_conseq. Qed.

Lemma held_lift {A} (P : shared -> Prop) (r : result A) (Q : A -> shared -> Prop) (E : exn -> Prop) :
  (forall a s, r = Ok a -> good s -> P s -> Q a s) -> raises E r -> held P (lift r) Q E.
Proof. intros HQ HE w Hw Hg Hp. unfold lift. split; [done|split; [reflexivity|]]. destruct r; auto. Qed.

Lemma held_ret {A} (P : shared -> Prop) (a : A) (Q : A -> shared -> Prop) E : (forall s, good s -> P s -> Q a s) -> held P (mret a) Q E.
Proof. intros HQ. apply (held_lift P (Ok a)); [|done]. intros ? s [= <-]. auto. Qed.

Lemma held_raise {A} (P : shared -> Prop) c m (Q : A -> shared -> Prop) (E : exn -> Prop) : E (Exn c m []) -> held P (raiseM c m) Q E.
Proof. intros HE. by apply held_lift. Qed.

Lemma held_bind {A B} (P : shared -> Prop) (m : M W A) (Q : A -> shared -> Prop) (f : A -> M W B) (R : B -> shared -> Prop) E :
  held P m Q E -> (forall a, held (Q a) (f a) R E) -> held P (m ≫= f) R E.
Proof.
  intros Hm Hf w Hw Hg Hp. specialize (Hm w Hw Hg Hp). unfold mbind, M_bind.
  destruct (m w) as [[a|e] w']; [|done]. destruct Hm as ([Ho Hg'] & L & Ha). specialize (Hf a w' Ho Hg' Ha).
  destruct (f a w') as [r w'']. destruct Hf as (H1 & L' & R'). split; [done|split; [by etrans|done]].
Qed.

(** What lasts is still known after a step. *)
Lemma held_step {A B} (P : shared -> Prop) (m : M W A) (Q : A -> shared -> Prop) (f : A -> M W B) (R : B -> shared -> Prop) E :
  Lasting P -> held P m Q E -> (forall a, held (fun s => P s /\ Q a s) (f a) R E) -> held P (m ≫= f) R E.
Proof.
  intros HP Hm Hf. apply (held_bind P m (fun a s => P s /\ Q a s)); [|exact Hf]. intros w Hw Hg Hp. specialize (Hm w Hw Hg Hp).
  destruct (m w) as [[a|e] w']; [|done]. destruct Hm as (H1 & L & Ha). split; [done|split; [done|split; [|done]]]. by eapply lasting.
Qed.

Lemma held_pure {A B} (P : shared -> Prop) (r : result A) (f : A -> M W B) (R : B -> shared -> Prop) (E : exn -> Prop) :
  raises E r -> (forall a, r = Ok a -> held P (f a) R E) -> held P (lift r ≫= f) R E.
Proof. intros Hr Hf w Hw Hg Hp. rewrite lift_bind. destruct r as [a|e]; [by apply Hf|]. done. Qed.

Lemma held_conflict {A} (P : shared -> Prop) (m h : M W A) (Q : A -> shared -> Prop) (E : exn -> Prop) :
  Lasting P -> held P m Q E -> held P h Q E -> held P (on_conflict m h) Q E.
Proof.
  intros HP Hm Hh w Hw Hg Hp. specialize (Hm w Hw Hg Hp). unfold on_conflict, try_except.
  destruct (m w) as [[a|e] w']; destruct Hm as ([Ho Hg'] & L & R); [done|].
  destruct (catches RunStoreConflictError e); [|done].
  specialize (Hh w' Ho Hg' (HP _ _ L Hp)). destruct (h w') as [r w'']. destruct Hh as (H1 & L' & R').
  split; [done|split; [by etrans|done]].
Qed.

(** A request: what it does at its instant, from any state in which [P] still
    holds. *)
Lemma held_request {A} (P : shared -> Prop) (call : W -> answer A * W) effect (Q : answer A -> shared -> Prop) E :
  Lasting P -> (forall a, Lasting (Q a)) -> answers interference ok state call effect ->
  (forall b x a b', good (b, x) -> P (b, x) -> effect b a b' -> good (b', x) /\ later (b, x) (b', x) /\ Q a (b', x)) ->
  held P (request call) Q E.
Proof.
  intros HP HQ Hcall Heff w Hw Hg Hp. unfold request. specialize (Hcall w Hw). destruct (call w) as [a w'].
  destruct Hcall as (Ho & b & x & b' & R1 & He & R2). destruct (R1 Hg) as [G1 L1].
  destruct (Heff b x a b' G1 (HP _ _ L1 Hp) He) as (G2 & L2 & Ha). destruct (R2 G2) as [G3 L3].
  split; [done|split]; [do 2 (etrans; [eassumption|]); done|by eapply (HQ a)].
Qed.

(** A request that changes nothing. *)
Lemma held_read {A} (call : W -> answer A * W) effect (Q : answer A -> shared -> Prop) E :
  (forall a, Lasting (Q a)) -> answers interference ok state call effect ->
  (forall b x a b', good (b, x) -> effect b a b' -> b' = b /\ Q a (b, x)) ->
  held (fun _ => True) (request call) Q E.
Proof.
  intros HQ Hcall Heff. eapply (held_request _ call effect); [apply _|done|exact Hcall|].
  intros b x a b' G _ He. destruct (Heff b x a b' G He) as [-> Ha]. done.
Qed.

(** ** Errors *)

Lemma s3_corrupt_raises b m : raises read_error (s3_corrupt b m).
Proof. by destruct b. Qed.
Lemma s3_checked_raises f m v : raises read_error (s3_checked f m v).
Proof. unfold s3_checked, raise_. destruct v; try done. by destruct (f s). Qed.
Lemma checked_etag_raises e : raises read_error (checked_etag e).
Proof. unfold checked_etag, raise_. destruct e as [e|]; [|done]. by destruct (_ || _). Qed.
Lemma conflict_raises_read b c m : exn_subclass c RunStoreError = true -> raises read_error (reject_if b c m).
Proof. intros H. by destruct b. Qed.
Lemma s3_checked_ok f m s t : s3_checked f m (JStr s) = Ok t -> t = s /\ f s = true.
Proof. unfold s3_checked, raise_. destruct (f s) eqn:E; [|done]. by intros [= ->]. Qed.

Lemma checked_etag_some e t : checked_etag e = Ok t -> e = Some t /\ checked_etag (Some t) = Ok t.
Proof. unfold checked_etag, raise_. destruct e as [e|]; [|done]. destruct (_ || _) eqn:E; [done|]. intros [= ->]. by rewrite E. Qed.

(** A checked tag that is not blank is a run revision. *)
Lemma tag_is_revision r t : checked_etag (Some t) = Ok t -> blank t = false ->
  new_stored_run {| st_record := r; st_revision := t |} = Ok {| st_record := r; st_revision := t |}.
Proof.
  unfold checked_etag, raise_. destruct (_ || _) eqn:E; [done|]. intros _ Hb. apply orb_false_iff in E as [[_ Hl%Z.ltb_ge]%orb_false_iff Hn].
  unfold new_stored_run, StoredRun_post_init, require_opaque_value, contract_reject. cbn [st_revision]. rewrite Hb, Hn.
  rewrite (proj2 (Z.ltb_ge _ _)); [done|]. unfold MAX_OPAQUE_VALUE. lia.
Qed.

(** ** Reading an object *)

(** What a read may return: a version of the object. *)
Definition found (name : string) (o : option (list Z * string)) (s : shared) : Prop :=
  forall d t, o = Some (d, t) -> checked_etag (Some t) = Ok t /\
    (owned name -> exists v, v ∈ versions s.1 name /\ vr_data v = d /\ vr_etag v = t).

#[export] Instance lasting_found name o : Lasting (found name o).
Proof.
  intros s s' L H d t E. destruct (H d t E) as [Ht Hv]. split; [done|]. intros Ho. destruct (Hv Ho) as (v & Hin & Hd).
  exists v. split; [by eapply lt_versions|done].
Qed.

Lemma drain_ok max_bytes data s d : 0 <= max_bytes -> delivers (take (Z.to_nat (max_bytes + 1)) data) s ->
  drain max_bytes s = Ok d -> d = data.
Proof.
  intros Hm Hs. unfold drain, raise_. destruct (negb _); [done|].
  destruct (bd_read s (max_bytes + 1)) as [c| |] eqn:Er; destruct (bd_more s) as [m| |] eqn:Em; try done.
  intros [Hc [= ->]]%seq_ok. unfold s3_corrupt in Hc. apply reject_if_tt, orb_false_iff in Hc as [Hl%Z.ltb_ge Hx%negb_bool_decide_false].
  subst m. assert (0 < max_bytes + 1) as Hp by lia. pose proof (Hs _ _ Hp Er Em) as ->. rewrite length_take in Hl. apply take_ge. lia.
Qed.

Lemma drain_raises n s : raises read_error (drain n s).
Proof.
  unfold drain, raise_. destruct (negb _); [done|]. destruct (bd_read s (n + 1)), (bd_more s); try done.
  apply raises_bind; [apply s3_corrupt_raises|done].
Qed.

Lemma head_held name : held (fun _ => True) (s3_head_object self name) (fun _ _ => True) read_error.
Proof.
  unfold s3_head_object. eapply held_bind.
  - eapply (held_read _ (fun b _ b' => b' = b) (fun _ _ => True)); [intros a; apply _|apply (head_law _ _ _ _ svc)|]. intros b x a b' _ ->. done.
  - intros [r|e].
    + apply held_pure; [apply checked_etag_raises|intros etag _]. apply held_pure; [|intros size _; by apply held_ret].
      destruct (hr_length r) as [n|]; [|done]. apply raises_bind; [apply s3_corrupt_raises|done].
    + destruct (is_not_found e); [by apply held_ret|by apply held_raise].
Qed.

Lemma read_held name max_bytes : 0 <= max_bytes -> held (fun _ => True) (read_object self name max_bytes) (found name) read_error.
Proof.
  intros Hm. unfold read_object. generalize 3%nat. intros tries. induction tries as [|n IH]; cbn [read_object_at]; [by apply held_raise|].
  eapply held_bind; [apply head_held|]. intros [h|]; [|by apply held_ret].
  apply held_pure; [apply s3_corrupt_raises|intros u _]. eapply held_bind.
  - apply (held_read _ (get_effect name (oh_etag h) max_bytes) (fun a s => forall r, a = Answered r -> forall t, checked_etag (gr_etag r) = Ok t -> t = oh_etag h /\
      (owned name -> exists v, v ∈ versions s.1 name /\ vr_etag v = t /\
        forall str, gr_body r = Some str -> delivers (take (Z.to_nat (max_bytes + 1)) (vr_data v)) str)));
      [|apply (get_object_law _ _ _ _ svc)|].
    + intros a s s' L H r -> t Ht. destruct (H r eq_refl t Ht) as [E Hv]. split; [done|]. intros Ho. destruct (Hv Ho) as (v & Hin & Hr).
      exists v. split; [by eapply lt_versions|done].
    + intros b x a b' _ [-> Ha]. split; [done|]. intros r -> t (Et & _)%checked_etag_some.
      destruct Ha as (v & Hc & Htag & Hg & Hd). rewrite Hg in Et. injection Et as <-. split; [done|]. intros _. exists v.
      split; [by apply current_version|done].
  - intros [r|e].
    + apply held_pure; [apply checked_etag_raises|intros t Ht]. destruct (negb _) eqn:Et.
      * apply held_any, IH.
      * apply negb_bool_decide_false in Et. destruct (gr_body r) as [str|] eqn:Eb; [|by apply held_raise].
        apply held_pure; [apply drain_raises|intros d Hd]. apply held_ret. intros s _ H d' t' [= <- <-].
        destruct (H r eq_refl t Ht) as [<- Hv]. pose proof (checked_etag_some _ _ Ht) as [_ Hc]. split; [exact Hc|].
        intros Ho. destruct (Hv Ho) as (v & Hin & Hvt & Hdel). exists v. split_and!; try done. symmetry.
        by eapply drain_ok; [exact Hm|by apply Hdel|].
    + destruct (is_conditional_conflict e); [|by apply held_raise]. apply held_any, IH.
Qed.

(** ** Writing an object *)

Definition write_condition (expected : option string) : precondition :=
  match expected with Some e => IfMatch e | None => IfNoneMatch end.

Lemma write_held (P : shared -> Prop) name data expected (Q : string -> shared -> Prop) :
  Lasting P -> (forall e, Lasting (Q e)) ->
  (forall b x etag, good (b, x) -> P (b, x) -> condition b name (write_condition expected) -> etag_of b name data etag ->
     let s' := (put_version name (Version data etag) b, x) in good s' /\ later (b, x) s' /\ Q etag s') ->
  held P (write_object self name data expected)
    (fun t s => Q t s /\ checked_etag (Some t) = Ok t /\ blank t = false) read_error.
Proof.
  intros HP HQ Heff. unfold write_object. apply held_pure.
  { destruct expected; [|done]. apply raises_bind; [apply checked_etag_raises|done]. }
  intros c Hc. assert (c = write_condition expected) as ->.
  { destruct expected as [e|]; [|by injection Hc as <-]. apply bind_ok in Hc as (t & (Ht & _)%checked_etag_some & [= <-]). by injection Ht as <-. }
  eapply held_bind.
  - apply (held_request _ _ (put_effect name data (write_condition expected)) (fun a s => forall o, a = Answered o -> exists t, o = Some t /\ Q t s /\ blank t = false));
      [exact HP|apply _|apply (put_law _ _ _ _ svc)|].
    intros b x [o|e] b' G Hp He.
    + destruct He as (t & -> & Hcond & Ht & ->). destruct (Heff b x t G Hp Hcond Ht) as (G' & L & HQt). split_and!; try done.
      intros o [= <-]. exists t. split_and!; try done. apply Ht.
    + destruct He as [->|(t & Hcond & Ht & ->)]; [by split_and!|].
      destruct (Heff b x t G Hp Hcond Ht) as (G' & L & HQt). done.
  - intros [o|e].
    + apply held_lift; [|apply checked_etag_raises]. intros t s (-> & Ht)%checked_etag_some _ H.
      destruct (H _ eq_refl) as (t' & [= <-] & HQt & Hb). done.
    + destruct (is_conditional_conflict e); by apply held_raise.
Qed.

(** ** The operations *)

Lemma owned_run i : owned (run_name self i).
Proof. left. by exists i. Qed.
Lemma owned_attempt i a : owned (attempt_path self i a).
Proof. right. left. by exists i, a. Qed.
Lemma owned_entry e p k : owned (idempotency_path self e p k).
Proof. right. right. by exists e, p, k. Qed.

(** The snapshot a caller may hold of run [i]. *)
Definition snapshot_of (i : string) (o : option StoredRun) (s : shared) : Prop :=
  forall st, o = Some st -> genuine (shared_view s) st /\ rr_run_id (st_record st) = i.
#[export] Instance lasting_snapshot i o : Lasting (snapshot_of i o).
Proof. intros s s' L H st E. destruct (H st E) as [Hg Hi]. split; [|done]. by eapply genuine_stable; [exact (lt_view _ _ L)|]. Qed.

Lemma s3_get_held i : held (fun _ => True) (s3_get self i) (snapshot_of i) read_error.
Proof.
  unfold s3_get. apply held_pure; [apply s3_checked_raises|]. intros i' [-> _]%s3_checked_ok.
  eapply held_bind; [apply read_held; done|]. intros [[d t]|]; [|by apply held_ret].
  apply held_pure.
  { pose proof (run_record_raises d) as H. destruct (deserialize_run_record d) as [r|e]; [done|]. cbn [map_error raises] in *. by rewrite H. }
  intros r Hr. apply held_pure; [apply s3_corrupt_raises|]. intros [] Hi. apply reject_if_tt, negb_bool_decide_false in Hi.
  assert (deserialize_run_record d = Ok r) as Hd.
  { destruct (deserialize_run_record d) as [r'|e]; cbn [map_error] in Hr; [congruence|]. by destruct (catches _ e). }
  intros w Hw Hg Hf. destruct (Hf d t eq_refl) as [Ht Hv]. destruct (Hv (owned_run i)) as (v & Hin & <- & <-).
  pose proof (bo_blank _ (proj1 Hg) _ _ Hin) as Hb. rewrite lift_bind, (tag_is_revision r _ Ht Hb).
  split; [done|split; [reflexivity|]]. intros st [= <-]. split; [|done]. by apply (version_snapshot _ i).
Qed.

(** What stands behind a run in the hands of a claimant. *)
Definition claimed_run (e : IdempotencyEntry) (st : StoredRun) (s : shared) : Prop :=
  genuine (shared_view s) st /\ run_scope (st_record st) = entry_scope e /\ rr_run_id (st_record st) = ie_run_id e /\
  evolves (ie_initial_record e) (st_record st).
#[export] Instance lasting_claimed e st : Lasting (claimed_run e st).
Proof. intros s s' L (Hg & H). split; [|done]. by eapply genuine_stable; [exact (lt_view _ _ L)|]. Qed.

(** The entry of its scope. *)
Definition stands (e : IdempotencyEntry) (s : shared) : Prop := entry_at s.1 (entry_scope e) = Some e /\ entry_value e.
#[export] Instance lasting_stands e : Lasting (stands e).
Proof. intros s s' L [H Hv]. split; [by eapply lt_entries|done]. Qed.

Lemma validated_claim e st s : good s -> stands e s -> snapshot_of (ie_run_id e) (Some st) s ->
  s3_validate_snapshot_replay e (st_record st) = Ok tt -> claimed_run e st s.
Proof.
  intros [Hb _] [He _] Hst H. destruct (Hst st eq_refl) as [Hg Hi]. unfold s3_validate_snapshot_replay, s3_corrupt in H.
  apply reject_if_tt in H. rewrite !orb_false_iff, !negb_bool_decide_false in H. destruct H as [[[[_ E1] E2] E3] _].
  assert (run_scope (st_record st) = entry_scope e) as Hs by (unfold run_scope, entry_scope; congruence).
  destruct (snapshot_claimed s.1 st Hb Hg) as (e' & He' & Hev). rewrite Hs, He in He'. injection He' as <-. done.
Qed.

(** Creating the run of a standing entry. *)
Lemma s3_create_held e :
  held (stands e)
    (data ← lift (serialize_run_record (ie_initial_record e));
     revision ← write_object self (run_name self (ie_run_id e)) data None;
     stored ← lift (new_stored_run {| st_record := ie_initial_record e; st_revision := revision |}); mret (stored, false))
    (fun (p : StoredRun * bool) s => claimed_run e p.1 s) read_error.
Proof.
  eapply (held_known (entry_value e)); [by intros s _ [_ Hv]|]. intros [Hr Heq].
  assert (ie_run_id e = rr_run_id (ie_initial_record e)) as Hid by (rewrite Heq at 1; done).
  assert (entry_scope e = run_scope (ie_initial_record e)) as Hsc by (rewrite Heq at 1; done).
  apply held_pure; [unfold serialize_run_record; by rewrite serialize_as_ok|]. intros data Hdata. eapply held_bind.
  - apply (write_held (stands e) _ _ _ (fun t s => claimed_run e {| st_record := ie_initial_record e; st_revision := t |} s)); [apply _..|].
    intros b x t G [He _] Hc Ht s'. subst s'. cbn [fst] in He. rewrite Hsc in He. rewrite Hid in Hc, Ht |- *.
    assert (forall r0, run_at b (rr_run_id (ie_initial_record e)) = Some r0 -> evolves r0 (ie_initial_record e)) as Hnone.
    { intros r0 (v & Hv & _)%run_at_some. cbn in Hc. congruence. }
    assert (evolves (ie_initial_record e) (ie_initial_record e)) as Hrefl by done.
    split_and!; [by eapply put_run_good|by eapply put_run_later|]. split; [|done].
    apply (put_run_snapshots b (ie_initial_record e) data t Hr Hdata). by left.
  - intros t w Hw Hg (Hcl & Ht & Hb). rewrite lift_bind, (tag_is_revision _ _ Ht Hb). by split.
Qed.

(** The run an entry names, created from the entry when it is missing. *)
Lemma s3_snapshot_held m e : held (stands e) (s3_snapshot_of self m e) (fun (p : StoredRun * bool) s => claimed_run e p.1 s) read_error.
Proof.
  assert (forall st (b : bool), held (fun s => stands e s /\ snapshot_of (ie_run_id e) (Some st) s)
            (_ ← lift (s3_validate_snapshot_replay e (st_record st)); mret (st, b)) (fun (p : StoredRun * bool) s => claimed_run e p.1 s) read_error) as Hval.
  { intros st b. apply held_pure; [apply s3_corrupt_raises|]. intros [] Hv. apply held_ret. intros s Hg [He Hst]. by apply validated_claim. }
  unfold s3_snapshot_of. eapply held_step; [apply _|apply held_any, s3_get_held|].
  intros [st|]; [apply Hval|]. eapply (held_pre (stands e)); [by intros s _ [H _]|].
  apply held_conflict; [apply _|apply s3_create_held|].
  eapply held_step; [apply _|apply held_any, s3_get_held|]. intros [st|]; [apply Hval|by apply held_raise].
Qed.

(** An entry that was read stands. *)
Lemma entry_found e p k d t x s : good s -> found (idempotency_path self e p k) (Some (d, t)) s -> deserialize_entry d = Ok x -> stands x s.
Proof.
  intros [Hb _] Hf Hd. destruct (Hf d t eq_refl) as [_ Hv]. destruct (Hv (owned_entry e p k)) as (v & Hin & <- & _).
  destruct (bo_entries _ Hb e p k v Hin) as (Hc & y & Hy & Hs & Hp). rewrite (entry_reads y _ Hy Hs) in Hd. injection Hd as ->.
  split; [|done]. apply entry_at_some. exists v. split_and!; [|by apply entry_reads|done]. unfold entry_path in Hp. cbn. by rewrite Hp.
Qed.

Lemma s3_find_held e p k :
  held (fun _ => True) (s3_find_idempotency self e p k)
    (fun o s => forall st, o = Some st -> genuine (shared_view s) st /\ rr_environment (st_record st) = e /\
       rr_project (st_record st) = p /\ rr_idempotency_key_sha256 (st_record st) = k) read_error.
Proof.
  unfold s3_find_idempotency. do 3 (apply held_pure; [apply s3_checked_raises|]; intros ? [-> ?]%s3_checked_ok).
  apply held_pure.
  { unfold idempotency_name. do 3 (apply raises_bind; [apply s3_checked_raises|intros ? _]). done. }
  intros name Hname. assert (name = idempotency_path self e p k) as ->.
  { unfold idempotency_name in Hname. do 3 (apply bind_ok in Hname as (? & [-> _]%s3_checked_ok & Hname)). by injection Hname as <-. }
  eapply held_bind; [by apply read_held|]. intros [[d t]|]; [|by apply held_ret].
  apply held_pure; [apply entry_raises|]. intros x Hx. apply held_pure; [apply s3_corrupt_raises|]. intros [] Hc.
  apply reject_if_tt in Hc. rewrite !orb_false_iff, !negb_bool_decide_false in Hc. destruct Hc as [[<- <-] <-].
  eapply held_bind; [eapply held_pre; [intros s Hg Hf; by eapply entry_found|apply s3_snapshot_held]|].
  intros [st b]. apply held_ret. intros s _ (Hg & Hs & _) st' [= <-]. split; [done|]. unfold run_scope, entry_scope in Hs. cbn [fst] in Hs.
  by injection Hs as -> -> ->.
Qed.

Lemma entry_of_value r : run_value r -> entry_value (entry_of r).
Proof. by split. Qed.

(** Claiming the scope of [r]: the entry that stands for it. *)
Definition claims_scope (r : RunRecord) (p : IdempotencyEntry * bool) (s : shared) : Prop :=
  stands p.1 s /\ entry_scope p.1 = run_scope r /\ ie_run_id p.1 = rr_run_id r /\ (p.2 = true -> p.1 = entry_of r).
#[export] Instance lasting_scope r p : Lasting (claims_scope r p).
Proof. intros s s' L [H Hr]. split; [|done]. by eapply lasting_stands. Qed.

Lemma s3_entry_held r name : run_value r ->
  name = idempotency_path self (rr_environment r) (rr_project r) (rr_idempotency_key_sha256 r) ->
  held (fun _ => True) (data ← lift (serialize_entry (entry_of r)); _ ← write_object self name data None; mret (entry_of r, true))
    (claims_scope r) read_error.
Proof.
  intros Hr ->. pose proof (entry_of_value r Hr) as Hv. destruct (entry_bytes _ Hv) as (Hb & _ & _).
  apply held_pure; [by rewrite Hb|]. intros data Hdata. eapply held_bind.
  - apply (write_held (fun _ => True) _ _ _ (fun _ s => stands (entry_of r) s)); [apply _..|].
    intros b x t G _ Hc Ht s'. cbn [write_condition condition] in Hc. subst s'.
    assert (forall i, run_name self i <> idempotency_path self (rr_environment r) (rr_project r) (rr_idempotency_key_sha256 r)) as Hn
      by (intros i; apply run_not_entry).
    split_and!; [|by apply new_later|].
    + apply new_good; try done; [apply Ht| |].
      * intros e p y _. by exists (entry_of r).
      * intros i a E. symmetry in E. by apply attempt_not_entry in E.
    + split; [|done]. apply entry_at_some. exists (Version data t). cbn [fst]. split_and!; [apply current_put_eq|by apply entry_reads|done].
  - intros t. apply held_ret. intros s _ (Hst & _). by split_and!.
Qed.

Lemma s3_claim_held r : run_value r -> held (fun _ => True) (s3_claim self r) (fun c s => claims r c (shared_view s)) read_error.
Proof.
  intros Hr. unfold s3_claim. apply held_pure; [by apply conflict_raises_read|intros u _].
  apply held_pure.
  { unfold idempotency_name. do 3 (apply raises_bind; [apply s3_checked_raises|intros ? _]). done. }
  intros name Hname. assert (name = idempotency_path self (rr_environment r) (rr_project r) (rr_idempotency_key_sha256 r)) as ->.
  { unfold idempotency_name in Hname. do 3 (apply bind_ok in Hname as (? & [-> _]%s3_checked_ok & Hname)). by injection Hname as <-. }
  eapply (held_bind _ _ (claims_scope r)).
  - apply held_conflict; [apply _|by apply s3_entry_held|]. eapply held_bind; [by apply read_held|]. intros [[d t]|]; [|by apply held_raise].
    apply held_pure; [apply entry_raises|]. intros x Hx. unfold s3_validate_replay.
    apply held_pure; [apply raises_bind; [apply s3_corrupt_raises|intros ? _; by apply conflict_raises_read]|].
    intros [] Hv. apply seq_ok in Hv as [Hv _]. apply reject_if_tt in Hv. rewrite !orb_false_iff, !negb_bool_decide_false in Hv.
    destruct Hv as [[[E1 E2] E3] E4]. apply held_ret. intros s Hg Hf. split; [by eapply entry_found|].
    unfold entry_scope, run_scope. cbn [fst snd]. by rewrite E1, E2, E3.
  - intros [e created]. cbn [fst snd]. eapply held_step; [apply _|eapply held_pre; [by intros s _ [Hst _]|apply s3_snapshot_held]|].
    intros [st conflicted]. apply held_ret. intros s _ ((_ & Hsc & Hid & Hcr) & Hg & Hs & Hi & Hev). cbn [fst snd] in *.
    rewrite Hsc in Hs. unfold run_scope in Hs. injection Hs as E1 E2 E3. unfold claims. cbn [rc_stored rc_created].
    split_and!; try done; [|congruence]. intros [Hc _]%andb_true_iff. specialize (Hcr Hc). subst e. exact Hev.
Qed.

Lemma s3_save_held st r : evolves (st_record st) r -> run_value r ->
  held (fun s => genuine (shared_view s) st) (s3_save self st r)
    (fun st' s => genuine (shared_view s) st' /\ st_record st' = r) read_error.
Proof.
  intros Hev Hr. unfold s3_save. apply held_pure; [by apply conflict_raises_read|intros u _].
  pose proof (serialize_as_ok V5 _ Hr) as Hs. apply held_pure; [unfold serialize_run_record; by rewrite Hs|]. intros data Hdata.
  pose proof (ev_identity _ _ Hev) as Hid. unfold run_identity in Hid. injection Hid as E1 E2 E3 _ _ _ _ _ _ E10 _ _ _ _.
  eapply held_bind.
  - apply (write_held (fun s => genuine (shared_view s) st) _ _ _
      (fun t s => genuine (shared_view s) {| st_record := r; st_revision := t |})); [apply _..|].
    intros b x t G Hg (v & Hv & Htag) Ht s'. subst s'. change (st ∈ snapshots b) in Hg.
    destruct (snapshot_claimed b st (proj1 G) Hg) as (e & He & Hini).
    assert (forall r0, run_at b (rr_run_id r) = Some r0 -> evolves r0 r) as Hold.
    { intros r0 (v0 & Hv0 & Hd0 & _)%run_at_some. rewrite Hv in Hv0. injection Hv0 as <-.
      apply elem_of_snapshots in Hg as (v1 & Hin & Hd1 & Ht1). rewrite E1 in Hin.
      assert (vr_data v = vr_data v1) as Eq by (apply (bo_tags _ (proj1 G) (run_name self (rr_run_id r))); [by apply current_version|done|congruence]).
      rewrite Eq, Hd1 in Hd0. by injection Hd0 as <-. }
    assert (run_scope (st_record st) = run_scope r) as Hsc by (unfold run_scope; congruence). rewrite Hsc in He.
    assert (evolves (ie_initial_record e) r) as Hev' by by etrans.
    split_and!; [by eapply put_run_good|by eapply put_run_later|]. apply (put_run_snapshots b r data t Hr Hdata). by left.
  - intros t w Hw Hg (Hgen & Ht & Hb). rewrite (tag_is_revision r _ Ht Hb). by split.
Qed.

Lemma attempt_back a : attempt_value a -> deserialize_attempt_record (serialize_attempt_record a) = Ok a.
Proof. intros Ha. apply attempt_record_reads; [done|by apply attempt_record_length]. Qed.

Definition recorded (a : AttemptRecord) (s : shared) : Prop := v_attempts (shared_view s) !! (ar_run_id a, ar_attempt_id a) = Some a.

Lemma s3_append_held a : attempt_permitted a -> held (fun _ => True) (s3_append_attempt self a) (fun _ s => recorded a s) read_error.
Proof.
  intros Ha. unfold s3_append_attempt. apply held_pure.
  { unfold attempt_name. do 2 (apply raises_bind; [apply s3_checked_raises|intros ? _]). done. }
  intros name Hname. assert (name = attempt_path self (ar_run_id a) (ar_attempt_id a)) as ->.
  { unfold attempt_name in Hname. do 2 (apply bind_ok in Hname as (? & [-> _]%s3_checked_ok & Hname)). by injection Hname as <-. }
  cbv zeta. apply held_conflict; [apply _| |].
  - eapply held_bind.
    + apply (write_held (fun _ => True) _ _ _ (fun _ s => recorded a s)); [apply _..|].
      intros b x t G _ Hc Ht s'. cbn [write_condition condition] in Hc. subst s'.
      assert (forall i, run_name self i <> attempt_path self (ar_run_id a) (ar_attempt_id a)) as Hn by (intros i; apply run_not_attempt).
      split_and!; [|by apply new_later|].
      * apply new_good; try done; [apply Ht| |].
        -- intros e p y E. by apply attempt_not_entry in E.
        -- intros i j E. by exists a.
      * unfold recorded. rewrite view_attempts. apply attempt_at_some. exists (Version (serialize_attempt_record a) t). cbn [fst snd].
        split_and!; [apply current_put_eq|by apply attempt_back, Ha|done].
    + intros t. apply held_ret. by intros s _ [H _].
  - eapply held_bind; [by apply read_held|]. intros [[d t]|]; [|by apply held_raise].
    apply held_pure.
    { pose proof (attempt_record_raises d) as H. destruct (deserialize_attempt_record d); [done|]. cbn [map_error raises] in *. by rewrite H. }
    intros x Hx. apply held_lift; [|by apply conflict_raises_read]. intros u s Hu Hg Hf.
    apply reject_if_ok, negb_bool_decide_false in Hu. destruct (Hf d t eq_refl) as [_ Hv].
    destruct (Hv (owned_attempt _ _)) as (v & Hin & <- & _).
    destruct (bo_attempts _ (proj1 Hg) _ _ v Hin) as (Hc & y & Hy & Hd & Hp). rewrite Hd, attempt_back in Hx by apply Hy. injection Hx as <-.
    assert (y = a) as ->.
    { pose proof (attempt_back y (proj1 Hy)) as E1. pose proof (attempt_back a (proj1 Ha)) as E2. congruence. }
    unfold recorded. rewrite view_attempts. apply attempt_at_some. exists v. split_and!; [exact Hc|by rewrite Hd; apply attempt_back, Ha|done].
Qed.

(** ** Mutation claims *)

Lemma mutation_raises data : raises read_error (deserialize_mutation data).
Proof.
  apply (raises_impl (fun e => catches RunStoreCorruptionError e = true)).
  { intros [c m l]. unfold read_error, catches. cbn [exn_cls]. destruct c; done. }
  unfold deserialize_mutation. apply reading_own; [done|]. change (fun e => _ \/ caught e) with corrupt_or_caught.
  assert (forall {A} (r : result A), raises caught r -> raises corrupt_or_caught r) as Hl by (intros A [a|e]; cbn; unfold corrupt_or_caught; auto).
  repeat first
    [ apply s3_corrupt_own | apply s3_checked_own | apply Hl, json_loads_caught | apply Hl, field_caught | apply s3_mapping_own
    | exact I | apply raises_bind; [|intros ? _] ].
Qed.

Lemma s3_mapping_raises v : raises read_error (s3_mapping v).
Proof. by destruct v. Qed.

Lemma s3_mutation_held k o i b : held (fun _ => True) (s3_claim_mutation self k o i b) (fun _ _ => True) read_error.
Proof.
  unfold s3_claim_mutation. do 3 (apply held_pure; [apply s3_checked_raises|]; intros ? [-> ?]%s3_checked_ok).
  apply held_pure; [unfold json_loads, map_error; by destruct (loads b)|intros v _].
  apply held_pure; [apply s3_mapping_raises|intros value _]. cbv zeta. apply held_pure; [apply s3_corrupt_raises|intros u _].
  apply held_pure; [unfold mutation_name; by apply raises_bind; [apply s3_checked_raises|]|].
  intros name Hname. assert (name = mutation_path self k) as ->.
  { unfold mutation_name in Hname. apply bind_ok in Hname as (? & [-> _]%s3_checked_ok & Hname). by injection Hname as <-. }
  apply held_conflict; [apply _| |].
  - eapply held_bind.
    + apply (write_held (fun _ => True) _ _ _ (fun _ _ => True)); [apply _..|].
      intros c x t G _ Hc Ht s'. cbn [write_condition condition] in Hc. subst s'.
      assert (forall j, run_name self j <> mutation_path self k) as Hn by (intros j; apply run_not_mutation).
      split_and!; [|by apply new_later|done]. apply new_good; try done; [apply Ht| |].
      * intros e p y E. symmetry in E. by apply entry_not_mutation in E.
      * intros j a E. symmetry in E. by apply attempt_not_mutation in E.
    + intros t. by apply held_ret.
  - eapply held_bind; [by apply read_held|]. intros [[d t]|]; [|by apply held_raise].
    apply held_pure; [apply mutation_raises|intros x _]. apply held_pure; [by apply conflict_raises_read|intros ? _]. by apply held_ret.
Qed.

(** ** Listing *)

(** An entry of a page has the shape of a run's name. *)
Definition run_entry (entry : option string) : Prop :=
  exists name, entry = Some name /\ startswith (run_prefix self) name = true /\ endswith ".json" name = true /\
    opaque_id (run_id_of_name (run_prefix self) name) = true.

Lemma s3_listed_held entry :
  held (fun _ => True) (s3_listed_run self entry) (fun st s => genuine (shared_view s) st /\ run_entry entry) read_error.
Proof.
  unfold s3_listed_run. apply held_pure; [destruct entry; [|done]; apply raises_bind; [apply s3_corrupt_raises|done]|].
  intros name Hname. destruct entry as [name'|]; [|done]. apply seq_ok in Hname as [Hs [= ->]].
  apply reject_if_tt, orb_false_iff in Hs as [Hp%negb_false_iff He%negb_false_iff].
  apply held_pure; [apply s3_checked_raises|]. intros i [-> Hi]%s3_checked_ok. eapply held_bind; [apply s3_get_held|].
  intros [st|]; [|by apply held_raise]. apply held_ret. intros s _ H. split; [by apply (H st)|by exists name].
Qed.

Lemma s3_listed_all_held selected :
  held (fun _ => True) (s3_listed_runs self selected)
    (fun items s => length items = length selected /\ Forall run_entry selected /\ forall st, st ∈ items -> genuine (shared_view s) st) read_error.
Proof.
  induction selected as [|entry selected IH]; cbn [s3_listed_runs].
  - apply held_ret. intros s _ _. split_and!; [done|constructor|]. by intros st Hst%elem_of_nil.
  - eapply held_bind; [apply s3_listed_held|]. intros st. eapply held_step; [apply _|apply held_any, IH|].
    intros items. apply held_ret. intros s _ ((Hg & He) & Hl & Hf & Hi). split_and!; [cbn; congruence|by constructor|].
    intros st' [->|Hst]%elem_of_cons; [done|by apply Hi].
Qed.

Context (Hprefix : fullmatch S3_PREFIX (ss_prefix self) = true).

Lemma prefix_chars : (length (chars (ss_prefix self)) <= 512)%nat /\ Forall (fun c => (code c < 128)%N) (chars (ss_prefix self)).
Proof.
  apply fullmatch_spec in Hprefix. unfold S3_PREFIX in Hprefix.
  apply matches_cat_inv in Hprefix as (t & u & E & (c & -> & Hc)%matches_cls_inv & Hu).
  apply matches_cat_inv in Hu as (v & w & -> & [Hl Hv]%matches_upto_cls & (d & -> & Hd)%matches_cls_inv).
  change (String.list_ascii_of_string (ss_prefix self)) with (chars (ss_prefix self)) in E. rewrite E.
  assert (forall c, alnum c = true -> (code c < 128)%N) as H1 by (intros x; destruct x as [[] [] [] [] [] [] [] []]; vm_compute; congruence).
  assert (forall c, either alnum (one_of "._/-") c = true -> (code c < 128)%N) as H2 by (intros x; destruct x as [[] [] [] [] [] [] [] []]; vm_compute; congruence).
  split; [rewrite !length_app; cbn; lia|]. apply Forall_app. split; [by constructor; [apply H1|]|]. apply Forall_app.
  split; [|by constructor; [apply H1|]]. apply forallb_Forall in Hv. eapply Forall_impl; [exact Hv|exact H2].
Qed.

(** The name of a listed run, taken apart. *)
Lemma run_entry_shape name : run_entry (Some name) -> exists i, opaque_id i = true /\ name = run_name self i.
Proof.
  intros (n & [= <-] & Hs & He & Hi). exists (run_id_of_name (run_prefix self) name). split; [exact Hi|].
  assert (exists l, chars name = chars (run_prefix self) ++ l) as [l El].
  { clear -Hs. unfold startswith in Hs. revert name Hs. generalize (run_prefix self). intros p.
    induction p as [|c p IH]; intros name Hs; [by exists (chars name)|]. destruct name as [|d name]; [done|]. cbn in Hs.
    destruct (ascii_dec c d) as [->|]; [|done]. destruct (IH name Hs) as [l El]. exists l. cbn. by rewrite El. }
  unfold run_id_of_name in *. unfold endswith in He. apply bool_decide_eq_true in He. rewrite <- !length_chars in He.
  rewrite El in Hi, He |- *. rewrite drop_app_length in Hi |- *. rewrite length_app in Hi, He |- *.
  replace (length (chars (run_prefix self)) + length l - 5 - length (chars (run_prefix self)))%nat with (length l - 5)%nat in * by lia.
  assert (5 < length l)%nat as Hl.
  { destruct (decide (5 < length l)%nat) as [|Hn]; [done|]. replace (length l - 5)%nat with 0%nat in Hi by lia. vm_compute in Hi. done. }
  change (length (chars ".json")) with 5%nat in He.
  rewrite drop_app_ge in He by lia. replace (length (chars (run_prefix self)) + length l - 5 - length (chars (run_prefix self)))%nat with (length l - 5)%nat in He by lia.
  apply chars_inj. unfold run_name. rewrite !chars_app, chars_of_chars, <- He, take_drop. exact El.
Qed.

Lemma b64_length l : (3 * length (b64_encode l) <= 4 * (length l + 2))%nat.
Proof.
  induction l as [l IH] using (well_founded_induction (Wf_nat.well_founded_ltof _ (@length Z))). unfold Wf_nat.ltof in IH.
  destruct l as [|x [|y [|z l]]]; cbn [b64_encode length]; try lia. specialize (IH l ltac:(cbn; lia)). lia.
Qed.

(** The cursor after a listed run is one a page may carry. *)
Lemma s3_cursor_ok name : run_entry (Some name) -> require_opaque_value (Some (s3_encode_cursor name)) "run cursor" = Ok tt.
Proof.
  intros (i & Hi & ->)%run_entry_shape. destruct (opaque_chars i Hi) as [Ha Hl]. destruct prefix_chars as [Pl Pa].
  assert (chars (run_name self i) = chars (ss_prefix self) ++ chars "/runs/" ++ chars i ++ chars ".json") as Ec.
  { unfold run_name, run_prefix. by rewrite !chars_app, <- app_assoc. }
  assert (Forall (fun c => (code c < 128)%N) (chars (run_name self i))) as Hascii.
  { rewrite Ec. repeat (apply Forall_app; split); try done; repeat constructor. }
  unfold s3_encode_cursor, encode. rewrite encode_ascii by done.
  set (bytes := _ <$> _). assert (length bytes <= 651)%nat as Hb by (unfold bytes; rewrite length_fmap, Ec, !length_app; cbn; lia).
  assert (bytes <> []) as Hne by (unfold bytes; rewrite Ec; destruct (chars (ss_prefix self)); done).
  destruct (b64_encode_shape bytes) as (Hv & _ & Hn). pose proof (b64_length bytes) as H3.
  apply visible_opaque_value; rewrite ?py_len_chars, ?chars_of_chars; [exact Hv|by apply Hn|]. unfold MAX_OPAQUE_VALUE. lia.
Qed.

Lemma s3_decode_raises c p : raises read_error (s3_decode_cursor c p).
Proof.
  unfold s3_decode_cursor. apply raises_bind; [apply s3_corrupt_raises|intros _ _]. destruct (_ ≫= _); [|done].
  apply raises_bind; [apply s3_corrupt_raises|intros _ _]. apply raises_bind; [apply s3_checked_raises|done].
Qed.

Lemma s3_list_held c n :
  held (fun _ => True) (s3_list self c n)
    (fun p s => Z.of_nat (length (pg_items p)) <= n /\ forall st, st ∈ pg_items p -> genuine (shared_view s) st) read_error.
Proof.
  unfold s3_list. apply held_pure; [apply s3_corrupt_raises|]. intros [] Hn.
  apply reject_if_tt, negb_false_iff, andb_true_iff in Hn as [Hn1%Z.leb_le Hn2%Z.leb_le].
  apply held_pure; [destruct c; [|done]; apply raises_bind; [apply s3_decode_raises|done]|intros after _].
  eapply (held_bind _ _ (fun _ _ => True)).
  { unfold list_entries. eapply held_bind.
    - eapply (held_read _ (fun b _ b' => b' = b) (fun _ _ => True)); [intros a; apply _|apply (list_objects_law _ _ _ _ svc)|]. intros b x a b' _ ->. done.
    - intros [r|e]; [|by apply held_raise]. destruct (lr_contents r), (lr_truncated r); first [by apply held_ret|by apply held_raise]. }
  intros [entries truncated]. apply held_pure; [apply s3_corrupt_raises|intros u _]. cbv zeta.
  eapply held_bind; [apply s3_listed_all_held|]. intros items.
  eapply (held_known (length items = length (take (Z.to_nat n) entries) /\ Forall run_entry (take (Z.to_nat n) entries))); [by intros s _ (? & ? & _)|].
  intros [Hlen Hall]. rewrite length_take in Hlen. set (cursor := if negb (bool_decide (items = [])) && _ then s3_encode_cursor <$> _ else None).
  assert (StoredRunPage_post_init {| pg_items := items; pg_next_cursor := cursor |} = Ok tt) as ->.
  { unfold StoredRunPage_post_init, contract_reject. cbn [pg_items pg_next_cursor].
    rewrite (proj2 (Z.ltb_ge _ _)) by lia. cbn [reject_if mbind result_bind]. apply when_some_ok. intros t Ht. subst cursor.
    destruct (_ && _); [|done]. destruct (last (take (Z.to_nat n) entries)) as [entry|] eqn:El; [|done].
    apply last_Some_elem_of in El. rewrite Forall_forall in Hall. specialize (Hall _ El).
    destruct entry as [name|]; [|done]. cbn in Ht. injection Ht as <-. by apply s3_cursor_ok. }
  intros w Hw Hg (_ & _ & Hi). rewrite lift_bind. split; [done|split; [reflexivity|]]. cbn [pg_items]. split; [lia|exact Hi].
Qed.
End Client.
End Spec.

(** ** The contract *)

Lemma new_store_prefix bucket prefix owner t self : new_s3_run_store bucket prefix owner t = Ok self ->
  fullmatch S3_PREFIX (ss_prefix self) = true.
Proof.
  unfold new_s3_run_store, s3_corrupt. intros H. apply seq_ok in H as [_ H]. cbv zeta in H. apply seq_ok in H as [Hp H].
  apply seq_ok in H as [_ H]. apply seq_ok in H as [_ [= <-]]. cbn [ss_prefix].
  apply reject_if_tt in Hp. rewrite !orb_false_iff in Hp. destruct Hp as [[_ Hp] _]. by apply negb_false_iff.
Qed.

Section Laws.
Context (self : S3RunStore) {W : Type} {C : S3Client W} (ok : W -> Prop) (state : W -> shared).
Context (svc : s3_service (interference self) (bucket_location self) ok state).
Context (Hprefix : fullmatch S3_PREFIX (ss_prefix self) = true).

Definition s3_inv (w : W) : Prop := ok w /\ bucket_ok self (state w).1.
Definition s3_view (w : W) : view := shared_view self (state w).

Lemma held_keeps {A} (P : view -> Prop) (m : M W A) (Q : A -> view -> Prop) (E E' : exn -> Prop) w :
  held self ok state (fun s => P (shared_view self s)) m (fun a s => Q a (shared_view self s)) E -> P (s3_view w) -> (forall e, E e -> E' e) ->
  keeps s3_inv s3_view w m (fun a w' => Q a (s3_view w')) E'.
Proof.
  intros H HP HE [[Hw Hb] Hv]. specialize (H w Hw (conj Hb Hv) HP). destruct (m w) as [r w'].
  destruct H as ([Ho [Hb' Hv']] & L & R). split; [done|split; [exact (lt_view _ _ _ L)|]]. destruct r; auto.
Qed.

Program Definition s3_laws : StoreLaws W (HS := s3_store self) := {| inv := s3_inv; view_of := s3_view |}.
Next Obligation. intros w r Hr. exact (held_keeps (fun _ => True) _ (claims r) _ _ w (s3_claim_held self ok state svc r Hr) I read_store_error). Qed.
Next Obligation.
  intros w i. exact (held_keeps (fun _ => True) _ (fun o v => forall st, o = Some st -> genuine v st /\ rr_run_id (st_record st) = i)
    _ _ w (s3_get_held self ok state svc i) I (fun _ H => H)).
Qed.
Next Obligation.
  intros w e p k. exact (held_keeps (fun _ => True) _ (fun o v => forall st, o = Some st -> genuine v st /\ rr_environment (st_record st) = e /\
    rr_project (st_record st) = p /\ rr_idempotency_key_sha256 (st_record st) = k) _ _ w (s3_find_held self ok state svc e p k) I (fun _ H => H)).
Qed.
Next Obligation.
  intros w st r Hg He Hr. exact (held_keeps (fun v => genuine v st) _ (fun st' v => genuine v st' /\ st_record st' = r)
    _ _ w (s3_save_held self ok state svc st r He Hr) Hg read_store_error).
Qed.
Next Obligation.
  intros w a Ha. exact (held_keeps (fun _ => True) _ (fun _ v => v_attempts v !! (ar_run_id a, ar_attempt_id a) = Some a)
    _ _ w (s3_append_held self ok state svc a Ha) I (fun _ H => H)).
Qed.
Next Obligation.
  intros w c n. exact (held_keeps (fun _ => True) _ (fun p v => Z.of_nat (length (pg_items p)) <= n /\ forall st, st ∈ pg_items p -> genuine v st)
    _ _ w (s3_list_held self ok state svc Hprefix c n) I (fun _ H => H)).
Qed.
Next Obligation. done. Qed.
Next Obligation.
  intros w k o i b. exact (held_keeps (fun _ => True) _ (fun _ _ => True) _ _ w (s3_mutation_held self ok state svc k o i b) I (fun _ H => H)).
Qed.
Next Obligation. intros w Hw. done. Qed.
End Laws.

(** C13: the S3 store implements the abstract store of [Contract], the one the
    dispatcher and the lifecycle are verified against: over any client with S3's
    conditional writes and consistent reads, with requests failing before or
    after they take effect and other clients acting between any two of them,
    every operation keeps the promises - with the versions of the objects as the
    history of the runs, and although creating a run takes two objects. *)
Theorem s3_refines_contract (bucket prefix : string) (owner : option string) (timeout : bool) (self : S3RunStore)
    (W : Type) (C : S3Client W) (ok : W -> Prop) (state : W -> shared)
    (Hnew : new_s3_run_store bucket prefix owner timeout = Ok self)
    (Hsvc : s3_service (interference self) (bucket_location self) ok state) :
  exists L : StoreLaws W (HS := s3_store self),
    inv (StoreLaws := L) = s3_inv self ok state /\ view_of (StoreLaws := L) = s3_view self state.
Proof. by exists (s3_laws self ok state Hsvc (new_store_prefix _ _ _ _ _ Hnew)). Qed.
