(* ===== verification/RunStoreS3Recovery.v ===== *)
(** * A creation that was interrupted is completed ([control/s3_run_store.py])

    A run is created by two objects, its idempotency entry and its snapshot.
    Whoever stops between the two leaves an entry without a run; here: in a quiet
    period the next claim or lookup of the key creates the very run the entry
    holds, and from then on the run is there. *)

From S2P Require Import Prelude Regex PyStr Sha256 PyTime Json JsonParse JsonRead Identifiers PhysicalPlan Graph Orchestration RunCodec RunTransition RunBounds Contract RunStorePgSpec ObjectStore RunStoreS3 RunStoreS3Spec.

Local Open Scope string_scope.
Local Open Scope Z_scope.
Local Open Scope list_scope.

#[local] Arguments deserialize_run_record : simpl never.
#[local] Arguments serialize_run_record : simpl never.
#[local] Arguments deserialize_entry : simpl never.
#[local] Arguments serialize_entry : simpl never.
#[local] Arguments RunRecord_post_init : simpl never.

Section Recovery.
Context (self : S3RunStore) {W : Type} {C : S3Client W} (calm : nat -> W -> Prop) (state : W -> shared).
Context (quiet : s3_quiet (bucket_location self) calm state).

(** [m] returns [a] and leaves [s'], using [k] requests. *)
Definition runs {A} (k : nat) (m : M W A) (s : shared) (r : result A) (s' : shared) : Prop :=
  forall w n, calm (k + n) w -> state w = s -> exists w', m w = (r, w') /\ calm n w' /\ state w' = s'.

Lemma runs_lift {A} (r : result A) s : runs 0 (lift r) s r s.
Proof. intros w n Hc Hs. by exists w. Qed.

Lemma runs_bind {A B} k j (m : M W A) (f : A -> M W B) s a s' r s'' :
  runs k m s (Ok a) s' -> runs j (f a) s' r s'' -> runs (k + j) (m ≫= f) s r s''.
Proof.
  intros Hm Hf w n Hc Hs. rewrite <- Nat.add_assoc in Hc. destruct (Hm w (j + n)%nat Hc Hs) as (w' & E & Hc' & Hs').
  destruct (Hf w' n Hc' Hs') as (w'' & E' & H). exists w''. split; [|done]. unfold mbind, M_bind. by rewrite E.
Qed.

Lemma runs_raise {A B} k (m : M W A) (f : A -> M W B) s e s' : runs k m s (Raise e) s' -> runs k (m ≫= f) s (Raise e) s'.
Proof.
  intros Hm w n Hc Hs. destruct (Hm w n Hc Hs) as (w' & E & H). exists w'. split; [|done]. unfold mbind, M_bind. by rewrite E.
Qed.

(** A pure step whose result is known. *)
Lemma runs_pure {A B} k (r : result A) (f : A -> M W B) s a r' s' : r = Ok a -> runs k (f a) s r' s' -> runs k (lift r ≫= f) s r' s'.
Proof. intros -> Hf. exact (runs_bind 0 k _ _ s a s r' s' (runs_lift (Ok a) s) Hf). Qed.

Lemma runs_no_conflict {A} k (m h : M W A) s a s' : runs k m s (Ok a) s' -> runs k (on_conflict m h) s (Ok a) s'.
Proof.
  intros Hm w n Hc Hs. destruct (Hm w n Hc Hs) as (w' & E & H). exists w'. split; [|done]. unfold on_conflict, try_except. by rewrite E.
Qed.

Lemma runs_conflict {A} k j (m h : M W A) s e s' r s'' : catches RunStoreConflictError e = true ->
  runs k m s (Raise e) s' -> runs j h s' r s'' -> runs (k + j) (on_conflict m h) s r s''.
Proof.
  intros He Hm Hh w n Hc Hs. rewrite <- Nat.add_assoc in Hc. destruct (Hm w (j + n)%nat Hc Hs) as (w' & E & Hc' & Hs').
  destruct (Hh w' n Hc' Hs') as (w'' & E' & H). exists w''. split; [|done]. unfold on_conflict, try_except. by rewrite E, He.
Qed.

(** ** Single objects *)

Lemma runs_head name s : 
  match current s.1 name with
  | Some v => checked_etag (Some (vr_etag v)) = Ok (vr_etag v) ->
      runs 1 (s3_head_object self name) s (Ok (Some {| oh_etag := vr_etag v; oh_size := Z.of_nat (length (vr_data v)) |})) s
  | None => runs 1 (s3_head_object self name) s (Ok None) s
  end.
Proof.
  pose proof (fun w n Hc => quiet_head _ _ _ quiet w n name Hc) as H. unfold s3_head_object, request.
  destruct (current s.1 name) as [v|] eqn:Hv; [intros Ht|]; intros w n Hc Hs; specialize (H w n Hc); unfold mbind at 1, M_bind at 1;
    destruct (head_object (bucket_location self) name w) as [a w']; destruct H as (Hc' & Hs' & Ha); rewrite Hs, Hv in Ha; exists w'; rewrite Hs', Hs.
  - subst a. cbn [hr_etag hr_length]. rewrite Ht. unfold lift, mbind, M_bind. cbn. rewrite (proj2 (Z.ltb_ge _ _)) by lia. done.
  - destruct Ha as [status ->]. done.
Qed.

Lemma runs_absent name maximum s : current s.1 name = None -> runs 1 (read_object self name maximum) s (Ok None) s.
Proof.
  intros Hn. unfold read_object. cbn [read_object_at]. pose proof (runs_head name s) as H. rewrite Hn in H.
  exact (runs_bind 1 0 _ _ s None s _ _ H (runs_lift (Ok None) s)).
Qed.

(** A request whose answer varies with the world in what does not matter. *)
Lemma runs_request {A B} j (call : W -> answer A * W) (f : answer A -> M W B) s r s' :
  (forall w n, calm (S n) w -> state w = s -> exists a w', call w = (a, w') /\ calm n w' /\ state w' = s /\ runs j (f a) s r s') ->
  runs (1 + j) (request call ≫= f) s r s'.
Proof.
  intros H w n Hc Hs. destruct (H w (j + n)%nat Hc Hs) as (a & w' & E & Hc' & Hs' & Hf). unfold request, mbind, M_bind.
  rewrite E. exact (Hf w' n Hc' Hs').
Qed.

Lemma drain_reads maximum data str : bd_closes str = true -> bd_more str = Bytes [] ->
  (forall m, maximum < m -> bd_read str m = Bytes (take (Z.to_nat (maximum + 1)) data)) ->
  0 <= maximum -> Z.of_nat (length data) <= maximum -> drain maximum str = Ok data.
Proof.
  intros Hcl Hmo Hr Hm Hl. unfold drain. rewrite Hcl, Hmo, Hr by lia. cbn [negb]. rewrite take_ge by lia. unfold s3_corrupt.
  by rewrite (proj2 (Z.ltb_ge _ _)) by lia.
Qed.

Lemma runs_read_at tries name maximum s v : current s.1 name = Some v -> checked_etag (Some (vr_etag v)) = Ok (vr_etag v) ->
  0 <= maximum -> Z.of_nat (length (vr_data v)) <= maximum ->
  runs 2 (read_object_at self (S tries) name maximum) s (Ok (Some (vr_data v, vr_etag v))) s.
Proof.
  intros Hv Ht Hm Hl. cbn [read_object_at]. pose proof (runs_head name s) as H. rewrite Hv in H.
  eapply (runs_bind 1 1); [exact (H Ht)|]. cbv beta iota. cbn [oh_size oh_etag].
  apply (runs_pure 1 _ _ s tt); [unfold s3_corrupt; by rewrite (proj2 (Z.ltb_ge _ _)) by lia|].
  apply (runs_request 0). intros w n Hc Hs. assert (current (state w).1 name = Some v) as Hv' by by rewrite Hs.
  pose proof (quiet_get _ _ _ quiet w n name maximum v Hc Hm Hv') as G.
  destruct (get_object (bucket_location self) name (vr_etag v) maximum w) as [a w'] eqn:E.
  destruct G as (Hc' & Hs' & str & -> & Hcl & Hmo & Hr). eexists _, w'. split; [reflexivity|]. split; [exact Hc'|]. split; [congruence|].
  cbn [gr_etag gr_body]. apply (runs_pure 0 _ _ s _ _ _ Ht). rewrite bool_decide_true by done. cbn [negb].
  apply (runs_pure 0 _ _ s (vr_data v)); [by apply drain_reads|]. exact (runs_lift (Ok (Some (vr_data v, vr_etag v))) s).
Qed.

Lemma runs_read name maximum s v : current s.1 name = Some v -> checked_etag (Some (vr_etag v)) = Ok (vr_etag v) ->
  0 <= maximum -> Z.of_nat (length (vr_data v)) <= maximum ->
  runs 2 (read_object self name maximum) s (Ok (Some (vr_data v, vr_etag v))) s.
Proof. apply (runs_read_at 2). Qed.

(** A tag a quiet service gives. *)
Definition fine_tag (t : string) : Prop := checked_etag (Some t) = Ok t /\ blank t = false.

Lemma runs_create name data s : current s.1 name = None ->
  forall w n, calm (1 + n) w -> state w = s -> exists t w', fine_tag t /\
    write_object self name data None w = (Ok t, w') /\ calm n w' /\ state w' = (put_version name (Version data t) s.1, s.2).
Proof.
  intros Hn w n Hc Hs. pose proof (quiet_put _ _ _ quiet w n name data IfNoneMatch Hc) as H. unfold write_object.
  unfold lift, request, mbind, M_bind. destruct (put_object _ name data IfNoneMatch w) as [a w']. rewrite Hs in H.
  destruct H as [Hc' H]. rewrite decide_True in H by done. destruct H as (t & -> & Hb & Hl & Hnl & Hs').
  assert (checked_etag (Some t) = Ok t) as Ht.
  { unfold checked_etag. rewrite Hnl, (proj2 (Z.ltb_ge _ _)) by done. destruct t; [done|reflexivity]. }
  exists t, w'. split; [done|]. by rewrite Ht.
Qed.

Lemma runs_taken name data s v : current s.1 name = Some v ->
  runs 1 (write_object self name data None) s (Raise (Exn RunStoreConflictError "The S3 run-store precondition failed." [])) s.
Proof.
  intros Hv w n Hc Hs. pose proof (quiet_put _ _ _ quiet w n name data IfNoneMatch Hc) as H. unfold write_object.
  unfold lift, request, mbind, M_bind. destruct (put_object _ name data IfNoneMatch w) as [a w']. rewrite Hs in H.
  destruct H as [Hc' H]. rewrite decide_False in H by (cbn; congruence). destruct H as (Hs' & status & ->). exists w'. by rewrite Hs'.
Qed.

(** ** The snapshot of an entry *)

Lemma runs_get i v r s : opaque_id i = true -> current s.1 (run_name self i) = Some v -> fine_tag (vr_etag v) ->
  run_value r -> serialize_run_record r = Ok (vr_data v) -> rr_run_id r = i ->
  runs 2 (s3_get self i) s (Ok (Some {| st_record := r; st_revision := vr_etag v |})) s.
Proof.
  intros Hi Hv [Ht Hb] Hr Hd Hid. unfold s3_get.
  apply (runs_pure 2 _ _ s i); [unfold s3_checked_opaque, s3_checked; by rewrite Hi|].
  eapply (runs_bind 2 0); [apply runs_read; [exact Hv|exact Ht|done|by apply (run_record_length r)]|]. cbv beta iota.
  apply (runs_pure 0 _ _ s r); [by rewrite (run_record_back r _ Hr Hd)|].
  apply (runs_pure 0 _ _ s tt); [unfold s3_corrupt; by rewrite bool_decide_true|].
  apply (runs_pure 0 _ _ s _ _ _ (tag_is_revision r _ Ht Hb)). exact (runs_lift (Ok (Some _)) s).
Qed.

Lemma runs_get_absent i s : opaque_id i = true -> current s.1 (run_name self i) = None -> runs 1 (s3_get self i) s (Ok None) s.
Proof.
  intros Hi Hn. unfold s3_get. apply (runs_pure 1 _ _ s i); [unfold s3_checked_opaque, s3_checked; by rewrite Hi|].
  exact (runs_bind 1 0 _ _ s None s _ _ (runs_absent _ MAX_RUN_BYTES s Hn) (runs_lift (Ok None) s)).
Qed.

(** [m] creates the run of [e], with at most [k] requests, and the run is there. *)
Definition creates_run {A} (k : nat) (m : M W A) (answer : StoredRun -> A) (e : IdempotencyEntry) (s : shared) : Prop :=
  forall w n, calm (k + (2 + n)) w -> state w = s ->
  exists t data w1 w2, let st := {| st_record := ie_initial_record e; st_revision := t |} in
    m w = (Ok (answer st), w1) /\ serialize_run_record (ie_initial_record e) = Ok data /\
    state w1 = (put_version (run_name self (ie_run_id e)) (Version data t) s.1, s.2) /\
    s3_get self (ie_run_id e) w1 = (Ok (Some st), w2) /\ calm n w2 /\ state w2 = state w1.

Lemma creates_after {A B} k j (m : M W A) (f : A -> M W B) a answer e s :
  runs k m s (Ok a) s -> creates_run j (f a) answer e s -> creates_run (k + j) (m ≫= f) answer e s.
Proof.
  intros Hm Hf w n Hc Hs. rewrite <- Nat.add_assoc in Hc. destruct (Hm w _ Hc Hs) as (w' & E & Hc' & Hs').
  destruct (Hf w' n Hc' Hs') as (t & data & w1 & w2 & E' & H). exists t, data, w1, w2. split; [|exact H].
  unfold mbind, M_bind. by rewrite E.
Qed.

Lemma creates_pure {A B} j (r : result A) (f : A -> M W B) a answer e s :
  r = Ok a -> creates_run j (f a) answer e s -> creates_run j (lift r ≫= f) answer e s.
Proof. intros -> Hf. exact (creates_after 0 j _ _ a answer e s (runs_lift (Ok a) s) Hf). Qed.

Lemma creates_then {A B} j (m : M W A) (f : A -> M W B) answer answer' e s :
  creates_run j m answer e s -> (forall st w, f (answer st) w = (Ok (answer' st), w)) -> creates_run j (m ≫= f) answer' e s.
Proof.
  intros Hm Hf w n Hc Hs. destruct (Hm w n Hc Hs) as (t & data & w1 & w2 & E & H). exists t, data, w1, w2. split; [|exact H].
  unfold mbind, M_bind. by rewrite E, Hf.
Qed.

Lemma snapshot_created m e s : entry_value e -> current s.1 (run_name self (ie_run_id e)) = None ->
  creates_run 2 (s3_snapshot_of self m e) (fun st => (st, false)) e s.
Proof.
  intros [Hr He] Hn. assert (ie_run_id e = rr_run_id (ie_initial_record e)) as Hid by (rewrite He at 1; done).
  destruct (run_identifiers _ (rv_post _ Hr)) as (Hi & _). rewrite <- Hid in Hi. unfold s3_snapshot_of.
  apply (creates_after 1 1 _ _ None); [by apply runs_get_absent|]. pose proof (serialize_as_ok V5 _ Hr) as Hd.
  set (data := canonical_json _) in Hd.
  intros w n Hc Hs. destruct (runs_create _ data s Hn w (2 + n) Hc Hs) as (t & w1 & [Ht Hb] & Hw & Hc1 & Hs1).
  assert (current (state w1).1 (run_name self (ie_run_id e)) = Some (Version data t)) as Hcur by (rewrite Hs1; apply current_put_eq).
  destruct (runs_get (ie_run_id e) _ (ie_initial_record e) (state w1) Hi Hcur (conj Ht Hb) Hr Hd (eq_sym Hid) w1 n Hc1 eq_refl)
    as (w2 & Hg & Hc2 & Hs2).
  exists t, data, w1, w2. split_and!; try done. unfold on_conflict, try_except. unfold serialize_run_record. rewrite Hd.
  rewrite lift_bind. unfold mbind at 1, M_bind at 1. rewrite Hw. by rewrite lift_bind, (tag_is_revision _ _ Ht Hb).
Qed.

(** Reading the entry of a scope, whoever wrote it. *)
Lemma runs_entry e data tag s : entry_value e -> serialize_entry e = Ok data -> checked_etag (Some tag) = Ok tag ->
  current s.1 (entry_path self e) = Some (Version data tag) ->
  runs 2 (read_object self (entry_path self e) S3_MAX_IDEMPOTENCY_BYTES) s (Ok (Some (data, tag))) s.
Proof.
  intros Hv Hd Ht Hc. destruct (entry_bytes e Hv) as (Hb & _ & Hl). rewrite Hd in Hb.
  apply (runs_read _ _ s (Version data tag) Hc Ht); [done|]. cbn [vr_data].
  assert (forall u v : list Z, Ok u = Ok v -> u = v) as Hinj by (by intros u v [= ->]). by rewrite (Hinj _ _ Hb).
Qed.

Lemma entry_name e : entry_value e ->
  idempotency_name self (ie_environment e) (ie_project e) (ie_key_sha256 e) = Ok (entry_path self e) /\
  portable_id (ie_environment e) = true /\ portable_id (ie_project e) = true /\ is_sha256 (ie_key_sha256 e) = true.
Proof.
  intros [Hr He]. destruct (run_identifiers _ (rv_post _ Hr)) as (_ & Hp & Hq & Hk & _).
  assert (portable_id (ie_environment e) = true) as Hp' by (rewrite He; exact Hp).
  assert (portable_id (ie_project e) = true) as Hq' by (rewrite He; exact Hq).
  assert (is_sha256 (ie_key_sha256 e) = true) as Hk' by (rewrite He; exact Hk).
  split; [|done]. unfold idempotency_name, s3_checked_portable, s3_checked_sha256, s3_checked. by rewrite Hp', Hq', Hk'.
Qed.

(** C14: a creation that stopped between its two objects is completed: when the
    entry of a key is stored and its run is not, then in a quiet period looking
    the key up, or claiming it again for the same submission, creates exactly the
    run of the entry - not the one of the new claim - answers with it without
    calling it created, and finds it stored from then on. *)
Theorem interrupted_creation_completed (e : IdempotencyEntry) (data : list Z) (tag : string) (s : shared)
    (Hv : entry_value e) (Hd : serialize_entry e = Ok data) (Htag : checked_etag (Some tag) = Ok tag)
    (Hentry : current s.1 (entry_path self e) = Some (Version data tag))
    (Hmissing : current s.1 (run_name self (ie_run_id e)) = None) :
  creates_run 4 (s3_find_idempotency self (ie_environment e) (ie_project e) (ie_key_sha256 e)) Some e s /\
  forall r, run_value r -> s3_validate_initial_record r = Ok tt -> run_scope r = entry_scope e ->
    rr_run_id r = ie_run_id e -> rr_submission_sha256 r = ie_submission_sha256 e ->
    creates_run 5 (s3_claim self r) (fun st => {| rc_stored := st; rc_created := false |}) e s.
Proof.
  destruct (entry_name e Hv) as (Hname & Hp & Hq & Hk). pose proof (runs_entry e data tag s Hv Hd Htag Hentry) as Hread.
  pose proof (entry_reads e data Hv Hd) as Hentryd. split.
  - unfold s3_find_idempotency, s3_checked_portable, s3_checked_sha256, s3_checked. rewrite Hp, Hq, Hk.
    do 3 (eapply creates_pure; [reflexivity|]). eapply creates_pure; [exact Hname|].
    apply (creates_after 2 2 _ _ _ _ _ _ Hread). cbv beta iota. eapply creates_pure; [exact Hentryd|].
    eapply (creates_pure _ _ _ tt); [unfold s3_corrupt; by rewrite !bool_decide_true|].
    by eapply creates_then; [by apply snapshot_created|].
  - intros r Hr Hinit Hsc Hid Hsub. unfold run_scope, entry_scope in Hsc. injection Hsc as E1 E2 E3. unfold s3_claim.
    eapply creates_pure; [exact Hinit|]. rewrite E1, E2, E3. eapply creates_pure; [exact Hname|].
    apply (creates_after 3 2 _ _ (e, false)).
    + pose proof (entry_bytes _ (entry_of_value r Hr)) as (Hb & _ & _). eapply (runs_conflict 1 2 _ _ s (Exn RunStoreConflictError "The S3 run-store precondition failed." [])); [reflexivity| |].
      * apply (runs_pure 1 _ _ s _ _ _ Hb). eapply runs_raise, runs_taken. exact Hentry.
      * eapply (runs_bind 2 0); [exact Hread|]. cbv beta iota. apply (runs_pure 0 _ _ s e); [exact Hentryd|].
        apply (runs_pure 0 _ _ s tt); [unfold s3_validate_replay, s3_corrupt; by rewrite E1, E2, E3, Hid, Hsub, !bool_decide_true|].
        exact (runs_lift (Ok (e, false)) s).
    + by eapply creates_then; [by apply snapshot_created|].
Qed.
End Recovery.
