(* ===== verification/RunStoreS3Instances.v ===== *)
(** * A bucket to run the S3 store on

    A service that behaves as [ObjectStore] says, with its weather: other
    clients, refused requests and lost answers.  The contract holds there, and
    runs are claimed, saved, listed and recovered in concrete buckets. *)

From S2P Require Import Prelude Regex PyStr Sha256 PyTime Json JsonParse JsonRead Identifiers PhysicalPlan Graph Orchestration RunCodec RunTransition RunBounds Contract ObjectStore RunStoreS3 RunStoreS3Spec RunStoreS3Recovery.

Local Open Scope string_scope.
Local Open Scope Z_scope.
Local Open Scope list_scope.

(** ** The service *)

Inductive s3_event : Type :=
  | Others (f : shared -> shared)
  | Answers
  | Refuses (e : client_error)
  | LosesAnswer (e : client_error).

Record s3_world : Type := S3World { sw_shared : shared; sw_weather : list s3_event }.

Inductive s3_fate : Type := Prompt | Refused (e : client_error) | Lost (e : client_error).

Fixpoint s3_settle (s : shared) (es : list s3_event) : shared * s3_fate * list s3_event :=
  match es with
  | [] => (s, Prompt, [])
  | Others f :: es => s3_settle (f s) es
  | Answers :: es => (s, Prompt, es)
  | Refuses e :: es => (s, Refused e, es)
  | LosesAnswer e :: es => (s, Lost e, es)
  end.

(** A tag longer than any of the object so far. *)
Definition tag_size (vs : list version) : nat := foldr Nat.max O (map (fun v => String.length (vr_etag v)) vs).
Definition next_tag (vs : list version) : string := of_chars (replicate (S (tag_size vs)) "e"%char).

Definition precondition_failed : client_error := ClientError (Some "PreconditionFailed") (Some 412).
Definition no_such_key : client_error := ClientError (Some "404") (Some 404).

Definition stored (k : string) (data : list Z) (s : shared) : shared :=
  (put_version k (Version data (next_tag (versions s.1 k))) s.1, s.2).

Definition sim_put (l : location) (k : string) (data : list Z) (c : precondition) (w : s3_world) : answer (option string) * s3_world :=
  let '(s, fate, es) := s3_settle (sw_shared w) (sw_weather w) in
  if bool_decide (condition s.1 k c) then
    match fate with
    | Prompt => (Answered (Some (next_tag (versions s.1 k))), S3World (stored k data s) es)
    | Refused e => (Failed e, S3World s es)
    | Lost e => (Failed e, S3World (stored k data s) es)
    end
  else (Failed match fate with Prompt => precondition_failed | Refused e | Lost e => e end, S3World s es).

Definition sim_read {A} (f : bucket -> answer A) (w : s3_world) : answer A * s3_world :=
  let '(s, fate, es) := s3_settle (sw_shared w) (sw_weather w) in
  (match fate with Prompt => f s.1 | Refused e | Lost e => Failed e end, S3World s es).

Definition stream_of (content : list Z) : body :=
  Body (fun n => if Z.of_nat (length content) <=? n then Bytes content else ReadFails) (Bytes []) true.

Definition sim_head (k : string) (b : bucket) : answer head_response :=
  match current b k with
  | Some v => Answered (HeadResponse (Some (vr_etag v)) (Some (Z.of_nat (length (vr_data v)))))
  | None => Failed no_such_key
  end.
Definition sim_get (k etag : string) (last : Z) (b : bucket) : answer get_response :=
  match current b k with
  | Some v =>
      if bool_decide (vr_etag v = etag)
      then Answered (GetResponse (Some etag) (Some (stream_of (take (Z.to_nat (last + 1)) (vr_data v)))))
      else Failed precondition_failed
  | None => Failed no_such_key
  end.
Definition sim_list (prefix : string) (n : Z) (after : option string) (b : bucket) : answer list_response :=
  let names := py_sorted str_leb
    (filter (fun k => startswith prefix k && match after with Some a => negb (str_leb k a) | None => true end = true) (fst <$> map_to_list b)) in
  Answered (ListResponse (Some (Some <$> take (Z.to_nat n) names)) (Some (n <? Z.of_nat (length names)))).

#[export] Instance sim_client : S3Client s3_world := {
  put_object := sim_put;
  head_object := fun _ k => sim_read (sim_head k);
  get_object := fun _ k etag last => sim_read (sim_get k etag last);
  list_objects_v2 := fun _ p n after => sim_read (sim_list p n after);
}.

(** ** It behaves *)

Lemma tag_size_ge vs v : v ∈ vs -> (String.length (vr_etag v) <= tag_size vs)%nat.
Proof. unfold tag_size. intros H. induction vs as [|u vs IH]; [by apply not_elem_of_nil in H|]. apply elem_of_cons in H as [->|H]; cbn; [lia|specialize (IH H); lia]. Qed.
Lemma tag_size_le vs n : (forall v, v ∈ vs -> (String.length (vr_etag v) <= n)%nat) -> (tag_size vs <= n)%nat.
Proof.
  unfold tag_size. induction vs as [|v vs IH]; cbn; intros H; [lia|]. pose proof (H v ltac:(left)).
  specialize (IH (fun u Hu => H u ltac:(by right))). lia.
Qed.
Lemma next_tag_length vs : String.length (next_tag vs) = S (tag_size vs).
Proof. unfold next_tag. by rewrite <- length_chars, chars_of_chars, length_replicate. Qed.
Lemma next_tag_text vs : blank (next_tag vs) = false /\ has_char newline (next_tag vs) = false.
Proof.
  unfold next_tag, blank, has_char. rewrite !chars_of_chars. split; [done|]. induction (S (tag_size vs)) as [|n IH]; [done|exact IH].
Qed.

Lemma next_tag_etag b k data : etag_of b k data (next_tag (versions b k)).
Proof.
  split; [apply next_tag_text|]. intros v Hv E. pose proof (tag_size_ge _ _ Hv) as H. rewrite E, next_tag_length in H. lia.
Qed.

Section Sim.
Context (self : S3RunStore).

Definition s3_admissible (e : s3_event) : Prop :=
  match e with Others f => forall s, interference self s (f s) | _ => True end.
Definition sim_ok (w : s3_world) : Prop := Forall s3_admissible (sw_weather w).

#[local] Instance interference_preorder : PreOrder (interference self).
Proof.
  split; [by intros s Hs|]. intros s1 s2 s3 H1 H2 G. destruct (H1 G) as [G2 L2]. destruct (H2 G2) as [G3 L3]. split; [done|by etrans].
Qed.

Lemma s3_settle_ok s es s' fate es' : s3_settle s es = (s', fate, es') -> Forall s3_admissible es ->
  interference self s s' /\ Forall s3_admissible es'.
Proof.
  revert s; induction es as [|e es IH]; intros s; cbn.
  - by intros [= <- <- <-] _.
  - intros H [He Hes]%Forall_cons. destruct e as [f| | |]; try (injection H as <- <- <-; done).
    destruct (IH (f s) H Hes) as [Hi Hes']. split; [|done]. etrans; [apply He|exact Hi].
Qed.

Lemma sim_read_answers {A} (f : bucket -> answer A) (effect : bucket -> answer A -> bucket -> Prop) :
  (forall b, effect b (f b) b) -> (forall b e, effect b (Failed e) b) -> answers (interference self) sim_ok sw_shared (sim_read f) effect.
Proof.
  intros Hf He w Hw. unfold sim_read. destruct (s3_settle (sw_shared w) (sw_weather w)) as [[s fate] es] eqn:E.
  destruct (s3_settle_ok _ _ _ _ _ E Hw) as [Hi Hes]. split; [exact Hes|]. destruct s as [b x]. exists b, x, b.
  split; [exact Hi|split; [|cbn; reflexivity]]. cbn [fst]. destruct fate; auto.
Qed.

Lemma sim_service : s3_service (interference self) (bucket_location self) sim_ok sw_shared.
Proof.
  split; intros.
  - intros w Hw. cbn [put_object sim_client]. unfold sim_put.
    destruct (s3_settle (sw_shared w) (sw_weather w)) as [[s fate] es] eqn:E. destruct (s3_settle_ok _ _ _ _ _ E Hw) as [Hi Hes].
    destruct s as [b x]. cbn [fst] in *. pose proof (next_tag_etag b k data) as Ht. case_bool_decide as Hc.
    + destruct fate as [|e|e]; (split; [exact Hes|]);
        [exists b, x, (stored k data (b, x)).1|exists b, x, b|exists b, x, (stored k data (b, x)).1];
        (split; [exact Hi|split; [|cbn; reflexivity]]); [by eexists|by left|by right; eexists].
    + split; [exact Hes|]. exists b, x, b. split; [exact Hi|split; [by left|cbn; reflexivity]].
  - by apply sim_read_answers.
  - apply sim_read_answers; [|done]. intros b. split; [done|]. unfold sim_get. destruct (current b k) as [v|] eqn:Hv; [|done].
    case_bool_decide as He; [|done]. exists v. split_and!; try done. intros s [= <-] n chunk Hn. unfold stream_of. cbn.
    destruct (_ <=? n); [|done]. by intros [= <-].
  - by apply sim_read_answers.
Qed.

(** Quiet for [n] requests: no weather, and tags short enough for [n] more. *)
Definition sim_calm (n : nat) (w : s3_world) : Prop :=
  sw_weather w = [] /\ (n <= 512)%nat /\ forall k v, v ∈ versions (sw_shared w).1 k -> (String.length (vr_etag v) + n <= 512)%nat.

Lemma sim_calm_less n w : sim_calm (S n) w -> sim_calm n w.
Proof. intros (H1 & H2 & H3). split_and!; [done|lia|]. intros k v Hv. specialize (H3 k v Hv). lia. Qed.

Lemma sim_calm_read {A} (f : bucket -> answer A) w n : sim_calm (S n) w ->
  sim_read f w = (f (sw_shared w).1, w).
Proof. intros (Hw & _). unfold sim_read. destruct w as [s es]. cbn in *. by subst. Qed.

Lemma sim_quiet : s3_quiet (bucket_location self) sim_calm sw_shared.
Proof.
  split.
  - intros w n k data c Hc. cbn [put_object sim_client]. unfold sim_put. destruct Hc as (Hw & Hn & Ht). rewrite Hw. cbn [s3_settle].
    destruct (next_tag_text (versions (sw_shared w).1 k)) as [Hb Hnl].
    assert (tag_size (versions (sw_shared w).1 k) <= 512 - S n)%nat as Hsize.
    { apply tag_size_le. intros v Hv. specialize (Ht k v Hv). lia. }
    pose proof (next_tag_length (versions (sw_shared w).1 k)) as Hl.
    destruct (decide (condition (sw_shared w).1 k c)) as [Hk|Hk]; [rewrite bool_decide_true by done|rewrite bool_decide_false by done].
    + split; [split_and!; [done|lia|]|].
      * intros j v. cbn [sw_shared stored fst]. intros [[-> ->]|Hv]%elem_of_versions_put; [cbn [vr_etag]; lia|]. specialize (Ht j v Hv). lia.
      * eexists. split_and!; try done. unfold py_len. lia.
    + split; [by apply sim_calm_less|]. split; [done|]. by eexists.
  - intros w n k Hc. cbn [head_object sim_client]. rewrite (sim_calm_read _ w n Hc). split; [by apply sim_calm_less|]. split; [done|].
    unfold sim_head. destruct (current _ k); [done|]. by eexists.
  - intros w n k last v Hc Hlast Hv. cbn [get_object sim_client]. rewrite (sim_calm_read _ w n Hc). split; [by apply sim_calm_less|]. split; [done|].
    unfold sim_get. rewrite Hv, bool_decide_true by done. eexists. split; [reflexivity|]. split_and!; [done..|]. intros m Hm. unfold stream_of. cbn.
    rewrite (proj2 (Z.leb_le _ _)); [done|]. rewrite length_take. lia.
Qed.
End Sim.

(** ** Concrete buckets *)

Definition sample_store : S3RunStore := {| ss_bucket := "dander-runs"; ss_prefix := "dander-control/v1"; ss_owner := Some "123456789012" |}.

Example sample_store_new :
  new_s3_run_store "dander-runs" "/dander-control/v1/" (Some "123456789012") true = Ok sample_store.
Proof. vm_compute. reflexivity. Qed.

Definition no_rest : rest := Rest ∅ ∅ [].

Lemma no_versions k v : v ∈ versions ∅ k -> False.
Proof. unfold versions. rewrite lookup_empty. by intros H%not_elem_of_nil. Qed.

Lemma empty_bucket_good self : good self (∅, no_rest).
Proof.
  split; [split; intros; exfalso; by eapply no_versions|]. split.
  - intros i r. rewrite view_runs. intros (v & Hv & _)%run_at_some. by apply current_version, no_versions in Hv.
  - intros st Hst. apply elem_of_snapshots in Hst as (v & Hv & _). by apply no_versions in Hv.
  - intros k a. rewrite view_attempts. intros (v & Hv & _)%attempt_at_some. by apply current_version, no_versions in Hv.
  - intros k [h Hh]. done.
  - intros b Hb. by apply not_elem_of_nil in Hb.
Qed.

Definition sample_record : RunRecord := queued_record sample_submission.
Definition sample_entry : IdempotencyEntry := entry_of sample_record.
Definition sample_entry_bytes : list Z := match serialize_entry sample_entry with Ok d => d | Raise _ => [] end.

(** A bucket in which a claim stopped after its first object. *)
Definition interrupted : shared :=
  ({[entry_path sample_store sample_entry := [Version sample_entry_bytes "e"]]}, no_rest).

Definition outcome_of {A B} (f : A -> B) (r : result A * s3_world) : result B := match r.1 with Ok a => Ok (f a) | Raise e => Raise e end.

(** Claiming, claiming again and listing. *)
Example sample_claims :
  let w := S3World (∅, no_rest) [] in
  let c := s3_claim sample_store sample_record w in
  outcome_of (fun c => (rc_created c, st_revision (rc_stored c))) c = Ok (true, "e") /\
  outcome_of rc_created (s3_claim sample_store sample_record c.2) = Ok false /\
  outcome_of (fun p => map st_revision (pg_items p)) (s3_list sample_store None 5 c.2) = Ok ["e"].
Proof. vm_compute. split_and!; reflexivity. Qed.

(** The first write takes effect although its answer is lost; the second attempt
    finds its own entry and is cut off before the run; the third completes it. *)
Example sample_interrupted :
  let timeout := ClientError None None in
  let w := S3World (∅, no_rest) [LosesAnswer timeout; Answers; Answers; Answers; Refuses timeout] in
  let c := s3_claim sample_store sample_record w in
  is_ok c.1 = false /\
  let c' := s3_claim sample_store sample_record c.2 in
  is_ok c'.1 = false /\
  outcome_of rc_created (s3_claim sample_store sample_record c'.2) = Ok false.
Proof. vm_compute. split_and!; reflexivity. Qed.

Lemma s3_refines_contract_witness :
  new_s3_run_store "dander-runs" "/dander-control/v1/" (Some "123456789012") true = Ok sample_store /\
  good sample_store (∅, no_rest) /\
  exists L : StoreLaws s3_world (HS := s3_store sample_store),
    inv (StoreLaws := L) = s3_inv sample_store (sim_ok sample_store) sw_shared /\ view_of (StoreLaws := L) = s3_view sample_store sw_shared.
Proof.
  split; [vm_compute; reflexivity|]. split; [apply empty_bucket_good|].
  apply (s3_refines_contract "dander-runs" "/dander-control/v1/" (Some "123456789012") true sample_store s3_world sim_client (sim_ok sample_store) sw_shared);
    [vm_compute; reflexivity|apply sim_service].
Defined.

Lemma interrupted_creation_completed_witness :
  creates_run sample_store sim_calm sw_shared 4
    (s3_find_idempotency sample_store (ie_environment sample_entry) (ie_project sample_entry) (ie_key_sha256 sample_entry))
    Some sample_entry interrupted /\
  sim_calm 7 (S3World interrupted []).
Proof.
  split.
  - refine (proj1 (interrupted_creation_completed sample_store sim_calm sw_shared (sim_quiet sample_store) sample_entry sample_entry_bytes "e"
      interrupted (entry_of_value _ sample_value) _ _ _ _)); vm_compute; reflexivity.
  - split; [reflexivity|]. split; [lia|]. intros k v. unfold interrupted, versions. cbn [sw_shared fst]. intros Hv.
    assert (vr_etag v = "e") as ->; [|cbn; lia].
    destruct (decide (k = entry_path sample_store sample_entry)) as [->|Hk].
    + rewrite lookup_singleton_eq in Hv. cbn [default] in Hv. by apply list_elem_of_singleton in Hv as ->.
    + rewrite lookup_singleton_ne in Hv by done. by apply not_elem_of_nil in Hv.
Defined.

Lemma records_fit_witness :
  run_value sample_record /\
  exists data, serialize_run_record sample_record = Ok data /\ Z.of_nat (length data) <= MAX_RUN_BYTES.
Proof.
  split; [exact sample_value|]. eexists. split; [vm_compute; reflexivity|].
  eapply (proj1 records_fit sample_record); [exact sample_value|vm_compute; reflexivity].
Defined.
