(* ===== verification/GraphStore.v ===== *)
(** * Graph persistence ([control/graph_store.py])

    Canonical documents, the checks, fingerprints and cursors every graph store
    shares, the operations of the [GraphStore] protocol, and the in-memory store.
    The transport model of a graph document - a pydantic model with free-form
    connector settings - is a parameter with the three calls the store makes of
    it. *)

From S2P Require Import Prelude Regex PyStr Sha256 PyTime Json JsonParse JsonRead Base64 Identifiers PhysicalPlan RunCodec.

Local Open Scope string_scope.
Local Open Scope Z_scope.
Local Open Scope list_scope.

Definition MAX_GRAPH_DOCUMENT_BYTES : Z := 5 * 1024 * 1024.
Definition MAX_GRAPH_PAGE_SIZE : Z := 100.
Definition MAX_CURSOR_BYTES : Z := 512.
Definition MAX_REVISION_LENGTH : Z := 512.
Definition CREDENTIAL_FIELD_NAMES : list string :=
  ["access_token"; "api_key"; "auth_token"; "client_secret"; "consumer_secret"; "credential"; "credentials"; "password";
   "private_key"; "secret"; "token_secret"].

(** ** Secret references ([is_secret_reference] of pipeline/request_spec.py) *)

Definition non_space (c : ascii) : bool := negb (is_space c).
Definition segment (c : ascii) : bool := non_space c && negb (Ascii.eqb c "/").
Definition SECRET_MANAGER_RESOURCE_RE : re :=
  Cat (lit "projects/") (Cat (plus (Cls segment)) (Cat (lit "/secrets/") (Cat (plus (Cls segment))
    (Cat (lit "/versions/") (plus (Cls segment)))))).
Definition ENV_REFERENCE_RE : re :=
  Cat (lit "env:") (Cat (Cls (either lower (either upper (one_of "_")))) (Star (Cls (either alnum (one_of "_"))))).
Definition SECRET_REFERENCE_RE : re := Cat (lit "secret:") (plus (Cls non_space)).
Definition PROVIDER_SECRET_REFERENCE_RE : re :=
  Cat (Alt (lit "env") (Alt (lit "gcp-sm") (Alt (lit "aws-sm") (Alt (lit "azure-kv") (lit "oci-vault")))))
    (Cat (lit "://") (head_tail alnum (either alnum (one_of "._:/@-")) 0 1023)).

(** [re.match] of a pattern that ends in a dollar: a final newline is allowed. *)
Definition match_line (r : re) (s : string) : bool := fullmatch (Cat r (opt (Cls (Ascii.eqb newline)))) s.

Definition is_secret_reference (value : string) : bool :=
  match_line SECRET_REFERENCE_RE value || match_line ENV_REFERENCE_RE value
  || match_line SECRET_MANAGER_RESOURCE_RE value || match_line PROVIDER_SECRET_REFERENCE_RE value.

(** ** Canonical documents *)

(** Whether [_reject_inline_credentials] and [_reject_non_finite] pass a value. *)
Definition credential_slot (key : string) (item : json) : bool :=
  bool_decide (casefold key ∈ CREDENTIAL_FIELD_NAMES)
  && match item with JNull => false | JStr s => negb (is_secret_reference s) | _ => true end.
Fixpoint no_inline_credentials (value : json) : bool :=
  match value with
  | JObj l => forallb (fun kv : string * json => negb (credential_slot kv.1 kv.2) && no_inline_credentials kv.2) l
  | JArr l => forallb no_inline_credentials l
  | _ => true
  end.
Fixpoint finite (value : json) : bool :=
  match value with
  | JFloat t => negb (bool_decide (t ∈ ["NaN"; "Infinity"; "-Infinity"]))
  | JObj l => forallb (fun kv : string * json => finite kv.2) l
  | JArr l => forallb finite l
  | _ => true
  end.

(** [PipelineGraphDocument.model_validate] of a JSON value, [model_dump], and
    [graph_to_payload(to_domain())]; [None] is a validation error. *)
Class GraphModel (document : Type) : Type := {
  model_validate : json -> option document;
  model_dump : document -> json;
  domain_payload : document -> option json;
}.

Section Documents.
Context {document : Type} `{GraphModel document}.

Record CanonicalGraphDocument : Type := { cg_document : document; cg_data : list Z; cg_content_sha256 : string }.

Definition document_error {A} : result A :=
  raise_ GraphStoreDocumentError "The graph document does not match Dander's canonical graph contract.".

(** [canonicalize_graph_document]: of a JSON value, or of a transport document,
    which validates as itself. *)
Definition canonicalize_transport (transport : option document) (max_bytes : Z) : result CanonicalGraphDocument :=
  _ ← reject_if (max_bytes <=? 0) GraphStoreDocumentError "The graph document size bound is invalid.";
  match t ← transport;
        (if no_inline_credentials (model_dump t) && finite (model_dump t) then
           payload ← domain_payload t;
           if no_inline_credentials payload && finite payload then
             d ← model_validate payload; Some {| cg_document := d; cg_data := canonical_json payload;
                                                 cg_content_sha256 := sha256_hex (canonical_json payload) |}
           else None
         else None) with
  | None => document_error
  | Some c =>
      _ ← reject_if (max_bytes <? Z.of_nat (length (cg_data c))) GraphStoreDocumentError
            "The canonical graph document exceeds the configured limit.";
      Ok c
  end.
Definition canonicalize_graph_document (value : document) : Z -> result CanonicalGraphDocument :=
  canonicalize_transport (Some value).
Definition canonicalize_json (value : json) : Z -> result CanonicalGraphDocument :=
  canonicalize_transport (model_validate value).

(** ** Records *)

Record GraphSummary : Type := {
  su_project : string; su_graph : string; su_revision : string; su_content_sha256 : string;
  su_created_at : string; su_updated_at : string;
}.
Record GraphRecord : Type := {
  gd_project : string; gd_graph : string; gd_document : document; gd_revision : string; gd_content_sha256 : string;
  gd_created_at : string; gd_updated_at : string;
}.
Definition summary (r : GraphRecord) : GraphSummary :=
  {| su_project := gd_project r; su_graph := gd_graph r; su_revision := gd_revision r;
     su_content_sha256 := gd_content_sha256 r; su_created_at := gd_created_at r; su_updated_at := gd_updated_at r |}.
Record GraphPage : Type := { gp_items : list GraphSummary; gp_next_cursor : option string }.
Record GraphDeleteReceipt : Type := {
  dr_project : string; dr_graph : string; dr_revision : string; dr_content_sha256 : string; dr_deleted_at : string;
}.
End Documents.
Arguments CanonicalGraphDocument document : clear implicits.
Arguments GraphRecord document : clear implicits.

(** The [GraphStore] protocol; [expected_revision] and [idempotency_key] come last. *)
Class GraphStore (document W : Type) : Type := {
  list_graphs : string -> option string -> Z -> M W GraphPage;
  get_graph : string -> string -> M W (GraphRecord document);
  create_graph : string -> string -> document -> string -> M W (GraphRecord document);
  put_graph : string -> string -> document -> string -> M W (GraphRecord document);
  delete_graph : string -> string -> string -> string -> M W GraphDeleteReceipt;
}.

(** ** Checks *)

Definition graph_corrupt (b : bool) (m : string) : result unit := reject_if b GraphStoreCorruptionError m.
Definition identifier_reject (b : bool) (m : string) : result unit := reject_if b GraphStoreIdentifierError m.

Definition validated_max_bytes (value : Z) : result Z :=
  _ ← reject_if (value <=? 0) GraphStoreDocumentError "The graph document size bound is invalid."; Ok value.
Definition validated_identifier (value label : string) : result string :=
  _ ← identifier_reject (negb (portable_id value))
        ("The " +:+ label +:+ " identifier must be 1-63 lowercase ASCII letters, digits, hyphens, or underscores.");
  Ok value.
Definition validated_graph_key (project graph : string) : result (string * string) :=
  p ← validated_identifier project "project"; g ← validated_identifier graph "graph"; Ok (p, g).
Definition validated_idempotency_key (value : string) : result string :=
  _ ← identifier_reject (negb (idempotency_key value)) "The idempotency key must be 8-128 URL-safe ASCII characters.";
  Ok value.
Definition validated_revision (value : string) : result string :=
  _ ← identifier_reject (empty value || (MAX_REVISION_LENGTH <? py_len value)) "The expected graph revision is invalid.";
  Ok value.
Definition validated_new_revision (value : string) : result string :=
  map_error GraphStoreIdentifierError GraphStoreCorruptionError "The revision provider returned an invalid token."
    (validated_revision value).
Definition validated_page_size (value : Z) : result Z :=
  _ ← identifier_reject (negb ((1 <=? value) && (value <=? MAX_GRAPH_PAGE_SIZE))) "The graph page size must be between 1 and 100.";
  Ok value.

Definition graph_timestamp (value : datetime) : result string :=
  _ ← graph_corrupt (is_naive value) "The graph-store clock returned a timezone-less value.";
  Ok (timestamp (astimezone_utc value)).

(** ** Fingerprints and cursors *)

Definition request_fingerprint (value : json) : string := sha256_hex (canonical_json value).
Definition create_fingerprint (project graph content_sha256 : string) : string :=
  request_fingerprint (JObj [("content_sha256", JStr content_sha256); ("graph", JStr graph);
                             ("operation", JStr "create"); ("project", JStr project)]).
Definition delete_fingerprint (project graph expected_revision : string) : string :=
  request_fingerprint (JObj [("expected_revision", JStr expected_revision); ("graph", JStr graph);
                             ("operation", JStr "delete"); ("project", JStr project)]).

(** [s.rstrip("=")]. *)
Fixpoint lstrip_pad (l : list ascii) : list ascii :=
  match l with c :: l' => if Ascii.eqb c "=" then lstrip_pad l' else l | [] => [] end.
Definition rstrip_pad (l : list ascii) : list ascii := rev (lstrip_pad (rev l)).

Definition encode_cursor (project after : string) : string :=
  of_chars (rstrip_pad (b64_encode (canonical_json
    (JObj [("after", JStr after); ("project", JStr project); ("version", JInt 1)])))).

(** [payload.get("version") != 1]: [True] equals 1; so would a float, which the
    reader gives as a tag. *)
Definition is_one (v : json) : bool := match v with JInt n => n =? 1 | JBool b => b | _ => false end.
Definition cursor_payload (project : string) (payload : json) : option string :=
  match payload with
  | JObj l =>
      if bool_decide (list_to_set (map fst l) = ({["after"; "project"; "version"]} : gset string)) then
        match assoc "project" l, assoc "version" l, assoc "after" l with
        | Some (JStr p), Some v, Some (JStr after) => if bool_decide (p = project) && is_one v then Some after else None
        | _, _, _ => None
        end
      else None
  | _ => None
  end.

Definition decode_cursor (project : string) (cursor : option string) : result (option string) :=
  let invalid := raise_ GraphStoreIdentifierError "The graph page cursor is invalid." in
  match cursor with
  | None => Ok None
  | Some cursor =>
      _ ← identifier_reject (empty cursor || (MAX_CURSOR_BYTES <? py_len cursor)) "The graph page cursor is invalid.";
      let encoded := chars cursor in
      let padding := repeat "="%char (Z.to_nat (- Z.of_nat (length encoded) mod 4)) in
      match raw ← b64_decode_any (encoded ++ padding); payload ← loads raw; cursor_payload project payload with
      | None => invalid
      | Some after => if portable_id after then Ok (Some after) else invalid
      end
  end.

(** ** The in-memory store ([InMemoryGraphStore])

    The lock makes every operation one step.  Documents are copied in and out:
    values here.  The clock and the revision factory are supplies. *)

Section Memory.
Context {document : Type} `{GraphModel document}.

Inductive outcome : Type := Created (r : GraphRecord document) | Deleted (r : GraphDeleteReceipt).

Record memory : Type := Memory {
  mm_records : gmap (string * string) (GraphRecord document);
  mm_idempotency : gmap (string * string * string) (string * outcome);
  mm_clock : list datetime;
  mm_revisions : list string;
}.

(** [self._clock()] and [self._revision_factory()]; the checks of their callers
    refuse what an exhausted supply gives. *)
Definition clock : M memory datetime := fun m =>
  match mm_clock m with
  | [] => (Ok (Datetime 0 None), m)
  | t :: ts => (Ok t, Memory (mm_records m) (mm_idempotency m) ts (mm_revisions m))
  end.
Definition revision_factory : M memory string := fun m =>
  match mm_revisions m with
  | [] => (Ok "", m)
  | r :: rs => (Ok r, Memory (mm_records m) (mm_idempotency m) (mm_clock m) rs)
  end.
Definition set_record (k : string * string) (r : GraphRecord document) : M memory unit :=
  modify_state (fun m => Memory (<[k := r]> (mm_records m)) (mm_idempotency m) (mm_clock m) (mm_revisions m)).
Definition del_record (k : string * string) : M memory unit :=
  modify_state (fun m => Memory (delete k (mm_records m)) (mm_idempotency m) (mm_clock m) (mm_revisions m)).
Definition set_idempotency (k : string * string * string) (o : string * outcome) : M memory unit :=
  modify_state (fun m => Memory (mm_records m) (<[k := o]> (mm_idempotency m)) (mm_clock m) (mm_revisions m)).

Context (max_graph_bytes : Z).

Definition replay_conflict {A} : result A :=
  raise_ GraphStoreIdempotencyConflictError "The idempotency key was already used for a different request.".
Definition replay_record (replay : string * outcome) (fingerprint : string) : result (GraphRecord document) :=
  match replay.2 with
  | Created r => if bool_decide (replay.1 = fingerprint) then Ok r else replay_conflict
  | Deleted _ => replay_conflict
  end.
Definition replay_receipt (replay : string * outcome) (fingerprint : string) : result GraphDeleteReceipt :=
  match replay.2 with
  | Deleted r => if bool_decide (replay.1 = fingerprint) then Ok r else replay_conflict
  | Created _ => replay_conflict
  end.

Definition not_found {A} : result A := raise_ GraphStoreNotFoundError "The graph does not exist.".
Definition stale {A} : result A := raise_ GraphStoreConflictError "The graph revision is stale.".

(** The graphs of a project, in the order the table is walked. *)
Definition stored_names {A : Type} (project : string) (table : gmap (string * string) A) : list string :=
  snd <$> filter (fun k : string * string => k.1 = project) (elements (dom table)).

(** [bisect_right]: the number of sorted names not beyond [after]. *)
Definition bisect_right (names : list string) (after : string) : nat :=
  length (filter (fun n => str_leb n after = true) names).

Definition memory_list (project : string) (cursor : option string) (limit : Z) : M memory GraphPage :=
  project ← lift (validated_identifier project "project");
  limit ← lift (validated_page_size limit);
  after ← lift (decode_cursor project cursor);
  m ← get_state;
  let graph_ids := py_sorted str_leb (stored_names project (mm_records m)) in
  let start := match after with Some a => bisect_right graph_ids a | None => O end in
  let selected := take (Z.to_nat limit) (drop start graph_ids) in
  let items := omap (fun graph => summary <$> mm_records m !! (project, graph)) selected in
  let next_cursor := match last selected with
                     | Some g => if (start + length selected <? length graph_ids)%nat then Some (encode_cursor project g) else None
                     | None => None
                     end in
  mret {| gp_items := items; gp_next_cursor := next_cursor |}.

Definition memory_get (project graph : string) : M memory (GraphRecord document) :=
  key ← lift (validated_graph_key project graph);
  m ← get_state;
  match mm_records m !! key with Some r => mret r | None => lift not_found end.

Definition memory_create (project graph : string) (doc : document) (idempotency_key : string) : M memory (GraphRecord document) :=
  key ← lift (validated_graph_key project graph);
  idempotency_key ← lift (validated_idempotency_key idempotency_key);
  canonical ← lift (canonicalize_graph_document doc max_graph_bytes);
  let fingerprint := create_fingerprint project graph (cg_content_sha256 canonical) in
  let scope := (project, "create", idempotency_key) in
  m ← get_state;
  match mm_idempotency m !! scope with
  | Some replay => lift (replay_record replay fingerprint)
  | None =>
      _ ← lift (reject_if (is_some (mm_records m !! key)) GraphStoreAlreadyExistsError "The graph already exists.");
      now ← (t ← clock; lift (graph_timestamp t));
      revision ← (r ← revision_factory; lift (validated_new_revision r));
      let record := {| gd_project := project; gd_graph := graph; gd_document := cg_document canonical; gd_revision := revision;
                       gd_content_sha256 := cg_content_sha256 canonical; gd_created_at := now; gd_updated_at := now |} in
      _ ← set_record key record;
      _ ← set_idempotency scope (fingerprint, Created record);
      mret record
  end.

Definition memory_put (project graph : string) (doc : document) (expected_revision : string) : M memory (GraphRecord document) :=
  key ← lift (validated_graph_key project graph);
  expected_revision ← lift (validated_revision expected_revision);
  canonical ← lift (canonicalize_graph_document doc max_graph_bytes);
  m ← get_state;
  match mm_records m !! key with
  | None => lift not_found
  | Some current =>
      if negb (bool_decide (gd_revision current = expected_revision)) then lift stale
      else
        revision ← (r ← revision_factory; lift (validated_new_revision r));
        now ← (t ← clock; lift (graph_timestamp t));
        let record := {| gd_project := project; gd_graph := graph; gd_document := cg_document canonical; gd_revision := revision;
                         gd_content_sha256 := cg_content_sha256 canonical; gd_created_at := gd_created_at current;
                         gd_updated_at := now |} in
        _ ← set_record key record;
        mret record
  end.

Definition memory_delete (project graph expected_revision idempotency_key : string) : M memory GraphDeleteReceipt :=
  key ← lift (validated_graph_key project graph);
  expected_revision ← lift (validated_revision expected_revision);
  idempotency_key ← lift (validated_idempotency_key idempotency_key);
  let fingerprint := delete_fingerprint project graph expected_revision in
  let scope := (project, "delete", idempotency_key) in
  m ← get_state;
  match mm_idempotency m !! scope with
  | Some replay => lift (replay_receipt replay fingerprint)
  | None =>
      match mm_records m !! key with
      | None => lift not_found
      | Some current =>
          if negb (bool_decide (gd_revision current = expected_revision)) then lift stale
          else
            deleted_at ← (t ← clock; lift (graph_timestamp t));
            let receipt := {| dr_project := project; dr_graph := graph; dr_revision := gd_revision current;
                              dr_content_sha256 := gd_content_sha256 current; dr_deleted_at := deleted_at |} in
            _ ← del_record key;
            _ ← set_idempotency scope (fingerprint, Deleted receipt);
            mret receipt
      end
  end.

#[export] Instance memory_store : GraphStore document memory := {
  list_graphs := memory_list;
  get_graph := memory_get;
  create_graph := memory_create;
  put_graph := memory_put;
  delete_graph := memory_delete;
}.
End Memory.
Arguments outcome document : clear implicits.
Arguments memory document : clear implicits.
