(* ===== verification/GraphStoreSpec.v ===== *)
(** * What a graph store promises ([GraphStore] in [control/graph_store.py])

    The contract of the protocol: a view of the stored graphs and of the outcomes
    recorded under idempotency keys, what every operation does to it, and how
    other clients and failures may interfere.  The in-memory store keeps it; what
    a client may rely on is proved from the contract alone. *)

From S2P Require Import Prelude Regex PyStr Sha256 PyTime Json JsonParse JsonRead Base64 Identifiers PhysicalPlan RunCodec GraphStore.

Local Open Scope string_scope.
Local Open Scope Z_scope.
Local Open Scope list_scope.

Section Contract.
Context {document : Type} `{GraphModel document} (max_graph_bytes : Z).

Record graph_view : Type := View {
  vg_graphs : gmap (string * string) (GraphRecord document);
  vg_outcomes : string * string * string -> option (string * outcome document);
}.

(** Views are compared by what they answer. *)
Definition same (v v' : graph_view) : Prop :=
  vg_graphs v = vg_graphs v' /\ forall k, vg_outcomes v k = vg_outcomes v' k.
#[export] Instance same_equivalence : Equivalence same.
Proof.
  split; [done|intros v v' [H1 H2]; by split|intros v1 v2 v3 [H1 H2] [H3 H4]].
  split; [congruence|]. intros k. by rewrite H2.
Qed.

(** Outcomes are never forgotten or changed. *)
Definition remembers (v v' : graph_view) : Prop :=
  forall k o, vg_outcomes v k = Some o -> vg_outcomes v' k = Some o.
#[export] Instance remembers_preorder : PreOrder remembers.
Proof. split; [by intros v k o|intros v1 v2 v3 H1 H2 k o Hk; auto]. Qed.
Lemma same_remembers v v' : same v v' -> remembers v v'.
Proof. intros [_ Ho] k o. by rewrite Ho. Qed.

(** ** What the operations do *)

Definition record_of (project graph : string) (c : CanonicalGraphDocument document) (r : GraphRecord document) : Prop :=
  gd_project r = project /\ gd_graph r = graph /\ gd_document r = cg_document c /\
  gd_content_sha256 r = cg_content_sha256 c /\ validated_revision (gd_revision r) = Ok (gd_revision r).

Definition books (k : string * string * string) (o : string * outcome document) (v v' : graph_view) : Prop :=
  vg_outcomes v' k = Some o /\ remembers v v'.

Definition create_inputs (project graph : string) (doc : document) (key : string) : result (CanonicalGraphDocument document) :=
  _ ← validated_graph_key project graph; _ ← validated_idempotency_key key; canonicalize_graph_document doc max_graph_bytes.
Definition put_inputs (project graph : string) (doc : document) (revision : string) : result (CanonicalGraphDocument document) :=
  _ ← validated_graph_key project graph; _ ← validated_revision revision; canonicalize_graph_document doc max_graph_bytes.
Definition delete_inputs (project graph revision key : string) : result unit :=
  _ ← validated_graph_key project graph; _ ← validated_revision revision; _ ← validated_idempotency_key key; Ok tt.
Definition list_inputs (project : string) (cursor : option string) (limit : Z) : result (option string) :=
  _ ← validated_identifier project "project"; _ ← validated_page_size limit; decode_cursor project cursor.

(** A recorded outcome answers an identical request and refuses another; one
    that was recorded for another graph may be refused as well. *)
Definition replays {A} (outcome_graph : A -> string) (answer : result A) (graph : string) (res : result A) : Prop :=
  res = answer \/ exists a, answer = Ok a /\ outcome_graph a <> graph /\ res = replay_conflict.

Definition create_spec (project graph : string) (doc : document) (key : string) (v : graph_view) (res : result (GraphRecord document)) (v' : graph_view) : Prop :=
  match create_inputs project graph doc key with
  | Raise e => res = Raise e /\ same v v'
  | Ok c =>
      let fingerprint := create_fingerprint project graph (cg_content_sha256 c) in
      match vg_outcomes v (project, "create", key), vg_graphs v !! (project, graph) with
      | Some o, _ => same v v' /\ replays gd_graph (replay_record o fingerprint) graph res
      | None, Some _ => same v v' /\ res = raise_ GraphStoreAlreadyExistsError "The graph already exists."
      | None, None => exists r, res = Ok r /\ record_of project graph c r /\
          vg_graphs v' = <[(project, graph) := r]> (vg_graphs v) /\
          books (project, "create", key) (fingerprint, Created r) v v'
      end
  end.

Definition put_spec (project graph : string) (doc : document) (revision : string) (v : graph_view) (res : result (GraphRecord document)) (v' : graph_view) : Prop :=
  match put_inputs project graph doc revision with
  | Raise e => res = Raise e /\ same v v'
  | Ok c =>
      match vg_graphs v !! (project, graph) with
      | None => same v v' /\ res = not_found
      | Some current =>
          if bool_decide (gd_revision current = revision) then
            exists r, res = Ok r /\ record_of project graph c r /\ gd_created_at r = gd_created_at current /\
              same (View (<[(project, graph) := r]> (vg_graphs v)) (vg_outcomes v)) v'
          else same v v' /\ res = stale
      end
  end.

Definition delete_spec (project graph revision key : string) (v : graph_view) (res : result GraphDeleteReceipt) (v' : graph_view) : Prop :=
  match delete_inputs project graph revision key with
  | Raise e => res = Raise e /\ same v v'
  | Ok _ =>
      let fingerprint := delete_fingerprint project graph revision in
      match vg_outcomes v (project, "delete", key), vg_graphs v !! (project, graph) with
      | Some o, _ => same v v' /\ replays dr_graph (replay_receipt o fingerprint) graph res
      | None, None => same v v' /\ res = not_found
      | None, Some current =>
          if bool_decide (gd_revision current = revision) then
            exists r, res = Ok r /\ dr_project r = project /\ dr_graph r = graph /\ dr_revision r = revision /\
              dr_content_sha256 r = gd_content_sha256 current /\
              vg_graphs v' = delete (project, graph) (vg_graphs v) /\
              books (project, "delete", key) (fingerprint, Deleted r) v v'
          else same v v' /\ res = stale
      end
  end.

Definition get_spec (project graph : string) (v : graph_view) (res : result (GraphRecord document)) (v' : graph_view) : Prop :=
  same v v' /\
  res = match validated_graph_key project graph with
        | Raise e => Raise e
        | Ok k => match vg_graphs v !! k with Some r => Ok r | None => not_found end
        end.

(** The page after a name, in the order of the store. *)
Definition names (order : string -> string -> bool) (project : string) (graphs : gmap (string * string) (GraphRecord document)) : list string :=
  py_sorted order (stored_names project graphs).
Definition page_of (order : string -> string -> bool) (project : string) (after : option string) (limit : Z) (graphs : gmap (string * string) (GraphRecord document)) : GraphPage :=
  let remaining := match after with
                   | Some a => filter (fun n => order n a = false) (names order project graphs)
                   | None => names order project graphs
                   end in
  let selected := take (Z.to_nat limit) remaining in
  {| gp_items := omap (fun g => summary <$> graphs !! (project, g)) selected;
     gp_next_cursor := if (length selected <? length remaining)%nat then encode_cursor project <$> last selected else None |}.

Definition list_spec (order : string -> string -> bool) (project : string) (cursor : option string) (limit : Z) (v : graph_view) (res : result GraphPage) (v' : graph_view) : Prop :=
  same v v' /\
  res = match list_inputs project cursor limit with
        | Raise e => Raise e
        | Ok after => Ok (page_of order project after limit (vg_graphs v))
        end.

(** ** Other clients, and failures *)

Inductive client_step (v v' : graph_view) : Prop :=
  | step_create p g d k r : create_spec p g d k v r v' -> client_step v v'
  | step_put p g d k r : put_spec p g d k v r v' -> client_step v v'
  | step_delete p g x k r : delete_spec p g x k v r v' -> client_step v v'.

(** What other clients of the store do between two moments. *)
Definition meanwhile : graph_view -> graph_view -> Prop := rtc client_step.

(** An operation that breaks down - the store is unavailable or refuses to trust
    what it finds - did nothing, or what it would have answered. *)
Definition breakdown {A} (spec : graph_view -> result A -> graph_view -> Prop) (v : graph_view) (res : result A) (v' : graph_view) : Prop :=
  exists e, res = Raise e /\ (exn_cls e = GraphStoreError \/ exn_cls e = GraphStoreCorruptionError) /\
    (same v v' \/ exists a, spec v (Ok a) v').

Definition performs {W A} (ok : W -> Prop) (view : W -> graph_view) (m : M W A)
    (spec : graph_view -> result A -> graph_view -> Prop) : Prop :=
  forall w, ok w -> let '(res, w') := m w in
    ok w' /\ exists v, meanwhile (view w) v /\ (spec v res (view w') \/ breakdown spec v res (view w')).

Record keeps_contract {W : Type} {HS : GraphStore document W} (ok : W -> Prop) (view : W -> graph_view)
    (order : string -> string -> bool) : Prop := {
  keeps_list p c n : performs ok view (list_graphs p c n) (list_spec order p c n);
  keeps_get p g : performs ok view (get_graph p g) (get_spec p g);
  keeps_create p g d k : performs ok view (create_graph p g d k) (create_spec p g d k);
  keeps_put p g d x : performs ok view (put_graph p g d x) (put_spec p g d x);
  keeps_delete p g x k : performs ok view (delete_graph p g x k) (delete_spec p g x k);
}.

Class GraphStoreLaws (W : Type) {HS : GraphStore document W} : Type := {
  gs_ok : W -> Prop;
  gs_view : W -> graph_view;
  gs_order : string -> string -> bool;
  gs_keeps : keeps_contract gs_ok gs_view gs_order;
}.

(** ** What every client may rely on *)

Lemma books_remembers k o v v' : books k o v v' -> remembers v v'.
Proof. by intros [_ H0]. Qed.

Lemma create_remembers p g d k v res v' : create_spec p g d k v res v' -> remembers v v'.
Proof.
  unfold create_spec. destruct (create_inputs _ _ _ _) as [c|e]; [|by intros [_ Hs%same_remembers]].
  destruct (vg_outcomes v _) as [o|]; [by intros [Hs%same_remembers _]|].
  destruct (_ !! _); [by intros [Hs%same_remembers _]|]. intros (r & _ & _ & _ & Hb). by eapply books_remembers.
Qed.

Lemma put_remembers p g d k v res v' : put_spec p g d k v res v' -> remembers v v'.
Proof.
  unfold put_spec. destruct (put_inputs _ _ _ _) as [c|e]; [|by intros [_ Hs%same_remembers]].
  destruct (_ !! _) as [cur|]; [|by intros [Hs%same_remembers _]].
  destruct (bool_decide _); [|by intros [Hs%same_remembers _]]. by intros (r & _ & _ & _ & Hs%same_remembers).
Qed.

Lemma delete_remembers p g x k v res v' : delete_spec p g x k v res v' -> remembers v v'.
Proof.
  unfold delete_spec. destruct (delete_inputs _ _ _ _) as [c|e]; [|by intros [_ Hs%same_remembers]].
  destruct (vg_outcomes v _) as [o|]; [by intros [Hs%same_remembers _]|].
  destruct (_ !! _) as [cur|]; [|by intros [Hs%same_remembers _]].
  destruct (bool_decide _); [|by intros [Hs%same_remembers _]]. intros (r & _ & _ & _ & _ & _ & _ & Hb). by eapply books_remembers.
Qed.

Lemma meanwhile_remembers v v' : meanwhile v v' -> remembers v v'.
Proof.
  induction 1 as [|v1 v2 v3 [p g d k r Hs|p g d k r Hs|p g x k r Hs] _ IH]; [done|..]; etrans; [|exact IH| |exact IH| |exact IH].
  - by eapply create_remembers.
  - by eapply put_remembers.
  - by eapply delete_remembers.
Qed.

(** An answered mutation is recorded with its answer. *)
Lemma create_recorded p g d k v r v' : create_spec p g d k v (Ok r) v' ->
  exists c o, create_inputs p g d k = Ok c /\ vg_outcomes v' (p, "create", k) = Some o /\
    replay_record o (create_fingerprint p g (cg_content_sha256 c)) = Ok r.
Proof.
  unfold create_spec. destruct (create_inputs _ _ _ _) as [c|e]; [|by intros [[=] _]]. intros Hs. exists c.
  destruct (vg_outcomes v _) as [o|] eqn:E.
  - destruct Hs as [Hsame Hr]. exists o. split; [done|]. split; [by rewrite <- (proj2 Hsame)|].
    destruct Hr as [<-|(a & _ & _ & [=])]. done.
  - destruct (_ !! _); [by destruct Hs as [_ [=]]|]. destruct Hs as (r' & [= <-] & _ & _ & Hb & _).
    eexists. split; [done|]. split; [exact Hb|]. unfold replay_record. cbn. by rewrite bool_decide_true.
Qed.

Lemma delete_recorded p g x k v r v' : delete_spec p g x k v (Ok r) v' ->
  exists o, delete_inputs p g x k = Ok tt /\ vg_outcomes v' (p, "delete", k) = Some o /\
    replay_receipt o (delete_fingerprint p g x) = Ok r.
Proof.
  unfold delete_spec. destruct (delete_inputs _ _ _ _) as [[]|e]; [|by intros [[=] _]]. intros Hs.
  destruct (vg_outcomes v _) as [o|] eqn:E.
  - destruct Hs as [Hsame Hr]. exists o. split; [done|]. split; [by rewrite <- (proj2 Hsame)|].
    destruct Hr as [<-|(a & _ & _ & [=])]. done.
  - destruct (_ !! _); [|by destruct Hs as [_ [=]]]. destruct (bool_decide _); [|by destruct Hs as [_ [=]]].
    destruct Hs as (r' & [= <-] & _ & _ & _ & _ & _ & Hb & _).
    eexists. split; [done|]. split; [exact Hb|]. unfold replay_receipt. cbn. by rewrite bool_decide_true.
Qed.

(** An answer, or the store broke down; nothing changed. *)
Definition answered {A} (v : graph_view) (answer res : result A) (v' : graph_view) : Prop :=
  same v v' /\ (res = answer \/ exists e, res = Raise e /\ (exn_cls e = GraphStoreError \/ exn_cls e = GraphStoreCorruptionError)).

Lemma replays_answered {A} (spec : graph_view -> result A -> graph_view -> Prop) outcome_graph answer graph v res v' :
  (forall res v', spec v res v' -> same v v' /\ replays outcome_graph answer graph res) ->
  (forall a, answer = Ok a -> outcome_graph a = graph) ->
  spec v res v' \/ breakdown spec v res v' -> answered v answer res v'.
Proof.
  intros Hspec Hg [Hs|(e & -> & He & [Hs|(a & Hs)])].
  - destruct (Hspec _ _ Hs) as [Hsame [->|(a & Ha & Hn & _)]]; [by split; [|left]|]. by destruct Hn; apply Hg.
  - split; [done|right]. eauto.
  - destruct (Hspec _ _ Hs) as [Hsame _]. split; [done|right]. eauto.
Qed.

Section Clients.
Context {W : Type} {HS : GraphStore document W} {L : GraphStoreLaws W}.

Lemma create_again p g d k c o w res w' :
  create_inputs p g d k = Ok c -> vg_outcomes (gs_view w) (p, "create", k) = Some o -> gs_ok w ->
  (forall r, replay_record o (create_fingerprint p g (cg_content_sha256 c)) = Ok r -> gd_graph r = g) ->
  create_graph p g d k w = (res, w') ->
  exists v, meanwhile (gs_view w) v /\
    answered v (replay_record o (create_fingerprint p g (cg_content_sha256 c))) res (gs_view w').
Proof.
  intros Hin Ho Hok Hg Hrun. pose proof (keeps_create _ _ _ gs_keeps p g d k w Hok) as Hlaw. rewrite Hrun in Hlaw.
  destruct Hlaw as (_ & v & Hv & Hs). exists v. split; [done|]. apply (meanwhile_remembers _ _ Hv) in Ho.
  eapply replays_answered; [|exact Hg|exact Hs]. intros res0 v' Hs'. unfold create_spec in Hs'. by rewrite Hin, Ho in Hs'.
Qed.

Lemma delete_again p g x k o w res w' :
  delete_inputs p g x k = Ok tt -> vg_outcomes (gs_view w) (p, "delete", k) = Some o -> gs_ok w ->
  (forall r, replay_receipt o (delete_fingerprint p g x) = Ok r -> dr_graph r = g) ->
  delete_graph p g x k w = (res, w') ->
  exists v, meanwhile (gs_view w) v /\ answered v (replay_receipt o (delete_fingerprint p g x)) res (gs_view w').
Proof.
  intros Hin Ho Hok Hg Hrun. pose proof (keeps_delete _ _ _ gs_keeps p g x k w Hok) as Hlaw. rewrite Hrun in Hlaw.
  destruct Hlaw as (_ & v & Hv & Hs). exists v. split; [done|]. apply (meanwhile_remembers _ _ Hv) in Ho.
  eapply replays_answered; [|exact Hg|exact Hs]. intros res0 v' Hs'. unfold delete_spec in Hs'. by rewrite Hin, Ho in Hs'.
Qed.

Lemma created_recorded p g d k w r w' : gs_ok w -> create_graph p g d k w = (Ok r, w') ->
  exists c o, create_inputs p g d k = Ok c /\ vg_outcomes (gs_view w') (p, "create", k) = Some o /\
    replay_record o (create_fingerprint p g (cg_content_sha256 c)) = Ok r.
Proof.
  intros Hok Hrun. pose proof (keeps_create _ _ _ gs_keeps p g d k w Hok) as Hlaw. rewrite Hrun in Hlaw.
  destruct Hlaw as (_ & v & _ & [Hs|(e & [=] & _)]). by eapply create_recorded.
Qed.

Lemma deleted_recorded p g x k w r w' : gs_ok w -> delete_graph p g x k w = (Ok r, w') ->
  exists o, delete_inputs p g x k = Ok tt /\ vg_outcomes (gs_view w') (p, "delete", k) = Some o /\
    replay_receipt o (delete_fingerprint p g x) = Ok r.
Proof.
  intros Hok Hrun. pose proof (keeps_delete _ _ _ gs_keeps p g x k w Hok) as Hlaw. rewrite Hrun in Hlaw.
  destruct Hlaw as (_ & v & _ & [Hs|(e & [=] & _)]). by eapply delete_recorded.
Qed.

Lemma replay_fingerprint (o : string * outcome document) fp r : replay_record o fp = Ok r -> o.1 = fp.
Proof. unfold replay_record. destruct (o.2); [|done]. by case_bool_decide. Qed.
Lemma replay_other (o : string * outcome document) fp : o.1 <> fp -> replay_record o fp = replay_conflict.
Proof. intros Hn. unfold replay_record. destruct (o.2); [|done]. by rewrite bool_decide_false. Qed.
Lemma receipt_fingerprint (o : string * outcome document) fp r : replay_receipt o fp = Ok r -> o.1 = fp.
Proof. unfold replay_receipt. destruct (o.2); [done|]. by case_bool_decide. Qed.
Lemma receipt_other (o : string * outcome document) fp : o.1 <> fp -> replay_receipt o fp = replay_conflict.
Proof. intros Hn. unfold replay_receipt. destruct (o.2); [done|]. by rewrite bool_decide_false. Qed.

(** C16: a mutation with an idempotency key takes effect once.  In every store that
    keeps the contract, after a create (a delete) was answered, and whatever other
    clients did since - the graph may have been replaced or deleted - repeating
    the request answers the very same record (receipt) and changes nothing, unless
    the store breaks down; using the key of a create (of a delete) for a create
    (a delete) with another fingerprint - of another graph or content, of another
    graph or revision - is refused as a conflict and changes nothing either. *)
Theorem keyed_mutations_once :
  (forall p g d k w1 r w1' w2 res w2', gs_ok w1 -> create_graph p g d k w1 = (Ok r, w1') -> gd_graph r = g ->
     meanwhile (gs_view w1') (gs_view w2) -> gs_ok w2 -> create_graph p g d k w2 = (res, w2') ->
     exists v, meanwhile (gs_view w2) v /\ answered v (Ok r) res (gs_view w2')) /\
  (forall p g x k w1 r w1' w2 res w2', gs_ok w1 -> delete_graph p g x k w1 = (Ok r, w1') -> dr_graph r = g ->
     meanwhile (gs_view w1') (gs_view w2) -> gs_ok w2 -> delete_graph p g x k w2 = (res, w2') ->
     exists v, meanwhile (gs_view w2) v /\ answered v (Ok r) res (gs_view w2')) /\
  (forall p g g' d d' c c' k w1 r w1' w2 res w2', gs_ok w1 -> create_graph p g d k w1 = (Ok r, w1') ->
     create_inputs p g d k = Ok c -> create_inputs p g' d' k = Ok c' ->
     create_fingerprint p g' (cg_content_sha256 c') <> create_fingerprint p g (cg_content_sha256 c) ->
     meanwhile (gs_view w1') (gs_view w2) -> gs_ok w2 -> create_graph p g' d' k w2 = (res, w2') ->
     exists v, meanwhile (gs_view w2) v /\ answered v replay_conflict res (gs_view w2')) /\
  (forall p g g' x x' k w1 r w1' w2 res w2', gs_ok w1 -> delete_graph p g x k w1 = (Ok r, w1') ->
     delete_inputs p g' x' k = Ok tt -> delete_fingerprint p g' x' <> delete_fingerprint p g x ->
     meanwhile (gs_view w1') (gs_view w2) -> gs_ok w2 -> delete_graph p g' x' k w2 = (res, w2') ->
     exists v, meanwhile (gs_view w2) v /\ answered v replay_conflict res (gs_view w2')).
Proof.
  split_and!.
  - intros p g d k w1 r w1' w2 res w2' Hok Hrun Hg Hm Hok2 Hrun2.
    destruct (created_recorded _ _ _ _ _ _ _ Hok Hrun) as (c & o & Hin & Ho & Hr). rewrite <- Hr.
    eapply create_again; [done|by apply (meanwhile_remembers _ _ Hm)|done|intros r'; rewrite Hr; by intros [= <-]|done].
  - intros p g x k w1 r w1' w2 res w2' Hok Hrun Hg Hm Hok2 Hrun2.
    destruct (deleted_recorded _ _ _ _ _ _ _ Hok Hrun) as (o & Hin & Ho & Hr). rewrite <- Hr.
    eapply delete_again; [done|by apply (meanwhile_remembers _ _ Hm)|done|intros r'; rewrite Hr; by intros [= <-]|done].
  - intros p g g' d d' c c' k w1 r w1' w2 res w2' Hok Hrun Hin Hin' Hfp Hm Hok2 Hrun2.
    destruct (created_recorded _ _ _ _ _ _ _ Hok Hrun) as (c0 & o & Hin0 & Ho & Hr).
    rewrite Hin in Hin0. injection Hin0 as <-. apply replay_fingerprint in Hr.
    rewrite <- (replay_other o (create_fingerprint p g' (cg_content_sha256 c'))) by congruence.
    eapply create_again; [done|by apply (meanwhile_remembers _ _ Hm)|done| |done].
    rewrite replay_other by congruence. done.
  - intros p g g' x x' k w1 r w1' w2 res w2' Hok Hrun Hin' Hfp Hm Hok2 Hrun2.
    destruct (deleted_recorded _ _ _ _ _ _ _ Hok Hrun) as (o & _ & Ho & Hr). apply receipt_fingerprint in Hr.
    rewrite <- (receipt_other o (delete_fingerprint p g' x')) by congruence.
    eapply delete_again; [done|by apply (meanwhile_remembers _ _ Hm)|done| |done].
    rewrite receipt_other by congruence. done.
Qed.
End Clients.
End Contract.
Arguments graph_view document : clear implicits.
