(* ===== verification/GraphStoreMemory.v ===== *)
(** * The in-memory graph store keeps the contract ([InMemoryGraphStore]) *)

From S2P Require Import Prelude Regex PyStr Sha256 PyTime Json JsonParse JsonRead Base64 Identifiers PhysicalPlan RunCodec GraphStore GraphStoreSpec.

Local Open Scope string_scope.
Local Open Scope Z_scope.
Local Open Scope list_scope.

Lemma graph_key_ok p g k : validated_graph_key p g = Ok k -> k = (p, g).
Proof. unfold validated_graph_key, validated_identifier. intros H. inv_ok. done. Qed.
Lemma idempotency_key_ok k k' : validated_idempotency_key k = Ok k' -> k' = k.
Proof. unfold validated_idempotency_key. intros H. inv_ok. done. Qed.
Lemma revision_ok x x' : validated_revision x = Ok x' -> x' = x.
Proof. unfold validated_revision. intros H. inv_ok. done. Qed.
Lemma identifier_ok p l p' : validated_identifier p l = Ok p' -> p' = p.
Proof. unfold validated_identifier. intros H. inv_ok. done. Qed.
Lemma page_size_ok n n' : validated_page_size n = Ok n' -> n' = n.
Proof. unfold validated_page_size. intros H. inv_ok. done. Qed.
Lemma new_revision_ok x x' : validated_new_revision x = Ok x' -> x' = x /\ validated_revision x = Ok x.
Proof. intros H%map_error_ok. pose proof (revision_ok _ _ H) as ->. done. Qed.

Lemma new_revision_raises x e : validated_new_revision x = Raise e -> exn_cls e = GraphStoreCorruptionError.
Proof.
  unfold validated_new_revision, validated_revision, identifier_reject, reject_if. destruct (_ || _); [|done].
  cbn. by intros [= <-].
Qed.
Lemma graph_timestamp_raises t e : graph_timestamp t = Raise e -> exn_cls e = GraphStoreCorruptionError.
Proof. unfold graph_timestamp, graph_corrupt, reject_if. destruct (is_naive t); [|done]. cbn. by intros [= <-]. Qed.

Section Memory.
Context {document : Type} `{GraphModel document} (max_graph_bytes : Z).

Definition memory_view (m : memory document) : graph_view document :=
  View (mm_records m) (fun k => mm_idempotency m !! k).

Abbreviation quiet := (performs max_graph_bytes (fun _ : memory document => True) memory_view).

(** A step of the store, without other clients. *)
Lemma memory_performs {A} (m : M (memory document) A) spec :
  (forall w, spec (memory_view w) (m w).1 (memory_view (m w).2) \/
             breakdown spec (memory_view w) (m w).1 (memory_view (m w).2)) -> quiet m spec.
Proof. intros Hm w _. specialize (Hm w). destruct (m w) as [res w']. split; [done|]. by exists (memory_view w); split; [constructor|]. Qed.

Lemma memory_breaks {A} (spec : graph_view document -> result A -> graph_view document -> Prop) e w w' :
  exn_cls e = GraphStoreCorruptionError -> memory_view w' = memory_view w ->
  breakdown spec (memory_view w) (Raise e) (memory_view w').
Proof. intros He ->. exists e. split; [done|]. split; [by right|]. by left. Qed.

#[local] Arguments validated_graph_key : simpl never.
#[local] Arguments validated_idempotency_key : simpl never.
#[local] Arguments validated_revision : simpl never.
#[local] Arguments validated_new_revision : simpl never.
#[local] Arguments graph_timestamp : simpl never.
#[local] Arguments canonicalize_graph_document : simpl never.
#[local] Arguments create_fingerprint : simpl never.
#[local] Arguments delete_fingerprint : simpl never.

(** One check of the operation and of its specification. *)
Ltac check r E := destruct r as [?|?] eqn:E; cbn [mbind result_bind M_bind lift]; [|left; by split].

Lemma get_keeps p g : quiet (memory_get p g) (get_spec p g).
Proof.
  apply memory_performs. intros w. left. unfold memory_get, get_spec, get_state, mbind, M_bind, lift.
  destruct (validated_graph_key p g) as [k|e]; [|done]. cbn [vg_graphs memory_view]. by destruct (mm_records w !! k).
Qed.

(** Drawing from the supplies is not seen. *)
Lemma clock_draws m : exists t m', clock m = (Ok t, m') /\ memory_view m' = memory_view m /\ mm_records m' = mm_records m /\
  mm_idempotency m' = mm_idempotency m.
Proof. unfold clock. destruct (mm_clock m); by do 2 eexists. Qed.
Lemma factory_draws m : exists r m', revision_factory m = (Ok r, m') /\ memory_view m' = memory_view m /\
  mm_records m' = mm_records m /\ mm_idempotency m' = mm_idempotency m.
Proof. unfold revision_factory. destruct (mm_revisions m); by do 2 eexists. Qed.

(** What creation draws: a timestamp and a revision, or the store breaks down. *)
Lemma draws_two {A} (k : string -> string -> M (memory document) A) (first : bool) spec w :
  (forall now revision m, memory_view m = memory_view w -> mm_records m = mm_records w -> mm_idempotency m = mm_idempotency w ->
     validated_revision revision = Ok revision ->
     spec (memory_view w) (k now revision m).1 (memory_view (k now revision m).2)) ->
  let m := if first
           then now ← (t ← clock; lift (graph_timestamp t)); revision ← (r ← revision_factory; lift (validated_new_revision r)); k now revision
           else revision ← (r ← revision_factory; lift (validated_new_revision r)); now ← (t ← clock; lift (graph_timestamp t)); k now revision in
  spec (memory_view w) (m w).1 (memory_view (m w).2) \/ breakdown spec (memory_view w) (m w).1 (memory_view (m w).2).
Proof.
  intros Hk. destruct first; unfold mbind, M_bind, lift.
  - destruct (clock_draws w) as (t & w1 & -> & Hv1 & Hr1 & Hi1).
    destruct (graph_timestamp t) as [now|e] eqn:Et; [|right; eapply memory_breaks; [by eapply graph_timestamp_raises|done]].
    destruct (factory_draws w1) as (r & w2 & -> & Hv2 & Hr2 & Hi2).
    destruct (validated_new_revision r) as [x|e] eqn:Er; [|right; eapply memory_breaks; [by eapply new_revision_raises|cbn; congruence]].
    apply new_revision_ok in Er as [-> Er]. left. apply Hk; congruence.
  - destruct (factory_draws w) as (r & w1 & -> & Hv1 & Hr1 & Hi1).
    destruct (validated_new_revision r) as [x|e] eqn:Er; [|right; eapply memory_breaks; [by eapply new_revision_raises|done]].
    apply new_revision_ok in Er as [-> Er]. destruct (clock_draws w1) as (t & w2 & -> & Hv2 & Hr2 & Hi2).
    destruct (graph_timestamp t) as [now|e] eqn:Et; [|right; eapply memory_breaks; [by eapply graph_timestamp_raises|cbn; congruence]].
    left. apply Hk; congruence.
Qed.

(** Reads the state. *)
Ltac reads := match goal with |- context [(get_state ≫= ?f) ?w] => change ((get_state ≫= f) w) with (f w w) end; cbv beta.
(** The specification where the checks went this way. *)
Ltac by_spec := cbn [mbind result_bind memory_view vg_outcomes vg_graphs]; cbv zeta.

Lemma create_keeps p g d k : quiet (memory_create max_graph_bytes p g d k) (create_spec max_graph_bytes p g d k).
Proof.
  apply memory_performs. intros w. unfold memory_create. rewrite lift_bind.
  destruct (validated_graph_key p g) as [key|e] eqn:Ek; [|left; unfold create_spec, create_inputs; by rewrite Ek].
  pose proof (graph_key_ok _ _ _ Ek) as ->. rewrite lift_bind.
  destruct (validated_idempotency_key k) as [k'|e] eqn:Ei; [|left; unfold create_spec, create_inputs; by rewrite Ek; by_spec; rewrite Ei].
  pose proof (idempotency_key_ok _ _ Ei) as ->. rewrite lift_bind.
  assert (create_inputs max_graph_bytes p g d k = canonicalize_graph_document d max_graph_bytes) as Hin.
  { unfold create_inputs. by rewrite Ek; by_spec; rewrite Ei. }
  destruct (canonicalize_graph_document d max_graph_bytes) as [c|e]; [|left; unfold create_spec; by rewrite Hin].
  cbv zeta. reads. destruct (mm_idempotency w !! _) as [o|] eqn:Eo.
  { left. unfold create_spec. rewrite Hin. by_spec. rewrite Eo. split; [done|]. by left. }
  rewrite lift_bind. destruct (mm_records w !! (p, g)) as [r|] eqn:Eg; cbn [is_some reject_if].
  { left. unfold create_spec. rewrite Hin. by_spec. by rewrite Eo, Eg. }
  refine (draws_two (fun now revision => _) true _ w _). intros now revision m Hv Hr Hi Hx.
  unfold create_spec. rewrite Hin. by_spec. rewrite Eo, Eg. eexists. split; [done|]. split; [by split_and!|].
  unfold memory_view, set_record, set_idempotency, modify_state, mbind, M_bind. cbn. rewrite Hr, Hi. split; [done|]. split.
  - apply lookup_insert_eq.
  - intros k' o Hk'. cbn in *. rewrite lookup_insert_ne; [done|]. intros <-. congruence.
Qed.

Lemma put_keeps p g d x : quiet (memory_put max_graph_bytes p g d x) (put_spec max_graph_bytes p g d x).
Proof.
  apply memory_performs. intros w. unfold memory_put. rewrite lift_bind.
  destruct (validated_graph_key p g) as [key|e] eqn:Ek; [|left; unfold put_spec, put_inputs; by rewrite Ek].
  pose proof (graph_key_ok _ _ _ Ek) as ->. rewrite lift_bind.
  destruct (validated_revision x) as [x'|e] eqn:Ei; [|left; unfold put_spec, put_inputs; by rewrite Ek; by_spec; rewrite Ei].
  pose proof (revision_ok _ _ Ei) as ->. rewrite lift_bind.
  assert (put_inputs max_graph_bytes p g d x = canonicalize_graph_document d max_graph_bytes) as Hin.
  { unfold put_inputs. by rewrite Ek; by_spec; rewrite Ei. }
  destruct (canonicalize_graph_document d max_graph_bytes) as [c|e]; [|left; unfold put_spec; by rewrite Hin].
  reads. destruct (mm_records w !! (p, g)) as [cur|] eqn:Eg; [|left; unfold put_spec; rewrite Hin; by_spec; by rewrite Eg].
  destruct (bool_decide (gd_revision cur = x)) eqn:Ex; cbn [negb].
  2:{ left. unfold put_spec. rewrite Hin. by_spec. by rewrite Eg, Ex. }
  refine (draws_two (fun now revision => _) false _ w _). intros now revision m Hv Hr Hi Hx.
  unfold put_spec. rewrite Hin. by_spec. rewrite Eg, Ex. eexists. split; [done|]. split; [by split_and!|]. split; [done|].
  unfold memory_view, set_record, modify_state, mbind, M_bind, same. cbn. by rewrite Hr, Hi.
Qed.

Lemma delete_keeps p g x k : quiet (memory_delete p g x k) (delete_spec p g x k).
Proof.
  apply memory_performs. intros w. unfold memory_delete. rewrite lift_bind.
  destruct (validated_graph_key p g) as [key|e] eqn:Ek; [|left; unfold delete_spec, delete_inputs; by rewrite Ek].
  pose proof (graph_key_ok _ _ _ Ek) as ->. rewrite lift_bind.
  destruct (validated_revision x) as [x'|e] eqn:Ei; [|left; unfold delete_spec, delete_inputs; by rewrite Ek; by_spec; rewrite Ei].
  pose proof (revision_ok _ _ Ei) as ->. rewrite lift_bind.
  destruct (validated_idempotency_key k) as [k'|e] eqn:Ej;
    [|left; unfold delete_spec, delete_inputs; by rewrite Ek; by_spec; rewrite Ei; by_spec; rewrite Ej].
  pose proof (idempotency_key_ok _ _ Ej) as ->.
  assert (delete_inputs p g x k = Ok tt) as Hin.
  { unfold delete_inputs. by rewrite Ek; by_spec; rewrite Ei; by_spec; rewrite Ej. }
  cbv zeta. reads. destruct (mm_idempotency w !! _) as [o|] eqn:Eo.
  { left. unfold delete_spec. rewrite Hin. by_spec. rewrite Eo. split; [done|]. by left. }
  destruct (mm_records w !! (p, g)) as [cur|] eqn:Eg; [|left; unfold delete_spec; rewrite Hin; by_spec; by rewrite Eo, Eg].
  destruct (bool_decide (gd_revision cur = x)) eqn:Ex; cbn [negb].
  2:{ left. unfold delete_spec. rewrite Hin. by_spec. by rewrite Eo, Eg, Ex. }
  unfold mbind, M_bind. destruct (clock_draws w) as (t & w1 & -> & Hv & Hr & Hi).
  unfold lift. destruct (graph_timestamp t) as [now|e] eqn:Et; [|right; eapply memory_breaks; [by eapply graph_timestamp_raises|done]].
  left. unfold delete_spec. rewrite Hin. by_spec. rewrite Eo, Eg, Ex. apply bool_decide_eq_true in Ex. eexists. split; [done|].
  unfold memory_view, del_record, set_idempotency, modify_state, mbind, M_bind. cbn. rewrite Hr, Hi. split_and!; try done. split.
  - apply lookup_insert_eq.
  - intros k' o Hk'. cbn in *. rewrite lookup_insert_ne; [done|]. intros <-. congruence.
Qed.

Lemma filter_none {A} (P : A -> Prop) `{forall x, Decision (P x)} (l : list A) : (forall x, x ∈ l -> ~ P x) -> filter P l = [].
Proof. induction l as [|x l IH]; [done|]. intros Hn. rewrite filter_cons, decide_False by (apply Hn; left). apply IH. set_solver. Qed.
Lemma filter_every {A} (P : A -> Prop) `{forall x, Decision (P x)} (l : list A) : (forall x, x ∈ l -> P x) -> filter P l = l.
Proof. induction l as [|x l IH]; [done|]. intros Hn. rewrite filter_cons, decide_True by (apply Hn; left). f_equal. apply IH. set_solver. Qed.

(** The part of a sorted list after [bisect_right]. *)
Lemma after_bisect a l : StronglySorted (fun x y => str_leb x y = true) l ->
  drop (bisect_right l a) l = filter (fun n => str_leb n a = false) l /\ (bisect_right l a <= length l)%nat.
Proof.
  unfold bisect_right. induction 1 as [|x l Hs [IH IHn] Hx]; [done|]. destruct (str_leb x a) eqn:E.
  - rewrite !filter_cons, decide_True by done. rewrite decide_False by (by rewrite E). cbn. split; [exact IH|lia].
  - assert (forall y, y ∈ x :: l -> str_leb y a = false) as Hl.
    { intros y [->|Hy]%elem_of_cons; [done|]. rewrite Forall_forall in Hx. destruct (str_leb y a) eqn:Ey; [|done].
      rewrite (leb_trans (leb := str_leb) x y a) in E; [done|by apply Hx|done]. }
    rewrite filter_none by (intros y Hy; by rewrite Hl). rewrite filter_every by done. split; [done|cbn; lia].
Qed.

Lemma list_keeps p c n : quiet (memory_list p c n) (list_spec str_leb p c n).
Proof.
  apply memory_performs. intros w. left. unfold memory_list, list_spec, list_inputs.
  rewrite lift_bind. destruct (validated_identifier p "project") as [p'|e] eqn:Ep; [|done].
  pose proof (identifier_ok _ _ _ Ep) as ->. cbn [mbind result_bind]. rewrite lift_bind.
  destruct (validated_page_size n) as [n'|e] eqn:En; [|done]. pose proof (page_size_ok _ _ En) as ->.
  cbn [mbind result_bind]. rewrite lift_bind. destruct (decode_cursor p c) as [after|e]; [|done]. reads. split; [done|].
  unfold mret, M_ret. cbn [fst]. f_equal. unfold page_of. cbn [memory_view vg_graphs].
  fold (names str_leb p (mm_records w)). set (ids := names str_leb p (mm_records w)).
  assert (StronglySorted (fun x y => str_leb x y = true) ids) as Hids.
  { apply py_sorted_sorted; intros *; [apply leb_total|apply leb_trans]. }
  set (start := match after with Some a => bisect_right ids a | None => O end).
  set (remaining := match after with Some a => filter (fun n => str_leb n a = false) ids | None => ids end).
  assert (drop start ids = remaining /\ (start <= length ids)%nat) as [Hdrop Hstart].
  { subst start remaining. destruct after as [a|]; [by apply after_bisect|]. split; [done|lia]. }
  assert (length ids = start + length remaining)%nat as -> by (rewrite <- Hdrop, length_drop; lia).
  rewrite Hdrop. f_equal. set (selected := take _ remaining).
  replace (start + length selected <? start + length remaining)%nat with (length selected <? length remaining)%nat.
  - destruct (last selected); [by destruct (_ <? _)%nat|by destruct (_ <? _)%nat].
  - destruct (Nat.ltb_spec (length selected) (length remaining)), (Nat.ltb_spec (start + length selected) (start + length remaining)); lia || done.
Qed.

(** The in-memory store keeps the contract. *)
Lemma memory_contract : keeps_contract max_graph_bytes (HS := memory_store max_graph_bytes) (fun _ => True) memory_view str_leb.
Proof. split; [exact list_keeps|exact get_keeps|exact create_keeps|exact put_keeps|exact delete_keeps]. Qed.
#[export] Instance memory_laws : GraphStoreLaws max_graph_bytes (memory document) (HS := memory_store max_graph_bytes) :=
  { gs_keeps := memory_contract }.
End Memory.
