(* ===== verification/GraphStorePg.v ===== *)
(** * The PostgreSQL graph store ([control/postgresql_graph_store.py])

    Canonical documents and idempotency reservations in two tables.  A create or
    a delete reserves its key, changes the graph and completes the reservation in
    one transaction.  The server's clock is read at every [clock_timestamp()].  The
    revision factory is a supply of tokens kept with the tables: a token drawn in
    a transaction that rolls back may be drawn again. *)

From S2P Require Import Prelude Transactions Regex PyStr Sha256 PyTime Json JsonParse JsonRead Base64 Identifiers PhysicalPlan RunCodec GraphStore.

Local Open Scope string_scope.
Local Open Scope Z_scope.
Local Open Scope list_scope.

(** ** Tables ([_apply_graph_store_v1] of postgresql_control_database.py) *)

Record graph_row : Type := GraphRow {
  rg_project : string; rg_graph : string; rg_document_bytes : list Z; rg_revision : string;
  rg_content_sha256 : string; rg_created_at : datetime; rg_updated_at : datetime;
}.
Record reservation : Type := Reservation {
  rv_project : string; rv_operation : string; rv_key_sha256 : string; rv_fingerprint : string; rv_graph : string;
  rv_completed : bool; rv_revision : option string; rv_content_sha256 : option string; rv_document_bytes : option (list Z);
  rv_created_at : option datetime; rv_updated_at : option datetime; rv_deleted_at : option datetime;
}.

Definition graph_row_check (r : graph_row) : bool :=
  (py_len (rg_project r) <=? 63) && (py_len (rg_graph r) <=? 63) && (py_len (rg_revision r) <=? 512)
  && (Z.of_nat (length (rg_document_bytes r)) <=? MAX_GRAPH_DOCUMENT_BYTES) && is_sha256 (rg_content_sha256 r)
  && negb (dt_ltb (rg_updated_at r) (rg_created_at r)).
Definition reservation_check (r : reservation) : bool :=
  (py_len (rv_project r) <=? 63) && (py_len (rv_graph r) <=? 63) && bool_decide (rv_operation r ∈ ["create"; "delete"])
  && is_sha256 (rv_key_sha256 r) && is_sha256 (rv_fingerprint r)
  && match rv_revision r with Some x => py_len x <=? 512 | None => true end
  && match rv_content_sha256 r with Some x => is_sha256 x | None => true end
  && match rv_document_bytes r with Some x => Z.of_nat (length x) <=? MAX_GRAPH_DOCUMENT_BYTES | None => true end
  && if rv_completed r then
       is_some (rv_revision r) && is_some (rv_content_sha256 r)
       && if bool_decide (rv_operation r = "create")
          then is_some (rv_document_bytes r) && is_some (rv_created_at r) && is_some (rv_updated_at r) && is_none (rv_deleted_at r)
          else is_none (rv_document_bytes r) && is_none (rv_created_at r) && is_none (rv_updated_at r) && is_some (rv_deleted_at r)
     else is_none (rv_revision r) && is_none (rv_content_sha256 r) && is_none (rv_document_bytes r)
          && is_none (rv_created_at r) && is_none (rv_updated_at r) && is_none (rv_deleted_at r).

Record graph_db : Type := GraphDb {
  gb_graphs : gmap (string * string) graph_row;                     (* dander_graphs, by its primary key *)
  gb_reservations : gmap (string * string * string) reservation;    (* dander_graph_mutation_idempotency *)
  gb_clock : list Z;
  gb_revisions : list string;
}.
Definition with_graphs (g : gmap (string * string) graph_row) (d : graph_db) : graph_db :=
  GraphDb g (gb_reservations d) (gb_clock d) (gb_revisions d).
Definition with_reservations (r : gmap (string * string * string) reservation) (d : graph_db) : graph_db :=
  GraphDb (gb_graphs d) r (gb_clock d) (gb_revisions d).

(** One statement. *)
Definition graph_statement {A} (f : graph_db -> result A * graph_db) : M graph_db A := f.
Definition graph_clock : M graph_db datetime := fun d =>
  match gb_clock d with
  | [] => (Raise driver_error, d)
  | t :: ts => (Ok (utc t), GraphDb (gb_graphs d) (gb_reservations d) ts (gb_revisions d))
  end.
Definition draw_revision : M graph_db string := fun d =>
  match gb_revisions d with
  | [] => (Ok "", d)
  | r :: rs => (Ok r, GraphDb (gb_graphs d) (gb_reservations d) (gb_clock d) rs)
  end.

(** A token drawn before the transaction. *)
Definition draw_first : M (world graph_db) string := fun w =>
  let '(r, d) := draw_revision (wd_durable w) in (r, World d (wd_weather w)).

(** [except GraphStoreError: raise] and [except Exception: raise GraphStoreError(m)]. *)
Definition graph_errors {A} (m : string) (body : M (world graph_db) A) : M (world graph_db) A :=
  try_except body (fun e => if catches GraphStoreError e then lift (Raise e) else raiseM GraphStoreError m).

(** ** Stored values *)

Definition stored_key (project graph : string) : result (string * string) :=
  map_error GraphStoreIdentifierError GraphStoreCorruptionError "The PostgreSQL graph identity is invalid."
    (validated_graph_key project graph).
Definition stored_revision (value : option string) : result string :=
  match value with
  | Some v => map_error GraphStoreIdentifierError GraphStoreCorruptionError "The PostgreSQL graph revision is invalid." (validated_revision v)
  | None => raise_ GraphStoreCorruptionError "The PostgreSQL graph revision is invalid."
  end.
Definition stored_sha256 (value : option string) : result string :=
  match value with
  | Some v => _ ← graph_corrupt (negb (is_sha256 v)) "The PostgreSQL graph content digest is invalid."; Ok v
  | None => raise_ GraphStoreCorruptionError "The PostgreSQL graph content digest is invalid."
  end.
Definition stored_document (value : option (list Z)) : result (list Z) :=
  match value with
  | Some v => Ok v
  | None => raise_ GraphStoreCorruptionError "The PostgreSQL graph document bytes are invalid."
  end.
Definition datetime_from_timestamp (value : option datetime) : result datetime :=
  match value with
  | Some v => _ ← graph_corrupt (is_naive v) "The PostgreSQL graph timestamp is invalid."; Ok v
  | None => raise_ GraphStoreCorruptionError "The PostgreSQL graph timestamp is invalid."
  end.
Definition idempotency_key_sha256 (value : string) : string := sha256_hex (encode value).

Definition addressed (key expected : string * string) (m : string) : result unit :=
  graph_corrupt (negb (bool_decide (key = expected))) m.

Section Store.
Context {document : Type} `{GraphModel document} (collate : string -> string -> bool) (max_graph_bytes : Z).

(** [PostgreSQLGraphStore.__init__]. *)
Definition new_postgresql_graph_store : result Z :=
  n ← validated_max_bytes max_graph_bytes;
  _ ← reject_if (MAX_GRAPH_DOCUMENT_BYTES <? n) GraphStoreDocumentError
        "The PostgreSQL graph document bound exceeds the Control schema limit.";
  Ok n.

(** [_record_from_row], of a row or of the result columns of a reservation. *)
Definition record_from_row (project graph : string) (bytes : option (list Z)) (revision content : option string)
    (created updated : option datetime) (expected_key : string * string) : result (GraphRecord document) :=
  key ← stored_key project graph;
  _ ← addressed key expected_key "The PostgreSQL graph record is addressed incorrectly.";
  revision ← stored_revision revision;
  content_sha256 ← stored_sha256 content;
  data ← stored_document bytes;
  canonical ← (match loads data with
               | None => raise_ GraphStoreCorruptionError "The PostgreSQL graph record does not contain a valid canonical graph."
               | Some payload =>
                   map_error GraphStoreDocumentError GraphStoreCorruptionError
                     "The PostgreSQL graph record does not contain a valid canonical graph." (canonicalize_json payload max_graph_bytes)
               end);
  _ ← graph_corrupt (negb (bool_decide (cg_data canonical = data)) || negb (bool_decide (cg_content_sha256 canonical = content_sha256)))
        "The PostgreSQL graph record does not match its canonical content digest.";
  created ← datetime_from_timestamp created;
  updated ← datetime_from_timestamp updated;
  _ ← graph_corrupt (dt_ltb updated created) "The PostgreSQL graph timestamps are inconsistent.";
  created_at ← graph_timestamp created;
  updated_at ← graph_timestamp updated;
  Ok {| gd_project := key.1; gd_graph := key.2; gd_document := cg_document canonical; gd_revision := revision;
        gd_content_sha256 := content_sha256; gd_created_at := created_at; gd_updated_at := updated_at |}.

Definition row_record (row : graph_row) : (string * string) -> result (GraphRecord document) :=
  record_from_row (rg_project row) (rg_graph row) (Some (rg_document_bytes row)) (Some (rg_revision row))
    (Some (rg_content_sha256 row)) (Some (rg_created_at row)) (Some (rg_updated_at row)).

Definition summary_from_row (row : graph_row) (expected_project : string) : result GraphSummary :=
  key ← stored_key (rg_project row) (rg_graph row);
  _ ← graph_corrupt (negb (bool_decide (key.1 = expected_project))) "The PostgreSQL graph page crossed a project boundary.";
  created ← datetime_from_timestamp (Some (rg_created_at row));
  updated ← datetime_from_timestamp (Some (rg_updated_at row));
  _ ← graph_corrupt (dt_ltb updated created) "The PostgreSQL graph timestamps are inconsistent.";
  revision ← stored_revision (Some (rg_revision row));
  content_sha256 ← stored_sha256 (Some (rg_content_sha256 row));
  created_at ← graph_timestamp created;
  updated_at ← graph_timestamp updated;
  Ok {| su_project := key.1; su_graph := key.2; su_revision := revision; su_content_sha256 := content_sha256;
        su_created_at := created_at; su_updated_at := updated_at |}.

(** [_create_replay_from_row], [_delete_receipt_from_row], [_delete_replay_from_row]. *)
Definition create_replay_from_row (row : reservation) (expected_key : string * string) : result (GraphRecord document) :=
  record_from_row expected_key.1 expected_key.2 (rv_document_bytes row) (rv_revision row) (rv_content_sha256 row)
    (rv_created_at row) (rv_updated_at row) expected_key.
Definition delete_receipt_from_row (project graph : string) (revision content : option string) (deleted : option datetime)
    (expected_key : string * string) : result GraphDeleteReceipt :=
  key ← stored_key project graph;
  _ ← addressed key expected_key "The PostgreSQL delete receipt is addressed incorrectly.";
  revision ← stored_revision revision;
  content_sha256 ← stored_sha256 content;
  deleted_at ← (t ← datetime_from_timestamp deleted; graph_timestamp t);
  Ok {| dr_project := key.1; dr_graph := key.2; dr_revision := revision; dr_content_sha256 := content_sha256;
        dr_deleted_at := deleted_at |}.
Definition delete_replay_from_row (row : reservation) (expected_key : string * string) : result GraphDeleteReceipt :=
  delete_receipt_from_row expected_key.1 expected_key.2 (rv_revision row) (rv_content_sha256 row) (rv_deleted_at row) expected_key.

(** ** SQL *)

(** INSERT ... ON CONFLICT DO NOTHING, and the row count. *)
Definition insert_reservation (k : string * string * string) (row : reservation) : M graph_db Z :=
  graph_statement (fun d =>
    if is_some (gb_reservations d !! k) then (Ok 0, d)
    else if reservation_check row then (Ok 1, with_reservations (<[k := row]> (gb_reservations d)) d)
    else (Raise driver_error, d)).
(** UPDATE ... WHERE the key, the fingerprint and NOT completed; the row count. *)
Definition complete_reservation (k : string * string * string) (fingerprint : string) (f : reservation -> reservation) : M graph_db Z :=
  graph_statement (fun d =>
    match gb_reservations d !! k with
    | Some row =>
        if bool_decide (rv_fingerprint row = fingerprint) && negb (rv_completed row) then
          if reservation_check (f row) then (Ok 1, with_reservations (<[k := f row]> (gb_reservations d)) d)
          else (Raise driver_error, d)
        else (Ok 0, d)
    | None => (Ok 0, d)
    end).

Definition insert_graph (k : string * string) (row : graph_row) : M graph_db (option graph_row) :=
  graph_statement (fun d =>
    if is_some (gb_graphs d !! k) then (Ok None, d)
    else if graph_row_check row then (Ok (Some row), with_graphs (<[k := row]> (gb_graphs d)) d)
    else (Raise driver_error, d)).
Definition update_graph (k : string * string) (expected_revision : string) (f : graph_row -> graph_row) : M graph_db (option graph_row) :=
  graph_statement (fun d =>
    match gb_graphs d !! k with
    | Some row =>
        if bool_decide (rg_revision row = expected_revision) then
          if graph_row_check (f row) then (Ok (Some (f row)), with_graphs (<[k := f row]> (gb_graphs d)) d)
          else (Raise driver_error, d)
        else (Ok None, d)
    | None => (Ok None, d)
    end).
Definition delete_row (k : string * string) (expected_revision : string) : M graph_db (option graph_row) :=
  graph_statement (fun d =>
    match gb_graphs d !! k with
    | Some row =>
        if bool_decide (rg_revision row = expected_revision) then (Ok (Some row), with_graphs (delete k (gb_graphs d)) d)
        else (Ok None, d)
    | None => (Ok None, d)
    end).
(** SELECT ... WHERE project = %s [AND graph > %s] ORDER BY graph LIMIT %s, in the
    collation of the database. *)
Definition select_graphs (project : string) (after : option string) (limit : Z) (d : graph_db) : list graph_row :=
  let ids := py_sorted collate (stored_names project (gb_graphs d)) in
  let wanted := match after with Some a => filter (fun n => collate n a = false) ids | None => ids end in
  take (Z.to_nat limit) (omap (fun g => gb_graphs d !! (project, g)) wanted).

(** ** The operations *)

(** [_reserve_idempotency]: whether the key was claimed now, and its row. *)
Definition reserve_idempotency (project operation key_sha256 graph fingerprint : string) : M graph_db (bool * reservation) :=
  let k := (project, operation, key_sha256) in
  inserted ← insert_reservation k (Reservation project operation key_sha256 fingerprint graph false None None None None None None);
  _ ← lift (graph_corrupt (negb ((inserted =? 0) || (inserted =? 1)))
              "The PostgreSQL idempotency reservation returned an invalid row count.");
  d ← get_state;
  match gb_reservations d !! k with
  | None => raiseM GraphStoreCorruptionError "The PostgreSQL idempotency reservation disappeared."
  | Some row =>
      _ ← lift (reject_if (negb (bool_decide (rv_fingerprint row = fingerprint)) || negb (bool_decide (rv_graph row = graph)))
                  GraphStoreIdempotencyConflictError "The idempotency key was already used for a different request.");
      _ ← lift (graph_corrupt ((inserted =? 1) && rv_completed row) "The new PostgreSQL idempotency reservation is inconsistent.");
      _ ← lift (graph_corrupt ((inserted =? 0) && negb (rv_completed row)) "The PostgreSQL idempotency reservation has no durable result.");
      mret (inserted =? 1, row)
  end.

Definition raise_missing_or_conflict {A} (key : string * string) : M graph_db A :=
  d ← get_state;
  if is_none (gb_graphs d !! key) then lift not_found else lift stale.

Definition completed_create (r : GraphRecord document) (data : list Z) (created updated : datetime) (row : reservation) : reservation :=
  Reservation (rv_project row) (rv_operation row) (rv_key_sha256 row) (rv_fingerprint row) (rv_graph row) true
    (Some (gd_revision r)) (Some (gd_content_sha256 r)) (Some data) (Some created) (Some updated) (rv_deleted_at row).
Definition completed_delete (r : GraphDeleteReceipt) (deleted : datetime) (row : reservation) : reservation :=
  Reservation (rv_project row) (rv_operation row) (rv_key_sha256 row) (rv_fingerprint row) (rv_graph row) true
    (Some (dr_revision r)) (Some (dr_content_sha256 r)) (rv_document_bytes row) (rv_created_at row) (rv_updated_at row) (Some deleted).

Definition create_body (key : string * string) (idempotency_key_sha256 fingerprint : string)
    (canonical : CanonicalGraphDocument document) : M graph_db (GraphRecord document) :=
  reserved ← reserve_idempotency key.1 "create" idempotency_key_sha256 key.2 fingerprint;
  if negb reserved.1 then lift (create_replay_from_row reserved.2 key)
  else
    revision ← (r ← draw_revision; lift (validated_new_revision r));
    created ← graph_clock;
    updated ← graph_clock;
    row ← insert_graph key (GraphRow key.1 key.2 (cg_data canonical) revision (cg_content_sha256 canonical) created updated);
    match row with
    | None => raiseM GraphStoreAlreadyExistsError "The graph already exists."
    | Some row =>
        record ← lift (row_record row key);
        created ← lift (datetime_from_timestamp (Some (rg_created_at row)));
        updated ← lift (datetime_from_timestamp (Some (rg_updated_at row)));
        completed ← complete_reservation (key.1, "create", idempotency_key_sha256) fingerprint
                      (completed_create record (cg_data canonical) created updated);
        _ ← lift (graph_corrupt (negb (completed =? 1)) "The PostgreSQL create idempotency result could not be committed.");
        mret record
    end.

Definition pg_create_graph (project graph : string) (doc : document) (idempotency_key : string) : M (world graph_db) (GraphRecord document) :=
  key ← lift (validated_graph_key project graph);
  idempotency_key ← lift (validated_idempotency_key idempotency_key);
  let key_sha256 := idempotency_key_sha256 idempotency_key in
  canonical ← lift (canonicalize_graph_document doc max_graph_bytes);
  let fingerprint := create_fingerprint key.1 key.2 (cg_content_sha256 canonical) in
  graph_errors "The PostgreSQL graph-store create failed." (transact (atomically (create_body key key_sha256 fingerprint canonical))).

Definition put_body (key : string * string) (canonical : CanonicalGraphDocument document) (revision expected_revision : string)
    : M graph_db (GraphRecord document) :=
  updated ← graph_clock;
  row ← update_graph key expected_revision (fun row =>
          GraphRow (rg_project row) (rg_graph row) (cg_data canonical) revision (cg_content_sha256 canonical) (rg_created_at row) updated);
  match row with
  | None => raise_missing_or_conflict key
  | Some row => lift (row_record row key)
  end.

Definition pg_put_graph (project graph : string) (doc : document) (expected_revision : string) : M (world graph_db) (GraphRecord document) :=
  key ← lift (validated_graph_key project graph);
  expected_revision ← lift (validated_revision expected_revision);
  canonical ← lift (canonicalize_graph_document doc max_graph_bytes);
  revision ← (r ← draw_first; lift (validated_new_revision r));
  _ ← lift (graph_corrupt (bool_decide (revision = expected_revision))
              "The revision provider did not advance the PostgreSQL graph revision.");
  graph_errors "The PostgreSQL graph-store update failed." (transact (atomically (put_body key canonical revision expected_revision))).

Definition delete_body (key : string * string) (expected_revision idempotency_key_sha256 fingerprint : string)
    : M graph_db GraphDeleteReceipt :=
  reserved ← reserve_idempotency key.1 "delete" idempotency_key_sha256 key.2 fingerprint;
  if negb reserved.1 then lift (delete_replay_from_row reserved.2 key)
  else
    row ← delete_row key expected_revision;
    match row with
    | None => raise_missing_or_conflict key
    | Some row =>
        deleted ← graph_clock;
        receipt ← lift (delete_receipt_from_row (rg_project row) (rg_graph row) (Some (rg_revision row)) (Some (rg_content_sha256 row))
                          (Some deleted) key);
        deleted ← lift (datetime_from_timestamp (Some deleted));
        completed ← complete_reservation (key.1, "delete", idempotency_key_sha256) fingerprint (completed_delete receipt deleted);
        _ ← lift (graph_corrupt (negb (completed =? 1)) "The PostgreSQL delete idempotency result could not be committed.");
        mret receipt
    end.

Definition pg_delete_graph (project graph expected_revision idempotency_key : string) : M (world graph_db) GraphDeleteReceipt :=
  key ← lift (validated_graph_key project graph);
  expected_revision ← lift (validated_revision expected_revision);
  idempotency_key ← lift (validated_idempotency_key idempotency_key);
  let key_sha256 := idempotency_key_sha256 idempotency_key in
  let fingerprint := delete_fingerprint key.1 key.2 expected_revision in
  graph_errors "The PostgreSQL graph-store delete failed."
    (transact (atomically (delete_body key expected_revision key_sha256 fingerprint))).

Definition pg_get_graph (project graph : string) : M (world graph_db) (GraphRecord document) :=
  key ← lift (validated_graph_key project graph);
  graph_errors "The PostgreSQL graph-store read failed." (query (fun d =>
    match gb_graphs d !! key with None => not_found | Some row => row_record row key end)).

Fixpoint summaries_from_rows (rows : list graph_row) (expected_project : string) : result (list GraphSummary) :=
  match rows with
  | [] => Ok []
  | row :: rows => s ← summary_from_row row expected_project; l ← summaries_from_rows rows expected_project; Ok (s :: l)
  end.

Definition pg_list_graphs (project : string) (cursor : option string) (limit : Z) : M (world graph_db) GraphPage :=
  project ← lift (validated_identifier project "project");
  limit ← lift (validated_page_size limit);
  after ← lift (decode_cursor project cursor);
  graph_errors "The PostgreSQL graph-store list failed." (query (fun d =>
    let rows := select_graphs project after (limit + 1) d in
    items ← summaries_from_rows (take (Z.to_nat limit) rows) project;
    let next_cursor := if limit <? Z.of_nat (length rows) then (fun s => encode_cursor project (su_graph s)) <$> last items else None in
    Ok {| gp_items := items; gp_next_cursor := next_cursor |})).

#[export] Instance pg_graph_store : GraphStore document (world graph_db) := {
  list_graphs := pg_list_graphs;
  get_graph := pg_get_graph;
  create_graph := pg_create_graph;
  put_graph := pg_put_graph;
  delete_graph := pg_delete_graph;
}.
End Store.
