(* ===== verification/GraphStorePgSpec.v ===== *)
(** * The PostgreSQL graph store keeps the contract ([control/postgresql_graph_store.py])

    What the two tables say, their invariant, and the promises of
    [GraphStoreSpec] for every operation, with other clients' transactions in
    between and a connection that may be lost before or after a commit. *)

From S2P Require Import Prelude Transactions Regex PyStr Sha256 PyTime Json JsonParse JsonRead Base64 Identifiers PhysicalPlan RunCodec GraphStore GraphStoreSpec GraphStoreMemory GraphStorePg.

Local Open Scope string_scope.
Local Open Scope Z_scope.
Local Open Scope list_scope.

(** Validation sees no more of a JSON value than its canonical bytes: not the
    order of the keys of an object. *)
Class CanonicalModel (document : Type) {GM : GraphModel document} : Prop :=
  validates_bytes (v v' : json) : canonical_json v = canonical_json v' -> model_validate v = model_validate v'.

Definition of_result {A} (r : result A) : option A := match r with Ok a => Some a | Raise _ => None end.

Lemma graph_timestamp_aware t : is_naive t = false -> exists s, graph_timestamp t = Ok s.
Proof. intros H. unfold graph_timestamp. rewrite H. by eexists. Qed.

Lemma stored_key_ok p g k : stored_key p g = Ok k -> k = (p, g).
Proof. intros H%map_error_ok. by apply graph_key_ok in H. Qed.
Lemma stored_revision_ok x x' : stored_revision x = Ok x' -> x = Some x'.
Proof. unfold stored_revision. destruct x as [v|]; [|done]. intros H%map_error_ok. by apply revision_ok in H as ->. Qed.
Lemma stored_sha256_ok x x' : stored_sha256 x = Ok x' -> x = Some x'.
Proof. unfold stored_sha256. destruct x as [v|]; [|done]. intros H. inv_ok. done. Qed.
Lemma datetime_ok t t' : datetime_from_timestamp t = Ok t' -> t = Some t'.
Proof. unfold datetime_from_timestamp. destruct t as [v|]; [|done]. intros H. inv_ok. done. Qed.
Lemma addressed_ok k e m u : addressed k e m = Ok u -> k = e.
Proof. unfold addressed, graph_corrupt. intros H. apply reject_if_ok in H. by apply negb_bool_decide_false in H. Qed.
Lemma addressed_same k m : addressed k k m = Ok tt.
Proof. unfold addressed, graph_corrupt. by rewrite bool_decide_true. Qed.

Section Refinement.
Context {document : Type} {GM : GraphModel document} {CM : CanonicalModel document}.
Context (collate : string -> string -> bool) (max_graph_bytes : Z).

Abbreviation record_from_row := (record_from_row max_graph_bytes).
Abbreviation row_record := (row_record max_graph_bytes).

(** What a record that was read says of its row. *)
Lemma record_fields p g b x c cr up k r : record_from_row p g b x c cr up k = Ok r ->
  (p, g) = k /\ gd_project r = p /\ gd_graph r = g /\ x = Some (gd_revision r) /\ c = Some (gd_content_sha256 r) /\
  (t ← datetime_from_timestamp cr; graph_timestamp t) = Ok (gd_created_at r).
Proof.
  unfold record_from_row. intros H. repeat (apply bind_ok in H; destruct H as (? & ? & H)). injection H as <-.
  repeat match goal with
  | H : stored_key _ _ = Ok _ |- _ => apply stored_key_ok in H as ->
  | H : addressed _ _ _ = Ok _ |- _ => apply addressed_ok in H as <-
  | H : stored_revision _ = Ok _ |- _ => apply stored_revision_ok in H as ->
  | H : stored_sha256 _ = Ok _ |- _ => apply stored_sha256_ok in H as ->
  end.
  split_and!; try done. cbn [gd_created_at]. match goal with H : datetime_from_timestamp cr = _ |- _ => rewrite H end. done.
Qed.

(** The parts of a canonical document; equal bytes are equal documents. *)
Lemma canonical_parts t n (c : CanonicalGraphDocument document) : canonicalize_transport t n = Ok c ->
  exists payload, cg_data c = canonical_json payload /\ model_validate payload = Some (cg_document c).
Proof.
  unfold canonicalize_transport. intros [_ H]%seq_ok. destruct t as [d|]; [|done]. cbn [mbind option_bind] in H.
  destruct (no_inline_credentials (model_dump d) && _); [|done]. destruct (domain_payload d) as [p|]; [|done]. cbn in H.
  destruct (no_inline_credentials p && finite p); [|done]. destruct (model_validate p) as [d'|] eqn:E; [|done]. cbn in H.
  apply seq_ok in H as [_ [= <-]]. by exists p.
Qed.
Lemma canonical_same t t' n n' (c c' : CanonicalGraphDocument document) :
  canonicalize_transport t n = Ok c -> canonicalize_transport t' n' = Ok c' -> cg_data c = cg_data c' -> cg_document c = cg_document c'.
Proof.
  intros (p & Hp & Hv)%canonical_parts (p' & Hp' & Hv')%canonical_parts Hd. rewrite Hp, Hp' in Hd.
  rewrite (validates_bytes p p' Hd), Hv' in Hv. by injection Hv.
Qed.

(** What is read back is what was written. *)
Lemma record_document p g d c x t t' k r : canonicalize_graph_document d max_graph_bytes = Ok c ->
  record_from_row p g (Some (cg_data c)) (Some x) (Some (cg_content_sha256 c)) t t' k = Ok r -> record_of p g c r.
Proof.
  intros Hc H. destruct (record_fields _ _ _ _ _ _ _ _ _ H) as (_ & Hp & Hg & _ & Hs & _). injection Hs as Hs.
  unfold record_from_row in H. repeat (apply bind_ok in H; destruct H as (? & ? & H)). injection H as <-.
  cbn [gd_project gd_graph gd_content_sha256] in *. split_and!; try done; cbn [gd_document gd_revision].
  - match goal with H : graph_corrupt (_ || _) _ = Ok _ |- _ => apply reject_if_ok, orb_false_iff in H as [H%negb_bool_decide_false _] end.
    match goal with H : stored_document _ = Ok _ |- _ => injection H as <- end.
    match goal with H : match loads _ with _ => _ end = Ok _ |- _ => destruct (loads _) as [v|]; [apply map_error_ok in H|done] end.
    eapply canonical_same; [eassumption|exact Hc|done].
  - match goal with H : stored_revision _ = Ok _ |- _ => pose proof (stored_revision_ok _ _ H) as [= ->]; by apply map_error_ok in H end.
Qed.

(** A row that is not read back is reported as corrupt. *)
Abbreviation corrupt := (fun e => exn_cls e = GraphStoreCorruptionError).
Lemma corrupt_if b m : raises corrupt (graph_corrupt b m).
Proof. by destruct b. Qed.
Lemma map_error_corrupt {A} c m (r : result A) : raises (fun e => catches c e = true) r -> raises corrupt (map_error c GraphStoreCorruptionError m r).
Proof. destruct r as [a|e]; [done|]. cbn. by intros ->. Qed.
Lemma canonicalize_raises t n : raises (fun e => catches GraphStoreDocumentError e = true) (@canonicalize_transport document GM t n).
Proof.
  unfold canonicalize_transport. apply raises_bind; [by destruct (_ <=? _)|intros _ _]. destruct (mbind _ t); [|done].
  apply raises_bind; [by destruct (_ <? _)|done].
Qed.
Lemma record_corrupt p g b x c t t' k : raises corrupt (record_from_row p g b x c t t' k).
Proof.
  unfold record_from_row. repeat (apply raises_bind; [|intros ? _]); try apply corrupt_if; try done.
  - apply map_error_corrupt. unfold validated_graph_key, validated_identifier, identifier_reject.
    repeat (apply raises_bind; [|intros ? _]); try done; by destruct (negb _).
  - destruct x; [|done]. apply map_error_corrupt. unfold validated_revision. by destruct (_ || _).
  - destruct c; [|done]. unfold stored_sha256. apply raises_bind; [apply corrupt_if|done].
  - by destruct b.
  - destruct (loads _); [|done]. apply map_error_corrupt, canonicalize_raises.
  - destruct t; [|done]. apply raises_bind; [apply corrupt_if|done].
  - destruct t'; [|done]. apply raises_bind; [apply corrupt_if|done].
Qed.

(** ** What the tables say *)

(** The outcome a completed reservation replays. *)
Definition outcome_of (row : reservation) : option (string * outcome document) :=
  let key := (rv_project row, rv_graph row) in
  pair (rv_fingerprint row) <$>
    if bool_decide (rv_operation row = "create")
    then Created <$> of_result (create_replay_from_row max_graph_bytes row key)
    else Deleted <$> of_result (delete_replay_from_row row key).

Definition tables_view (d : graph_db) : graph_view document :=
  View (omap (fun row => of_result (row_record row (rg_project row, rg_graph row))) (gb_graphs d))
    (fun '(project, operation, key) => gb_reservations d !! (project, operation, idempotency_key_sha256 key) ≫= outcome_of).

(** The invariant: rows are found under their keys and are read back, and no
    reservation is left pending. *)
Record graph_good (d : graph_db) : Prop := {
  good_rows : forall k row, gb_graphs d !! k = Some row -> exists r, row_record row k = Ok r;
  good_reservations : forall k row, gb_reservations d !! k = Some row ->
    k = (rv_project row, rv_operation row, rv_key_sha256 row) /\ rv_completed row = true /\ is_Some (outcome_of row);
}.

Definition lawful_event (e : event graph_db) : Prop :=
  match e with
  | Foreign f => forall d, graph_good d ->
      graph_good (f d) /\ meanwhile max_graph_bytes (tables_view d) (tables_view (f d))
  | Refused e => catches GraphStoreError e = false
  | _ => True
  end.
Definition pg_ok (w : world graph_db) : Prop := graph_good (wd_durable w) /\ Forall lawful_event (wd_weather w).
Definition pg_view (w : world graph_db) : graph_view document := tables_view (wd_durable w).

Abbreviation keeps := (performs max_graph_bytes pg_ok pg_view).

Lemma settle_meanwhile d es d' fate es' :
  settle d es = (d', fate, es') -> graph_good d -> Forall lawful_event es ->
  graph_good d' /\ meanwhile max_graph_bytes (tables_view d) (tables_view d') /\ Forall lawful_event es' /\
  (forall e, fate = Undone e -> catches GraphStoreError e = false).
Proof.
  revert d; induction es as [|e es IH]; intros d; cbn; [by intros [= <- <- <-]|].
  intros H Hd [He Hes]%Forall_cons. destruct e as [f| |e|]; try (by injection H as <- <- <-).
  - destruct (He d Hd) as [Hg Hl]. destruct (IH (f d) H Hg Hes) as (? & ? & ? & ?). split_and!; [done|by etrans|done..].
  - injection H as <- <- <-. split_and!; [done..|]. by intros e' [= <-].
Qed.

(** ** From the body of a transaction to the operation *)

(** What a body promises: it raises nothing but what the contract allows, an
    untrustworthy table, or what the operation reports as a failure. *)
Definition body_keeps {A} (body : graph_db -> result (A * graph_db)) (spec : graph_view document -> result A -> graph_view document -> Prop) : Prop :=
  forall d, graph_good d ->
  match body d with
  | Ok (a, d') => graph_good d' /\ spec (tables_view d) (Ok a) (tables_view d')
  | Raise e => spec (tables_view d) (Raise e) (tables_view d) \/ exn_cls e = GraphStoreCorruptionError \/
               catches GraphStoreError e = false
  end.

Lemma broken {A} (spec : graph_view document -> result A -> graph_view document -> Prop) v v' m :
  same v v' \/ (exists a, spec v (Ok a) v') -> breakdown spec v (raise_ GraphStoreError m) v'.
Proof. intros H. eexists. split; [done|]. split; [by left|done]. Qed.

Lemma transaction_keeps {A} (body : graph_db -> result (A * graph_db)) spec m w :
  body_keeps body spec -> pg_ok w -> let '(res, w') := graph_errors m (transact body) w in
  pg_ok w' /\ exists v, meanwhile max_graph_bytes (pg_view w) v /\ (spec v res (pg_view w') \/ breakdown spec v res (pg_view w')).
Proof.
  intros Hb [Hg Hw]. unfold graph_errors, try_except, transact, pg_ok, pg_view.
  destruct (settle (wd_durable w) (wd_weather w)) as [[d fate] es] eqn:E.
  destruct (settle_meanwhile _ _ _ _ _ E Hg Hw) as (Hd & Hl & Hes & Hu). specialize (Hb d Hd).
  assert (forall e, fate = Undone e \/ catches GraphStoreError e = false -> breakdown spec (tables_view d)
            (if catches GraphStoreError e then Raise e else raise_ GraphStoreError m) (tables_view d)) as Hbroken.
  { intros e He. assert (catches GraphStoreError e = false) as -> by (destruct He; eauto). apply broken. by left. }
  assert (forall e, spec (tables_view d) (Raise e) (tables_view d) \/ exn_cls e = GraphStoreCorruptionError \/ catches GraphStoreError e = false ->
    catches GraphStoreError e = false \/ (spec (tables_view d) (Raise e) (tables_view d) \/ breakdown spec (tables_view d) (Raise e) (tables_view d))) as Hraise.
  { intros e [He|[He|He]]; [by right; left| |by left]. right. right. exists e. split; [done|]. split; [by right|by left]. }
  destruct fate as [|e0|], (body d) as [[a d']|e]; cbn [wd_durable wd_weather].
  - destruct Hb as [Hd' Hs]. split; [done|]. exists (tables_view d). split; [done|]. by left.
  - destruct (Hraise e Hb) as [He|He]; [specialize (Hbroken e (or_intror He)); rewrite He in *|destruct (catches GraphStoreError e) eqn:Ec].
    + split; [done|]. exists (tables_view d). split; [done|]. by right.
    + split; [done|]. by exists (tables_view d).
    + split; [done|]. exists (tables_view d). split; [done|]. right. apply broken. by left.
  - specialize (Hbroken e0 (or_introl eq_refl)). rewrite (Hu e0 eq_refl) in *. split; [done|]. exists (tables_view d). split; [done|]. by right.
  - specialize (Hbroken e0 (or_introl eq_refl)). rewrite (Hu e0 eq_refl) in *. split; [done|]. exists (tables_view d). split; [done|]. by right.
  - destruct Hb as [Hd' Hs]. split; [done|]. exists (tables_view d). split; [done|]. right. apply broken. right. by exists a.
  - destruct (Hraise e Hb) as [He|He]; [specialize (Hbroken e (or_intror He)); rewrite He in *|destruct (catches GraphStoreError e) eqn:Ec].
    + split; [done|]. exists (tables_view d). split; [done|]. by right.
    + split; [done|]. by exists (tables_view d).
    + split; [done|]. exists (tables_view d). split; [done|]. right. apply broken. by left.
Qed.

(** Input that is refused before the database is asked. *)
Lemma raise_keeps {A} (e : exn) (spec : graph_view document -> result A -> graph_view document -> Prop) :
  (forall v, spec v (Raise e) v) -> keeps (lift (Raise e)) spec.
Proof. intros H w Hw. split; [done|]. exists (pg_view w). split; [constructor|]. left. apply H. Qed.

(** ** Rows and views *)

Lemma row_key row k r : row_record row k = Ok r -> k = (rg_project row, rg_graph row).
Proof. by intros (<- & _)%record_fields. Qed.

Lemma view_row d k : graph_good d -> vg_graphs (tables_view d) !! k = row ← gb_graphs d !! k; of_result (row_record row k).
Proof.
  intros Hg. cbn [vg_graphs tables_view]. rewrite lookup_omap. destruct (gb_graphs d !! k) as [row|] eqn:E; [|done]. cbn.
  destruct (good_rows _ Hg _ _ E) as [r Hr]. by rewrite <- (row_key _ _ _ Hr).
Qed.

Lemma view_none d k : graph_good d -> gb_graphs d !! k = None -> vg_graphs (tables_view d) !! k = None.
Proof. intros Hg E. by rewrite view_row, E. Qed.
Lemma view_some d k row : graph_good d -> gb_graphs d !! k = Some row ->
  exists r, row_record row k = Ok r /\ vg_graphs (tables_view d) !! k = Some r.
Proof. intros Hg E. destruct (good_rows _ Hg _ _ E) as [r Hr]. exists r. split; [done|]. rewrite view_row, E by done. cbn. by rewrite Hr. Qed.

Lemma view_dom d : graph_good d -> dom (vg_graphs (tables_view d)) =@{gset (string * string)} dom (gb_graphs d).
Proof.
  intros Hg. apply set_eq. intros k. rewrite !elem_of_dom. rewrite view_row by done.
  destruct (gb_graphs d !! k) as [row|] eqn:E; cbn; [|by split; intros [? [=]]].
  destruct (good_rows _ Hg _ _ E) as [r Hr]. rewrite Hr. split; eauto.
Qed.

(** What a record says of the stored values. *)
Lemma record_stored p g b x c cr up k r : record_from_row p g b x c cr up k = Ok r ->
  stored_key p g = Ok k /\ stored_revision x = Ok (gd_revision r) /\ stored_sha256 c = Ok (gd_content_sha256 r) /\
  exists created updated, cr = Some created /\ up = Some updated /\ is_naive created = false /\ is_naive updated = false /\
    dt_ltb updated created = false /\ graph_timestamp created = Ok (gd_created_at r) /\ graph_timestamp updated = Ok (gd_updated_at r).
Proof.
  unfold record_from_row. intros H. repeat (apply bind_ok in H; destruct H as (? & ? & H)). injection H as <-. cbn [gd_revision gd_content_sha256 gd_created_at gd_updated_at].
  repeat match goal with
  | H : addressed _ _ _ = Ok _ |- _ => apply addressed_ok in H as <-
  | H : graph_corrupt (dt_ltb _ _) _ = Ok _ |- _ => apply reject_if_ok in H
  end.
  split_and!; try done. do 2 eexists. repeat match goal with
  | H : datetime_from_timestamp _ = Ok _ |- _ =>
      pose proof (datetime_ok _ _ H); subst; unfold datetime_from_timestamp, graph_corrupt in H; apply seq_ok in H as [H _]; apply reject_if_ok in H
  end. by split_and!.
Qed.

(** The summary of a row is the summary of its record. *)
Lemma summary_of_row row p g r : row_record row (p, g) = Ok r -> summary_from_row row p = Ok (summary r).
Proof.
  intros H. destruct (record_fields _ _ _ _ _ _ _ _ _ H) as (Hk & Hp & Hgr & _). injection Hk as <- <-.
  destruct (record_stored _ _ _ _ _ _ _ _ _ H) as (Hs & Hx & Hc & cr & up & [= <-] & [= <-] & Hn & Hn' & Hle & Hcr & Hup).
  unfold summary_from_row, datetime_from_timestamp. rewrite Hs. cbn [mbind result_bind fst snd]. rewrite bool_decide_true by done.
  cbn [negb graph_corrupt reject_if mbind result_bind]. rewrite Hn, Hn'. cbn [graph_corrupt reject_if mbind result_bind].
  rewrite Hle. cbn [graph_corrupt reject_if mbind result_bind]. rewrite Hx, Hc. cbn [mbind result_bind]. rewrite Hcr, Hup.
  cbn [mbind result_bind]. unfold summary. by rewrite Hp, Hgr.
Qed.

(** The receipt for a row that is read back. *)
Lemma receipt_of_row row k r i : row_record row k = Ok r -> exists receipt,
  delete_receipt_from_row (rg_project row) (rg_graph row) (Some (rg_revision row)) (Some (rg_content_sha256 row)) (Some (utc i)) k = Ok receipt /\
  dr_project receipt = k.1 /\ dr_graph receipt = k.2 /\ dr_revision receipt = gd_revision r /\ dr_revision receipt = rg_revision row /\
  dr_content_sha256 receipt = gd_content_sha256 r /\ dr_content_sha256 receipt = rg_content_sha256 row.
Proof.
  intros H. destruct (record_stored _ _ _ _ _ _ _ _ _ H) as (Hs & Hx & Hc & _).
  unfold delete_receipt_from_row. rewrite Hs. cbn [mbind result_bind]. rewrite addressed_same. cbn [mbind result_bind]. rewrite Hx, Hc.
  unfold datetime_from_timestamp. cbn [is_naive dt_offset utc is_none graph_corrupt reject_if mbind result_bind].
  destruct (graph_timestamp_aware (utc i) eq_refl) as [s ->]. cbn [mbind result_bind]. eexists. split; [done|].
  apply stored_revision_ok in Hx. apply stored_sha256_ok in Hc. cbn [dr_project dr_graph dr_revision dr_content_sha256]. split_and!; congruence.
Qed.

(** ** Reservations *)

Definition pending (p op h g fingerprint : string) : reservation :=
  Reservation p op h fingerprint g false None None None None None None.

(** What reserving finds: the completed request of a key, or a fresh claim. *)
Lemma reserve_cases p op h g fp d : graph_good d ->
  match gb_reservations d !! (p, op, h) with
  | Some row => reserve_idempotency p op h g fp d =
      if bool_decide (rv_fingerprint row = fp) && bool_decide (rv_graph row = g) then (Ok (false, row), d) else (replay_conflict, d)
  | None => (exists e, catches GraphStoreError e = false /\ reserve_idempotency p op h g fp d = (Raise e, d)) \/
      reserve_idempotency p op h g fp d =
        (Ok (true, pending p op h g fp), with_reservations (<[(p, op, h) := pending p op h g fp]> (gb_reservations d)) d)
  end.
Proof.
  intros Hg. unfold reserve_idempotency, insert_reservation, graph_statement, mbind, M_bind. fold (pending p op h g fp).
  destruct (gb_reservations d !! (p, op, h)) as [row|] eqn:E; cbn [is_some].
  - cbn [lift graph_corrupt reject_if Z.eqb orb negb get_state]. rewrite E. unfold lift, reject_if.
    destruct (bool_decide (rv_fingerprint row = fp)), (bool_decide (rv_graph row = g)); cbn [negb orb andb]; try done.
    by rewrite (proj1 (proj2 (good_reservations _ Hg _ _ E))).
  - destruct (reservation_check _); [right|left; by exists driver_error].
    cbn [lift graph_corrupt reject_if Z.eqb Pos.eqb orb negb get_state with_reservations gb_reservations]. rewrite lookup_insert_eq.
    cbn [pending rv_fingerprint rv_graph rv_completed]. by rewrite !bool_decide_true.
Qed.

(** The outcome recorded for a completed request is what it replays. *)
Lemma outcome_some d p op k row o : graph_good d -> gb_reservations d !! (p, op, idempotency_key_sha256 k) = Some row ->
  outcome_of row = Some o -> vg_outcomes (tables_view d) (p, op, k) = Some o /\ rv_project row = p /\ rv_operation row = op.
Proof.
  intros Hg E Ho. destruct (good_reservations _ Hg _ _ E) as (Hk & _). injection Hk as -> -> _. cbn [vg_outcomes tables_view]. by rewrite E.
Qed.

Lemma create_replays d p k row g fp : graph_good d -> gb_reservations d !! (p, "create", idempotency_key_sha256 k) = Some row ->
  exists o, vg_outcomes (tables_view d) (p, "create", k) = Some o /\
    replays gd_graph (replay_record o fp) g
      (if bool_decide (rv_fingerprint row = fp) && bool_decide (rv_graph row = g)
       then create_replay_from_row max_graph_bytes row (p, g) else replay_conflict).
Proof.
  intros Hg E. destruct (good_reservations _ Hg _ _ E) as (_ & _ & o & Ho). exists o.
  destruct (outcome_some _ _ _ _ _ _ Hg E Ho) as (Hv & Hp & Hop). split; [done|]. unfold outcome_of in Ho. rewrite Hop, bool_decide_true in Ho by done.
  destruct (create_replay_from_row _ _ _) as [r|] eqn:Er; [|done]. injection Ho as <-. unfold replay_record. cbn [fst snd].
  destruct (bool_decide (rv_fingerprint row = fp)); cbn [andb]; [|by left].
  case_bool_decide as Hgr; [left; by rewrite <- Hp, <- Hgr|]. right. exists r. split; [done|]. split; [|done].
  unfold create_replay_from_row in Er. apply record_fields in Er as (_ & _ & -> & _). done.
Qed.

Lemma delete_replays d p k row g fp : graph_good d -> gb_reservations d !! (p, "delete", idempotency_key_sha256 k) = Some row ->
  exists o, vg_outcomes (tables_view d) (p, "delete", k) = Some o /\
    replays dr_graph (replay_receipt o fp) g
      (if bool_decide (rv_fingerprint row = fp) && bool_decide (rv_graph row = g)
       then delete_replay_from_row row (p, g) else replay_conflict).
Proof.
  intros Hg E. destruct (good_reservations _ Hg _ _ E) as (_ & _ & o & Ho). exists o.
  destruct (outcome_some _ _ _ _ _ _ Hg E Ho) as (Hv & Hp & Hop). split; [done|]. unfold outcome_of in Ho. rewrite Hop, bool_decide_false in Ho by done.
  destruct (delete_replay_from_row _ _) as [r|] eqn:Er; [|done]. injection Ho as <-. unfold replay_receipt. cbn [fst snd].
  destruct (bool_decide (rv_fingerprint row = fp)); cbn [andb]; [|by left].
  case_bool_decide as Hgr; [left; by rewrite <- Hp, <- Hgr|]. right. exists r. split; [done|]. split; [|done].
  unfold delete_replay_from_row, delete_receipt_from_row in Er. repeat (apply bind_ok in Er; destruct Er as (? & ? & Er)). injection Er as <-.
  match goal with H : stored_key _ _ = Ok _ |- _ => apply stored_key_ok in H as -> end. done.
Qed.

(** ** Effects *)

(** A completed reservation is booked under its key. *)
Lemma booked d d' p op k row o : gb_reservations d !! (p, op, idempotency_key_sha256 k) = None ->
  gb_reservations d' = <[(p, op, idempotency_key_sha256 k) := row]> (gb_reservations d) -> outcome_of row = Some o ->
  books (p, op, k) o (tables_view d) (tables_view d').
Proof.
  intros Hn Hr Ho. split; cbn [vg_outcomes tables_view].
  - rewrite Hr, lookup_insert_eq. done.
  - intros [[p' op'] k'] o' Hk'. cbn [vg_outcomes tables_view] in *. rewrite Hr.
    rewrite lookup_insert_ne; [done|]. intros Hk. rewrite <- Hk, Hn in Hk'. done.
Qed.
Lemma unbooked d p op k : gb_reservations d !! (p, op, idempotency_key_sha256 k) = None -> vg_outcomes (tables_view d) (p, op, k) = None.
Proof. intros Hn. cbn [vg_outcomes tables_view]. by rewrite Hn. Qed.

Lemma good_insert d d' k row r : graph_good d -> gb_graphs d' = <[k := row]> (gb_graphs d) -> row_record row k = Ok r ->
  (forall k row, gb_graphs d' !! k = Some row -> exists r, row_record row k = Ok r) /\
  vg_graphs (tables_view d') = <[k := r]> (vg_graphs (tables_view d)).
Proof.
  intros Hg Hd' Hr. split.
  - intros k0 row0. rewrite Hd'. intros [[<- <-]|[_ H]]%lookup_insert_Some; [by exists r|]. by apply (good_rows _ Hg).
  - cbn [vg_graphs tables_view]. rewrite Hd', omap_insert. by rewrite <- (row_key _ _ _ Hr), Hr.
Qed.
Lemma good_delete d d' k : graph_good d -> gb_graphs d' = delete k (gb_graphs d) ->
  (forall k row, gb_graphs d' !! k = Some row -> exists r, row_record row k = Ok r) /\
  vg_graphs (tables_view d') = delete k (vg_graphs (tables_view d)).
Proof.
  intros Hg Hd'. split.
  - intros k0 row0. rewrite Hd'. intros [_ H]%lookup_delete_Some. by apply (good_rows _ Hg).
  - cbn [vg_graphs tables_view]. by rewrite Hd', omap_delete.
Qed.
Lemma good_booked d d' k row : graph_good d -> gb_reservations d' = <[k := row]> (gb_reservations d) ->
  k = (rv_project row, rv_operation row, rv_key_sha256 row) -> rv_completed row = true -> is_Some (outcome_of row) ->
  forall k row, gb_reservations d' !! k = Some row ->
    k = (rv_project row, rv_operation row, rv_key_sha256 row) /\ rv_completed row = true /\ is_Some (outcome_of row).
Proof. intros Hg Hd' Hk Hc Ho k0 row0. rewrite Hd'. intros [[<- <-]|[_ H]]%lookup_insert_Some; [done|]. by apply (good_reservations _ Hg). Qed.

(** The clock and the supply of tokens are not seen. *)
Lemma good_same d d' : gb_graphs d' = gb_graphs d -> gb_reservations d' = gb_reservations d -> graph_good d ->
  graph_good d' /\ tables_view d' = tables_view d.
Proof. intros H1 H2 [Hg1 Hg2]. unfold tables_view. rewrite H1, H2. split; [|done]. split; rewrite ?H1, ?H2; done. Qed.

(** The record a row that was just written gives. *)
Definition written (c : CanonicalGraphDocument document) (p g x : string) (t t' : datetime) : graph_row :=
  GraphRow p g (cg_data c) x (cg_content_sha256 c) t t'.
Lemma written_row p g d c x t t' : canonicalize_graph_document d max_graph_bytes = Ok c ->
  (exists r, row_record (written c p g x t t') (p, g) = Ok r /\ record_of p g c r) \/
  exists e, row_record (written c p g x t t') (p, g) = Raise e /\ exn_cls e = GraphStoreCorruptionError.
Proof.
  intros Hc. pose proof (record_corrupt p g (Some (cg_data c)) (Some x) (Some (cg_content_sha256 c)) (Some t) (Some t') (p, g)) as He.
  unfold row_record, written. cbn. destruct (record_from_row _ _ _ _ _ _ _ _) as [r|e] eqn:E; [left|right; by exists e].
  exists r. split; [done|]. by eapply record_document.
Qed.

(** The reservation a create completes replays its record. *)
Lemma completed_outcome p g h fp c x t t' r : row_record (written c p g x t t') (p, g) = Ok r ->
  outcome_of (completed_create r (cg_data c) t t' (pending p "create" h g fp)) = Some (fp, Created r).
Proof.
  intros Hr. destruct (record_fields _ _ _ _ _ _ _ _ _ Hr) as (_ & _ & _ & Hx & Hc & _). cbn in Hx, Hc. injection Hx as Hx. injection Hc as Hc.
  unfold outcome_of, create_replay_from_row, completed_create, pending.
  cbn [rv_project rv_operation rv_graph rv_document_bytes rv_revision rv_content_sha256 rv_created_at rv_updated_at rv_fingerprint fst snd].
  rewrite bool_decide_true by done. rewrite <- Hx, <- Hc. unfold row_record, written in Hr. cbn in Hr. by rewrite Hr.
Qed.
Lemma completed_receipt p g h fp x c i receipt :
  delete_receipt_from_row p g (Some x) (Some c) (Some (utc i)) (p, g) = Ok receipt -> dr_revision receipt = x -> dr_content_sha256 receipt = c ->
  outcome_of (completed_delete receipt (utc i) (pending p "delete" h g fp)) = Some (fp, Deleted receipt).
Proof.
  intros Hr <- <-. unfold outcome_of, delete_replay_from_row, completed_delete, pending.
  cbn [rv_project rv_operation rv_graph rv_revision rv_content_sha256 rv_deleted_at rv_fingerprint fst snd].
  rewrite bool_decide_false by done. by rewrite Hr.
Qed.

(** ** The bodies of the transactions *)

Lemma revision_draws d : exists x rv, draw_revision d = (Ok x, GraphDb (gb_graphs d) (gb_reservations d) (gb_clock d) rv).
Proof. destruct d as [gs rs cl [|x rv]]; by do 2 eexists. Qed.
Lemma clock_reads d : graph_clock d = (Raise driver_error, d) \/
  exists i cl, graph_clock d = (Ok (utc i), GraphDb (gb_graphs d) (gb_reservations d) cl (gb_revisions d)).
Proof. destruct d as [gs rs [|i cl] rv]; [by left|right]. by do 2 eexists. Qed.
Lemma bind_run {W A B} (m : M W A) (f : A -> M W B) w :
  (m ≫= f) w = match m w with (Ok a, w') => f a w' | (Raise e, w') => (Raise e, w') end.
Proof. done. Qed.

#[local] Arguments GraphStorePg.record_from_row : simpl never.
#[local] Arguments graph_row_check : simpl never.
#[local] Arguments reservation_check : simpl never.
#[local] Arguments validated_new_revision : simpl never.
#[local] Arguments delete_receipt_from_row : simpl never.
Ltac tables := cbn [gb_graphs gb_reservations gb_clock gb_revisions with_graphs with_reservations].
(** A token is drawn; the clock is read. *)
Ltac draws x rv := match goal with |- context [draw_revision ?d] => destruct (revision_draws d) as (x & rv & ->) end; tables.
Ltac ticks i cl :=
  rewrite bind_run; match goal with |- context [graph_clock ?d] => destruct (clock_reads d) as [->|(i & cl & ->)] end; [by right; right|]; tables.

(** A claim of this transaction is completed, or the server refuses the row. *)
Lemma claim_completes p op h g fp f d rs : gb_reservations d = <[(p, op, h) := pending p op h g fp]> rs ->
  complete_reservation (p, op, h) fp f d = (Raise driver_error, d) \/
  complete_reservation (p, op, h) fp f d = (Ok 1, with_reservations (<[(p, op, h) := f (pending p op h g fp)]> rs) d).
Proof.
  intros Hr. unfold complete_reservation, graph_statement. rewrite Hr, lookup_insert_eq. cbn [pending rv_fingerprint rv_completed].
  rewrite bool_decide_true by done. cbn [andb negb]. destruct (reservation_check _); [right|by left]. by rewrite insert_insert_eq.
Qed.

(** What follows a claim in [create_body]. *)
Lemma create_claimed p g k fp c d :
  canonicalize_graph_document d max_graph_bytes = Ok c ->
  forall db, graph_good db -> gb_reservations db !! (p, "create", idempotency_key_sha256 k) = None ->
  match create_body max_graph_bytes (p, g) (idempotency_key_sha256 k) fp c db with
  | (Ok r, db') => gb_graphs db !! (p, g) = None /\ exists x i j,
      row_record (written c p g x (utc i) (utc j)) (p, g) = Ok r /\ record_of p g c r /\
      gb_graphs db' = <[(p, g) := written c p g x (utc i) (utc j)]> (gb_graphs db) /\
      gb_reservations db' = <[(p, "create", idempotency_key_sha256 k) :=
        completed_create r (cg_data c) (utc i) (utc j) (pending p "create" (idempotency_key_sha256 k) g fp)]> (gb_reservations db)
  | (Raise e, _) => (is_Some (gb_graphs db !! (p, g)) /\ e = Exn GraphStoreAlreadyExistsError "The graph already exists." []) \/
      exn_cls e = GraphStoreCorruptionError \/ catches GraphStoreError e = false
  end.
Proof.
  intros Hc db Hg Hn. pose proof (reserve_cases p "create" (idempotency_key_sha256 k) g fp db Hg) as Hres. rewrite Hn in Hres.
  unfold create_body. rewrite bind_run. cbn [fst snd].
  destruct Hres as [(e & He & ->)| ->]; [by right; right|]. cbn [negb fst]. rewrite !bind_run. draws x rv.
  unfold lift at 1. destruct (validated_new_revision x) as [x'|e] eqn:Ex; [|right; left; by eapply new_revision_raises].
  apply new_revision_ok in Ex as [-> Ex]. ticks i cl. ticks j cl'.
  rewrite bind_run. unfold insert_graph, graph_statement. tables.
  destruct (gb_graphs db !! (p, g)) as [row|] eqn:Eg; cbn [is_some]; [left; by split|]. fold (written c p g x (utc i) (utc j)).
  destruct (graph_row_check _) eqn:Echeck; [|by right; right]. tables.
  rewrite lift_bind. destruct (written_row p g d c x (utc i) (utc j) Hc) as [(r & Hr & Hrec)|(e & -> & He)]; [rewrite Hr|by right; left]. cbn [written rg_created_at rg_updated_at]. rewrite !lift_bind.
  unfold datetime_from_timestamp. cbn [is_naive dt_offset utc is_none graph_corrupt reject_if mbind result_bind]. rewrite lift_bind, bind_run.
  match goal with |- context [complete_reservation _ _ ?f ?w] =>
    destruct (claim_completes p "create" (idempotency_key_sha256 k) g fp f w (gb_reservations db) eq_refl) as [->| ->] end; [by right; right|].
  cbn [lift graph_corrupt reject_if Z.eqb Pos.eqb negb]. split; [done|]. by exists x, i, j.
Qed.

Lemma create_body_keeps p g k d c fp : create_inputs max_graph_bytes p g d k = Ok c -> fp = create_fingerprint p g (cg_content_sha256 c) ->
  body_keeps (atomically (create_body max_graph_bytes (p, g) (idempotency_key_sha256 k) fp c)) (create_spec max_graph_bytes p g d k).
Proof.
  intros Hin -> db Hg. unfold atomically, create_spec. rewrite Hin. set (fp := create_fingerprint _ _ _).
  unfold create_inputs in Hin. apply bind_ok in Hin as (key & Hk & Hin). pose proof (graph_key_ok _ _ _ Hk) as ->. apply bind_ok in Hin as (k' & _ & Hc).
  destruct (gb_reservations db !! (p, "create", idempotency_key_sha256 k)) as [row|] eqn:E.
  - destruct (create_replays db p k row g fp Hg E) as (o & Ho & Hreplay).
    pose proof (reserve_cases p "create" (idempotency_key_sha256 k) g fp db Hg) as Hres. rewrite E in Hres.
    unfold create_body. rewrite bind_run. cbn [fst snd]. rewrite Hres, Ho. destruct (_ && _); cbn [negb fst snd lift].
    + destruct (create_replay_from_row _ _ _) as [r|e]; [|by left]. done.
    + left. done.
  - rewrite (unbooked _ _ _ _ E). pose proof (create_claimed p g k fp c d Hc db Hg E) as Hcl.
    destruct (create_body _ _ _ _ _ db) as [[r|e] db'].
    + destruct Hcl as (Hn & x & i & j & Hr & Hrec & Hgs & Hrs). rewrite (view_none _ _ Hg Hn).
      pose proof (completed_outcome p g (idempotency_key_sha256 k) fp c x (utc i) (utc j) r Hr) as Ho.
      destruct (good_insert db db' (p, g) _ r Hg Hgs Hr) as [Hg1 Hv]. split.
      * split; [done|]. eapply good_booked; [done|exact Hrs|done|done|]. rewrite Ho. by eexists.
      * exists r. split; [done|]. split; [done|]. split; [done|by eapply booked].
    + destruct Hcl as [[[row Hrow] ->]|[He|He]]; [left|right; by left|right; by right].
      destruct (view_some _ _ _ Hg Hrow) as (r & _ & ->). done.
Qed.

(** What a compare-and-swap that found no row says of the graph. *)
Lemma missing_or_conflict {A} k d :
  @raise_missing_or_conflict A k d = (match gb_graphs d !! k with None => not_found | Some _ => stale end, d).
Proof. unfold raise_missing_or_conflict. rewrite bind_run. cbn [get_state]. by destruct (gb_graphs d !! k). Qed.

Lemma row_revision row k r : row_record row k = Ok r -> gd_revision r = rg_revision row.
Proof. intros (_ & _ & _ & [= <-] & _)%record_fields. done. Qed.

Lemma put_body_keeps p g d c x x' : put_inputs max_graph_bytes p g d x = Ok c -> validated_revision x' = Ok x' ->
  body_keeps (atomically (put_body max_graph_bytes (p, g) c x' x)) (put_spec max_graph_bytes p g d x).
Proof.
  intros Hin Hx' db Hg. unfold atomically, put_spec. rewrite Hin.
  unfold put_inputs in Hin. apply bind_ok in Hin as (key & Hk & Hin). pose proof (graph_key_ok _ _ _ Hk) as ->. apply bind_ok in Hin as (k' & _ & Hc).
  unfold put_body. rewrite bind_run. destruct (clock_reads db) as [->|(j & cl & ->)]; [by right; right|].
  rewrite bind_run. unfold update_graph, graph_statement. tables.
  destruct (gb_graphs db !! (p, g)) as [row|] eqn:Eg.
  2:{ rewrite (view_none _ _ Hg Eg). rewrite missing_or_conflict. tables. rewrite Eg. by left. }
  destruct (view_some _ _ _ Hg Eg) as (cur & Hcur & ->). rewrite (row_revision _ _ _ Hcur).
  case_bool_decide as Hx; [|rewrite missing_or_conflict; tables; rewrite Eg; by left].
  destruct (graph_row_check _) eqn:Echeck; [|by right; right]. pose proof (row_key _ _ _ Hcur) as [= -> ->].
  destruct (record_stored _ _ _ _ _ _ _ _ _ Hcur) as (_ & _ & _ & t & t' & [= Ht] & _ & Hn & _ & _ & Hcr & _). rewrite Ht in *.
  fold (written c (rg_project row) (rg_graph row) x' t (utc j)). unfold lift.
  destruct (written_row (rg_project row) (rg_graph row) d c x' t (utc j) Hc) as [(r & Hr & Hrec)|(e & -> & He)]; [rewrite Hr|by right; left].
  match goal with |- graph_good ?d' /\ _ => destruct (good_insert db d' _ _ r Hg eq_refl Hr) as [Hg1 Hv] end.
  split; [split; [exact Hg1|exact (good_reservations _ Hg)]|]. exists r. split; [done|]. split; [done|]. split.
  - destruct (record_stored _ _ _ _ _ _ _ _ _ Hr) as (_ & _ & _ & t1 & t2 & [= <-] & _ & _ & _ & _ & Hcr' & _). congruence.
  - split; [by rewrite Hv|done].
Qed.

(** What follows a claim in [delete_body]. *)
Lemma delete_claimed p g k x fp db : graph_good db -> gb_reservations db !! (p, "delete", idempotency_key_sha256 k) = None ->
  match delete_body (p, g) x (idempotency_key_sha256 k) fp db with
  | (Ok receipt, db') => exists row r i, gb_graphs db !! (p, g) = Some row /\ rg_revision row = x /\ row_record row (p, g) = Ok r /\
      delete_receipt_from_row p g (Some x) (Some (rg_content_sha256 row)) (Some (utc i)) (p, g) = Ok receipt /\
      gb_graphs db' = delete (p, g) (gb_graphs db) /\
      gb_reservations db' = <[(p, "delete", idempotency_key_sha256 k) :=
        completed_delete receipt (utc i) (pending p "delete" (idempotency_key_sha256 k) g fp)]> (gb_reservations db)
  | (Raise e, _) => match gb_graphs db !! (p, g) with
                    | None => Raise e = @not_found unit
                    | Some row => rg_revision row <> x /\ Raise e = @stale unit
                    end \/ exn_cls e = GraphStoreCorruptionError \/ catches GraphStoreError e = false
  end.
Proof.
  intros Hg Hn. pose proof (reserve_cases p "delete" (idempotency_key_sha256 k) g fp db Hg) as Hres. rewrite Hn in Hres.
  unfold delete_body. rewrite bind_run. cbn [fst snd].
  destruct Hres as [(e & He & ->)| ->]; [by right; right|]. cbn [negb fst]. rewrite bind_run. unfold delete_row, graph_statement. tables.
  destruct (gb_graphs db !! (p, g)) as [row|] eqn:Eg.
  2:{ rewrite missing_or_conflict. tables. rewrite Eg. by left. }
  case_bool_decide as Hx; [|rewrite missing_or_conflict; tables; rewrite Eg; by left].
  ticks i cl. destruct (good_rows _ Hg _ _ Eg) as [r Hr]. pose proof (row_key _ _ _ Hr) as [= -> ->].
  destruct (receipt_of_row row _ r i Hr) as (receipt & Hreceipt & _). rewrite lift_bind, Hreceipt, lift_bind.
  unfold datetime_from_timestamp. cbn [is_naive dt_offset utc is_none graph_corrupt reject_if mbind result_bind]. rewrite bind_run.
  match goal with |- context [complete_reservation (?p, _, _) _ ?f ?w] =>
    destruct (claim_completes p "delete" (idempotency_key_sha256 k) (rg_graph row) fp f w (gb_reservations db) eq_refl) as [->| ->] end; [by right; right|].
  cbn [lift graph_corrupt reject_if Z.eqb Pos.eqb negb]. subst x. by exists row, r, i.
Qed.

Lemma delete_body_keeps p g x k fp : delete_inputs p g x k = Ok tt -> fp = delete_fingerprint p g x ->
  body_keeps (atomically (delete_body (p, g) x (idempotency_key_sha256 k) fp)) (delete_spec p g x k).
Proof.
  intros Hin -> db Hg. unfold atomically, delete_spec. rewrite Hin. set (fp := delete_fingerprint _ _ _).
  destruct (gb_reservations db !! (p, "delete", idempotency_key_sha256 k)) as [row|] eqn:E.
  - destruct (delete_replays db p k row g fp Hg E) as (o & Ho & Hreplay).
    pose proof (reserve_cases p "delete" (idempotency_key_sha256 k) g fp db Hg) as Hres. rewrite E in Hres.
    unfold delete_body. rewrite bind_run. cbn [fst snd]. rewrite Hres, Ho. destruct (_ && _); cbn [negb fst snd lift].
    + destruct (delete_replay_from_row _ _) as [r|e]; [|by left]. done.
    + left. done.
  - rewrite (unbooked _ _ _ _ E). pose proof (delete_claimed p g k x fp db Hg E) as Hcl.
    destruct (delete_body _ _ _ _ db) as [[receipt|e] db'].
    + destruct Hcl as (row & r & i & Hrow & Hx & Hr & Hreceipt & Hgs & Hrs).
      destruct (view_some _ _ _ Hg Hrow) as (r' & Hr' & ->). rewrite Hr in Hr'. injection Hr' as <-.
      rewrite bool_decide_true by (by rewrite (row_revision _ _ _ Hr)).
      pose proof (row_key _ _ _ Hr) as [= Hp Hgr]. destruct (receipt_of_row row _ r i Hr) as (rc & Hrc & Hfields).
      rewrite <- Hp, <- Hgr, Hx, Hreceipt in Hrc. injection Hrc as <-. destruct Hfields as (F1 & F2 & F3 & F4 & F5 & F6).
      pose proof (completed_receipt p g (idempotency_key_sha256 k) fp _ _ i receipt Hreceipt ltac:(congruence) F6) as Ho.
      destruct (good_delete db db' (p, g) Hg Hgs) as [Hg1 Hv]. split.
      * split; [done|]. eapply good_booked; [done|exact Hrs|done|done|]. rewrite Ho. by eexists.
      * exists receipt. split_and!; try done; try congruence. by eapply booked.
    + destruct Hcl as [Hraise|[He|He]]; [left|right; by left|right; by right].
      destruct (gb_graphs db !! (p, g)) as [row|] eqn:Eg.
      * destruct (view_some _ _ _ Hg Eg) as (r & Hr & ->). destruct Hraise as [Hx [= ->]].
        rewrite bool_decide_false by (by rewrite (row_revision _ _ _ Hr)). done.
      * injection Hraise as ->. by rewrite (view_none _ _ Hg Eg).
Qed.

(** ** The operations *)

Lemma create_transaction p g d k : keeps (pg_create_graph max_graph_bytes p g d k) (create_spec max_graph_bytes p g d k).
Proof.
  assert (forall e, create_inputs max_graph_bytes p g d k = Raise e -> keeps (lift (Raise e)) (create_spec max_graph_bytes p g d k)) as Hraise.
  { intros e He. apply raise_keeps. intros v. unfold create_spec. by rewrite He. }
  unfold pg_create_graph. intros w. rewrite lift_bind. unfold create_inputs in Hraise.
  destruct (validated_graph_key p g) as [key|e] eqn:Ek; [|by apply Hraise]. pose proof (graph_key_ok _ _ _ Ek) as ->. rewrite lift_bind.
  cbn [mbind result_bind] in Hraise. destruct (validated_idempotency_key k) as [k'|e] eqn:Ei; [|by apply Hraise].
  pose proof (idempotency_key_ok _ _ Ei) as ->. cbv zeta. rewrite lift_bind. cbn [mbind result_bind] in Hraise.
  destruct (canonicalize_graph_document d max_graph_bytes) as [c|e] eqn:Ec; [|by apply Hraise].
  apply transaction_keeps, create_body_keeps; [|done]. unfold create_inputs. rewrite Ek. cbn [mbind result_bind]. by rewrite Ei.
Qed.

Lemma delete_transaction p g x k : keeps (pg_delete_graph p g x k) (delete_spec p g x k).
Proof.
  assert (forall e, delete_inputs p g x k = Raise e -> keeps (lift (Raise e)) (delete_spec p g x k)) as Hraise.
  { intros e He. apply raise_keeps. intros v. unfold delete_spec. by rewrite He. }
  unfold pg_delete_graph. intros w. rewrite lift_bind. unfold delete_inputs in Hraise.
  destruct (validated_graph_key p g) as [key|e] eqn:Ek; [|by apply Hraise]. pose proof (graph_key_ok _ _ _ Ek) as ->. rewrite lift_bind.
  cbn [mbind result_bind] in Hraise. destruct (validated_revision x) as [x'|e] eqn:Ex; [|by apply Hraise].
  pose proof (revision_ok _ _ Ex) as ->. rewrite lift_bind. cbn [mbind result_bind] in Hraise.
  destruct (validated_idempotency_key k) as [k'|e] eqn:Ei; [|by apply Hraise]. pose proof (idempotency_key_ok _ _ Ei) as ->.
  apply transaction_keeps, delete_body_keeps; [|done]. unfold delete_inputs. rewrite Ek. cbn [mbind result_bind]. rewrite Ex. cbn [mbind result_bind]. by rewrite Ei.
Qed.

(** A token that is drawn before the transaction. *)
Lemma draws_first w : pg_ok w -> exists x w', draw_first w = (Ok x, w') /\ pg_ok w' /\ pg_view w' = pg_view w.
Proof.
  intros [Hg Hw]. unfold draw_first. destruct (revision_draws (wd_durable w)) as (x & rv & ->). do 2 eexists. split; [done|].
  destruct (good_same (wd_durable w) (GraphDb (gb_graphs (wd_durable w)) (gb_reservations (wd_durable w)) (gb_clock (wd_durable w)) rv) eq_refl eq_refl Hg) as [Hg' Hv].
  unfold pg_ok, pg_view. cbn [wd_durable wd_weather]. by rewrite Hv.
Qed.

Lemma put_transaction p g d x : keeps (pg_put_graph max_graph_bytes p g d x) (put_spec max_graph_bytes p g d x).
Proof.
  assert (forall e, put_inputs max_graph_bytes p g d x = Raise e -> keeps (lift (Raise e)) (put_spec max_graph_bytes p g d x)) as Hraise.
  { intros e He. apply raise_keeps. intros v. unfold put_spec. by rewrite He. }
  unfold pg_put_graph. intros w. rewrite lift_bind. unfold put_inputs in Hraise.
  destruct (validated_graph_key p g) as [key|e] eqn:Ek; [|by apply Hraise]. pose proof (graph_key_ok _ _ _ Ek) as ->. rewrite lift_bind.
  cbn [mbind result_bind] in Hraise. destruct (validated_revision x) as [x0|e] eqn:Ex; [|by apply Hraise].
  pose proof (revision_ok _ _ Ex) as ->. rewrite lift_bind. cbn [mbind result_bind] in Hraise.
  destruct (canonicalize_graph_document d max_graph_bytes) as [c|e] eqn:Ec; [|by apply Hraise]. clear Hraise.
  assert (put_inputs max_graph_bytes p g d x = Ok c) as Hin.
  { unfold put_inputs. rewrite Ek. cbn [mbind result_bind]. by rewrite Ex. }
  intros Hok. rewrite !bind_run. destruct (draws_first w Hok) as (x' & w' & -> & Hok' & Hv). rewrite <- Hv. unfold lift at 1.
  assert (forall e, exn_cls e = GraphStoreCorruptionError -> breakdown (put_spec max_graph_bytes p g d x) (pg_view w') (Raise e) (pg_view w')) as Hbroken.
  { intros e He. exists e. split; [done|]. split; [by right|by left]. }
  destruct (validated_new_revision x') as [x0|e] eqn:Ex'.
  2:{ split; [done|]. exists (pg_view w'). split; [constructor|right]. apply Hbroken. by eapply new_revision_raises. }
  apply new_revision_ok in Ex' as [-> Ex']. rewrite lift_bind. unfold graph_corrupt, reject_if. destruct (bool_decide (x' = x)).
  { split; [done|]. exists (pg_view w'). split; [constructor|right]. by apply Hbroken. }
  by apply transaction_keeps; [apply put_body_keeps|].
Qed.

(** Reading is a transaction that changes nothing. *)
Lemma reading_keeps {A} (body : graph_db -> result A) spec m :
  (forall d, graph_good d -> spec (tables_view d) (body d) (tables_view d)) -> keeps (graph_errors m (query body)) spec.
Proof.
  intros Hb w Hw. apply transaction_keeps; [|done]. intros d Hg. specialize (Hb d Hg). destruct (body d) as [a|e]; cbn [mbind result_bind]; [done|by left].
Qed.

Lemma get_transaction p g : keeps (pg_get_graph max_graph_bytes p g) (get_spec p g).
Proof.
  unfold pg_get_graph. intros w. rewrite lift_bind. destruct (validated_graph_key p g) as [key|e] eqn:Ek.
  - refine (reading_keeps _ (get_spec p g) _ _ w). intros d Hg. unfold get_spec. rewrite Ek. split; [done|].
    destruct (gb_graphs d !! key) as [row|] eqn:E.
    + destruct (view_some _ _ _ Hg E) as (r & Hr & ->). done.
    + by rewrite (view_none _ _ Hg E).
  - refine (raise_keeps e (get_spec p g) _ w). intros v. unfold get_spec. by rewrite Ek.
Qed.

(** ** Pages *)

Lemma take_in {A} (x : A) n l : x ∈ take n l -> x ∈ l.
Proof. intros (i & Hi & _)%elem_of_take. by eapply list_elem_of_lookup_2. Qed.
Lemma omap_every {A B} (f : A -> option B) l n : (forall x, x ∈ l -> is_Some (f x)) ->
  take n (omap f l) = omap f (take n l) /\ length (omap f l) = length l.
Proof.
  intros Hl. revert n. induction l as [|x l IH]; intros n; [by destruct n|]. destruct (Hl x (list_elem_of_here _ _)) as [y Hy].
  specialize (IH (fun x' Hx' => Hl x' (list_elem_of_further _ _ _ Hx'))). cbn. rewrite Hy. destruct n as [|n]; cbn; rewrite ?Hy; cbn.
  - by rewrite (proj2 (IH O)).
  - destruct (IH n) as [-> ->]. done.
Qed.

(** The rows of stored graphs give the summaries of their records, in order. *)
Lemma summaries_of_names d p l : graph_good d -> (forall g, g ∈ l -> is_Some (gb_graphs d !! (p, g))) ->
  exists items, summaries_from_rows (omap (fun g => gb_graphs d !! (p, g)) l) p = Ok items /\
    items = omap (fun g => summary <$> vg_graphs (tables_view d) !! (p, g)) l /\ su_graph <$> items = l.
Proof.
  intros Hg. induction l as [|g l IH]; intros Hl; [by exists []|]. destruct (Hl g (list_elem_of_here _ _)) as [row Hrow].
  destruct (IH (fun g' Hg' => Hl g' (list_elem_of_further _ _ _ Hg'))) as (items & IH' & -> & Hn).
  destruct (view_some _ _ _ Hg Hrow) as (r & Hr & Hv). destruct (record_fields _ _ _ _ _ _ _ _ _ Hr) as (_ & _ & Hgr & _).
  pose proof (row_key _ _ _ Hr) as [= _ Hgk]. eexists. cbn [omap list_omap]. rewrite Hrow, Hv.
  cbn [summaries_from_rows fmap option_fmap option_map]. rewrite (summary_of_row _ _ _ _ Hr). cbn [mbind result_bind]. rewrite IH'.
  split; [done|]. split; [done|]. cbn [fmap list_fmap su_graph summary]. by rewrite Hn, Hgr, Hgk.
Qed.

Lemma stored_names_dom {A B : Type} (p : string) (m : gmap (string * string) A) (m' : gmap (string * string) B) : dom m =@{gset (string * string)} dom m' -> stored_names p m = stored_names p m'.
Proof. unfold stored_names. by intros ->. Qed.
Lemma stored_names_stored {A : Type} (p : string) (m : gmap (string * string) A) (g : string) : g ∈ stored_names p m -> is_Some (m !! (p, g)).
Proof.
  unfold stored_names. intros ([p' g'] & -> & [Hp Hk]%list_elem_of_filter)%list_elem_of_fmap. cbn in *. subst p'. by apply elem_of_dom, elem_of_elements.
Qed.

Lemma page_keeps p (after : option string) n d : 1 <= n -> graph_good d ->
  (items ← summaries_from_rows (take (Z.to_nat n) (select_graphs collate p after (n + 1) d)) p;
   let next_cursor := if n <? Z.of_nat (length (select_graphs collate p after (n + 1) d)) then (fun s => encode_cursor p (su_graph s)) <$> last items else None in
   Ok {| gp_items := items; gp_next_cursor := next_cursor |}) = Ok (page_of collate p after n (vg_graphs (tables_view d))).
Proof.
  intros Hn Hg. unfold select_graphs, page_of, names. rewrite (stored_names_dom p _ _ (view_dom d Hg)).
  set (ids := py_sorted collate _). set (wanted := match after with Some a => filter (fun n => collate n a = false) ids | None => ids end).
  assert (forall g, g ∈ wanted -> is_Some (gb_graphs d !! (p, g))) as Hw.
  { intros g Hin. apply stored_names_stored. assert (g ∈ ids) as Hids by (subst wanted; destruct after; [by apply list_elem_of_filter in Hin as [_ ?]|done]).
    subst ids. by rewrite py_sorted_perm in Hids. }
  destruct (omap_every (fun g => gb_graphs d !! (p, g)) wanted (Z.to_nat (n + 1)) Hw) as [Ht Hl]. rewrite Ht.
  destruct (omap_every (fun g => gb_graphs d !! (p, g)) (take (Z.to_nat (n + 1)) wanted) (Z.to_nat n)) as [Ht' Hl'].
  { intros g Hin. apply Hw. by eapply take_in. }
  rewrite Ht', Hl', take_take, Nat.min_l, length_take by lia.
  destruct (summaries_of_names d p (take (Z.to_nat n) wanted) Hg) as (items & -> & -> & Hn').
  { intros g Hin. apply Hw. by eapply take_in. }
  cbn [mbind result_bind]. f_equal. f_equal. rewrite length_take.
  assert (last (take (Z.to_nat n) wanted) = su_graph <$> last (omap (fun g => summary <$> vg_graphs (tables_view d) !! (p, g)) (take (Z.to_nat n) wanted))) as ->
    by (by rewrite <- fmap_last, Hn').
  rewrite <- option_fmap_compose.
  destruct (Z.ltb_spec n (Z.of_nat (Z.to_nat (n + 1) `min` length wanted))), (Nat.ltb_spec (Z.to_nat n `min` length wanted) (length wanted)); lia || done.
Qed.

Lemma list_transaction p cursor n : keeps (pg_list_graphs collate p cursor n) (list_spec collate p cursor n).
Proof.
  assert (forall e, list_inputs p cursor n = Raise e -> keeps (lift (Raise e)) (list_spec collate p cursor n)) as Hraise.
  { intros e He. apply raise_keeps. intros v. unfold list_spec. by rewrite He. }
  unfold pg_list_graphs. intros w. rewrite lift_bind. unfold list_inputs in Hraise.
  destruct (validated_identifier p "project") as [p'|e] eqn:Ep; [|by apply Hraise]. pose proof (identifier_ok _ _ _ Ep) as ->. rewrite lift_bind.
  cbn [mbind result_bind] in Hraise. destruct (validated_page_size n) as [n'|e] eqn:En; [|by apply Hraise].
  pose proof (page_size_ok _ _ En) as ->. rewrite lift_bind. cbn [mbind result_bind] in Hraise.
  destruct (decode_cursor p cursor) as [after|e] eqn:Ec; [|by apply Hraise]. clear Hraise.
  refine (reading_keeps _ (list_spec collate p cursor n) _ _ w). intros d Hg. unfold list_spec, list_inputs. rewrite Ep. cbn [mbind result_bind].
  rewrite En. cbn [mbind result_bind]. rewrite Ec. split; [done|]. apply page_keeps; [|done].
  unfold validated_page_size, identifier_reject in En. apply seq_ok in En as [En _]. apply reject_if_ok, negb_false_iff, andb_prop in En as [En%Z.leb_le _]. done.
Qed.

(** The PostgreSQL graph store keeps the contract. *)
Lemma pg_contract : keeps_contract max_graph_bytes (HS := pg_graph_store collate max_graph_bytes) pg_ok pg_view collate.
Proof. split; [exact list_transaction|exact get_transaction|exact create_transaction|exact put_transaction|exact delete_transaction]. Qed.
#[export] Instance pg_graph_laws : GraphStoreLaws max_graph_bytes (world graph_db) (HS := pg_graph_store collate max_graph_bytes) :=
  { gs_keeps := pg_contract }.
End Refinement.
