(* ===== verification/GraphStoreInstances.v ===== *)
(** * Graph stores at work

    Both stores keep the contract of [GraphStoreSpec]; a document model whose
    documents are their canonical bytes, and worlds in which the theorems apply. *)

From S2P Require Import Prelude Transactions Regex PyStr Sha256 PyTime Json JsonParse JsonRead Base64 Identifiers PhysicalPlan RunCodec GraphStore GraphStoreSpec GraphStoreMemory GraphStorePg GraphStorePgSpec.

Local Open Scope string_scope.
Local Open Scope Z_scope.
Local Open Scope list_scope.

(** C15: the in-memory and the PostgreSQL graph store keep the contract of the
    [GraphStore] protocol - pages in the order of the store, exact reads, creates
    and deletes that record their outcome under the idempotency key together
    with the change, replacement and deletion only at the current revision,
    nothing changed by an error - the PostgreSQL store with other clients'
    transactions between any two of its own, transactions the server refuses and
    answers that are lost after the commit. *)
Theorem graph_stores_keep_contract {document} {GM : GraphModel document} {CM : CanonicalModel document}
    (collate : string -> string -> bool) (max_graph_bytes : Z) :
  keeps_contract max_graph_bytes (HS := memory_store max_graph_bytes) (fun _ => True) memory_view str_leb /\
  keeps_contract max_graph_bytes (HS := pg_graph_store collate max_graph_bytes) (pg_ok max_graph_bytes) (pg_view max_graph_bytes) collate.
Proof. split; [apply memory_contract|apply pg_contract]. Qed.

(** ** A document model *)

#[export] Instance bytes_model : GraphModel (list Z) := {
  model_validate := fun v => Some (canonical_json v);
  model_dump := fun d => default JNull (loads d);
  domain_payload := loads;
}.
#[export] Instance bytes_canonical : CanonicalModel (list Z).
Proof. intros v v' E. unfold model_validate, bytes_model. by rewrite E. Qed.

(** ** Other clients of the PostgreSQL store *)

Definition bound : Z := 65536.
#[local] Instance store : GraphStore (list Z) (world graph_db) := pg_graph_store str_leb bound.
Abbreviation safe := (pg_ok bound).

(** What a deletion by another client does, on a connection of its own. *)
Definition rival_deletes (p g x k : string) (d : graph_db) : graph_db :=
  wd_durable (delete_graph p g x k (World d [])).2.

(** Where nothing is seen to happen, a request that is refused may have been made. *)
Lemma same_meanwhile (v v' : graph_view (list Z)) : same v v' -> meanwhile bound v v'.
Proof. intros H. apply rtc_once. eapply (step_create bound v v' "" "" [] ""). split; [reflexivity|exact H]. Qed.

Lemma rival_lawful p g x k : lawful_event bound (Foreign (rival_deletes p g x k)).
Proof.
  intros d Hd. assert (safe (World d [])) as Hok by (by split).
  pose proof (keeps_delete _ _ _ _ (pg_contract str_leb bound) p g x k (World d []) Hok) as H. unfold rival_deletes.
  cbn [delete_graph store pg_graph_store] in H |- *.
  destruct (pg_delete_graph p g x k (World d [])) as [res w']. destruct H as ([Hg _] & v & Hv & Hs). split; [exact Hg|].
  etrans; [exact Hv|]. destruct Hs as [Hs|(e & _ & _ & [Hs|(a & Hs)])].
  - apply rtc_once. by eapply step_delete.
  - by apply same_meanwhile.
  - apply rtc_once. by eapply step_delete.
Qed.

(** ** A graph is created, deleted by another client, and the creation repeated *)

Definition orders : list Z := canonical_json (JObj [("name", JStr "orders")]).
Definition empty_db : graph_db := GraphDb ∅ ∅ [1000000; 1000001; 1000002; 1000003; 1000004] ["rev-1"; "rev-2"].
Definition first_day : world graph_db :=
  World empty_db [Clear; Foreign (rival_deletes "shop" "orders" "rev-1" "delete-0001"); Clear].
Definition creates (w : world graph_db) : result (GraphRecord (list Z)) * world graph_db :=
  create_graph "shop" "orders" orders "create-0001" w.

Lemma empty_db_good : graph_good (document := list Z) bound empty_db.
Proof. split; intros k row H; cbn in H; by rewrite lookup_empty in H. Qed.
Lemma first_day_safe : safe first_day.
Proof.
  split; [exact empty_db_good|]. apply Forall_cons; split; [done|]. apply Forall_cons; split; [apply rival_lawful|].
  by apply Forall_cons.
Qed.
(** Every operation leaves a world in which the next one may be made. *)
Lemma creates_safe w : safe w -> safe (creates w).2.
Proof.
  intros Hw. pose proof (keeps_create _ _ _ _ (pg_contract str_leb bound) "shop" "orders" orders "create-0001" w Hw) as H.
  unfold creates. by destruct (create_graph _ _ _ _ w) as [res w'], H.
Qed.

Definition revision_of (r : result (GraphRecord (list Z))) : option (string * string) :=
  match r with Ok r => Some (gd_graph r, gd_revision r) | Raise _ => None end.

(** The repeated creation answers the record of a graph that is no longer there. *)
Lemma keyed_mutations_once_witness : exists r,
  (creates first_day).1 = Ok r /\ gd_graph r = "orders" /\ gd_revision r = "rev-1" /\
  size (gb_graphs (wd_durable (creates (creates first_day).2).2)) = 0%nat /\
  exists v, meanwhile bound (pg_view bound (creates first_day).2) v /\
    answered v (Ok r) (creates (creates first_day).2).1 (pg_view bound (creates (creates first_day).2).2).
Proof.
  assert (revision_of (creates first_day).1 = Some ("orders", "rev-1")) as E by (vm_compute; reflexivity).
  destruct (creates first_day) as [[r|e] w1] eqn:E1; [|discriminate E]. injection E as Eg Er. exists r.
  split; [reflexivity|]. split; [exact Eg|]. split; [exact Er|]. split.
  - change (size (gb_graphs (wd_durable (creates w1).2)) = 0%nat). replace w1 with (creates first_day).2 by (rewrite E1; reflexivity).
    vm_compute. reflexivity.
  - assert (safe w1) as Hw1 by (pose proof (creates_safe _ first_day_safe) as H; rewrite E1 in H; exact H).
    cbn [fst snd]. destruct (creates w1) as [res w2] eqn:E2.
    exact (proj1 (keyed_mutations_once bound (L := pg_graph_laws str_leb bound)) "shop" "orders" orders "create-0001"
             first_day r w1 w1 res w2 first_day_safe E1 Eg (rtc_refl _ _) Hw1 E2).
Defined.

(** A world of the PostgreSQL store that is safe, and a page of it. *)
Lemma graph_stores_keep_contract_witness :
  safe first_day /\
  (list_graphs "shop" None 10 (World (wd_durable (creates (World empty_db [])).2) [])).1 =
    Ok {| gp_items := [{| su_project := "shop"; su_graph := "orders"; su_revision := "rev-1"; su_content_sha256 := sha256_hex orders;
                          su_created_at := "1970-01-01T00:00:01Z"; su_updated_at := "1970-01-01T00:00:01.000001Z" |}];
          gp_next_cursor := None |} /\
  keeps_contract bound (HS := memory_store bound) (fun _ : memory (list Z) => True) memory_view str_leb /\
  keeps_contract bound (HS := pg_graph_store str_leb bound) safe (pg_view bound) str_leb.
Proof.
  split; [exact first_day_safe|]. split; [vm_compute; reflexivity|]. exact (graph_stores_keep_contract str_leb bound).
Defined.
